(* ===== verification/_CoqProject ===== *)
-Q . S2P
Prelude.v
Memory.v
Bytes.v
Strings.v
Spinlock.v
Sleeplock.v
Kalloc.v
Vm.v
Bootmain.v
Mp.v
Apic.v
Uart.v
Uvm.v
Space.v
Ide.v
Memide.v
Blocks.v
Bio.v
Log.v
Tx.v
Fs.v
FsInv.v
Inodes.v
Files.v
Mkfs.v
Ring.v
Pipe.v
Proc.v
Procmem.v
Syscall.v
Trapasm.v
Setup.v
Startup.v
Sysfile.v
Crash.v
Aread.v
Exec.v
Sh.v
Grep.v
Printf.v
Console.v
Kbd.v
Conout.v
Umalloc.v
Coroutine.v
Progs.v
