(* ===== verification/Prelude.v ===== *)
(** * Verification of the xv6-64 kernel with kernel threads, and of its user library

    The program is a small Unix for x86-64: a boot loader, a kernel with processes and kernel
    threads, virtual memory, a file system with a log, pipes, asynchronous reads and a console, a
    library of coroutines, and user programs over its system calls.  This library translates its C
    code, and the assembly that it starts and is entered with, into functions that can be run,
    and proves what they promise.

    ** Files and what they model (paths under src/)

    - [Prelude]: machine integers at their width, the monad [M] of kernel code
      ([Ok], [Panic], [Block], [Fuel]), tactics and shared lemmas.
    - [Memory], [Bytes]: byte-addressed memory; structures in disk blocks.
    - [Strings]: string.c, the string part of ulib.c, [stosb] and [stosl] of x86.h.
    - [Spinlock], [Sleeplock]: spinlock.c and sleeplock.c; the first with the
      interleavings of its atomic actions on several CPUs.
    - [Kalloc], [Vm], [Uvm], [Space]: kalloc.c; the page tables of vm.c in memory, from
      [walkpgdir] to [copyout], with their invariant; what the functions on the
      user part of an address space promise; [freevm], [copyuvm], [clearpteu], with several address spaces.
    - [Bootmain], [Startup]: bootmain.c over its disk controller; bootasm.S, entry.S and
      entryother.S by their effect on the registers of a processor, and [startothers] of main.c.
    - [Mp], [Apic], [Uart], [Setup], [Trapasm]: mp.c; ioapic.c and lapic.c with the clock; uart.c; [kvmalloc], [seginit],
      [tvinit] and [syscallinit]; trapasm.S, vectors.S and usys.S by their instructions.
    - [Ide], [Memide], [Blocks], [Bio], [Log], [Tx]: ide.c with its controller; memide.c and [ideinit]; the
      interface of the buffer cache as a class with laws, and bio.c, which
      implements it; log.c over that interface; the interface of transactions,
      which the log implements.
    - [Fs], [FsInv], [Inodes], [Files], [Mkfs]: fs.c over that interface; its invariants; blocks and inodes; what
      files, directories and paths promise; mkfs.c.
    - [Ring], [Pipe]: ring buffers with wrapping counters; pipe.c with the
      interleavings of readers and writers.
    - [Proc], [Procmem]: proc.c; the locked sections as steps of the process table, and the
      calls over a class of operations of the rest of the kernel; the same calls over the page
      allocator and the page tables.
    - [Syscall]: the arguments and the dispatch of syscall.c, sysproc.c, trap.c.
    - [Sysfile], [Crash]: file.c, [pipealloc], and all calls of sysfile.c; [filewrite] with its transactions over the log.
    - [Aread], [Exec]: the asynchronous reads of proc.c; exec.c and [loaduvm].
    - [Console], [Kbd], [Conout], [Printf]: the line discipline and the screen of console.c; kbd.c; output, [panic], [procdump] and the
      interrupt handlers of the console; printf.c and [cprintf].
    - [Sh], [Grep], [Umalloc], [Coroutine], [Progs]: sh.c; grep.c and wc.c; umalloc.c; coroutine.c with swtch.S; the
      small programs (cat, echo, wc, grep, ls, ln, mkdir, rm, kill, init, the loop of the shell) over an interface of system calls.

    ** How state and operations correspond

    A struct is a [Record], a table a function from its index, a pointer into a
    table the index, a pointer to memory a [Z].  A function of the source is a
    definition of the same name; a loop is a [Fixpoint] named after it.  A
    locked section is one atomic step, because its lock is held: [Spinlock]
    shows that this excludes other CPUs.  Where the order of steps of several
    processes matters ([Spinlock], [Sleeplock], [Ide], [Log], [Pipe], [Proc], [Procmem],
    [Sysfile], [Aread]) they are a relation, and the theorems hold of every sequence of
    its steps; the calls are shown to make only such steps.  A call that sleeps
    is [Block], where the caller tries again from the head of a loop, or a
    result that says what is left to do.  A device is a state with the effect of each access to
    its registers, as documented; how long it is busy is a parameter.

    ** What the theorems show

    - Storage: the buffer cache implements an array of blocks with pins; a crash
      at any disk write leaves all or none of a committed transaction, and
      recovery may itself crash; so does a crash in a [write]; [balloc], [writei], [readi], [iupdate],
      [ilock], [dirlookup] and [dirlink] implement files as arrays of bytes and
      directories as maps, without touching blocks of other files; the kernel finds in the
      image of mkfs the files it was made from; the memory disk does what the disk does.
    - Memory: pages are not given out twice; page tables map what was asked and
      nothing else; in every history of calls of all processes no page has two uses and no
      process touches the memory of another; [fork] copies it and [exec] replaces it; the
      kernel's half is mapped alike in all tables; the blocks of user [malloc] do not overlap in any
      history of calls.
    - Processes: the table stays well formed under any interleaving (pids are
      unique, no zombie is lost, no parent sleeps past a dead child), [fork],
      [exit], [wait] and [growproc] only make its steps, and so does every
      system call and trap; the scheduler is fair; traps and system calls save
      and restore the registers of the user.
    - Files and pipes: reference counts, ends and pages of pipes are right in
      every interleaving of the calls; a pipe delivers its bytes in order across
      the wrap of its counters, and wakes its sleepers; asynchronous reads are served in order.
    - Locks: mutual exclusion.  Devices: every queued request of the disk is
      served; console input is a line editor; the cursor stays on the screen; a panic is
      reported; characters are sent in order; interrupts go where they were routed; the date is one the clock showed.
    - Start: the boot loader loads the kernel; the processors of the firmware's table are
      found, started once each, and enter the kernel in long mode on stacks of their own.
    - Programs: parsing inverts printing in the shell, ends on every line and
      leaves terminated strings; a pipeline connects its commands; the matcher
      of grep decides the language of its expression; cat, wc, echo and ls print what
      they should whatever the sizes of the reads; a coroutine runs its parts in order.
    - Faults of the code, as theorems: a null dereference in [uva2ka], a page lost by [copyuvm], the log's
      reservation one block short, transactions of [filewrite] larger than the
      reservation, [argptr] accepting kernel addresses, a wakeup lost by a
      killed writer of a pipe, [kill(0)] killing the next process, [exec] stopping the kernel
      on two kinds of input, asynchronous reads copying kernel memory and overrunning
      their queue, coroutines lost by [co_new] and [co_run_all], [procdump] missing frames.

    ** Bounds and fuel

    Integers have the width of their C type where the code can leave it; where
    no wrap-around is written the theorems' invariants bound the value.  Loops
    over tables run their constant number of turns.  Fuel is computed from the
    input: [io_fuel] from a byte count, [dir_fuel] from a directory's size,
    [S (length path)] for [namex], the number of chunks for [filewrite], the
    length of the line for the shell's parser; the theorems about these
    functions prove a result other than [Fuel].  Where fuel is an argument (waits for a device, the reads
    of a program) the theorem asks for more than the device is busy, or the file long.
    [writei_correct] asks its transaction for six updates per block touched, and one;
    [write_crash_atomic] asks for a log with more blocks than that; [exec_correct] for arguments of at most two pages and
    program headers above the first page; [mkfs_correct] for files that fit the image, of which it has 198;
    [process_memory_isolated] takes the operations on files as a parameter that keeps to free pages
    and its own, and a size of at least one byte when a process shrinks, where [growproc] is wrong for 0;
    [cmostime_correct] for a clock that rests for 26 reads.

    ** Not modelled

    - [main], [mpenter] and [mpmain] of main.c, which only call the functions that set up each
      part in turn, and initcode.S, which calls [exec]: the functions are modelled with their parts, each on the state of
      its part.
    - [getcallerpcs] of spinlock.c, which reads its caller's frame.
    - The test programs usertests.c, forktest.c, stressfs.c, zombie.c, aread.c, co*.c.
    - Caches of the processor and memory ordering beyond that of the locks.
    - In [Proc] the operations of the rest of the kernel act on their own state;
      a wakeup that they make is the step [step_wakeup] of the table.  In [Procmem] a call is one step on
      memory: other processes run between calls, and [exec] is not among the
      steps; [Exec] proves that it exchanges the pages of one process and leaves the rest. *)
From Stdlib Require Export ZArith Lia FunctionalExtensionality.
From stdpp Require Export prelude functions list gmap strings.

#[global] Open Scope Z_scope.

(** ** Machine integers

    The kernel is compiled for x86-64 with [uint = 32] bits, [int = 32] bits,
    [addr_t = uint64].  Values are kept as [Z]; a wrap-around is written where
    the C expression can leave the range of its type. *)

Definition u8 (x : Z) : Z := x mod 256.
Definition u16 (x : Z) : Z := x mod 65536.
Definition u32 (x : Z) : Z := x mod 4294967296.
Definition u64 (x : Z) : Z := x mod 18446744073709551616.

(** Conversion of a 32-bit pattern to [int] (two's complement), likewise for
    [char], [short] and [long]. *)
Definition s8 (x : Z) : Z := if u8 x <? 128 then u8 x else u8 x - 256.
Definition s16 (x : Z) : Z := if u16 x <? 32768 then u16 x else u16 x - 65536.
Definition s32 (x : Z) : Z :=
  if u32 x <? 2147483648 then u32 x else u32 x - 4294967296.
Definition s64 (x : Z) : Z :=
  if u64 x <? 9223372036854775808 then u64 x else u64 x - 18446744073709551616.

(** ** Outcomes of kernel code

    [Ok] is a normal return, [Panic] a call of [panic], [Block] a call of
    [sleep] that takes the process off the CPU (the caller retries from the
    loop head when it is woken), and [Fuel] the exhaustion of the fuel of a
    loop of the model; the theorems show where [Fuel] cannot happen. *)
Inductive res (A : Type) : Type :=
| Ok (a : A)
| Panic (msg : string)
| Block
| Fuel.
Arguments Ok {A} a.
Arguments Panic {A} msg.
Arguments Block {A}.
Arguments Fuel {A}.

(** ** The state monad of kernel code *)
Definition M (S A : Type) : Type := S -> res (A * S).

Section Monad.
Context {S : Type}.

Definition ret {A} (a : A) : M S A := fun s => Ok (a, s).
Definition bind {A B} (c : M S A) (k : A -> M S B) : M S B := fun s =>
  match c s with
  | Ok (a, s') => k a s'
  | Panic msg => Panic msg
  | Block => Block
  | Fuel => Fuel
  end.
Definition get : M S S := fun s => Ok (s, s).
Definition gets {A} (f : S -> A) : M S A := fun s => Ok (f s, s).
Definition put (s : S) : M S unit := fun _ => Ok (tt, s).
Definition modify (f : S -> S) : M S unit := fun s => Ok (tt, f s).
Definition panic {A} (msg : string) : M S A := fun _ => Panic msg.
Definition block {A} : M S A := fun _ => Block.
Definition out_of_fuel {A} : M S A := fun _ => Fuel.

Lemma bind_assoc {A B C} (c : M S A) (f : A -> M S B) (g : B -> M S C) s :
  bind (bind c f) g s = bind c (fun a => bind (f a) g) s.
Proof. unfold bind. by destruct (c s) as [[a s']| | |]. Qed.

Lemma bind_Ok_inv {A B} (c : M S A) (k : A -> M S B) s b s' :
  bind c k s = Ok (b, s') ->
  exists a s1, c s = Ok (a, s1) /\ k a s1 = Ok (b, s').
Proof.
  unfold bind. destruct (c s) as [[a s1]|m| |] eqn:E; try discriminate; eauto.
Qed.

Lemma bind_Ok {A B} (c : M S A) (k : A -> M S B) s a s1 :
  c s = Ok (a, s1) -> bind c k s = k a s1.
Proof. unfold bind. by intros ->. Qed.
End Monad.

Declare Scope xv6_scope.
Delimit Scope xv6_scope with xv6.
Notation "'let!' x ':=' c 'in' k" := (bind c (fun x => k))
  (at level 10, x pattern, c at level 100, k at level 200)
  : xv6_scope.
Notation "'do!' c 'in' k" := (bind c (fun _ => k))
  (at level 10, c at level 100, k at level 200) : xv6_scope.
#[global] Open Scope xv6_scope.

Create HintDb xv6.

(** ** Tactics *)

(** Invert the successful run of a monadic computation. *)
Ltac minv :=
  repeat match goal with
  | H : bind _ _ _ = Ok (_, _) |- _ =>
      let a := fresh "a" in let s := fresh "s" in
      let H1 := fresh H in
      apply bind_Ok_inv in H as (a & s & H1 & H)
  | H : ret _ _ = Ok _ |- _ => unfold ret in H; simplify_eq
  | H : get _ = Ok _ |- _ => unfold get in H; simplify_eq
  | H : gets _ _ = Ok _ |- _ => unfold gets in H; simplify_eq
  | H : put _ _ = Ok _ |- _ => unfold put in H; simplify_eq
  | H : modify _ _ = Ok _ |- _ => unfold modify in H; simplify_eq
  | H : panic _ _ = Ok _ |- _ => discriminate H
  | H : block _ = Ok _ |- _ => discriminate H
  | H : out_of_fuel _ = Ok _ |- _ => discriminate H
  end.

(** Split the goal on the first boolean test of integers it contains. *)
Ltac btest :=
  match goal with
  | |- context [?a <? ?b] => destruct (Z.ltb_spec a b)
  | |- context [?a <=? ?b] => destruct (Z.leb_spec a b)
  | |- context [?a =? ?b] => destruct (Z.eqb_spec a b)
  end.
Ltac btest_in H :=
  match type of H with
  | context [?a <? ?b] => destruct (Z.ltb_spec a b)
  | context [?a <=? ?b] => destruct (Z.leb_spec a b)
  | context [?a =? ?b] => destruct (Z.eqb_spec a b)
  end.

(** Case analysis on function updates [<[a := v]> f b]. *)
Ltac fn_case :=
  match goal with
  | |- context [@insert _ _ _ (@fn_insert _ _ _) ?a ?v ?f ?b] =>
      destruct (decide (a = b));
      [simplify_eq; rewrite !fn_lookup_insert|rewrite !(fn_lookup_insert_ne f a b v) by done]
  | H : context [@insert _ _ _ (@fn_insert _ _ _) ?a ?v ?f ?b] |- _ =>
      destruct (decide (a = b));
      [simplify_eq; rewrite !fn_lookup_insert in H
      |rewrite !(fn_lookup_insert_ne f a b v) in H by done]
  end.
Ltac fn_simpl := repeat (fn_case; simpl in *; try done).

(** All cases of the function updates of a goal at once. *)
Ltac fn_cases :=
  cbv zeta; unfold insert, fn_insert; repeat (case_decide; simpl in *);
  simplify_eq; try done; try congruence.

(** [lia] with the machine-integer wrappers and division unfolded. *)
Ltac word_lia :=
  unfold u8, u16, u32, u64 in *; Z.to_euclidean_division_equations; lia.

(** ** Machine integer lemmas *)

Lemma u64_small x : 0 <= x < 18446744073709551616 -> u64 x = x.
Proof. intros; unfold u64; by apply Z.mod_small. Qed.
Lemma u32_small x : 0 <= x < 4294967296 -> u32 x = x.
Proof. intros; unfold u32; by apply Z.mod_small. Qed.
Lemma u8_small x : 0 <= x < 256 -> u8 x = x.
Proof. intros; unfold u8; by apply Z.mod_small. Qed.
Lemma s32_small x : -2147483648 <= x < 2147483648 -> s32 x = x.
Proof.
  intros H. unfold s32, u32. destruct (Z.le_gt_cases 0 x).
  - rewrite Z.mod_small by lia. by destruct (Z.ltb_spec x 2147483648); [|lia].
  - replace (x mod 4294967296) with (x + 4294967296)
      by (apply (Z.mod_unique_pos _ _ (-1)); lia).
    destruct (Z.ltb_spec (x + 4294967296) 2147483648); lia.
Qed.
Lemma u64_bound x : 0 <= u64 x < 18446744073709551616.
Proof. unfold u64; by apply Z.mod_pos_bound. Qed.
Lemma u32_bound x : 0 <= u32 x < 4294967296.
Proof. unfold u32; by apply Z.mod_pos_bound. Qed.
Lemma s32_bound x : -2147483648 <= s32 x < 2147483648.
Proof. unfold s32, u32. case_match; Z.to_euclidean_division_equations; lia. Qed.
Lemma u8_bound x : 0 <= u8 x < 256.
Proof. unfold u8; by apply Z.mod_pos_bound. Qed.

(** ** Function updates *)

Lemma fn_insert_insert {A T} `{EqDecision A} (f : A -> T) (a : A) (x y : T) :
  <[a := x]> (<[a := y]> f) = <[a := x]> f.
Proof.
  apply functional_extensionality. intros b. destruct (decide (a = b)) as [<-|].
  - by rewrite !fn_lookup_insert.
  - by rewrite !fn_lookup_insert_ne.
Qed.

Lemma fn_insert_id {A T} `{EqDecision A} (f : A -> T) (a : A) (x : T) :
  f a = x -> <[a := x]> f = f.
Proof.
  intros <-. apply functional_extensionality. intros b. destruct (decide (a = b)) as [<-|].
  - by rewrite fn_lookup_insert.
  - by rewrite fn_lookup_insert_ne.
Qed.

(** ** Lists *)

Lemma prefix_app_cases {A} (l l1 l2 : list A) :
  l `prefix_of` l1 ++ l2 -> l `prefix_of` l1 \/ exists l', l = l1 ++ l' /\ l' `prefix_of` l2.
Proof.
  revert l. induction l1 as [|x l1 IH]; intros l H; [right; by exists l|].
  destruct l as [|y l]; [left; apply prefix_nil|].
  simpl in H. apply prefix_cons_inv_1 in H as E. apply prefix_cons_inv_2 in H. subst y.
  destruct (IH l H) as [?|(l' & -> & ?)].
  - left. by apply prefix_cons.
  - right. by exists l'.
Qed.

(** A property that holds initially and that every step keeps holds of all
    reachable states. *)
Lemma rtc_invariant {A} (R : relation A) (P : A -> Prop) x y :
  P x -> (forall a b, P a -> R a b -> P b) -> rtc R x y -> P y.
Proof. intros Hx Hs Hr. revert Hx. induction Hr; eauto. Qed.
