(* ===== verification/Memory.v ===== *)
(** * Byte-addressed memory

    The memory the kernel and the user library work on: a finite map from
    addresses to bytes, with little-endian loads and stores of C objects.
    Addresses that were never written read as zero. *)
From S2P Require Import Prelude.

Abbreviation mem := (gmap Z Z).

Definition rd (m : mem) (a : Z) : Z := u8 (default 0 (m !! a)).
Definition wr (m : mem) (a v : Z) : mem := <[a := u8 v]> m.

(** Little-endian access to an [n]-byte object. *)
Fixpoint load (n : nat) (m : mem) (a : Z) : Z :=
  match n with
  | O => 0
  | S n => rd m a + 256 * load n m (a + 1)
  end.

Fixpoint store (n : nat) (m : mem) (a v : Z) : mem :=
  match n with
  | O => m
  | S n => store n (wr m a (v mod 256)) (a + 1) (v / 256)
  end.

Definition load32 (m : mem) (a : Z) : Z := load 4 m a.
Definition store32 (m : mem) (a v : Z) : mem := store 4 m a v.
Definition load64 (m : mem) (a : Z) : Z := load 8 m a.
Definition store64 (m : mem) (a v : Z) : mem := store 8 m a v.

(** The bytes [m[a..a+n)] as a list, and the update of a byte range. *)
Fixpoint rd_bytes (n : nat) (m : mem) (a : Z) : list Z :=
  match n with
  | O => []
  | S n => rd m a :: rd_bytes n m (a + 1)
  end.

Fixpoint wr_bytes (m : mem) (a : Z) (l : list Z) : mem :=
  match l with
  | [] => m
  | b :: l => wr_bytes (wr m a b) (a + 1) l
  end.

(** Two memories agree when every byte of them reads the same. *)
Definition mem_eq (m1 m2 : mem) : Prop := forall a, rd m1 a = rd m2 a.

Definition in_range (a n x : Z) : bool := (a <=? x) && (x <? a + n).

#[export] Instance mem_eq_equiv : Equivalence mem_eq.
Proof.
  split; [by intros m a|by intros m1 m2 H a|].
  intros m1 m2 m3 H1 H2 a. by rewrite H1.
Qed.

Lemma rd_bound m a : 0 <= rd m a < 256.
Proof. apply u8_bound. Qed.

Lemma rd_wr_eq m a v : rd (wr m a v) a = u8 v.
Proof.
  unfold rd, wr. rewrite lookup_insert_eq. simpl. apply u8_small, u8_bound.
Qed.

Lemma rd_wr_ne m a b v : a <> b -> rd (wr m b v) a = rd m a.
Proof. intros. unfold rd, wr. by rewrite lookup_insert_ne. Qed.

Lemma rd_wr m a b v : rd (wr m b v) a = if a =? b then u8 v else rd m a.
Proof.
  destruct (Z.eqb_spec a b) as [->|]; [apply rd_wr_eq|by apply rd_wr_ne].
Qed.

#[export] Instance wr_proper : Proper (mem_eq ==> eq ==> eq ==> mem_eq) wr.
Proof. intros m1 m2 H a ? <- v ? <- x. rewrite !rd_wr. by rewrite H. Qed.

Lemma in_range_true a n x : in_range a n x = true <-> a <= x < a + n.
Proof. unfold in_range. rewrite andb_true_iff, Z.leb_le, Z.ltb_lt. lia. Qed.

Lemma in_range_false a n x : in_range a n x = false <-> x < a \/ a + n <= x.
Proof. unfold in_range. rewrite andb_false_iff, Z.leb_gt, Z.ltb_ge. lia. Qed.

Lemma in_range_spec a n x :
  reflect (a <= x < a + n) (in_range a n x).
Proof.
  destruct (in_range a n x) eqn:E; constructor.
  - by apply in_range_true.
  - apply in_range_false in E. lia.
Qed.

(** ** Loads and stores *)

Lemma load_ext n m1 m2 a :
  (forall i, a <= i < a + Z.of_nat n -> rd m1 i = rd m2 i) ->
  load n m1 a = load n m2 a.
Proof.
  revert a. induction n as [|n IH]; intros a H; simpl; [done|].
  rewrite (H a) by lia. rewrite (IH (a + 1)); [done|]. intros; apply H; lia.
Qed.

#[export] Instance load_proper n : Proper (mem_eq ==> eq ==> eq) (load n).
Proof. intros m1 m2 H a ? <-. apply load_ext. intros; apply H. Qed.

Lemma rd_store_out n m a v x :
  x < a \/ a + Z.of_nat n <= x -> rd (store n m a v) x = rd m x.
Proof.
  revert m a v. induction n as [|n IH]; intros m a v H; simpl; [done|].
  rewrite IH by lia. apply rd_wr_ne. lia.
Qed.

Lemma load_store_eq n m a v :
  load n (store n m a v) a = v mod 256 ^ Z.of_nat n.
Proof.
  revert m a v. induction n as [|n IH]; intros m a v.
  { simpl. by rewrite Z.mod_1_r. }
  cbn [load store]. rewrite rd_store_out by lia. rewrite rd_wr_eq, IH.
  unfold u8. rewrite Z.mod_mod by lia.
  rewrite Nat2Z.inj_succ, Z.pow_succ_r by lia.
  rewrite (Z.rem_mul_r v) by lia. done.
Qed.

Lemma load_store_ne n k m a b v :
  a + Z.of_nat n <= b \/ b + Z.of_nat k <= a ->
  load n (store k m b v) a = load n m a.
Proof. intros H. apply load_ext. intros i Hi. apply rd_store_out. lia. Qed.

Lemma load_bound n m a : 0 <= load n m a < 256 ^ Z.of_nat n.
Proof.
  revert a. induction n as [|n IH]; intros a; simpl load; [lia|].
  rewrite Nat2Z.inj_succ, Z.pow_succ_r by lia.
  pose proof (rd_bound m a). specialize (IH (a + 1)). lia.
Qed.

Lemma load64_store64_eq m a v : load64 (store64 m a v) a = u64 v.
Proof. unfold load64, store64. by rewrite load_store_eq. Qed.

Lemma load64_store64_ne m a b v :
  a + 8 <= b \/ b + 8 <= a -> load64 (store64 m b v) a = load64 m a.
Proof. intros. unfold load64, store64. rewrite load_store_ne; [done|lia]. Qed.

Lemma load64_bound m a : 0 <= load64 m a < 18446744073709551616.
Proof. apply (load_bound 8). Qed.

Lemma rd_store64_out m a v x :
  x < a \/ a + 8 <= x -> rd (store64 m a v) x = rd m x.
Proof. intros. apply rd_store_out. lia. Qed.

Lemma load64_ext m1 m2 a :
  (forall i, a <= i < a + 8 -> rd m1 i = rd m2 i) -> load64 m1 a = load64 m2 a.
Proof. intros H. apply load_ext. intros; apply H; lia. Qed.

Lemma load64_zero m a :
  (forall i, a <= i < a + 8 -> rd m i = 0) -> load64 m a = 0.
Proof.
  intros H. unfold load64. simpl load.
  rewrite !H by lia. done.
Qed.

(** ** Byte ranges *)

Lemma length_rd_bytes n m a : length (rd_bytes n m a) = n.
Proof. revert a; induction n; intros; simpl; [done|by rewrite IHn]. Qed.

Lemma rd_bytes_lookup n m a i :
  (i < n)%nat -> rd_bytes n m a !! i = Some (rd m (a + Z.of_nat i)).
Proof.
  revert a i. induction n as [|n IH]; intros a i Hi; [lia|].
  destruct i as [|i]; simpl.
  - by rewrite Z.add_0_r.
  - rewrite IH by lia. do 2 f_equal. lia.
Qed.

Lemma rd_bytes_ext n m1 m2 a :
  (forall i, a <= i < a + Z.of_nat n -> rd m1 i = rd m2 i) ->
  rd_bytes n m1 a = rd_bytes n m2 a.
Proof.
  revert a. induction n as [|n IH]; intros a H; simpl; [done|].
  rewrite (H a) by lia. f_equal. apply IH. intros; apply H; lia.
Qed.

Lemma rd_wr_bytes m a l x :
  rd (wr_bytes m a l) x =
  if in_range a (Z.of_nat (length l)) x
  then u8 (default 0 (l !! Z.to_nat (x - a))) else rd m x.
Proof.
  revert m a. induction l as [|b l IH]; intros m a; simpl.
  { by destruct (in_range_spec a (Z.of_nat 0) x); [lia|]. }
  rewrite IH. destruct (in_range_spec (a + 1) (Z.of_nat (length l)) x),
    (in_range_spec a (Z.of_nat (S (length l))) x); try lia.
  - replace (Z.to_nat (x - a)) with (S (Z.to_nat (x - (a + 1)))) by lia. done.
  - replace x with a by lia. rewrite Z.sub_diag, rd_wr_eq. done.
  - apply rd_wr_ne. lia.
Qed.

Lemma rd_wr_bytes_out m a l x :
  x < a \/ a + Z.of_nat (length l) <= x -> rd (wr_bytes m a l) x = rd m x.
Proof.
  intros H. rewrite rd_wr_bytes. by destruct (in_range_spec a (Z.of_nat (length l)) x); [lia|].
Qed.
