(* ===== verification/Bytes.v ===== *)
(** * Structures in a disk block

    The kernel reads and writes structures in the bytes of a buffer through
    casts of [b->data].  [get_le] and [put_le] are little-endian loads and
    stores of [n] bytes at an offset of a block. *)
From S2P Require Import Prelude.

Fixpoint get_le (n : nat) (d : list Z) (off : nat) : Z :=
  match n with
  | O => 0
  | S n => u8 (default 0 (d !! off)) + 256 * get_le n d (S off)
  end.

Fixpoint put_le (n : nat) (d : list Z) (off : nat) (v : Z) : list Z :=
  match n with
  | O => d
  | S n => put_le n (<[off := v mod 256]> d) (S off) (v / 256)
  end.

Definition get16 (d : list Z) (off : nat) : Z := get_le 2 d off.
Definition put16 (d : list Z) (off : nat) (v : Z) : list Z := put_le 2 d off v.
Definition get32 (d : list Z) (off : nat) : Z := get_le 4 d off.
Definition put32 (d : list Z) (off : nat) (v : Z) : list Z := put_le 4 d off v.

Lemma length_put_le n d off v : length (put_le n d off v) = length d.
Proof.
  revert d off v. induction n as [|n IH]; intros; simpl; [done|].
  by rewrite IH, length_insert.
Qed.

Lemma lookup_put_le_ne n d off v i :
  (i < off \/ off + n <= i)%nat -> put_le n d off v !! i = d !! i.
Proof.
  revert d off v. induction n as [|n IH]; intros d off v Hi; simpl; [done|].
  rewrite IH by lia. by rewrite list_lookup_insert_ne by lia.
Qed.

Lemma get_le_ext n d d' off :
  (forall i, (off <= i < off + n)%nat -> d !! i = d' !! i) -> get_le n d off = get_le n d' off.
Proof.
  revert off. induction n as [|n IH]; intros off H; simpl; [done|].
  rewrite (H off) by lia. rewrite (IH (S off)); [done|]. intros i Hi. apply H. lia.
Qed.

Lemma get_put_ne n m d off off' v :
  (off + n <= off' \/ off' + m <= off)%nat -> get_le n (put_le m d off' v) off = get_le n d off.
Proof. intros H. apply get_le_ext. intros i Hi. apply lookup_put_le_ne. lia. Qed.

Lemma get_put_eq n d off v :
  (off + n <= length d)%nat -> get_le n (put_le n d off v) off = v mod 256 ^ Z.of_nat n.
Proof.
  revert d off v. induction n as [|n IH]; intros d off v Hl; [by rewrite Z.mod_1_r|].
  cbn [get_le put_le]. rewrite lookup_put_le_ne by lia.
  rewrite list_lookup_insert_eq by lia. simpl default.
  rewrite IH by (rewrite length_insert; lia).
  rewrite u8_small by (apply Z.mod_pos_bound; lia).
  replace (Z.of_nat (S n)) with (1 + Z.of_nat n) by lia.
  rewrite Z.pow_add_r, Z.pow_1_r by lia.
  rewrite (Z.rem_mul_r v 256) by lia. done.
Qed.

Lemma get_le_bound n d off : 0 <= get_le n d off < 256 ^ Z.of_nat n.
Proof.
  revert off. induction n as [|n IH]; intros off; [done|]. cbn [get_le].
  specialize (IH (S off)). pose proof (Z.mod_pos_bound (default 0 (d !! off)) 256 ltac:(lia)).
  replace (Z.of_nat (S n)) with (1 + Z.of_nat n) by lia.
  rewrite Z.pow_add_r, Z.pow_1_r by lia. unfold u8. lia.
Qed.

Lemma get32_put32_eq d off v :
  (off + 4 <= length d)%nat -> get32 (put32 d off v) off = u32 v.
Proof. intros. unfold get32, put32. by rewrite get_put_eq. Qed.

Lemma get32_put32_ne d off off' v :
  (off + 4 <= off' \/ off' + 4 <= off)%nat -> get32 (put32 d off' v) off = get32 d off.
Proof. intros. unfold get32, put32. by rewrite get_put_ne. Qed.

Lemma length_put32 d off v : length (put32 d off v) = length d.
Proof. apply length_put_le. Qed.

Lemma get16_put16_eq d off v :
  (off + 2 <= length d)%nat -> get16 (put16 d off v) off = u16 v.
Proof. intros. unfold get16, put16. by rewrite get_put_eq. Qed.

#[export] Hint Rewrite length_put_le length_put32 : xv6.
