(* ===== verification/Strings.v ===== *)
(** * String and memory routines: string.c and the string part of ulib.c

    Writes go to a [mem].  A [const char*] that is only read is its byte
    reader: [p i] is the byte at offset [i] from the pointer, so that the same
    definition serves a C string in memory ([at_mem m a]) and a local character
    array ([at_list l]). *)
From S2P Require Import Prelude Memory.

Definition at_mem (m : mem) (a : Z) : nat -> Z := fun i => rd m (a + Z.of_nat i).
Definition at_list (l : list Z) : nat -> Z := fun i => default 0 (l !! i).
(** [p+1] *)
Definition next (p : nat -> Z) : nat -> Z := fun i => p (S i).

(** ** x86.h *)

(** [cld; rep stosb]: store the low byte of [data] [cnt] times. *)
Fixpoint stosb (m : mem) (addr data : Z) (cnt : nat) : mem :=
  match cnt with
  | O => m
  | S cnt => stosb (wr m addr data) (addr + 1) data cnt
  end.

(** [cld; rep stosl]: store the 32-bit [data] [cnt] times. *)
Fixpoint stosl (m : mem) (addr data : Z) (cnt : nat) : mem :=
  match cnt with
  | O => m
  | S cnt => stosl (store32 m addr data) (addr + 4) data cnt
  end.

(** ** string.c *)

(** [memset]: word stores when pointer and length are multiples of four.  The
    count is passed on as an [int]. *)
Definition memset (m : mem) (dst c n : Z) : mem :=
  if (dst mod 4 =? 0) && (n mod 4 =? 0) then
    let c := Z.land c 255 in
    stosl m dst
      (Z.lor (Z.lor (Z.lor (Z.shiftl c 24) (Z.shiftl c 16)) (Z.shiftl c 8)) c)
      (Z.to_nat (u32 (n / 4)))
  else stosb m dst c (Z.to_nat (u32 n)).

Fixpoint memcmp (s1 s2 : nat -> Z) (n : nat) : Z :=
  match n with
  | O => 0
  | S n => if u8 (s1 O) =? u8 (s2 O) then memcmp (next s1) (next s2) n
           else u8 (s1 O) - u8 (s2 O)
  end.

(** The two loops of [memmove]. *)
Fixpoint copy_down (n : nat) (m : mem) (d s : Z) : mem :=
  match n with
  | O => m
  | S n => copy_down n (wr m (d - 1) (rd m (s - 1))) (d - 1) (s - 1)
  end.
Fixpoint copy_up (n : nat) (m : mem) (d s : Z) : mem :=
  match n with
  | O => m
  | S n => copy_up n (wr m d (rd m s)) (d + 1) (s + 1)
  end.

Definition memmove (m : mem) (dst src n : Z) : mem :=
  let s := src in
  let d := dst in
  if (s <? d) && (d <? s + n) then copy_down (Z.to_nat n) m (d + n) (s + n)
  else copy_up (Z.to_nat n) m d s.

Definition memcpy (m : mem) (dst src n : Z) : mem := memmove m dst src n.

Fixpoint strncmp (p q : nat -> Z) (n : nat) : Z :=
  match n with
  | O => 0
  | S n => if negb (p O =? 0) && (p O =? q O)
           then strncmp (next p) (next q) n
           else u8 (p O) - u8 (q O)
  end.

(** [strncpy(s, t, n)]: the bytes stored at [s[0..n)]; [s] and [t] do not
    overlap.  [strncpy_pad] is the second loop. *)
Fixpoint strncpy_pad (n : nat) : list Z :=
  match n with
  | O => []
  | S n => 0 :: strncpy_pad n
  end.
Fixpoint strncpy (t : nat -> Z) (n : nat) : list Z :=
  match n with
  | O => []
  | S n => if t O =? 0 then 0 :: strncpy_pad n else t O :: strncpy (next t) n
  end.

(** [safestrcpy(s, t, n)]: the bytes stored from [s[0]] on. *)
Fixpoint safestrcpy_loop (t : nat -> Z) (n : nat) : list Z :=
  match n with
  | O => [0]
  | S n => if t O =? 0 then [0; 0] else t O :: safestrcpy_loop (next t) n
  end.
Definition safestrcpy (t : nat -> Z) (n : Z) : list Z :=
  if n <=? 0 then [] else safestrcpy_loop t (Z.to_nat (n - 1)).

(** [strlen], of the kernel and of ulib.c; [None] when no NUL byte is found
    within the fuel. *)
Fixpoint strlen (fuel : nat) (s : nat -> Z) : option nat :=
  match fuel with
  | O => None
  | S fuel => if s O =? 0 then Some O
              else match strlen fuel (next s) with
                   | Some n => Some (S n)
                   | None => None
                   end
  end.

(** ** ulib.c *)

(** [strcpy(s, t)]: the bytes stored from [s[0]] on, the NUL included. *)
Fixpoint strcpy (fuel : nat) (t : nat -> Z) : option (list Z) :=
  match fuel with
  | O => None
  | S fuel => if t O =? 0 then Some [0]
              else match strcpy fuel (next t) with
                   | Some l => Some (t O :: l)
                   | None => None
                   end
  end.

Fixpoint strcmp (fuel : nat) (p q : nat -> Z) : option Z :=
  match fuel with
  | O => None
  | S fuel => if negb (p O =? 0) && (p O =? q O)
              then strcmp fuel (next p) (next q)
              else Some (u8 (p O) - u8 (q O))
  end.

(** [strchr(s, c)]: the offset of the first [c], [None] when the NUL comes
    first ([s] is the list of the characters before the NUL). *)
Fixpoint strchr (s : list Z) (c : Z) : option nat :=
  match s with
  | [] => None
  | x :: s => if x =? c then Some O
              else match strchr s c with
                   | Some n => Some (S n)
                   | None => None
                   end
  end.

(** [atoi], on the characters before the NUL. *)
Fixpoint atoi_loop (n : Z) (s : list Z) : Z :=
  match s with
  | [] => n
  | c :: s => if (48 <=? c) && (c <=? 57) then atoi_loop (s32 (n * 10 + c - 48)) s
              else n
  end.
Definition atoi (s : list Z) : Z := atoi_loop 0 s.

(** ulib.c's [memmove] copies upwards only. *)
Definition ulib_memmove (m : mem) (vdst vsrc n : Z) : mem :=
  copy_up (Z.to_nat n) m vdst vsrc.
Definition ulib_memset (m : mem) (dst c n : Z) : mem :=
  stosb m dst c (Z.to_nat (u32 n)).

(** [gets(buf, max)] over the characters the successive one-byte [read]s
    deliver (a failed or empty read ends the list); the bytes stored from
    [buf[0]] on. *)
Fixpoint gets_loop (room : nat) (input : list Z) : list Z :=
  match room, input with
  | O, _ | _, [] => [0]
  | S room, c :: input =>
      if (c =? 10) || (c =? 13) then [c; 0] else c :: gets_loop room input
  end.
Definition gets_line (max : Z) (input : list Z) : list Z :=
  gets_loop (Z.to_nat (max - 1)) input.

(** ** memset *)

Lemma rd_stosb cnt m addr data x :
  rd (stosb m addr data cnt) x =
  if in_range addr (Z.of_nat cnt) x then u8 data else rd m x.
Proof.
  revert m addr. induction cnt as [|cnt IH]; intros m addr; simpl.
  { by destruct (in_range_spec addr (Z.of_nat 0) x); [lia|]. }
  rewrite IH. rewrite rd_wr.
  destruct (in_range_spec (addr + 1) (Z.of_nat cnt) x),
    (in_range_spec addr (Z.of_nat (S cnt)) x), (Z.eqb_spec x addr); lia || done.
Qed.

Lemma rd_store32_rep m addr data b x :
  data mod 256 = u8 b -> data / 256 mod 256 = u8 b ->
  data / 256 / 256 mod 256 = u8 b -> data / 256 / 256 / 256 mod 256 = u8 b ->
  rd (store32 m addr data) x = if in_range addr 4 x then u8 b else rd m x.
Proof.
  intros H0 H1 H2 H3. unfold store32. simpl store. rewrite !rd_wr, H0, H1, H2, H3.
  rewrite !(u8_small (u8 b)) by apply u8_bound.
  destruct (in_range_spec addr 4 x); repeat btest; lia || done.
Qed.

Lemma rd_stosl cnt m addr data b x :
  data mod 256 = u8 b -> data / 256 mod 256 = u8 b ->
  data / 256 / 256 mod 256 = u8 b -> data / 256 / 256 / 256 mod 256 = u8 b ->
  rd (stosl m addr data cnt) x =
  if in_range addr (4 * Z.of_nat cnt) x then u8 b else rd m x.
Proof.
  intros H0 H1 H2 H3. revert m addr. induction cnt as [|cnt IH]; intros m addr.
  { simpl. by destruct (in_range_spec addr (4 * Z.of_nat 0) x); [lia|]. }
  cbn [stosl]. rewrite IH, (rd_store32_rep _ _ _ b) by done.
  destruct (in_range_spec (addr + 4) (4 * Z.of_nat cnt) x),
    (in_range_spec addr (4 * Z.of_nat (S cnt)) x), (in_range_spec addr 4 x);
    lia || done.
Qed.

(** The word [memset] builds repeats the byte four times. *)
Lemma rep_word c :
  Z.lor (Z.lor (Z.lor (Z.shiftl (Z.land c 255) 24) (Z.shiftl (Z.land c 255) 16))
    (Z.shiftl (Z.land c 255) 8)) (Z.land c 255) = 16843009 * u8 c.
Proof.
  change 255 with (Z.ones 8). rewrite Z.land_ones by lia.
  change (2 ^ 8) with 256. fold (u8 c). pose proof (u8_bound c) as B.
  assert (Hall : forallb (fun b => Z.lor (Z.lor (Z.lor (Z.shiftl b 24)
      (Z.shiftl b 16)) (Z.shiftl b 8)) b =? 16843009 * b) (seqZ 0 256) = true)
    by (vm_compute; reflexivity).
  rewrite forallb_forall in Hall. apply Z.eqb_eq, Hall.
  apply list_elem_of_In, elem_of_seqZ. lia.
Qed.

Lemma rd_memset m dst c n x :
  0 <= n < 4294967296 ->
  rd (memset m dst c n) x = if in_range dst n x then u8 c else rd m x.
Proof.
  intros Hn. unfold memset. destruct (Z.eqb_spec (n mod 4) 0) as [E|].
  2: { rewrite andb_false_r, u32_small, rd_stosb, Z2Nat.id by lia. done. }
  rewrite andb_true_r. destruct (Z.eqb_spec (dst mod 4) 0).
  - rewrite rep_word. assert (Hd : 4 * (n / 4) = n) by (Z.div_mod_to_equations; lia).
    rewrite u32_small by (Z.div_mod_to_equations; lia).
    rewrite (rd_stosl _ _ _ _ c), Z2Nat.id, Hd;
      [done|Z.div_mod_to_equations; lia|..]; pose proof (u8_bound c);
      Z.div_mod_to_equations; lia.
  - simpl. rewrite u32_small, rd_stosb, Z2Nat.id by lia. done.
Qed.

(** ** memmove *)

Lemma rd_copy_up n m d s x :
  d <= s \/ s + Z.of_nat n <= d ->
  rd (copy_up n m d s) x =
  if in_range d (Z.of_nat n) x then rd m (s + (x - d)) else rd m x.
Proof.
  revert m d s. induction n as [|n IH]; intros m d s H; simpl.
  { by destruct (in_range_spec d (Z.of_nat 0) x); [lia|]. }
  rewrite IH by lia. rewrite !rd_wr.
  destruct (in_range_spec (d + 1) (Z.of_nat n) x),
    (in_range_spec d (Z.of_nat (S n)) x); try lia.
  - destruct (Z.eqb_spec (s + 1 + (x - (d + 1))) d); [lia|].
    f_equal; lia.
  - destruct (Z.eqb_spec x d); [subst|lia].
    rewrite u8_small by apply rd_bound. f_equal; lia.
  - by destruct (Z.eqb_spec x d); [lia|].
Qed.

Lemma rd_copy_down n m d s x :
  s <= d ->
  rd (copy_down n m d s) x =
  if in_range (d - Z.of_nat n) (Z.of_nat n) x then rd m (s + (x - d)) else rd m x.
Proof.
  revert m d s. induction n as [|n IH]; intros m d s H; simpl.
  { by destruct (in_range_spec (d - Z.of_nat 0) (Z.of_nat 0) x); [lia|]. }
  rewrite IH by lia. rewrite !rd_wr.
  destruct (in_range_spec (d - 1 - Z.of_nat n) (Z.of_nat n) x),
    (in_range_spec (d - Z.of_nat (S n)) (Z.of_nat (S n)) x); try lia.
  - destruct (Z.eqb_spec (s - 1 + (x - (d - 1))) (d - 1)); [lia|]. f_equal; lia.
  - destruct (Z.eqb_spec x (d - 1)); [subst|lia].
    rewrite u8_small by apply rd_bound. f_equal; lia.
  - by destruct (Z.eqb_spec x (d - 1)); [lia|].
Qed.

Lemma rd_memmove m dst src n x :
  0 <= n ->
  rd (memmove m dst src n) x =
  if in_range dst n x then rd m (src + (x - dst)) else rd m x.
Proof.
  intros Hn. unfold memmove.
  destruct (Z.ltb_spec src dst), (Z.ltb_spec dst (src + n)); simpl;
    rewrite ?rd_copy_down, ?rd_copy_up, ?Z2Nat.id by lia; try done.
  replace (dst + n - n) with dst by lia.
  destruct (in_range_spec dst n x); [f_equal; lia|done].
Qed.

Lemma rd_bytes_memmove m dst src n :
  0 <= n ->
  rd_bytes (Z.to_nat n) (memmove m dst src n) dst = rd_bytes (Z.to_nat n) m src.
Proof.
  intros Hn. apply list_eq. intros i.
  destruct (decide (i < Z.to_nat n)%nat).
  - rewrite !rd_bytes_lookup, rd_memmove by lia.
    destruct (in_range_spec dst n (dst + Z.of_nat i)); [|lia].
    do 2 f_equal. lia.
  - rewrite !lookup_ge_None_2; [done|rewrite length_rd_bytes; lia..].
Qed.

(** ** Bounded strings *)

Lemma length_strncpy_pad n : length (strncpy_pad n) = n.
Proof. induction n; simpl; congruence. Qed.

Lemma length_strncpy t n : length (strncpy t n) = n.
Proof.
  revert t. induction n as [|n IH]; intros t; simpl; [done|].
  btest; simpl; [by rewrite length_strncpy_pad|by rewrite IH].
Qed.

Definition is_char (p : nat -> Z) : Prop := forall i, 0 <= p i < 256.

Lemma is_char_next p : is_char p -> is_char (next p).
Proof. intros H i. apply H. Qed.
#[export] Hint Resolve is_char_next : xv6.

Lemma is_char_at_mem m a : is_char (at_mem m a).
Proof. intros i. apply rd_bound. Qed.

Lemma is_char_at_list l : Forall (fun b => 0 <= b < 256) l -> is_char (at_list l).
Proof.
  intros H i. unfold at_list. destruct (l !! i) eqn:E; simpl; [|lia].
  exact (Forall_lookup_1 _ l i z H E).
Qed.
#[export] Hint Resolve is_char_at_mem is_char_at_list : xv6.

(** [strncmp] is zero exactly when the two strings have the same [n]-byte
    padded form, which is what [strncpy] stores. *)
Lemma strncmp_zero_iff p q n :
  is_char p -> is_char q ->
  strncmp p q n = 0 <-> strncpy p n = strncpy q n.
Proof.
  revert p q. induction n as [|n IH]; intros p q Hp Hq; simpl; [done|].
  pose proof (Hp O) as P0. pose proof (Hq O) as Q0.
  destruct (Z.eqb_spec (p O) 0) as [Ep|Ep]; simpl.
  - rewrite Ep. rewrite (u8_small (q O)) by lia. change (u8 0) with 0.
    destruct (Z.eqb_spec (q O) 0); split; intros; simplify_eq; try done; lia.
  - destruct (Z.eqb_spec (p O) (q O)) as [E|E].
    + destruct (Z.eqb_spec (q O) 0); [lia|].
      rewrite IH by auto with xv6. rewrite E. split; intros; simplify_eq; congruence.
    + rewrite !u8_small by lia. split; intros H; [lia|].
      destruct (Z.eqb_spec (q O) 0); simplify_eq; lia.
Qed.

Lemma strncpy_ext p q n : (forall i, (i < n)%nat -> p i = q i) -> strncpy p n = strncpy q n.
Proof.
  revert p q. induction n as [|n IH]; intros p q H; simpl; [done|].
  rewrite (H O) by lia. btest; [done|]. f_equal. apply IH.
  intros i Hi. apply (H (S i)). lia.
Qed.

(** Storing a name and reading it back gives the stored form. *)
Lemma strncpy_idem p n : strncpy (at_list (strncpy p n)) n = strncpy p n.
Proof.
  revert p. induction n as [|n IH]; intros p; simpl; [done|].
  unfold at_list at 1 2; simpl.
  destruct (Z.eqb_spec (p O) 0) as [|N]; simpl; [done|].
  destruct (Z.eqb_spec (p O) 0); [done|]. f_equal.
  etransitivity; [|apply IH]. apply strncpy_ext. intros i _.
  unfold next, at_list. by destruct (strncpy _ _).
Qed.

Lemma strncpy_chars p n :
  is_char p -> Forall (fun b => 0 <= b < 256) (strncpy p n).
Proof.
  assert (Hpad : forall k, Forall (fun b => 0 <= b < 256) (strncpy_pad k)).
  { induction k; simpl; constructor; [lia|done]. }
  revert p. induction n as [|n IH]; intros p Hp; simpl; [constructor|].
  btest; constructor; auto with xv6; lia.
Qed.

Lemma strlen_spec fuel s n :
  strlen fuel s = Some n <->
  (n < fuel)%nat /\ s n = 0 /\ forall i, (i < n)%nat -> s i <> 0.
Proof.
  revert s n. induction fuel as [|fuel IH]; intros s n; simpl.
  { split; [done|]. intros [? _]. lia. }
  destruct (Z.eqb_spec (s O) 0) as [E|E].
  - split.
    + intros. simplify_eq. split; [lia|]. split; [done|]. intros; lia.
    + intros (_ & _ & H). destruct n; [done|]. destruct (H O); [lia|done].
  - specialize (IH (next s)). destruct n as [|n].
    + split; [|tauto]. destruct (strlen fuel (next s)); discriminate.
    + specialize (IH n). unfold next at 2 3 in IH.
      transitivity (strlen fuel (next s) = Some n).
      { destruct (strlen fuel (next s)); split; congruence. }
      rewrite IH. split; intros (? & ? & H); (split; [lia|split; [done|]]).
      * intros [|i] ?; [done|apply H; lia].
      * intros i ?. apply (H (S i)). lia.
Qed.

(** ** Properties *)

(** [memmove] moves the source bytes as they were before the call, also when
    the two regions overlap in either direction, and changes nothing else. *)
Theorem memmove_correct (m : mem) (dst src : Z) (n : nat) :
  rd_bytes n (memmove m dst src (Z.of_nat n)) dst = rd_bytes n m src /\
  forall x, x < dst \/ dst + Z.of_nat n <= x ->
    rd (memmove m dst src (Z.of_nat n)) x = rd m x.
Proof.
  split.
  - rewrite <-(Nat2Z.id n) at 1 3. apply rd_bytes_memmove. lia.
  - intros x Hx. rewrite rd_memmove by lia.
    by destruct (in_range_spec dst (Z.of_nat n) x); [lia|].
Qed.

(** [memset] fills exactly [n] bytes, whichever of its two store loops runs. *)
Theorem memset_correct (m : mem) (dst c n x : Z) :
  0 <= n < 4294967296 ->
  rd (memset m dst c n) x = if in_range dst n x then u8 c else rd m x.
Proof. apply rd_memset. Qed.

(** [strncmp] decides equality of the padded names [strncpy] stores, so a
    directory entry written by [strncpy] is found again by [strncmp]. *)
Theorem strncmp_strncpy (p q : nat -> Z) (n : nat) :
  is_char p -> is_char q ->
  (strncmp p q n = 0 <-> strncpy p n = strncpy q n) /\
  strncmp p (at_list (strncpy p n)) n = 0.
Proof.
  intros Hp Hq. split; [by apply strncmp_zero_iff|].
  apply strncmp_zero_iff; [done| |by rewrite strncpy_idem].
  by apply is_char_at_list, strncpy_chars.
Qed.

(** ** Witnesses *)

(** Nine bytes from address 3: the byte loop; eight from address 8: the word
    loop. *)
Lemma memset_correct_witness :
  rd (memset ∅ 3 65 9) 11 = 65 /\ rd (memset ∅ 8 65 8) 15 = 65 /\ rd (memset ∅ 3 65 9) 12 = 0.
Proof.
  split; [|split].
  - rewrite (memset_correct ∅ 3 65 9 11); [reflexivity|lia].
  - rewrite (memset_correct ∅ 8 65 8 15); [reflexivity|lia].
  - rewrite (memset_correct ∅ 3 65 9 12); [reflexivity|lia].
Defined.

Lemma strncmp_strncpy_witness :
  (strncmp (at_list [97; 98]) (at_list [97; 98; 0; 5]) 14 = 0 <->
     strncpy (at_list [97; 98]) 14 = strncpy (at_list [97; 98; 0; 5]) 14) /\
  strncmp (at_list [97; 98]) (at_list (strncpy (at_list [97; 98]) 14)) 14 = 0.
Proof.
  apply (strncmp_strncpy (at_list [97; 98]) (at_list [97; 98; 0; 5]) 14);
    apply is_char_at_list; repeat constructor; lia.
Defined.
