(* ===== verification/Spinlock.v ===== *)
(** * Spin locks: spinlock.c

    The per-CPU interrupt state ([pushcli]/[popcli]) and the lock word.  The
    sequential definitions [acquire] and [release] are the functions as one CPU
    runs them; [step] is the interleaving of their atomic actions on several
    CPUs, with [xchg] as the atomic exchange. *)
From S2P Require Import Prelude.

(** Interrupt-related part of [struct cpu] and the IF flag of the CPU. *)
Record cpu := Cpu {
  ncli : Z;          (* depth of pushcli nesting *)
  intena : bool;     (* were interrupts enabled before pushcli? *)
  eflags_IF : bool;  (* readeflags() & FL_IF *)
}.

(** [lk_cpu] is the holding CPU, [None] for a null pointer. *)
Record spinlock := Spinlock {
  locked : Z;
  lk_cpu : option nat;
}.

Definition initlock : spinlock := Spinlock 0 None.

(** What a CPU sees: all CPUs and all locks. *)
Record machine := Machine {
  cpus : nat -> cpu;
  locks : nat -> spinlock;
}.

Definition set_cpu (c : nat) (x : cpu) (s : machine) : machine :=
  Machine (<[c := x]> (cpus s)) (locks s).
Definition set_lock (l : nat) (x : spinlock) (s : machine) : machine :=
  Machine (cpus s) (<[l := x]> (locks s)).

(** ** pushcli and popcli *)

Definition pushcli_cpu (x : cpu) : cpu :=
  let eflags := eflags_IF x in
  (* cli *)
  let intena' := if ncli x =? 0 then eflags else intena x in
  Cpu (ncli x + 1) intena' false.

Definition popcli_cpu (x : cpu) : res cpu :=
  if eflags_IF x then Panic "popcli - interruptible"
  else
    let n := ncli x - 1 in
    if n <? 0 then Panic "popcli"
    else Ok (Cpu n (intena x) (if (n =? 0) && intena x then true else eflags_IF x)).

Definition pushcli (c : nat) : M machine unit :=
  modify (fun s => set_cpu c (pushcli_cpu (cpus s c)) s).

Definition popcli (c : nat) : M machine unit := fun s =>
  match popcli_cpu (cpus s c) with
  | Ok x => Ok (tt, set_cpu c x s)
  | Panic msg => Panic msg
  | Block => Block
  | Fuel => Fuel
  end.

(** ** acquire and release *)

Definition holding (c l : nat) (s : machine) : bool :=
  negb (locked (locks s l) =? 0) && bool_decide (lk_cpu (locks s l) = Some c).

(** [xchg(&lk->locked, v)]: store [v], return the old value. *)
Definition xchg (l : nat) (v : Z) : M machine Z := fun s =>
  Ok (locked (locks s l), set_lock l (Spinlock v (lk_cpu (locks s l))) s).

(** The spin loop; alone on the machine it would never end on a held lock. *)
Fixpoint spin (fuel l : nat) : M machine unit :=
  match fuel with
  | O => out_of_fuel
  | S fuel =>
      let! old := xchg l 1 in
      if old =? 0 then ret tt else spin fuel l
  end.

Definition set_lk_cpu (l : nat) (o : option nat) : M machine unit :=
  modify (fun s => set_lock l (Spinlock (locked (locks s l)) o) s).
Definition set_locked (l : nat) (v : Z) : M machine unit :=
  modify (fun s => set_lock l (Spinlock v (lk_cpu (locks s l))) s).

Definition acquire (fuel c l : nat) : M machine unit :=
  do! pushcli c in
  let! s := get in
  if holding c l s then panic "acquire"
  else
    do! spin fuel l in
    set_lk_cpu l (Some c).

Definition release (c l : nat) : M machine unit :=
  let! s := get in
  if negb (holding c l s) then panic "release"
  else
    do! set_lk_cpu l None in
    do! set_locked l 0 in
    popcli c.

(** ** The interleaving semantics

    Each CPU is between calls ([Idle]), in [acquire] after the [holding] check
    ([Spinning]), in [acquire] after the successful [xchg] ([Entered]), or in
    [release] after clearing [lk->cpu] ([Leaving]) or after clearing
    [lk->locked] ([Left]).  [held] lists the locks the CPU owns, the most
    recent first; [sti]/[cli] outside critical sections are the [Sti] and [Cli]
    steps. *)
Inductive pc := Idle | Spinning (l : nat) | Entered (l : nat)
              | Leaving (l : nat) | Left.

Record conf := Conf {
  sys : machine;
  pcs : nat -> pc;
  held : nat -> list nat;
}.

Inductive step : conf -> conf -> Prop :=
| step_push s p h c l :
    p c = Idle -> holding c l (set_cpu c (pushcli_cpu (cpus s c)) s) = false ->
    step (Conf s p h)
         (Conf (set_cpu c (pushcli_cpu (cpus s c)) s) (<[c := Spinning l]> p) h)
| step_xchg s p h c l old s' :
    p c = Spinning l -> xchg l 1 s = Ok (old, s') ->
    step (Conf s p h)
         (Conf s' (if old =? 0 then <[c := Entered l]> p else p)
                  (if old =? 0 then <[c := l :: h c]> h else h))
| step_setcpu s p h c l s' :
    p c = Entered l -> set_lk_cpu l (Some c) s = Ok (tt, s') ->
    step (Conf s p h) (Conf s' (<[c := Idle]> p) h)
| step_clearcpu s p h c l s' :
    p c = Idle -> holding c l s = true -> set_lk_cpu l None s = Ok (tt, s') ->
    step (Conf s p h) (Conf s' (<[c := Leaving l]> p) h)
| step_unlock s p h c l s' :
    p c = Leaving l -> set_locked l 0 s = Ok (tt, s') ->
    step (Conf s p h)
         (Conf s' (<[c := Left]> p) (<[c := filter (fun k => k <> l) (h c)]> h))
| step_pop s p h c s' :
    p c = Left -> popcli c s = Ok (tt, s') ->
    step (Conf s p h) (Conf s' (<[c := Idle]> p) h)
| step_sti s p h c b :
    p c = Idle -> ncli (cpus s c) = 0 ->
    step (Conf s p h)
         (Conf (set_cpu c (Cpu 0 (intena (cpus s c)) b) s) p h).

(** A machine that has just booted: no lock held, no nesting. *)
Definition init (cf : conf) : Prop :=
  (forall l, locks (sys cf) l = initlock) /\
  (forall c, ncli (cpus (sys cf) c) = 0 /\ pcs cf c = Idle /\ held cf c = []).

(** Does CPU [c] own [l], by the record of its own actions? *)
Definition owns (cf : conf) (c l : nat) : Prop := l ∈ held cf c.

(** ** Sequential behaviour *)

Lemma popcli_pushcli_cpu x :
  0 <= ncli x -> (0 < ncli x -> eflags_IF x = false) ->
  popcli_cpu (pushcli_cpu x) =
  Ok (Cpu (ncli x) (if ncli x =? 0 then eflags_IF x else intena x) (eflags_IF x)).
Proof.
  intros Hn Hi. unfold popcli_cpu, pushcli_cpu. simpl.
  replace (ncli x + 1 - 1) with (ncli x) by lia.
  destruct (Z.ltb_spec (ncli x) 0); [lia|].
  destruct (Z.eqb_spec (ncli x) 0); simpl; [by destruct (eflags_IF x)|].
  rewrite Hi by lia. done.
Qed.

(** ** The invariant of the interleaving semantics *)

Definition pending (p : pc) : Z :=
  match p with Spinning _ | Left => 1 | _ => 0 end.

Record inv (cf : conf) : Prop := {
  inv_word : forall l, locked (locks (sys cf) l) = 0 \/ locked (locks (sys cf) l) = 1;
  inv_locked : forall c l, l ∈ held cf c -> locked (locks (sys cf) l) = 1;
  inv_owner : forall c l, lk_cpu (locks (sys cf) l) = Some c -> l ∈ held cf c;
  inv_unique : forall c1 c2 l, l ∈ held cf c1 -> l ∈ held cf c2 -> c1 = c2;
  inv_nodup : forall c, NoDup (held cf c);
  inv_cpu : forall c l, l ∈ held cf c ->
    lk_cpu (locks (sys cf) l) =
      match pcs cf c with
      | Entered k | Leaving k => if decide (k = l) then None else Some c
      | _ => Some c
      end;
  inv_pc : forall c l,
    (pcs cf c = Entered l \/ pcs cf c = Leaving l -> l ∈ held cf c) /\
    (pcs cf c = Spinning l -> l ∉ held cf c);
  inv_ncli : forall c,
    ncli (cpus (sys cf) c) = Z.of_nat (length (held cf c)) + pending (pcs cf c);
  inv_if : forall c, 0 < ncli (cpus (sys cf) c) -> eflags_IF (cpus (sys cf) c) = false;
}.

Lemma init_inv cf : init cf -> inv cf.
Proof.
  intros [Hl Hc].
  assert (Hh : forall c, held cf c = []) by apply Hc.
  assert (Hp : forall c, pcs cf c = Idle) by apply Hc.
  assert (Hn : forall c, ncli (cpus (sys cf) c) = 0) by apply Hc.
  split; intros *; rewrite ?Hl, ?Hh, ?Hp, ?Hn; simpl; auto; try by rewrite elem_of_nil.
  - constructor.
  - naive_solver.
  - lia.
Qed.

Lemma inv_push s p h c l :
  inv (Conf s p h) ->
  p c = Idle -> holding c l (set_cpu c (pushcli_cpu (cpus s c)) s) = false ->
  inv (Conf (set_cpu c (pushcli_cpu (cpus s c)) s) (<[c := Spinning l]> p) h).
Proof.
  intros [] Hp Hh. simpl in *. split; simpl; intros; eauto.
  - fn_simpl; eauto. rewrite (inv_cpu0 _ _ H), Hp. done.
  - fn_simpl; eauto. split; [naive_solver|]. intros [= ->] Hin.
    unfold holding in Hh. simpl in Hh. rewrite (inv_locked0 _ _ Hin) in Hh.
    rewrite (inv_cpu0 _ _ Hin), Hp, bool_decide_true in Hh; done.
  - specialize (inv_ncli0 c0). fn_simpl.
    rewrite inv_ncli0, Hp. simpl. lia.
  - fn_simpl; eauto.
Qed.

Lemma inv_xchg s p h c l old s' :
  inv (Conf s p h) ->
  p c = Spinning l -> xchg l 1 s = Ok (old, s') ->
  inv (Conf s' (if old =? 0 then <[c := Entered l]> p else p)
               (if old =? 0 then <[c := l :: h c]> h else h)).
Proof.
  intros [] Hp Hx. simpl in *. unfold xchg in Hx. simplify_eq.
  destruct (Z.eqb_spec (locked (locks s l)) 0) as [E|E].
  2: split; simpl; intros; eauto; fn_simpl; eauto.
  assert (Hfree : forall c', l ∉ h c').
  { intros c' Hin. apply inv_locked0 in Hin. lia. }
  split; simpl; intros.
  - fn_simpl; eauto.
  - fn_simpl; eauto. set_solver.
  - fn_simpl; set_solver.
  - specialize (Hfree c1) as F1. specialize (Hfree c2) as F2. fn_simpl; set_solver.
  - fn_simpl; eauto. constructor; eauto.
  - destruct (decide (c = c0)) as [<-|]; [rewrite !fn_lookup_insert in *|
      rewrite !fn_lookup_insert_ne in * by done].
    + destruct (decide (l = l0)) as [<-|]; [rewrite fn_lookup_insert|
        rewrite fn_lookup_insert_ne by done]; simpl.
      * destruct (lk_cpu (locks s l)) eqn:El; [|done]. by apply inv_owner0, Hfree in El.
      * rewrite (inv_cpu0 c), Hp; [done|set_solver].
    + fn_simpl; eauto.
  - fn_simpl; eauto. split; [|done]. intros [?|?]; simplify_eq; set_solver.
  - specialize (inv_ncli0 c0). fn_simpl. rewrite inv_ncli0, Hp. simpl. lia.
  - eauto.
Qed.

Lemma inv_setcpu s p h c l s' :
  inv (Conf s p h) ->
  p c = Entered l -> set_lk_cpu l (Some c) s = Ok (tt, s') ->
  inv (Conf s' (<[c := Idle]> p) h).
Proof.
  intros [] Hp Hx. simpl in *. unfold set_lk_cpu, modify in Hx. simplify_eq.
  assert (Hin : l ∈ h c) by (eapply inv_pc0; eauto).
  split; simpl; intros; eauto.
  - fn_simpl; eauto.
  - fn_simpl; eauto.
  - fn_simpl; eauto. congruence.
  - destruct (decide (l = l0)) as [<-|].
    + rewrite (inv_unique0 _ _ _ H Hin), !fn_lookup_insert. done.
    + rewrite fn_lookup_insert_ne by done. rewrite (inv_cpu0 _ _ H).
      fn_simpl. by rewrite Hp, decide_False.
  - fn_simpl; eauto. split; [naive_solver|done].
  - specialize (inv_ncli0 c0). fn_simpl. rewrite inv_ncli0, Hp. done.
Qed.

Lemma inv_clearcpu s p h c l s' :
  inv (Conf s p h) ->
  p c = Idle -> holding c l s = true -> set_lk_cpu l None s = Ok (tt, s') ->
  inv (Conf s' (<[c := Leaving l]> p) h).
Proof.
  intros [] Hp Hh Hx. simpl in *. unfold set_lk_cpu, modify in Hx. simplify_eq.
  apply andb_true_iff in Hh as [_ Hh%bool_decide_eq_true].
  assert (Hin : l ∈ h c) by auto.
  split; simpl; intros; eauto.
  - fn_simpl; eauto.
  - fn_simpl; eauto.
  - fn_simpl; eauto.
  - destruct (decide (l = l0)) as [<-|].
    + rewrite (inv_unique0 _ _ _ H Hin), !fn_lookup_insert, decide_True; done.
    + rewrite fn_lookup_insert_ne by done. rewrite (inv_cpu0 _ _ H).
      fn_simpl. by rewrite Hp, decide_False.
  - fn_simpl; eauto. split; [naive_solver|done].
  - specialize (inv_ncli0 c0). fn_simpl. rewrite inv_ncli0, Hp. done.
Qed.

Lemma length_filter_ne (l : nat) (k : list nat) :
  NoDup k -> l ∈ k -> S (length (filter (fun x => x <> l) k)) = length k.
Proof.
  induction k as [|x k IH]; intros Hd Hin; [set_solver|].
  apply NoDup_cons in Hd as [Hx Hd]. rewrite filter_cons.
  destruct (decide (x <> l)) as [N|N]; simpl.
  - rewrite IH; [done|done|set_solver].
  - apply dec_stable in N as ->. f_equal. clear IH Hin Hd.
    induction k as [|y k IH]; [done|]. rewrite filter_cons, decide_True by set_solver.
    simpl. rewrite IH; set_solver.
Qed.

Lemma inv_unlock s p h c l s' :
  inv (Conf s p h) ->
  p c = Leaving l -> set_locked l 0 s = Ok (tt, s') ->
  inv (Conf s' (<[c := Left]> p) (<[c := filter (fun k => k <> l) (h c)]> h)).
Proof.
  intros [] Hp Hx. simpl in *. unfold set_locked, modify in Hx. simplify_eq.
  assert (Hin : l ∈ h c) by (eapply inv_pc0; eauto).
  assert (Hnone : lk_cpu (locks s l) = None).
  { rewrite (inv_cpu0 _ _ Hin), Hp, decide_True; done. }
  assert (Hsub : forall c' k, k ∈ (<[c := filter (fun k => k <> l) (h c)]> h) c' ->
    k ∈ h c' /\ k <> l).
  { intros c' k H. destruct (decide (c = c')) as [<-|].
    - rewrite fn_lookup_insert, list_elem_of_filter in H. tauto.
    - rewrite fn_lookup_insert_ne in H by done. split; [done|]. intros ->.
      by destruct (inv_unique0 _ _ _ Hin H). }
  split; simpl; intros.
  - fn_simpl; eauto.
  - apply Hsub in H as [? ?]. fn_simpl; eauto.
  - destruct (decide (l = l0)) as [<-|].
    { rewrite fn_lookup_insert in H. simpl in H. congruence. }
    rewrite fn_lookup_insert_ne in H by done. apply inv_owner0 in H.
    fn_simpl. apply list_elem_of_filter. done.
  - apply Hsub in H as [? ?], H0 as [? ?]. eauto.
  - fn_simpl. by apply NoDup_filter.
  - apply Hsub in H as [H ?]. rewrite fn_lookup_insert_ne by done.
    rewrite (inv_cpu0 _ _ H). fn_simpl. by rewrite Hp, decide_False.
  - destruct (decide (c = c0)) as [<-|].
    + rewrite !fn_lookup_insert. naive_solver.
    + rewrite !fn_lookup_insert_ne by done. eauto.
  - specialize (inv_ncli0 c0). fn_simpl. rewrite inv_ncli0, Hp. simpl.
    rewrite <-(length_filter_ne l (h c0)) by auto. lia.
  - eauto.
Qed.

Lemma inv_pop s p h c :
  inv (Conf s p h) -> p c = Left ->
  exists x, popcli_cpu (cpus s c) = Ok x /\
    inv (Conf (set_cpu c x s) (<[c := Idle]> p) h).
Proof.
  intros [] Hp. simpl in *. pose proof (inv_ncli0 c) as Hn. rewrite Hp in Hn. simpl in Hn.
  unfold popcli_cpu. rewrite (inv_if0 c) by lia.
  destruct (Z.ltb_spec (ncli (cpus s c) - 1) 0); [lia|].
  eexists. split; [done|]. split; simpl; intros; eauto.
  - fn_simpl; eauto. rewrite (inv_cpu0 _ _ H0), Hp. done.
  - fn_simpl; eauto. naive_solver.
  - specialize (inv_ncli0 c0). fn_simpl. lia.
  - fn_simpl; eauto. destruct (Z.eqb_spec (ncli (cpus s c0) - 1) 0); [lia|done].
Qed.

Lemma inv_sti s p h c b :
  inv (Conf s p h) -> p c = Idle -> ncli (cpus s c) = 0 ->
  inv (Conf (set_cpu c (Cpu 0 (intena (cpus s c)) b) s) p h).
Proof.
  intros [] Hp Hn. simpl in *. split; simpl; intros; eauto.
  - specialize (inv_ncli0 c0). fn_simpl. lia.
  - fn_simpl; eauto.
Qed.

Lemma step_inv cf cf' : step cf cf' -> inv cf -> inv cf'.
Proof.
  destruct 1; intros I; eauto using inv_push, inv_xchg, inv_setcpu, inv_clearcpu,
    inv_unlock, inv_sti.
  destruct (inv_pop _ _ _ _ I H) as (x & Hx & Hi).
  unfold popcli in H0. rewrite Hx in H0. by simplify_eq.
Qed.

Lemma steps_inv cf cf' : rtc step cf cf' -> inv cf -> inv cf'.
Proof. induction 1; eauto using step_inv. Qed.

(** ** Properties *)

(** C9: At any point of any interleaving of [acquire] and [release] on any number
    of CPUs, a lock has at most one owner, its word is 1 while it is owned, and
    its owner runs with interrupts disabled. *)
Theorem mutual_exclusion (cf0 cf : conf) (c1 c2 l : nat) :
  init cf0 -> rtc step cf0 cf -> owns cf c1 l -> owns cf c2 l ->
  c1 = c2 /\ locked (locks (sys cf) l) = 1 /\
  eflags_IF (cpus (sys cf) c1) = false.
Proof.
  intros Hi Hs H1 H2. apply steps_inv in Hs as []; [|by apply init_inv].
  split; [eauto|]. split; [eauto|]. apply inv_if0. rewrite inv_ncli0.
  unfold owns in H1. destruct (held cf c1); [set_solver|].
  simpl. destruct (pcs cf c1); simpl; lia.
Qed.

(** [popcli] at the end of [release] never panics in an execution, and when it
    undoes the outermost [pushcli] the CPU holds no lock any more. *)
Theorem release_popcli_safe (cf0 cf : conf) (c : nat) :
  init cf0 -> rtc step cf0 cf -> pcs cf c = Left ->
  exists s', popcli c (sys cf) = Ok (tt, s') /\
    (ncli (cpus s' c) = 0 <-> held cf c = []).
Proof.
  intros Hi Hs Hp. apply steps_inv in Hs as I; [|by apply init_inv].
  destruct cf as [s p h]. simpl in *.
  destruct (inv_pop _ _ _ _ I Hp) as (x & Hx & I'). unfold popcli. rewrite Hx.
  eexists. split; [done|]. simpl. pose proof (inv_ncli _ I' c) as Hn. simpl in Hn.
  rewrite !fn_lookup_insert in *. rewrite Hn. simpl.
  destruct (h c); simpl; split; intros; done || lia.
Qed.

(** Run by one CPU on a free lock, [acquire] succeeds at the first exchange,
    leaves the lock held by this CPU with interrupts off, a second [acquire]
    panics instead of spinning forever, and [release] restores the lock word,
    the nesting depth and the interrupt flag. *)
Theorem acquire_release (fuel c l : nat) (s : machine) :
  locks s l = initlock -> 0 <= ncli (cpus s c) ->
  (0 < ncli (cpus s c) -> eflags_IF (cpus s c) = false) ->
  exists s1, acquire (S fuel) c l s = Ok (tt, s1) /\
    holding c l s1 = true /\ eflags_IF (cpus s1 c) = false /\
    acquire (S fuel) c l s1 = Panic "acquire" /\
    exists s2, release c l s1 = Ok (tt, s2) /\
      locks s2 l = initlock /\ ncli (cpus s2 c) = ncli (cpus s c) /\
      eflags_IF (cpus s2 c) = eflags_IF (cpus s c).
Proof.
  intros Hl Hn Hi.
  assert (Hh : forall s0, holding c l s0 = negb (locked (locks s0 l) =? 0) &&
    bool_decide (lk_cpu (locks s0 l) = Some c)) by done.
  unfold acquire at 1, bind, pushcli, modify, get. rewrite Hh. simpl.
  rewrite Hl. simpl. unfold bind, xchg. simpl. rewrite Hl. simpl.
  eexists. split; [reflexivity|]. rewrite Hh. simpl.
  rewrite !fn_lookup_insert. simpl. rewrite bool_decide_true by done.
  split; [done|]. split; [done|]. split.
  - unfold acquire, bind, pushcli, modify, get. rewrite Hh. simpl.
    rewrite !fn_lookup_insert. simpl. by rewrite bool_decide_true.
  - unfold release, bind, get. rewrite Hh. simpl.
    rewrite !fn_lookup_insert. simpl. rewrite bool_decide_true by done. simpl.
    rewrite !fn_lookup_insert. unfold popcli. simpl. rewrite !fn_lookup_insert.
    rewrite popcli_pushcli_cpu by done. eexists. split; [reflexivity|]. simpl.
    by rewrite !fn_lookup_insert.
Qed.

(** ** A concrete run *)

Definition boot : machine := Machine (fun _ => Cpu 0 false true) (fun _ => initlock).
Definition boot_conf : conf := Conf boot (fun _ => Idle) (fun _ => []).

(** CPU 0 has acquired lock 5 from the boot state. *)
Definition run_acquired : conf :=
  let s1 := set_cpu 0 (pushcli_cpu (cpus boot 0%nat)) boot in
  let s2 := set_lock 5 (Spinlock 1 (lk_cpu (locks s1 5%nat))) s1 in
  Conf (set_lock 5 (Spinlock (locked (locks s2 5%nat)) (Some 0%nat)) s2)
       (<[0%nat := Idle]> (<[0%nat := Entered 5]> (<[0%nat := Spinning 5]> (pcs boot_conf))))
       (<[0%nat := 5%nat :: held boot_conf 0%nat]> (held boot_conf)).

Lemma boot_init : init boot_conf.
Proof. by repeat split. Qed.

Lemma run_acquired_reachable : rtc step boot_conf run_acquired.
Proof.
  eapply rtc_l; [apply (step_push boot _ _ 0 5); reflexivity|].
  eapply rtc_l; [eapply (step_xchg _ _ _ 0 5); reflexivity|].
  eapply rtc_l; [eapply (step_setcpu _ _ _ 0 5); reflexivity|].
  apply rtc_refl.
Qed.

Lemma mutual_exclusion_witness :
  owns run_acquired 0 5 /\
  (0%nat = 0%nat /\ locked (locks (sys run_acquired) 5) = 1 /\
   eflags_IF (cpus (sys run_acquired) 0) = false).
Proof.
  assert (H : owns run_acquired 0 5) by (unfold owns; simpl; left).
  split; [exact H|].
  exact (mutual_exclusion boot_conf run_acquired 0 0 5 boot_init
           run_acquired_reachable H H).
Defined.

Definition run_released : conf :=
  let s1 := set_lock 5 (Spinlock (locked (locks (sys run_acquired) 5%nat)) None)
              (sys run_acquired) in
  Conf (set_lock 5 (Spinlock 0 (lk_cpu (locks s1 5%nat))) s1)
       (<[0%nat := Left]> (<[0%nat := Leaving 5]> (pcs run_acquired)))
       (<[0%nat := filter (fun k => k <> 5%nat) (held run_acquired 0%nat)]>
          (held run_acquired)).

Lemma run_released_reachable : rtc step boot_conf run_released.
Proof.
  etrans; [apply run_acquired_reachable|].
  eapply rtc_l; [eapply (step_clearcpu _ _ _ 0 5); reflexivity|].
  eapply rtc_l; [eapply (step_unlock _ _ _ 0 5); reflexivity|].
  apply rtc_refl.
Qed.

Lemma release_popcli_safe_witness :
  exists s', popcli 0 (sys run_released) = Ok (tt, s') /\
    (ncli (cpus s' 0%nat) = 0 <-> held run_released 0%nat = []).
Proof.
  exact (release_popcli_safe boot_conf run_released 0 boot_init
           run_released_reachable eq_refl).
Defined.

Lemma acquire_release_witness :
  exists s1, acquire 1 2 7 boot = Ok (tt, s1) /\
    holding 2 7 s1 = true /\ eflags_IF (cpus s1 2%nat) = false /\
    acquire 1 2 7 s1 = Panic "acquire" /\
    exists s2, release 2 7 s1 = Ok (tt, s2) /\
      locks s2 7%nat = initlock /\ ncli (cpus s2 2%nat) = ncli (cpus boot 2%nat) /\
      eflags_IF (cpus s2 2%nat) = eflags_IF (cpus boot 2%nat).
Proof.
  apply (acquire_release 0 2 7 boot); [reflexivity|simpl; lia|simpl; lia].
Defined.
