(* ===== verification/Sleeplock.v ===== *)
(** * Sleeping locks: sleeplock.c

    The four operations as functions on the lock, each atomic because it runs
    under the spinlock [lk->lk]; and the protocol between the threads that use
    one lock, as a step relation in which a waiting thread sleeps on the lock's
    channel and [releasesleep] wakes the sleepers up.  The functions also serve
    the lock embedded in a disk buffer and in an inode. *)
From S2P Require Import Prelude.

Record sleeplock : Type := Sleeplk { sl_locked : bool; sl_pid : Z }.

Definition initsleeplock : sleeplock := Sleeplk false 0.

(** [None]: the lock is taken, the caller sleeps. *)
Definition acquiresleep (pid : Z) (lk : sleeplock) : option sleeplock :=
  if sl_locked lk then None else Some (Sleeplk true pid).

Definition releasesleep (lk : sleeplock) : sleeplock := Sleeplk false 0.

Definition holdingsleep (lk : sleeplock) : bool := sl_locked lk.

(** ** The protocol *)

(** Where a thread is: outside; at the test of [acquiresleep]'s loop; asleep in
    it; past it. *)
Inductive sl_pc : Type := Out | Trying | Asleep | Inside.

#[export] Instance sl_pc_eq_dec : EqDecision sl_pc.
Proof. solve_decision. Defined.

Record sl_conf : Type := SlConf { sc_lk : sleeplock; sc_pc : Z -> sl_pc }.

(** [wakeup(lk)]: every thread asleep on the lock tests it again. *)
Definition wake (f : Z -> sl_pc) : Z -> sl_pc :=
  fun t => if decide (f t = Asleep) then Trying else f t.

Inductive sl_step : sl_conf -> sl_conf -> Prop :=
  | sl_call t lk f :
      f t = Out -> sl_step (SlConf lk f) (SlConf lk (<[t := Trying]> f))
  | sl_get t lk f lk' :
      f t = Trying -> acquiresleep t lk = Some lk' ->
      sl_step (SlConf lk f) (SlConf lk' (<[t := Inside]> f))
  | sl_sleep t lk f :
      f t = Trying -> acquiresleep t lk = None ->
      sl_step (SlConf lk f) (SlConf lk (<[t := Asleep]> f))
  | sl_release t lk f :
      f t = Inside ->
      sl_step (SlConf lk f) (SlConf (releasesleep lk) (wake (<[t := Out]> f))).

Definition sl_init : sl_conf := SlConf initsleeplock (fun _ => Out).

(** The holder is the thread the lock names; who sleeps, sleeps on a lock that
    is held. *)
Record sl_inv (c : sl_conf) : Prop := {
  si_inside : forall t, sc_pc c t = Inside <-> sl_locked (sc_lk c) = true /\ sl_pid (sc_lk c) = t;
  si_asleep : forall t, sc_pc c t = Asleep -> sl_locked (sc_lk c) = true;
}.

Lemma wake_inside f t : wake f t = Inside <-> f t = Inside.
Proof. unfold wake. case_decide as D; [rewrite D|]; done. Qed.

Lemma wake_asleep f t : wake f t <> Asleep.
Proof. unfold wake. by case_decide. Qed.

Lemma sl_step_inv c c' : sl_inv c -> sl_step c c' -> sl_inv c'.
Proof.
  intros [Hi Ha] Hs. destruct Hs as [t lk f Ht|t lk f lk' Ht E|t lk f Ht E|t lk f Ht];
    simpl in *.
  - split; simpl; intros u; fn_case.
    + split; [done|]. rewrite <-Hi. congruence.
    + apply Hi.
    + done.
    + apply Ha.
  - unfold acquiresleep in E. destruct (sl_locked lk) eqn:El; [done|]. injection E as <-.
    split; simpl; intros u; fn_case; try done.
    rewrite Hi. split; [by intros [? _]|]. intros [_ ?]. congruence.
  - unfold acquiresleep in E. destruct (sl_locked lk) eqn:El; [|done].
    split; simpl; intros u; fn_case; try done.
    + split; [done|]. rewrite El, <-Hi. congruence.
    + rewrite El. apply Hi.
  - apply Hi in Ht as [_ Hp]. split; simpl; intros u; [|by intros ?%wake_asleep].
    rewrite wake_inside. fn_case; [split; [done|by intros [? _]]|].
    split; [|by intros [? _]]. intros [_ ?]%Hi. congruence.
Qed.

Lemma sl_reach_inv c : rtc sl_step sl_init c -> sl_inv c.
Proof.
  intros H. assert (I : sl_inv sl_init) by (split; simpl; [intros t; split; [done|by intros [? _]]|done]).
  revert I. induction H; eauto using sl_step_inv.
Qed.

(** ** Theorems *)

(** At any time at most one thread is between [acquiresleep] and
    [releasesleep] of a sleeping lock; [holdingsleep] tells whether there is
    one, and the lock's [pid] which. *)
Theorem sleeplock_exclusion (c : sl_conf) :
  rtc sl_step sl_init c ->
  (forall t u, sc_pc c t = Inside -> sc_pc c u = Inside -> t = u) /\
  (holdingsleep (sc_lk c) = true <-> exists t, sc_pc c t = Inside) /\
  (forall t, sc_pc c t = Inside -> sl_pid (sc_lk c) = t).
Proof.
  intros [Hi Ha]%sl_reach_inv. split; [|split].
  - intros t u [_ H1]%Hi [_ H2]%Hi. congruence.
  - unfold holdingsleep. split; [intros H; eexists; by apply Hi|]. by intros [t [? _]%Hi].
  - by intros t [_ ?]%Hi.
Qed.

(** No wakeup is lost.  Whenever a thread sleeps on the lock, another one
    is inside and can release it; after that release every sleeper is awake and
    finds the lock free. *)
Theorem sleeplock_no_lost_wakeup (c : sl_conf) (t : Z) :
  rtc sl_step sl_init c -> sc_pc c t = Asleep ->
  exists u c', u <> t /\ sc_pc c u = Inside /\ sl_step c c' /\
    sc_pc c' t = Trying /\ exists lk', acquiresleep t (sc_lk c') = Some lk'.
Proof.
  intros [Hi Ha]%sl_reach_inv Ht. destruct c as [lk f]. simpl in *.
  assert (Hu : f (sl_pid lk) = Inside) by (apply Hi; split; [by eapply Ha|done]).
  exists (sl_pid lk), (SlConf (releasesleep lk) (wake (<[sl_pid lk := Out]> f))).
  assert (sl_pid lk <> t) by congruence.
  split; [done|]. split; [done|]. split; [by constructor|]. split.
  - simpl. unfold wake. rewrite fn_lookup_insert_ne, Ht by done. done.
  - by eexists.
Qed.

(** ** Witnesses *)

(** Thread 1 inside, thread 2 asleep. *)
Definition sl_conf2 : sl_conf :=
  SlConf (Sleeplk true 1)
    (<[2 := Asleep]> (<[2 := Trying]> (<[1 := Inside]> (<[1 := Trying]> (fun _ => Out))))).

Lemma sl_conf2_reach : rtc sl_step sl_init sl_conf2.
Proof.
  eapply rtc_l; [by apply (sl_call 1)|].
  eapply rtc_l; [by eapply (sl_get 1)|].
  eapply rtc_l; [by apply (sl_call 2)|].
  eapply rtc_l; [by apply (sl_sleep 2)|]. apply rtc_refl.
Qed.

Lemma sleeplock_exclusion_witness :
  (forall t u, sc_pc sl_conf2 t = Inside -> sc_pc sl_conf2 u = Inside -> t = u) /\
  (holdingsleep (sc_lk sl_conf2) = true <-> exists t, sc_pc sl_conf2 t = Inside) /\
  (forall t, sc_pc sl_conf2 t = Inside -> sl_pid (sc_lk sl_conf2) = t).
Proof. apply (sleeplock_exclusion sl_conf2). apply sl_conf2_reach. Defined.

Lemma sleeplock_no_lost_wakeup_witness :
  exists u c', u <> 2 /\ sc_pc sl_conf2 u = Inside /\ sl_step sl_conf2 c' /\
    sc_pc c' 2 = Trying /\ exists lk', acquiresleep 2 (sc_lk c') = Some lk'.
Proof.
  apply (sleeplock_no_lost_wakeup sl_conf2 2); [apply sl_conf2_reach|reflexivity].
Defined.
