(* ===== verification/Kalloc.v ===== *)
(** * The physical page allocator: kalloc.c

    The free list is threaded through the free pages themselves: the first
    eight bytes of a free page hold the address of the next one.  [kend] is
    the linker symbol [end].  The critical sections under [kmem.lock] are
    atomic steps (see Spinlock). *)
From S2P Require Import Prelude Memory Strings.

(** ** mmu.h and memlayout.h *)

Definition PGSIZE : Z := 4096.
Definition KERNBASE : Z := 18446603336221196288.  (* 0xFFFF800000000000 *)
Definition PHYSTOP : Z := 234881024.              (* 0xE000000 *)

Definition PGROUNDUP (sz : Z) : Z := Z.land (u64 (sz + (PGSIZE - 1))) (Z.lnot (PGSIZE - 1)).
Definition PGROUNDDOWN (a : Z) : Z := Z.land a (Z.lnot (PGSIZE - 1)).
Definition V2P (a : Z) : Z := u64 (a - KERNBASE).
Definition P2V (a : Z) : Z := u64 (a + KERNBASE).

(** ** kalloc.c *)

(** [kmem], with the memory it allocates from. *)
Record kmem := Kmem {
  km_mem : mem;
  freelist : Z;      (* struct run *freelist; 0 is the null pointer *)
  use_lock : Z;
}.

Definition set_mem (m : mem) (k : kmem) : kmem := Kmem m (freelist k) (use_lock k).
Definition set_freelist (r : Z) (k : kmem) : kmem := Kmem (km_mem k) r (use_lock k).
Definition set_use_lock (u : Z) (k : kmem) : kmem := Kmem (km_mem k) (freelist k) u.

Section Kalloc.
Variable kend : Z.

Definition kfree (v : Z) : M kmem unit :=
  let! k := get in
  if negb (v mod PGSIZE =? 0) || (v <? kend) || (PHYSTOP <=? V2P v)
  then panic "kfree"
  else
    (* Fill with junk to catch dangling refs. *)
    do! modify (fun k => set_mem (memset (km_mem k) v 1 PGSIZE) k) in
    (* r->next = kmem.freelist; kmem.freelist = r *)
    do! modify (fun k => set_mem (store64 (km_mem k) v (freelist k)) k) in
    modify (set_freelist v).

Definition kalloc : M kmem Z :=
  let! r := gets freelist in
  do! (if r =? 0 then ret tt
       else modify (fun k => set_freelist (load64 (km_mem k) r) k)) in
  ret r.

Fixpoint freerange_loop (fuel : nat) (p vend : Z) : M kmem unit :=
  if p + PGSIZE <=? vend then
    match fuel with
    | O => out_of_fuel
    | S fuel => do! kfree p in freerange_loop fuel (p + PGSIZE) vend
    end
  else ret tt.

(** Number of iterations the loop can need. *)
Definition freerange_fuel (vstart vend : Z) : nat :=
  Z.to_nat ((vend - vstart) / PGSIZE + 1).

Definition freerange (vstart vend : Z) : M kmem unit :=
  freerange_loop (freerange_fuel vstart vend) (PGROUNDUP vstart) vend.

Definition kinit1 (vstart vend : Z) : M kmem unit :=
  do! modify (set_use_lock 0) in
  freerange vstart vend.

Definition kinit2 (vstart vend : Z) : M kmem unit :=
  do! freerange vstart vend in
  modify (set_use_lock 1).
End Kalloc.

(** ** Rounding *)

Lemma land_lnot_ones x k : 0 <= k -> Z.land x (Z.lnot (Z.ones k)) = x - x mod 2 ^ k.
Proof.
  intros Hk. rewrite <-Z.ldiff_land, Z.ldiff_ones_r by lia.
  rewrite Z.shiftr_div_pow2, Z.shiftl_mul_pow2 by lia.
  pose proof (Z.div_mod x (2 ^ k)). lia.
Qed.

Lemma PGROUNDDOWN_eq a : PGROUNDDOWN a = a - a mod 4096.
Proof. unfold PGROUNDDOWN, PGSIZE. change (4096 - 1) with (Z.ones 12). by rewrite land_lnot_ones. Qed.

Lemma PGROUNDUP_eq a :
  0 <= a -> a + 4095 < 18446744073709551616 ->
  PGROUNDUP a = (a + 4095) - (a + 4095) mod 4096.
Proof.
  intros. unfold PGROUNDUP, PGSIZE. change (4096 - 1) with (Z.ones 12).
  rewrite land_lnot_ones by lia. change (Z.ones 12) with 4095.
  rewrite u64_small by lia. done.
Qed.

(** ** The free list invariant *)

Section Inv.
Variable kend : Z.

Definition page_ok (p : Z) : Prop :=
  p mod PGSIZE = 0 /\ kend <= p /\ KERNBASE <= p < KERNBASE + PHYSTOP.

Fixpoint is_list (m : mem) (head : Z) (l : list Z) : Prop :=
  match l with
  | [] => head = 0
  | p :: l => head = p /\ is_list m (load64 m p) l
  end.

Record kalloc_inv (k : kmem) (l : list Z) : Prop := {
  ki_list : is_list (km_mem k) (freelist k) l;
  ki_nodup : NoDup l;
  ki_pages : Forall page_ok l;
}.

Lemma page_ok_room p : page_ok p -> p + PGSIZE <= KERNBASE + PHYSTOP.
Proof.
  unfold page_ok, PGSIZE, KERNBASE, PHYSTOP. intros (? & ? & ?).
  Z.to_euclidean_division_equations. lia.
Qed.

Lemma page_ok_disj p q :
  page_ok p -> page_ok q -> p <> q -> p + PGSIZE <= q \/ q + PGSIZE <= p.
Proof.
  unfold page_ok, PGSIZE. intros (? & _) (? & _) ?.
  Z.to_euclidean_division_equations. lia.
Qed.

Lemma page_ok_V2P p : page_ok p -> V2P p = p - KERNBASE.
Proof.
  intros (? & ? & ?). unfold V2P. apply u64_small.
  unfold KERNBASE, PHYSTOP in *. lia.
Qed.

Lemma page_ok_nonzero p : page_ok p -> p <> 0.
Proof. unfold page_ok, KERNBASE. lia. Qed.

Lemma is_list_ext m1 m2 head l :
  (forall p x, p ∈ l -> p <= x < p + 8 -> rd m1 x = rd m2 x) ->
  is_list m1 head l -> is_list m2 head l.
Proof.
  revert head. induction l as [|p l IH]; intros head H; simpl; [done|].
  intros [-> Hl]. split; [done|].
  rewrite <-(load64_ext m1 m2) by (intros; eapply H; [left|done]).
  apply IH; [|done]. intros; eapply H; [by right|done].
Qed.

Lemma is_list_head_unique m head l1 l2 :
  Forall page_ok l1 -> Forall page_ok l2 ->
  is_list m head l1 -> is_list m head l2 -> l1 = l2.
Proof.
  revert head l2. induction l1 as [|p l1 IH]; intros head [|q l2] F1 F2; simpl; try done.
  - intros -> [E _]. apply Forall_cons_1 in F2 as [F2 _].
    by apply page_ok_nonzero in F2.
  - intros [E _] ->. apply Forall_cons_1 in F1 as [F1 _].
    by apply page_ok_nonzero in F1.
  - intros [-> H1] [-> H2]. apply Forall_cons_1 in F1 as [_ F1], F2 as [_ F2].
    f_equal. eauto.
Qed.

(** ** kfree and kalloc *)

Lemma kfree_guard v :
  KERNBASE <= kend -> 0 <= v < 18446744073709551616 ->
  page_ok v <->
  negb (v mod PGSIZE =? 0) || (v <? kend) || (PHYSTOP <=? V2P v) = false.
Proof.
  intros Hend Hv. rewrite !orb_false_iff, negb_false_iff, Z.eqb_eq, Z.ltb_ge, Z.leb_gt.
  unfold page_ok. split.
  - intros (? & ? & ?). repeat split; try done. rewrite page_ok_V2P by done. lia.
  - intros ((? & ?) & Hp). repeat split; try done; try lia.
    unfold V2P in Hp. rewrite u64_small in Hp; [lia|]. unfold KERNBASE in *. lia.
Qed.

Lemma kfree_panics v k :
  KERNBASE <= kend -> 0 <= v < 18446744073709551616 -> ~ page_ok v ->
  kfree kend v k = Panic "kfree".
Proof.
  intros Hend Hv Hp. unfold kfree, bind, get.
  destruct (negb _ || _ || _) eqn:E; [done|].
  by apply kfree_guard in E.
Qed.

Lemma kfree_spec v k l :
  KERNBASE <= kend -> kalloc_inv k l -> page_ok v -> v ∉ l ->
  exists k', kfree kend v k = Ok (tt, k') /\ kalloc_inv k' (v :: l) /\
    (forall x, x < v \/ v + PGSIZE <= x -> rd (km_mem k') x = rd (km_mem k) x) /\
    freelist k' = v /\ use_lock k' = use_lock k.
Proof.
  intros Hend [Hl Hd Hf] Hv Hin. unfold kfree, bind, get.
  pose proof Hv as (_ & _ & Hr). pose proof (page_ok_room v Hv) as Hroom.
  unfold KERNBASE, PHYSTOP, PGSIZE in Hr, Hroom.
  rewrite (proj1 (kfree_guard v Hend ltac:(lia)) Hv). simpl.
  eexists. split; [reflexivity|]. unfold set_freelist, set_mem; simpl.
  assert (Hout : forall x, x < v \/ v + PGSIZE <= x ->
    rd (store64 (memset (km_mem k) v 1 PGSIZE) v (freelist k)) x = rd (km_mem k) x).
  { intros x Hx. unfold PGSIZE in *. rewrite rd_store64_out by lia.
    rewrite rd_memset by lia. by destruct (in_range_spec v 4096 x); [lia|]. }
  split; [|by repeat split].
  split; simpl; [|by constructor|by constructor].
  split; [done|]. rewrite load64_store64_eq.
  assert (Hh : u64 (freelist k) = freelist k).
  { destruct l as [|p l]; simpl in Hl; [by rewrite Hl|]. destruct Hl as [-> _].
    apply Forall_cons_1 in Hf as [(_ & _ & Hp) _].
    apply u64_small. unfold KERNBASE, PHYSTOP in Hp. lia. }
  rewrite Hh. eapply is_list_ext; [|exact Hl].
  intros p x Hp Hx. symmetry. apply Hout.
  assert (Hpo : page_ok p) by (by eapply Forall_forall in Hp).
  assert (v <> p) by (by intros ->). unfold PGSIZE in *.
  pose proof (page_ok_disj v p Hv Hpo). unfold PGSIZE in *. naive_solver lia.
Qed.

Lemma kalloc_cons k p l :
  kalloc_inv k (p :: l) ->
  exists k', kalloc k = Ok (p, k') /\ kalloc_inv k' l /\ km_mem k' = km_mem k /\
    use_lock k' = use_lock k.
Proof.
  intros [[E Hl] Hd Hf]. apply Forall_cons_1 in Hf as [Hp Hf].
  apply NoDup_cons in Hd as [_ Hd]. unfold kalloc, bind, gets. rewrite E.
  destruct (Z.eqb_spec p 0); [by apply page_ok_nonzero in Hp|].
  eexists. split; [reflexivity|]. done.
Qed.

Lemma kalloc_nil k : kalloc_inv k [] -> kalloc k = Ok (0, k).
Proof. intros [Hl _ _]. simpl in Hl. unfold kalloc, bind, gets. by rewrite Hl. Qed.

(** ** freerange *)

(** The pages [p, p + PGSIZE, ...] of a region, the last one first. *)
Fixpoint pages (n : nat) (p : Z) : list Z :=
  match n with
  | O => []
  | S n => pages n (p + PGSIZE) ++ [p]
  end.

Lemma elem_of_pages n p x :
  x ∈ pages n p <-> exists i, 0 <= i < Z.of_nat n /\ x = p + i * PGSIZE.
Proof.
  revert p. induction n as [|n IH]; intros p; simpl.
  { split; [set_solver|]. intros (i & ? & _). lia. }
  rewrite elem_of_app, IH, list_elem_of_singleton. split.
  - intros [(i & ? & ->)| ->]; [exists (i + 1)|exists 0]; lia.
  - intros (i & ? & ->). destruct (decide (i = 0)) as [->|]; [right; lia|].
    left. exists (i - 1). lia.
Qed.

Lemma freerange_loop_spec n fuel p vend k l :
  KERNBASE <= kend -> (n <= fuel)%nat ->
  kalloc_inv k l ->
  p + Z.of_nat n * PGSIZE <= vend < p + Z.of_nat n * PGSIZE + PGSIZE ->
  (forall i, 0 <= i < Z.of_nat n -> page_ok (p + i * PGSIZE) /\ p + i * PGSIZE ∉ l) ->
  exists k', freerange_loop kend fuel p vend k = Ok (tt, k') /\
    kalloc_inv k' (pages n p ++ l) /\ use_lock k' = use_lock k.
Proof.
  intros Hend. revert fuel p k l. induction n as [|n IH]; intros fuel p k l Hfuel I Hv Hp.
  - destruct fuel; simpl; destruct (Z.leb_spec (p + PGSIZE) vend);
      (unfold PGSIZE in *; lia) || (exists k; done).
  - destruct fuel as [|fuel]; [lia|]. simpl.
    destruct (Z.leb_spec (p + PGSIZE) vend); [|unfold PGSIZE in *; lia].
    destruct (Hp 0 ltac:(lia)) as [Hp0 Hn0]. replace (p + 0 * PGSIZE) with p in * by lia.
    destruct (kfree_spec p k l Hend I Hp0 Hn0) as (k1 & E1 & I1 & _ & _ & U1).
    rewrite (bind_Ok _ _ _ _ _ E1).
    destruct (IH fuel (p + PGSIZE) k1 (p :: l)) as (k2 & E2 & I2 & U2); try done.
    + lia.
    + unfold PGSIZE in *. lia.
    + intros i Hi. destruct (Hp (i + 1) ltac:(lia)) as [Hpi Hni].
      replace (p + PGSIZE + i * PGSIZE) with (p + (i + 1) * PGSIZE) by lia.
      split; [done|]. apply not_elem_of_cons. split; [unfold PGSIZE; lia|done].
    + exists k2. rewrite <-app_assoc. split; [done|]. split; [done|congruence].
Qed.
End Inv.

(** ** Client runs

    A client allocates pages and frees pages it got; [A] is the set of pages
    it holds. *)
Inductive client_step (kend : Z) : kmem * gset Z -> kmem * gset Z -> Prop :=
| client_alloc k A p k' :
    kalloc k = Ok (p, k') -> p <> 0 ->
    client_step kend (k, A) (k', {[p]} ∪ A)
| client_fail k A k' :
    kalloc k = Ok (0, k') -> client_step kend (k, A) (k', A)
| client_free k A p k' :
    p ∈ A -> kfree kend p k = Ok (tt, k') ->
    client_step kend (k, A) (k', A ∖ {[p]}).

(** The free list and the client's pages partition the pages [P] the
    allocator manages. *)
Definition partition (kend : Z) (P : gset Z) (st : kmem * gset Z) : Prop :=
  exists l, kalloc_inv kend st.1 l /\ list_to_set l ## st.2 /\
    list_to_set l ∪ st.2 = P /\ set_Forall (page_ok kend) P.

Lemma client_step_partition kend P st st' :
  KERNBASE <= kend -> client_step kend st st' ->
  partition kend P st -> partition kend P st'.
Proof.
  intros Hend Hs (l & I & Hdis & HP & Hok). destruct Hs as [k A p k' E N|k A k' E|k A p k' Hin E];
    simpl in *.
  - destruct l as [|q l]; [rewrite (kalloc_nil kend) in E by done; congruence|].
    destruct (kalloc_cons _ _ _ _ I) as (k1 & E1 & I1 & _). rewrite E1 in E. simplify_eq.
    pose proof (ki_nodup _ _ _ I) as [Hq _]%NoDup_cons. exists l. simpl in *.
    split; [done|]. split; [set_solver|]. split; [set_solver|done].
  - destruct l as [|q l].
    + rewrite (kalloc_nil kend) in E by done. simplify_eq. exists []. done.
    + destruct (kalloc_cons _ _ _ _ I) as (k1 & E1 & _).
      pose proof (ki_pages _ _ _ I) as [Hq _]%Forall_cons_1.
      apply page_ok_nonzero in Hq. congruence.
  - assert (p ∉ l) by set_solver.
    assert (Hp : page_ok kend p) by (apply Hok; set_solver).
    destruct (kfree_spec _ p k l Hend I Hp) as (k1 & E1 & I1 & _); [done|].
    assert (k1 = k') as -> by congruence. exists (p :: l). split; [done|]. simpl.
    split; [set_solver|]. split; [|done].
    rewrite <-HP. apply set_eq. intros x. destruct (decide (x = p)); set_solver.
Qed.

Lemma client_steps_partition kend P st st' :
  KERNBASE <= kend -> rtc (client_step kend) st st' ->
  partition kend P st -> partition kend P st'.
Proof. intros Hend. induction 1; eauto using client_step_partition. Qed.

(** ** Properties *)

(** [kinit1] on a region of kernel memory leaves a well-formed free list of
    exactly the whole pages inside the region. *)
Theorem kinit1_pages (kend vstart vend : Z) (k : kmem) :
  KERNBASE <= kend -> kend <= vstart -> vstart <= vend -> vend <= KERNBASE + PHYSTOP ->
  freelist k = 0 ->
  exists k' l, kinit1 kend vstart vend k = Ok (tt, k') /\ kalloc_inv kend k' l /\
    use_lock k' = 0 /\
    forall p, p ∈ l <-> p mod PGSIZE = 0 /\ vstart <= p /\ p + PGSIZE <= vend.
Proof.
  intros H1 H2 H3 H4 Hf. unfold kinit1, freerange.
  rewrite (bind_Ok _ _ _ tt (set_use_lock 0 k)) by done.
  set (p0 := PGROUNDUP vstart).
  assert (Hp0 : p0 = vstart + 4095 - (vstart + 4095) mod 4096).
  { apply PGROUNDUP_eq; unfold KERNBASE, PHYSTOP in *; lia. }
  set (n := Z.to_nat ((vend - p0) / PGSIZE)).
  assert (Hal : p0 mod PGSIZE = 0) by (unfold PGSIZE; Z.to_euclidean_division_equations; lia).
  assert (Hge : vstart <= p0 < vstart + PGSIZE)
    by (unfold PGSIZE; Z.to_euclidean_division_equations; lia).
  assert (Hn : (vend - p0) / PGSIZE < 0 /\ vend < p0 \/
    p0 + Z.of_nat n * PGSIZE <= vend < p0 + Z.of_nat n * PGSIZE + PGSIZE).
  { subst n. unfold PGSIZE in *. Z.to_euclidean_division_equations. lia. }
  destruct Hn as [Hn|Hn].
  - exists (set_use_lock 0 k), []. split.
    + unfold freerange_loop. fold p0.
      destruct (freerange_fuel vstart vend);
        destruct (Z.leb_spec (p0 + PGSIZE) vend); unfold PGSIZE in *; done || lia.
    + split; [by split; simpl; [|constructor..]|]. split; [done|].
      intros p. split; [set_solver|]. intros (? & ? & ?). exfalso.
      unfold PGSIZE in *. Z.to_euclidean_division_equations. lia.
  - destruct (freerange_loop_spec kend n (freerange_fuel vstart vend) p0 vend
      (set_use_lock 0 k) []) as (k' & E & I & U); try done.
    + unfold freerange_fuel. subst n. unfold PGSIZE in *.
      Z.to_euclidean_division_equations. lia.
    + by split; simpl; [|constructor..].
    + intros i Hi. split; [|set_solver]. unfold page_ok, PGSIZE in *.
      Z.to_euclidean_division_equations. lia.
    + exists k', (pages n p0). rewrite app_nil_r in I.
      split; [done|]. split; [done|]. split; [done|]. intros p. split.
      * intros (i & Hi & ->)%elem_of_pages. unfold PGSIZE in *.
        Z.to_euclidean_division_equations. lia.
      * intros (? & ? & ?). apply elem_of_pages. exists ((p - p0) / PGSIZE).
        unfold PGSIZE in *. Z.to_euclidean_division_equations. lia.
Qed.

(** Whatever a client allocates and frees, the free list and the pages it holds
    stay a partition of the managed pages: an allocation returns a page nobody
    holds, and it fails only when the client holds every page. *)
Theorem kalloc_no_alias (kend : Z) (P : gset Z) (k0 k : kmem) (A : gset Z) :
  KERNBASE <= kend -> partition kend P (k0, ∅) ->
  rtc (client_step kend) (k0, ∅) (k, A) ->
  exists p k', kalloc k = Ok (p, k') /\
    (p = 0 <-> A = P) /\ (p <> 0 -> p ∈ P /\ p ∉ A).
Proof.
  intros Hend H0 Hs. apply client_steps_partition with (P := P) in Hs as
    (l & I & Hdis & HP & Hok); [|done..]. simpl in *.
  destruct l as [|p l].
  - exists 0, k. rewrite (kalloc_nil kend) by done. simpl in *.
    split; [done|]. split; [|done]. split; [|done]. intros _. set_solver.
  - destruct (kalloc_cons _ _ _ _ I) as (k' & E & _). exists p, k'.
    split; [done|]. pose proof (ki_pages _ _ _ I) as [Hp _]%Forall_cons_1.
    apply page_ok_nonzero in Hp. simpl in *. split; [|set_solver].
    split; [done|]. intros ->. set_solver.
Qed.

(** [kfree] panics exactly on a pointer that is unaligned, below the kernel's
    end, or past the top of physical memory; otherwise the page becomes the
    next one [kalloc] returns, and no byte outside it changes. *)
Theorem kfree_then_kalloc (kend v : Z) (k : kmem) (l : list Z) :
  KERNBASE <= kend -> 0 <= v < 18446744073709551616 -> kalloc_inv kend k l -> v ∉ l ->
  (~ page_ok kend v /\ kfree kend v k = Panic "kfree") \/
  (page_ok kend v /\ exists k1 k2, kfree kend v k = Ok (tt, k1) /\
     kalloc k1 = Ok (v, k2) /\ kalloc_inv kend k2 l /\
     forall x, x < v \/ v + PGSIZE <= x -> rd (km_mem k2) x = rd (km_mem k) x).
Proof.
  intros Hend Hv I Hin.
  destruct (negb (v mod PGSIZE =? 0) || (v <? kend) || (PHYSTOP <=? V2P v)) eqn:G.
  - left. assert (~ page_ok kend v) as N.
    { intros Hp. apply kfree_guard in Hp; [|done..]. congruence. }
    split; [done|]. by apply kfree_panics.
  - apply kfree_guard in G; [|done..]. right. split; [done|].
    destruct (kfree_spec kend v k l Hend I G Hin) as (k1 & E1 & I1 & Hm & _).
    destruct (kalloc_cons _ _ _ _ I1) as (k2 & E2 & I2 & M2 & _).
    exists k1, k2. rewrite M2. done.
Qed.

(** ** Witnesses *)

Definition kend0 : Z := KERNBASE + 1048576.
Definition kmem0 : kmem := Kmem ∅ 0 0.

Lemma kinit1_pages_witness :
  exists k' l, kinit1 kend0 (kend0 + 100) (kend0 + 20000) kmem0 = Ok (tt, k') /\
    kalloc_inv kend0 k' l /\ use_lock k' = 0 /\
    forall p, p ∈ l <->
      p mod PGSIZE = 0 /\ kend0 + 100 <= p /\ p + PGSIZE <= kend0 + 20000.
Proof.
  apply (kinit1_pages kend0 (kend0 + 100) (kend0 + 20000) kmem0);
    unfold kend0, KERNBASE, PHYSTOP; simpl; reflexivity || lia.
Defined.

Lemma kmem0_inv : kalloc_inv kend0 kmem0 [].
Proof. split; simpl; [done|constructor..]. Qed.

Lemma kend0_page_ok : page_ok kend0 kend0.
Proof. split; [reflexivity|]. unfold kend0, KERNBASE, PHYSTOP. lia. Qed.

Lemma kmem1_partition :
  partition kend0 {[kend0]} (Kmem (store64 ∅ kend0 0) kend0 0, ∅).
Proof.
  exists [kend0]. split; [split; simpl|].
  - split; [done|]. by rewrite load64_store64_eq.
  - apply NoDup_singleton.
  - constructor; [apply kend0_page_ok|constructor].
  - simpl. split; [set_solver|]. split; [set_solver|]. intros x ->%elem_of_singleton.
    apply kend0_page_ok.
Qed.

Lemma kalloc_no_alias_witness :
  exists p k', kalloc (Kmem (store64 ∅ kend0 0) kend0 0) = Ok (p, k') /\
    (p = 0 <-> (∅ : gset Z) = {[kend0]}) /\
    (p <> 0 -> p ∈ ({[kend0]} : gset Z) /\ p ∉ (∅ : gset Z)).
Proof.
  apply (kalloc_no_alias kend0 {[kend0]} (Kmem (store64 ∅ kend0 0) kend0 0)
    (Kmem (store64 ∅ kend0 0) kend0 0) ∅).
  - unfold kend0. lia.
  - apply kmem1_partition.
  - apply rtc_refl.
Defined.

Lemma kfree_then_kalloc_witness :
  (~ page_ok kend0 (kend0 + 4096) /\
     kfree kend0 (kend0 + 4096) kmem0 = Panic "kfree") \/
  (page_ok kend0 (kend0 + 4096) /\
     exists k1 k2, kfree kend0 (kend0 + 4096) kmem0 = Ok (tt, k1) /\
     kalloc k1 = Ok (kend0 + 4096, k2) /\ kalloc_inv kend0 k2 [] /\
     forall x, x < kend0 + 4096 \/ kend0 + 4096 + PGSIZE <= x ->
       rd (km_mem k2) x = rd (km_mem kmem0) x).
Proof.
  apply (kfree_then_kalloc kend0 (kend0 + 4096) kmem0 []).
  - unfold kend0. lia.
  - unfold kend0, KERNBASE. lia.
  - apply kmem0_inv.
  - apply not_elem_of_nil.
Defined.
