(* ===== verification/Vm.v ===== *)
(** * Virtual memory: vm.c

    Four-level page tables stored in the byte memory of the page allocator.
    Table pages are allocated with [kalloc], so a page-table operation is a
    [M kmem] computation; pointers into tables are kernel virtual addresses,
    entries hold physical addresses.  A null pointer that the code follows
    without a test is a page fault in kernel mode, which [trap] answers with
    [panic("trap")]. *)
From S2P Require Import Prelude Memory Strings Kalloc.

(** ** mmu.h *)

Definition PTE_P : Z := 1.
Definition PTE_W : Z := 2.
Definition PTE_U : Z := 4.
Definition PTE_ADDR (pte : Z) : Z := Z.land pte (Z.lnot 4095).
Definition PTE_FLAGS (pte : Z) : Z := Z.land pte 4095.

Definition PXMASK : Z := 511.
Definition PMX (va : Z) : Z := Z.land (Z.shiftr va 39) PXMASK.
Definition PDPX (va : Z) : Z := Z.land (Z.shiftr va 30) PXMASK.
Definition PDX (va : Z) : Z := Z.land (Z.shiftr va 21) PXMASK.
Definition PTX (va : Z) : Z := Z.land (Z.shiftr va 12) PXMASK.

(** [*p & PTE_P] *)
Definition present (e : Z) : bool := negb (Z.land e PTE_P =? 0).
(** [&tab[i]] for a table of 64-bit entries *)
Definition entry (tab i : Z) : Z := tab + 8 * i.

Section Vm.
Variable kend : Z.

(** Memory access of the kernel. *)
Definition kload (a : Z) : M kmem Z := gets (fun k => load64 (km_mem k) a).
Definition kstore (a v : Z) : M kmem unit :=
  modify (fun k => set_mem (store64 (km_mem k) a v) k).
Definition kmemset (dst c n : Z) : M kmem unit :=
  if dst =? 0 then panic "trap"
  else modify (fun k => set_mem (memset (km_mem k) dst c n) k).
Definition kmemmove (dst src n : Z) : M kmem unit :=
  modify (fun k => set_mem (memmove (km_mem k) dst src n) k).

(** ** walkpgdir *)

(** One level of [walkpgdir]: the table the entry [i] of [tab] points to,
    allocated and zeroed when it is missing and [alloc] is set; 0 on failure. *)
Definition walk_level (tab i : Z) (alloc : bool) : M kmem Z :=
  let! e := kload (entry tab i) in
  if present e then ret (P2V (PTE_ADDR e))
  else if negb alloc then ret 0
  else
    let! p := kalloc in
    if p =? 0 then ret 0
    else
      do! kmemset p 0 PGSIZE in
      do! kstore (entry tab i) (Z.lor (Z.lor (Z.lor (V2P p) PTE_P) PTE_W) PTE_U) in
      ret p.

Definition walkpgdir (pml4 va : Z) (alloc : bool) : M kmem Z :=
  let! pdp := walk_level pml4 (PMX va) alloc in
  if pdp =? 0 then ret 0
  else
    let! pd := walk_level pdp (PDPX va) alloc in
    if pd =? 0 then ret 0
    else
      let! pgtab := walk_level pd (PDX va) alloc in
      if pgtab =? 0 then ret 0
      else ret (entry pgtab (PTX va)).

(** ** Kernel page tables *)

(** The value of the static [kpdpt] is an argument. *)
Definition setupkvm (kpdpt : Z) : M kmem Z :=
  let! pml4 := kalloc in
  do! kmemset pml4 0 PGSIZE in
  do! kstore (entry pml4 256) (Z.lor (Z.lor (V2P kpdpt) PTE_P) PTE_W) in
  ret pml4.

(** ** Mapping *)

Fixpoint mappages_loop (fuel : nat) (pgdir a last pa perm : Z) : M kmem Z :=
  match fuel with
  | O => out_of_fuel
  | S fuel =>
      let! pte := walkpgdir pgdir a true in
      if pte =? 0 then ret (-1)
      else
        let! v := kload pte in
        if present v then panic "remap"
        else
          do! kstore pte (Z.lor (Z.lor pa perm) PTE_P) in
          if a =? last then ret 0
          else mappages_loop fuel pgdir (u64 (a + PGSIZE)) last (u64 (pa + PGSIZE)) perm
  end.

Definition mappages (pgdir va size pa perm : Z) : M kmem Z :=
  let a := PGROUNDDOWN va in
  let last := PGROUNDDOWN (u64 (va + size - 1)) in
  mappages_loop (Z.to_nat ((last - a) / PGSIZE + 1)) pgdir a last pa perm.

Definition inituvm (pgdir : Z) (init : list Z) : M kmem unit :=
  if PGSIZE <=? Z.of_nat (length init) then panic "inituvm: more than a page"
  else
    let! p := kalloc in
    do! kmemset p 0 PGSIZE in
    do! mappages pgdir PGSIZE PGSIZE (V2P p) (Z.lor PTE_W PTE_U) in
    modify (fun k => set_mem (wr_bytes (km_mem k) p init) k).

(** ** Growing and shrinking a process *)

Fixpoint deallocuvm_loop (fuel : nat) (pgdir a oldsz : Z) : M kmem unit :=
  if a <? oldsz then
    match fuel with
    | O => out_of_fuel
    | S fuel =>
        let! pte := walkpgdir pgdir a false in
        do! (if pte =? 0 then ret tt
             else
               let! v := kload pte in
               if present v then
                 let pa := PTE_ADDR v in
                 if pa =? 0 then panic "kfree"
                 else
                   do! kfree kend (P2V pa) in
                   kstore pte 0
               else ret tt) in
        deallocuvm_loop fuel pgdir (u64 (a + PGSIZE)) oldsz
    end
  else ret tt.

(** Iterations from [a] to [b] in steps of a page. *)
Definition page_fuel (a b : Z) : nat := Z.to_nat ((b - a) / PGSIZE + 1).

Definition deallocuvm (pgdir oldsz newsz : Z) : M kmem Z :=
  if oldsz <=? newsz then ret oldsz
  else
    let a := PGROUNDUP newsz in
    do! deallocuvm_loop (page_fuel a oldsz) pgdir a oldsz in
    ret newsz.

Fixpoint allocuvm_loop (fuel : nat) (pgdir a oldsz newsz : Z) : M kmem Z :=
  if a <? newsz then
    match fuel with
    | O => out_of_fuel
    | S fuel =>
        let! p := kalloc in
        if p =? 0 then
          do! deallocuvm pgdir newsz oldsz in
          ret 0
        else
          do! kmemset p 0 PGSIZE in
          let! r := mappages pgdir a PGSIZE (V2P p) (Z.lor PTE_W PTE_U) in
          if r <? 0 then
            do! deallocuvm pgdir newsz oldsz in
            do! kfree kend p in
            ret 0
          else allocuvm_loop fuel pgdir (u64 (a + PGSIZE)) oldsz newsz
    end
  else ret newsz.

Definition allocuvm (pgdir oldsz newsz : Z) : M kmem Z :=
  if KERNBASE <=? newsz then ret 0
  else if newsz <? oldsz then ret oldsz
  else
    let a := PGROUNDUP oldsz in
    allocuvm_loop (page_fuel a newsz) pgdir a oldsz newsz.

(** ** freevm *)

(** Free the pages the first [n] entries of a table refer to, by [free_one]. *)
Fixpoint free_entries (n : nat) (i tab : Z) (free_one : Z -> M kmem unit) : M kmem unit :=
  match n with
  | O => ret tt
  | S n =>
      let! e := kload (entry tab i) in
      do! (if present e then free_one (P2V (PTE_ADDR e)) else ret tt) in
      free_entries n (i + 1) tab free_one
  end.

Definition free_pt (pt : Z) : M kmem unit :=
  do! free_entries 512 0 pt (kfree kend) in kfree kend pt.
Definition free_pd (pd : Z) : M kmem unit :=
  do! free_entries 512 0 pd free_pt in kfree kend pd.
Definition free_pdp (pdp : Z) : M kmem unit :=
  do! free_entries 512 0 pdp free_pd in kfree kend pdp.

Definition freevm (pml4 : Z) : M kmem unit :=
  if pml4 =? 0 then panic "freevm: no pgdir"
  else
    do! free_entries 256 0 pml4 free_pdp in
    kfree kend pml4.

Definition clearpteu (pgdir uva : Z) : M kmem unit :=
  let! pte := walkpgdir pgdir uva false in
  if pte =? 0 then panic "clearpteu"
  else
    let! v := kload pte in
    kstore pte (Z.land v (Z.lnot PTE_U)).

(** ** copyuvm *)

Fixpoint copyuvm_loop (fuel : nat) (pgdir d i sz : Z) : M kmem Z :=
  if i <? sz then
    match fuel with
    | O => out_of_fuel
    | S fuel =>
        let! pte := walkpgdir pgdir i false in
        if pte =? 0 then panic "copyuvm: pte should exist"
        else
          let! v := kload pte in
          if negb (present v) then panic "copyuvm: page not present"
          else
            let pa := PTE_ADDR v in
            let flags := PTE_FLAGS v in
            let! p := kalloc in
            if p =? 0 then do! freevm d in ret 0
            else
              do! kmemmove p (P2V pa) PGSIZE in
              let! r := mappages d i PGSIZE (V2P p) flags in
              if r <? 0 then do! freevm d in ret 0
              else copyuvm_loop fuel pgdir d (u64 (i + PGSIZE)) sz
    end
  else ret d.

(** [sz] is a [uint]. *)
Definition copyuvm (kpdpt pgdir sz : Z) : M kmem Z :=
  let! d := setupkvm kpdpt in
  if d =? 0 then ret 0
  else copyuvm_loop (page_fuel PGSIZE (u32 sz)) pgdir d PGSIZE (u32 sz).

(** ** User memory access *)

Definition uva2ka (pgdir uva : Z) : M kmem Z :=
  let! pte := walkpgdir pgdir uva false in
  if pte =? 0 then panic "trap"
  else
    let! v := kload pte in
    if Z.land v PTE_P =? 0 then ret 0
    else if Z.land v PTE_U =? 0 then ret 0
    else ret (P2V (PTE_ADDR v)).

(** [copyout], with the source buffer as the list of its bytes. *)
Fixpoint copyout_loop (fuel : nat) (pgdir va : Z) (buf : list Z) : M kmem Z :=
  match buf with
  | [] => ret 0
  | _ =>
      match fuel with
      | O => out_of_fuel
      | S fuel =>
          let va0 := PGROUNDDOWN va in
          let! pa0 := uva2ka pgdir va0 in
          if pa0 =? 0 then ret (-1)
          else
            let n := Z.min (PGSIZE - (va - va0)) (Z.of_nat (length buf)) in
            do! modify (fun k =>
              set_mem (wr_bytes (km_mem k) (pa0 + (va - va0)) (take (Z.to_nat n) buf)) k) in
            copyout_loop fuel pgdir (u64 (va0 + PGSIZE)) (drop (Z.to_nat n) buf)
      end
  end.

Definition copyout (pgdir va : Z) (buf : list Z) : M kmem Z :=
  copyout_loop (S (length buf)) pgdir va buf.
End Vm.

(** ** Page-table entries *)

Lemma lor_aligned a f :
  a mod 4096 = 0 -> 0 <= f < 4096 -> Z.lor a f = a + f.
Proof.
  intros Ha Hf. assert (E : Z.land a f = 0).
  { apply Z.bits_inj'. intros n Hn. rewrite Z.land_spec, Z.bits_0.
    destruct (Z.lt_ge_cases n 12).
    - replace a with (a / 4096 * 2 ^ 12).
      + by rewrite Z.mul_pow2_bits_low.
      + change (2 ^ 12) with 4096. Z.to_euclidean_division_equations. lia.
    - rewrite (Z.bits_above_log2 f), andb_false_r; [done|lia|].
      destruct (Z.eq_dec f 0) as [->|]; [simpl; lia|].
      apply Z.lt_le_trans with 12; [|done]. apply Z.log2_lt_pow2; [lia|]. change (2 ^ 12) with 4096. lia. }
  rewrite <-Z.lxor_lor by done. by rewrite Z.add_nocarry_lxor.
Qed.

Lemma PTE_ADDR_eq e : PTE_ADDR e = e - e mod 4096.
Proof. unfold PTE_ADDR. change 4095 with (Z.ones 12). by rewrite land_lnot_ones. Qed.

Lemma PTE_FLAGS_eq e : PTE_FLAGS e = e mod 4096.
Proof. unfold PTE_FLAGS. change 4095 with (Z.ones 12). by rewrite Z.land_ones. Qed.

Lemma present_odd e : present e = Z.odd e.
Proof.
  unfold present, PTE_P. rewrite Z.land_comm. change 1 with (Z.ones 1) at 1.
  rewrite Z.land_comm, Z.land_ones by lia. change (2 ^ 1) with 2.
  rewrite Zmod_odd. by destruct (Z.odd e).
Qed.

(** The entry for the page [p] with flag bits [f], and reading it back. *)
Lemma pte_target kend p f :
  page_ok kend p -> 0 <= f < 4096 -> P2V (PTE_ADDR (V2P p + f)) = p.
Proof.
  intros Hp Hf. rewrite PTE_ADDR_eq, (page_ok_V2P kend) by done.
  destruct Hp as (Ha & _ & Hr). unfold P2V, PGSIZE, KERNBASE, PHYSTOP in *.
  assert (E : (p - 18446603336221196288 + f) mod 4096 = f).
  { pose proof (Z.div_mod p 4096 ltac:(lia)) as D. rewrite Ha in D.
    replace (p - 18446603336221196288 + f)
      with (f + (p / 4096 - 4503565267632128) * 4096) by lia.
    rewrite Z.mod_add, Z.mod_small; lia. }
  rewrite E, u64_small; lia.
Qed.

Lemma V2P_aligned kend p : page_ok kend p -> V2P p mod 4096 = 0.
Proof.
  intros Hp. rewrite (page_ok_V2P kend) by done.
  destruct Hp as (Ha & _). unfold PGSIZE, KERNBASE in *.
  Z.to_euclidean_division_equations. lia.
Qed.

Lemma table_pte kend p :
  page_ok kend p ->
  Z.lor (Z.lor (Z.lor (V2P p) PTE_P) PTE_W) PTE_U = V2P p + 7.
Proof.
  intros Hp. rewrite <-!Z.lor_assoc. change (Z.lor PTE_P (Z.lor PTE_W PTE_U)) with 7.
  apply lor_aligned; [by eapply V2P_aligned|lia].
Qed.

Lemma leaf_pte kend p perm :
  page_ok kend p -> 0 <= perm < 4096 ->
  exists f, 0 <= f < 4096 /\ Z.odd f = true /\ f = Z.lor perm PTE_P /\
    Z.lor (Z.lor (V2P p) perm) PTE_P = V2P p + f.
Proof.
  intros Hp Hf. exists (Z.lor perm PTE_P).
  assert (0 <= Z.lor perm PTE_P < 4096).
  { split; [apply Z.lor_nonneg; unfold PTE_P; lia|].
    destruct (Z.eq_dec (Z.lor perm PTE_P) 0) as [->|]; [lia|].
    assert (0 <= Z.lor perm PTE_P) by (apply Z.lor_nonneg; unfold PTE_P; lia).
    change 4096 with (2 ^ 12). apply Z.log2_lt_pow2; [lia|].
    rewrite Z.log2_lor by (unfold PTE_P; lia). unfold PTE_P. simpl.
    apply Z.max_lub_lt; [|lia].
    destruct (Z.eq_dec perm 0) as [->|]; [simpl; lia|].
    apply Z.log2_lt_pow2; [lia|]. change (2 ^ 12) with 4096. lia. }
  split; [done|]. split.
  { rewrite <-Z.bit0_odd, Z.lor_spec. unfold PTE_P. simpl. by rewrite orb_true_r. }
  split; [done|]. rewrite <-Z.lor_assoc. apply lor_aligned; [by eapply V2P_aligned|done].
Qed.

Lemma V2P_add_bound kend p f :
  page_ok kend p -> 0 <= f < 4096 -> u64 (V2P p + f) = V2P p + f.
Proof.
  intros Hp Hf. rewrite (page_ok_V2P kend) by done. destruct Hp as (_ & _ & Hr).
  apply u64_small. unfold KERNBASE, PHYSTOP in *. lia.
Qed.

Lemma V2P_add_odd kend p f :
  page_ok kend p -> present (V2P p + f) = Z.odd f.
Proof.
  intros Hp. rewrite present_odd, Z.odd_add.
  assert (E : Z.odd (V2P p) = false); [|by rewrite E, xorb_false_l].
  pose proof (V2P_aligned kend p Hp) as Ha. rewrite Zodd_mod.
  apply Z.eqb_neq. Z.to_euclidean_division_equations. lia.
Qed.

(** ** Address decomposition *)

(** [pfx lv va]: the part of [va] that selects a page of level [lv]; level 0
    is the page itself, level 1 its page table, level 4 the PML4. *)
Definition pfx (lv : nat) (va : Z) : Z := va / 2 ^ (12 + 9 * Z.of_nat lv).

Lemma px_eq va k : 0 <= k -> Z.land (Z.shiftr va k) PXMASK = va / 2 ^ k mod 512.
Proof.
  intros. unfold PXMASK. change 511 with (Z.ones 9).
  rewrite Z.land_ones, Z.shiftr_div_pow2 by lia. done.
Qed.

Lemma PTX_eq va : PTX va = pfx 0 va mod 512.
Proof. unfold PTX. by rewrite px_eq. Qed.
Lemma PDX_eq va : PDX va = pfx 1 va mod 512.
Proof. unfold PDX. by rewrite px_eq. Qed.
Lemma PDPX_eq va : PDPX va = pfx 2 va mod 512.
Proof. unfold PDPX. by rewrite px_eq. Qed.
Lemma PMX_eq va : PMX va = pfx 3 va mod 512.
Proof. unfold PMX. by rewrite px_eq. Qed.

Lemma pfx_succ lv va : pfx (S lv) va = pfx lv va / 512.
Proof.
  unfold pfx. rewrite Z.div_div by (try lia; apply Z.pow_pos_nonneg; lia).
  f_equal. change 512 with (2 ^ 9). rewrite <-Z.pow_add_r by lia. f_equal. lia.
Qed.

Lemma pfx_split lv va : pfx lv va = pfx (S lv) va * 512 + pfx lv va mod 512.
Proof. rewrite pfx_succ. pose proof (Z.div_mod (pfx lv va) 512). lia. Qed.

(** User addresses: the lower half of the canonical addresses. *)
Definition user_va (va : Z) : Prop := 0 <= va < 140737488355328.

Lemma pfx_4 va : user_va va -> pfx 4 va = 0.
Proof. intros H. unfold pfx, user_va in *. apply Z.div_small. simpl. lia. Qed.

Lemma pfx_3_user va : user_va va -> 0 <= pfx 3 va mod 512 < 256.
Proof.
  intros H. unfold pfx, user_va in *. change (2 ^ (12 + 9 * Z.of_nat 3)) with 549755813888.
  Z.to_euclidean_division_equations. lia.
Qed.

(** ** The page-table invariant

    [own] is the set of pages a page table is made of: it maps each page to its
    level and to the part of the address it stands for.  The pages form a tree:
    a present entry of a table leads to a page of the next level with the
    matching address part, and every page but the root is referred to by such
    an entry.  Entries of the upper half of the PML4 (the kernel's) are left
    out. *)
Section PtInv.
Variable kend : Z.
Variable root : Z.

Definition ent (m : mem) (t i : Z) : Z := load64 m (entry t i).
Definition slot_ok (lv : nat) (i : Z) : Prop := 0 <= i < 512 /\ (lv = 4%nat -> i < 256).

Record pt_inv (k : kmem) (l : list Z) (own : gmap Z (nat * Z)) : Prop := {
  pi_kalloc : kalloc_inv kend k l;
  pi_root : own !! root = Some (4%nat, 0);
  pi_page : forall t lv p, own !! t = Some (lv, p) ->
    page_ok kend t /\ t ∉ l /\ (lv <= 4)%nat;
  pi_inj : forall t1 t2 x, own !! t1 = Some x -> own !! t2 = Some x -> t1 = t2;
  pi_down : forall t lv p i, own !! t = Some (S lv, p) -> slot_ok (S lv) i ->
    present (ent (km_mem k) t i) = true ->
    own !! P2V (PTE_ADDR (ent (km_mem k) t i)) = Some (lv, p * 512 + i);
  pi_up : forall t lv p, own !! t = Some (lv, p) -> (lv < 4)%nat ->
    exists t', own !! t' = Some (S lv, p / 512) /\ slot_ok (S lv) (p mod 512) /\
      present (ent (km_mem k) t' (p mod 512)) = true /\
      P2V (PTE_ADDR (ent (km_mem k) t' (p mod 512))) = t;
  pi_top : forall t p, own !! t = Some (4%nat, p) -> p = 0;
}.

(** *** Walking without allocation *)

(** The address of the entry for [va], from the table [t] of level [lv + 1]. *)
Fixpoint walk (lv : nat) (m : mem) (t va : Z) : option Z :=
  let i := pfx lv va mod 512 in
  match lv with
  | O => Some (entry t i)
  | S lv' =>
      if present (ent m t i) then walk lv' m (P2V (PTE_ADDR (ent m t i))) va else None
  end.

(** The entry for [va], 0 when a table on the way is missing. *)
Definition pv (lv : nat) (m : mem) (t va : Z) : Z :=
  match walk lv m t va with Some a => load64 m a | None => 0 end.
Definition pteval (m : mem) (va : Z) : Z := pv 3 m root va.

Lemma entry_in t i : 0 <= i < 512 -> t <= entry t i /\ entry t i + 8 <= t + PGSIZE.
Proof. unfold entry, PGSIZE. lia. Qed.

Lemma entry_disj t1 t2 i1 i2 :
  page_ok kend t1 -> page_ok kend t2 -> 0 <= i1 < 512 -> 0 <= i2 < 512 ->
  (t1, i1) <> (t2, i2) ->
  entry t1 i1 + 8 <= entry t2 i2 \/ entry t2 i2 + 8 <= entry t1 i1.
Proof.
  intros H1 H2 B1 B2 N. destruct (decide (t1 = t2)) as [<-|Nt].
  - assert (i1 <> i2) by congruence. unfold entry. lia.
  - pose proof (page_ok_disj _ _ _ H1 H2 Nt). unfold entry, PGSIZE in *. lia.
Qed.

Lemma ent_store_eq m t i v : ent (store64 m (entry t i) v) t i = u64 v.
Proof. apply load64_store64_eq. Qed.

Lemma ent_store_ne m t1 i1 t2 i2 v :
  page_ok kend t1 -> page_ok kend t2 -> 0 <= i1 < 512 -> 0 <= i2 < 512 ->
  (t1, i1) <> (t2, i2) ->
  ent (store64 m (entry t2 i2) v) t1 i1 = ent m t1 i1.
Proof. intros. apply load64_store64_ne. by apply entry_disj. Qed.

Lemma ent_ext m1 m2 t i :
  0 <= i < 512 -> (forall x, t <= x < t + PGSIZE -> rd m1 x = rd m2 x) ->
  ent m1 t i = ent m2 t i.
Proof.
  intros Hi H. apply load64_ext. intros x Hx. apply H.
  pose proof (entry_in t i Hi). lia.
Qed.

Lemma pfx_slot lv va : user_va va -> (lv <= 3)%nat -> slot_ok (S lv) (pfx lv va mod 512).
Proof.
  intros Hv Hl. split; [apply Z.mod_pos_bound; lia|].
  intros E. replace lv with 3%nat by lia. by apply pfx_3_user.
Qed.

Section Walk.
Context (k : kmem) (l : list Z) (own : gmap Z (nat * Z)).
Hypothesis I : pt_inv k l own.

(** The next table of a walk is the one [own] has at the next level. *)
Lemma walk_down lv t va :
  user_va va -> (lv <= 3)%nat -> own !! t = Some (S lv, pfx (S lv) va) ->
  present (ent (km_mem k) t (pfx lv va mod 512)) = true ->
  own !! P2V (PTE_ADDR (ent (km_mem k) t (pfx lv va mod 512))) = Some (lv, pfx lv va).
Proof.
  intros Hv Hl Ht Hp. rewrite (pfx_split lv va).
  rewrite <-(pfx_split lv va) at 1.
  eapply pi_down; [exact I|done|by apply pfx_slot|].
  exact Hp.
Qed.
End Walk.
End PtInv.

Section PtOps.
Variable kend : Z.
Variable root : Z.
Abbreviation pt_inv := (pt_inv kend root).

(** *** Writes outside the tables *)

Definition same_tables (own : gmap Z (nat * Z)) (m m' : mem) : Prop :=
  forall t lv p x, own !! t = Some (S lv, p) -> t <= x < t + PGSIZE -> rd m' x = rd m x.

Lemma ent_same own m m' t lv p i :
  same_tables own m m' -> own !! t = Some (S lv, p) -> 0 <= i < 512 ->
  ent m' t i = ent m t i.
Proof. intros H Ht Hi. apply ent_ext; [done|]. intros x Hx. by eapply H. Qed.

Lemma pv_frame k l own m' lv t va :
  pt_inv k l own -> same_tables own (km_mem k) m' -> user_va va -> (lv <= 3)%nat ->
  own !! t = Some (S lv, pfx (S lv) va) -> pv lv m' t va = pv lv (km_mem k) t va.
Proof.
  intros I Hs Hv. revert t. induction lv as [|lv IH]; intros t Hl Ht; unfold pv; simpl.
  - apply (ent_same own (km_mem k) m' t 0 _ _ Hs Ht). apply Z.mod_pos_bound; lia.
  - rewrite (ent_same own (km_mem k) m' t _ _ _ Hs Ht) by (apply Z.mod_pos_bound; lia).
    destruct (present _) eqn:Hp; [|done].
    apply IH; [lia|]. eapply walk_down; eauto.
Qed.

Lemma pteval_frame k l own m' va :
  pt_inv k l own -> same_tables own (km_mem k) m' -> user_va va ->
  pteval root m' va = pteval root (km_mem k) va.
Proof.
  intros I Hs Hv. unfold pteval. eapply pv_frame; eauto.
  rewrite pfx_4 by done. by eapply pi_root.
Qed.

Lemma pt_inv_frame k l own k' :
  pt_inv k l own -> kalloc_inv kend k' l -> same_tables own (km_mem k) (km_mem k') ->
  pt_inv k' l own.
Proof.
  intros I Ik Hs. split; try done; try by apply I.
  - intros t lv p i Ht Hi. rewrite (ent_same _ _ _ _ _ _ _ Hs Ht) by apply Hi.
    by apply I.
  - intros t lv p Ht Hl. destruct (pi_up _ _ _ _ _ I t lv p Ht Hl) as (t' & Ht' & Hi & Hp & E).
    exists t'. by rewrite (ent_same _ _ _ _ _ _ _ Hs Ht') by apply Hi.
Qed.

(** The free list survives writes that stay out of its pages. *)
Lemma kalloc_inv_frame k k' l :
  kalloc_inv kend k l -> freelist k' = freelist k ->
  (forall p x, p ∈ l -> p <= x < p + PGSIZE -> rd (km_mem k') x = rd (km_mem k) x) ->
  kalloc_inv kend k' l.
Proof.
  intros [Hl Hd Hf] Ef Hx. split; [|done..]. rewrite Ef.
  eapply is_list_ext; [|exact Hl]. intros p x Hp Hxx. symmetry.
  apply (Hx p); [done|unfold PGSIZE; lia].
Qed.

(** Writing inside one page, seen from another page. *)
Definition writes_in (t : Z) (m m' : mem) : Prop :=
  forall x, x < t \/ t + PGSIZE <= x -> rd m' x = rd m x.

Lemma writes_in_other t m m' p x :
  writes_in t m m' -> page_ok kend t -> page_ok kend p -> p <> t ->
  p <= x < p + PGSIZE -> rd m' x = rd m x.
Proof.
  intros Hw Ht Hp N Hx. apply Hw. pose proof (page_ok_disj kend p t Hp Ht N). lia.
Qed.

Lemma writes_in_kalloc k k' l t :
  kalloc_inv kend k l -> freelist k' = freelist k -> page_ok kend t -> t ∉ l ->
  writes_in t (km_mem k) (km_mem k') -> kalloc_inv kend k' l.
Proof.
  intros I E Ht Hn Hw. eapply kalloc_inv_frame; [done..|].
  intros p x Hp Hx.
  assert (Hpo : page_ok kend p).
  { pose proof (ki_pages _ _ _ I) as Hf. by eapply Forall_forall in Hf. }
  apply (writes_in_other t _ _ p); try done. by intros ->.
Qed.

Lemma writes_in_tables own t m m' :
  writes_in t m m' -> page_ok kend t -> (forall lv p, own !! t <> Some (S lv, p)) ->
  (forall t lv p, own !! t = Some (lv, p) -> page_ok kend t) ->
  same_tables own m m'.
Proof.
  intros Hw Ht Hn Hp t' lv p x H' Hx.
  apply (writes_in_other t _ _ t'); try done; [by eapply Hp|].
  intros ->. by eapply Hn.
Qed.

Lemma writes_in_store t i m v : 0 <= i < 512 -> writes_in t m (store64 m (entry t i) v).
Proof.
  intros Hi x Hx. apply rd_store64_out. pose proof (entry_in t i Hi). lia.
Qed.

Lemma writes_in_memset t m c : writes_in t m (memset m t c PGSIZE).
Proof.
  intros x Hx. rewrite rd_memset by (unfold PGSIZE; lia).
  by destruct (in_range_spec t PGSIZE x); [lia|].
Qed.

Lemma writes_in_trans t m1 m2 m3 :
  writes_in t m1 m2 -> writes_in t m2 m3 -> writes_in t m1 m3.
Proof. intros H1 H2 x Hx. rewrite H2 by done. by apply H1. Qed.

(** A write inside a page that is no table of the page table and not free
    changes neither the invariant nor the mapping. *)
Lemma pt_inv_write k l own t m' :
  pt_inv k l own -> page_ok kend t -> t ∉ l -> (forall lv p, own !! t <> Some (S lv, p)) ->
  writes_in t (km_mem k) m' ->
  pt_inv (set_mem m' k) l own /\
  forall va, user_va va -> pteval root m' va = pteval root (km_mem k) va.
Proof.
  intros I Ht Hl Hn Hw.
  assert (Hs : same_tables own (km_mem k) m').
  { eapply writes_in_tables; eauto. intros ? ? ? ?. by eapply pi_page. }
  split; [|intros va Hv; by eapply pteval_frame].
  eapply pt_inv_frame; [done| |done].
  eapply writes_in_kalloc; [apply I|done|exact Ht|done|done].
Qed.

(** *** Adding and removing a page *)

Lemma pt_inv_kalloc k c l own :
  pt_inv k (c :: l) own ->
  exists k', kalloc k = Ok (c, k') /\ km_mem k' = km_mem k /\ pt_inv k' l own /\
    page_ok kend c /\ c ∉ l /\ own !! c = None.
Proof.
  intros I. destruct (kalloc_cons _ _ _ _ (pi_kalloc _ _ _ _ _ I)) as (k' & E & I' & Em & _).
  exists k'. split; [done|]. split; [done|].
  pose proof (ki_pages _ _ _ (pi_kalloc _ _ _ _ _ I)) as [Hc _]%Forall_cons_1.
  pose proof (ki_nodup _ _ _ (pi_kalloc _ _ _ _ _ I)) as [Hn _]%NoDup_cons.
  split; [|split; [done|split; [done|]]].
  - destruct I. split; try done; rewrite ?Em; try done.
    intros t lv p Ht. destruct (pi_page0 _ _ _ Ht) as (? & ? & ?). set_solver.
  - destruct (own !! c) as [[lv p]|] eqn:Ec; [|done].
    destruct (pi_page _ _ _ _ _ I _ _ _ Ec) as (_ & Hx & _). set_solver.
Qed.

Lemma no_page_at k l own t lv p i c :
  pt_inv k l own -> own !! t = Some (S lv, p) -> slot_ok (S lv) i ->
  present (ent (km_mem k) t i) = false -> own !! c <> Some (lv, p * 512 + i).
Proof.
  intros I Ht Hi Hp Hc. destruct (pi_up _ _ _ _ _ I _ _ _ Hc) as (t' & Ht' & _ & Hp' & _).
  { apply (pi_page _ _ _ _ _ I) in Ht. lia. }
  destruct Hi as [Hi _].
  replace ((p * 512 + i) / 512) with p in Ht' by (Z.to_euclidean_division_equations; lia).
  replace ((p * 512 + i) mod 512) with i in Hp' by (Z.to_euclidean_division_equations; lia).
  rewrite (pi_inj _ _ _ _ _ I _ _ _ Ht' Ht) in Hp'. congruence.
Qed.

(** Writing the entry [(t, i)], not present before, to refer to a new page [c]
    whose own entries (if it is a table) are all absent. *)
Lemma pt_inv_link k l own t lv p i c v :
  pt_inv k l own -> own !! t = Some (S lv, p) -> slot_ok (S lv) i ->
  present (ent (km_mem k) t i) = false ->
  page_ok kend c -> c ∉ l -> own !! c = None ->
  u64 v = v -> present v = true -> P2V (PTE_ADDR v) = c ->
  (lv <> O -> forall j, 0 <= j < 512 -> present (ent (km_mem k) c j) = false) ->
  pt_inv (set_mem (store64 (km_mem k) (entry t i) v) k) l (<[c := (lv, p * 512 + i)]> own).
Proof.
  intros I Ht Hi Hp Hc Hcl Hco Hv Hpv Htv Hz.
  destruct (pi_page _ _ _ _ _ I _ _ _ Ht) as (Htp & Htl & Hlv).
  assert (Hct : c <> t) by congruence.
  assert (Hne : forall t' lv' p' j, own !! t' = Some (lv', p') -> 0 <= j < 512 ->
    (t', j) <> (t, i) ->
    ent (store64 (km_mem k) (entry t i) v) t' j = ent (km_mem k) t' j).
  { intros t' lv' p' j Ht' Hj N.
    eapply ent_store_ne; [by eapply pi_page in Ht' as (? & _)|exact Htp|done|apply Hi|done]. }
  split; cbn [km_mem set_mem].
  - eapply writes_in_kalloc; [apply I|done|exact Htp|done|].
    apply writes_in_store. apply Hi.
  - rewrite lookup_insert_ne; [by apply I|]. intros ->. by rewrite (pi_root _ _ _ _ _ I) in Hco.
  - intros t' lv' p' Ht'. apply lookup_insert_Some in Ht' as [[-> [= <- <-]]|[? ?]].
    + split; [done|]. split; [done|lia].
    + by eapply pi_page.
  - intros t1 t2 x H1 H2.
    apply lookup_insert_Some in H1 as [[<- <-]|[? H1]],
      H2 as [[<- E2]|[? H2]]; try congruence.
    + by eapply no_page_at in H2.
    + subst x. by eapply no_page_at in H1.
    + by eapply pi_inj.
  - intros t' lv' p' j Ht' Hj. apply lookup_insert_Some in Ht' as [[<- [= -> <-]]|[Nc Ht']].
    + rewrite (ent_store_ne kend) by (done || apply Hj || apply Hi || congruence).
      intros Hpj. rewrite (Hz ltac:(done) j) in Hpj; [done|apply Hj].
    + destruct (decide ((t', j) = (t, i))) as [[= -> ->]|N].
      * rewrite ent_store_eq, Hv, Htv. intros _. rewrite lookup_insert_eq. congruence.
      * rewrite (Hne _ _ _ _ Ht') by (done || apply Hj). intros Hpj.
        rewrite lookup_insert_ne; [by eapply pi_down|].
        intros E. pose proof (pi_down _ _ _ _ _ I _ _ _ _ Ht' Hj Hpj) as Hd.
        rewrite <-E in Hd. congruence.
  - intros t' lv' p' Ht' Hl'. apply lookup_insert_Some in Ht' as [[<- [= <- <-]]|[Nc Ht']].
    + exists t. destruct Hi as [Hi1 Hi2].
      replace ((p * 512 + i) / 512) with p by (Z.to_euclidean_division_equations; lia).
      replace ((p * 512 + i) mod 512) with i by (Z.to_euclidean_division_equations; lia).
      rewrite ent_store_eq, Hv. rewrite lookup_insert_ne by done. done.
    + destruct (pi_up _ _ _ _ _ I _ _ _ Ht' Hl') as (t1 & H1 & Hs & Hp1 & E1).
      exists t1. rewrite lookup_insert_ne by congruence.
      rewrite (Hne _ _ _ _ H1); [done|apply Hs|]. intros [= -> E]. congruence.
  - intros t' p' [[<- [= -> <-]]|[_ Ht']]%lookup_insert_Some; [lia|by eapply pi_top].
Qed.
End PtOps.

Section PtMap.
Variable kend : Z.
Variable root : Z.
Abbreviation pt_inv := (pt_inv kend root).

(** *** The effect of a store on the mapping *)

Lemma pv_zero_table m t lv va :
  (forall x, t <= x < t + PGSIZE -> rd m x = 0) -> pv lv m t va = 0.
Proof.
  intros H. assert (E : ent m t (pfx lv va mod 512) = 0).
  { apply load64_zero. intros x Hx. apply H.
    pose proof (entry_in t (pfx lv va mod 512)). 
    pose proof (Z.mod_pos_bound (pfx lv va) 512). lia. }
  unfold pv. destruct lv; simpl; [done|]. by rewrite E.
Qed.

(** Linking a zeroed table of level [lv + 1] at an absent entry. *)
Lemma pv_link k l own t lv p i c v lv' x va :
  pt_inv k l own -> own !! t = Some (S (S lv), p) -> slot_ok (S (S lv)) i ->
  present (ent (km_mem k) t i) = false ->
  page_ok kend c -> own !! c = None ->
  u64 v = v -> P2V (PTE_ADDR v) = c ->
  (forall y, c <= y < c + PGSIZE -> rd (km_mem k) y = 0) ->
  user_va va -> (lv' <= 3)%nat -> own !! x = Some (S lv', pfx (S lv') va) ->
  pv lv' (store64 (km_mem k) (entry t i) v) x va = pv lv' (km_mem k) x va.
Proof.
  intros I Ht Hi Hp Hc Hco Hv Htv Hz Hva. revert x.
  destruct (pi_page _ _ _ _ _ I _ _ _ Ht) as (Htp & _ & Hlv).
  induction lv' as [|lv' IH]; intros x Hl Hx;
    destruct (pi_page _ _ _ _ _ I _ _ _ Hx) as (Hxp & _ & _);
    unfold pv; cbn [walk].
  - apply (ent_store_ne kend); try done; [apply Z.mod_pos_bound; lia|apply Hi|].
    intros [= -> _]. congruence.
  - destruct (decide ((x, pfx (S lv') va mod 512) = (t, i))) as [[= -> <-]|N].
    + rewrite ent_store_eq, Hv, Hp. destruct (present v); [|done].
      rewrite Htv. apply pv_zero_table. intros y Hy.
      rewrite (writes_in_store t (pfx (S lv') va mod 512)); [by apply Hz|apply Hi|].
      assert (c <> t) as Nct by congruence.
      pose proof (page_ok_disj kend c t Hc Htp Nct). lia.
    + rewrite (ent_store_ne kend) by (done || apply Hi || (apply Z.mod_pos_bound; lia)).
      destruct (present (ent (km_mem k) x (pfx (S lv') va mod 512))) eqn:Hpx; [|done].
      apply IH; [lia|]. eapply walk_down; eauto.
Qed.

(** Changing one entry of a last-level table. *)
Definition set_entry (own : gmap Z (nat * Z)) (t i v : Z) (m m' : mem) : Prop :=
  forall t' lv p' j, own !! t' = Some (S lv, p') -> 0 <= j < 512 ->
    ent m' t' j = if decide ((t', j) = (t, i)) then v else ent m t' j.

Lemma set_entry_store k l own t lv p i v :
  pt_inv k l own -> own !! t = Some (lv, p) -> 0 <= i < 512 ->
  set_entry own t i (u64 v) (km_mem k) (store64 (km_mem k) (entry t i) v).
Proof.
  intros I Ht Hi t' lv' p' j Ht' Hj. case_decide as D.
  - injection D as -> ->. apply ent_store_eq.
  - apply (ent_store_ne kend); try done.
    + by eapply pi_page in Ht' as (? & _).
    + by eapply pi_page in Ht as (? & _).
Qed.

Lemma pv_set_leaf k l own t p i v m' lv' x va :
  pt_inv k l own -> own !! t = Some (1%nat, p) -> 0 <= i < 512 ->
  set_entry own t i v (km_mem k) m' ->
  user_va va -> (lv' <= 3)%nat -> own !! x = Some (S lv', pfx (S lv') va) ->
  (pfx 0 va = p * 512 + i -> walk lv' (km_mem k) x va = Some (entry t i)) ->
  pv lv' m' x va = if pfx 0 va =? p * 512 + i then v else pv lv' (km_mem k) x va.
Proof.
  intros I Ht Hi He Hva. revert x.
  assert (B : forall y, 0 <= y mod 512 < 512) by (intros; apply Z.mod_pos_bound; lia).
  induction lv' as [|lv' IH]; intros x Hl Hx Hw; unfold pv; cbn [walk] in *.
  - change (load64 m' (entry x (pfx 0 va mod 512))) with (ent m' x (pfx 0 va mod 512)).
    rewrite (He _ _ _ _ Hx (B _)).
    destruct (Z.eqb_spec (pfx 0 va) (p * 512 + i)) as [E|E].
    + specialize (Hw E). injection Hw as Hw. rewrite decide_True; [done|].
      assert (x = t) as -> by (eapply (pi_inj _ _ _ _ _ I); [exact Hx|];
        rewrite Ht; repeat f_equal; rewrite pfx_succ, E;
        Z.to_euclidean_division_equations; lia).
      unfold entry in Hw. f_equal. lia.
    + rewrite decide_False; [done|]. intros [= -> Ei].
      rewrite (pfx_split 0 va), Ei in E. congruence.
  - rewrite (He _ _ _ _ Hx (B _)), decide_False by (intros [= -> _]; congruence).
    destruct (present (ent (km_mem k) x (pfx (S lv') va mod 512))) eqn:Hpx.
    + apply IH; [lia|eapply walk_down; eauto|done].
    + destruct (Z.eqb_spec (pfx 0 va) (p * 512 + i)) as [e|]; [|done].
      by specialize (Hw e).
Qed.

(** *** walk_level *)

Lemma kmemset_ok p c n k :
  p <> 0 -> kmemset p c n k = Ok (tt, set_mem (memset (km_mem k) p c n) k).
Proof. intros. unfold kmemset. by destruct (Z.eqb_spec p 0). Qed.

(** Allocation keeps the mapping of every user address: what is new is a set
    of empty tables. *)
Definition pages_of (l : list Z) (own : gmap Z (nat * Z)) : gset Z :=
  list_to_set l ∪ dom own.

(** Only the pages [P] are written. *)
Definition keeps (P : gset Z) (m m' : mem) : Prop :=
  forall x, (forall t, t ∈ P -> x < t \/ t + PGSIZE <= x) -> rd m' x = rd m x.

Lemma keeps_refl P m : keeps P m m.
Proof. by intros x. Qed.
Lemma keeps_trans P m1 m2 m3 : keeps P m1 m2 -> keeps P m2 m3 -> keeps P m1 m3.
Proof. intros H1 H2 x Hx. rewrite H2 by done. by apply H1. Qed.
Lemma keeps_writes P t m m' : t ∈ P -> writes_in t m m' -> keeps P m m'.
Proof. intros Ht Hw x Hx. apply Hw. by apply Hx. Qed.
Lemma keeps_mono P Q m m' : P ⊆ Q -> keeps P m m' -> keeps Q m m'.
Proof. intros Hs H x Hx. apply H. intros t Ht. apply Hx. by apply Hs. Qed.

Lemma in_pages_l l own t : t ∈ l -> t ∈ pages_of l own.
Proof. intros H. unfold pages_of. apply elem_of_union. left. by apply elem_of_list_to_set. Qed.
Lemma in_pages_own l (own : gmap Z (nat * Z)) t x : own !! t = Some x -> t ∈ pages_of l own.
Proof. intros H. unfold pages_of. apply elem_of_union. right. apply elem_of_dom. eauto. Qed.

Definition grows (k : kmem) (l : list Z) (own : gmap Z (nat * Z))
    (k' : kmem) (l' : list Z) (own' : gmap Z (nat * Z)) : Prop :=
  pt_inv k' l' own' /\ own ⊆ own' /\
  (l' `suffix_of` l /\ pages_of l' own' = pages_of l own) /\
  (forall c, own' !! c <> None -> own !! c = None -> c ∈ l /\ exists lv p, own' !! c = Some (S lv, p)) /\
  (forall va, user_va va -> pteval root (km_mem k') va = pteval root (km_mem k) va) /\
  (forall t x, page_ok kend t -> own' !! t = None \/ (exists p, own !! t = Some (O, p)) ->
     t <= x < t + PGSIZE -> rd (km_mem k') x = rd (km_mem k) x) /\
  keeps (pages_of l own) (km_mem k) (km_mem k').

Lemma grows_refl k l own : pt_inv k l own -> grows k l own k l own.
Proof.
  intros I. split; [done|]. split; [done|]. split; [done|].
  split; [|split; [done|split; [done|apply keeps_refl]]]. intros c H1 H2. congruence.
Qed.

Lemma grows_trans k1 l1 o1 k2 l2 o2 k3 l3 o3 :
  grows k1 l1 o1 k2 l2 o2 -> grows k2 l2 o2 k3 l3 o3 -> grows k1 l1 o1 k3 l3 o3.
Proof.
  intros (I1 & S1 & [L1 C1] & N1 & P1 & M1 & K1) (I2 & S2 & [L2 C2] & N2 & P2 & M2 & K2).
  split; [done|]. split; [by etrans|]. split; [split; [by etrans|congruence]|].
  split; [|split; [|split; [|rewrite C1 in K2; by eapply keeps_trans]]].
  - intros c H3 H1. destruct (o2 !! c) as [q|] eqn:E2.
    + destruct (N1 c) as (Hc & lv & p & E); [congruence|done|]. split; [done|].
      exists lv, p. eapply lookup_weaken in S2; [exact S2|congruence].
    + destruct (N2 c) as (Hc & Hex); [done|done|]. split; [|done].
      destruct L1 as [? ->]. apply elem_of_app. by right.
  - intros va Hv. rewrite P2 by done. by apply P1.
  - intros t x Ht Ho Hx. rewrite (M2 t x); [|done| |done].
    + apply (M1 t x); [done| |done]. destruct Ho as [Ho|Ho]; [left|by right].
      destruct (o2 !! t) eqn:E; [|done]. eapply lookup_weaken in S2; [|exact E]. congruence.
    + destruct Ho as [Ho|[p Ho]]; [by left|right]. exists p. by eapply lookup_weaken.
Qed.

Lemma walk_level_spec k l own t lv p i :
  pt_inv k l own -> own !! t = Some (S (S lv), p) -> slot_ok (S (S lv)) i ->
  (exists k', walk_level t i true k = Ok (0, k') /\ l = [] /\ k' = k) \/
  (exists r k' l' own', walk_level t i true k = Ok (r, k') /\ r <> 0 /\
    grows k l own k' l' own' /\ own' !! r = Some (S lv, p * 512 + i) /\
    present (ent (km_mem k') t i) = true /\ P2V (PTE_ADDR (ent (km_mem k') t i)) = r).
Proof.
  intros I Ht Hi. unfold walk_level, kload.
  rewrite (bind_Ok _ _ k (ent (km_mem k) t i) k) by done.
  destruct (present (ent (km_mem k) t i)) eqn:Hp.
  { right. pose proof (pi_down _ _ _ _ _ I _ _ _ _ Ht Hi Hp) as Hd.
    eexists _, k, l, own. split; [reflexivity|].
    destruct (pi_page _ _ _ _ _ I _ _ _ Hd) as (Ho & _).
    split; [by eapply page_ok_nonzero|]. split; [by apply grows_refl|]. done. }
  simpl. destruct l as [|c l].
  { left. rewrite (bind_Ok _ _ _ _ _ (kalloc_nil kend k (pi_kalloc _ _ _ _ _ I))).
    exists k. done. }
  right. destruct (pt_inv_kalloc _ _ _ _ _ _ I) as (k1 & E1 & M1 & I1 & Hc & Hcl & Hco).
  rewrite (bind_Ok _ _ _ _ _ E1).
  pose proof (page_ok_nonzero _ _ Hc) as Hc0. destruct (Z.eqb_spec c 0); [done|].
  rewrite (bind_Ok _ _ _ _ _ (kmemset_ok c 0 PGSIZE k1 Hc0)).
  set (k2 := set_mem (memset (km_mem k1) c 0 PGSIZE) k1).
  destruct (pt_inv_write kend root k1 l own c (memset (km_mem k1) c 0 PGSIZE)) as [I2 P2];
    [done|done|done|congruence|apply writes_in_memset|]. fold k2 in I2.
  unfold kstore. rewrite (bind_Ok _ _ _ tt _ (eq_refl _)).
  rewrite (table_pte kend) by done. set (v := V2P c + 7).
  assert (Hv : u64 v = v) by (eapply V2P_add_bound; [done|lia]).
  assert (Hpv : present v = true) by (unfold v; by erewrite V2P_add_odd).
  assert (Htv : P2V (PTE_ADDR v) = c) by (eapply pte_target; [done|lia]).
  assert (Hz : forall y, c <= y < c + PGSIZE -> rd (km_mem k2) y = 0).
  { intros y Hy. unfold k2. simpl. rewrite rd_memset by (unfold PGSIZE; lia).
    by destruct (in_range_spec c PGSIZE y); [|lia]. }
  assert (Hp2 : present (ent (km_mem k2) t i) = false).
  { rewrite <-Hp. f_equal. rewrite <-M1. apply ent_ext; [apply Hi|].
    intros x Hx. apply (writes_in_other kend c _ _ t); try done.
    - apply writes_in_memset.
    - by eapply pi_page in Ht as (? & _).
    - congruence. }
  eexists c, _, l, _. split; [reflexivity|]. split; [done|].
  split; [split; [|split; [|split; [|split; [|split; [|split]]]]]|].
  - eapply (pt_inv_link kend root k2 l own t (S lv) p i c v); try done.
    intros _ j Hj. rewrite present_odd.
    assert (ent (km_mem k2) c j = 0) as ->; [|done].
    apply load64_zero. intros x Hx. apply Hz. pose proof (entry_in c j Hj). lia.
  - by apply insert_subseteq.
  - split; [by exists [c]|]. unfold pages_of. rewrite dom_insert_L. set_solver.
  - intros c' H1 H2. destruct (decide (c' = c)) as [->|].
    + split; [left|]. exists lv, (p * 512 + i). by rewrite lookup_insert_eq.
    + rewrite lookup_insert_ne in H1 by done. done.
  - intros va Hva. simpl. transitivity (pteval root (km_mem k2) va).
    + unfold pteval. eapply (pv_link k2 l own t lv p i c v); try done.
      rewrite pfx_4 by done. by eapply pi_root.
    + unfold k2. simpl. rewrite P2 by done. by rewrite M1.
  - intros t' x Ht' Ho Hx. simpl. destruct (pi_page _ _ _ _ _ I _ _ _ Ht) as (Htp & _).
    assert (t' <> c /\ t' <> t) as [N1 N2].
    { destruct Ho as [Ho|[q Ho]].
      - apply lookup_insert_None in Ho as [??]. split; congruence.
      - split; congruence. }
    rewrite (writes_in_other kend t (km_mem k2) _ t'); try done.
    2: { apply writes_in_store, Hi. }
    rewrite <-M1. apply (writes_in_other kend c _ _ t'); try done. apply writes_in_memset.
  - simpl. eapply keeps_trans; [|eapply (keeps_writes _ t); [by eapply in_pages_own|apply writes_in_store, Hi]].
    rewrite <-M1. apply (keeps_writes _ c); [apply in_pages_l; left|apply writes_in_memset].
  - rewrite lookup_insert_eq. simpl. rewrite ent_store_eq, Hv. done.
Qed.
End PtMap.

Section PtWalk.
Variable kend : Z.
Variable root : Z.
Abbreviation pt_inv := (pt_inv kend root).
Abbreviation grows := (grows kend root).

(** The tables above a last-level table are all there. *)
Lemma climb k l own t va lv :
  pt_inv k l own -> own !! t = Some (1%nat, pfx 1 va) -> (lv <= 3)%nat ->
  exists y, own !! y = Some (S lv, pfx (S lv) va).
Proof.
  intros I Ht. induction lv as [|lv IH]; intros Hl; [by exists t|].
  destruct IH as [y Hy]; [lia|].
  destruct (pi_up _ _ _ _ _ I _ _ _ Hy) as (x & Hx & _); [lia|].
  exists x. by rewrite (pfx_succ (S lv)).
Qed.

Lemma walk_own k l own t x va lv :
  pt_inv k l own -> own !! t = Some (1%nat, pfx 1 va) -> (lv <= 3)%nat ->
  own !! x = Some (S lv, pfx (S lv) va) ->
  walk lv (km_mem k) x va = Some (entry t (pfx 0 va mod 512)).
Proof.
  intros I Ht. revert x. induction lv as [|lv IH]; intros x Hl Hx; cbn [walk].
  - by rewrite (pi_inj _ _ _ _ _ I _ _ _ Hx Ht).
  - destruct (climb k l own t va lv I Ht) as [y Hy]; [lia|].
    destruct (pi_up _ _ _ _ _ I _ _ _ Hy) as (x' & Hx' & _ & Hp & E); [lia|].
    rewrite <-(pfx_succ (S lv)) in Hx'. rewrite (pi_inj _ _ _ _ _ I _ _ _ Hx' Hx) in *.
    rewrite Hp, E. apply IH; [lia|done].
Qed.

(** Conversely, the table a successful walk ends in is the owned one. *)
Lemma walk_Some k l own x va lv a :
  pt_inv k l own -> user_va va -> (lv <= 3)%nat ->
  own !! x = Some (S lv, pfx (S lv) va) -> walk lv (km_mem k) x va = Some a ->
  exists t, own !! t = Some (1%nat, pfx 1 va) /\ a = entry t (pfx 0 va mod 512).
Proof.
  intros I Hv. revert x. induction lv as [|lv IH]; intros x Hl Hx; cbn [walk].
  - intros [= <-]. by exists x.
  - destruct (present (ent (km_mem k) x (pfx (S lv) va mod 512))) eqn:Hp; [|done].
    apply IH; [lia|]. eapply walk_down; eauto.
Qed.

Lemma root_at k l own va :
  pt_inv k l own -> user_va va -> own !! root = Some (4%nat, pfx 4 va).
Proof. intros I Hv. rewrite pfx_4 by done. by eapply pi_root. Qed.

Lemma entry_nonzero t i : page_ok kend t -> 0 <= i -> entry t i <> 0.
Proof. intros Hp Hi. apply page_ok_nonzero in Hp as ?. destruct Hp as (_ & _ & ?).
  unfold entry, KERNBASE in *. lia. Qed.

(** [walkpgdir] without allocation computes [walk]. *)
Lemma walk_level_noalloc k l own t lv p i :
  pt_inv k l own -> own !! t = Some (S (S lv), p) -> slot_ok (S (S lv)) i ->
  walk_level t i false k =
    Ok (if present (ent (km_mem k) t i) then P2V (PTE_ADDR (ent (km_mem k) t i)) else 0, k) /\
  (present (ent (km_mem k) t i) = true -> P2V (PTE_ADDR (ent (km_mem k) t i)) <> 0).
Proof.
  intros I Ht Hi. unfold walk_level, kload.
  rewrite (bind_Ok _ _ k (ent (km_mem k) t i) k) by done.
  destruct (present (ent (km_mem k) t i)) eqn:Hp; [|done]. split; [done|]. intros _.
  pose proof (pi_down _ _ _ _ _ I _ _ _ _ Ht Hi Hp) as Hd.
  eapply page_ok_nonzero. by eapply pi_page in Hd as (? & _).
Qed.

Lemma walkpgdir_noalloc k l own va :
  pt_inv k l own -> user_va va ->
  walkpgdir root va false k =
    Ok (match walk 3 (km_mem k) root va with Some a => a | None => 0 end, k).
Proof.
  intros I Hv. unfold walkpgdir. rewrite PMX_eq, PDPX_eq, PDX_eq, PTX_eq.
  pose proof (root_at _ _ _ va I Hv) as Hr. cbn [walk].
  destruct (walk_level_noalloc k l own root 2 (pfx 4 va) (pfx 3 va mod 512)) as [E N];
    [done|done|by apply pfx_slot|]. rewrite (bind_Ok _ _ _ _ _ E).
  destruct (present (ent (km_mem k) root (pfx 3 va mod 512))) eqn:P3; [|done].
  specialize (N eq_refl). btest; [done|]. clear E N.
  pose proof (walk_down kend root k l own I 3 root va Hv ltac:(lia) Hr P3) as Hd3.
  set (t3 := P2V (PTE_ADDR (ent (km_mem k) root (pfx 3 va mod 512)))) in *.
  destruct (walk_level_noalloc k l own t3 1 (pfx 3 va) (pfx 2 va mod 512)) as [E N];
    [done|done|by apply pfx_slot; [|lia]|]. rewrite (bind_Ok _ _ _ _ _ E).
  destruct (present (ent (km_mem k) t3 (pfx 2 va mod 512))) eqn:P2; [|done].
  specialize (N eq_refl). btest; [done|]. clear E N.
  pose proof (walk_down kend root k l own I 2 t3 va Hv ltac:(lia) Hd3 P2) as Hd2.
  set (t2 := P2V (PTE_ADDR (ent (km_mem k) t3 (pfx 2 va mod 512)))) in *.
  destruct (walk_level_noalloc k l own t2 0 (pfx 2 va) (pfx 1 va mod 512)) as [E N];
    [done|done|by apply pfx_slot; [|lia]|]. rewrite (bind_Ok _ _ _ _ _ E).
  destruct (present (ent (km_mem k) t2 (pfx 1 va mod 512))) eqn:P1; [|done].
  specialize (N eq_refl). by btest.
Qed.

(** [walkpgdir] with allocation: it fails only when memory is exhausted, and
    never changes the mapping. *)
Lemma walkpgdir_spec k l own va :
  pt_inv k l own -> user_va va ->
  (exists k' own', walkpgdir root va true k = Ok (0, k') /\ grows k l own k' [] own') \/
  (exists t k' l' own', walkpgdir root va true k = Ok (entry t (pfx 0 va mod 512), k') /\
     grows k l own k' l' own' /\ own' !! t = Some (1%nat, pfx 1 va)).
Proof.
  intros I Hv. unfold walkpgdir. rewrite PMX_eq, PDPX_eq, PDX_eq, PTX_eq.
  pose proof (root_at _ _ _ va I Hv) as Hr.
  destruct (walk_level_spec kend root k l own root 2 (pfx 4 va) (pfx 3 va mod 512))
    as [(k1 & E & -> & ->)|(t3 & k1 & l1 & o1 & E & N & G1 & H3 & _)];
    [done|done|by apply pfx_slot| |]; rewrite (bind_Ok _ _ _ _ _ E).
  { left. exists k, own. split; [done|]. by apply grows_refl. }
  btest; [done|]. rewrite <-(pfx_split 3) in H3.
  destruct (walk_level_spec kend root k1 l1 o1 t3 1 (pfx 3 va) (pfx 2 va mod 512))
    as [(k2 & E2 & -> & ->)|(t2 & k2 & l2 & o2 & E2 & N2 & G2 & H2 & _)];
    [apply G1|done|by apply pfx_slot; [|lia]| |]; rewrite (bind_Ok _ _ _ _ _ E2).
  { left. by exists k1, o1. }
  btest; [done|]. rewrite <-(pfx_split 2) in H2.
  destruct (walk_level_spec kend root k2 l2 o2 t2 0 (pfx 2 va) (pfx 1 va mod 512))
    as [(k3 & E3 & -> & ->)|(t1 & k3 & l3 & o3 & E3 & N3 & G3 & H1 & _)];
    [apply G2|done|by apply pfx_slot; [|lia]| |]; rewrite (bind_Ok _ _ _ _ _ E3).
  { left. exists k2, o2. split; [done|]. by eapply grows_trans. }
  btest; [done|]. rewrite <-(pfx_split 1) in H1.
  right. exists t1, k3, l3, o3. split; [done|]. split; [|done].
  eapply grows_trans; [|exact G3]. by eapply grows_trans.
Qed.
End PtWalk.

Section PtLeaf.
Variable kend : Z.
Variable root : Z.
Abbreviation pt_inv := (pt_inv kend root).
Abbreviation grows := (grows kend root).

Lemma pfx0_page va : pfx 0 va = va / 4096.
Proof. done. Qed.

Lemma page_split va : va / 4096 = pfx 1 va * 512 + pfx 0 va mod 512.
Proof. apply (pfx_split 0). Qed.

(** The mapping after changing the entry for the page of [va]. *)
Lemma pteval_set k l own t v m' va va' :
  pt_inv k l own -> own !! t = Some (1%nat, pfx 1 va) ->
  set_entry own t (pfx 0 va mod 512) v (km_mem k) m' -> user_va va' ->
  pteval root m' va' =
  if va' / 4096 =? va / 4096 then v else pteval root (km_mem k) va'.
Proof.
  intros I Ht He Hv. unfold pteval.
  rewrite (pv_set_leaf kend root k l own t (pfx 1 va) (pfx 0 va mod 512) v m' 3 root va').
  - by rewrite <-pfx_split, !pfx0_page.
  - done.
  - done.
  - apply Z.mod_pos_bound; lia.
  - done.
  - done.
  - done.
  - by eapply root_at.
  - intros E. rewrite <-pfx_split in E.
    assert (E1 : pfx 1 va' = pfx 1 va) by (rewrite !(pfx_succ 0); by f_equal).
    rewrite (walk_own kend root k l own t root va' 3); try done.
    + by rewrite E.
    + by rewrite E1.
    + by eapply root_at.
Qed.

(** [mappages] of one page [c]. *)
Lemma mappages_one k l own va c perm :
  pt_inv k l own -> user_va va -> va mod 4096 = 0 ->
  page_ok kend c -> c ∉ l -> own !! c = None -> 0 <= perm < 4096 ->
  present (pteval root (km_mem k) va) = false ->
  (exists k' own', mappages root va PGSIZE (V2P c) perm k = Ok (-1, k') /\
     grows k l own k' [] own') \/
  (exists k1 l' own' t, grows k l own k1 l' own' /\ own' !! t = Some (1%nat, pfx 1 va) /\
     let v := Z.lor (Z.lor (V2P c) perm) PTE_P in
     let k' := set_mem (store64 (km_mem k1) (entry t (pfx 0 va mod 512)) v) k1 in
     mappages root va PGSIZE (V2P c) perm k = Ok (0, k') /\
     pt_inv k' l' (<[c := (O, va / 4096)]> own') /\
     forall va', user_va va' -> pteval root (km_mem k') va' =
       if va' / 4096 =? va / 4096 then v else pteval root (km_mem k) va').
Proof.
  intros I Hv Ha Hc Hcl Hco Hperm Hnp. unfold mappages.
  assert (Hd : PGROUNDDOWN va = va) by (rewrite PGROUNDDOWN_eq; lia).
  assert (Hl : PGROUNDDOWN (u64 (va + PGSIZE - 1)) = va).
  { unfold user_va, PGSIZE in *. rewrite u64_small by lia.
    rewrite PGROUNDDOWN_eq. Z.to_euclidean_division_equations. lia. }
  rewrite Hd, Hl, Z.sub_diag. change (Z.to_nat (0 / PGSIZE + 1)) with 1%nat.
  cbn [mappages_loop].
  destruct (walkpgdir_spec kend root k l own va I Hv)
    as [(k1 & o1 & E & G)|(t & k1 & l1 & o1 & E & G & Ht)]; rewrite (bind_Ok _ _ _ _ _ E).
  { left. exists k1, o1. done. }
  pose proof G as (I1 & S1 & [L1 C1] & N1 & P1 & M1 & K1).
  destruct (pi_page _ _ _ _ _ I1 _ _ _ Ht) as (Htp & _).
  assert (B : 0 <= pfx 0 va mod 512 < 512) by (apply Z.mod_pos_bound; lia).
  btest; [by apply (entry_nonzero kend) in e; [|done|lia]|].
  unfold kload. rewrite (bind_Ok _ _ k1 (ent (km_mem k1) t (pfx 0 va mod 512)) k1) by done.
  assert (Hpt : ent (km_mem k1) t (pfx 0 va mod 512) = pteval root (km_mem k) va).
  { rewrite <-P1 by done. unfold pteval, pv.
    rewrite (walk_own kend root k1 l1 o1 t root va 3); try done. by eapply root_at. }
  rewrite Hpt, Hnp. unfold kstore. rewrite (bind_Ok _ _ _ tt _ (eq_refl _)).
  rewrite Z.eqb_refl. right. exists k1, l1, o1, t.
  split; [exact G|]. split; [done|]. cbv zeta. split; [done|].
  destruct (leaf_pte kend c perm Hc Hperm) as (f & Hf & Hodd & _ & ->).
  assert (Hu : u64 (V2P c + f) = V2P c + f) by (by eapply V2P_add_bound).
  assert (Ho1 : o1 !! c = None).
  { destruct (o1 !! c) eqn:Ec; [|done]. destruct (N1 c) as [? _]; congruence || done. }
  split.
  - rewrite page_split.
    eapply pt_inv_link; try done.
    + by rewrite Hpt.
    + destruct L1 as [? ->]. intros ?. apply Hcl, elem_of_app. by right.
    + by erewrite V2P_add_odd.
    + by eapply pte_target.
  - intros va' Hv'. simpl. rewrite <-Hu at 2.
    rewrite (pteval_set k1 l1 o1 t (u64 (V2P c + f)) _ va va'); try done.
    + by rewrite P1.
    + by eapply set_entry_store.
Qed.
End PtLeaf.

Section PtShrink.
Variable kend : Z.
Variable root : Z.
Hypothesis Hend : KERNBASE < kend.
Abbreviation pt_inv := (pt_inv kend root).

Lemma pt_inv_unlink k l own t p i c k' :
  pt_inv k l own -> own !! t = Some (1%nat, p) -> 0 <= i < 512 ->
  own !! c = Some (O, p * 512 + i) -> kalloc_inv kend k' (c :: l) ->
  set_entry own t i 0 (km_mem k) (km_mem k') ->
  pt_inv k' (c :: l) (delete c own).
Proof.
  intros I Ht Hi Hc Ik He. split; [done|..].
  - rewrite lookup_delete_ne; [by apply I|]. intros ->.
    rewrite (pi_root _ _ _ _ _ I) in Hc. congruence.
  - intros t' lv p' [N Ht']%lookup_delete_Some.
    destruct (pi_page _ _ _ _ _ I _ _ _ Ht') as (? & ? & ?). set_solver.
  - intros t1 t2 x [_ H1]%lookup_delete_Some [_ H2]%lookup_delete_Some. by eapply pi_inj.
  - intros t' lv p' j [N Ht']%lookup_delete_Some Hj. rewrite (He _ _ _ _ Ht') by apply Hj.
    case_decide as D; [done|]. intros Hp.
    pose proof (pi_down _ _ _ _ _ I _ _ _ _ Ht' Hj Hp) as Hd.
    rewrite lookup_delete_ne; [done|]. intros E. rewrite <-E, Hc in Hd.
    injection Hd as <- Ep. destruct Hj as [Hj _].
    assert (p' = p /\ j = i) as [-> ->] by lia. apply D.
    by rewrite (pi_inj _ _ _ _ _ I _ _ _ Ht' Ht).
  - intros x lv p' [N Hx]%lookup_delete_Some Hl.
    destruct (pi_up _ _ _ _ _ I _ _ _ Hx Hl) as (t1 & H1 & Hs & Hp & E).
    exists t1. rewrite lookup_delete_ne by congruence.
    rewrite (He _ _ _ _ H1) by apply Hs. rewrite decide_False; [done|].
    intros [= -> Ei]. rewrite Ei in *.
    assert (P2V (PTE_ADDR (ent (km_mem k) t i)) = c); [|congruence].
    eapply (pi_inj _ _ _ _ _ I); [|exact Hc].
    eapply (pi_down _ _ _ _ _ I); [done| |done]. split; [done|lia].
  - intros t' p' [_ Ht']%lookup_delete_Some. by eapply pi_top.
Qed.

(** Unmapping the page of [va]: the body of [deallocuvm]'s loop. *)
Lemma unmap_one k l own va t :
  pt_inv k l own -> user_va va -> own !! t = Some (1%nat, pfx 1 va) ->
  present (ent (km_mem k) t (pfx 0 va mod 512)) = true ->
  let e := ent (km_mem k) t (pfx 0 va mod 512) in
  let c := P2V (PTE_ADDR e) in
  PTE_ADDR e <> 0 /\ own !! c = Some (O, va / 4096) /\
  exists k1, kfree kend c k = Ok (tt, k1) /\
    let k2 := set_mem (store64 (km_mem k1) (entry t (pfx 0 va mod 512)) 0) k1 in
    pt_inv k2 (c :: l) (delete c own) /\
    (forall va', user_va va' -> pteval root (km_mem k2) va' =
       if va' / 4096 =? va / 4096 then 0 else pteval root (km_mem k) va') /\
    (forall d x, page_ok kend d -> d <> c -> d <> t ->
       d <= x < d + PGSIZE -> rd (km_mem k2) x = rd (km_mem k) x) /\
    keeps (pages_of l own) (km_mem k) (km_mem k2).
Proof.
  intros I Hv Ht Hp e c.
  assert (B : 0 <= pfx 0 va mod 512 < 512) by (apply Z.mod_pos_bound; lia).
  assert (Hc : own !! c = Some (O, va / 4096)).
  { rewrite page_split.
    apply (pi_down _ _ _ _ _ I); [done| |done]. split; [done|lia]. }
  destruct (pi_page _ _ _ _ _ I _ _ _ Hc) as (Hcp & Hcl & _).
  destruct (pi_page _ _ _ _ _ I _ _ _ Ht) as (Htp & Htl & _).
  split.
  { intros E. destruct Hcp as (_ & Hk & _). unfold c in Hk. rewrite E in Hk.
    unfold P2V in Hk. rewrite u64_small in Hk; unfold KERNBASE in *; lia. }
  split; [done|].
  destruct (kfree_spec kend c k l ltac:(lia) (pi_kalloc _ _ _ _ _ I) Hcp Hcl)
    as (k1 & E1 & Ik1 & M1 & _). exists k1. split; [done|]. cbv zeta.
  assert (Nct : c <> t) by congruence.
  assert (Hw : writes_in c (km_mem k) (km_mem k1)) by exact M1.
  assert (He : set_entry own t (pfx 0 va mod 512) 0 (km_mem k)
    (store64 (km_mem k1) (entry t (pfx 0 va mod 512)) 0)).
  { intros t' lv' p' j Ht' Hj.
    assert (Htp' : page_ok kend t') by (by eapply pi_page in Ht' as (? & _)).
    case_decide as D.
    - injection D as -> ->. by rewrite ent_store_eq.
    - rewrite (ent_store_ne kend) by done. apply ent_ext; [done|]. intros x Hx.
      apply (writes_in_other kend c _ _ t'); try done. congruence. }
  assert (Ik2 : kalloc_inv kend (set_mem (store64 (km_mem k1)
    (entry t (pfx 0 va mod 512)) 0) k1) (c :: l)).
  { eapply writes_in_kalloc; [exact Ik1|done|exact Htp|set_solver|].
    by apply writes_in_store. }
  split; [|split; [|split]].
  4:{ simpl. eapply keeps_trans; [apply (keeps_writes _ c); [by eapply in_pages_own|exact Hw]|].
      apply (keeps_writes _ t); [by eapply in_pages_own|by apply writes_in_store]. }
  - eapply pt_inv_unlink; try done. simpl.
    by rewrite <-page_split.
  - intros va' Hv'. simpl. by eapply pteval_set.
  - intros d x Hd N1 N2 Hx. simpl.
    rewrite (writes_in_other kend t (km_mem k1) _ d); try done;
      [|by apply writes_in_store].
    by apply (writes_in_other kend c _ _ d).
Qed.

(** Is the page of [va] one of the pages from [a] up to [b]? *)
Definition page_in (a b va : Z) : Prop := a <= va / 4096 * 4096 < b.

#[export] Instance page_in_dec a b va : Decision (page_in a b va).
Proof. unfold page_in. apply _. Defined.

Record shrunk (a b : Z) (k : kmem) (l : list Z) (own : gmap Z (nat * Z))
    (k' : kmem) (l' : list Z) (own' : gmap Z (nat * Z)) : Prop := {
  sh_inv : pt_inv k' l' own';
  sh_own : own' ⊆ own;
  sh_pages : pages_of l' own' = pages_of l own;
  sh_in : forall va, user_va va -> page_in a b va ->
    present (pteval root (km_mem k') va) = false;
  sh_out : forall va, user_va va -> ~ page_in a b va ->
    pteval root (km_mem k') va = pteval root (km_mem k) va;
  sh_data : forall d p x, own' !! d = Some (O, p) -> d <= x < d + PGSIZE ->
    rd (km_mem k') x = rd (km_mem k) x;
  sh_keeps : keeps (pages_of l own) (km_mem k) (km_mem k');
}.

Lemma page_in_step a b va :
  a mod 4096 = 0 -> a < b ->
  page_in a b va <-> va / 4096 = a / 4096 \/ page_in (a + 4096) b va.
Proof. unfold page_in. intros. Z.to_euclidean_division_equations. lia. Qed.

Lemma shrunk_step a b k l own k1 l1 o1 k2 l2 o2 :
  a mod 4096 = 0 -> a < b ->
  pages_of l1 o1 = pages_of l own -> o1 ⊆ own ->
  (forall va, user_va va -> va / 4096 <> a / 4096 ->
     pteval root (km_mem k1) va = pteval root (km_mem k) va) ->
  (forall va, user_va va -> va / 4096 = a / 4096 ->
     present (pteval root (km_mem k1) va) = false) ->
  (forall d p x, o1 !! d = Some (O, p) -> d <= x < d + PGSIZE ->
     rd (km_mem k1) x = rd (km_mem k) x) ->
  keeps (pages_of l own) (km_mem k) (km_mem k1) ->
  shrunk (a + 4096) b k1 l1 o1 k2 l2 o2 -> shrunk a b k l own k2 l2 o2.
Proof.
  intros Ha Hab Hp Ho Hout Hin Hd Hk [I2 S2 P2 In2 Out2 D2 K2]. split; try done.
  - by etrans.
  - congruence.
  - intros va Hv Hi. destruct (decide (page_in (a + 4096) b va)) as [|N]; [by apply In2|].
    rewrite Out2 by done. apply Hin; [done|].
    apply page_in_step in Hi; [|done..]. tauto.
  - intros va Hv Hi. rewrite Out2, Hout; try done.
    + intros E. apply Hi, page_in_step; auto.
    + intros E. apply Hi, page_in_step; auto.
  - intros d p x Hx Hr. rewrite (D2 d p x Hx Hr). eapply Hd; [|done].
    by eapply lookup_weaken.
  - rewrite Hp in K2. by eapply keeps_trans.
Qed.

Lemma deallocuvm_loop_spec fuel a b k l own :
  pt_inv k l own -> a mod 4096 = 0 -> 0 <= a -> b <= 140737488355328 ->
  b <= a + Z.of_nat fuel * 4096 ->
  exists k' l' own', deallocuvm_loop kend fuel root a b k = Ok (tt, k') /\
    shrunk a b k l own k' l' own'.
Proof.
  revert a k l own. induction fuel as [|fuel IH]; intros a k l own I Ha Ha0 Hb Hf;
    cbn [deallocuvm_loop]; destruct (Z.ltb_spec a b) as [Hab|Hab].
  1: lia.
  1, 3: exists k, l, own; split; [done|]; split; try done;
    intros va Hv Hi; unfold page_in in Hi; lia.
  assert (Hv : user_va a) by (unfold user_va; lia).
  rewrite (u64_small (a + PGSIZE)) by (unfold PGSIZE; lia). unfold PGSIZE.
  rewrite (bind_Ok _ _ _ _ _ (walkpgdir_noalloc kend root k l own a I Hv)).
  destruct (walk 3 (km_mem k) root a) as [pte|] eqn:W.
  2: { simpl. rewrite (bind_Ok _ _ k tt k) by done.
    destruct (IH (a + 4096) k l own) as (k' & l' & o' & E & Sh); try done;
      try (Z.to_euclidean_division_equations; lia).
    exists k', l', o'. split; [done|]. eapply (shrunk_step a b k l own k l own); try done.
    intros va Hva Ev. unfold pteval, pv.
    destruct (walk 3 (km_mem k) root va) eqn:W'; [|done].
    eapply walk_Some in W' as (t & Ht & _); [|done|done|lia|by eapply root_at].
    assert (E1 : pfx 1 va = pfx 1 a) by (rewrite !(pfx_succ 0), !pfx0_page; by f_equal).
    rewrite E1 in Ht. rewrite (walk_own kend root k l own t) in W; try done. by eapply root_at. }
  pose proof W as W'. eapply walk_Some in W' as (t & Ht & ->);
    [|done|done|lia|by eapply root_at].
  destruct (pi_page _ _ _ _ _ I _ _ _ Ht) as (Htp & _).
  assert (B : 0 <= pfx 0 a mod 512 < 512) by (apply Z.mod_pos_bound; lia).
  destruct (Z.eqb_spec (entry t (pfx 0 a mod 512)) 0) as [E0|_];
    [by apply (entry_nonzero kend) in E0; [|done|lia]|].
  assert (Hpt : pteval root (km_mem k) a = ent (km_mem k) t (pfx 0 a mod 512))
    by (unfold pteval, pv; by rewrite W).
  assert (Hsame : forall va, user_va va -> va / 4096 = a / 4096 ->
    pteval root (km_mem k) va = pteval root (km_mem k) a).
  { intros va Hva Ev. unfold pteval, pv. rewrite W.
    assert (E1 : pfx 1 va = pfx 1 a) by (rewrite !(pfx_succ 0), !pfx0_page; by f_equal).
    rewrite (walk_own kend root k l own t root va 3); try done.
    - by rewrite !pfx0_page, Ev.
    - by rewrite E1.
    - by eapply root_at. }
  destruct (present (ent (km_mem k) t (pfx 0 a mod 512))) eqn:Hp.
  - destruct (unmap_one k l own a t I Hv Ht Hp) as (N0 & Hc & k1 & E1 & I2 & P2 & D2 & K2).
    set (c := P2V (PTE_ADDR (ent (km_mem k) t (pfx 0 a mod 512)))) in *.
    set (k2 := set_mem _ k1) in *.
    rewrite (bind_Ok _ _ k tt k2).
    2: { unfold kload. rewrite (bind_Ok _ _ k _ k (eq_refl _)). fold (ent (km_mem k) t (pfx 0 a mod 512)).
      rewrite Hp. destruct (Z.eqb_spec (PTE_ADDR (ent (km_mem k) t (pfx 0 a mod 512))) 0); [done|].
      fold c. by rewrite (bind_Ok _ _ _ _ _ E1). }
    destruct (IH (a + 4096) k2 (c :: l) (delete c own)) as (k' & l' & o' & E & Sh); try done;
      try (Z.to_euclidean_division_equations; lia).
    exists k', l', o'. split; [done|].
    eapply (shrunk_step a b k l own k2 (c :: l) (delete c own)); try done.
    + unfold pages_of. rewrite dom_delete_L. simpl.
      assert (c ∈ dom own) by (apply elem_of_dom; eauto).
      apply set_eq. intros x. destruct (decide (x = c)); set_solver.
    + apply delete_subseteq.
    + intros va Hva Nv. rewrite P2 by done. by destruct (Z.eqb_spec (va / 4096) (a / 4096)).
    + intros va Hva Ev. rewrite P2 by done. by destruct (Z.eqb_spec (va / 4096) (a / 4096)).
    + intros d p x [Nd Hd]%lookup_delete_Some Hx. apply (D2 d x); try done.
      * by eapply pi_page in Hd as (? & _).
      * congruence.
  - rewrite (bind_Ok _ _ k tt k).
    2: { unfold kload. rewrite (bind_Ok _ _ k _ k (eq_refl _)).
      fold (ent (km_mem k) t (pfx 0 a mod 512)). by rewrite Hp. }
    destruct (IH (a + 4096) k l own) as (k' & l' & o' & E & Sh); try done;
      try (Z.to_euclidean_division_equations; lia).
    exists k', l', o'. split; [done|].
    eapply (shrunk_step a b k l own k l own); try done.
    intros va Hva Ev. by rewrite Hsame, Hpt.
Qed.
End PtShrink.
