(* ===== verification/Bootmain.v ===== *)
(** * The boot loader: bootmain.c

    The code that the boot sector runs in 32-bit protected mode, where [uint64], an [unsigned long], has 32 bits.  It
    reads the kernel from the disk through the ports of the controller, in LBA28 mode, into
    physical memory.  The disk is a parameter, 512 bytes for each sector. *)
From S2P Require Import Prelude Memory Bytes.

Definition SECTSIZE : Z := 512.

(** Memory; how often the status still reads busy; the registers of the controller; and the sector whose data is
    there to be read. *)
Record bootst : Type := Boot {
  b_mem : mem;
  b_busy : nat;
  b_regs : Z -> Z;
  b_data : option Z;
}.

Section Boot.
Variable disk : Z -> list Z.
Variable delay : Z -> nat.   (* of a command *)

(** ** The controller *)

Definition lba (r : Z -> Z) : Z := r 499 + 256 * r 500 + 65536 * r 501 + 16777216 * (r 502 mod 16).
Definition outb (port v : Z) : M bootst unit :=
  let v := u8 v in
  modify (fun s =>
    if port =? 503 then
      if (v =? 32) && (b_regs s 498 =? 1) && (b_regs s 502 / 16 =? 14) then
        Boot (b_mem s) (delay (lba (b_regs s))) (b_regs s) (Some (lba (b_regs s)))
      else s
    else Boot (b_mem s) (b_busy s) (<[port := v]> (b_regs s)) (b_data s)).
Definition in_status : M bootst Z :=
  let! s := get in
  match b_busy s with
  | O => ret 64
  | S n => do! put (Boot (b_mem s) n (b_regs s) (b_data s)) in ret 128
  end.
(** [insl] of a sector; without data it would read nonsense. *)
Definition insl (dst : Z) : M bootst unit :=
  let! s := get in
  match b_busy s, b_data s with
  | O, Some n => put (Boot (wr_bytes (b_mem s) dst (disk n)) 0 (b_regs s) None)
  | _, _ => panic "insl"
  end.

(** ** bootmain.c *)

Fixpoint waitdisk (fuel : nat) : M bootst unit :=
  match fuel with
  | O => out_of_fuel
  | S fuel => let! st := in_status in if negb (Z.land st 192 =? 64) then waitdisk fuel else ret tt
  end.

Definition readsect (fuel : nat) (dst offset : Z) : M bootst unit :=
  do! waitdisk fuel in
  do! outb 498 1 in
  do! outb 499 offset in
  do! outb 500 (Z.shiftr offset 8) in
  do! outb 501 (Z.shiftr offset 16) in
  do! outb 502 (Z.lor (Z.shiftr offset 24) 224) in
  do! outb 503 32 in
  do! waitdisk fuel in
  insl dst.

Fixpoint readseg_loop (fuel turns : nat) (pa epa offset : Z) : M bootst unit :=
  match turns with
  | O => out_of_fuel
  | S turns =>
      if pa <? epa then
        do! readsect fuel pa offset in
        readseg_loop fuel turns (u32 (pa + SECTSIZE)) epa (u32 (offset + 1))
      else ret tt
  end.
Definition readseg (fuel : nat) (pa count offset : Z) : M bootst unit :=
  let epa := u32 (pa + count) in
  let pa := u32 (pa - offset mod SECTSIZE) in
  let offset := offset / SECTSIZE + 1 in
  readseg_loop fuel fuel pa epa offset.

Definition scratch : Z := 65536.
Definition MAGIC : Z := 464367618.   (* 0x1BADB002 *)

(** The loop over [n], with [k] words left; [Some n] is the jump to [found_it]. *)
Fixpoint find_header (k : nat) (n : Z) (m : mem) : option Z :=
  match k with
  | O => None
  | S k =>
      let x i := load32 m (scratch + 4 * i) in
      if (x n =? MAGIC) && (u32 (x n + x (n + 1) + x (n + 2)) =? 0) then Some n
      else find_header k (n + 1) m
  end.

(** The fields of [struct mbheader]. *)
Definition hdr_flags (m : mem) (h : Z) : Z := load32 m (h + 4).
Definition hdr_header_addr (m : mem) (h : Z) : Z := load32 m (h + 12).
Definition hdr_load_addr (m : mem) (h : Z) : Z := load32 m (h + 16).
Definition hdr_load_end_addr (m : mem) (h : Z) : Z := load32 m (h + 20).
Definition hdr_bss_end_addr (m : mem) (h : Z) : Z := load32 m (h + 24).
Definition hdr_entry_addr (m : mem) (h : Z) : Z := load32 m (h + 28).

Definition stosb (addr data cnt : Z) : M bootst unit :=
  modify (fun s => Boot (wr_bytes (b_mem s) addr (replicate (Z.to_nat cnt) data)) (b_busy s) (b_regs s) (b_data s)).

(** [Some entry] is the call of the kernel, [None] a return to the boot sector. *)
Definition bootmain (fuel : nat) : M bootst (option Z) :=
  do! readseg fuel scratch 8192 0 in
  let! m := gets b_mem in
  match find_header 2048 0 m with
  | None => ret None
  | Some n =>
      let hdr := scratch + 4 * n in
      if Z.land (hdr_flags m hdr) 65536 =? 0 then ret None else
      if hdr_header_addr m hdr <? hdr_load_addr m hdr then ret None else
      if hdr_load_end_addr m hdr <? hdr_load_addr m hdr then ret None else
      do! readseg fuel (hdr_load_addr m hdr) (u32 (hdr_load_end_addr m hdr - hdr_load_addr m hdr))
            (u32 (n * 4 - (hdr_header_addr m hdr - hdr_load_addr m hdr))) in
      let! m := gets b_mem in
      do! (if hdr_load_end_addr m hdr <? hdr_bss_end_addr m hdr then
             stosb (hdr_load_end_addr m hdr) 0 (u32 (hdr_bss_end_addr m hdr - hdr_load_end_addr m hdr))
           else ret tt) in
      let! m := gets b_mem in
      ret (Some (hdr_entry_addr m hdr))
  end.
End Boot.

(** ** Proofs *)

Section BootProofs.
Variable disk : Z -> list Z.
Variable delay : Z -> nat.
Variable fuel : nat.
Hypothesis Hdisk : forall n, length (disk n) = 512%nat.
Hypothesis Hdelay : forall n, (delay n < fuel)%nat.

(** The bytes of the disk from sector 1 on. *)
Definition kbyte (i : Z) : Z := u8 (default 0 (disk (1 + i / 512) !! Z.to_nat (i mod 512))).

(** Memory after a sequence of bytes of the disk has been read to [pa]. *)
Definition loaded_at (pa n off : Z) (m m' : mem) : Prop :=
  forall a, rd m' a = if in_range pa n a then kbyte (off + (a - pa)) else rd m a.

Lemma waitdisk_run f : forall s, (b_busy s < f)%nat -> waitdisk f s = Ok (tt, Boot (b_mem s) 0 (b_regs s) (b_data s)).
Proof.
  induction f as [|f IH]; intros [m b r d] Hb; [simpl in Hb; lia|]. simpl in *. unfold bind, in_status, bind, get, put, ret. simpl.
  destruct b as [|b]; simpl; [done|]. rewrite IH; simpl; [done|lia].
Qed.

(** The four bytes of a sector number. *)
Lemma lba_bytes n : 0 <= n < 2 ^ 28 ->
  u8 n + 256 * u8 (Z.shiftr n 8) + 65536 * u8 (Z.shiftr n 16) + 16777216 * (u8 (Z.lor (Z.shiftr n 24) 224) mod 16) = n /\
  u8 (Z.lor (Z.shiftr n 24) 224) / 16 = 14.
Proof.
  intros Hn. assert (H24 : 0 <= Z.shiftr n 24 < 16).
  { rewrite Z.shiftr_div_pow2 by lia. split; [apply Z.div_pos; lia|apply Z.div_lt_upper_bound; lia]. }
  assert (Hor : forall x, 0 <= x < 16 -> u8 (Z.lor x 224) = 224 + x).
  { intros x Hx. assert (H : x = 0 \/ x = 1 \/ x = 2 \/ x = 3 \/ x = 4 \/ x = 5 \/ x = 6 \/ x = 7 \/ x = 8 \/ x = 9 \/ x = 10 \/
      x = 11 \/ x = 12 \/ x = 13 \/ x = 14 \/ x = 15) by lia. by destruct_or! H; subst x. }
  rewrite Hor by done. rewrite !Z.shiftr_div_pow2 in * by lia. unfold u8. Z.to_euclidean_division_equations. lia.
Qed.

Lemma boot_outb_reg p v m b r d : (p =? 503) = false -> outb delay p v (Boot m b r d) = Ok (tt, Boot m b (<[p := u8 v]> r) d).
Proof. intros Hp. unfold outb, modify. by rewrite Hp. Qed.
Lemma boot_outb_read m b r d : (r 498 =? 1) && (r 502 / 16 =? 14) = true ->
  outb delay 503 32 (Boot m b r d) = Ok (tt, Boot m (delay (lba r)) r (Some (lba r))).
Proof. intros Hr. unfold outb, modify. change (503 =? 503) with true. change (u8 32 =? 32) with true. cbn [andb b_mem b_busy b_regs b_data]. by rewrite Hr. Qed.

Lemma readsect_spec dst n s : 0 <= n < 2 ^ 28 -> (b_busy s < fuel)%nat ->
  exists s', readsect disk delay fuel dst n s = Ok (tt, s') /\ b_mem s' = wr_bytes (b_mem s) dst (disk n) /\ b_busy s' = 0%nat.
Proof.
  intros Hn Hb. destruct (lba_bytes n Hn) as [H1 H2]. unfold readsect.
  rewrite (bind_Ok _ _ _ _ _ (waitdisk_run fuel s Hb)).
  rewrite (bind_Ok _ _ _ _ _ (boot_outb_reg 498 _ _ _ _ _ eq_refl)), (bind_Ok _ _ _ _ _ (boot_outb_reg 499 _ _ _ _ _ eq_refl)),
    (bind_Ok _ _ _ _ _ (boot_outb_reg 500 _ _ _ _ _ eq_refl)), (bind_Ok _ _ _ _ _ (boot_outb_reg 501 _ _ _ _ _ eq_refl)), (bind_Ok _ _ _ _ _ (boot_outb_reg 502 _ _ _ _ _ eq_refl)).
  match goal with |- context [Boot (b_mem s) 0 ?r (b_data s)] => set (regs := r) end.
  assert (Hg : regs 498 = 1 /\ regs 499 = u8 n /\ regs 500 = u8 (Z.shiftr n 8) /\ regs 501 = u8 (Z.shiftr n 16) /\ regs 502 = u8 (Z.lor (Z.shiftr n 24) 224)).
  { subst regs. repeat first [rewrite fn_lookup_insert | rewrite fn_lookup_insert_ne by done]. done. }
  clearbody regs. destruct Hg as (G2 & G3 & G4 & G5 & G6).
  assert (Hl : lba regs = n) by (unfold lba; rewrite G3, G4, G5, G6; exact H1).
  rewrite (bind_Ok _ _ _ _ _ (boot_outb_read (b_mem s) 0 regs (b_data s) ltac:(by rewrite G2, G6, H2))).
  rewrite (bind_Ok _ _ _ _ _ (waitdisk_run fuel (Boot (b_mem s) (delay (lba regs)) regs (Some (lba regs))) (Hdelay (lba regs)))).
  unfold insl. cbn [b_mem b_busy b_regs b_data]. rewrite Hl. eexists. split; [reflexivity|done].
Qed.

Lemma readseg_loop_spec epa : forall t pa n s turns,
  0 <= pa -> pa + 512 * Z.of_nat t < 2 ^ 32 -> epa <= pa + 512 * Z.of_nat t -> (t <> 0%nat -> pa + 512 * (Z.of_nat t - 1) < epa) ->
  1 <= n -> n + Z.of_nat t < 2 ^ 28 -> (t < turns)%nat -> (b_busy s < fuel)%nat ->
  exists s', readseg_loop disk delay fuel turns pa epa n s = Ok (tt, s') /\ (b_busy s' < fuel)%nat /\
    loaded_at pa (512 * Z.of_nat t) (512 * (n - 1)) (b_mem s) (b_mem s').
Proof.
  induction t as [|t IH]; intros pa n s turns Hpa Hend He Ht Hn Hn2 Htu Hb; (destruct turns as [|turns]; [lia|]); cbn [readseg_loop].
  - destruct (Z.ltb_spec pa epa); [lia|]. exists s. split; [done|]. split; [done|]. intros a. destruct (in_range_spec pa (512 * Z.of_nat 0) a); [lia|done].
  - destruct (Z.ltb_spec pa epa); [|lia]. destruct (readsect_spec pa n s ltac:(lia) Hb) as (s1 & R1 & M1 & B1).
    unfold u32, SECTSIZE. rewrite !Z.mod_small by lia.
    destruct (IH (pa + 512) (n + 1) s1 turns) as (s2 & R2 & B2 & L2); [lia..|].
    exists s2. unfold bind. rewrite R1. split; [done|]. split; [done|]. intros a. rewrite L2, M1, rd_wr_bytes, Hdisk.
    destruct (in_range_spec (pa + 512) (512 * Z.of_nat t) a), (in_range_spec pa (512 * Z.of_nat (S t)) a); try lia.
    + f_equal. lia.
    + destruct (in_range_spec pa (Z.of_nat 512) a); [|lia]. unfold kbyte.
      replace ((512 * (n - 1) + (a - pa)) / 512) with (n - 1) by (apply Z.div_unique with (a - pa); lia).
      replace ((512 * (n - 1) + (a - pa)) mod 512) with (a - pa) by (apply Z.mod_unique with (n - 1); lia).
      by replace (1 + (n - 1)) with n by lia.
    + destruct (in_range_spec pa (Z.of_nat 512) a); [lia|done].
Qed.

(** [readseg] reads what it is asked, and at most a sector more on either side. *)
Lemma readseg_spec pa count off s :
  512 <= pa -> 0 <= count -> pa + count + 512 < 2 ^ 32 -> 0 <= off -> off + count + 512 < 2 ^ 36 ->
  (Z.to_nat (count / 512 + 3) < fuel)%nat -> (b_busy s < fuel)%nat ->
  exists s', readseg disk delay fuel pa count off s = Ok (tt, s') /\ (b_busy s' < fuel)%nat /\
    (forall a, pa <= a < pa + count -> rd (b_mem s') a = kbyte (off + (a - pa))) /\
    (forall a, a <= pa - 512 \/ pa + count + 512 <= a -> rd (b_mem s') a = rd (b_mem s) a).
Proof.
  intros Hpa Hc Hend Ho Ho2 Hf Hb. unfold readseg, SECTSIZE, u32. set (r := off mod 512).
  assert (Hr : 0 <= r < 512) by (apply Z.mod_pos_bound; lia).
  rewrite (Z.mod_small (pa + count)), (Z.mod_small (pa - r)) by lia.
  assert (Hod : off = 512 * (off / 512) + r) by (apply Z.div_mod; lia).
  set (t := Z.to_nat ((count + r + 511) / 512)).
  assert (Ht : count + r <= 512 * Z.of_nat t < count + r + 512) by (unfold t; Z.to_euclidean_division_equations; lia).
  destruct (readseg_loop_spec (pa + count) t (pa - r) (off / 512 + 1) s fuel) as (s' & R & B & L); try done; try lia.
  { assert (Z.of_nat t <= count / 512 + 2); [|lia]. Z.to_euclidean_division_equations. lia. }
  exists s'. split; [done|]. split; [done|]. split; intros a Ha; rewrite (L a).
  - destruct (in_range_spec (pa - r) (512 * Z.of_nat t) a); [|lia]. f_equal. lia.
  - by destruct (in_range_spec (pa - r) (512 * Z.of_nat t) a); [lia|].
Qed.

(** ** The kernel on the disk *)

Definition kword (i : Z) : Z :=
  kbyte (4 * i) + 256 * (kbyte (4 * i + 1) + 256 * (kbyte (4 * i + 2) + 256 * (kbyte (4 * i + 3) + 256 * 0))).
Definition is_header (i : Z) : bool := (kword i =? MAGIC) && (u32 (kword i + kword (i + 1) + kword (i + 2)) =? 0).

(** A kernel with its multiboot header at word [n], the first one that looks like a header, with the addresses of
    the header such that the kernel lies above the scratch space of the loader. *)
Record kernel_image (n : Z) : Prop := {
  ki_n : 0 <= n <= 2040;
  ki_header : is_header n = true;
  ki_first : forall i, 0 <= i < n -> is_header i = false;
  ki_flags : (Z.land (kword (n + 1)) 65536 =? 0) = false;
  ki_load : kword (n + 4) <= kword (n + 3) <= kword (n + 4) + 4 * n;
  ki_end : kword (n + 4) <= kword (n + 5) /\ kword (n + 5) + 512 < 2 ^ 32;
  ki_above : 73728 + 512 <= kword (n + 4);
  ki_fuel : (Z.to_nat ((kword (n + 5) - kword (n + 4)) / 512 + 3) < fuel)%nat;
}.

Lemma kword_bound i : 0 <= kword i < 2 ^ 32.
Proof.
  assert (H : forall j, 0 <= kbyte j < 256) by (intros j; apply Z.mod_pos_bound; lia).
  unfold kword. pose proof (H (4 * i)). pose proof (H (4 * i + 1)). pose proof (H (4 * i + 2)). pose proof (H (4 * i + 3)). lia.
Qed.

(** The scratch space holds the first words of the kernel. *)
Definition scratched (m : mem) : Prop := forall a, scratch <= a < scratch + 8192 -> rd m a = kbyte (a - scratch).
Lemma scratch_word m i : scratched m -> 0 <= i < 2048 -> load32 m (scratch + 4 * i) = kword i.
Proof.
  intros Hm Hi. unfold load32, kword. cbn [load]. unfold scratched, scratch in *. rewrite !Hm by lia.
  do 4 (apply f_equal2; [apply f_equal; lia|]; apply f_equal). done.
Qed.
Lemma find_header_spec m n : scratched m -> kernel_image n -> forall k i, 0 <= i <= n -> (Z.to_nat (n - i) < k)%nat ->
  find_header k i m = Some n.
Proof.
  intros Hm Hk. induction k as [|k IH]; intros i Hi Hik; [lia|]. cbn [find_header]. pose proof (ki_n n Hk).
  rewrite !(scratch_word m) by (done || lia). destruct (decide (i = n)) as [->|Hne].
  - pose proof (ki_header n Hk) as Hh. unfold is_header in Hh. by rewrite Hh.
  - pose proof (ki_first n Hk i ltac:(lia)) as Hh. unfold is_header in Hh. rewrite Hh. apply IH; lia.
Qed.

Lemma header_fields m n : scratched m -> kernel_image n -> let h := scratch + 4 * n in
  hdr_flags m h = kword (n + 1) /\ hdr_header_addr m h = kword (n + 3) /\ hdr_load_addr m h = kword (n + 4) /\
  hdr_load_end_addr m h = kword (n + 5) /\ hdr_bss_end_addr m h = kword (n + 6) /\ hdr_entry_addr m h = kword (n + 7).
Proof.
  intros Hm Hk h. pose proof (ki_n n Hk).
  unfold hdr_flags, hdr_header_addr, hdr_load_addr, hdr_load_end_addr, hdr_bss_end_addr, hdr_entry_addr, h.
  replace (scratch + 4 * n + 4) with (scratch + 4 * (n + 1)) by lia. replace (scratch + 4 * n + 12) with (scratch + 4 * (n + 3)) by lia.
  replace (scratch + 4 * n + 16) with (scratch + 4 * (n + 4)) by lia. replace (scratch + 4 * n + 20) with (scratch + 4 * (n + 5)) by lia.
  replace (scratch + 4 * n + 24) with (scratch + 4 * (n + 6)) by lia. replace (scratch + 4 * n + 28) with (scratch + 4 * (n + 7)) by lia.
  by rewrite !(scratch_word m) by (done || lia).
Qed.

(** Zeroing the uninitialised data. *)
Definition zeroed (from to : Z) (m m' : mem) : Prop :=
  forall a, rd m' a = if in_range from (to - from) a then 0 else rd m a.
Lemma bss_spec from to s : 0 <= from < 2 ^ 32 -> 0 <= to < 2 ^ 32 ->
  exists s', (if from <? to then stosb from 0 (u32 (to - from)) else ret tt) s = Ok (tt, s') /\ zeroed from to (b_mem s) (b_mem s').
Proof.
  intros Hf Ht. destruct (Z.ltb_spec from to) as [Hlt|Hge].
  - eexists. split; [reflexivity|]. intros a. cbn [b_mem]. rewrite rd_wr_bytes. rewrite length_replicate. unfold u32. rewrite Z.mod_small by lia.
    rewrite Z2Nat.id by lia. destruct (in_range_spec from (to - from) a); [|done].
    by rewrite lookup_replicate_2 by lia.
  - exists s. split; [done|]. intros a. by destruct (in_range_spec from (to - from) a); [lia|].
Qed.

Lemma land_neq m n : scratched m -> kernel_image n -> (Z.land (hdr_flags m (scratch + 4 * n)) 65536 =? 0) = false.
Proof. intros Hm Hk. destruct (header_fields m n Hm Hk) as (-> & _). exact (ki_flags n Hk). Qed.
End BootProofs.

(** C25: The boot loader loads the kernel.  From a disk with a kernel from sector 1 on, whose multiboot header is in
    the first 8192 bytes, [bootmain] returns the entry address of the header with the memory between the
    load address and the load end as the bytes of the kernel, at their place relative to
    the header, and the memory from there to the end of the uninitialised data zero, although it reads
    whole sectors; outside of these and of its scratch space it
    changes at most 512 bytes on either side of the kernel. *)
Theorem bootmain_loads disk delay fuel n s :
  (forall k, length (disk k) = 512%nat) -> (forall k, (delay k < fuel)%nat) -> kernel_image disk fuel n ->
  (20 <= fuel)%nat -> (b_busy s < fuel)%nat ->
  let from := kword disk (n + 4) in let to := kword disk (n + 5) in let bss := kword disk (n + 6) in
  let off := 4 * n - (kword disk (n + 3) - from) in
  exists s', bootmain disk delay fuel s = Ok (Some (kword disk (n + 7)), s') /\
    (forall a, from <= a < to -> rd (b_mem s') a = kbyte disk (off + (a - from))) /\
    (forall a, to <= a < bss -> rd (b_mem s') a = 0) /\
    (forall a, (a < scratch - 512 \/ scratch + 8192 + 512 <= a) -> (a <= from - 512 \/ to + 512 <= a) -> (a < to \/ bss <= a) ->
       rd (b_mem s') a = rd (b_mem s) a).
Proof.
  intros Hdisk Hdelay Hk Hf Hb from to bss off. pose proof (kword_bound disk) as Hw.
  pose proof (ki_n _ _ _ Hk) as Hn. pose proof (ki_load _ _ _ Hk) as Hl. pose proof (ki_end _ _ _ Hk) as He.
  pose proof (ki_above _ _ _ Hk) as Ha. pose proof (ki_fuel _ _ _ Hk) as Hfu. fold from to in Hl, He, Ha, Hfu.
  assert (Hbo : 0 <= bss < 2 ^ 32 /\ 0 <= kword disk (n + 3) < 2 ^ 32) by (split; apply Hw).
  destruct (readseg_spec disk delay fuel Hdisk Hdelay scratch 8192 0 s) as (s1 & R1 & B1 & L1 & O1); [unfold scratch; (lia || (change (Z.to_nat (8192 / 512 + 3)) with 19%nat; lia))..|].
  assert (M1 : scratched disk (b_mem s1)) by (intros a Hin; by rewrite L1).
  destruct (header_fields disk fuel (b_mem s1) n M1 Hk) as (F1 & F2 & F3 & F4 & F5 & F6).
  destruct (readseg_spec disk delay fuel Hdisk Hdelay from (to - from) off s1) as (s2 & R2 & B2 & L2 & O2); [lia..|].
  assert (M2 : scratched disk (b_mem s2)) by (intros a Hin; rewrite O2 by (unfold scratch in Hin; lia); by apply M1).
  destruct (header_fields disk fuel (b_mem s2) n M2 Hk) as (G1 & G2 & G3 & G4 & G5 & G6).
  destruct (bss_spec to bss s2 ltac:(lia) ltac:(lia)) as (s3 & R3 & Z3).
  assert (M3 : scratched disk (b_mem s3)).
  { intros a Hin. rewrite (Z3 a). destruct (in_range_spec to (bss - to) a); [unfold scratch in Hin; lia|]. by apply M2. }
  destruct (header_fields disk fuel (b_mem s3) n M3 Hk) as (_ & _ & _ & _ & _ & K6).
  exists s3. split.
  - unfold bootmain. rewrite (bind_Ok _ _ _ _ _ R1), (bind_Ok (gets b_mem) _ s1 _ _ eq_refl).
    rewrite (find_header_spec disk fuel (b_mem s1) n M1 Hk 2048 0) by lia. cbv zeta. rewrite (land_neq disk fuel (b_mem s1) n M1 Hk), F2, F3, F4. fold from to.
    destruct (Z.ltb_spec (kword disk (n + 3)) from); [lia|]. destruct (Z.ltb_spec to from); [lia|].
    assert (E : u32 (to - from) = to - from /\ u32 (n * 4 - (kword disk (n + 3) - from)) = off) by (unfold u32, off; split; [|rewrite Z.mod_small by lia]; rewrite ?Z.mod_small; lia).
    destruct E as [-> ->]. rewrite (bind_Ok _ _ _ _ _ R2), (bind_Ok (gets b_mem) _ s2 _ _ eq_refl). rewrite G4, G5. fold to bss.
    rewrite (bind_Ok _ _ _ _ _ R3), (bind_Ok (gets b_mem) _ s3 _ _ eq_refl). by rewrite K6.
  - split; [|split].
    + intros a Hin. rewrite (Z3 a). destruct (in_range_spec to (bss - to) a); [lia|]. apply L2. lia.
    + intros a Hin. rewrite (Z3 a). by destruct (in_range_spec to (bss - to) a); [|lia].
    + intros a H1 H2 H3. rewrite (Z3 a). destruct (in_range_spec to (bss - to) a); [lia|]. rewrite O2 by lia. apply O1. lia.
Qed.

(** A kernel of 1000 bytes, from its header in the second word of the disk on, for the address 1 MB, with 96 bytes
    of uninitialised data. *)
Definition word_bytes_of (v : Z) : list Z := [v mod 256; v / 256 mod 256; v / 65536 mod 256; v / 16777216].
Definition demo_header : list Z :=
  concat (map word_bytes_of [0; MAGIC; 65536; u32 (- MAGIC - 65536); 1048576; 1048576; 1049576; 1049672; 1048608]).
Definition demo_disk (k : Z) : list Z :=
  if k =? 1 then demo_header ++ replicate 476 7 else replicate 512 9.

Lemma demo_kernel : kernel_image demo_disk 30 1.
Proof.
  assert (E1 : kword demo_disk 1 = MAGIC) by (vm_compute; reflexivity).
  assert (E2 : kword demo_disk 2 = 65536) by (vm_compute; reflexivity).
  assert (E3 : kword demo_disk 3 = u32 (- MAGIC - 65536)) by (vm_compute; reflexivity).
  assert (E4 : kword demo_disk 4 = 1048576) by (vm_compute; reflexivity).
  assert (E5 : kword demo_disk 5 = 1048576) by (vm_compute; reflexivity).
  assert (E6 : kword demo_disk 6 = 1049576) by (vm_compute; reflexivity).
  assert (E0 : kword demo_disk 0 = 0) by (vm_compute; reflexivity).
  split.
  - lia.
  - unfold is_header. change (1 + 1) with 2. change (1 + 2) with 3. rewrite E1, E2, E3. vm_compute. reflexivity.
  - intros i Hi. assert (i = 0) as -> by lia. unfold is_header. rewrite E0. reflexivity.
  - change (1 + 1) with 2. rewrite E2. reflexivity.
  - change (1 + 4) with 5. change (1 + 3) with 4. rewrite E4, E5. lia.
  - change (1 + 4) with 5. change (1 + 5) with 6. rewrite E5, E6. lia.
  - change (1 + 4) with 5. rewrite E5. lia.
  - change (1 + 4) with 5. change (1 + 5) with 6. rewrite E5, E6. vm_compute. lia.
Qed.

Lemma bootmain_loads_witness :
  exists s', bootmain demo_disk (fun _ => 3%nat) 30 (Boot ∅ 2 (fun _ => 0) None) = Ok (Some (kword demo_disk 8), s') /\
    (forall a, kword demo_disk 5 <= a < kword demo_disk 6 ->
       rd (b_mem s') a = kbyte demo_disk (4 - (kword demo_disk 4 - kword demo_disk 5) + (a - kword demo_disk 5))).
Proof.
  destruct (bootmain_loads demo_disk (fun _ => 3%nat) 30 1 (Boot ∅ 2 (fun _ => 0) None)) as (s' & R & L & _).
  - intros k. unfold demo_disk. destruct (k =? 1); reflexivity.
  - intros; lia.
  - exact demo_kernel.
  - lia.
  - simpl. lia.
  - exists s'. split; [exact R|exact L].
Defined.
