(* ===== verification/Mp.v ===== *)
(** * Finding the processors: mp.c, and [cpunum] of lapic.c

    The search for the tables of the MultiProcessor specification in the memory of the firmware, and
    their interpretation.  Pointers are kernel virtual addresses into the byte
    memory; the ports the code writes at the end are recorded in order. *)
From S2P Require Import Prelude Memory Kalloc.

(** ** mp.h *)

Definition MPPROC : Z := 0.
Definition MPBUS : Z := 1.
Definition MPIOAPIC : Z := 2.
Definition MPIOINTR : Z := 3.
Definition MPLINTR : Z := 4.

(** [struct mp], 16 bytes. *)
Definition sizeof_mp : Z := 16.
Definition mp_physaddr (m : mem) (p : Z) : Z := load32 m (p + 4).
Definition mp_imcrp (m : mem) (p : Z) : Z := rd m (p + 12).
(** [struct mpconf], 44 bytes. *)
Definition sizeof_mpconf : Z := 44.
Definition conf_length (m : mem) (c : Z) : Z := load 2 m (c + 4).
Definition conf_version (m : mem) (c : Z) : Z := rd m (c + 6).
Definition conf_lapicaddr (m : mem) (c : Z) : Z := load32 m (c + 36).
(** The id in a [struct mpproc] and a [struct mpioapic]. *)
Definition sizeof_mpproc : Z := 20.
Definition sizeof_mpioapic : Z := 8.
Definition entry_id (m : mem) (p : Z) : Z := rd m (p + 1).

(** ** Searching *)

Fixpoint sum_loop (n : nat) (m : mem) (addr sum : Z) : Z :=
  match n with
  | O => sum
  | S n => sum_loop n m (addr + 1) (s32 (sum + rd m addr))
  end.
Definition sum (m : mem) (addr len : Z) : Z := u8 (sum_loop (Z.to_nat len) m addr 0).

(** [memcmp] with a string literal. *)
Definition same_bytes (m : mem) (p : Z) (lit : list Z) : bool := bool_decide (rd_bytes (length lit) m p = lit).
Definition MP_SIG : list Z := [95; 77; 80; 95].      (* _MP_ *)
Definition PCMP_SIG : list Z := [80; 67; 77; 80].    (* PCMP *)

Definition is_mp (m : mem) (p : Z) : bool := same_bytes m p MP_SIG && (sum m p sizeof_mp =? 0).

Fixpoint mpsearch1_loop (fuel : nat) (m : mem) (p e : Z) : Z :=
  match fuel with
  | O => 0
  | S fuel =>
      if p <? e then
        if is_mp m p then p else mpsearch1_loop fuel m (p + sizeof_mp) e
      else 0
  end.
(** The loop makes at most [len / 16 + 1] turns. *)
Definition mpsearch1 (m : mem) (a len : Z) : Z :=
  let addr := P2V a in
  mpsearch1_loop (Z.to_nat (len / 16 + 2)) m addr (addr + len).

Definition mpsearch (m : mem) : Z :=
  let bda := P2V 1024 in
  let p := u32 (Z.shiftl (Z.lor (Z.shiftl (rd m (bda + 15)) 8) (rd m (bda + 14))) 4) in
  let mp :=
    if negb (p =? 0) then mpsearch1 m p 1024
    else
      let p := u32 (Z.lor (Z.shiftl (rd m (bda + 20)) 8) (rd m (bda + 19)) * 1024) in
      mpsearch1 m (u32 (p - 1024)) 1024 in
  if negb (mp =? 0) then mp else mpsearch1 m 983040 65536.

(** The table, with the structure that leads to it. *)
Definition mpconfig (m : mem) : option (Z * Z) :=
  let mp := mpsearch m in
  if (mp =? 0) || (mp_physaddr m mp =? 0) then None
  else
    let conf := P2V (mp_physaddr m mp) in
    if negb (same_bytes m conf PCMP_SIG) then None
    else if negb (conf_version m conf =? 1) && negb (conf_version m conf =? 4) then None
    else if negb (sum m conf (conf_length m conf) =? 0) then None
    else Some (mp, conf).

(** ** What mpinit sets *)

Definition NCPU : Z := 8.
(** [cpus[i].apicid], [ncpu], [ioapicid], [lapic], and the writes to ports. *)
Record mpstate : Type := MpState {
  apicid : Z -> Z;
  ncpu : Z;
  ioapicid : Z;
  lapic : Z;
  mp_ports : list (Z * Z);
}.

(** [Fuel] is not reached: every turn advances by 8 bytes or more. *)
Fixpoint mp_entries (fuel : nat) (m : mem) (p e : Z) (s : mpstate) : res mpstate :=
  if p <? e then
    match fuel with
    | O => Fuel
    | S fuel =>
        let t := rd m p in
        if t =? MPPROC then
          let s :=
            if ncpu s <? NCPU then
              MpState (<[ncpu s := entry_id m p]> (apicid s)) (ncpu s + 1) (ioapicid s) (lapic s) (mp_ports s)
            else s in
          mp_entries fuel m (p + sizeof_mpproc) e s
        else if t =? MPIOAPIC then
          mp_entries fuel m (p + sizeof_mpioapic) e
            (MpState (apicid s) (ncpu s) (entry_id m p) (lapic s) (mp_ports s))
        else if (t =? MPBUS) || (t =? MPIOINTR) || (t =? MPLINTR) then
          mp_entries fuel m (p + 8) e s
        else Panic "Major problem parsing mp config."
    end
  else Ok s.

(** [inb23] is what the port 0x23 reads. *)
Definition mpinit (m : mem) (inb23 : Z) (s : mpstate) : res mpstate :=
  match mpconfig m with
  | None => Ok s
  | Some (mp, conf) =>
      let s := MpState (apicid s) (ncpu s) (ioapicid s) (P2V (conf_lapicaddr m conf)) (mp_ports s) in
      match mp_entries (Z.to_nat (conf_length m conf)) m (conf + sizeof_mpconf) (conf + conf_length m conf) s with
      | Ok s =>
          if negb (mp_imcrp m mp =? 0) then
            Ok (MpState (apicid s) (ncpu s) (ioapicid s) (lapic s) (mp_ports s ++ [(34, 112); (35, Z.lor inb23 1)]))
          else Ok s
      | r => r
      end
  end.

(** [cpunum], with what the register ID of the local APIC reads. *)
Fixpoint cpunum_loop (n : nat) (i id : Z) (s : mpstate) : res Z :=
  match n with
  | O => Panic "unknown apicid"
  | S n => if apicid s i =? id then Ok i else cpunum_loop n (i + 1) id s
  end.
Definition cpunum (id_reg : Z) (s : mpstate) : res Z :=
  if lapic s =? 0 then Ok 0
  else cpunum_loop (Z.to_nat (ncpu s)) 0 (Z.shiftr id_reg 24) s.

(** ** The search *)

Lemma mpsearch1_loop_spec fuel : forall m p e,
  e - p <= 16 * Z.of_nat fuel -> 0 < p ->
  let r := mpsearch1_loop fuel m p e in
  (r = 0 /\ forall k, 0 <= k -> p + 16 * k < e -> is_mp m (p + 16 * k) = false) \/
  (exists k, 0 <= k /\ p + 16 * k < e /\ r = p + 16 * k /\ is_mp m r = true /\
    forall j, 0 <= j < k -> is_mp m (p + 16 * j) = false).
Proof.
  induction fuel as [|fuel IH]; intros m p e Hf Hp; cbn [mpsearch1_loop]; cbv zeta.
  - left. split; [done|]. lia.
  - destruct (Z.ltb_spec p e) as [Hlt|Hge]; [|left; split; [done|lia]].
    destruct (is_mp m p) eqn:E.
    + right. exists 0. rewrite Z.add_0_r. split; [lia|]. split; [lia|]. split; [done|]. split; [done|]. lia.
    + unfold sizeof_mp. destruct (IH m (p + 16) e) as [[-> H]|(k & H0 & H1 & H2 & H3 & H4)]; [lia|lia| |].
      * left. split; [done|]. intros k Hk Hb. destruct (Z.eq_dec k 0) as [->|]; [by rewrite Z.add_0_r|].
        replace (p + 16 * k) with (p + 16 + 16 * (k - 1)) by lia. apply H; lia.
      * right. exists (k + 1). replace (p + 16 * (k + 1)) with (p + 16 + 16 * k) by lia.
        split; [lia|]. split; [done|]. split; [done|]. split; [done|].
        intros j Hj. destruct (Z.eq_dec j 0) as [->|]; [by rewrite Z.add_0_r|].
        replace (p + 16 * j) with (p + 16 + 16 * (j - 1)) by lia. apply H4. lia.
Qed.

(** What the specification of the tables asks of a structure: the bytes add up to 0 modulo 256, and the
    floating structure starts with the four characters [_MP_]. *)
Definition byte_sum (n : nat) (m : mem) (p : Z) : Z := foldr Z.add 0 (rd_bytes n m p).
Definition mp_at (m : mem) (p : Z) : Prop := rd_bytes 4 m p = [95; 77; 80; 95] /\ byte_sum 16 m p mod 256 = 0.

Lemma s32_mod256 x : s32 x mod 256 = x mod 256.
Proof. unfold s32, u32. case_match; Z.to_euclidean_division_equations; lia. Qed.

Lemma sum_loop_spec n : forall m a acc, sum_loop n m a acc mod 256 = (acc + byte_sum n m a) mod 256.
Proof.
  induction n as [|n IH]; intros m a acc; cbn [sum_loop]; unfold byte_sum in *; cbn [rd_bytes foldr].
  - by rewrite Z.add_0_r.
  - rewrite IH, <-Zplus_mod_idemp_l, s32_mod256, Zplus_mod_idemp_l. f_equal. lia.
Qed.

Lemma sum_spec m a len : sum m a len = byte_sum (Z.to_nat len) m a mod 256.
Proof. unfold sum, u8. by rewrite sum_loop_spec. Qed.

Lemma is_mp_spec m p : if is_mp m p then mp_at m p else ~ mp_at m p.
Proof.
  unfold is_mp, mp_at, same_bytes. rewrite sum_spec. change (Z.to_nat sizeof_mp) with 16%nat.
  change (length MP_SIG) with 4%nat. change MP_SIG with [95; 77; 80; 95].
  case_bool_decide as Hs; cbn [andb]; [|by intros [? _]].
  destruct (Z.eqb_spec (byte_sum 16 m p mod 256) 0) as [E|N]; [done|by intros [_ ?]].
Qed.

Lemma is_mp_true m p : is_mp m p = true -> mp_at m p.
Proof. intros E. pose proof (is_mp_spec m p) as H. by rewrite E in H. Qed.
Lemma is_mp_false m p : is_mp m p = false -> ~ mp_at m p.
Proof. intros E. pose proof (is_mp_spec m p) as H. by rewrite E in H. Qed.

(** The first structure with the signature and the checksum, at a multiple of 16 bytes from the start. *)
Definition first_mp (m : mem) (a len r : Z) : Prop :=
  (r = 0 /\ forall k, 0 <= k -> 16 * k < len -> ~ mp_at m (KERNBASE + a + 16 * k)) \/
  (exists k, 0 <= k /\ 16 * k < len /\ r = KERNBASE + a + 16 * k /\ mp_at m r /\
    forall j, 0 <= j < k -> ~ mp_at m (KERNBASE + a + 16 * j)).

Lemma mpsearch1_spec m a len : 0 <= a < 4294967296 -> 0 <= len -> first_mp m a len (mpsearch1 m a len).
Proof.
  intros Ha Hl. unfold mpsearch1, first_mp. replace (P2V a) with (KERNBASE + a) by (unfold P2V, KERNBASE; rewrite u64_small; lia).
  destruct (mpsearch1_loop_spec (Z.to_nat (len / 16 + 2)) m (KERNBASE + a) (KERNBASE + a + len)) as [[E H]|(k & H)].
  - Z.to_euclidean_division_equations. lia.
  - unfold KERNBASE. lia.
  - left. split; [done|]. intros k Hk Hb. apply is_mp_false, H; lia.
  - right. exists k. destruct H as (H0 & H1 & H2 & H3 & H4). split; [done|]. split; [lia|]. split; [done|].
    split; [by apply is_mp_true|]. intros j Hj. by apply is_mp_false, H4.
Qed.

(** ** The table *)

Inductive mpentry : Type := EProc (id : Z) | EIoapic (id : Z) | EOther (t : Z).
Definition entry_size (x : mpentry) : Z := match x with EProc _ => 20 | _ => 8 end.
Definition holds_entry (m : mem) (p : Z) (x : mpentry) : Prop :=
  match x with
  | EProc id => rd m p = MPPROC /\ entry_id m p = id
  | EIoapic id => rd m p = MPIOAPIC /\ entry_id m p = id
  | EOther t => rd m p = t /\ (t = MPBUS \/ t = MPIOINTR \/ t = MPLINTR)
  end.
(** The entries from [p] on, up to the one that starts at [q]. *)
Fixpoint entries_to (m : mem) (p : Z) (E : list mpentry) (e q : Z) : Prop :=
  match E with
  | [] => q = p
  | x :: E => p < e /\ holds_entry m p x /\ entries_to m (p + entry_size x) E e q
  end.

Definition apply_entry (s : mpstate) (x : mpentry) : mpstate :=
  match x with
  | EProc id =>
      if ncpu s <? NCPU then MpState (<[ncpu s := id]> (apicid s)) (ncpu s + 1) (ioapicid s) (lapic s) (mp_ports s) else s
  | EIoapic id => MpState (apicid s) (ncpu s) id (lapic s) (mp_ports s)
  | EOther _ => s
  end.

Lemma entry_cases m p :
  (exists x, holds_entry m p x) \/
  (rd m p =? MPPROC) || (rd m p =? MPIOAPIC) || (rd m p =? MPBUS) || (rd m p =? MPIOINTR) || (rd m p =? MPLINTR) = false.
Proof.
  destruct (Z.eqb_spec (rd m p) MPPROC) as [E|_]; [left; by exists (EProc (entry_id m p))|].
  destruct (Z.eqb_spec (rd m p) MPIOAPIC) as [E|_]; [left; by exists (EIoapic (entry_id m p))|].
  destruct (Z.eqb_spec (rd m p) MPBUS) as [E|_]; [left; exists (EOther MPBUS); split; auto|].
  destruct (Z.eqb_spec (rd m p) MPIOINTR) as [E|_]; [left; exists (EOther MPIOINTR); split; auto|].
  destruct (Z.eqb_spec (rd m p) MPLINTR) as [E|_]; [left; exists (EOther MPLINTR); split; auto|]. by right.
Qed.

Lemma entry_step fuel m p e s x :
  holds_entry m p x -> p < e -> mp_entries (S fuel) m p e s = mp_entries fuel m (p + entry_size x) e (apply_entry s x).
Proof.
  intros H Hlt. cbn [mp_entries]. rewrite (proj2 (Z.ltb_lt p e)) by done.
  destruct x as [id|id|t]; cbn [holds_entry] in H; destruct H as [E H].
  - rewrite E. cbn [MPPROC Z.eqb]. by subst id.
  - rewrite E. change (MPIOAPIC =? MPPROC) with false. change (MPIOAPIC =? MPIOAPIC) with true. cbv iota. by subst id.
  - rewrite E. destruct H as [->|[->| ->]]; reflexivity.
Qed.

(** A known table is applied entry by entry; an unknown entry is a panic. *)
Definition bad_entry (m : mem) (p : Z) : Prop :=
  (rd m p =? MPPROC) || (rd m p =? MPIOAPIC) || (rd m p =? MPBUS) || (rd m p =? MPIOINTR) || (rd m p =? MPLINTR) = false.

Lemma mp_entries_spec fuel : forall m p e s,
  e - p <= 8 * Z.of_nat fuel ->
  exists E q, entries_to m p E e q /\
    ((e <= q /\ mp_entries fuel m p e s = Ok (foldl apply_entry s E)) \/
     (q < e /\ bad_entry m q /\ mp_entries fuel m p e s = Panic "Major problem parsing mp config.")).
Proof.
  induction fuel as [|fuel IH]; intros m p e s Hf; (destruct (Z.ltb_spec p e) as [Hlt|Hge];
    [|exists [], p; split; [done|]; left; split; [done|]; cbn [mp_entries]; by rewrite (proj2 (Z.ltb_ge p e))]).
  - lia.
  - destruct (entry_cases m p) as [[x Hx]|Hbad].
    + destruct (IH m (p + entry_size x) e (apply_entry s x)) as (E & q & HE & H).
      { destruct x; cbn [entry_size]; lia. }
      exists (x :: E), q. split; [done|]. rewrite (entry_step fuel m p e s x Hx Hlt). exact H.
    + exists [], p. split; [done|]. right. split; [done|]. split; [done|]. cbn [mp_entries].
      rewrite (proj2 (Z.ltb_lt p e)) by done. pose proof Hbad as Hb. rewrite !orb_false_iff in Hb.
      destruct Hb as ((((-> & ->) & ->) & ->) & ->). done.
Qed.

Definition procs (E : list mpentry) : list Z := omap (fun x => match x with EProc id => Some id | _ => None end) E.
Definition ioapics (E : list mpentry) : list Z := omap (fun x => match x with EIoapic id => Some id | _ => None end) E.

Lemma fold_entries E : forall s,
  0 <= ncpu s <= NCPU ->
  let s' := foldl apply_entry s E in
  ncpu s' = Z.min NCPU (ncpu s + Z.of_nat (length (procs E))) /\
  (forall i, i < ncpu s -> apicid s' i = apicid s i) /\
  (forall i id, procs E !! i = Some id -> ncpu s + Z.of_nat i < NCPU -> apicid s' (ncpu s + Z.of_nat i) = id) /\
  ioapicid s' = default (ioapicid s) (last (ioapics E)) /\ lapic s' = lapic s /\ mp_ports s' = mp_ports s.
Proof.
  induction E as [|x E IH]; intros s Hn; cbv zeta.
  { split; [unfold NCPU in *; simpl; lia|]. done. }
  cbn [foldl]. destruct x as [id|id|t]; cbn [apply_entry].
  - change (procs (EProc id :: E)) with (id :: procs E). change (ioapics (EProc id :: E)) with (ioapics E). unfold NCPU in *. destruct (Z.ltb_spec (ncpu s) 8) as [Hlt|Hge].
    + set (s1 := MpState _ _ _ _ _). destruct (IH s1) as (H1 & H2 & H3 & H4 & H5); [cbn; lia|]. cbn [s1 ncpu apicid] in H1, H2, H3.
      split; [cbn [length]; rewrite H1; lia|]. split; [|split; [|done]].
      * intros i Hi. rewrite H2 by lia. apply fn_lookup_insert_ne. lia.
      * intros i j Hi Hb. destruct i as [|i]; cbn in Hi.
        -- injection Hi as ->. rewrite H2 by lia. replace (ncpu s + Z.of_nat 0) with (ncpu s) by lia. apply fn_lookup_insert.
        -- replace (ncpu s + Z.of_nat (S i)) with (ncpu s + 1 + Z.of_nat i) by lia. apply H3; [done|lia].
    + destruct (IH s Hn) as (H1 & H2 & H3 & H4 & H5). split; [cbn [length]; rewrite H1; lia|].
      split; [done|]. split; [|done]. intros i j Hi Hb. lia.
  - change (procs (EIoapic id :: E)) with (procs E). change (ioapics (EIoapic id :: E)) with (id :: ioapics E).
    set (s1 := MpState _ _ _ _ _). destruct (IH s1) as (H1 & H2 & H3 & H4 & H5); [done|].
    split; [exact H1|]. split; [exact H2|]. split; [exact H3|]. split; [|exact H5]. rewrite H4. cbn [s1 ioapicid].
    destruct (ioapics E) as [|y L]; [done|]. rewrite last_cons_cons.
    destruct (last (y :: L)) eqn:El; [done|]. by apply last_None in El.
  - exact (IH s Hn).
Qed.

Lemma cpunum_loop_spec n : forall i id s k,
  (forall j, i <= j < k -> apicid s j <> id) -> i <= k < i + Z.of_nat n -> apicid s k = id ->
  cpunum_loop n i id s = Ok k.
Proof.
  induction n as [|n IH]; intros i id s k Hj Hk He; [lia|]. cbn [cpunum_loop].
  destruct (Z.eqb_spec (apicid s i) id) as [E|N].
  - destruct (Z.eq_dec i k) as [->|Hne]; [done|]. exfalso. apply (Hj i); [lia|done].
  - apply IH; [intros j Hj'; apply Hj; lia| |done]. destruct (Z.eq_dec i k) as [->|]; [done|lia].
Qed.

(** The search looks at the extended BIOS data area, or else at the end of base memory, and then at the ROM. *)
Definition mp_area (m : mem) : Z :=
  let bda := KERNBASE + 1024 in
  let ebda := 16 * (256 * rd m (bda + 15) + rd m (bda + 14)) in
  if ebda =? 0 then u32 (1024 * (256 * rd m (bda + 20) + rd m (bda + 19)) - 1024) else ebda.

(** A table that [mpconfig] accepts: it starts with [PCMP]. *)
Definition valid_conf (m : mem) (conf : Z) : Prop :=
  rd_bytes 4 m conf = [80; 67; 77; 80] /\ (conf_version m conf = 1 \/ conf_version m conf = 4) /\
  byte_sum (Z.to_nat (conf_length m conf)) m conf mod 256 = 0.

Lemma word_bytes a b : 0 <= a < 256 -> 0 <= b < 256 -> Z.lor (Z.shiftl a 8) b = 256 * a + b.
Proof.
  intros Ha Hb. rewrite Z.shiftl_mul_pow2 by lia. change (2 ^ 8) with 256. rewrite Z.lor_comm.
  assert (E : Z.land b (a * 256) = 0).
  { apply Z.bits_inj'. intros n Hn. rewrite Z.land_spec, Z.bits_0. destruct (Z.lt_ge_cases n 8) as [H|H].
    - change 256 with (2 ^ 8). by rewrite Z.mul_pow2_bits_low, andb_false_r.
    - rewrite <-(Z.mod_small b (2 ^ 8)) by done. by rewrite Z.mod_pow2_bits_high by lia. }
  rewrite <-Z.add_nocarry_lor by done. lia.
Qed.

Lemma mpsearch_spec m : exists r0, first_mp m (mp_area m) 1024 r0 /\
  ((r0 <> 0 /\ mpsearch m = r0) \/ (r0 = 0 /\ first_mp m 983040 65536 (mpsearch m))).
Proof.
  unfold mpsearch, mp_area. change (P2V 1024) with (KERNBASE + 1024). set (b := KERNBASE + 1024).
  pose proof (rd_bound m (b + 15)) as H1. pose proof (rd_bound m (b + 14)) as H2.
  pose proof (rd_bound m (b + 20)) as H3. pose proof (rd_bound m (b + 19)) as H4.
  rewrite !word_bytes by done. rewrite Z.shiftl_mul_pow2 by lia. change (2 ^ 4) with 16.
  rewrite (u32_small ((256 * rd m (b + 15) + rd m (b + 14)) * 16)) by lia. rewrite (Z.mul_comm _ 16).
  rewrite (u32_small ((256 * rd m (b + 20) + rd m (b + 19)) * 1024)) by lia. rewrite (Z.mul_comm _ 1024).
  set (e := 16 * _) in *. set (q := u32 _).
  assert (Hq : 0 <= q < 4294967296) by (unfold q, u32; apply Z.mod_pos_bound; lia).
  set (r := if negb (e =? 0) then mpsearch1 m e 1024 else mpsearch1 m q 1024). exists r. split.
  - unfold r. destruct (Z.eqb_spec e 0); cbn [negb]; apply mpsearch1_spec; lia.
  - destruct (Z.eqb_spec r 0) as [E|N]; cbn [negb]; [right|left]; split; try done. apply mpsearch1_spec; lia.
Qed.

Lemma mpconfig_spec m :
  match mpconfig m with
  | None => mpsearch m = 0 \/ mp_physaddr m (mpsearch m) = 0 \/ ~ valid_conf m (P2V (mp_physaddr m (mpsearch m)))
  | Some (mp, conf) => mp = mpsearch m /\ mp <> 0 /\ conf = P2V (mp_physaddr m mp) /\ valid_conf m conf
  end.
Proof.
  unfold mpconfig, valid_conf, same_bytes. 
  change (length PCMP_SIG) with 4%nat. change PCMP_SIG with [80; 67; 77; 80]. set (mp := mpsearch m).
  destruct (Z.eqb_spec mp 0) as [|N1]; [by left|]. destruct (Z.eqb_spec (mp_physaddr m mp) 0) as [|N2]; [by right; left|].
  cbn [orb]. set (c := P2V (mp_physaddr m mp)).
  case_bool_decide as Hs; cbn [negb]; [|right; right; naive_solver].
  destruct (Z.eqb_spec (conf_version m c) 1) as [Hv|Hv]; cbn [negb andb].
  2: destruct (Z.eqb_spec (conf_version m c) 4) as [Hv'|Hv']; cbn [negb]; [|right; right; naive_solver].
  all: destruct (Z.eqb_spec (sum m c (conf_length m c)) 0) as [Hm|Hm]; rewrite sum_spec in Hm; cbn [negb]; [|right; right; naive_solver].
  all: split; [done|]; split; [done|]; split; [done|]; split; [done|]; split; [tauto|done].
Qed.


(** Tables of a machine with two processors and an I/O APIC. *)
Definition demo_mp : list Z := MP_SIG ++ [0; 144; 0; 0; 1; 4; 16; 0; 0; 0; 0; 0].
Definition demo_conf : list Z :=
  PCMP_SIG ++ [92; 0; 4; 138] ++ replicate 24 0 ++ [0; 0; 3; 0; 0; 0; 224; 254; 0; 0; 0; 0] ++
  ([0; 0] ++ replicate 18 0) ++ ([0; 1] ++ replicate 18 0) ++ [2; 2; 0; 0; 0; 0; 0; 0].
Definition demo_mem : mem := wr_bytes (wr_bytes ∅ (P2V 983040) demo_mp) (P2V 36864) demo_conf.
Definition mpstate0 : mpstate := MpState (fun _ => 0) 0 0 0 [].

Definition is_ok {A} (r : res A) : bool := match r with Ok _ => true | _ => false end.
Lemma is_ok_inv {A} (r : res A) : is_ok r = true -> exists a, r = Ok a.
Proof. destruct r; [by eexists|done..]. Qed.

