(* ===== verification/Apic.v ===== *)
(** * The interrupt controllers and the clock: ioapic.c and lapic.c

    The I/O APIC and the local APIC as register files, and the real-time clock behind its two ports.  The
    register files are what the data sheets describe; what the clock answers is a
    parameter, a time for each access to its ports. *)
From S2P Require Import Prelude.

Definition T_IRQ0 : Z := 32.

(** ** ioapic.c *)

(** The register that is selected, and the registers. *)
Record ioapic : Type := Ioapic { io_reg : Z; io_regs : Z -> Z }.

Definition REG_ID : Z := 0.
Definition REG_VER : Z := 1.
Definition REG_TABLE : Z := 16.
Definition INT_DISABLED : Z := 65536.

Definition ioapicread (reg : Z) : M ioapic Z :=
  do! modify (fun s => Ioapic reg (io_regs s)) in
  gets (fun s => io_regs s (io_reg s)).
Definition ioapicwrite (reg data : Z) : M ioapic unit :=
  do! modify (fun s => Ioapic reg (io_regs s)) in
  modify (fun s => Ioapic (io_reg s) (<[io_reg s := data]> (io_regs s))).

Fixpoint ioapicinit_loop (n : nat) (i : Z) : M ioapic unit :=
  match n with
  | O => ret tt
  | S n =>
      do! ioapicwrite (REG_TABLE + 2 * i) (Z.lor INT_DISABLED (T_IRQ0 + i)) in
      do! ioapicwrite (REG_TABLE + 2 * i + 1) 0 in
      ioapicinit_loop n (i + 1)
  end.
(** The id is only compared, for a message. *)
Definition ioapicinit : M ioapic unit :=
  let! ver := ioapicread REG_VER in
  let maxintr := Z.land (Z.shiftr ver 16) 255 in
  let! id := ioapicread REG_ID in
  ioapicinit_loop (Z.to_nat (maxintr + 1)) 0.

Definition ioapicenable (irq cpunum : Z) : M ioapic unit :=
  do! ioapicwrite (REG_TABLE + 2 * irq) (T_IRQ0 + irq) in
  ioapicwrite (REG_TABLE + 2 * irq + 1) (u32 (Z.shiftl cpunum 24)).

(** The calls of [ioapicenable] in the kernel, one after another. *)
Fixpoint enable_all (l : list (Z * Z)) : M ioapic unit :=
  match l with
  | [] => ret tt
  | (irq, cpu) :: l => do! ioapicenable irq cpu in enable_all l
  end.

(** An entry of the redirection table as the device reads it. *)
Record redirection : Type := Redirection {
  r_vector : Z; r_mode : Z; r_logical : bool; r_low : bool; r_level : bool; r_masked : bool; r_dest : Z
}.
Definition redirection_at (s : ioapic) (i : Z) : redirection :=
  let lo := io_regs s (REG_TABLE + 2 * i) in let hi := io_regs s (REG_TABLE + 2 * i + 1) in
  Redirection (lo mod 256) (lo / 256 mod 8) (Z.testbit lo 11) (Z.testbit lo 13) (Z.testbit lo 15) (Z.testbit lo 16) (hi / 2 ^ 24).

(** ** lapic.c *)

Definition ID : Z := 8.
Definition VER : Z := 12.
Definition TPR : Z := 32.
Definition EOI : Z := 44.
Definition SVR : Z := 60.
Definition ENABLE : Z := 256.
Definition ESR : Z := 160.
Definition ICRLO : Z := 192.
Definition INIT : Z := 1280.
Definition STARTUP : Z := 1536.
Definition DELIVS : Z := 4096.
Definition ASSERT : Z := 16384.
Definition LEVEL : Z := 32768.
Definition BCAST : Z := 524288.
Definition ICRHI : Z := 196.
Definition TIMER : Z := 200.
Definition X1 : Z := 11.
Definition PERIODIC : Z := 131072.
Definition PCINT : Z := 208.
Definition LINT0 : Z := 212.
Definition LINT1 : Z := 216.
Definition ERROR : Z := 220.
Definition MASKED : Z := 65536.
Definition TICR : Z := 224.
Definition TDCR : Z := 248.
Definition IRQ_TIMER : Z := 0.
Definition IRQ_ERROR : Z := 19.
Definition IRQ_SPURIOUS : Z := 31.

Definition CMOS_PORT : Z := 112.

(** The accesses of [lapicstartap] beside the local APIC: to a port, and to two bytes of memory. *)
Inductive access : Type := Port (p v : Z) | Store16 (a v : Z).

(** Whether there is a local APIC; the registers; how many more reads of ICRLO show an interrupt that is
    being delivered; the commands written to ICRLO, with the destination; and the accesses beside it. *)
Record lapicst : Type := Lapic {
  lapic : bool;
  la_regs : Z -> Z;
  la_busy : nat;
  la_sent : list (Z * Z);
  la_out : list access;
}.

(** How long a delivery takes, by the number of commands before it. *)
Section Lapic.
Variable delay : nat -> nat.

Definition lapicw (index value : Z) : M lapicst unit :=
  modify (fun s =>
    let value := u32 value in
    let regs := <[index := value]> (la_regs s) in
    if index =? ICRLO then
      Lapic (lapic s) regs (delay (length (la_sent s))) (la_sent s ++ [(la_regs s ICRHI / 2 ^ 24, value)]) (la_out s)
    else Lapic (lapic s) regs (la_busy s) (la_sent s) (la_out s)).

(** A read of ICRLO, with the delivery status. *)
Definition read_icrlo : M lapicst Z :=
  let! s := get in
  match la_busy s with
  | O => ret (Z.land (la_regs s ICRLO) (Z.lnot DELIVS))
  | S n => do! put (Lapic (lapic s) (la_regs s) n (la_sent s) (la_out s)) in ret (Z.lor (la_regs s ICRLO) DELIVS)
  end.

Fixpoint wait_delivery (fuel : nat) : M lapicst unit :=
  match fuel with
  | O => out_of_fuel
  | S fuel =>
      let! v := read_icrlo in
      if negb (Z.land v DELIVS =? 0) then wait_delivery fuel else ret tt
  end.

(** [fuel] for the wait at the end. *)
Definition lapicinit (fuel : nat) : M lapicst unit :=
  let! present := gets lapic in
  if negb present then ret tt else
  do! lapicw SVR (Z.lor ENABLE (T_IRQ0 + IRQ_SPURIOUS)) in
  do! lapicw TDCR X1 in
  do! lapicw TIMER (Z.lor PERIODIC (T_IRQ0 + IRQ_TIMER)) in
  do! lapicw TICR 10000000 in
  do! lapicw LINT0 MASKED in
  do! lapicw LINT1 MASKED in
  let! ver := gets (fun s => la_regs s VER) in
  do! (if 4 <=? Z.land (Z.shiftr ver 16) 255 then lapicw PCINT MASKED else ret tt) in
  do! lapicw ERROR (T_IRQ0 + IRQ_ERROR) in
  do! lapicw ESR 0 in
  do! lapicw ESR 0 in
  do! lapicw EOI 0 in
  do! lapicw ICRHI 0 in
  do! lapicw ICRLO (Z.lor (Z.lor BCAST INIT) LEVEL) in
  do! wait_delivery fuel in
  lapicw TPR 0.

Definition lapiceoi : M lapicst unit :=
  let! present := gets lapic in
  if present then lapicw EOI 0 else ret tt.

Definition out_to (a : access) : M lapicst unit :=
  modify (fun s => Lapic (lapic s) (la_regs s) (la_busy s) (la_sent s) (la_out s ++ [a])).

(** The warm reset vector, at 40:67. *)
Definition wrv : Z := Z.lor (Z.shiftl 64 4) 103.

Fixpoint startup_ipis (n : nat) (apicid addr : Z) : M lapicst unit :=
  match n with
  | O => ret tt
  | S n =>
      do! lapicw ICRHI (Z.shiftl apicid 24) in
      do! lapicw ICRLO (Z.lor STARTUP (Z.shiftr addr 12)) in
      startup_ipis n apicid addr
  end.
(** [microdelay] does nothing. *)
Definition lapicstartap (apicid addr : Z) : M lapicst unit :=
  do! out_to (Port CMOS_PORT 15) in
  do! out_to (Port (CMOS_PORT + 1) 10) in
  do! out_to (Store16 wrv 0) in
  do! out_to (Store16 (wrv + 2) (u16 (Z.shiftr addr 4))) in
  do! lapicw ICRHI (Z.shiftl apicid 24) in
  do! lapicw ICRLO (Z.lor (Z.lor INIT LEVEL) ASSERT) in
  do! lapicw ICRLO (Z.lor INIT LEVEL) in
  startup_ipis 2 apicid addr.
End Lapic.

(** ** The clock: cmostime *)

Record rtcdate : Type := Rtcdate { second : Z; minute : Z; hour : Z; day : Z; month : Z; year : Z }.
#[export] Instance rtcdate_eq_dec : EqDecision rtcdate.
Proof. solve_decision. Defined.

Definition CMOS_STATA : Z := 10.
Definition CMOS_STATB : Z := 11.
Definition CMOS_UIP : Z := 128.
Definition SECS : Z := 0.
Definition MINS : Z := 2.
Definition HOURS : Z := 4.
Definition DAY : Z := 7.
Definition MONTH : Z := 8.
Definition YEAR : Z := 9.

(** The clock: which register is selected, and how often it was read. *)
Record rtcst : Type := Rtcst { rtc_reg : Z; rtc_now : nat }.

Section Cmos.
(** What register [reg] of the clock holds at the [n]th read. *)
Variable cmos : nat -> Z -> Z.

Definition cmos_read (reg : Z) : M rtcst Z :=
  do! modify (fun s => Rtcst reg (rtc_now s)) in
  let! s := get in
  do! put (Rtcst (rtc_reg s) (S (rtc_now s))) in
  ret (cmos (rtc_now s) (rtc_reg s)).

Definition fill_rtcdate : M rtcst rtcdate :=
  let! sec := cmos_read SECS in
  let! min := cmos_read MINS in
  let! hr := cmos_read HOURS in
  let! d := cmos_read DAY in
  let! mon := cmos_read MONTH in
  let! yr := cmos_read YEAR in
  ret (Rtcdate sec min hr d mon yr).

Fixpoint cmostime_loop (fuel : nat) : M rtcst rtcdate :=
  match fuel with
  | O => out_of_fuel
  | S fuel =>
      let! t1 := fill_rtcdate in
      let! sa := cmos_read CMOS_STATA in
      if negb (Z.land sa CMOS_UIP =? 0) then cmostime_loop fuel else
      let! t2 := fill_rtcdate in
      if decide (t1 = t2) then ret t1 else cmostime_loop fuel
  end.

Definition CONV (x : Z) : Z := Z.shiftr x 4 * 10 + Z.land x 15.
Definition cmostime (fuel : nat) : M rtcst rtcdate :=
  let! sb := cmos_read CMOS_STATB in
  let bcd := Z.land sb 4 =? 0 in
  let! t1 := cmostime_loop fuel in
  let t1 := if bcd then Rtcdate (CONV (second t1)) (CONV (minute t1)) (CONV (hour t1)) (CONV (day t1)) (CONV (month t1)) (CONV (year t1)) else t1 in
  ret (Rtcdate (second t1) (minute t1) (hour t1) (day t1) (month t1) (u32 (year t1 + 2000))).
End Cmos.

(** *** A clock *)

(** The time shown at each read, whether an update is in progress, and whether numbers are in binary
    coded decimal. *)
Record clock : Type := Clock { ck_time : nat -> rtcdate; ck_uip : nat -> bool; ck_bcd : bool }.

Definition encoded (bcd : bool) (x : Z) : Z := if bcd then 16 * (x / 10) + x mod 10 else x.
Definition ck_regs (c : clock) (n : nat) (reg : Z) : Z :=
  if reg =? SECS then encoded (ck_bcd c) (second (ck_time c n)) else
  if reg =? MINS then encoded (ck_bcd c) (minute (ck_time c n)) else
  if reg =? HOURS then encoded (ck_bcd c) (hour (ck_time c n)) else
  if reg =? DAY then encoded (ck_bcd c) (day (ck_time c n)) else
  if reg =? MONTH then encoded (ck_bcd c) (month (ck_time c n)) else
  if reg =? YEAR then encoded (ck_bcd c) (year (ck_time c n)) else
  if reg =? CMOS_STATA then (if ck_uip c n then 166 else 38) else
  if reg =? CMOS_STATB then (if ck_bcd c then 2 else 6) else 0.

Definition rtc_ok (t : rtcdate) : Prop :=
  (0 <= second t < 100 /\ 0 <= minute t < 100 /\ 0 <= hour t < 100) /\
  (0 <= day t < 100 /\ 0 <= month t < 100 /\ 0 <= year t < 100).

(** The clock shows times, and changes at most once in thirteen reads that follow each other. *)
Record clock_ok (c : clock) : Prop := {
  ck_range : forall n, rtc_ok (ck_time c n);
  ck_slow : forall n, exists k, (n <= k <= n + 13)%nat /\
    (forall m, (n <= m < k)%nat -> ck_time c m = ck_time c n) /\
    (forall m, (k <= m <= n + 12)%nat -> ck_time c m = ck_time c (n + 12)%nat);
}.
(** From read [n] on, the clock neither changes nor announces a change, for twenty-six reads. *)
Definition quiet (c : clock) (n : nat) : Prop :=
  forall m, (n <= m < n + 26)%nat -> ck_time c m = ck_time c n /\ ck_uip c m = false.

(** ** Proofs: the I/O APIC *)

(** What [ioapicwrite] leaves. *)
Lemma ioapicwrite_run reg data s :
  ioapicwrite reg data s = Ok (tt, Ioapic reg (<[reg := data]> (io_regs s))).
Proof. done. Qed.

Definition off (i : Z) : redirection := Redirection (T_IRQ0 + i) 0 false false false true 0.
Definition routed (i cpu : Z) : redirection := Redirection (T_IRQ0 + i) 0 false false false false cpu.

(** Two registers of the table. *)
Lemma redirection_ne s i j lo hi r : i <> j ->
  redirection_at (Ioapic r (<[REG_TABLE + 2 * i + 1 := hi]> (<[REG_TABLE + 2 * i := lo]> (io_regs s)))) j = redirection_at s j.
Proof.
  intros Hn. unfold redirection_at, REG_TABLE; simpl.
  rewrite !fn_lookup_insert_ne by lia. done.
Qed.
Lemma redirection_eq s i lo hi r :
  redirection_at (Ioapic r (<[REG_TABLE + 2 * i + 1 := hi]> (<[REG_TABLE + 2 * i := lo]> (io_regs s)))) i =
  Redirection (lo mod 256) (lo / 256 mod 8) (Z.testbit lo 11) (Z.testbit lo 13) (Z.testbit lo 15) (Z.testbit lo 16) (hi / 2 ^ 24).
Proof.
  unfold redirection_at; simpl. rewrite fn_lookup_insert.
  rewrite fn_lookup_insert_ne by lia. by rewrite fn_lookup_insert.
Qed.
Lemma small_bits v k : 0 <= v < 256 -> 8 <= k -> Z.testbit v k = false.
Proof. intros Hv Hk. apply Z.bits_above_log2; [lia|]. destruct (decide (v = 0)) as [->|]; [simpl; lia|]. apply Z.log2_lt_pow2; [lia|]. apply Z.lt_le_trans with (2 ^ 8); [lia|]. apply Z.pow_le_mono_r; lia. Qed.
Lemma masked_vector v : 0 <= v < 256 -> Z.lor INT_DISABLED v = 65536 + v.
Proof.
  intros Hv. unfold INT_DISABLED.
  assert (Hl : Z.land 65536 v = 0).
  { apply Z.bits_inj'. intros k Hk. rewrite Z.land_spec, Z.bits_0.
    destruct (decide (k < 8)); [|rewrite (small_bits v) by lia; by rewrite andb_false_r].
    assert (H : k = 0 \/ k = 1 \/ k = 2 \/ k = 3 \/ k = 4 \/ k = 5 \/ k = 6 \/ k = 7) by lia.
    by destruct_or! H; subst k. }
  rewrite Z.lor_comm. symmetry. rewrite Z.add_comm. apply Z.add_nocarry_lor. by rewrite Z.land_comm.
Qed.

Lemma testbit_vector v k : 0 <= v < 256 -> 8 <= k -> Z.testbit (65536 + v) k = (k =? 16).
Proof.
  intros Hv Hk. rewrite <-masked_vector by done. rewrite Z.lor_spec, (small_bits v) by lia.
  rewrite orb_false_r. change INT_DISABLED with (2 ^ 16). rewrite Z.pow2_bits_eqb by lia. by rewrite Z.eqb_sym.
Qed.

Section Ioapic.
Variable maxintr : Z.
Hypothesis Hmax : 0 <= maxintr < 224.

Lemma off_entry s i r : 0 <= i <= maxintr ->
  redirection_at (Ioapic r (<[REG_TABLE + 2 * i + 1 := 0]> (<[REG_TABLE + 2 * i := Z.lor INT_DISABLED (T_IRQ0 + i)]> (io_regs s)))) i = off i.
Proof.
  intros Hi. rewrite redirection_eq. rewrite masked_vector by (unfold T_IRQ0; lia).
  rewrite !testbit_vector by (unfold T_IRQ0; lia). unfold off, T_IRQ0. simpl. f_equal.
  - rewrite Z.mod_eq by lia. replace ((65536 + (32 + i)) / 256) with 256; [lia|]. apply Z.div_unique with (32 + i); lia.
  - replace ((65536 + (32 + i)) / 256) with 256; [done|]. apply Z.div_unique with (32 + i); lia.
Qed.
Lemma routed_entry s i cpu r : 0 <= i <= maxintr -> 0 <= cpu < 256 ->
  redirection_at (Ioapic r (<[REG_TABLE + 2 * i + 1 := u32 (Z.shiftl cpu 24)]> (<[REG_TABLE + 2 * i := T_IRQ0 + i]> (io_regs s)))) i = routed i cpu.
Proof.
  intros Hi Hc. rewrite redirection_eq. rewrite !small_bits by (unfold T_IRQ0; lia).
  unfold routed, T_IRQ0. f_equal; [by rewrite Z.mod_small by lia|by rewrite Z.div_small by lia|].
  rewrite Z.shiftl_mul_pow2 by lia. unfold u32. rewrite Z.mod_small by lia. by apply Z.div_mul.
Qed.

Lemma ioapicinit_loop_spec n : forall i s, 0 <= i -> i + Z.of_nat n <= maxintr + 1 ->
  exists s', ioapicinit_loop n i s = Ok (tt, s') /\ forall j, 0 <= j ->
    redirection_at s' j = if decide (i <= j < i + Z.of_nat n) then off j else redirection_at s j.
Proof.
  induction n as [|n IH]; intros i s Hi Hn; [exists s; split; [done|]; intros; by rewrite decide_False by lia|].
  simpl ioapicinit_loop. unfold bind. rewrite !ioapicwrite_run. cbn [io_regs].
  match goal with |- context [ioapicinit_loop n (i + 1) ?s1] => destruct (IH (i + 1) s1 ltac:(lia) ltac:(lia)) as (s' & -> & Hs') end.
  exists s'. split; [done|]. intros j Hj. rewrite Hs' by done.
  destruct (decide (i = j)) as [<-|Hne].
  - rewrite decide_False, decide_True by lia. apply off_entry. lia.
  - rewrite (redirection_ne s i j) by done. case_decide; case_decide; done || lia.
Qed.

(** The processor that a line was last enabled for. *)
Fixpoint enabled_for (l : list (Z * Z)) (i : Z) : option Z :=
  match l with
  | [] => None
  | (irq, cpu) :: l => match enabled_for l i with Some c => Some c | None => if irq =? i then Some cpu else None end
  end.
Definition line_ok (p : Z * Z) : Prop := 0 <= p.1 <= maxintr /\ 0 <= p.2 < 256.

Lemma enable_all_spec l : forall s, Forall line_ok l ->
  exists s', enable_all l s = Ok (tt, s') /\ forall j, 0 <= j ->
    redirection_at s' j = match enabled_for l j with Some cpu => routed j cpu | None => redirection_at s j end.
Proof.
  induction l as [|[irq cpu] l IH]; intros s Hl; [by exists s|].
  apply Forall_cons in Hl as [[Hirq Hcpu] Hl]. simpl in Hirq, Hcpu.
  simpl enable_all. unfold ioapicenable, bind. rewrite !ioapicwrite_run. cbn [io_regs].
  match goal with |- context [enable_all l ?s1] => destruct (IH s1 Hl) as (s' & -> & Hs') end.
  exists s'. split; [done|]. intros j Hj. rewrite Hs' by done. simpl.
  destruct (enabled_for l j) as [c|]; [done|]. destruct (Z.eqb_spec irq j) as [<-|Hne].
  - by apply routed_entry.
  - apply (redirection_ne s irq j). done.
Qed.
End Ioapic.

(** Every interrupt line goes where the kernel asked.  After [ioapicinit] and any sequence of calls
    of [ioapicenable] on lines that the I/O APIC has, a line that was enabled is unmasked,
    edge-triggered and active high, and delivered with its own vector [T_IRQ0 + irq] to the processor that
    was named last; every other line is masked and goes to no processor. *)
Theorem ioapic_routing s l :
  let maxintr := Z.land (Z.shiftr (io_regs s REG_VER) 16) 255 in
  maxintr < 224 -> Forall (line_ok maxintr) l ->
  exists s1 s2, ioapicinit s = Ok (tt, s1) /\ enable_all l s1 = Ok (tt, s2) /\
  forall i, 0 <= i <= maxintr ->
    redirection_at s2 i = match enabled_for l i with Some cpu => routed i cpu | None => off i end.
Proof.
  intros maxintr Hm Hl. assert (H0 : 0 <= maxintr) by (apply Z.land_nonneg; lia).
  assert (He : ioapicinit s = ioapicinit_loop (Z.to_nat (maxintr + 1)) 0 (Ioapic REG_ID (io_regs s))) by done.
  destruct (ioapicinit_loop_spec maxintr ltac:(lia) (Z.to_nat (maxintr + 1)) 0 (Ioapic REG_ID (io_regs s)) ltac:(lia) ltac:(lia)) as (s1 & H1 & Hs1).
  destruct (enable_all_spec maxintr ltac:(lia) l s1 Hl) as (s2 & H2 & Hs2).
  exists s1, s2. split; [by rewrite He|]. split; [done|]. intros i Hi. rewrite Hs2 by lia.
  destruct (enabled_for l i); [done|]. rewrite Hs1 by lia. by rewrite decide_True by lia.
Qed.

(** A controller with 24 lines. *)
Definition ioapic24 : ioapic := Ioapic 0 (<[REG_VER := 1507345]> (fun _ => 0)).
(** The keyboard and the serial port to processor 0, the disk to processor 3. *)
Lemma ioapic_routing_witness :
  exists s1 s2, ioapicinit ioapic24 = Ok (tt, s1) /\
    enable_all [(1, 0); (4, 0); (14, 3)] s1 = Ok (tt, s2) /\
  forall i, 0 <= i <= 23 -> redirection_at s2 i =
    match enabled_for [(1, 0); (4, 0); (14, 3)] i with Some cpu => routed i cpu | None => off i end.
Proof.
  assert (He : Z.land (Z.shiftr (io_regs ioapic24 REG_VER) 16) 255 = 23) by (vm_compute; reflexivity).
  rewrite <-He. apply (ioapic_routing ioapic24 [(1, 0); (4, 0); (14, 3)]); rewrite He; [lia|].
  repeat constructor; simpl; lia.
Defined.

(** ** Proofs: the local APIC *)

Section LapicProofs.
Variable delay : nat -> nat.

Lemma delivs_set v : negb (Z.land (Z.lor v DELIVS) DELIVS =? 0) = true.
Proof.
  assert (H : Z.land (Z.lor v DELIVS) DELIVS = DELIVS).
  { apply Z.bits_inj'. intros k Hk. rewrite Z.land_spec, Z.lor_spec. destruct (Z.testbit v k), (Z.testbit DELIVS k); done. }
  by rewrite H.
Qed.
Lemma delivs_clear v : negb (Z.land (Z.land v (Z.lnot DELIVS)) DELIVS =? 0) = false.
Proof.
  assert (H : Z.land (Z.land v (Z.lnot DELIVS)) DELIVS = 0).
  { apply Z.bits_inj'. intros k Hk. rewrite !Z.land_spec, Z.lnot_spec, Z.bits_0 by done. destruct (Z.testbit v k), (Z.testbit DELIVS k); done. }
  by rewrite H.
Qed.

Definition with_idle (s : lapicst) : lapicst := Lapic (lapic s) (la_regs s) 0 (la_sent s) (la_out s).
(** The wait ends when the interrupt has been delivered. *)
Lemma wait_delivery_run fuel : forall s, (la_busy s < fuel)%nat ->
  wait_delivery fuel s = Ok (tt, with_idle s).
Proof.
  induction fuel as [|fuel IH]; intros [p r b l o] Hb; [simpl in Hb; lia|]. simpl in *.
  unfold read_icrlo, bind, get, put, ret. simpl. destruct b as [|b]; simpl.
  - by rewrite delivs_clear.
  - rewrite delivs_set. rewrite IH; simpl; [done|lia].
Qed.

(** A register that is not ICRLO, and a command. *)
Definition with_reg (i v : Z) (s : lapicst) : lapicst := Lapic (lapic s) (<[i := v]> (la_regs s)) (la_busy s) (la_sent s) (la_out s).
Definition with_command (v : Z) (s : lapicst) : lapicst :=
  Lapic (lapic s) (<[ICRLO := v]> (la_regs s)) (delay (length (la_sent s))) (la_sent s ++ [(la_regs s ICRHI / 2 ^ 24, v)]) (la_out s).

Lemma lapicw_reg i v s : (i =? ICRLO) = false -> lapicw delay i v s = Ok (tt, with_reg i (u32 v) s).
Proof. intros Hi. unfold lapicw, modify. cbv zeta. by rewrite Hi. Qed.
Lemma lapicw_command v s : lapicw delay ICRLO v s = Ok (tt, with_command (u32 v) s).
Proof. done. Qed.
Lemma with_reg_same i v s : la_regs (with_reg i v s) i = v.
Proof. apply fn_lookup_insert. Qed.
Lemma with_reg_other i j v s : (i =? j) = false -> la_regs (with_reg i v s) j = la_regs s j.
Proof. intros Hij. apply Z.eqb_neq in Hij. by apply fn_lookup_insert_ne. Qed.
Lemma with_command_other j v s : (ICRLO =? j) = false -> la_regs (with_command v s) j = la_regs s j.
Proof. intros Hij. apply Z.eqb_neq in Hij. by apply fn_lookup_insert_ne. Qed.
Lemma with_idle_regs j s : la_regs (with_idle s) j = la_regs s j.
Proof. done. Qed.

(** What a local APIC does after [lapicinit]: it is enabled, with the spurious vector; its timer counts
    down again and again and interrupts with the vector of the timer; both lines are masked; it
    accepts every priority. *)
Record lapic_ready (s : lapicst) : Prop := {
  lr_enabled : Z.testbit (la_regs s SVR) 8 = true;
  lr_spurious : la_regs s SVR mod 256 = T_IRQ0 + IRQ_SPURIOUS;
  lr_timer : la_regs s TIMER mod 256 = T_IRQ0 + IRQ_TIMER /\ Z.testbit (la_regs s TIMER) 17 = true /\ Z.testbit (la_regs s TIMER) 16 = false;
  lr_count : 0 < la_regs s TICR;
  lr_lines : Z.testbit (la_regs s LINT0) 16 = true /\ Z.testbit (la_regs s LINT1) 16 = true;
  lr_perf : 4 <= Z.land (Z.shiftr (la_regs s VER) 16) 255 -> Z.testbit (la_regs s PCINT) 16 = true;
  lr_error : la_regs s ERROR mod 256 = T_IRQ0 + IRQ_ERROR /\ Z.testbit (la_regs s ERROR) 16 = false;
  lr_tpr : la_regs s TPR = 0;
  lr_idle : la_busy s = 0%nat;
}.

Ltac lapic_step :=
  match goal with
  | |- context [bind (lapicw delay ICRLO ?v) ?k ?s] => rewrite (bind_Ok (lapicw delay ICRLO v) k s _ _ (lapicw_command v s))
  | |- context [bind (lapicw delay ?i ?v) ?k ?s] => rewrite (bind_Ok (lapicw delay i v) k s _ _ (lapicw_reg i v s eq_refl))
  end; cbv beta.
Ltac lapic_reg :=
  repeat first [ rewrite with_reg_same | rewrite with_idle_regs | rewrite with_reg_other by reflexivity | rewrite with_command_other by reflexivity ].

(** [lapicinit] returns when its interrupt has been delivered, and leaves the local APIC ready; without a
    local APIC it does nothing. *)
Theorem lapicinit_correct s fuel : (delay (length (la_sent s)) < fuel)%nat ->
  exists s', lapicinit delay fuel s = Ok (tt, s') /\
    (if lapic s then lapic_ready s' /\ la_sent s' = la_sent s ++ [(0, 558336)] else s' = s).
Proof.
  intros Hf. unfold lapicinit. rewrite (bind_Ok (gets lapic) _ s _ _ eq_refl).
  destruct (lapic s); [|by exists s]. cbv beta iota. cbn [negb]. do 6 lapic_step.
  match goal with |- context [bind (gets ?f) ?k ?s1] => rewrite (bind_Ok (gets f) k s1 _ _ eq_refl) end. cbv beta. lapic_reg.
  destruct (_ <=? _) eqn:Hv; [lapic_step|rewrite (bind_Ok (ret tt) _ _ tt _ eq_refl)]; do 6 lapic_step;
    (match goal with |- context [bind (wait_delivery fuel) ?k ?s1] => rewrite (bind_Ok (wait_delivery fuel) k s1 _ _ (wait_delivery_run fuel s1 Hf)) end);
    cbv beta; rewrite (lapicw_reg TPR 0 _ eq_refl); eexists; (split; [reflexivity|]); (split; [split; lapic_reg; try done|done]).
  apply Z.leb_gt in Hv. lia.
Qed.

(** A command as the local APIC reads it: the destination, the kind of interrupt, whether it is
    asserted, the trigger mode, whether it goes to one processor by its identifier, and the vector. *)
Record command : Type := Command { c_dest : Z; c_kind : Z; c_assert : bool; c_level : bool; c_one : bool; c_vector : Z }.
Definition command_of (p : Z * Z) : command :=
  Command p.1 (p.2 / 256 mod 8) (Z.testbit p.2 14) (Z.testbit p.2 15) (p.2 / 2 ^ 18 mod 4 =? 0) (p.2 mod 256).

Lemma dest_shift apicid : 0 <= apicid < 256 -> u32 (Z.shiftl apicid 24) / 2 ^ 24 = apicid.
Proof. intros Ha. rewrite Z.shiftl_mul_pow2 by lia. unfold u32. rewrite Z.mod_small by lia. by apply Z.div_mul. Qed.
Lemma startup_value v : 0 <= v < 256 -> u32 (Z.lor STARTUP v) = 1536 + v.
Proof.
  intros Hv. unfold STARTUP.
  assert (Hl : Z.land 1536 v = 0).
  { apply Z.bits_inj'. intros k Hk. rewrite Z.land_spec, Z.bits_0.
    destruct (decide (k < 8)); [|rewrite (small_bits v) by lia; by rewrite andb_false_r].
    assert (H : k = 0 \/ k = 1 \/ k = 2 \/ k = 3 \/ k = 4 \/ k = 5 \/ k = 6 \/ k = 7) by lia.
    by destruct_or! H; subst k. }
  rewrite <-Z.add_nocarry_lor by done. unfold u32. apply Z.mod_small. lia.
Qed.
Lemma startup_command d v : 0 <= v < 256 -> command_of (d, 1536 + v) = Command d 6 false false true v.
Proof.
  intros Hv. unfold command_of. cbn [fst snd].
  assert (Hb : forall k, 11 <= k -> Z.testbit (1536 + v) k = false).
  { intros k Hk. apply Z.bits_above_log2; [lia|]. apply Z.log2_lt_pow2; [lia|].
    apply Z.lt_le_trans with (2 ^ 11); [lia|]. apply Z.pow_le_mono_r; lia. }
  rewrite !Hb by lia. f_equal.
  - replace ((1536 + v) / 256) with 6; [done|]. apply Z.div_unique with v; lia.
  - rewrite Z.div_small by lia. done.
  - symmetry. apply Z.mod_unique with 6; lia.
Qed.

(** The other processor starts at the code that the kernel copied: an initialisation interrupt that is
    asserted and withdrawn, then two startup interrupts, all for the one processor, whose vector is the page of
    [addr]; and the warm reset vector holds the same address. *)
Theorem lapicstartap_correct s apicid addr :
  0 <= apicid < 256 -> 0 <= addr < 2 ^ 20 -> addr mod 4096 = 0 ->
  exists s', lapicstartap delay apicid addr s = Ok (tt, s') /\
    map command_of (la_sent s') = map command_of (la_sent s) ++
      [Command apicid 5 true true true 0; Command apicid 5 false true true 0;
       Command apicid 6 false false true (addr / 4096); Command apicid 6 false false true (addr / 4096)] /\
    la_out s' = la_out s ++ [Port 112 15; Port 113 10; Store16 1127 0; Store16 1129 (addr / 16)].
Proof.
  intros Ha Hd Hm. assert (Hv : 0 <= addr / 4096 < 256).
  { split; [apply Z.div_pos; lia|]. apply Z.div_lt_upper_bound; lia. }
  unfold lapicstartap. do 4 (rewrite (bind_Ok (out_to _) _ _ _ _ eq_refl)). cbv beta. do 3 lapic_step. simpl startup_ipis.
  do 4 lapic_step. unfold ret. eexists. split; [reflexivity|]. split.
  - unfold with_command; simpl la_sent. rewrite !Z.shiftr_div_pow2 by lia. change (2 ^ 12) with 4096.
    rewrite startup_value by done.
    repeat first [rewrite fn_lookup_insert | rewrite fn_lookup_insert_ne by done]. rewrite !dest_shift by done.
    rewrite !map_app. simpl. rewrite !startup_command by done. by rewrite <-!(assoc_L (++)).
  - simpl. rewrite <-!(assoc_L (++)). simpl. do 4 f_equal. unfold u16. rewrite Z.shiftr_div_pow2 by lia. rewrite Z.mod_small; [done|].
    split; [apply Z.div_pos; lia|]. apply Z.div_lt_upper_bound; lia.
Qed.
End LapicProofs.

(** ** Proofs: the clock *)

(** A time as the registers hold it. *)
Definition enc (bcd : bool) (t : rtcdate) : rtcdate :=
  Rtcdate (encoded bcd (second t)) (encoded bcd (minute t)) (encoded bcd (hour t)) (encoded bcd (day t)) (encoded bcd (month t)) (encoded bcd (year t)).
(** Six reads from the [n]th on. *)
Definition six (c : clock) (n : nat) : rtcdate :=
  Rtcdate (encoded (ck_bcd c) (second (ck_time c n))) (encoded (ck_bcd c) (minute (ck_time c (1 + n))))
    (encoded (ck_bcd c) (hour (ck_time c (2 + n)))) (encoded (ck_bcd c) (day (ck_time c (3 + n))))
    (encoded (ck_bcd c) (month (ck_time c (4 + n)))) (encoded (ck_bcd c) (year (ck_time c (5 + n)))).

Lemma fill_run c r n : fill_rtcdate (ck_regs c) (Rtcst r n) = Ok (six c n, Rtcst YEAR (6 + n)).
Proof. done. Qed.
Lemma six_same c n k : (forall m, (n <= m <= 5 + n)%nat -> ck_time c m = ck_time c k) -> six c n = enc (ck_bcd c) (ck_time c k).
Proof.
  intros H. unfold six, enc. rewrite (H n), (H (1 + n)%nat), (H (2 + n)%nat), (H (3 + n)%nat), (H (4 + n)%nat), (H (5 + n)%nat) by lia. done.
Qed.
Lemma stata_uip c n : negb (Z.land (ck_regs c n CMOS_STATA) CMOS_UIP =? 0) = ck_uip c n.
Proof. unfold ck_regs. simpl. by destruct (ck_uip c n). Qed.

(** One turn of the loop. *)
Lemma cmostime_loop_run c fuel r n :
  cmostime_loop (ck_regs c) (S fuel) (Rtcst r n) =
  if ck_uip c (6 + n) then cmostime_loop (ck_regs c) fuel (Rtcst CMOS_STATA (7 + n)) else
  if decide (six c n = six c (7 + n)) then Ok (six c n, Rtcst YEAR (13 + n)) else cmostime_loop (ck_regs c) fuel (Rtcst YEAR (13 + n)).
Proof.
  cbn [cmostime_loop]. unfold bind. rewrite fill_run. unfold cmos_read, bind, modify, get, put, ret. cbn [rtc_now rtc_reg].
  rewrite stata_uip. destruct (ck_uip c (6 + n)); [done|]. change (S (6 + n)) with (7 + n)%nat.
  rewrite fill_run. by destruct (decide (six c n = six c (7 + n))).
Qed.

(** Two equal readings are a time that the clock showed. *)
Lemma six_shown c n : clock_ok c -> six c n = six c (7 + n) -> exists k, (n <= k < 13 + n)%nat /\ six c n = enc (ck_bcd c) (ck_time c k).
Proof.
  intros Hc He. destruct (ck_slow c Hc n) as (k & Hk & H1 & H2). destruct (decide (k <= 6 + n)%nat) as [Hle|Hgt].
  - exists (n + 12)%nat. split; [lia|]. rewrite He. apply six_same. intros m Hm. apply H2. lia.
  - exists n. split; [lia|]. apply six_same. intros m Hm. apply H1. lia.
Qed.

(** The loop ends in a quiet stretch at the latest. *)
Lemma cmostime_loop_spec c q : clock_ok c -> quiet c q -> forall fuel r n, (n <= 13 + q)%nat -> (q + 13 < fuel + n)%nat ->
  exists k r' n', cmostime_loop (ck_regs c) fuel (Rtcst r n) = Ok (enc (ck_bcd c) (ck_time c k), Rtcst r' n') /\ (n <= k < n')%nat.
Proof.
  intros Hc Hq. induction fuel as [|fuel IH]; intros r n Hn Hf; [lia|]. rewrite cmostime_loop_run.
  destruct (decide (q <= n)%nat) as [Hin|Hout].
  - destruct (Hq (6 + n)%nat ltac:(lia)) as [_ ->].
    assert (H1 : forall b, (n <= b <= 7 + n)%nat -> six c b = enc (ck_bcd c) (ck_time c q)) by (intros b Hb; apply six_same; intros m Hm; apply Hq; lia).
    rewrite decide_True by (rewrite !H1 by lia; done).
    exists n, YEAR, (13 + n)%nat. split; [|lia]. rewrite H1 by lia. by rewrite (proj1 (Hq n ltac:(lia))).
  - destruct (ck_uip c (6 + n)).
    + destruct (IH CMOS_STATA (7 + n)%nat ltac:(lia) ltac:(lia)) as (k & r' & n' & -> & Hk). exists k, r', n'. split; [done|lia].
    + case_decide as He.
      * destruct (six_shown c n Hc He) as (k & Hk & ->). exists k, YEAR, (13 + n)%nat. done.
      * destruct (IH YEAR (13 + n)%nat ltac:(lia) ltac:(lia)) as (k & r' & n' & -> & Hk). exists k, r', n'. split; [done|lia].
Qed.

(** Binary coded decimal there and back. *)
Lemma conv_encoded x : 0 <= x < 100 -> CONV (encoded true x) = x.
Proof.
  intros Hx. unfold CONV, encoded. assert (0 <= x mod 10 < 10) by (apply Z.mod_pos_bound; lia).
  rewrite Z.shiftr_div_pow2 by lia. change 15 with (Z.ones 4). rewrite Z.land_ones by lia. change (2 ^ 4) with 16.
  rewrite (Z.mul_comm 16), Z.div_add_l, (Z.add_comm (x / 10 * 16)), Z.mod_add by lia. rewrite (Z.div_small (x mod 10)), (Z.mod_small (x mod 10)) by lia.
  pose proof (Z.div_mod x 10). lia.
Qed.

(** C36: The date of [cmostime] is a date.  Of a clock that changes at most once in thirteen reads, in binary or in
    binary coded decimal, [cmostime] returns a time that the clock showed during the
    call, with the century added, and never a mixture of two times; it returns at the latest when the clock
    does not change or announce a change for twenty-six reads. *)
Theorem cmostime_correct c r n q fuel :
  clock_ok c -> quiet c q -> (S n <= q + 13)%nat -> (q + 13 <= fuel + n)%nat ->
  exists k s', cmostime (ck_regs c) fuel (Rtcst r n) =
      Ok (let t := ck_time c k in Rtcdate (second t) (minute t) (hour t) (day t) (month t) (2000 + year t), s') /\
    (n < k < rtc_now s')%nat.
Proof.
  intros Hc Hq Hn Hf. destruct (cmostime_loop_spec c q Hc Hq fuel CMOS_STATB (S n) ltac:(lia) ltac:(lia)) as (k & r' & n' & Hl & Hk).
  exists k, (Rtcst r' n'). split; [|simpl; lia].
  unfold cmostime, bind, cmos_read at 1, bind, modify, get, put, ret. cbn [rtc_now rtc_reg]. rewrite Hl.
  destruct (ck_range c Hc k) as ((H1 & H2 & H3) & H4 & H5 & H6).
  change (ck_regs c n CMOS_STATB) with (if ck_bcd c then 2 else 6).
  destruct (ck_bcd c).
  - change (Z.land 2 4 =? 0) with true. unfold enc. cbn [second minute hour day month year].
    rewrite !conv_encoded by done. unfold u32. rewrite Z.mod_small by lia. by rewrite Z.add_comm.
  - simpl. unfold u32. rewrite Z.mod_small by lia. by rewrite Z.add_comm.
Qed.

(** A clock in binary coded decimal that turns from 23:59:59 to the next day at read 9, which the status
    announces until read 9. *)
Definition midnight : clock :=
  Clock (fun n => if decide (n < 9)%nat then Rtcdate 59 59 23 31 12 24 else Rtcdate 0 0 0 1 1 25) (fun n => bool_decide (n < 9)%nat) true.
Lemma midnight_ok : clock_ok midnight.
Proof.
  split.
  - intros n. unfold midnight; simpl. case_decide; repeat split; simpl; lia.
  - intros n. simpl. destruct (decide (n < 9)%nat).
    + exists 9%nat. split_and!; [lia|lia| |]; intros m Hm; repeat case_decide; done || lia.
    + exists (n + 13)%nat. split_and!; [lia|lia| |]; intros m Hm; repeat case_decide; done || lia.
Qed.
Lemma cmostime_correct_witness :
  exists k s', cmostime (ck_regs midnight) 22 (Rtcst 0 0) =
      Ok (let t := ck_time midnight k in Rtcdate (second t) (minute t) (hour t) (day t) (month t) (2000 + year t), s') /\
    (0 < k < rtc_now s')%nat.
Proof.
  apply (cmostime_correct midnight 0 0 9 22); [exact midnight_ok| |lia|lia].
  intros m Hm. simpl. rewrite !decide_False by lia. split; [done|]. by apply bool_decide_eq_false_2; lia.
Defined.
