(* ===== verification/Uart.v ===== *)
(** * The serial port: uart.c

    The driver with the Intel 8250 behind its ports: the registers, the transmitter, which keeps a character
    for a number of reads of the status before the next one may be written, and the characters that
    arrive. *)
From S2P Require Import Prelude Apic.

Definition COM1 : Z := 1016.
Definition IRQ_COM1 : Z := 4.

(** [u_uart] is the variable [uart]; [u_present] tells whether there is a port at all.  [u_thr] is the character
    in the transmitter and how many reads of the status still see it; [u_wire] are the
    characters that went out, [u_rx] those that wait to be read. *)
Record uartst : Type := Uart {
  u_uart : bool;
  u_present : bool;
  u_lcr : Z; u_dll : Z; u_dlm : Z; u_ier : Z; u_fcr : Z; u_mcr : Z;
  u_thr : option (Z * nat);
  u_wire : list Z;
  u_rx : list Z;
  u_io : ioapic;
}.

Section Setters.
Variable s : uartst.
Definition set_uart (b : bool) : uartst :=
  Uart b (u_present s) (u_lcr s) (u_dll s) (u_dlm s) (u_ier s) (u_fcr s) (u_mcr s) (u_thr s) (u_wire s) (u_rx s) (u_io s).
Definition set_lcr (v : Z) : uartst :=
  Uart (u_uart s) (u_present s) v (u_dll s) (u_dlm s) (u_ier s) (u_fcr s) (u_mcr s) (u_thr s) (u_wire s) (u_rx s) (u_io s).
Definition set_dll (v : Z) : uartst :=
  Uart (u_uart s) (u_present s) (u_lcr s) v (u_dlm s) (u_ier s) (u_fcr s) (u_mcr s) (u_thr s) (u_wire s) (u_rx s) (u_io s).
Definition set_dlm (v : Z) : uartst :=
  Uart (u_uart s) (u_present s) (u_lcr s) (u_dll s) v (u_ier s) (u_fcr s) (u_mcr s) (u_thr s) (u_wire s) (u_rx s) (u_io s).
Definition set_ier (v : Z) : uartst :=
  Uart (u_uart s) (u_present s) (u_lcr s) (u_dll s) (u_dlm s) v (u_fcr s) (u_mcr s) (u_thr s) (u_wire s) (u_rx s) (u_io s).
Definition set_fcr (v : Z) : uartst :=
  Uart (u_uart s) (u_present s) (u_lcr s) (u_dll s) (u_dlm s) (u_ier s) v (u_mcr s) (u_thr s) (u_wire s) (u_rx s) (u_io s).
Definition set_mcr (v : Z) : uartst :=
  Uart (u_uart s) (u_present s) (u_lcr s) (u_dll s) (u_dlm s) (u_ier s) (u_fcr s) v (u_thr s) (u_wire s) (u_rx s) (u_io s).
Definition set_tx (t : option (Z * nat)) (w : list Z) : uartst :=
  Uart (u_uart s) (u_present s) (u_lcr s) (u_dll s) (u_dlm s) (u_ier s) (u_fcr s) (u_mcr s) t w (u_rx s) (u_io s).
Definition set_rx (l : list Z) : uartst :=
  Uart (u_uart s) (u_present s) (u_lcr s) (u_dll s) (u_dlm s) (u_ier s) (u_fcr s) (u_mcr s) (u_thr s) (u_wire s) l (u_io s).
Definition set_io (i : ioapic) : uartst :=
  Uart (u_uart s) (u_present s) (u_lcr s) (u_dll s) (u_dlm s) (u_ier s) (u_fcr s) (u_mcr s) (u_thr s) (u_wire s) (u_rx s) i.
End Setters.

Section Uart.
(** How many reads of the status find the transmitter busy after a character. *)
Variable delay : Z -> nat.

Definition DLAB (s : uartst) : bool := Z.testbit (u_lcr s) 7.

(** A character written to the transmitter takes the place of one that has not gone out. *)
Definition transmit (c : Z) (s : uartst) : uartst :=
  set_tx s (Some (c, delay c)) (match u_thr s with Some (c0, O) => u_wire s ++ [c0] | _ => u_wire s end).

Definition outb (port v : Z) : M uartst unit :=
  let v := u8 v in
  modify (fun s =>
    if negb (u_present s) then s
    else if port =? COM1 + 0 then (if DLAB s then set_dll s v else transmit v s)
    else if port =? COM1 + 1 then (if DLAB s then set_dlm s v else set_ier s v)
    else if port =? COM1 + 2 then set_fcr s v
    else if port =? COM1 + 3 then set_lcr s v
    else if port =? COM1 + 4 then set_mcr s v
    else s).

(** The status and what reading it does to the transmitter. *)
Definition status (s : uartst) (thre : bool) : Z :=
  (if thre then 96 else 0) + (match u_rx s with [] => 0 | _ => 1 end).
Definition poll : M uartst Z :=
  let! s := get in
  match u_thr s with
  | None => ret (status s true)
  | Some (c, O) => do! put (set_tx s None (u_wire s ++ [c])) in ret (status s true)
  | Some (c, S n) => do! put (set_tx s (Some (c, n)) (u_wire s)) in ret (status s false)
  end.
Definition inb (port : Z) : M uartst Z :=
  let! s := get in
  if negb (u_present s) then ret 255
  else if port =? COM1 + 0 then
    if DLAB s then ret (u_dll s)
    else match u_rx s with [] => ret 0 | c :: l => do! put (set_rx s l) in ret c end
  else if port =? COM1 + 2 then ret 1
  else if port =? COM1 + 5 then poll
  else ret 0.

(** ** The driver *)

Fixpoint wait_tx (n : nat) : M uartst unit :=
  match n with
  | O => ret tt
  | S n => let! st := inb (COM1 + 5) in if Z.land st 32 =? 0 then wait_tx n else ret tt
  end.
Definition uartputc (c : Z) : M uartst unit :=
  let! here := gets u_uart in
  if negb here then ret tt else
  do! wait_tx 128 in
  outb (COM1 + 0) c.

(** The characters of a string. *)
Fixpoint uartputs (l : list Z) : M uartst unit :=
  match l with [] => ret tt | c :: l => do! uartputc c in uartputs l end.

Definition greeting : list Z := [120; 118; 54; 46; 46; 46; 10].   (* xv6... *)

Definition uartearlyinit : M uartst unit :=
  do! outb (COM1 + 2) 0 in
  do! outb (COM1 + 3) 128 in
  do! outb (COM1 + 0) (115200 / 9600) in
  do! outb (COM1 + 1) 0 in
  do! outb (COM1 + 3) 3 in
  do! outb (COM1 + 4) 0 in
  do! outb (COM1 + 1) 1 in
  let! st := inb (COM1 + 5) in
  if st =? 255 then ret tt else
  do! modify (fun s => set_uart s true) in
  uartputs greeting.

Definition with_ioapic (c : M ioapic unit) : M uartst unit := fun s =>
  match c (u_io s) with
  | Ok (_, i) => Ok (tt, set_io s i)
  | Panic msg => Panic msg
  | Block => Block
  | Fuel => Fuel
  end.
Definition uartinit : M uartst unit :=
  let! here := gets u_uart in
  if negb here then ret tt else
  let! _ := inb (COM1 + 2) in
  let! _ := inb (COM1 + 0) in
  with_ioapic (ioapicenable IRQ_COM1 0).

Definition uartgetc : M uartst Z :=
  let! here := gets u_uart in
  if negb here then ret (-1) else
  let! st := inb (COM1 + 5) in
  if Z.land st 1 =? 0 then ret (-1) else inb (COM1 + 0).

(** ** Proofs *)

(** Everything written so far, gone out or in the transmitter. *)
Definition sent (s : uartst) : list Z := u_wire s ++ match u_thr s with Some (c, _) => [c] | None => [] end.

(** A port that the driver found and set up, with a transmitter that is fast enough. *)
Record uart_ok (s : uartst) : Prop := {
  uo_uart : u_uart s = true;
  uo_present : u_present s = true;
  uo_dlab : DLAB s = false;
  uo_busy : match u_thr s with Some (_, n) => (n <= 128)%nat | None => True end;
  uo_rx : Forall (fun c => 0 <= c < 256) (u_rx s);
}.
Hypothesis Hdelay : forall c, (delay c <= 128)%nat.

(** What does not change when characters are sent. *)
Definition settings (s : uartst) : Z * Z * Z * Z * Z * Z * list Z * ioapic :=
  (u_lcr s, u_dll s, u_dlm s, u_ier s, u_fcr s, u_mcr s, u_rx s, u_io s).

Lemma wait_tx_spec n : forall s, uart_ok s ->
  match u_thr s with Some (_, k) => (k <= n)%nat | None => True end ->
  exists s', wait_tx n s = Ok (tt, s') /\ uart_ok s' /\ sent s' = sent s /\ settings s' = settings s /\
    match u_thr s' with Some (_, k) => k = 0%nat | None => True end.
Proof.
  induction n as [|n IH]; intros s [Hu Hp Hd Hb Hr] Hk.
  { exists s. split; [done|]. split; [done|]. split; [done|]. split; [done|]. destruct (u_thr s) as [[c k]|]; [lia|done]. }
  simpl. unfold bind, inb, bind, get. rewrite Hp. cbn [negb]. change (COM1 + 5 =? COM1 + 0) with false. change (COM1 + 5 =? COM1 + 2) with false.
  change (COM1 + 5 =? COM1 + 5) with true. cbv iota. unfold poll, bind, get, put, ret.
  assert (Hst : forall b, (Z.land (status s b) 32 =? 0) = negb b) by (intros []; unfold status; by destruct (u_rx s)).
  destruct (u_thr s) as [[c [|k]]|] eqn:Ht; rewrite Hst; cbn [negb].
  - eexists. split; [reflexivity|]. split; [done|]. split; [|done]. unfold sent. simpl. rewrite Ht. by rewrite app_nil_r.
  - destruct (IH (set_tx s (Some (c, k)) (u_wire s))) as (s' & -> & Hok & Hs & Hset & Hz); [split; simpl; done || lia|simpl; lia|].
    exists s'. split; [done|]. split; [done|]. split; [|done]. rewrite Hs. unfold sent. simpl. by rewrite Ht.
  - exists s. split; [done|]. split; [split; rewrite ?Ht; done|]. split; [done|]. split; [done|]. by rewrite Ht.
Qed.

Lemma uartputc_spec c s : uart_ok s ->
  exists s', uartputc c s = Ok (tt, s') /\ uart_ok s' /\ sent s' = sent s ++ [u8 c] /\ settings s' = settings s.
Proof.
  intros Hok. destruct (wait_tx_spec 128 s Hok) as (s1 & Hw & Hok1 & Hs & Hset & Hz); [apply Hok|].
  unfold uartputc, bind, gets. rewrite (uo_uart s Hok). cbn [negb]. rewrite Hw. destruct Hok1 as [Hu Hp Hd Hb Hr].
  unfold outb, modify. rewrite Hp. cbn [negb]. change (COM1 + 0 =? COM1 + 0) with true. cbv iota. rewrite Hd.
  eexists. split; [reflexivity|]. split; [|split; [|done]].
  - by split; simpl.
  - rewrite <-Hs. unfold sent, transmit. simpl. destruct (u_thr s1) as [[c0 k]|]; [subst k; done|by rewrite app_nil_r].
Qed.

Lemma uartputs_spec l : forall s, uart_ok s ->
  exists s', uartputs l s = Ok (tt, s') /\ uart_ok s' /\ sent s' = sent s ++ map u8 l /\ settings s' = settings s.
Proof.
  induction l as [|c l IH]; intros s Hok; [exists s; rewrite app_nil_r; done|].
  destruct (uartputc_spec c s Hok) as (s1 & H1 & Hok1 & Hs1 & Hset1).
  destruct (IH s1 Hok1) as (s2 & H2 & Hok2 & Hs2 & Hset2).
  exists s2. simpl. unfold bind. rewrite H1. split; [done|]. split; [done|]. split; [|congruence].
  rewrite Hs2, Hs1. by rewrite <-(assoc_L (++)).
Qed.

(** Nothing there: every read gives 255 and every write is lost. *)
Lemma outb_absent port v s : u_present s = false -> outb port v s = Ok (tt, s).
Proof. intros Hp. unfold outb, modify. by rewrite Hp. Qed.
Lemma inb_absent port s : u_present s = false -> inb port s = Ok (255, s).
Proof. intros Hp. unfold inb, bind, get. by rewrite Hp. Qed.
End Uart.

(** A transmitter as it is after power-on, with nothing to send. *)
Definition powered (s : uartst) : Prop :=
  u_thr s = None /\ u_uart s = false /\ Forall (fun c => 0 <= c < 256) (u_rx s).

(** The serial port sends what it is given.  [uartearlyinit] finds out whether there is a port.  If
    there is, it sets 9600 baud (the divisor 12), eight data bits, no parity, one stop bit, and interrupts
    for received characters only, and then its greeting and every
    character that is ever given to [uartputc] goes out, each once and in order, as long as a character takes no
    longer than 128 reads of the status.  If there is none, no character is written to
    anything. *)
Theorem uart_sends delay s l :
  powered s -> (forall c, (delay c <= 128)%nat) ->
  exists s1 s2, uartearlyinit delay s = Ok (tt, s1) /\ uartputs delay l s1 = Ok (tt, s2) /\
    if u_present s then
      (256 * u_dlm s2 + u_dll s2 = 12 /\ u_lcr s2 = 3 /\ u_ier s2 = 1 /\ u_fcr s2 = 0) /\
      sent s2 = u_wire s ++ greeting ++ map u8 l /\ u_rx s2 = u_rx s
    else s2 = s.
Proof.
  intros (Ht & Hu & Hr) Hd. destruct (u_present s) eqn:Hp.
  - destruct s as [u p lcr dll dlm ier fcr mcr thr wire rx io]. simpl in *. subst.
    set (s0 := Uart true true 3 12 0 1 0 0 None wire rx io).
    assert (H0 : uart_ok s0) by (by split).
    destruct (uartputs_spec delay Hd greeting s0 H0) as (s1 & H1 & Hok1 & Hs1 & Hset1).
    destruct (uartputs_spec delay Hd l s1 Hok1) as (s2 & H2 & Hok2 & Hs2 & Hset2).
    exists s1, s2. split; [|split; [done|]].
    + rewrite <-H1. unfold uartearlyinit. by destruct rx.
    + rewrite Hset1 in Hset2. unfold settings in Hset2. simpl in Hset2. injection Hset2 as -> -> -> -> -> _ -> _.
      split; [done|]. split; [|done]. rewrite Hs2, Hs1. unfold sent. simpl. by rewrite app_nil_r, <-(assoc_L (++)).
  - assert (Hp' : forall k, uartputs delay k s = Ok (tt, s)).
    { induction k as [|c k IH]; [done|]. simpl. unfold uartputc, bind, gets. by rewrite Hu. }
    exists s, s. split; [|split; [apply Hp'|done]].
    unfold uartearlyinit, bind. rewrite !outb_absent by done. by rewrite inb_absent.
Qed.

(** A port whose transmitter takes three reads. *)
Definition idle_port : uartst := Uart false true 0 0 0 0 0 0 None [] [] (Ioapic 0 (fun _ => 0)).
Lemma uart_sends_witness :
  exists s1 s2, uartearlyinit (fun _ => 3%nat) idle_port = Ok (tt, s1) /\ uartputs (fun _ => 3%nat) [104; 105] s1 = Ok (tt, s2) /\
    (256 * u_dlm s2 + u_dll s2 = 12 /\ u_lcr s2 = 3 /\ u_ier s2 = 1 /\ u_fcr s2 = 0) /\
    sent s2 = [] ++ greeting ++ map u8 [104; 105] /\ u_rx s2 = [].
Proof.
  apply (uart_sends (fun _ => 3%nat) idle_port [104; 105]); [by repeat split|intros; lia].
Defined.

(** Reading: with a character that arrived, [uartgetc] returns it, and -1 without one. *)
Lemma uartgetc_spec s : uart_ok s ->
  exists s', uartgetc s = Ok (match u_rx s with [] => -1 | c :: _ => c end, s') /\
    uart_ok s' /\ u_rx s' = tail (u_rx s) /\ sent s' = sent s /\ u_io s' = u_io s.
Proof.
  intros [Hu Hp Hd Hb Hr]. unfold uartgetc, bind, gets. rewrite Hu. cbn [negb].
  assert (Hst : forall s0 b, u_rx s0 = u_rx s -> (Z.land (status s0 b) 1 =? 0) = match u_rx s with [] => true | _ => false end).
  { intros s0 b E. unfold status. rewrite E. by destruct b, (u_rx s). }
  assert (Hpoll : exists s1 b, inb (COM1 + 5) s = Ok (status s b, s1) /\ uart_ok s1 /\ u_rx s1 = u_rx s /\ sent s1 = sent s /\ u_io s1 = u_io s).
  { unfold inb, bind, get. rewrite Hp. cbn [negb]. change (COM1 + 5 =? COM1 + 0) with false. change (COM1 + 5 =? COM1 + 2) with false.
    change (COM1 + 5 =? COM1 + 5) with true. cbv iota. unfold poll, bind, get, put, ret.
    destruct (u_thr s) as [[c [|k]]|] eqn:Ht; eexists _, _; (split; [reflexivity|]).
    - split; [done|]. split; [done|]. split; [|done]. unfold sent. simpl. rewrite Ht. by rewrite app_nil_r.
    - split; [split; simpl; done || lia|]. split; [done|]. split; [|done]. unfold sent. simpl. by rewrite Ht.
    - split; [split; rewrite ?Ht; done|]. done. }
  destruct Hpoll as (s1 & b & -> & [Hu1 Hp1 Hd1 Hb1 Hr1] & Hx & Hs1 & Hio). rewrite (Hst s b) by done.
  destruct (u_rx s) as [|c l] eqn:Hl; [by exists s1|].
  unfold inb, bind, get. rewrite Hp1. cbn [negb]. change (COM1 + 0 =? COM1 + 0) with true. cbv iota. rewrite Hd1, Hx.
  eexists. split; [reflexivity|]. split; [|done]. split; simpl; try done. rewrite Hx in Hr1. by apply Forall_cons in Hr1 as [_ ?].
Qed.
