(* ===== verification/Uvm.v ===== *)
(** * User address spaces: the specification of vm.c

    [uspace] is what a page table shows a user program.  The operations of
    vm.c that change a process image are related to it: [deallocuvm],
    [allocuvm], [copyout]. *)
From S2P Require Import Prelude Memory Strings Kalloc Vm.

(** ** The address space of a process

    What the hardware shows a user program: the byte at a user address and the
    flag bits of its page, when the page is present. *)
Section Uspace.
Variable kend : Z.
Variable root : Z.
Abbreviation pt_inv := (pt_inv kend root).
Abbreviation grows := (grows kend root).
Abbreviation pteval := (pteval root).

Definition frame (m : mem) (va : Z) : Z := P2V (PTE_ADDR (pteval m va)).

Definition uspace (m : mem) (va : Z) : option (Z * Z) :=
  if present (pteval m va)
  then Some (rd m (frame m va + va mod 4096), PTE_FLAGS (pteval m va))
  else None.

Lemma uspace_ext m m' va :
  pteval m' va = pteval m va ->
  (present (pteval m va) = true ->
     rd m' (frame m va + va mod 4096) = rd m (frame m va + va mod 4096)) ->
  uspace m' va = uspace m va.
Proof.
  intros E H. unfold uspace, frame in *. rewrite E.
  destruct (present (pteval m va)); [|done]. by rewrite H.
Qed.

Lemma uspace_None m va : uspace m va = None <-> present (pteval m va) = false.
Proof. unfold uspace. by destruct (present (pteval m va)). Qed.

Lemma frame_own k l own va :
  pt_inv k l own -> user_va va -> present (pteval (km_mem k) va) = true ->
  own !! frame (km_mem k) va = Some (O, va / 4096).
Proof.
  intros I Hv. unfold frame, Vm.pteval, pv.
  destruct (walk 3 (km_mem k) root va) as [a|] eqn:W; [|done]. intros Hp.
  eapply walk_Some in W as (t & Ht & ->); [|done|done|lia|by eapply root_at].
  rewrite page_split. apply (pi_down _ _ _ _ _ I); [done| |done].
  split; [apply Z.mod_pos_bound; lia|lia].
Qed.

Lemma frame_in d va : d <= d + va mod 4096 < d + PGSIZE.
Proof. pose proof (Z.mod_pos_bound va 4096). unfold PGSIZE. lia. Qed.

(** A change that keeps the entry of [va] and the frames still owned. *)
Lemma uspace_keep k l own m' va :
  pt_inv k l own -> user_va va ->
  pteval m' va = pteval (km_mem k) va ->
  (forall d x, own !! d = Some (O, va / 4096) -> d <= x < d + PGSIZE ->
     rd m' x = rd (km_mem k) x) ->
  uspace m' va = uspace (km_mem k) va.
Proof.
  intros I Hv E H. apply uspace_ext; [done|]. intros Hp.
  eapply H; [by eapply frame_own|apply frame_in].
Qed.

Lemma uspace_grows k l own k' l' own' va :
  pt_inv k l own -> grows k l own k' l' own' -> user_va va ->
  uspace (km_mem k') va = uspace (km_mem k) va.
Proof.
  intros I (I1 & S1 & _ & _ & P1 & M1 & _) Hv. eapply uspace_keep; eauto.
  intros d x Hd Hx. eapply M1; [|by right; eauto|done].
  by eapply pi_page in Hd as (? & _).
Qed.

Lemma uspace_shrunk a b k l own k' l' own' va :
  pt_inv k l own -> shrunk kend root a b k l own k' l' own' -> user_va va ->
  uspace (km_mem k') va = if decide (page_in a b va) then None else uspace (km_mem k) va.
Proof.
  intros I [I1 S1 C1 In1 Out1 D1 _] Hv. case_decide as D.
  - apply uspace_None. by apply In1.
  - apply uspace_ext; [by apply Out1|]. intros Hp. rewrite <-Out1 in Hp by done.
    pose proof (frame_own _ _ _ va I1 Hv Hp) as Hf.
    unfold frame in *. rewrite Out1 in Hf by done. eapply D1; [done|apply frame_in].
Qed.


Lemma alloc_page k c l own :
  pt_inv k (c :: l) own ->
  exists k1 k2, kalloc k = Ok (c, k1) /\ kmemset c 0 PGSIZE k1 = Ok (tt, k2) /\
    c <> 0 /\ page_ok kend c /\ c ∉ l /\ own !! c = None /\ pt_inv k2 l own /\
    (forall va, user_va va -> pteval (km_mem k2) va = pteval (km_mem k) va) /\
    (forall va, user_va va -> uspace (km_mem k2) va = uspace (km_mem k) va) /\
    (forall x, c <= x < c + PGSIZE -> rd (km_mem k2) x = 0) /\
    keeps (pages_of (c :: l) own) (km_mem k) (km_mem k2).
Proof.
  intros I. destruct (pt_inv_kalloc _ _ _ _ _ _ I) as (k1 & E1 & M1 & I1 & Hc & Hcl & Hco).
  pose proof (page_ok_nonzero _ _ Hc) as Hc0.
  exists k1, (set_mem (memset (km_mem k1) c 0 PGSIZE) k1).
  destruct (pt_inv_write kend root k1 l own c (memset (km_mem k1) c 0 PGSIZE)) as [I2 P2];
    [done|done|done|congruence|apply writes_in_memset|].
  rewrite (kmemset_ok c 0 PGSIZE k1 Hc0). cbn [km_mem set_mem]. rewrite <-M1.
  do 7 (split; [done|]). split; [done|]. split; [|split].
  3:{ apply (keeps_writes _ c); [apply in_pages_l; left|apply writes_in_memset]. }
  - intros va Hv. eapply uspace_keep; eauto. intros d x Hd Hx.
    eapply (writes_in_other kend c); [apply writes_in_memset|done| | |exact Hx].
    + by eapply pi_page in Hd as (? & _).
    + congruence.
  - intros x Hx. rewrite rd_memset by (unfold PGSIZE; lia).
    by destruct (in_range_spec c PGSIZE x); [|lia].
Qed.

Lemma map_page k l own va c perm :
  pt_inv k l own -> user_va va -> va mod 4096 = 0 ->
  page_ok kend c -> c ∉ l -> own !! c = None -> 0 <= perm < 4096 ->
  uspace (km_mem k) va = None ->
  (exists k' own', mappages root va PGSIZE (V2P c) perm k = Ok (-1, k') /\
     pt_inv k' [] own' /\ pages_of [] own' = pages_of l own /\ own' !! c = None /\
     (forall va', user_va va' -> uspace (km_mem k') va' = uspace (km_mem k) va') /\
     keeps (pages_of l own) (km_mem k) (km_mem k')) \/
  (exists k' l' own', mappages root va PGSIZE (V2P c) perm k = Ok (0, k') /\
     pt_inv k' l' own' /\ pages_of l' own' = {[c]} ∪ pages_of l own /\
     (forall va', user_va va' -> uspace (km_mem k') va' =
       if va' / 4096 =? va / 4096
       then Some (rd (km_mem k) (c + va' mod 4096), Z.lor perm PTE_P)
       else uspace (km_mem k) va') /\
     keeps (pages_of l own) (km_mem k) (km_mem k')).
Proof.
  intros I Hv Ha Hc Hcl Hco Hperm Hn. apply uspace_None in Hn as Hnp.
  destruct (mappages_one kend root k l own va c perm)
    as [(k' & o' & E & G)|(k1 & l' & o1 & t & G & Ht & E & I' & P')]; try done.
  { left. exists k', o'. pose proof G as (I1 & S1 & [L1 C1] & N1 & P1 & M1 & K1).
    split; [done|]. split; [done|]. split; [done|]. split; [|split; [|done]].
    - destruct (o' !! c) eqn:Ec; [|done]. destruct (N1 c) as [? _]; congruence || done.
    - intros va' Hv'. by eapply uspace_grows. }
  right. pose proof G as (I1 & S1 & [L1 C1] & N1 & P1 & M1 & K1).
  set (k2 := set_mem _ k1) in *. exists k2, l', (<[c := (O, va / 4096)]> o1).
  destruct (pi_page _ _ _ _ _ I1 _ _ _ Ht) as (Htp & _).
  assert (Ho1 : o1 !! c = None).
  { destruct (o1 !! c) eqn:Ec; [|done]. destruct (N1 c) as [? _]; congruence || done. }
  assert (B : 0 <= pfx 0 va mod 512 < 512) by (apply Z.mod_pos_bound; lia).
  assert (Hd : forall d x, page_ok kend d -> d <> t ->
    o1 !! d = None \/ (exists p, own !! d = Some (O, p)) ->
    d <= x < d + PGSIZE -> rd (km_mem k2) x = rd (km_mem k) x).
  { intros d x Hd N Ho Hx. rewrite <-(M1 d x) by done. unfold k2. cbn [km_mem set_mem].
    eapply (writes_in_other kend t); [by apply writes_in_store|..]; done. }
  split; [done|]. split; [done|]. split.
  { unfold pages_of in *. rewrite dom_insert_L. rewrite <-C1.
    clear. set_solver. }
  split.
  2:{ unfold k2. simpl. eapply keeps_trans; [exact K1|]. apply (keeps_writes _ t); [|by apply writes_in_store].
      rewrite <-C1. by eapply in_pages_own. }
  intros va' Hv'. destruct (Z.eqb_spec (va' / 4096) (va / 4096)) as [Ev|Nv].
  - assert (Ep : pteval (km_mem k2) va' = V2P c + Z.lor perm PTE_P).
    { rewrite P' by done. rewrite (proj2 (Z.eqb_eq _ _) Ev).
      by destruct (leaf_pte kend c perm Hc Hperm) as (f & _ & _ & <- & ->). }
    destruct (leaf_pte kend c perm Hc Hperm) as (f & Hf & Hodd & Ef & _).
    rewrite <-Ef in *. unfold uspace, frame. rewrite Ep, (V2P_add_odd kend), Hodd by done.
    rewrite (pte_target kend) by done. f_equal. f_equal.
    + apply (Hd c); [done|congruence|by left|apply frame_in].
    + rewrite PTE_FLAGS_eq. rewrite Z.add_mod, (V2P_aligned kend), Z.add_0_l by done.
      rewrite Z.mod_mod, Z.mod_small by lia. done.
  - eapply uspace_keep; eauto.
    + rewrite P' by done. by destruct (Z.eqb_spec (va' / 4096) (va / 4096)).
    + intros d x Hdo Hx. pose proof (lookup_weaken _ _ _ _ Hdo S1) as Hdo1.
      apply (Hd d); [by eapply pi_page in Hdo as (? & _)|congruence|by right; eauto|done].
Qed.
End Uspace.

(** Freeing a page that is not part of the page table. *)
Lemma pt_inv_kfree kend root k l own c k' :
  pt_inv kend root k l own -> page_ok kend c -> own !! c = None ->
  kalloc_inv kend k' (c :: l) -> writes_in c (km_mem k) (km_mem k') ->
  pt_inv kend root k' (c :: l) own.
Proof.
  intros I Hc Hco Ik Hw.
  assert (Hs : same_tables own (km_mem k) (km_mem k')).
  { eapply (writes_in_tables kend); eauto; [congruence|].
    intros ??? H. by eapply pi_page in H as (? & _). }
  split; try done; try by apply I.
  - intros t lv p Ht. destruct (pi_page _ _ _ _ _ I _ _ _ Ht) as (? & Hl & ?).
    split; [done|]. split; [|done]. apply not_elem_of_cons. split; [congruence|done].
  - intros t lv p i Ht Hi. rewrite (ent_same _ _ _ _ _ _ _ Hs Ht) by apply Hi. by apply I.
  - intros t lv p Ht Hl. destruct (pi_up _ _ _ _ _ I t lv p Ht Hl) as (t' & Ht' & Hi & Hp & E).
    exists t'. by rewrite (ent_same _ _ _ _ _ _ _ Hs Ht') by apply Hi.
Qed.

Section Grow.
Variable kend : Z.
Variable root : Z.
Hypothesis Hend : KERNBASE < kend.
Abbreviation pt_inv := (pt_inv kend root).
Abbreviation uspace := (uspace root).

Lemma page_fuel_enough a b : b <= a + Z.of_nat (page_fuel a b) * 4096.
Proof.
  unfold page_fuel, PGSIZE. destruct (Z.le_gt_cases 0 ((b - a) / 4096 + 1)) as [H|H].
  - rewrite Z2Nat.id by done. Z.to_euclidean_division_equations. lia.
  - Z.to_euclidean_division_equations. lia.
Qed.

Lemma PGROUNDUP_user x :
  user_va x -> PGROUNDUP x mod 4096 = 0 /\ x <= PGROUNDUP x < x + 4096.
Proof.
  intros Hx. unfold user_va in Hx. rewrite PGROUNDUP_eq by (unfold PGSIZE; lia).
  unfold PGSIZE. split; Z.to_euclidean_division_equations; lia.
Qed.

Lemma deallocuvm_spec k l own oldsz newsz :
  pt_inv k l own -> user_va newsz -> newsz <= oldsz <= 140737488355328 ->
  exists k' l' own', deallocuvm kend root oldsz newsz k = Ok (newsz, k') /\
    pt_inv k' l' own' /\ own' ⊆ own /\ pages_of l' own' = pages_of l own /\
    (forall va, user_va va -> uspace (km_mem k') va =
      if decide (page_in (PGROUNDUP newsz) oldsz va) then None else uspace (km_mem k) va) /\
    keeps (pages_of l own) (km_mem k) (km_mem k').
Proof.
  intros I Hn Ho. unfold deallocuvm.
  destruct (PGROUNDUP_user newsz Hn) as [Ha Hb].
  destruct (Z.leb_spec oldsz newsz) as [Hl|Hl].
  { assert (oldsz = newsz) as -> by lia. exists k, l, own. do 4 (split; [done|]).
    split; [|apply keeps_refl]. intros va Hv. rewrite decide_False; [done|]. unfold page_in. lia. }
  destruct (deallocuvm_loop_spec kend root Hend (page_fuel (PGROUNDUP newsz) oldsz)
    (PGROUNDUP newsz) oldsz k l own) as (k' & l' & o' & E & Sh); try done; try lia.
  { unfold user_va in Hn. lia. }
  { apply page_fuel_enough. }
  rewrite (bind_Ok _ _ _ _ _ E). exists k', l', o'. split; [done|].
  split; [apply Sh|]. split; [apply Sh|]. split; [apply Sh|]. split; [|apply Sh].
  intros va Hv. by eapply uspace_shrunk.
Qed.

(** What [allocuvm] leaves behind when it runs out of memory. *)
Definition alloc_failed (a0 newsz : Z) (k : kmem) (l : list Z) (own : gmap Z (nat * Z))
    (r : res (Z * kmem)) : Prop :=
  exists k' l' own', r = Ok (0, k') /\ pt_inv k' l' own' /\
    pages_of l' own' = pages_of l own /\
    (forall va, user_va va -> uspace (km_mem k') va =
      if decide (page_in a0 newsz va) then None else uspace (km_mem k) va) /\
    keeps (pages_of l own) (km_mem k) (km_mem k').

Lemma alloc_failed_trans a0 newsz k l own k1 l1 own1 r :
  pages_of l1 own1 = pages_of l own ->
  (forall va, user_va va -> ~ page_in a0 newsz va ->
     uspace (km_mem k1) va = uspace (km_mem k) va) ->
  keeps (pages_of l own) (km_mem k) (km_mem k1) ->
  alloc_failed a0 newsz k1 l1 own1 r -> alloc_failed a0 newsz k l own r.
Proof.
  intros C U K (k' & l' & o' & E & I & C' & U' & K'). exists k', l', o'.
  split; [done|]. split; [done|]. split; [congruence|]. split; [|rewrite C in K'; by eapply keeps_trans].
  intros va Hv. rewrite U' by done. case_decide; [done|by apply U].
Qed.

Lemma allocuvm_loop_spec fuel a oldsz newsz k l own :
  pt_inv k l own -> user_va oldsz -> oldsz <= newsz <= 140737488355328 ->
  PGROUNDUP oldsz <= a -> a mod 4096 = 0 ->
  newsz <= a + Z.of_nat fuel * 4096 ->
  (forall va, user_va va -> page_in a newsz va -> uspace (km_mem k) va = None) ->
  alloc_failed (PGROUNDUP oldsz) newsz k l own (allocuvm_loop kend fuel root a oldsz newsz k) \/
  exists k' l' own', allocuvm_loop kend fuel root a oldsz newsz k = Ok (newsz, k') /\
    pt_inv k' l' own' /\ pages_of l' own' = pages_of l own /\
    (forall va, user_va va -> uspace (km_mem k') va =
      if decide (page_in a newsz va) then Some (0, 7) else uspace (km_mem k) va) /\
    keeps (pages_of l own) (km_mem k) (km_mem k').
Proof.
  intros I Ho Hn. destruct (PGROUNDUP_user oldsz Ho) as [_ Hr].
  revert a k l own I. induction fuel as [|fuel IH]; intros a k l own I Ha Ha0 Hf Hno;
    cbn [allocuvm_loop]; destruct (Z.ltb_spec a newsz) as [Hab|Hab].
  1: lia.
  1, 3: right; exists k, l, own; do 3 (split; [done|]); split; [|apply keeps_refl];
    intros va Hv; rewrite decide_False; [done|unfold page_in; lia].
  assert (Hv : user_va a) by (unfold user_va in *; lia).
  rewrite (u64_small (a + PGSIZE)) by (unfold PGSIZE, user_va in *; lia).
  change (a + PGSIZE) with (a + 4096).
  destruct l as [|c l].
  { left. rewrite (bind_Ok _ _ _ _ _ (kalloc_nil kend k (pi_kalloc _ _ _ _ _ I))). simpl.
    destruct (deallocuvm_spec k [] own newsz oldsz I Ho Hn) as (k' & l' & o' & E & I' & _ & C & U & K).
    rewrite (bind_Ok _ _ _ _ _ E). exists k', l', o'. done. }
  destruct (alloc_page kend root k c l own I)
    as (k1 & k2 & E1 & E2 & Hc0 & Hc & Hcl & Hco & I2 & _ & U2 & Z2 & K2).
  rewrite (bind_Ok _ _ _ _ _ E1). destruct (Z.eqb_spec c 0); [done|].
  rewrite (bind_Ok _ _ _ _ _ E2).
  destruct (map_page kend root k2 l own a c (Z.lor PTE_W PTE_U))
    as [(k3 & o3 & E3 & I3 & C3 & Hc3 & U3 & K3)|(k3 & l3 & o3 & E3 & I3 & C3 & U3 & K3)]; try done.
  { rewrite U2 by done. apply Hno; [done|]. apply page_in_step; auto. }
  all: assert (K3' : keeps (pages_of (c :: l) own) (km_mem k) (km_mem k3))
    by (eapply keeps_trans; [exact K2|]; eapply keeps_mono; [|exact K3]; unfold pages_of; clear; set_solver).
  - left. rewrite (bind_Ok _ _ _ _ _ E3). simpl.
    destruct (deallocuvm_spec k3 [] o3 newsz oldsz I3 Ho Hn)
      as (k4 & l4 & o4 & E4 & I4 & S4 & C4 & U4 & K4).
    rewrite (bind_Ok _ _ _ _ _ E4).
    assert (Hc4 : c ∉ l4 /\ o4 !! c = None).
    { assert (c ∉ pages_of l4 o4) as H; [|unfold pages_of in H; clear -H; split].
      - rewrite C4, C3. unfold pages_of.
        rewrite elem_of_union, elem_of_list_to_set, elem_of_dom, Hco.
        intros [?|[? ?]]; done.
      - set_solver.
      - apply not_elem_of_dom. set_solver. }
    destruct (kfree_spec kend c k4 l4 ltac:(lia) (pi_kalloc _ _ _ _ _ I4) Hc)
      as (k5 & E5 & Ik5 & M5 & _); [apply Hc4|].
    rewrite (bind_Ok _ _ _ _ _ E5). exists k5, (c :: l4), o4. split; [done|].
    assert (I5 : pt_inv k5 (c :: l4) o4).
    { eapply pt_inv_kfree; eauto; apply Hc4. }
    split; [done|]. split.
    { unfold pages_of in *. rewrite list_to_set_cons, <-(assoc_L (∪)), C4, C3. clear. set_solver. }
    split.
    2:{ eapply keeps_trans; [exact K3'|]. eapply keeps_trans.
        - eapply keeps_mono; [|exact K4]. rewrite C3. unfold pages_of. clear. set_solver.
        - apply (keeps_writes _ c); [apply in_pages_l; left|exact M5]. }
    intros va Hva. transitivity (uspace (km_mem k4) va).
    + eapply uspace_keep; eauto.
      * eapply pteval_frame; eauto. eapply (writes_in_tables kend); eauto.
        -- intros ??. destruct Hc4 as [_ ->]. done.
        -- intros ??? H. by eapply pi_page in H as (? & _).
      * intros d x Hd Hx. apply (writes_in_other kend c _ _ d); try done.
        -- by eapply pi_page in Hd as (? & _).
        -- intros ->. destruct Hc4. congruence.
    + rewrite U4 by done. case_decide; [done|]. by rewrite U3, U2.
  - rewrite (bind_Ok _ _ _ _ _ E3). simpl.
    assert (CC : pages_of l3 o3 = pages_of (c :: l) own).
    { rewrite C3. unfold pages_of. clear. set_solver. }
    assert (UU : forall va, user_va va -> uspace (km_mem k3) va =
      if va / 4096 =? a / 4096 then Some (0, 7) else uspace (km_mem k) va).
    { intros va Hva. rewrite U3, U2, Z2 by (done || apply frame_in). done. }
    destruct (IH (a + 4096) k3 l3 o3) as [Fl|(k' & l' & o' & E & I' & C' & U' & K')];
      try done; try lia.
    + Z.to_euclidean_division_equations; lia.
    + intros va Hva Hin. rewrite UU by done.
      destruct (Z.eqb_spec (va / 4096) (a / 4096)) as [Ev|Nv].
      * unfold page_in in Hin. Z.to_euclidean_division_equations; lia.
      * apply Hno; [done|]. apply page_in_step; auto.
    + left. eapply alloc_failed_trans; [exact CC| |exact K3'|exact Fl]. intros va Hva Hnin. rewrite UU by done.
      destruct (Z.eqb_spec (va / 4096) (a / 4096)) as [Ev|Nv]; [|done].
      exfalso. apply Hnin. unfold page_in in *. Z.to_euclidean_division_equations; lia.
    + right. exists k', l', o'. split; [done|]. split; [done|]. split; [congruence|].
      split; [|rewrite CC in K'; by eapply keeps_trans].
      intros va Hva. rewrite U', UU by done.
      pose proof (page_in_step a newsz va Ha0 Hab) as Hst.
      destruct (Z.eqb_spec (va / 4096) (a / 4096)) as [Ev|Nv];
        repeat case_decide; try done; tauto.
Qed.
End Grow.

(** ** Access to user memory *)
Section Copyout.
Variable kend : Z.
Variable root : Z.
Abbreviation pt_inv := (pt_inv kend root).
Abbreviation uspace := (uspace root).
Abbreviation pteval := (pteval root).

(** A page a user program may access. *)
Definition user_page (m : mem) (va : Z) : bool :=
  present (pteval m va) && negb (Z.land (pteval m va) PTE_U =? 0).

(** [uva2ka] when the tables for [uva] exist. *)
Lemma uva2ka_spec k l own uva :
  pt_inv k l own -> user_va uva -> walk 3 (km_mem k) root uva <> None ->
  uva2ka root uva k =
    Ok (if user_page (km_mem k) uva then frame root (km_mem k) uva else 0, k).
Proof.
  intros I Hv Hw. unfold uva2ka, user_page, frame, Vm.pteval, pv.
  rewrite (bind_Ok _ _ _ _ _ (walkpgdir_noalloc kend root k l own uva I Hv)).
  destruct (walk 3 (km_mem k) root uva) as [a|] eqn:W; [|done].
  eapply walk_Some in W as (t & Ht & ->); [|done|done|lia|by eapply root_at].
  destruct (pi_page _ _ _ _ _ I _ _ _ Ht) as (Htp & _).
  assert (B : 0 <= pfx 0 uva mod 512 < 512) by (apply Z.mod_pos_bound; lia).
  btest; [by apply (entry_nonzero kend) in e; [|done|lia]|].
  unfold kload. rewrite (bind_Ok _ _ k _ k (eq_refl _)). unfold present, PTE_P.
  destruct (Z.land _ 1 =? 0) eqn:E1; cbn [negb andb]; [done|].
  by destruct (Z.land _ PTE_U =? 0).
Qed.

Lemma uva2ka_no_table k l own uva :
  pt_inv k l own -> user_va uva -> walk 3 (km_mem k) root uva = None ->
  uva2ka root uva k = Panic "trap".
Proof.
  intros I Hv Hw. unfold uva2ka.
  rewrite (bind_Ok _ _ _ _ _ (walkpgdir_noalloc kend root k l own uva I Hv)). by rewrite Hw.
Qed.

Lemma present_walk m va : present (pteval m va) = true -> walk 3 m root va <> None.
Proof. unfold Vm.pteval, pv. by destruct (walk 3 m root va). Qed.

Lemma pteval_page k l own va va' :
  pt_inv k l own -> user_va va -> user_va va' -> va' / 4096 = va / 4096 ->
  pteval (km_mem k) va' = pteval (km_mem k) va.
Proof.
  intros I Hv Hv' E. unfold Vm.pteval, pv.
  assert (E1 : pfx 1 va' = pfx 1 va) by (rewrite !(pfx_succ 0), !pfx0_page; by f_equal).
  destruct (walk 3 (km_mem k) root va) as [a|] eqn:W.
  - eapply walk_Some in W as (t & Ht & ->); [|done|done|lia|by eapply root_at].
    rewrite (walk_own kend root k l own t root va' 3); try done.
    + by rewrite !pfx0_page, E.
    + by rewrite E1.
    + by eapply root_at.
  - destruct (walk 3 (km_mem k) root va') as [a|] eqn:W'; [|done].
    eapply walk_Some in W' as (t & Ht & _); [|done|done|lia|by eapply root_at].
    rewrite E1 in Ht. rewrite (walk_own kend root k l own t root va 3) in W; try done.
    by eapply root_at.
Qed.

(** Bytes written into the frame of a present page show up at its addresses,
    and nowhere else. *)
Lemma write_frame k l own va bs :
  pt_inv k l own -> user_va va -> present (pteval (km_mem k) va) = true ->
  va mod 4096 + Z.of_nat (length bs) <= 4096 ->
  let m' := wr_bytes (km_mem k) (frame root (km_mem k) va + va mod 4096) bs in
  pt_inv (set_mem m' k) l own /\
  (forall va', user_va va' -> pteval m' va' = pteval (km_mem k) va') /\
  (forall va', user_va va' -> uspace m' va' =
    if in_range va (Z.of_nat (length bs)) va'
    then Some (u8 (default 0 (bs !! Z.to_nat (va' - va))), PTE_FLAGS (pteval (km_mem k) va))
    else uspace (km_mem k) va') /\
  keeps (dom own) (km_mem k) m'.
Proof.
  intros I Hv Hp Hb m'. pose proof (frame_own kend root k l own va I Hv Hp) as Hf.
  set (c := frame root (km_mem k) va) in *.
  destruct (pi_page _ _ _ _ _ I _ _ _ Hf) as (Hc & Hcl & _).
  pose proof (Z.mod_pos_bound va 4096 ltac:(lia)) as Bm.
  assert (Hw : writes_in c (km_mem k) m').
  { intros x Hx. unfold m'. apply rd_wr_bytes_out. unfold PGSIZE in Hx. lia. }
  destruct (pt_inv_write kend root k l own c m') as [I' P']; try done; [congruence|].
  split; [done|]. split; [done|]. split; [|apply (keeps_writes _ c); [apply elem_of_dom; eauto|exact Hw]]. intros va' Hv'.
  destruct (decide (va' / 4096 = va / 4096)) as [Ev|Nv].
  - pose proof (pteval_page k l own va va' I Hv Hv' Ev) as Ep.
    unfold uspace, frame. rewrite P', Ep, Hp by done. fold (frame root (km_mem k) va). fold c.
    unfold m'. rewrite rd_wr_bytes. fold c.
    assert (Ed : va' - va = va' mod 4096 - va mod 4096) by (Z.to_euclidean_division_equations; lia).
    destruct (in_range_spec (c + va mod 4096) (Z.of_nat (length bs)) (c + va' mod 4096)),
      (in_range_spec va (Z.of_nat (length bs)) va'); try lia; [|done].
    by replace (c + va' mod 4096 - (c + va mod 4096)) with (va' - va) by lia.
  - destruct (in_range_spec va (Z.of_nat (length bs)) va') as [R|R].
    { exfalso. apply Nv. Z.to_euclidean_division_equations; lia. }
    eapply uspace_keep; eauto. intros d x Hd Hx.
    apply (writes_in_other kend c _ _ d); try done.
    + by eapply pi_page in Hd as (? & _).
    + intros ->. rewrite Hf in Hd. congruence.
Qed.

(** Every page of [va .. va + n) is accessible to the user. *)
Definition user_range (m : mem) (va n : Z) : Prop :=
  0 <= va /\ va + n <= 140737488355328 - 4096 /\
  forall x, va <= x < va + n -> user_page m x = true.

Lemma copyout_loop_spec fuel k l own va buf :
  pt_inv k l own -> user_range (km_mem k) va (Z.of_nat (length buf)) ->
  (length buf < fuel)%nat ->
  exists k', copyout_loop fuel root va buf k = Ok (0, k') /\ pt_inv k' l own /\
    (forall va', user_va va' -> uspace (km_mem k') va' =
      if in_range va (Z.of_nat (length buf)) va'
      then Some (u8 (default 0 (buf !! Z.to_nat (va' - va))), PTE_FLAGS (pteval (km_mem k) va'))
      else uspace (km_mem k) va') /\
    (forall va', user_va va' -> pteval (km_mem k') va' = pteval (km_mem k) va') /\
    keeps (dom own) (km_mem k) (km_mem k').
Proof.
  revert k va buf. induction fuel as [|fuel IH]; intros k va buf I (H0 & Hb & Hu) Hf; [lia|].
  destruct buf as [|b buf']; cbn [copyout_loop].
  { exists k. do 2 (split; [done|]). split; [|done]. intros va' Hv'.
    destruct (in_range_spec va (Z.of_nat (length (@nil Z))) va'); [simpl in *; lia|done]. }
  set (buf := b :: buf') in *.
  assert (Hlen : 0 < Z.of_nat (length buf)) by (simpl; lia).
  assert (Hv : user_va va) by (unfold user_va; lia).
  set (va0 := PGROUNDDOWN va).
  assert (E0 : va0 = va - va mod 4096) by apply PGROUNDDOWN_eq.
  pose proof (Z.mod_pos_bound va 4096 ltac:(lia)) as Bm.
  assert (Hv0 : user_va va0) by (unfold user_va in *; rewrite E0; Z.to_euclidean_division_equations; lia).
  assert (Ep0 : pteval (km_mem k) va0 = pteval (km_mem k) va).
  { eapply pteval_page; eauto. rewrite E0. Z.to_euclidean_division_equations; lia. }
  assert (Hup : user_page (km_mem k) va = true) by (apply Hu; lia).
  assert (Hp : present (pteval (km_mem k) va) = true) by (apply andb_true_iff in Hup; tauto).
  assert (Hup0 : user_page (km_mem k) va0 = true) by (unfold user_page in *; by rewrite Ep0).
  assert (Ef : frame root (km_mem k) va0 = frame root (km_mem k) va)
    by (unfold frame; by rewrite Ep0).
  assert (Ew : walk 3 (km_mem k) root va0 <> None) by (apply present_walk; by rewrite Ep0).
  rewrite (bind_Ok _ _ _ _ _ (uva2ka_spec k l own va0 I Hv0 Ew)). rewrite Hup0, Ef.
  destruct (pi_page _ _ _ _ _ I _ _ _ (frame_own kend root k l own va I Hv Hp)) as (Hc & _).
  pose proof (page_ok_nonzero _ _ Hc) as Hc0.
  destruct (Z.eqb_spec (frame root (km_mem k) va) 0) as [|_]; [done|].
  replace (va - va0) with (va mod 4096) by lia.
  set (n := Z.min (PGSIZE - va mod 4096) (Z.of_nat (length buf))).
  assert (Hn : 0 < n <= Z.of_nat (length buf) /\ va mod 4096 + n <= 4096)
    by (unfold n, PGSIZE; lia).
  assert (Ht : Z.of_nat (length (take (Z.to_nat n) buf)) = n) by (rewrite length_take; lia).
  assert (Hdl : Z.of_nat (length (drop (Z.to_nat n) buf)) = Z.of_nat (length buf) - n)
    by (rewrite length_drop; lia).
  destruct (write_frame k l own va (take (Z.to_nat n) buf)) as (I1 & P1 & U1 & L1); try done; [lia|].
  rewrite (bind_Ok _ _ _ tt _ (eq_refl _)).
  rewrite (u64_small (va0 + PGSIZE)) by (unfold PGSIZE, user_va in *; lia).
  set (k1 := set_mem _ k) in *.
  set (m1 := wr_bytes _ _ _) in *. change (km_mem k1) with m1 in *.
  assert (Hnext : drop (Z.to_nat n) buf <> [] -> va0 + PGSIZE = va + n).
  { intros Hne. assert (length (drop (Z.to_nat n) buf) <> 0%nat) by (by destruct (drop _ _)).
    unfold n, PGSIZE in *. lia. }
  assert (U1' : forall va', user_va va' -> uspace m1 va' =
    if in_range va n va'
    then Some (u8 (default 0 (buf !! Z.to_nat (va' - va))), PTE_FLAGS (pteval (km_mem k) va'))
    else uspace (km_mem k) va').
  { intros va' Hv'. rewrite U1, Ht by done.
    destruct (in_range_spec va n va') as [R|R]; [|done].
    rewrite lookup_take_lt by lia. rewrite (pteval_page k l own va va'); try done.
    Z.to_euclidean_division_equations; lia. }
  destruct (decide (drop (Z.to_nat n) buf = [])) as [Ee|Ne].
  { rewrite Ee. destruct fuel; [simpl in Hf; lia|]. cbn [copyout_loop].
    exists k1. do 2 (split; [done|]). split; [|done]. intros va' Hv'. change (km_mem k1) with m1. rewrite (U1' va' Hv').
    rewrite Ee in Hdl. change (Z.of_nat (length (@nil Z))) with 0 in Hdl. by replace (Z.of_nat (length buf)) with n by lia. }
  rewrite (Hnext Ne).
  destruct (IH k1 (va + n) (drop (Z.to_nat n) buf)) as (k' & E & I' & U' & P' & L'); try done.
  { split; [lia|]. split; [lia|]. intros x Hx. change (km_mem k1) with m1.
    unfold user_page. rewrite P1 by (unfold user_va; lia). apply Hu. lia. }
  { lia. }
  exists k'. split; [done|]. split; [done|]. split; [|split].
  2:{ intros va' Hv'. rewrite P' by done. by apply P1. }
  2:{ by eapply keeps_trans. }
  intros va' Hv'. rewrite U', Hdl by done.
  change (km_mem k1) with m1. rewrite P1, U1' by done.
  destruct (in_range_spec (va + n) (Z.of_nat (length buf) - n) va'),
    (in_range_spec va n va'), (in_range_spec va (Z.of_nat (length buf)) va'); try lia; try done.
  rewrite lookup_drop.
  by replace (Z.to_nat n + Z.to_nat (va' - (va + n)))%nat with (Z.to_nat (va' - va)) by lia.
Qed.
End Copyout.

(** A PML4 whose user half is zero. *)
Lemma pt_inv_fresh kend root k l :
  kalloc_inv kend k l -> page_ok kend root -> root ∉ l ->
  (forall x, root <= x < root + 2048 -> rd (km_mem k) x = 0) ->
  pt_inv kend root k l {[root := (4%nat, 0)]} /\
  forall va, user_va va -> uspace root (km_mem k) va = None.
Proof.
  intros Ik Hr Hl Hz.
  assert (Hent : forall i, 0 <= i < 256 -> ent (km_mem k) root i = 0).
  { intros i Hi. apply load64_zero. intros x Hx. apply Hz. unfold entry in Hx. lia. }
  split.
  - split; [done|by rewrite lookup_singleton_eq|..].
    + intros t lv p [<- [= <- <-]]%lookup_singleton_Some. by split.
    + intros t1 t2 x [<- _]%lookup_singleton_Some [<- _]%lookup_singleton_Some. done.
    + intros t lv p i [<- [= <- <-]]%lookup_singleton_Some [Hi Hi'].
      rewrite Hent by (split; [lia|by apply Hi']). done.
    + intros t lv p [<- [= <- <-]]%lookup_singleton_Some Hlv. lia.
    + by intros t p [<- [= <-]]%lookup_singleton_Some.
  - intros va Hv. apply uspace_None. unfold pteval, pv. cbn [walk].
    by rewrite (Hent (pfx 3 va mod 512)) by by apply pfx_3_user.
Qed.

(** ** Histories of an address space

    The kernel changes the image of a process by growing it, shrinking it
    ([growproc]) and copying into it.  A state is the allocator's with the
    process size. *)
Section History.
Variable kend : Z.
Variable root : Z.
Hypothesis Hend : KERNBASE < kend.

Inductive image_step : kmem * Z -> kmem * Z -> Prop :=
  | step_grow k sz newsz r k' :
      sz <= newsz <= 140737488355328 - 4096 ->
      allocuvm kend root sz newsz k = Ok (r, k') ->
      image_step (k, sz) (k', if r =? 0 then sz else r)
  | step_shrink k sz newsz r k' :
      0 <= newsz <= sz ->
      deallocuvm kend root sz newsz k = Ok (r, k') ->
      image_step (k, sz) (k', r)
  | step_copyout k sz va buf k' :
      user_range root (km_mem k) va (Z.of_nat (length buf)) ->
      copyout root va buf k = Ok (0, k') ->
      image_step (k, sz) (k', sz).

(** The pages [P] are split between the free list and the page table, and
    nothing is mapped from the process size on. *)
Definition image_inv (P : gset Z) (st : kmem * Z) : Prop :=
  exists l own, pt_inv kend root st.1 l own /\ pages_of l own = P /\
    0 <= st.2 <= 140737488355328 - 4096 /\
    forall va, user_va va -> PGROUNDUP st.2 <= va / 4096 * 4096 ->
      uspace root (km_mem st.1) va = None.

Lemma allocuvm_spec k l own oldsz newsz :
  pt_inv kend root k l own -> user_va oldsz -> oldsz <= newsz <= 140737488355328 ->
  (forall va, user_va va -> page_in (PGROUNDUP oldsz) newsz va -> uspace root (km_mem k) va = None) ->
  exists r k' l' own', allocuvm kend root oldsz newsz k = Ok (r, k') /\
    pt_inv kend root k' l' own' /\ pages_of l' own' = pages_of l own /\
    ((r = 0 /\ forall va, user_va va -> uspace root (km_mem k') va = uspace root (km_mem k) va) \/
     (r = newsz /\ forall va, user_va va -> uspace root (km_mem k') va =
        if decide (page_in (PGROUNDUP oldsz) newsz va) then Some (0, 7)
        else uspace root (km_mem k) va)) /\
    keeps (pages_of l own) (km_mem k) (km_mem k').
Proof.
  intros I Ho Hn Hno. unfold allocuvm. destruct (PGROUNDUP_user oldsz Ho) as [Ha Hb].
  destruct (Z.leb_spec KERNBASE newsz) as [H|_]; [unfold KERNBASE in H; lia|].
  destruct (Z.ltb_spec newsz oldsz) as [H|_]; [lia|].
  destruct (allocuvm_loop_spec kend root Hend (page_fuel (PGROUNDUP oldsz) newsz)
    (PGROUNDUP oldsz) oldsz newsz k l own)
    as [(k' & l' & o' & E & I' & C' & U' & K')|(k' & l' & o' & E & I' & C' & U' & K')]; try done.
  - apply page_fuel_enough.
  - exists 0, k', l', o'. do 3 (split; [done|]). split; [|done]. left. split; [done|]. intros va Hv.
    rewrite U' by done. case_decide; [|done]. by rewrite Hno.
  - exists newsz, k', l', o'. do 3 (split; [done|]). split; [|done]. by right.
Qed.

Lemma image_step_inv P st st' : image_inv P st -> image_step st st' -> image_inv P st'.
Proof.
  intros (l & own & I & C & B & Hno) Hs.
  destruct Hs as [k sz newsz r k' Hn E|k sz newsz r k' Hn E|k sz va buf k' Hr E]; simpl in *.
  - destruct (allocuvm_spec k l own sz newsz) as (r' & k1 & l1 & o1 & E1 & I1 & C1 & H1 & _);
      try done; [unfold user_va; lia|lia| |].
    { intros va Hv [Hp _]. by apply Hno. }
    rewrite E in E1. injection E1 as <- <-. exists l1, o1. simpl.
    split; [done|]. split; [congruence|].
    destruct (PGROUNDUP_user sz) as [_ Hr1]; [unfold user_va; lia|].
    destruct (PGROUNDUP_user newsz) as [_ Hr2]; [unfold user_va; lia|].
    destruct H1 as [[-> U]|[-> U]]; simpl.
    + split; [lia|]. intros va Hv Hp. rewrite U by done. by apply Hno.
    + destruct (Z.eqb_spec newsz 0) as [->|N0].
      * assert (sz = 0) as -> by lia. split; [lia|]. intros va Hv Hp.
        rewrite U by done. rewrite decide_False by (unfold page_in; lia). by apply Hno.
      * split; [lia|]. intros va Hv Hp. rewrite U by done.
        rewrite decide_False by (unfold page_in; lia). apply Hno; [done|].
        etrans; [|exact Hp]. destruct (PGROUNDUP_user sz) as [M1 _]; [unfold user_va; lia|].
        destruct (PGROUNDUP_user newsz) as [M2 _]; [unfold user_va; lia|].
        Z.to_euclidean_division_equations; lia.
  - destruct (deallocuvm_spec kend root Hend k l own sz newsz)
      as (k1 & l1 & o1 & E1 & I1 & _ & C1 & U1 & _); try done; [unfold user_va; lia|lia|].
    rewrite E in E1. injection E1 as <- <-. exists l1, o1. simpl.
    split; [done|]. split; [congruence|]. split; [lia|]. intros va Hv Hp.
    rewrite U1 by done. case_decide as D; [done|]. apply Hno; [done|].
    destruct (PGROUNDUP_user sz) as [M1 B1]; [unfold user_va; lia|].
    assert (sz <= va / 4096 * 4096) by (unfold page_in in D; lia).
    Z.to_euclidean_division_equations; lia.
  - destruct (copyout_loop_spec kend root (S (length buf)) k l own va buf)
      as (k1 & E1 & I1 & U1 & _); try done; [lia|].
    unfold copyout in E. rewrite E in E1. injection E1 as <-. exists l, own. simpl.
    do 3 (split; [done|]). intros va' Hv Hp. rewrite U1 by done.
    destruct (in_range_spec va (Z.of_nat (length buf)) va') as [R|_]; [|by apply Hno].
    destruct Hr as (_ & _ & Hu). specialize (Hu va' R).
    apply andb_true_iff in Hu as [Hu _]. specialize (Hno va' Hv Hp).
    apply uspace_None in Hno. congruence.
Qed.

Lemma image_steps_inv P st st' : image_inv P st -> rtc image_step st st' -> image_inv P st'.
Proof. intros I Hs. induction Hs; eauto using image_step_inv. Qed.

(** A page table whose only page is a zeroed PML4. *)
Lemma pt_inv_empty k l :
  kalloc_inv kend k l -> page_ok kend root -> root ∉ l ->
  (forall x, root <= x < root + PGSIZE -> rd (km_mem k) x = 0) ->
  pt_inv kend root k l {[root := (4%nat, 0)]} /\
  forall va, uspace root (km_mem k) va = None.
Proof.
  intros Ik Hr Hl Hz. split.
  - apply pt_inv_fresh; try done. intros x Hx. apply Hz. unfold PGSIZE. lia.
  - intros va. apply uspace_None. unfold pteval. by rewrite pv_zero_table.
Qed.
End History.

(** ** Theorems *)

(** Growing a process.  [allocuvm] always returns; either it gives the new
    size, and then exactly the pages from the old size to the new one appear,
    zero-filled, present, writable and accessible to the user, or it gives 0,
    and then every address shows what it showed before.  In both cases each
    page is still either free or in the page table: a failing call loses no
    memory; and no other page is written. *)
Theorem allocuvm_correct (kend root oldsz newsz : Z) (k : kmem) (l : list Z)
    (own : gmap Z (nat * Z)) :
  KERNBASE < kend -> pt_inv kend root k l own ->
  user_va oldsz -> oldsz <= newsz <= 140737488355328 ->
  (forall va, user_va va -> page_in (PGROUNDUP oldsz) newsz va ->
     uspace root (km_mem k) va = None) ->
  exists r k' l' own', allocuvm kend root oldsz newsz k = Ok (r, k') /\
    pt_inv kend root k' l' own' /\ pages_of l' own' = pages_of l own /\
    ((r = 0 /\ forall va, user_va va -> uspace root (km_mem k') va = uspace root (km_mem k) va) \/
     (r = newsz /\ forall va, user_va va -> uspace root (km_mem k') va =
        if decide (page_in (PGROUNDUP oldsz) newsz va)
        then Some (0, Z.lor (Z.lor PTE_W PTE_U) PTE_P)
        else uspace root (km_mem k) va)) /\
    keeps (pages_of l own) (km_mem k) (km_mem k').
Proof. intros Hk. by apply allocuvm_spec. Qed.

(** Shrinking a process.  [deallocuvm] always returns the new size, takes
    away exactly the pages from the new size to the old one, leaves every other
    address as it was, and gives the pages it takes back to the allocator. *)
Theorem deallocuvm_correct (kend root oldsz newsz : Z) (k : kmem) (l : list Z)
    (own : gmap Z (nat * Z)) :
  KERNBASE < kend -> pt_inv kend root k l own ->
  user_va newsz -> newsz <= oldsz <= 140737488355328 ->
  exists k' l' own', deallocuvm kend root oldsz newsz k = Ok (newsz, k') /\
    pt_inv kend root k' l' own' /\ own' ⊆ own /\ pages_of l' own' = pages_of l own /\
    (forall va, user_va va -> uspace root (km_mem k') va =
      if decide (page_in (PGROUNDUP newsz) oldsz va) then None
      else uspace root (km_mem k) va) /\
    keeps (pages_of l own) (km_mem k) (km_mem k').
Proof. intros Hk. by apply deallocuvm_spec. Qed.

(** [copyout] to a range of pages the user may access, of any alignment
    and length, puts the buffer at the addresses asked for, leaves every other
    user address alone, and keeps the page tables and the free list intact. *)
Theorem copyout_correct (kend root va : Z) (buf : list Z) (k : kmem) (l : list Z)
    (own : gmap Z (nat * Z)) :
  pt_inv kend root k l own ->
  user_range root (km_mem k) va (Z.of_nat (length buf)) ->
  exists k', copyout root va buf k = Ok (0, k') /\ pt_inv kend root k' l own /\
    forall va', user_va va' -> uspace root (km_mem k') va' =
      if in_range va (Z.of_nat (length buf)) va'
      then Some (u8 (default 0 (buf !! Z.to_nat (va' - va))),
                 PTE_FLAGS (pteval root (km_mem k) va'))
      else uspace root (km_mem k) va'.
Proof.
  intros I Hr. destruct (copyout_loop_spec kend root (S (length buf)) k l own va buf) as (k' & E & I' & U & _); try done; [lia|].
  by exists k'.
Qed.

(** Isolation.  From an empty page table, after any history of growing,
    shrinking and copying out, with successes and failures, two addresses of
    different pages never share a physical frame, no mapped frame is free, none
    is a page of the page table itself, and no page was lost or made up. *)
Theorem image_isolation (kend root : Z) (k0 k : kmem) (l0 : list Z) (sz : Z) :
  KERNBASE < kend -> kalloc_inv kend k0 l0 -> page_ok kend root -> root ∉ l0 ->
  (forall x, root <= x < root + PGSIZE -> rd (km_mem k0) x = 0) ->
  rtc (image_step kend root) (k0, 0) (k, sz) ->
  exists l own, pt_inv kend root k l own /\
    list_to_set l ∪ dom own =@{gset Z} list_to_set (root :: l0) /\
    forall va, user_va va -> present (pteval root (km_mem k) va) = true ->
      frame root (km_mem k) va ∉ l /\
      (forall lv p, own !! frame root (km_mem k) va <> Some (S lv, p)) /\
      forall va', user_va va' -> present (pteval root (km_mem k) va') = true ->
        frame root (km_mem k) va' = frame root (km_mem k) va -> va' / 4096 = va / 4096.
Proof.
  intros Hk Ik Hr Hl Hz Hs. destruct (pt_inv_empty kend root k0 l0 Ik Hr Hl Hz) as [I0 U0].
  assert (J0 : image_inv kend root (list_to_set (root :: l0)) (k0, 0)).
  { exists l0, {[root := (4%nat, 0)]}. split; [done|]. split; [|split; [simpl; lia|done]].
    unfold pages_of. rewrite dom_singleton_L. clear. set_solver. }
  destruct (image_steps_inv kend root Hk _ _ _ J0 Hs) as (l & own & I & C & _). cbn [fst] in I.
  exists l, own. split; [done|]. split; [done|]. intros va Hv Hp.
  pose proof (frame_own _ _ _ _ _ _ I Hv Hp) as Hf.
  split; [by eapply pi_page in Hf as (_ & ? & _)|]. split; [by rewrite Hf|].
  intros va' Hv' Hp' Ef. pose proof (frame_own _ _ _ _ _ _ I Hv' Hp') as Hf'. congruence.
Qed.

(** [uva2ka] follows the result of [walkpgdir] without testing it: where a
    table for the address is missing the kernel faults instead of returning 0. *)
Theorem uva2ka_unmapped_faults (kend root uva : Z) (k : kmem) (l : list Z)
    (own : gmap Z (nat * Z)) :
  pt_inv kend root k l own -> user_va uva ->
  (uva2ka root uva k = Panic "trap" <-> walk 3 (km_mem k) root uva = None) /\
  (walk 3 (km_mem k) root uva <> None -> uva2ka root uva k =
     Ok (if user_page root (km_mem k) uva then frame root (km_mem k) uva else 0, k)).
Proof.
  intros I Hv. split; [|by eapply uva2ka_spec]. split.
  - intros H. destruct (walk 3 (km_mem k) root uva) eqn:W; [|done].
    rewrite (uva2ka_spec kend root k l own) in H; try done. by rewrite W.
  - by eapply uva2ka_no_table.
Qed.

(** ** Witnesses *)

(** Six free pages above a zeroed root. *)
Definition root0 : Z := kend0.
Definition page_at (i : Z) : Z := kend0 + 4096 * i.
Definition free6 : list Z := page_at <$> [6; 5; 4; 3; 2; 1].
Definition mem6 : mem :=
  foldr (fun i m => store64 m (page_at i) (if i =? 1 then 0 else page_at (i - 1))) ∅
    [6; 5; 4; 3; 2; 1].
Definition kmem6 : kmem := Kmem mem6 (page_at 6) 0.

Lemma page_at_ok i : 0 <= i <= 100 -> page_ok kend0 (page_at i).
Proof.
  intros Hi. unfold page_at, kend0. split; [|unfold KERNBASE, PHYSTOP; lia].
  unfold PGSIZE, KERNBASE.
  replace (18446603336221196288 + 1048576 + 4096 * i)
    with (0 + (4503565267632128 + 256 + i) * 4096) by lia. by rewrite Z.mod_add.
Qed.

Lemma kmem6_inv : kalloc_inv kend0 kmem6 free6.
Proof.
  split.
  - vm_compute. repeat split.
  - apply (bool_decide_eq_true_1 (NoDup free6)). vm_compute. done.
  - repeat constructor; apply page_at_ok; lia.
Qed.

Lemma root0_notin : root0 ∉ free6.
Proof. apply (bool_decide_eq_true_1 (root0 ∉ free6)). vm_compute. done. Qed.

Lemma root0_zero x : root0 <= x < root0 + PGSIZE -> rd mem6 x = 0.
Proof.
  intros Hx. unfold mem6. simpl. unfold root0, PGSIZE in Hx.
  rewrite !rd_store64_out by (unfold page_at; lia). done.
Qed.

Lemma pt0 : pt_inv kend0 root0 kmem6 free6 {[root0 := (4%nat, 0)]} /\
  forall va, uspace root0 (km_mem kmem6) va = None.
Proof.
  apply pt_inv_empty; [apply kmem6_inv|apply kend0_page_ok|apply root0_notin|apply root0_zero].
Qed.

Lemma kend0_above : KERNBASE < kend0.
Proof. unfold kend0. lia. Qed.

Lemma allocuvm_correct_witness :
  exists r k' l' own', allocuvm kend0 root0 0 5000 kmem6 = Ok (r, k') /\
    pt_inv kend0 root0 k' l' own' /\
    pages_of l' own' = pages_of free6 {[root0 := (4%nat, 0)]} /\
    ((r = 0 /\ forall va, user_va va ->
        uspace root0 (km_mem k') va = uspace root0 (km_mem kmem6) va) \/
     (r = 5000 /\ forall va, user_va va -> uspace root0 (km_mem k') va =
        if decide (page_in (PGROUNDUP 0) 5000 va)
        then Some (0, Z.lor (Z.lor PTE_W PTE_U) PTE_P)
        else uspace root0 (km_mem kmem6) va)) /\
    keeps (pages_of free6 {[root0 := (4%nat, 0)]}) (km_mem kmem6) (km_mem k').
Proof.
  apply (allocuvm_correct kend0 root0 0 5000 kmem6 free6 {[root0 := (4%nat, 0)]}).
  - apply kend0_above.
  - apply pt0.
  - split; reflexivity || discriminate.
  - split; discriminate.
  - intros va _ _. apply pt0.
Defined.

(** The branch taken at this input is the successful one. *)
Lemma grown6_ok : exists k', allocuvm kend0 root0 0 5000 kmem6 = Ok (5000, k').
Proof.
  assert (H : (if allocuvm kend0 root0 0 5000 kmem6 is Ok (r, _) then r =? 5000 else false) = true) by (vm_compute; reflexivity).
  destruct (allocuvm kend0 root0 0 5000 kmem6) as [[r k]| | |]; [|done..]. apply Z.eqb_eq in H as ->. by exists k.
Qed.

(** Pages with the flags [allocuvm] gives are accessible to the user. *)
Lemma flags7_user m va b :
  uspace root0 m va = Some (b, 7) -> user_page root0 m va = true.
Proof.
  unfold uspace, user_page. destruct (present (pteval root0 m va)); [|done].
  intros [= _ H]. rewrite PTE_FLAGS_eq in H. apply negb_true_iff, Z.eqb_neq. intros E0.
  assert (T : Z.testbit (pteval root0 m va) 2 = false).
  { assert (Z.testbit (Z.land (pteval root0 m va) PTE_U) 2 = false) as Ht by by rewrite E0.
    rewrite Z.land_spec in Ht. by rewrite andb_true_r in Ht. }
  rewrite <-(Z.mod_pow2_bits_low _ 12) in T by lia. change (2 ^ 12) with 4096 in T.
  by rewrite H in T.
Qed.

Lemma grown_range m a n :
  (forall va, user_va va -> uspace root0 m va =
     if decide (page_in (PGROUNDUP 0) 5000 va) then Some (0, 7) else uspace root0 mem6 va) ->
  0 <= a -> a + n <= 8192 -> user_range root0 m a n.
Proof.
  intros H Ha Hn. split; [lia|]. split; [lia|]. intros x Hx.
  eapply flags7_user. rewrite H by (unfold user_va; lia). rewrite decide_True; [done|].
  unfold page_in. change (PGROUNDUP 0) with 0. Z.to_euclidean_division_equations; lia.
Qed.

Lemma grown6_image :
  exists k l own, allocuvm kend0 root0 0 5000 kmem6 = Ok (5000, k) /\ pt_inv kend0 root0 k l own /\
    forall a n, 0 <= a -> a + n <= 8192 -> user_range root0 (km_mem k) a n.
Proof.
  destruct (allocuvm_spec kend0 root0 kend0_above kmem6 free6 _ 0 5000 (proj1 pt0))
    as (r & k' & l' & o' & E & I' & _ & H & _); [split; lia|lia|intros; apply pt0|].
  destruct grown6_ok as [k Ek]. pose proof (eq_trans (eq_sym Ek) E) as E2. clear E.
  injection E2 as <- <-. exists k, l', o'. split; [exact Ek|]. clear Ek. split; [exact I'|].
  destruct H as [[? _]|[_ H]]; [lia|]. intros a n. by apply grown_range.
Qed.

Lemma deallocuvm_correct_witness :
  exists k' l' own', deallocuvm kend0 root0 5000 100 kmem6 = Ok (100, k') /\
    pt_inv kend0 root0 k' l' own' /\ own' ⊆ {[root0 := (4%nat, 0)]} /\
    pages_of l' own' = pages_of free6 {[root0 := (4%nat, 0)]} /\
    (forall va, user_va va -> uspace root0 (km_mem k') va =
      if decide (page_in (PGROUNDUP 100) 5000 va) then None
      else uspace root0 (km_mem kmem6) va) /\
    keeps (pages_of free6 {[root0 := (4%nat, 0)]}) (km_mem kmem6) (km_mem k').
Proof.
  apply (deallocuvm_correct kend0 root0 5000 100 kmem6 free6 {[root0 := (4%nat, 0)]}).
  - apply kend0_above.
  - apply pt0.
  - split; reflexivity || discriminate.
  - split; discriminate.
Defined.

Lemma copyout_correct_witness :
  exists k, allocuvm kend0 root0 0 5000 kmem6 = Ok (5000, k) /\
  exists k', copyout root0 4090 [1; 2; 3; 4; 5; 6; 7; 8] k = Ok (0, k') /\
    forall va', user_va va' -> uspace root0 (km_mem k') va' =
      if in_range 4090 8 va'
      then Some (u8 (default 0 ([1; 2; 3; 4; 5; 6; 7; 8] !! Z.to_nat (va' - 4090))),
                 PTE_FLAGS (pteval root0 (km_mem k) va'))
      else uspace root0 (km_mem k) va'.
Proof.
  destruct grown6_image as (k & l & own & E & I & Hr). exists k. split; [exact E|]. clear E.
  destruct (copyout_correct kend0 root0 4090 [1; 2; 3; 4; 5; 6; 7; 8] k l own I (Hr 4090 8 ltac:(lia) ltac:(lia)))
    as (k' & E' & _ & U). exists k'. split; [exact E'|exact U].
Defined.

Lemma grow_history r k :
  allocuvm kend0 root0 0 5000 kmem6 = Ok (r, k) -> (r =? 0) = false ->
  rtc (image_step kend0 root0) (kmem6, 0) (k, r).
Proof.
  intros E Hr. eapply rtc_l; [|apply rtc_refl].
  pose proof (step_grow kend0 root0 kmem6 0 5000 r k) as H. rewrite Hr in H.
  apply H; [clear; lia|exact E].
Qed.

Lemma grown6_history :
  exists k, rtc (image_step kend0 root0) (kmem6, 0) (k, 5000).
Proof.
  destruct grown6_ok as [k E]. exists k. exact (grow_history 5000 k E eq_refl).
Qed.

Lemma image_isolation_witness :
  exists k l own, rtc (image_step kend0 root0) (kmem6, 0) (k, 5000) /\
    pt_inv kend0 root0 k l own /\
    list_to_set l ∪ dom own =@{gset Z} list_to_set (root0 :: free6).
Proof.
  destruct grown6_history as [k E]. exists k.
  destruct (image_isolation kend0 root0 kmem6 k free6 5000) as (l & own & I & C & _).
  - apply kend0_above.
  - apply kmem6_inv.
  - apply kend0_page_ok.
  - apply root0_notin.
  - apply root0_zero.
  - exact E.
  - exists l, own. split; [exact E|]. split; assumption.
Defined.

Lemma uva2ka_unmapped_faults_witness : uva2ka root0 4096 kmem6 = Panic "trap".
Proof.
  destruct pt0 as [I _].
  apply (uva2ka_unmapped_faults kend0 root0 4096 kmem6 free6 {[root0 := (4%nat, 0)]}).
  - exact I.
  - split; reflexivity || discriminate.
  - vm_compute. reflexivity.
Defined.
