(* ===== verification/Space.v ===== *)
(** * Whole address spaces: setupkvm, freevm and copyuvm

    Making, copying and freeing the page table of a process, with the page tables
    of other processes in the same memory. *)
From S2P Require Import Prelude Memory Strings Kalloc Vm Uvm.

(** ** freevm *)

(** The part of an address that selects the page [d] levels up. *)
Definition pre (d : nat) (p : Z) : Z := Nat.iter d (fun p => p / 512) p.

Lemma pre_succ d p : pre (S d) p = pre d p / 512.
Proof. done. Qed.
Lemma pre_succ_r d p : pre (S d) p = pre d (p / 512).
Proof. unfold pre. by rewrite Nat.iter_succ_r. Qed.

Section Free.
Variable kend : Z.
Variable root : Z.
Hypothesis Hend : KERNBASE <= kend.
Context (k0 : kmem) (l0 : list Z) (own : gmap Z (nat * Z)).
Hypothesis I : pt_inv kend root k0 l0 own.
Notation m0 := (km_mem k0).

(** The loops of [freevm] below the page [t] of level [lv]. *)
Fixpoint free_lv (lv : nat) (t : Z) : M kmem unit :=
  match lv with
  | O => kfree kend t
  | S lv => do! free_entries 512 0 t (free_lv lv) in kfree kend t
  end.

(** The pages at and below the page of level [lv] for [q]. *)
Definition below (lv : nat) (q c : Z) : Prop :=
  exists lv' p, own !! c = Some (lv', p) /\ (lv' <= lv)%nat /\ pre (lv - lv') p = q.

Lemma ancestor c lv' p d :
  own !! c = Some (lv', p) -> (lv' + d <= 4)%nat -> exists t, own !! t = Some ((lv' + d)%nat, pre d p).
Proof.
  induction d as [|d IH]; intros Hc Hd; [exists c; by rewrite Nat.add_0_r|].
  destruct IH as [t Ht]; [done|lia|]. destruct (pi_up _ _ _ _ _ I _ _ _ Ht) as (t' & Ht' & _); [lia|].
  exists t'. by rewrite Nat.add_succ_r, pre_succ.
Qed.

Lemma below_page lv q c : below lv q c -> page_ok kend c.
Proof. intros (lv' & p & Hc & _). by eapply pi_page in Hc as (? & _). Qed.

Lemma below_unique lv q1 q2 c : below lv q1 c -> below lv q2 c -> q1 = q2.
Proof. intros (a & p & Hc & _ & <-) (a' & p' & Hc' & _ & <-). rewrite Hc in Hc'. by injection Hc' as -> ->. Qed.

(** The page itself, and what is below its entries. *)
Lemma below_succ lv q t c :
  own !! t = Some (S lv, q) ->
  below (S lv) q c <-> c = t \/ exists j, 0 <= j < 512 /\ below lv (q * 512 + j) c.
Proof.
  intros Ht. split.
  - intros (lv' & p & Hc & Hl & Hp). destruct (decide (lv' = S lv)) as [->|N].
    + left. rewrite Nat.sub_diag in Hp. simpl in Hp. subst p. by eapply pi_inj.
    + right. replace (S lv - lv')%nat with (S (lv - lv')) in Hp by lia. rewrite pre_succ in Hp.
      exists (pre (lv - lv') p mod 512). split; [apply Z.mod_pos_bound; lia|].
      exists lv', p. split; [done|]. split; [lia|]. subst q. pose proof (Z.div_mod (pre (lv - lv') p) 512). lia.
  - intros [->|(j & Hj & lv' & p & Hc & Hl & Hp)].
    + exists (S lv), q. split; [done|]. split; [done|]. by rewrite Nat.sub_diag.
    + exists lv', p. split; [done|]. split; [lia|]. replace (S lv - lv')%nat with (S (lv - lv')) by lia.
      rewrite pre_succ, Hp. rewrite Z.div_add_l by lia. rewrite (Z.div_small j 512) by done. lia.
Qed.

Lemma below_self lv q t : own !! t = Some (lv, q) -> below lv q t.
Proof. intros Ht. exists lv, q. split; [done|]. split; [done|]. by rewrite Nat.sub_diag. Qed.

(** Nothing is below an entry that is not present. *)
Lemma below_absent lv q t j c :
  own !! t = Some (S lv, q) -> (S lv <= 4)%nat -> 0 <= j < 512 ->
  present (ent m0 t j) = false -> ~ below lv (q * 512 + j) c.
Proof.
  intros Ht Hlv Hj Hp (lv' & p & Hc & Hl & Hq).
  destruct (ancestor c lv' p (lv - lv') Hc) as [t' Ht']; [lia|]. rewrite Hq in Ht'.
  replace (lv' + (lv - lv'))%nat with lv in Ht' by lia.
  destruct (pi_up _ _ _ _ _ I _ _ _ Ht') as (t2 & Ht2 & _ & Hp2 & _); [lia|].
  rewrite Z.div_add_l, (Z.div_small j 512), Z.add_0_r in Ht2 by lia.
  rewrite (pi_inj _ _ _ _ _ I _ _ _ Ht2 Ht) in Hp2.
  replace ((q * 512 + j) mod 512) with j in Hp2; [congruence|].
  rewrite Z.add_comm, Z.mod_add by lia. symmetry. by apply Z.mod_small.
Qed.

(** What a loop leaves: the pages [Q] are free, the others are as they were. *)
Definition freed (Q : Z -> Prop) (k : kmem) (l : list Z) (k' : kmem) (l' : list Z) : Prop :=
  kalloc_inv kend k' l' /\ (forall c, c ∈ l' <-> c ∈ l \/ Q c) /\
  (forall c x, page_ok kend c -> ~ Q c -> c <= x < c + PGSIZE -> rd (km_mem k') x = rd (km_mem k) x) /\
  keeps (dom own) (km_mem k) (km_mem k').

Lemma freed_trans Q1 Q2 Q k l k1 l1 k2 l2 :
  freed Q1 k l k1 l1 -> freed Q2 k1 l1 k2 l2 -> (forall c, Q c <-> Q1 c \/ Q2 c) -> freed Q k l k2 l2.
Proof.
  intros (_ & M1 & A1 & B1) (K2 & M2 & A2 & B2) HQ. split; [done|]. split; [|split].
  - intros c. rewrite M2, M1, HQ. tauto.
  - intros c x Hc Hn Hx. rewrite (A2 c x), (A1 c x); try done; intros H; apply Hn, HQ; tauto.
  - by eapply keeps_trans.
Qed.

Lemma kfree_freed t x k l :
  own !! t = Some x -> kalloc_inv kend k l -> t ∉ l ->
  exists k', kfree kend t k = Ok (tt, k') /\ freed (fun c => c = t) k l k' (t :: l).
Proof.
  intros Ht Ik Hl. destruct x as [lv p]. destruct (pi_page _ _ _ _ _ I _ _ _ Ht) as (Hp & _).
  destruct (kfree_spec kend t k l Hend Ik Hp Hl) as (k' & E & Ik' & W & _).
  exists k'. split; [done|]. split; [done|]. split; [|split].
  - intros c. rewrite elem_of_cons. tauto.
  - intros c y Hc Hn Hy. by apply (writes_in_other kend t _ _ c).
  - apply (keeps_writes _ t); [apply elem_of_dom; eauto|exact W].
Qed.
(** The state of the pages [Q] before they are freed. *)
Definition intact (Q : Z -> Prop) (k : kmem) (l : list Z) : Prop :=
  forall c, Q c -> c ∉ l /\ forall x, c <= x < c + PGSIZE -> rd (km_mem k) x = rd m0 x.

Lemma intact_freed (Q1 Q : Z -> Prop) k l k1 l1 :
  intact Q k l -> freed Q1 k l k1 l1 -> (forall c, Q c -> page_ok kend c /\ ~ Q1 c) -> intact Q k1 l1.
Proof.
  intros H (_ & M1 & A1 & _) HQ c Hc. destruct (H c Hc) as [Hl Hx]. destruct (HQ c Hc) as [Hp Hn]. split.
  - rewrite M1. tauto.
  - intros x Hxx. rewrite (A1 c x) by done. by apply Hx.
Qed.

Definition free_ok (lv : nat) (free_one : Z -> M kmem unit) : Prop :=
  forall t q k l, own !! t = Some (lv, q) -> kalloc_inv kend k l -> intact (below lv q) k l ->
    exists k' l', free_one t k = Ok (tt, k') /\ freed (below lv q) k l k' l'.

(** Entries [i .. i + n) of the table [t]. *)
Definition below_entries (lv : nat) (q i n c : Z) : Prop :=
  exists j, i <= j < i + n /\ below lv (q * 512 + j) c.

Lemma freed_refl Q k l : kalloc_inv kend k l -> (forall c, ~ Q c) -> freed Q k l k l.
Proof.
  intros Ik HQ. split; [done|]. split; [|split; [done|apply keeps_refl]].
  intros c. pose proof (HQ c). tauto.
Qed.

Lemma not_below_self lv q t j : own !! t = Some (S lv, q) -> ~ below lv (q * 512 + j) t.
Proof. intros Ht (lv' & p & Hc & Hl & _). rewrite Ht in Hc. injection Hc as <- <-. lia. Qed.

Lemma free_entries_spec lv free_one t q n i k l :
  (lv <= 3)%nat -> free_ok lv free_one -> own !! t = Some (S lv, q) ->
  0 <= i -> (forall j, i <= j < i + Z.of_nat n -> slot_ok (S lv) j) ->
  kalloc_inv kend k l -> intact (fun c => c = t \/ below_entries lv q i (Z.of_nat n) c) k l ->
  exists k' l', free_entries n i t free_one k = Ok (tt, k') /\
    freed (below_entries lv q i (Z.of_nat n)) k l k' l'.
Proof.
  intros Hlv Hone Ht. revert i k l. induction n as [|n IH]; intros i k l Hi Hs Ik Hin.
  { exists k, l. split; [done|]. apply freed_refl; [done|]. intros c (j & Hj & _). lia. }
  assert (Hi' : slot_ok (S lv) i) by (apply Hs; lia).
  destruct (pi_page _ _ _ _ _ I _ _ _ Ht) as (Htp & _).
  assert (He : ent (km_mem k) t i = ent m0 t i).
  { apply ent_ext; [apply Hi'|]. apply (Hin t). by left. }
  cbn [free_entries]. unfold kload. rewrite (bind_Ok _ _ k (ent (km_mem k) t i) k) by done. rewrite He.
  assert (H1 : exists k1 l1,
    (if present (ent m0 t i) then free_one (P2V (PTE_ADDR (ent m0 t i))) else ret tt) k = Ok (tt, k1) /\
    freed (below lv (q * 512 + i)) k l k1 l1).
  { destruct (present (ent m0 t i)) eqn:Hp.
    - apply Hone; [by eapply pi_down|done|]. intros c Hc. apply Hin. right. exists i. split; [lia|done].
    - exists k, l. split; [done|]. apply freed_refl; [done|]. intros c. eapply below_absent; eauto; [lia|apply Hi']. }
  destruct H1 as (k1 & l1 & E1 & F1). rewrite (bind_Ok _ _ _ _ _ E1).
  destruct (IH (i + 1) k1 l1) as (k2 & l2 & E2 & F2); [lia| |apply F1| |].
  - intros j Hj. apply Hs. lia.
  - eapply (intact_freed (below lv (q * 512 + i))); [|exact F1|].
    + intros c [->|(j & Hj & Hc)]; apply Hin; [by left|right; exists j; split; [lia|done]].
    + intros c [->|(j & Hj & Hc)]; [split; [done|by apply not_below_self]|].
      split; [by eapply below_page|]. intros Hc'. pose proof (below_unique _ _ _ _ Hc Hc'). lia.
  - exists k2, l2. split; [done|]. eapply freed_trans; [exact F1|exact F2|]. intros c. split.
    + intros (j & Hj & Hc). destruct (decide (j = i)) as [->|]; [by left|right; exists j; split; [lia|done]].
    + intros [Hc|(j & Hj & Hc)]; [exists i|exists j]; (split; [lia|done]).
Qed.

(** The table after its entries. *)
Lemma free_table lv free_one t q n :
  (lv <= 3)%nat -> free_ok lv free_one -> own !! t = Some (S lv, q) ->
  (forall j, slot_ok (S lv) j <-> 0 <= j < Z.of_nat n) ->
  forall k l, kalloc_inv kend k l -> intact (below (S lv) q) k l ->
  exists k' l', (do! free_entries n 0 t free_one in kfree kend t) k = Ok (tt, k') /\
    freed (below (S lv) q) k l k' l'.
Proof.
  intros Hlv Hone Ht Hn k l Ik Hin.
  assert (Hb : forall c, below (S lv) q c <-> below_entries lv q 0 (Z.of_nat n) c \/ c = t).
  { intros c. rewrite (below_succ lv q t c Ht). split.
    - intros [->|(j & Hj & Hc)]; [by right|left]. exists j. split; [|done].
      apply Hn. split; [done|]. intros Elv. destruct Hc as (lv' & p & Hc & Hl & Hp).
      destruct (ancestor c lv' p (lv - lv') Hc) as [t' Ht']; [lia|]. rewrite Hp in Ht'.
      replace (lv' + (lv - lv'))%nat with lv in Ht' by lia.
      destruct (pi_up _ _ _ _ _ I _ _ _ Ht') as (t2 & _ & [_ Hs] & _); [lia|].
      rewrite Z.add_comm, Z.mod_add, Z.mod_small in Hs by lia. by apply Hs.
    - intros [(j & Hj & Hc)| ->]; [right; exists j; split; [apply Hn in Hj; apply Hj|done]|by left]. }
  destruct (free_entries_spec lv free_one t q n 0 k l) as (k1 & l1 & E1 & F1); try done.
  { intros j Hj. by apply Hn. }
  { intros c Hc. apply Hin, Hb. tauto. }
  rewrite (bind_Ok _ _ _ _ _ E1).
  destruct (kfree_freed t _ k1 l1 Ht) as (k2 & E2 & F2); [apply F1| |].
  { apply (intact_freed (below_entries lv q 0 (Z.of_nat n)) (fun c => c = t) k l k1 l1); [..|done].
    - intros c ->. apply Hin. by apply below_self.
    - done.
    - intros c ->. split; [by eapply below_page, below_self|]. intros (j & _ & Hc). by eapply not_below_self. }
  exists k2, (t :: l1). split; [done|]. by eapply freed_trans.
Qed.

Lemma free_lv_ok lv : (lv <= 3)%nat -> free_ok lv (free_lv lv).
Proof.
  induction lv as [|lv IH]; intros Hlv t q k l Ht Ik Hin.
  - destruct (kfree_freed t _ k l Ht) as (k' & E & F); [done|apply Hin; by apply below_self|].
    exists k', (t :: l). split; [done|]. eapply (freed_trans (fun c => False)); [|exact F|].
    { by apply freed_refl; [|tauto]. }
    intros c. split.
    + intros (lv' & p & Hc & Hl & Hp). right. assert (lv' = O) as -> by lia. simpl in Hp. subst p.
      by eapply pi_inj.
    + intros [Hc| ->]; [done|]. by apply below_self.
  - apply (free_table lv (free_lv lv) t q 512); [lia|apply IH; lia|done| |done|done].
    intros j. unfold slot_ok. lia.
Qed.
End Free.

(** The three nested functions of the source are the levels 1 to 3. *)
Lemma free_lv_3 kend : free_lv kend 3 = free_pdp kend.
Proof.
  unfold free_pdp, free_pd, free_pt. cbn [free_lv]. generalize (kfree kend) as f, free_entries as g. reflexivity.
Qed.

(** [freevm] frees exactly the pages of the page table. *)
Lemma freevm_spec kend root k l own :
  KERNBASE <= kend -> pt_inv kend root k l own ->
  exists k' l', freevm kend root k = Ok (tt, k') /\ kalloc_inv kend k' l' /\
    list_to_set l' = pages_of l own /\ keeps (dom own) (km_mem k) (km_mem k').
Proof.
  intros Hend I. pose proof (pi_root _ _ _ _ _ I) as Hr.
  destruct (pi_page _ _ _ _ _ I _ _ _ Hr) as (Hp & _).
  destruct (free_table kend root Hend k l own I 3 (free_lv kend 3) root 0 256)
    with (k := k) (l := l) as (k' & l' & E & Ik & Hm & _ & Hk); try done.
  - by eapply free_lv_ok; eauto.
  - intros j. unfold slot_ok. lia.
  - apply I.
  - intros c (lv & p & Hc & _). split; [|done]. by eapply pi_page in Hc as (_ & ? & _).
  - exists k', l'. split; [|split; [done|split; [|done]]].
    + rewrite free_lv_3 in E. unfold freevm.
      destruct (Z.eqb_spec root 0) as [->|]; [by apply page_ok_nonzero in Hp|exact E].
    + apply set_eq. intros c. unfold pages_of. rewrite elem_of_union, !elem_of_list_to_set, Hm, elem_of_dom.
      split; intros [Hc|Hc]; try tauto; right.
      * destruct Hc as (lv & p & Hc & _). eauto.
      * destruct Hc as [[lv p] Hc]. destruct (pi_page _ _ _ _ _ I _ _ _ Hc) as (_ & _ & Hl).
        exists lv, p. split; [done|]. split; [done|].
        destruct (ancestor kend root k l own I c lv p (4 - lv) Hc) as [t Ht]; [lia|].
        replace (lv + (4 - lv))%nat with 4%nat in Ht by lia. by eapply pi_top.
Qed.

(** ** Two address spaces in one memory *)

Lemma apart_pages kend root k l (own own2 : gmap Z (nat * Z)) :
  pt_inv kend root k l own -> dom own ## dom own2 -> dom own ## pages_of l own2.
Proof.
  intros I Hd c Hc Hp. unfold pages_of in Hp. apply elem_of_union in Hp as [Hp|Hp]; [|by apply (Hd c)].
  apply elem_of_list_to_set in Hp. apply elem_of_dom in Hc as [[lv p] Hc].
  by destruct (pi_page _ _ _ _ _ I _ _ _ Hc) as (_ & ? & _).
Qed.

Lemma pages_l_sub l own : list_to_set l ⊆ pages_of l own.
Proof. unfold pages_of. clear. set_solver. Qed.

Lemma pages_ok kend root k l own c : pt_inv kend root k l own -> c ∈ pages_of l own -> page_ok kend c.
Proof.
  intros I. unfold pages_of. rewrite elem_of_union, elem_of_list_to_set, elem_of_dom. intros [Hc|[[lv p] Hc]].
  - pose proof (ki_pages _ _ _ (pi_kalloc _ _ _ _ _ I)) as Hf. by eapply Forall_forall in Hf.
  - by eapply pi_page in Hc as (? & _).
Qed.

(** Work that writes only the pages [P] leaves an address space that has none of
    them as it was. *)
Lemma other_space kend root k l own P k' l' :
  pt_inv kend root k l own -> dom own ## P -> (forall c, c ∈ P -> page_ok kend c) ->
  kalloc_inv kend k' l' -> list_to_set l' ⊆ P -> keeps P (km_mem k) (km_mem k') ->
  pt_inv kend root k' l' own /\
  (forall va, user_va va -> pteval root (km_mem k') va = pteval root (km_mem k) va) /\
  (forall va, user_va va -> uspace root (km_mem k') va = uspace root (km_mem k) va).
Proof.
  intros I Hd HP Ik Hl Hk.
  assert (Hx : forall t lv p x, own !! t = Some (lv, p) -> t <= x < t + PGSIZE ->
    rd (km_mem k') x = rd (km_mem k) x).
  { intros t lv p x Ht Hx. apply Hk. intros c Hc. destruct (pi_page _ _ _ _ _ I _ _ _ Ht) as (Htp & _).
    assert (N : t <> c) by (intros ->; apply (Hd c); [apply elem_of_dom; eauto|done]).
    pose proof (page_ok_disj kend t c Htp (HP _ Hc) N). lia. }
  assert (Hs : same_tables own (km_mem k) (km_mem k')) by (intros t lv p x Ht; by eapply Hx).
  assert (P' : forall va, user_va va -> pteval root (km_mem k') va = pteval root (km_mem k) va).
  { intros va Hv. by eapply pteval_frame. }
  split; [|split; [done|]].
  - split; try done; try by apply I.
    + intros t lv p Ht. destruct (pi_page _ _ _ _ _ I _ _ _ Ht) as (? & _ & ?). split; [done|]. split; [|done].
      intros Hc. apply (Hd t); [apply elem_of_dom; eauto|]. apply Hl. by apply elem_of_list_to_set.
    + intros t lv p i Ht Hi. rewrite (ent_same _ _ _ _ _ _ _ Hs Ht) by apply Hi. by apply I.
    + intros t lv p Ht Hlv. destruct (pi_up _ _ _ _ _ I t lv p Ht Hlv) as (t' & Ht' & Hi & Hp & E).
      exists t'. by rewrite (ent_same _ _ _ _ _ _ _ Hs Ht') by apply Hi.
  - intros va Hv. eapply uspace_keep; [done|done|by apply P'|]. intros d x Hd'. by eapply Hx.
Qed.

(** ** setupkvm *)

Lemma setupkvm_spec kend kpdpt k c l :
  kalloc_inv kend k (c :: l) ->
  exists k', setupkvm kpdpt k = Ok (c, k') /\ c <> 0 /\ page_ok kend c /\ c ∉ l /\
    pt_inv kend c k' l {[c := (4%nat, 0)]} /\
    (forall va, user_va va -> uspace c (km_mem k') va = None) /\ writes_in c (km_mem k) (km_mem k').
Proof.
  intros Ik. destruct (kalloc_cons _ _ _ _ Ik) as (k1 & E1 & Ik1 & M1 & _).
  pose proof (ki_pages _ _ _ Ik) as [Hc _]%Forall_cons_1. pose proof (ki_nodup _ _ _ Ik) as [Hn _]%NoDup_cons.
  pose proof (page_ok_nonzero _ _ Hc) as Hc0.
  unfold setupkvm. rewrite (bind_Ok _ _ _ _ _ E1), (bind_Ok _ _ _ _ _ (kmemset_ok c 0 PGSIZE k1 Hc0)).
  unfold kstore. rewrite (bind_Ok _ _ _ tt _ (eq_refl _)). eexists. split; [reflexivity|].
  set (m' := store64 _ _ _). cbn [km_mem set_mem].
  assert (W : writes_in c (km_mem k) m').
  { rewrite <-M1. eapply writes_in_trans; [apply writes_in_memset|]. apply writes_in_store. lia. }
  do 3 (split; [done|]). apply and_assoc. split; [|exact W]. apply pt_inv_fresh; try done.
  - eapply (writes_in_kalloc kend k1); try done. cbn [km_mem set_mem]. by rewrite M1.
  - intros x Hx. unfold m'. cbn [km_mem set_mem]. rewrite rd_store64_out by (unfold entry; lia).
    rewrite rd_memset by (unfold PGSIZE; lia). destruct (in_range_spec c PGSIZE x); [done|unfold PGSIZE in *; lia].
Qed.

(** ** copyuvm *)

Section Copy.
Variable kend : Z.
Hypothesis Hend : KERNBASE < kend.
Variables root d : Z.

Lemma read_pte k l own va :
  pt_inv kend root k l own -> user_va va -> present (pteval root (km_mem k) va) = true ->
  exists pte, walkpgdir root va false k = Ok (pte, k) /\ pte <> 0 /\
    load64 (km_mem k) pte = pteval root (km_mem k) va.
Proof.
  intros I Hv Hp. pose proof (walkpgdir_noalloc kend root k l own va I Hv) as E.
  unfold pteval, pv in Hp |- *. destruct (walk 3 (km_mem k) root va) as [a|] eqn:W; [|done].
  exists a. split; [done|]. split; [|done].
  eapply walk_Some in W as (t & Ht & ->); [|done|done|lia|by eapply root_at].
  destruct (pi_page _ _ _ _ _ I _ _ _ Ht) as (Htp & _).
  apply (entry_nonzero kend); [done|]. apply Z.mod_pos_bound. lia.
Qed.

Lemma present_flags e : present e = true -> Z.lor (PTE_FLAGS e) PTE_P = PTE_FLAGS e.
Proof.
  rewrite present_odd. intros H. unfold PTE_FLAGS. apply Z.bits_inj'. intros n Hn.
  rewrite Z.lor_spec. destruct (Z.eq_dec n 0) as [->|N].
  - rewrite Z.land_spec, Z.bit0_odd, H. done.
  - change PTE_P with (2 ^ 0). rewrite Z.pow2_bits_false by lia. by rewrite orb_false_r.
Qed.

(** One turn of the loop, from the allocation to the mapping. *)
Lemma copy_page k c l own own2 va :
  pt_inv kend root k (c :: l) own -> pt_inv kend d k (c :: l) own2 -> dom own ## dom own2 ->
  user_va va -> va mod 4096 = 0 -> present (pteval root (km_mem k) va) = true ->
  uspace d (km_mem k) va = None ->
  let e := pteval root (km_mem k) va in
  exists k1, kalloc k = Ok (c, k1) /\ c <> 0 /\ own2 !! c = None /\ c ∉ l /\
    let k2 := set_mem (memmove (km_mem k1) c (P2V (PTE_ADDR e)) PGSIZE) k1 in
    ((exists k' own2', mappages d va PGSIZE (V2P c) (PTE_FLAGS e) k2 = Ok (-1, k') /\
        pt_inv kend d k' [] own2' /\ pages_of [] own2' = pages_of l own2 /\
        keeps (pages_of (c :: l) own2) (km_mem k) (km_mem k')) \/
     (exists k' l' own2', mappages d va PGSIZE (V2P c) (PTE_FLAGS e) k2 = Ok (0, k') /\
        pt_inv kend d k' l' own2' /\ pages_of l' own2' = pages_of (c :: l) own2 /\
        (forall va', user_va va' -> uspace d (km_mem k') va' =
           if va' / 4096 =? va / 4096 then uspace root (km_mem k) va' else uspace d (km_mem k) va') /\
        keeps (pages_of (c :: l) own2) (km_mem k) (km_mem k'))).
Proof.
  intros I I2 Hd Hv Ha Hp Hn e.
  destruct (pt_inv_kalloc _ _ _ _ _ _ I2) as (k1 & E1 & M1 & I1 & Hc & Hcl & Hco).
  exists k1. split; [done|]. split; [by eapply page_ok_nonzero|]. split; [done|]. split; [done|]. cbv zeta.
  set (m2 := memmove _ _ _ _).
  assert (W : writes_in c (km_mem k1) m2).
  { intros x Hx. unfold m2. rewrite rd_memmove by (unfold PGSIZE; lia). by destruct (in_range_spec c PGSIZE x); [lia|]. }
  destruct (pt_inv_write kend d k1 l own2 c m2) as [I3 P3]; try done; [congruence|].
  assert (U3 : forall va', user_va va' -> uspace d m2 va' = uspace d (km_mem k) va').
  { intros va' Hv'. rewrite <-M1. eapply uspace_keep; [exact I1|done|by apply P3|]. intros f x Hf Hx.
    eapply (writes_in_other kend c); [exact W|done| | |exact Hx]; [by eapply pi_page in Hf as (? & _)|congruence]. }
  assert (Kp : keeps (pages_of (c :: l) own2) (km_mem k) m2).
  { rewrite <-M1. apply (keeps_writes _ c); [apply in_pages_l; left|exact W]. }
  assert (Hsub : pages_of l own2 ⊆ pages_of (c :: l) own2) by (unfold pages_of; clear; set_solver).
  destruct (map_page kend d (set_mem m2 k1) l own2 va c (PTE_FLAGS e))
    as [(k' & o' & E & I' & C' & N' & U' & K')|(k' & l' & o' & E & I' & C' & U' & K')]; try done.
  - rewrite PTE_FLAGS_eq. apply Z.mod_pos_bound. lia.
  - cbn [km_mem set_mem]. by rewrite U3.
  - left. exists k', o'. do 3 (split; [done|]). eapply keeps_trans; [exact Kp|by eapply keeps_mono].
  - right. exists k', l', o'. split; [done|]. split; [done|].
    split; [rewrite C'; unfold pages_of; clear; set_solver|].
    split; [|eapply keeps_trans; [exact Kp|by eapply keeps_mono]].
    intros va' Hv'. rewrite U' by done. cbn [km_mem set_mem].
    destruct (Z.eqb_spec (va' / 4096) (va / 4096)) as [Ev|Nv]; [|by apply U3].
    unfold uspace, frame. rewrite (pteval_page kend root k (c :: l) own va va') by done. fold e. unfold e at 2. rewrite Hp.
    fold e. rewrite present_flags by done. f_equal. f_equal.
    pose proof (Z.mod_pos_bound va' 4096 ltac:(lia)) as B.
    unfold m2. rewrite rd_memmove, M1 by (unfold PGSIZE; lia).
    destruct (in_range_spec c PGSIZE (c + va' mod 4096)); [|unfold PGSIZE in *; lia]. f_equal. lia.
Qed.
(** What [copyuvm] has to keep of the parent. *)
Definition parent_kept (own : gmap Z (nat * Z)) (P : gset Z) (k k' : kmem) (l' : list Z) : Prop :=
  pt_inv kend root k' l' own /\
  (forall va, user_va va -> uspace root (km_mem k') va = uspace root (km_mem k) va) /\
  keeps P (km_mem k) (km_mem k').

Lemma kept_by_child k l own own2 k' l' :
  pt_inv kend root k l own -> pt_inv kend d k l own2 -> dom own ## dom own2 ->
  kalloc_inv kend k' l' -> list_to_set l' ⊆ pages_of l own2 ->
  keeps (pages_of l own2) (km_mem k) (km_mem k') -> parent_kept own (pages_of l own2) k k' l'.
Proof.
  intros I I2 Hd Ik Hl Hk.
  destruct (other_space kend root k l own (pages_of l own2) k' l') as (I' & _ & U'); try done.
  - by eapply apart_pages.
  - intros c Hc. by eapply pages_ok.
Qed.

Lemma bad_child k l own own2 k1 l1 own3 :
  pt_inv kend root k l own -> pt_inv kend d k l own2 -> dom own ## dom own2 ->
  pt_inv kend d k1 l1 own3 -> pages_of l1 own3 ⊆ pages_of l own2 ->
  keeps (pages_of l own2) (km_mem k) (km_mem k1) ->
  exists k' l', (do! freevm kend d in ret 0) k1 = Ok (0, k') /\ list_to_set l' = pages_of l1 own3 /\
    parent_kept own (pages_of l own2) k k' l'.
Proof.
  intros I I2 Hd I3 Hs Hk. destruct (freevm_spec kend d k1 l1 own3) as (k' & l' & E & Ik & El & Kf); [lia|done|].
  exists k', l'. rewrite (bind_Ok _ _ _ _ _ E). split; [done|]. split; [done|].
  eapply kept_by_child; try done; [by rewrite El|].
  eapply keeps_trans; [exact Hk|]. eapply keeps_mono; [|exact Kf].
  intros c Hc. apply Hs. unfold pages_of. apply elem_of_union. by right.
Qed.

(** The pages are copied, or the child is freed again; one page may be lost. *)
Definition copy_result (own : gmap Z (nat * Z)) (a sz : Z) (k : kmem) (l : list Z)
    (own2 : gmap Z (nat * Z)) (r : Z) (k' : kmem) (l' : list Z) : Prop :=
  (r = d /\ exists own2', pt_inv kend d k' l' own2' /\ dom own ## dom own2' /\
     pages_of l' own2' = pages_of l own2 /\
     forall va, user_va va -> uspace d (km_mem k') va =
       if decide (page_in a sz va) then uspace root (km_mem k) va else uspace d (km_mem k) va) \/
  (r = 0 /\ (list_to_set l' = pages_of l own2 \/
     exists c, c ∈ pages_of l own2 /\ list_to_set l' = pages_of l own2 ∖ {[c]})).

Lemma copy_done k l own own2 a sz :
  pt_inv kend root k l own -> pt_inv kend d k l own2 -> dom own ## dom own2 -> sz <= a ->
  parent_kept own (pages_of l own2) k k l /\ copy_result own a sz k l own2 d k l.
Proof.
  intros I I2 Hd Hge. split.
  - eapply kept_by_child; try done; [apply I|apply pages_l_sub].
  - left. split; [done|]. exists own2. do 3 (split; [done|]). intros va Hv.
    rewrite decide_False; [done|unfold page_in; lia].
Qed.

Lemma copyuvm_loop_spec fuel i sz k l own own2 :
  pt_inv kend root k l own -> pt_inv kend d k l own2 -> dom own ## dom own2 ->
  0 <= i -> i mod 4096 = 0 -> sz <= i + Z.of_nat fuel * 4096 -> sz <= 140737488355328 - 4096 ->
  (forall va, i <= va < sz -> uspace root (km_mem k) va <> None) ->
  (forall va, user_va va -> page_in i sz va -> uspace d (km_mem k) va = None) ->
  exists r k' l', copyuvm_loop kend fuel root d i sz k = Ok (r, k') /\
    parent_kept own (pages_of l own2) k k' l' /\ copy_result own i sz k l own2 r k' l'.
Proof.
  revert i k l own2. induction fuel as [|fuel IH]; intros i k l own2 I I2 Hd Hi Ha Hf Hsz Hpr Hch.
  all: cbn [copyuvm_loop]; destruct (Z.ltb_spec i sz) as [Hlt|Hge].
  1: lia.
  1,3: exists d, k, l; split; [done|]; by apply copy_done.
  assert (Hv : user_va i) by (unfold user_va; lia).
  assert (Hpg : page_in i sz i) by (unfold page_in; Z.to_euclidean_division_equations; lia).
  assert (Hp : present (pteval root (km_mem k) i) = true).
  { apply not_false_iff_true. rewrite <-uspace_None. apply Hpr. lia. }
  destruct (read_pte k l own i I Hv Hp) as (pte & E1 & N1 & L1). rewrite (bind_Ok _ _ _ _ _ E1).
  destruct (Z.eqb_spec pte 0); [done|]. unfold kload. rewrite (bind_Ok _ _ k _ k (eq_refl _)).
  rewrite L1, Hp. cbn [negb]. cbv zeta. destruct l as [|c l].
  { rewrite (bind_Ok _ _ _ _ _ (kalloc_nil _ _ (pi_kalloc _ _ _ _ _ I))), Z.eqb_refl.
    destruct (bad_child k [] own own2 k [] own2) as (k' & l' & E & El & K); try done.
    exists 0, k', l'. split; [done|]. split; [done|]. right. tauto. }
  destruct (copy_page k c l own own2 i I I2 Hd Hv Ha Hp (Hch i Hv Hpg))
    as (k1 & E2 & N2 & Hco & Hcl & [(k2 & o2 & E3 & I3 & C3 & K3)|(k2 & l2 & o2 & E3 & I3 & C3 & U3 & K3)]);
    rewrite (bind_Ok _ _ _ _ _ E2); (destruct (Z.eqb_spec c 0); [done|]);
    unfold kmemmove; rewrite (bind_Ok _ _ _ tt _ (eq_refl _)), (bind_Ok _ _ _ _ _ E3).
  - change (-1 <? 0) with true. cbv iota.
    assert (Hs : pages_of l own2 = pages_of (c :: l) own2 ∖ {[c]}).
    { unfold pages_of. apply not_elem_of_dom in Hco. clear -Hco Hcl. set_solver. }
    destruct (bad_child k (c :: l) own own2 k2 [] o2) as (k' & l' & E & El & K); try done.
    { rewrite C3, Hs. clear. set_solver. }
    exists 0, k', l'. split; [done|]. split; [done|]. right. split; [done|]. right. exists c.
    split; [apply in_pages_l; left|]. by rewrite El, C3.
  - change (0 <? 0) with false. cbv iota.
    destruct (kept_by_child k (c :: l) own own2 k2 l2) as (Ip & Up & _); try done; [apply I3|rewrite <-C3; apply pages_l_sub|].
    assert (Hd2 : dom own ## dom o2).
    { pose proof (apart_pages _ _ _ _ _ _ I Hd) as H. rewrite <-C3 in H. unfold pages_of in H. clear -H. set_solver. }
    unfold PGSIZE. rewrite u64_small by lia.
    destruct (IH (i + 4096) k2 l2 o2) as (r & k' & l' & E & (Ik & Uk & Kk) & R); try done; try lia.
    + rewrite Z.add_mod, Ha by lia. done.
    + intros va Hva. rewrite Up by (unfold user_va; lia). apply Hpr. lia.
    + intros va Hva Hin. rewrite U3 by done.
      destruct (Z.eqb_spec (va / 4096) (i / 4096)); [unfold page_in in Hin; Z.to_euclidean_division_equations; lia|].
      apply Hch; [done|]. unfold page_in in *. lia.
    + exists r, k', l'. split; [done|]. rewrite C3 in Kk. split.
      { split; [done|]. split; [|by eapply keeps_trans]. intros va Hva. rewrite Uk by done. by apply Up. }
      destruct R as [(-> & o3 & I4 & D4 & C4 & U4)|(-> & R)]; [left|right].
      * split; [done|]. exists o3. split; [done|]. split; [done|]. split; [by rewrite C4|]. intros va Hva.
        rewrite U4, U3, Up by done. unfold page_in.
        assert (Ei : i / 4096 * 4096 = i) by (pose proof (Z.div_mod i 4096); lia).
        destruct (Z.eqb_spec (va / 4096) (i / 4096)); repeat case_decide; done || lia.
      * split; [done|]. by rewrite C3 in R.
Qed.
End Copy.

(** ** clearpteu *)

Lemma clear_u v :
  0 <= v < 18446744073709551616 ->
  u64 (Z.land v (Z.lnot PTE_U)) = Z.land v (Z.lnot PTE_U) /\
  present (Z.land v (Z.lnot PTE_U)) = present v /\
  PTE_ADDR (Z.land v (Z.lnot PTE_U)) = PTE_ADDR v /\
  PTE_FLAGS (Z.land v (Z.lnot PTE_U)) = Z.land (PTE_FLAGS v) (Z.lnot PTE_U).
Proof.
  intros Hv. split; [|split; [|split]].
  - unfold u64. change 18446744073709551616 with (2 ^ 64). rewrite <-Z.land_ones by lia.
    rewrite <-Z.land_assoc, (Z.land_comm (Z.lnot PTE_U)), Z.land_assoc, Z.land_ones by lia.
    f_equal. by apply Z.mod_small.
  - unfold present. rewrite <-Z.land_assoc. done.
  - unfold PTE_ADDR. rewrite <-Z.land_assoc. done.
  - unfold PTE_FLAGS. by rewrite <-!Z.land_assoc, (Z.land_comm (Z.lnot PTE_U)).
Qed.

(** A last-level entry that gets other flags. *)
Lemma pt_inv_reflag kend root k l own t p i v m' :
  pt_inv kend root k l own -> own !! t = Some (1%nat, p) -> 0 <= i < 512 ->
  present v = present (ent (km_mem k) t i) -> PTE_ADDR v = PTE_ADDR (ent (km_mem k) t i) ->
  set_entry own t i v (km_mem k) m' -> writes_in t (km_mem k) m' ->
  pt_inv kend root (set_mem m' k) l own.
Proof.
  intros I Ht Hi Hp Ha He Hw. destruct (pi_page _ _ _ _ _ I _ _ _ Ht) as (Htp & Htl & _).
  assert (H : forall t' lv p' j, own !! t' = Some (S lv, p') -> 0 <= j < 512 ->
    present (ent m' t' j) = present (ent (km_mem k) t' j) /\ PTE_ADDR (ent m' t' j) = PTE_ADDR (ent (km_mem k) t' j)).
  { intros t' lv p' j Ht' Hj. rewrite (He _ _ _ _ Ht' Hj). case_decide as D; [|done]. by injection D as -> ->. }
  split; try by apply I.
  - eapply (writes_in_kalloc kend k); [apply I|done|exact Htp|done|done].
  - intros t' lv p' j Ht' Hj. destruct (H _ _ _ _ Ht' (proj1 Hj)) as [E1 E2]. cbn [km_mem set_mem]. rewrite E1, E2. by apply I.
  - intros t' lv p' Ht' Hlv. destruct (pi_up _ _ _ _ _ I _ _ _ Ht' Hlv) as (t2 & Ht2 & Hs & Hp2 & E).
    exists t2. destruct (H _ _ _ _ Ht2 (proj1 Hs)) as [E1 E2]. cbn [km_mem set_mem]. by rewrite E1, E2.
Qed.

Lemma clearpteu_spec kend root k l own va :
  pt_inv kend root k l own -> user_va va -> uspace root (km_mem k) va <> None ->
  exists k', clearpteu root va k = Ok (tt, k') /\ pt_inv kend root k' l own /\
    (forall va', user_va va' -> uspace root (km_mem k') va' =
       if va' / 4096 =? va / 4096 then (fun x => (x.1, Z.land x.2 (Z.lnot PTE_U))) <$> uspace root (km_mem k) va'
       else uspace root (km_mem k) va') /\
    keeps (dom own) (km_mem k) (km_mem k').
Proof.
  intros I Hv Hu.
  assert (Hp : present (pteval root (km_mem k) va) = true) by (apply not_false_iff_true; by rewrite <-uspace_None).
  unfold clearpteu. rewrite (bind_Ok _ _ _ _ _ (walkpgdir_noalloc kend root k l own va I Hv)).
  destruct (walk 3 (km_mem k) root va) as [a|] eqn:W; [|by unfold pteval, pv in Hp; rewrite W in Hp].
  assert (Ev : pteval root (km_mem k) va = load64 (km_mem k) a) by (unfold pteval, pv; by rewrite W).
  eapply walk_Some in W as (t & Ht & ->); [|done|done|lia|by eapply root_at].
  destruct (pi_page _ _ _ _ _ I _ _ _ Ht) as (Htp & _).
  assert (B : 0 <= pfx 0 va mod 512 < 512) by (apply Z.mod_pos_bound; lia).
  destruct (Z.eqb_spec (entry t (pfx 0 va mod 512)) 0) as [E0|_]; [by apply (entry_nonzero kend) in E0; [|done|lia]|].
  unfold kload. rewrite (bind_Ok _ _ k _ k (eq_refl _)). eexists. split; [reflexivity|].
  set (v := load64 _ _) in *. destruct (clear_u v (load64_bound _ _)) as (C1 & C2 & C3 & C4).
  set (w := Z.land v (Z.lnot PTE_U)) in *. set (i := pfx 0 va mod 512) in *. cbn [km_mem set_mem].
  pose proof (set_entry_store kend root k l own t _ _ i w I Ht B) as He. rewrite C1 in He.
  assert (Hw : writes_in t (km_mem k) (store64 (km_mem k) (entry t i) w)) by by apply writes_in_store.
  split; [by eapply (pt_inv_reflag kend root k l own t _ i w)|].
  split; [|apply (keeps_writes _ t); [apply elem_of_dom; eauto|done]]. intros va' Hv'.
  pose proof (pteval_set kend root k l own t w _ va va' I Ht He Hv') as Ep.
  assert (Hd : forall d x, own !! d = Some (O, va' / 4096) -> d <= x < d + PGSIZE ->
    rd (store64 (km_mem k) (entry t i) w) x = rd (km_mem k) x).
  { intros d x Hd Hx. eapply (writes_in_other kend t); [exact Hw|done| | |exact Hx].
    - by eapply pi_page in Hd as (? & _).
    - congruence. }
  destruct (Z.eqb_spec (va' / 4096) (va / 4096)) as [E|N]; [|by eapply uspace_keep].
  pose proof (pteval_page kend root k l own va va' I Hv Hv' E) as Ep'. rewrite Ev in Ep', Hp.
  assert (Hf : own !! frame root (km_mem k) va' = Some (O, va' / 4096)) by (apply (frame_own kend root k l own); [done|done|by rewrite Ep']).
  unfold uspace, frame in *. rewrite Ep, Ep', C2, C3, C4, Hp. rewrite Ep' in Hf. cbn [fmap option_fmap option_map fst snd].
  f_equal. f_equal. eapply Hd; [exact Hf|apply frame_in].
Qed.

(** A mapped page needs four pages of tables. *)
Lemma mapped_size kend root k l own va :
  pt_inv kend root k l own -> user_va va -> uspace root (km_mem k) va <> None -> (5 <= size (dom own))%nat.
Proof.
  intros I Hv Hu.
  assert (Hp : present (pteval root (km_mem k) va) = true).
  { apply not_false_iff_true. by rewrite <-uspace_None. }
  pose proof (frame_own kend root k l own va I Hv Hp) as H0. set (f := frame root (km_mem k) va) in *.
  destruct (ancestor kend root k l own I f 0 _ 1 H0) as [t1 H1]; [lia|].
  destruct (ancestor kend root k l own I f 0 _ 2 H0) as [t2 H2]; [lia|].
  destruct (ancestor kend root k l own I f 0 _ 3 H0) as [t3 H3]; [lia|].
  destruct (ancestor kend root k l own I f 0 _ 4 H0) as [t4 H4]; [lia|].
  assert (Hn : NoDup [f; t1; t2; t3; t4]).
  { repeat (apply NoDup_cons; split; [set_unfold; intros Hx; naive_solver congruence|]). apply NoDup_nil. done. }
  rewrite <-(size_list_to_set [f; t1; t2; t3; t4] (C := gset Z) Hn : _ = 5%nat).
  apply subseteq_size. intros x. rewrite elem_of_list_to_set, elem_of_dom. set_unfold. naive_solver.
Qed.

(** The page table [setupkvm] makes beside that of a parent. *)
Lemma setup_beside kend root kpdpt k d l own :
  pt_inv kend root k (d :: l) own ->
  exists k1, setupkvm kpdpt k = Ok (d, k1) /\ d <> 0 /\ pt_inv kend d k1 l {[d := (4%nat, 0)]} /\
    (forall va, user_va va -> uspace d (km_mem k1) va = None) /\
    pt_inv kend root k1 l own /\ dom own ## dom ({[d := (4%nat, 0)]} : gmap Z (nat * Z)) /\
    (forall va, user_va va -> uspace root (km_mem k1) va = uspace root (km_mem k) va) /\
    pages_of l {[d := (4%nat, 0)]} = list_to_set (d :: l) /\
    keeps (list_to_set (d :: l)) (km_mem k) (km_mem k1).
Proof.
  intros I. destruct (setupkvm_spec kend kpdpt k d l (pi_kalloc _ _ _ _ _ I)) as (k1 & E & N & Hd & Hdl & I1 & U1 & W1).
  assert (Hp : pages_of l {[d := (4%nat, 0)]} = list_to_set (d :: l)).
  { unfold pages_of. rewrite dom_singleton_L. clear. set_solver. }
  assert (Kp : keeps (list_to_set (d :: l)) (km_mem k) (km_mem k1)).
  { apply (keeps_writes _ d); [clear; set_solver|done]. }
  assert (Hdis : dom own ## list_to_set (d :: l)).
  { intros c Hc Hl. apply elem_of_list_to_set in Hl. apply elem_of_dom in Hc as [[lv p] Hc].
    by destruct (pi_page _ _ _ _ _ I _ _ _ Hc) as (_ & ? & _). }
  destruct (other_space kend root k (d :: l) own (list_to_set (d :: l)) k1 l) as (I2 & _ & U2); try done.
  - intros c Hc. rewrite <-Hp in Hc. by eapply pages_ok.
  - apply I1.
  - clear. set_solver.
  - exists k1. do 5 (split; [done|]). split; [|done]. rewrite dom_singleton_L. clear -Hdis. set_solver.
Qed.

(** [copyuvm] as a whole. *)
Lemma copyuvm_spec (kend kpdpt root sz d : Z) (k : kmem) (l : list Z) (own : gmap Z (nat * Z)) :
  KERNBASE < kend -> pt_inv kend root k (d :: l) own -> 0 <= sz < 4294967296 ->
  (forall va, PGSIZE <= va < sz -> uspace root (km_mem k) va <> None) ->
  exists r k' l', copyuvm kend kpdpt root sz k = Ok (r, k') /\
    pt_inv kend root k' l' own /\
    (forall va, user_va va -> uspace root (km_mem k') va = uspace root (km_mem k) va) /\
    keeps (list_to_set (d :: l)) (km_mem k) (km_mem k') /\
    ((r = d /\ exists own', pt_inv kend d k' l' own' /\ dom own ## dom own' /\
        pages_of l' own' = list_to_set (d :: l) /\
        forall va, user_va va -> uspace d (km_mem k') va =
          if decide (page_in PGSIZE sz va) then uspace root (km_mem k) va else None) \/
     (r = 0 /\ (list_to_set l' =@{gset Z} list_to_set (d :: l) \/
        exists c, c ∈ d :: l /\ list_to_set l' =@{gset Z} list_to_set (d :: l) ∖ {[c]}))).
Proof.
  intros Hend I Hsz Hm. unfold copyuvm. rewrite u32_small by lia.
  destruct (setup_beside kend root kpdpt k d l own I) as (k1 & E1 & N1 & I1 & U1 & I2 & D2 & U2 & C1 & K1).
  rewrite (bind_Ok _ _ _ _ _ E1). destruct (Z.eqb_spec d 0); [done|].
  destruct (copyuvm_loop_spec kend Hend root d (page_fuel PGSIZE sz) PGSIZE sz k1 l own {[d := (4%nat, 0)]})
    as (r & k' & l' & E & (Ip & Up & Kp) & R); try done; try (unfold PGSIZE; lia).
  - apply page_fuel_enough.
  - intros va Hva. rewrite U2 by (unfold user_va, PGSIZE in *; lia). by apply Hm.
  - intros va Hv _. by apply U1.
  - exists r, k', l'. rewrite C1 in *. split; [done|]. split; [done|].
    split; [intros va Hv; rewrite Up by done; by apply U2|]. split; [by eapply keeps_trans|].
    destruct R as [(-> & o' & I3 & D3 & C3 & U3)|(-> & R)].
    + left. split; [done|]. exists o'. rewrite <-C1. do 3 (split; [done|]). intros va Hv. rewrite U3, U2, U1 by done. done.
    + right. split; [done|]. destruct R as [R|(c & Hc & R)]; [left|right; exists c]; rewrite <-C1; [done|].
      split; [|done]. rewrite C1 in Hc. by apply elem_of_list_to_set in Hc.
Qed.

(** ** Theorems *)

(** C18: freeing an address space.  [freevm] returns, the free pages are
    those there were and exactly the pages of the page table, tables and frames at
    all four levels, and no other page is written; no page is freed twice. *)
Theorem freevm_correct (kend root : Z) (k : kmem) (l : list Z) (own : gmap Z (nat * Z)) :
  KERNBASE < kend -> pt_inv kend root k l own ->
  exists k' l', freevm kend root k = Ok (tt, k') /\ kalloc_inv kend k' l' /\
    list_to_set l' = pages_of l own /\ length l' = (length l + size own)%nat /\
    keeps (dom own) (km_mem k) (km_mem k').
Proof.
  intros Hend I. destruct (freevm_spec kend root k l own) as (k' & l' & E & Ik & El & Kp); [lia|done|].
  exists k', l'. do 3 (split; [done|]). split; [|done].
  rewrite <-(size_list_to_set (C := gset Z) l' (ki_nodup _ _ _ Ik)), El. unfold pages_of.
  rewrite size_union.
  - rewrite size_list_to_set, size_dom; [done|]. apply (ki_nodup _ _ _ (pi_kalloc _ _ _ _ _ I)).
  - intros c Hl Hc. apply elem_of_list_to_set in Hl. apply elem_of_dom in Hc as [[lv p] Hc].
    by destruct (pi_page _ _ _ _ _ I _ _ _ Hc) as (_ & ? & _).
Qed.

(** Copying an address space for [fork].  With every page of
    [PGSIZE .. sz) mapped in the parent and a free page, [copyuvm] returns and
    leaves the parent's memory as it was.  Either it gives a new page table, made of free
    pages, in which those pages hold what the parent's hold with the same flags and
    no other address is mapped; or it gives 0, and all the pages are free again but possibly one. *)
Theorem copyuvm_correct (kend kpdpt root sz d : Z) (k : kmem) (l : list Z) (own : gmap Z (nat * Z)) :
  KERNBASE < kend -> pt_inv kend root k (d :: l) own -> 0 <= sz < 4294967296 ->
  (forall va, PGSIZE <= va < sz -> uspace root (km_mem k) va <> None) ->
  exists r k' l', copyuvm kend kpdpt root sz k = Ok (r, k') /\
    pt_inv kend root k' l' own /\
    (forall va, user_va va -> uspace root (km_mem k') va = uspace root (km_mem k) va) /\
    keeps (list_to_set (d :: l)) (km_mem k) (km_mem k') /\
    ((r = d /\ exists own', pt_inv kend d k' l' own' /\ dom own ## dom own' /\
        pages_of l' own' = list_to_set (d :: l) /\
        forall va, user_va va -> uspace d (km_mem k') va =
          if decide (page_in PGSIZE sz va) then uspace root (km_mem k) va else None) \/
     (r = 0 /\ (list_to_set l' =@{gset Z} list_to_set (d :: l) \/
        exists c, c ∈ d :: l /\ list_to_set l' =@{gset Z} list_to_set (d :: l) ∖ {[c]}))).
Proof. apply copyuvm_spec. Qed.

(** [copyuvm] loses a page when the tables of the child cannot be
    allocated.  With two to four free pages, enough for the PML4 and the first page but not
    for the tables that map it, it gives 0, and the page [c] it copied to is neither free nor
    part of any page table: the path [bad] frees only what the child's tables refer to. *)
Theorem copyuvm_leaks_page (kend kpdpt root sz d c : Z) (k : kmem) (l : list Z) (own : gmap Z (nat * Z)) :
  KERNBASE < kend -> pt_inv kend root k (d :: c :: l) own -> PGSIZE < sz < 4294967296 ->
  uspace root (km_mem k) PGSIZE <> None -> (length l <= 2)%nat ->
  exists k' l', copyuvm kend kpdpt root sz k = Ok (0, k') /\ pt_inv kend root k' l' own /\
    list_to_set l' =@{gset Z} list_to_set (d :: l) /\ c ∉ l' /\ own !! c = None.
Proof.
  intros Hend I Hsz Hm Hl. unfold copyuvm. rewrite u32_small by (unfold PGSIZE in *; lia).
  destruct (setup_beside kend root kpdpt k d (c :: l) own I) as (k1 & E1 & N1 & I1 & U1 & I2 & D2 & U2 & C1 & K1).
  rewrite (bind_Ok _ _ _ _ _ E1). destruct (Z.eqb_spec d 0); [done|].
  assert (Hv : user_va PGSIZE) by (unfold user_va, PGSIZE; lia).
  assert (Hp : present (pteval root (km_mem k1) PGSIZE) = true).
  { apply not_false_iff_true. by rewrite <-uspace_None, U2. }
  set (o1 := {[d := (4%nat, 0)]}) in *.
  destruct (page_fuel PGSIZE sz) as [|fuel] eqn:Ef.
  { pose proof (page_fuel_enough PGSIZE sz). rewrite Ef in *. lia. }
  cbn [copyuvm_loop]. destruct (Z.ltb_spec PGSIZE sz); [|lia].
  destruct (read_pte kend root k1 _ own PGSIZE I2 Hv Hp) as (pte & E2 & N2 & L2).
  rewrite (bind_Ok _ _ _ _ _ E2). destruct (Z.eqb_spec pte 0); [done|].
  unfold kload. rewrite (bind_Ok _ _ k1 _ k1 (eq_refl _)), L2, Hp. cbn [negb]. cbv zeta.
  destruct (copy_page kend root d k1 c l own o1 PGSIZE I2 I1 D2 Hv eq_refl Hp (U1 _ Hv))
    as (k2 & E3 & N3 & Hco & Hcl & [(k3 & o2 & E4 & I3 & C3 & K3)|(k3 & l2 & o2 & E4 & I3 & C3 & U3 & K3)]).
  - rewrite (bind_Ok _ _ _ _ _ E3). destruct (Z.eqb_spec c 0); [done|].
    unfold kmemmove. rewrite (bind_Ok _ _ _ tt _ (eq_refl _)), (bind_Ok _ _ _ _ _ E4).
    change (-1 <? 0) with true. cbv iota.
    assert (Hs : pages_of l o1 = list_to_set (d :: l)).
    { unfold pages_of, o1. rewrite dom_singleton_L. clear. set_solver. }
    destruct (bad_child kend Hend root d k1 (c :: l) own o1 k3 [] o2) as (k' & l' & E & El & Ip & _); try done.
    { rewrite C3. unfold pages_of. clear. set_solver. }
    exists k', l'. rewrite C3, Hs in El. split; [done|]. split; [done|]. split; [done|]. split.
    + pose proof (ki_nodup _ _ _ (pi_kalloc _ _ _ _ _ I)) as Hn. inversion_clear Hn as [|? ? Hd _].
      rewrite <-(elem_of_list_to_set (C := gset Z)), El. clear -Hd Hcl. set_solver.
    + destruct (own !! c) as [[lv p]|] eqn:Ec; [|done].
      destruct (pi_page _ _ _ _ _ I _ _ _ Ec) as (_ & Hx & _). clear -Hx. set_solver.
  - exfalso. pose proof (mapped_size kend d k3 l2 o2 PGSIZE I3 Hv) as H5.
    rewrite U3, Z.eqb_refl, U2 in H5 by done. specialize (H5 Hm).
    assert (Hs : (size (dom o2) <= size (pages_of (c :: l) o1))%nat).
    { rewrite <-C3. apply subseteq_size. unfold pages_of. clear. set_solver. }
    rewrite C1 in Hs. pose proof (ki_nodup _ _ _ (pi_kalloc _ _ _ _ _ I)) as Hn.
    rewrite size_list_to_set in Hs by done. simpl in Hs. lia.
Qed.

(** ** Instances *)

(** [n] free pages after the page of the page table. *)
Definition idx (n : nat) : list Z := reverse (seqZ 1 (Z.of_nat n)).
Definition mem_n (n : nat) : mem :=
  foldr (fun i m => store64 m (page_at i) (if i =? 1 then 0 else page_at (i - 1))) ∅ (idx n).
Definition kmem_n (n : nat) : kmem := Kmem (mem_n n) (page_at (Z.of_nat n)) 0.
Definition free_n (n : nat) : list Z := page_at <$> idx n.

Lemma idx_in n i : i ∈ idx n -> 1 <= i <= Z.of_nat n.
Proof. unfold idx. rewrite elem_of_reverse, elem_of_seqZ. lia. Qed.

Lemma mem_n_root n x : root0 <= x < root0 + PGSIZE -> rd (mem_n n) x = 0.
Proof.
  intros Hx. unfold mem_n. assert (H : Forall (fun i => 1 <= i) (idx n)).
  { apply Forall_forall. intros i Hi%idx_in. lia. }
  induction H as [|i l Hi _ IH]; [done|]. cbn [foldr].
  rewrite rd_store64_out; [done|]. unfold root0, PGSIZE, page_at in *. lia.
Qed.

(** The free list of [kmem_n] holds its pages. *)
Definition listed (n : nat) : bool :=
  forallb (fun i => load64 (mem_n n) (page_at i) =? (if i =? 1 then 0 else page_at (i - 1))) (idx n).

Lemma is_list_idx n m : (forall i, 1 <= i <= Z.of_nat n ->
    load64 m (page_at i) = if i =? 1 then 0 else page_at (i - 1)) ->
  is_list m (if decide (n = O) then 0 else page_at (Z.of_nat n)) (page_at <$> idx n).
Proof.
  unfold idx. induction n as [|n IH]; intros H; [done|].
  rewrite decide_False by done. rewrite Nat2Z.inj_succ, <-Z.add_1_r, seqZ_app by lia. rewrite reverse_app.
  change (seqZ (1 + Z.of_nat n) 1) with [1 + Z.of_nat n]. cbn [reverse rev_append app fmap list_fmap].
  rewrite (Z.add_comm 1). cbn [is_list]. split; [done|].
  replace (load64 m (page_at (Z.of_nat n + 1))) with (if decide (n = O) then 0 else page_at (Z.of_nat n)).
  - apply IH. intros i Hi. apply H. lia.
  - rewrite H by lia. case_decide; subst; [done|].
    destruct (Z.eqb_spec (Z.of_nat n + 1) 1); [lia|]. f_equal. lia.
Qed.

Lemma kmem_n_pt n :
  (n <= 100)%nat -> n <> O -> listed n = true ->
  pt_inv kend0 root0 (kmem_n n) (free_n n) {[root0 := (4%nat, 0)]} /\
  forall va, uspace root0 (mem_n n) va = None.
Proof.
  intros Hn N0 Hl. apply (pt_inv_empty kend0 root0 (kmem_n n)); [split|apply kend0_page_ok| |apply mem_n_root].
  - pose proof (is_list_idx n (mem_n n)) as H. rewrite decide_False in H by done. apply H.
    intros i Hi. unfold listed in Hl. rewrite forallb_forall in Hl. apply Z.eqb_eq, Hl.
    apply list_elem_of_In. unfold idx. rewrite elem_of_reverse, elem_of_seqZ. lia.
  - unfold free_n. apply NoDup_fmap; [|unfold idx; rewrite reverse_Permutation; apply NoDup_seqZ].
    intros i j. unfold page_at. lia.
  - unfold free_n. apply Forall_fmap, Forall_forall. intros i Hi%idx_in. apply page_at_ok. lia.
  - unfold free_n. rewrite list_elem_of_fmap. intros (i & E & Hi%idx_in). unfold root0, page_at in E. lia.
Qed.

(** A process of 5000 bytes, in a memory of [n] pages. *)
Lemma grown_n n k :
  (n <= 100)%nat -> n <> O -> listed n = true -> allocuvm kend0 root0 0 5000 (kmem_n n) = Ok (5000, k) ->
  exists l own, pt_inv kend0 root0 k l own /\
    forall va, 0 <= va < 5000 -> uspace root0 (km_mem k) va <> None.
Proof.
  intros Hn N0 Hl Ek. destruct (kmem_n_pt n Hn N0 Hl) as [I0 U0].
  destruct (allocuvm_spec kend0 root0 kend0_above (kmem_n n) (free_n n) _ 0 5000 I0)
    as (r & k' & l' & o' & E & I' & _ & H & _); [split; lia|lia|intros; apply U0|].
  pose proof (eq_trans (eq_sym Ek) E) as E2. clear E Ek. injection E2 as <- <-. exists l', o'. split; [exact I'|].
  destruct H as [[? _]|[_ H]]; [lia|]. intros va Hva. rewrite H by (unfold user_va; lia).
  rewrite decide_True; [done|]. unfold page_in. change (PGROUNDUP 0) with 0. Z.to_euclidean_division_equations; lia.
Qed.

(** The free pages left, by the free list. *)
Fixpoint free_count (fuel : nat) (m : mem) (p : Z) : nat :=
  match fuel with
  | O => O
  | S fuel => if p =? 0 then O else S (free_count fuel m (load64 m p))
  end.

Lemma free_count_ok kend k l fuel :
  kalloc_inv kend k l -> free_count fuel (km_mem k) (freelist k) = (length l `min` fuel)%nat.
Proof.
  intros [Hl _ Hp]. revert l Hl Hp. generalize (freelist k). induction fuel as [|fuel IH]; intros p l Hl Hp.
  - by rewrite Nat.min_0_r.
  - destruct l as [|q l]; simpl in *; [by subst p|]. destruct Hl as [-> Hl]. apply Forall_cons_1 in Hp as [Hq Hp].
    destruct (Z.eqb_spec q 0) as [->|]; [by apply page_ok_nonzero in Hq|]. f_equal. by apply IH.
Qed.

Definition grown_ok (n left : nat) : bool :=
  match allocuvm kend0 root0 0 5000 (kmem_n n) with
  | Ok (r, k) => (r =? 5000) && (free_count 100 (km_mem k) (freelist k) =? left)%nat
  | _ => false
  end.

Lemma grown_case n left :
  (n <= 100)%nat -> n <> O -> (left < 100)%nat -> listed n = true -> grown_ok n left = true ->
  exists k l own, allocuvm kend0 root0 0 5000 (kmem_n n) = Ok (5000, k) /\ pt_inv kend0 root0 k l own /\
    (forall va, 0 <= va < 5000 -> uspace root0 (km_mem k) va <> None) /\ length l = left.
Proof.
  intros Hn N0 Hleft Hl Hg. unfold grown_ok in Hg.
  destruct (allocuvm kend0 root0 0 5000 (kmem_n n)) as [[r k]| | |] eqn:E; [|done..].
  apply andb_true_iff in Hg as [Hr Hc]. apply Z.eqb_eq in Hr as ->. apply Nat.eqb_eq in Hc.
  destruct (grown_n n k Hn N0 Hl E) as (l & own & I & Hm). exists k, l, own.
  do 3 (split; [done|]). rewrite (free_count_ok kend0 k l) in Hc by apply I. lia.
Qed.

Lemma grown12 : exists k l own, allocuvm kend0 root0 0 5000 (kmem_n 12) = Ok (5000, k) /\
  pt_inv kend0 root0 k l own /\ (forall va, 0 <= va < 5000 -> uspace root0 (km_mem k) va <> None) /\
  length l = 7%nat.
Proof. apply grown_case; [lia|lia|lia|vm_compute; reflexivity|vm_compute; reflexivity]. Qed.

Lemma grown8 : exists k l own, allocuvm kend0 root0 0 5000 (kmem_n 8) = Ok (5000, k) /\
  pt_inv kend0 root0 k l own /\ (forall va, 0 <= va < 5000 -> uspace root0 (km_mem k) va <> None) /\
  length l = 3%nat.
Proof. apply grown_case; [lia|lia|lia|vm_compute; reflexivity|vm_compute; reflexivity]. Qed.

Lemma freevm_correct_witness :
  exists k l own k' l', allocuvm kend0 root0 0 5000 (kmem_n 12) = Ok (5000, k) /\
    pt_inv kend0 root0 k l own /\ length l = 7%nat /\
    freevm kend0 root0 k = Ok (tt, k') /\ kalloc_inv kend0 k' l' /\
    list_to_set l' = pages_of l own /\ length l' = (7 + size own)%nat.
Proof.
  destruct grown12 as (k & l & own & E & I & _ & Hl).
  destruct (freevm_correct kend0 root0 k l own kend0_above I) as (k' & l' & E' & Ik & El & Hs & _).
  exists k, l, own, k', l'. repeat (split; [assumption|]). rewrite Hs, Hl. reflexivity.
Defined.

Definition copy_ok (k0 : kmem) : bool :=
  match allocuvm kend0 root0 0 5000 k0 with
  | Ok (_, k) => if copyuvm kend0 root0 root0 5000 k is Ok (r, _) then negb (r =? 0) else false
  | _ => false
  end.

Lemma copy_case k0 k r k' :
  copy_ok k0 = true -> allocuvm kend0 root0 0 5000 k0 = Ok (5000, k) ->
  copyuvm kend0 root0 root0 5000 k = Ok (r, k') -> r <> 0.
Proof. unfold copy_ok. intros H E E'. rewrite E, E' in H. by apply negb_true_iff, Z.eqb_neq in H. Qed.

Lemma copy12 : copy_ok (kmem_n 12) = true.
Proof. vm_compute. reflexivity. Qed.

Lemma copyuvm_correct_witness :
  exists k d k', allocuvm kend0 root0 0 5000 (kmem_n 12) = Ok (5000, k) /\
    copyuvm kend0 root0 root0 5000 k = Ok (d, k') /\ d <> 0 /\
    forall va, user_va va -> uspace d (km_mem k') va =
      if decide (page_in PGSIZE 5000 va) then uspace root0 (km_mem k) va else None.
Proof.
  destruct grown12 as (k & l & own & E & I & Hm & Hl). destruct l as [|d l]; [discriminate Hl|].
  destruct (copyuvm_correct kend0 root0 root0 5000 d k l own kend0_above I) as (r & k' & l' & E' & _ & _ & _ & H).
  - split; reflexivity || discriminate.
  - intros va Hva. apply Hm. unfold PGSIZE in Hva. lia.
  - pose proof (copy_case _ k r k' copy12 E E') as Hc.
    destruct H as [(-> & o' & _ & _ & _ & U)|[-> _]]; [|by destruct Hc].
    exists k, d, k'. repeat (split; [assumption|]). exact U.
Defined.

Lemma copyuvm_leaks_page_witness :
  exists k d c l own k' l', allocuvm kend0 root0 0 5000 (kmem_n 8) = Ok (5000, k) /\
    pt_inv kend0 root0 k (d :: c :: l) own /\ copyuvm kend0 root0 root0 5000 k = Ok (0, k') /\
    list_to_set l' =@{gset Z} list_to_set (d :: l) /\ c ∉ l' /\ own !! c = None.
Proof.
  destruct grown8 as (k & l & own & E & I & Hm & Hl).
  destruct l as [|d [|c l]]; [discriminate Hl|discriminate Hl|].
  destruct (copyuvm_leaks_page kend0 root0 root0 5000 d c k l own kend0_above I) as (k' & l' & E' & _ & El & Hc & Ho).
  - split; reflexivity.
  - apply Hm. split; reflexivity || discriminate.
  - simpl in Hl. lia.
  - exists k, d, c, l, own, k', l'. repeat (split; [assumption|]). assumption.
Defined.
