(* ===== verification/Ide.v ===== *)
(** * The disk driver: ide.c, with struct buf of buf.h

    The driver programs the controller through its command block registers and
    learns of a completed request by an interrupt.  The controller is the one
    documented for LBA28 PIO transfers: four registers hold the sector number
    and the drive, writing the command register starts a transfer, and a write
    is on the disk when its interrupt arrives.  [idequeue] and [qnext] are
    pointers to buffers: [option Z], with the index of the buffer. *)
From S2P Require Import Prelude Sleeplock.

Definition BSIZE : Z := 512.
Definition FSSIZE : Z := 1000.
Definition B_VALID : Z := 2.
Definition B_DIRTY : Z := 4.

Notation blk := (list Z).

Record buf : Type := Buf {
  b_flags : Z;
  b_dev : Z;
  b_blockno : Z;
  b_lock : sleeplock;
  b_refcnt : Z;
  b_prev : Z;
  b_next : Z;
  b_qnext : option Z;
  b_data : blk;
}.

Definition set_flags v b := Buf v (b_dev b) (b_blockno b) (b_lock b) (b_refcnt b) (b_prev b) (b_next b) (b_qnext b) (b_data b).
Definition set_lock v b := Buf (b_flags b) (b_dev b) (b_blockno b) v (b_refcnt b) (b_prev b) (b_next b) (b_qnext b) (b_data b).
Definition set_refcnt v b := Buf (b_flags b) (b_dev b) (b_blockno b) (b_lock b) v (b_prev b) (b_next b) (b_qnext b) (b_data b).
Definition set_prev v b := Buf (b_flags b) (b_dev b) (b_blockno b) (b_lock b) (b_refcnt b) v (b_next b) (b_qnext b) (b_data b).
Definition set_next v b := Buf (b_flags b) (b_dev b) (b_blockno b) (b_lock b) (b_refcnt b) (b_prev b) v (b_qnext b) (b_data b).
Definition set_qnext v b := Buf (b_flags b) (b_dev b) (b_blockno b) (b_lock b) (b_refcnt b) (b_prev b) (b_next b) v (b_data b).
Definition set_data v b := Buf (b_flags b) (b_dev b) (b_blockno b) (b_lock b) (b_refcnt b) (b_prev b) (b_next b) (b_qnext b) v.

(** ** The controller *)

Inductive dreq : Type :=
  | RdReq (unit sector : Z)
  | WrReq (unit sector : Z) (data : blk).

Record hw : Type := Hw {
  regs : Z -> Z;               (** command block registers, by port *)
  disk : Z -> Z -> blk;      (** drive, sector *)
  req : option dreq;           (** the transfer in progress *)
  trace : list (Z * Z * blk) (** completed writes, oldest first *)
}.

Definition IDE_BSY : Z := 128.
Definition IDE_DRDY : Z := 64.
Definition IDE_DF : Z := 32.
Definition IDE_ERR : Z := 1.
Definition IDE_CMD_READ : Z := 32.
Definition IDE_CMD_WRITE : Z := 48.

(** The sector and drive the registers address. *)
Definition lba (r : Z -> Z) : Z :=
  Z.lor (Z.lor (Z.lor (r 499) (Z.shiftl (r 500) 8)) (Z.shiftl (r 501) 16))
    (Z.shiftl (Z.land (r 502) 15) 24).
Definition drive (r : Z -> Z) : Z := Z.land (Z.shiftr (r 502) 4) 1.

(** [outb] to port 0x1f7 (503) is a command, to the other ports it sets a
    register. *)
Definition hw_outb (port v : Z) (h : hw) : hw :=
  if port =? 503 then
    if v =? IDE_CMD_READ then Hw (regs h) (disk h) (Some (RdReq (drive (regs h)) (lba (regs h)))) (trace h)
    else if v =? IDE_CMD_WRITE then Hw (regs h) (disk h) (Some (WrReq (drive (regs h)) (lba (regs h)) [])) (trace h)
    else h
  else Hw (<[port := u8 v]> (regs h)) (disk h) (req h) (trace h).

(** [outsl(0x1f0, data, BSIZE/4)] supplies the data of a write. *)
Definition hw_outsl (data : blk) (h : hw) : hw :=
  match req h with
  | Some (WrReq u s _) => Hw (regs h) (disk h) (Some (WrReq u s data)) (trace h)
  | _ => h
  end.

Definition write_disk (u s : Z) (data : blk) (d : Z -> Z -> blk) : Z -> Z -> blk :=
  <[u := <[s := data]> (d u)]> d.

(** The transfer ends: a write reaches the disk.  The controller then raises
    the interrupt and keeps the sector of a read for [insl]. *)
Definition hw_complete (h : hw) : hw :=
  match req h with
  | Some (WrReq u s data) =>
      Hw (regs h) (write_disk u s data (disk h)) None (trace h ++ [(u, s, data)])
  | _ => h
  end.

(** [insl(0x1f0, data, BSIZE/4)] *)
Definition hw_insl (h : hw) : option blk :=
  match req h with Some (RdReq u s) => Some (disk h u s) | _ => None end.

(** ** The driver *)

Record io : Type := Io {
  bufs : Z -> buf;
  idequeue : option Z;
  havedisk1 : bool;
  ctl : hw;
}.

Definition upd_buf (i : Z) (f : buf -> buf) : M io unit :=
  modify (fun s => Io (<[i := f (bufs s i)]> (bufs s)) (idequeue s) (havedisk1 s) (ctl s)).
Definition set_queue (q : option Z) : M io unit :=
  modify (fun s => Io (bufs s) q (havedisk1 s) (ctl s)).
Definition upd_hw (f : hw -> hw) : M io unit :=
  modify (fun s => Io (bufs s) (idequeue s) (havedisk1 s) (f (ctl s))).
Definition buf_at (i : Z) : M io buf := gets (fun s => bufs s i).
Definition outb (port v : Z) : M io unit := upd_hw (hw_outb port v).

(** The result of [idewait] once the status [r] says ready. *)
Definition idewait (checkerr : bool) (r : Z) : Z :=
  if checkerr && negb (Z.land r (Z.lor IDE_DF IDE_ERR) =? 0) then -1 else 0.

Definition dirty (b : buf) : bool := negb (Z.land (b_flags b) B_DIRTY =? 0).
(** [(b->flags & (B_VALID|B_DIRTY)) == B_VALID] *)
Definition in_sync (b : buf) : bool :=
  Z.land (b_flags b) (Z.lor B_VALID B_DIRTY) =? B_VALID.

Definition idestart (q : option Z) : M io unit :=
  match q with
  | None => panic "idestart"
  | Some i =>
      let! b := buf_at i in
      if FSSIZE <=? b_blockno b then panic "incorrect blockno"
      else
        let sector_per_block := 1 in
        let sector := s32 (b_blockno b * sector_per_block) in
        do! outb 1014 0 in
        do! outb 498 sector_per_block in
        do! outb 499 (Z.land sector 255) in
        do! outb 500 (Z.land (Z.shiftr sector 8) 255) in
        do! outb 501 (Z.land (Z.shiftr sector 16) 255) in
        do! outb 502 (Z.lor (Z.lor 224 (Z.shiftl (Z.land (b_dev b) 1) 4))
                         (Z.land (Z.shiftr sector 24) 15)) in
        if dirty b then
          do! outb 503 IDE_CMD_WRITE in
          upd_hw (hw_outsl (b_data b))
        else outb 503 IDE_CMD_READ
  end.

(** The interrupt handler; [r] is the status it reads. *)
Definition ideintr (r : Z) : M io unit :=
  let! q := gets idequeue in
  match q with
  | None => ret tt
  | Some i =>
      let! b := buf_at i in
      do! set_queue (b_qnext b) in
      do! (if negb (dirty b) && (0 <=? idewait true r) then
             let! d := gets (fun s => hw_insl (ctl s)) in
             match d with Some data => upd_buf i (set_data data) | None => ret tt end
           else ret tt) in
      do! upd_buf i (fun b => set_flags (Z.lor (b_flags b) B_VALID) b) in
      do! upd_buf i (fun b => set_flags (Z.land (b_flags b) (Z.lnot B_DIRTY)) b) in
      match b_qnext b with
      | None => ret tt
      | Some j => idestart (Some j)
      end
  end.

(** The walk to the end of the queue: the last buffer of it. *)
Fixpoint queue_last (fuel : nat) (i : Z) : M io Z :=
  match fuel with
  | O => out_of_fuel
  | S fuel =>
      let! b := buf_at i in
      match b_qnext b with None => ret i | Some j => queue_last fuel j end
  end.

(** The part of [iderw] before it waits.  At most [NBUF] buffers queue up. *)
Definition NBUF : Z := 30.
Definition iderw_start (i : Z) : M io unit :=
  let! b := buf_at i in
  if negb (holdingsleep (b_lock b)) then panic "iderw: buf not locked"
  else if in_sync b then panic "iderw: nothing to do"
  else
    let! have := gets havedisk1 in
    if negb (b_dev b =? 0) && negb have then panic "iderw: ide disk 1 not present"
    else
      do! upd_buf i (set_qnext None) in
      let! q := gets idequeue in
      do! (match q with
           | None => set_queue (Some i)
           | Some h =>
               let! last := queue_last (S (Z.to_nat NBUF)) h in
               upd_buf last (set_qnext (Some i))
           end) in
      let! q := gets idequeue in
      if bool_decide (q = Some i) then idestart q else ret tt.

(** A transfer completes and the controller interrupts, with status [r]. *)
Definition interrupt (r : Z) : M io unit :=
  do! upd_hw hw_complete in ideintr r.

(** Waiting: interrupts arrive until the buffer is in sync. *)
Fixpoint iderw_wait (n : nat) (i : Z) : M io unit :=
  let! b := buf_at i in
  if in_sync b then ret tt
  else match n with
       | O => block
       | S n => do! interrupt IDE_DRDY in iderw_wait n i
       end.

Definition iderw (i : Z) : M io unit :=
  do! iderw_start i in iderw_wait (S (Z.to_nat NBUF)) i.

(** ** Addressing *)

Lemma lba_sector r s :
  0 <= s < FSSIZE ->
  r 499 = Z.land s 255 -> r 500 = Z.land (Z.shiftr s 8) 255 ->
  r 501 = Z.land (Z.shiftr s 16) 255 -> Z.land (r 502) 15 = Z.land (Z.shiftr s 24) 15 ->
  lba r = s.
Proof.
  intros Hs E1 E2 E3 E4. unfold lba. rewrite E1, E2, E3, E4.
  assert (H : forallb (fun s => Z.lor (Z.lor (Z.lor (Z.land s 255)
      (Z.shiftl (Z.land (Z.shiftr s 8) 255) 8)) (Z.shiftl (Z.land (Z.shiftr s 16) 255) 16))
      (Z.shiftl (Z.land (Z.shiftr s 24) 15) 24) =? s) (seqZ 0 FSSIZE) = true)
    by (vm_compute; reflexivity).
  rewrite forallb_forall in H. apply Z.eqb_eq, H.
  apply list_elem_of_In, elem_of_seqZ. lia.
Qed.

Lemma land_1_cases x : Z.land x 1 = 0 \/ Z.land x 1 = 1.
Proof.
  assert (E : Z.land x 1 = x mod 2) by (apply (Z.land_ones x 1); lia).
  pose proof (Z.mod_pos_bound x 2). lia.
Qed.

(** The request [idestart] makes for a buffer. *)
Definition request (b : buf) : dreq :=
  if dirty b then WrReq (Z.land (b_dev b) 1) (b_blockno b) (b_data b)
  else RdReq (Z.land (b_dev b) 1) (b_blockno b).

Definition set_req (q : option dreq) (h : hw) : hw := Hw (regs h) (disk h) q (trace h).

Lemma outb_reg port v f q h r d rq t :
  port <> 503 ->
  outb port v (Io f q h (Hw r d rq t)) = Ok (tt, Io f q h (Hw (<[port := u8 v]> r) d rq t)).
Proof.
  intros Hp. unfold outb, upd_hw, modify, hw_outb. by destruct (Z.eqb_spec port 503).
Qed.

Lemma outb_read f q h r d rq t :
  outb 503 IDE_CMD_READ (Io f q h (Hw r d rq t)) =
  Ok (tt, Io f q h (Hw r d (Some (RdReq (drive r) (lba r))) t)).
Proof. reflexivity. Qed.

Lemma outb_write f q h r d rq t data :
  (do! outb 503 IDE_CMD_WRITE in upd_hw (hw_outsl data)) (Io f q h (Hw r d rq t)) =
  Ok (tt, Io f q h (Hw r d (Some (WrReq (drive r) (lba r) data)) t)).
Proof. reflexivity. Qed.

Lemma idestart_spec i s :
  0 <= b_blockno (bufs s i) < FSSIZE ->
  exists r, idestart (Some i) s = Ok (tt, Io (bufs s) (idequeue s) (havedisk1 s)
    (Hw r (disk (ctl s)) (Some (request (bufs s i))) (trace (ctl s)))).
Proof.
  intros Hb. destruct s as [f q h [r0 d rq t]]. cbn [bufs idequeue havedisk1 ctl disk trace] in *.
  unfold idestart. rewrite (bind_Ok _ _ _ (f i) _) by done.
  destruct (Z.leb_spec FSSIZE (b_blockno (f i))); [lia|].
  set (sec := s32 (b_blockno (f i) * 1)).
  assert (Esec : sec = b_blockno (f i)).
  { unfold sec. unfold FSSIZE in Hb. rewrite Z.mul_1_r.
    apply s32_small. lia. }
  rewrite Esec. clear sec Esec. set (bn := b_blockno (f i)) in *.
  set (v502 := Z.lor (Z.lor 224 (Z.shiftl (Z.land (b_dev (f i)) 1) 4))
    (Z.land (Z.shiftr bn 24) 15)).
  set (r := <[502 := u8 v502]> (<[501 := u8 (Z.land (Z.shiftr bn 16) 255)]>
    (<[500 := u8 (Z.land (Z.shiftr bn 8) 255)]> (<[499 := u8 (Z.land bn 255)]>
    (<[498 := u8 1]> (<[1014 := u8 0]> r0)))))).
  assert (Hbyte : forall x, u8 (Z.land x 255) = Z.land x 255).
  { intros x. change 255 with (Z.ones 8). rewrite Z.land_ones by lia.
    apply u8_small. change (2 ^ 8) with 256. apply Z.mod_pos_bound. lia. }
  assert (E24 : Z.shiftr bn 24 = 0).
  { rewrite Z.shiftr_div_pow2 by lia. apply Z.div_small. unfold FSSIZE in Hb.
    change (2 ^ 24) with 16777216. lia. }
  assert (El : lba r = bn).
  { apply lba_sector; try done; try (unfold r; rewrite ?fn_lookup_insert_ne by done;
      rewrite ?fn_lookup_insert; apply Hbyte).
    unfold r. rewrite fn_lookup_insert. unfold v502. rewrite E24.
    by destruct (land_1_cases (b_dev (f i))) as [->| ->]. }
  assert (Ed : drive r = Z.land (b_dev (f i)) 1).
  { unfold drive, r. rewrite fn_lookup_insert. unfold v502. rewrite E24.
    by destruct (land_1_cases (b_dev (f i))) as [->| ->]. }
  exists r. cbv zeta.
  do 6 (erewrite bind_Ok by (by apply outb_reg)).
  fold v502. fold r. unfold request. destruct (dirty (f i)).
  - rewrite outb_write. by rewrite El, Ed.
  - rewrite outb_read. by rewrite El, Ed.
Qed.

(** ** The queue *)

Fixpoint is_queue (f : Z -> buf) (q : option Z) (l : list Z) : Prop :=
  match l with
  | [] => q = None
  | i :: l => q = Some i /\ is_queue f (b_qnext (f i)) l
  end.

(** A buffer a request may be made for. *)
Definition buf_ok (b : buf) : Prop := 0 <= b_blockno b < FSSIZE /\ 0 <= b_flags b < 8.

(** The queue holds the buffers [l], first come first, none of them in sync
    with the disk; the controller works on the first. *)
Record iq_inv (s : io) (l : list Z) : Prop := {
  iq_queue : is_queue (bufs s) (idequeue s) l;
  iq_nodup : NoDup l;
  iq_bufs : forall i, i ∈ l -> buf_ok (bufs s i) /\ in_sync (bufs s i) = false;
  iq_req : forall i l', l = i :: l' -> req (ctl s) = Some (request (bufs s i));
}.

Lemma is_queue_ext f g q l :
  (forall i, i ∈ l -> b_qnext (f i) = b_qnext (g i)) -> is_queue f q l -> is_queue g q l.
Proof.
  revert q. induction l as [|i l IH]; intros q H; simpl; [done|].
  intros [-> Hl]. split; [done|]. rewrite <-H by left. apply IH; [|done].
  intros j Hj. apply H. by right.
Qed.

Lemma sync_flags f : 0 <= f < 8 ->
  Z.land (Z.land (Z.lor f B_VALID) (Z.lnot B_DIRTY)) (Z.lor B_VALID B_DIRTY) = B_VALID /\
  0 <= Z.land (Z.lor f B_VALID) (Z.lnot B_DIRTY) < 8.
Proof.
  intros Hf. assert (f = 0 \/ f = 1 \/ f = 2 \/ f = 3 \/ f = 4 \/ f = 5 \/ f = 6 \/ f = 7) by lia.
  repeat match goal with H : _ \/ _ |- _ => destruct H as [->|H] end; subst; done.
Qed.

(** The buffer and the disk after a completed request for [b]. *)
Definition done_buf (d : Z -> Z -> blk) (b : buf) : buf :=
  set_flags (Z.land (Z.lor (b_flags b) B_VALID) (Z.lnot B_DIRTY))
    (if dirty b then b else set_data (d (Z.land (b_dev b) 1) (b_blockno b)) b).
Definition done_disk (b : buf) (d : Z -> Z -> blk) : Z -> Z -> blk :=
  if dirty b then write_disk (Z.land (b_dev b) 1) (b_blockno b) (b_data b) d else d.
Definition done_trace (b : buf) : list (Z * Z * blk) :=
  if dirty b then [(Z.land (b_dev b) 1, b_blockno b, b_data b)] else [].

Lemma done_buf_sync d b : buf_ok b -> in_sync (done_buf d b) = true.
Proof.
  intros [_ Hf]. unfold in_sync. apply Z.eqb_eq.
  destruct (sync_flags _ Hf) as [E _]. unfold done_buf. by destruct (dirty b).
Qed.

Lemma done_buf_fields d b :
  b_dev (done_buf d b) = b_dev b /\ b_blockno (done_buf d b) = b_blockno b /\
  b_lock (done_buf d b) = b_lock b /\ b_refcnt (done_buf d b) = b_refcnt b /\
  b_prev (done_buf d b) = b_prev b /\ b_next (done_buf d b) = b_next b /\
  b_qnext (done_buf d b) = b_qnext b.
Proof. unfold done_buf. by destruct (dirty b). Qed.

(** The interrupt for the request at the head of the queue. *)
Lemma interrupt_spec s i l :
  iq_inv s (i :: l) ->
  exists s', interrupt IDE_DRDY s = Ok (tt, s') /\ iq_inv s' l /\
    bufs s' = <[i := done_buf (disk (ctl s)) (bufs s i)]> (bufs s) /\
    disk (ctl s') = done_disk (bufs s i) (disk (ctl s)) /\
    trace (ctl s') = trace (ctl s) ++ done_trace (bufs s i) /\
    havedisk1 s' = havedisk1 s.
Proof.
  intros [Hq Hn Hb Hr]. destruct s as [f q h [r d rq t]]. simpl in *.
  destruct Hq as [-> Hq]. apply NoDup_cons in Hn as [Hi Hn].
  rewrite (Hr i l eq_refl). clear Hr.
  set (b := f i) in *. destruct (Hb i) as [Hok Hns]; [left|]. fold b in Hok, Hns.
  (* the state before the next request is started *)
  assert (Hpre : exists rq',
    (do! upd_hw hw_complete in ideintr IDE_DRDY) (Io f (Some i) h (Hw r d (Some (request b)) t)) =
    match b_qnext b with None => ret tt | Some j => idestart (Some j) end
      (Io (<[i := done_buf d b]> f) (b_qnext b) h
         (Hw r (done_disk b d) rq' (t ++ done_trace b)))).
  { unfold done_buf, done_disk, done_trace, request.
    destruct (dirty b) eqn:Hd.
    - exists None. unfold bind, upd_hw, modify, hw_complete. cbn [req ctl bufs idequeue havedisk1 regs disk trace].
      unfold ideintr, bind, gets. cbn [idequeue]. unfold buf_at, gets. cbn [bufs]. fold b.
      unfold set_queue, modify. rewrite Hd. cbn [negb andb bufs idequeue havedisk1 ctl].
      unfold ret, upd_buf, modify. cbn [bufs idequeue havedisk1 ctl].
      rewrite fn_lookup_insert. fold b. cbn [b_flags set_flags].
      by rewrite fn_insert_insert.
    - exists (Some (RdReq (Z.land (b_dev b) 1) (b_blockno b))).
      unfold bind, upd_hw, modify, hw_complete. cbn [req ctl bufs idequeue havedisk1 regs disk trace].
      unfold ideintr, bind, gets. cbn [idequeue]. unfold buf_at, gets. cbn [bufs]. fold b.
      unfold set_queue, modify. rewrite Hd. cbn [negb andb bufs idequeue havedisk1 ctl].
      change (0 <=? idewait true IDE_DRDY) with true. cbn iota.
      unfold hw_insl. cbn [req disk bufs idequeue havedisk1 ctl]. unfold upd_buf, modify. cbn [bufs idequeue havedisk1 ctl].
      rewrite !fn_lookup_insert. fold b. cbn [b_flags set_flags set_data].
      by rewrite !fn_insert_insert, app_nil_r. }
  destruct Hpre as [rq' E]. unfold interrupt. rewrite E. clear E.
  assert (Hf' : forall j, j ∈ l -> (<[i := done_buf d b]> f : Z -> buf) j = f j).
  { intros j Hj. rewrite fn_lookup_insert_ne; [done|]. by intros ->. }
  assert (Hq' : is_queue (<[i := done_buf d b]> f) (b_qnext b) l).
  { eapply is_queue_ext; [|exact Hq]. intros j Hj. by rewrite Hf'. }
  assert (Hb' : forall j, j ∈ l -> buf_ok ((<[i := done_buf d b]> f : Z -> buf) j) /\
    in_sync ((<[i := done_buf d b]> f : Z -> buf) j) = false).
  { intros j Hj. rewrite Hf' by done. apply Hb. by right. }
  destruct l as [|j l]; simpl in Hq.
  - rewrite Hq in *. eexists. split; [reflexivity|]. split; [|done].
    split; try done.
  - destruct Hq as [Ej Hq]. rewrite Ej in *.
    destruct (idestart_spec j (Io (<[i := done_buf d b]> f) (Some j) h
      (Hw r (done_disk b d) rq' (t ++ done_trace b)))) as [r' E]; [apply Hb'; left|].
    rewrite E. eexists. split; [reflexivity|]. split; [|done].
    split; try done. by intros ? ? [= <- <-].
Qed.

Lemma queue_last_spec f q h c l i fuel :
  is_queue f (Some i) l -> (length l <= fuel)%nat ->
  exists j l', l = l' ++ [j] /\ queue_last fuel i (Io f q h c) = Ok (j, Io f q h c).
Proof.
  revert l i. induction fuel as [|fuel IH]; intros l i Hq Hf.
  { destruct l; simpl in *; [done|lia]. }
  destruct l as [|i' l]; simpl in Hq; [done|]. destruct Hq as [[= <-] Hq].
  cbn [queue_last]. rewrite (bind_Ok _ _ _ (f i) _) by done.
  destruct (b_qnext (f i)) as [j|] eqn:E.
  - destruct (IH l j Hq) as (j' & l' & -> & El); [simpl in *; lia|].
    exists j', (i :: l'). by rewrite El.
  - destruct l; simpl in Hq; [|by destruct Hq]. by exists i, [].
Qed.

Lemma is_queue_app f q l i j :
  is_queue f q (l ++ [i]) -> NoDup (l ++ [i]) -> j ∉ l ++ [i] -> b_qnext (f j) = None ->
  is_queue (<[i := set_qnext (Some j) (f i)]> f) q ((l ++ [i]) ++ [j]).
Proof.
  revert q. induction l as [|k l IH]; intros q; simpl.
  - intros [-> _] _ Hj Hn. split; [done|]. rewrite fn_lookup_insert. simpl.
    split; [done|]. rewrite fn_lookup_insert_ne; [done|]. set_solver.
  - intros [-> Hq] [Hk Hn]%NoDup_cons Hj Hnj. split; [done|].
    rewrite fn_lookup_insert_ne by set_solver. apply IH; try done. set_solver.
Qed.

(** Queueing a request. *)
Lemma iderw_start_spec s l i :
  iq_inv s l -> i ∉ l -> (length l <= Z.to_nat NBUF)%nat ->
  buf_ok (bufs s i) -> in_sync (bufs s i) = false -> sl_locked (b_lock (bufs s i)) = true ->
  b_dev (bufs s i) = 0 \/ havedisk1 s = true ->
  exists s', iderw_start i s = Ok (tt, s') /\ iq_inv s' (l ++ [i]) /\
    (forall j, exists q, bufs s' j = set_qnext q (bufs s j)) /\
    disk (ctl s') = disk (ctl s) /\ trace (ctl s') = trace (ctl s) /\
    havedisk1 s' = havedisk1 s.
Proof.
  intros [Hq Hn Hb Hr] Hi Hl Hok Hns Hlk Hdev. destruct s as [f q h c]. simpl in *.
  unfold iderw_start. rewrite (bind_Ok _ _ _ (f i) _) by done.
  unfold holdingsleep. rewrite Hlk, Hns. simpl.
  rewrite (bind_Ok _ _ _ h _) by done.
  assert (negb (b_dev (f i) =? 0) && negb h = false) as ->.
  { destruct Hdev as [->| ->]; [done|]. apply andb_false_r. }
  set (f1 := <[i := set_qnext None (f i)]> f : Z -> buf).
  rewrite (bind_Ok _ _ _ tt (Io f1 q h c)) by done.
  rewrite (bind_Ok _ _ _ q (Io f1 q h c)) by done.
  assert (Hf1 : forall j, j ∈ l -> f1 j = f j).
  { intros j Hj. unfold f1. rewrite fn_lookup_insert_ne; [done|]. by intros ->. }
  assert (Hf1i : f1 i = set_qnext None (f i)) by (unfold f1; by rewrite fn_lookup_insert).
  assert (Hq1 : is_queue f1 q l) by (eapply is_queue_ext; [|exact Hq]; intros j Hj; by rewrite Hf1).
  assert (Hset1 : forall j, exists q, f1 j = set_qnext q (f j)).
  { intros j. destruct (decide (j = i)) as [->|N]; [by exists None|].
    exists (b_qnext (f j)). unfold f1. rewrite fn_lookup_insert_ne by done. by destruct (f j). }
  destruct q as [hd|].
  - destruct (queue_last_spec f1 (Some hd) h c l hd (S (Z.to_nat NBUF)) Hq1) as (j & l' & -> & E);
      [lia|].
    erewrite bind_Ok by (erewrite bind_Ok by exact E; reflexivity).
    rewrite (bind_Ok _ _ _ (Some hd) _) by done. cbn [bufs].
    rewrite bool_decide_false.
    2: { destruct l'; simpl in Hq; destruct Hq as [[= ->] _]; set_solver. }
    set (f2 := <[j := set_qnext (Some i) (f1 j)]> f1 : Z -> buf).
    assert (Hset : forall k, exists q, f2 k = set_qnext q (f k)).
    { intros k. unfold f2. destruct (decide (j = k)) as [<-|].
      - rewrite fn_lookup_insert. destruct (Hset1 j) as [q' ->]. by exists (Some i).
      - rewrite fn_lookup_insert_ne by done. apply Hset1. }
    eexists. split; [reflexivity|]. split; [|done]. split; simpl.
    + apply is_queue_app; try done. by rewrite Hf1i.
    + apply NoDup_app. split; [done|]. split; [set_solver|apply NoDup_singleton].
    + intros k Hk. destruct (Hset k) as [q' ->].
      assert (buf_ok (f k) /\ in_sync (f k) = false) as []; [|done].
      apply elem_of_app in Hk as [Hk|Hk]; [by apply Hb|].
      apply list_elem_of_singleton in Hk as ->. done.
    + intros k l'' El. destruct l' as [|k' l']; simpl in El; injection El as -> _.
      * rewrite (Hr k []) by done. destruct (Hset k) as [q' ->]. done.
      * rewrite (Hr k (l' ++ [j])) by done. destruct (Hset k) as [q' ->]. done.
  - destruct l as [|? ?]; simpl in Hq1; [|by destruct Hq1]. simpl.
    rewrite (bind_Ok _ _ _ tt (Io f1 (Some i) h c)) by done.
    rewrite (bind_Ok _ _ _ (Some i) _) by done. rewrite bool_decide_true by done.
    destruct (idestart_spec i (Io f1 (Some i) h c)) as [r E]; [simpl; rewrite Hf1i; apply Hok|].
    rewrite E. eexists. split; [reflexivity|]. split; [|done]. split; simpl.
    + split; [done|]. by rewrite Hf1i.
    + apply NoDup_singleton.
    + intros k ->%list_elem_of_singleton. rewrite Hf1i. done.
    + by intros ? ? [= <- <-].
Qed.

(** [n] interrupts in a row. *)
Fixpoint interrupts (n : nat) : M io unit :=
  match n with
  | O => ret tt
  | S n => do! interrupt IDE_DRDY in interrupts n
  end.

(** The disk and its writes once the requests of [l] are served in order. *)
Fixpoint serve (f : Z -> buf) (l : list Z) (d : Z -> Z -> blk) : Z -> Z -> blk :=
  match l with [] => d | i :: l => serve f l (done_disk (f i) d) end.
Definition served (f : Z -> buf) (l : list Z) : list (Z * Z * blk) :=
  flat_map (fun i => done_trace (f i)) l.

Lemma serve_ext f g l d :
  (forall i, i ∈ l -> f i = g i) -> serve f l d = serve g l d /\ served f l = served g l.
Proof.
  revert d. induction l as [|i l IH]; intros d H; [done|]. simpl.
  rewrite (H i) by left. destruct (IH (done_disk (g i) d)) as [-> ->]; [|done].
  intros j Hj. apply H. by right.
Qed.

Lemma interrupts_spec l s :
  iq_inv s l ->
  exists s', interrupts (length l) s = Ok (tt, s') /\ iq_inv s' [] /\
    (forall i, i ∉ l -> bufs s' i = bufs s i) /\
    (forall i, i ∈ l -> exists l1 l2, l = l1 ++ i :: l2 /\
       bufs s' i = done_buf (serve (bufs s) l1 (disk (ctl s))) (bufs s i)) /\
    disk (ctl s') = serve (bufs s) l (disk (ctl s)) /\
    trace (ctl s') = trace (ctl s) ++ served (bufs s) l.
Proof.
  revert s. induction l as [|i l IH]; intros s I; simpl.
  { exists s. split; [done|]. split; [done|]. split; [done|]. split; [set_solver|].
    by rewrite app_nil_r. }
  destruct (interrupt_spec s i l I) as (s1 & E1 & I1 & F1 & D1 & T1 & _).
  rewrite (bind_Ok _ _ _ _ _ E1). destruct (IH s1 I1) as (s' & E & I' & Hout & Hin & D & T).
  pose proof (iq_nodup _ _ I) as [Hi Hn]%NoDup_cons.
  assert (Hx : forall j, j <> i -> bufs s1 j = bufs s j).
  { intros j Hj. rewrite F1. by rewrite fn_lookup_insert_ne. }
  assert (Hs : forall l1 d, i ∉ l1 -> serve (bufs s1) l1 d = serve (bufs s) l1 d /\
    served (bufs s1) l1 = served (bufs s) l1).
  { intros l1 d Hl1. apply serve_ext. intros j Hj. apply Hx. by intros ->. }
  exists s'. split; [done|]. split; [done|]. split; [|split; [|split]].
  - intros j [Hj1 Hj2]%not_elem_of_cons. rewrite Hout by done. by apply Hx.
  - intros j Hj. destruct (decide (j = i)) as [->|N].
    + exists [], l. split; [done|]. rewrite Hout by done. rewrite F1.
      by rewrite fn_lookup_insert.
    + apply elem_of_cons in Hj as [->|Hj]; [done|].
      destruct (Hin j Hj) as (l1 & l2 & -> & E2). exists (i :: l1), l2. split; [done|].
      rewrite E2, Hx by done. simpl. rewrite D1.
      destruct (Hs l1 (done_disk (bufs s i) (disk (ctl s)))) as [-> _]; [set_solver|done].
  - rewrite D, D1. by apply Hs.
  - rewrite T, T1, <-app_assoc. f_equal. unfold served. simpl. f_equal.
    by apply (Hs l (disk (ctl s))).
Qed.


(** [iderw] on an idle disk. *)
Lemma iderw_spec s i :
  idequeue s = None -> buf_ok (bufs s i) -> in_sync (bufs s i) = false ->
  sl_locked (b_lock (bufs s i)) = true -> b_dev (bufs s i) = 0 \/ havedisk1 s = true ->
  exists s', iderw i s = Ok (tt, s') /\ idequeue s' = None /\
    (forall j, j <> i -> exists q, bufs s' j = set_qnext q (bufs s j)) /\
    (exists q, bufs s' i = set_qnext q (done_buf (disk (ctl s)) (bufs s i))) /\
    disk (ctl s') = done_disk (bufs s i) (disk (ctl s)) /\
    trace (ctl s') = trace (ctl s) ++ done_trace (bufs s i) /\
    havedisk1 s' = havedisk1 s.
Proof.
  intros Hq Hok Hns Hlk Hdev.
  assert (I0 : iq_inv s []) by (split; [done|constructor|set_solver|done]).
  destruct (iderw_start_spec s [] i I0) as (s1 & E1 & I1 & F1 & D1 & T1 & H1);
    try done; [set_solver|simpl; lia|].
  destruct (F1 i) as [q1 Fi].
  destruct (interrupt_spec s1 i [] I1) as (s2 & E2 & I2 & F2 & D2 & T2 & H2).
  assert (Ed : done_buf (disk (ctl s1)) (bufs s1 i) =
    set_qnext q1 (done_buf (disk (ctl s)) (bufs s i))).
  { rewrite Fi, D1. unfold done_buf, dirty. simpl. by destruct (negb _). }
  exists s2. unfold iderw. rewrite (bind_Ok _ _ _ _ _ E1).
  split; [|split; [apply I2|split; [|split; [|split; [|split]]]]].
  - cbn [iderw_wait Z.to_nat]. rewrite (bind_Ok _ _ _ (bufs s1 i) _) by done.
    assert (in_sync (bufs s1 i) = false) as -> by (by rewrite Fi).
    rewrite (bind_Ok _ _ _ _ _ E2).
    assert (Hsync : in_sync (bufs s2 i) = true).
    { rewrite F2, fn_lookup_insert. apply done_buf_sync. by rewrite Fi. }
    destruct (Z.to_nat NBUF); cbn [iderw_wait];
      rewrite (bind_Ok _ _ _ (bufs s2 i) _) by done; by rewrite Hsync.
  - intros j Hj. rewrite F2, fn_lookup_insert_ne by done. apply F1.
  - exists q1. by rewrite F2, fn_lookup_insert, Ed.
  - rewrite D2, D1, Fi. done.
  - rewrite T2, T1, Fi. done.
  - congruence.
Qed.

(** ** Theorems *)

(** The disk queue is first come, first served and complete.  However many
    requests are queued, that many interrupts finish all of them: each buffer
    ends in sync with the disk, a read with what the disk held after the writes
    queued before it, every write on the disk in the order of the queue, and no
    buffer that was not queued is touched. *)
Theorem ide_queue_served (s : io) (l : list Z) :
  iq_inv s l ->
  exists s', interrupts (length l) s = Ok (tt, s') /\ idequeue s' = None /\
    (forall i, i ∉ l -> bufs s' i = bufs s i) /\
    (forall i, i ∈ l -> in_sync (bufs s' i) = true /\ exists l1 l2, l = l1 ++ i :: l2 /\
       bufs s' i = done_buf (serve (bufs s) l1 (disk (ctl s))) (bufs s i)) /\
    disk (ctl s') = serve (bufs s) l (disk (ctl s)) /\
    trace (ctl s') = trace (ctl s) ++ served (bufs s) l.
Proof.
  intros I. destruct (interrupts_spec l s I) as (s' & E & I' & Hout & Hin & D & T).
  exists s'. split; [done|]. split; [apply I'|]. split; [done|]. split; [|done].
  intros i Hi. destruct (Hin i Hi) as (l1 & l2 & El & Eb). split; [|by eauto].
  rewrite Eb. apply done_buf_sync. by apply (iq_bufs _ _ I).
Qed.

(** [iderw] does what its comment says.  A buffer that is dirty is written
    to its own sector and comes back clean and valid, one that is not valid is
    filled from its sector; a buffer that is not locked, one that has nothing to
    do, and one for a missing second disk are refused by a panic. *)
Theorem iderw_correct (s : io) (i : Z) :
  idequeue s = None -> buf_ok (bufs s i) ->
  let b := bufs s i in
  match iderw i s with
  | Ok (_, s') =>
      sl_locked (b_lock b) = true /\ in_sync b = false /\ in_sync (bufs s' i) = true /\
      (if dirty b
       then b_data (bufs s' i) = b_data b /\
            disk (ctl s') = write_disk (Z.land (b_dev b) 1) (b_blockno b) (b_data b) (disk (ctl s))
       else b_data (bufs s' i) = disk (ctl s) (Z.land (b_dev b) 1) (b_blockno b) /\
            disk (ctl s') = disk (ctl s))
  | Panic msg =>
      (sl_locked (b_lock b) = false /\ msg = "iderw: buf not locked") \/
      (in_sync b = true /\ msg = "iderw: nothing to do") \/
      (b_dev b <> 0 /\ havedisk1 s = false /\ msg = "iderw: ide disk 1 not present")
  | _ => False
  end%string.
Proof.
  intros Hq Hok b.
  destruct (sl_locked (b_lock b)) eqn:Hlk; [destruct (in_sync b) eqn:Hs;
    [|destruct (decide (b_dev b = 0 \/ havedisk1 s = true)) as [Hd|Hd]]|].
  - unfold iderw, iderw_start, bind at 1 2, buf_at, gets, holdingsleep. fold b.
    rewrite Hlk, Hs. simpl. tauto.
  - destruct (iderw_spec s i Hq Hok Hs Hlk Hd) as (s' & E & _ & _ & [q Eb] & D & _).
    rewrite E. split; [done|]. split; [done|].
    pose proof (done_buf_sync (disk (ctl s)) b Hok) as Hsy.
    rewrite Eb, D. split; [exact Hsy|]. unfold done_disk, done_buf. fold b.
    destruct (dirty b); done.
  - unfold iderw, iderw_start, bind at 1 2, buf_at, gets, holdingsleep. fold b.
    rewrite Hlk, Hs. simpl. unfold bind, gets.
    destruct (Z.eqb_spec (b_dev b) 0) as [|N]; [tauto|].
    destruct (havedisk1 s) eqn:Hh; [tauto|]. simpl. tauto.
  - unfold iderw, iderw_start, bind at 1 2, buf_at, gets, holdingsleep. fold b.
    rewrite Hlk. simpl. tauto.
Qed.

(** ** Witnesses *)

Definition buf0 : buf := Buf 0 0 0 initsleeplock 0 0 0 None [].
(** Buffer 1 waits to read block 7, behind buffer 0 that writes it. *)
Definition io2 : io :=
  Io (fun i => if i =? 0 then Buf 4 1 7 (Sleeplk true 1) 1 0 0 (Some 1) [5; 6]
               else if i =? 1 then Buf 0 1 7 (Sleeplk true 2) 1 0 0 None []
               else buf0)
     (Some 0) true (Hw (fun _ => 0) (fun _ _ => []) (Some (WrReq 1 7 [5; 6])) []).

Lemma io2_inv : iq_inv io2 [0; 1].
Proof.
  split.
  - repeat split.
  - apply (bool_decide_eq_true_1 (NoDup [0; 1])). reflexivity.
  - intros i [->|[->|[]%not_elem_of_nil]%elem_of_cons]%elem_of_cons; repeat split; lia || done.
  - by intros i l' [= <- <-].
Qed.

Lemma io2_split (l1 l2 : list Z) : [0; 1] = l1 ++ 1 :: l2 -> l1 = [0].
Proof. destruct l1 as [|? [|? [|? ?]]]; simpl; congruence. Qed.

Lemma ide_queue_served_witness :
  exists s', interrupts (length [0; 1]) io2 = Ok (tt, s') /\
    b_data (bufs s' 1) = b_data (done_buf (serve (bufs io2) [0] (disk (ctl io2))) (bufs io2 1)).
Proof.
  destruct (ide_queue_served io2 [0; 1]) as (s' & E & _ & _ & Hin & _).
  - apply io2_inv.
  - exists s'. split; [exact E|].
    destruct (Hin 1) as (_ & l1 & l2 & El & Eb); [right; left|].
    rewrite Eb. apply io2_split in El. rewrite El. exact eq_refl.
Defined.

(** Buffer 1 alone, on an idle disk. *)
Definition io1 : io :=
  Io (bufs io2) None true (Hw (fun _ => 0) (fun _ _ => [9]) None []).

Lemma iderw_correct_witness :
  exists s', iderw 1 io1 = Ok (tt, s') /\ b_data (bufs s' 1) = [9].
Proof.
  pose proof (iderw_correct io1 1 eq_refl) as H.
  destruct (iderw 1 io1) as [[[] s']|m| |] eqn:E.
  - exists s'. split; [reflexivity|]. destruct H as (_ & _ & _ & [H _]); [repeat split; lia || done|].
    rewrite H. vm_compute. reflexivity.
  - vm_compute in E. discriminate E.
  - vm_compute in E. discriminate E.
  - vm_compute in E. discriminate E.
Defined.
