(* ===== verification/Memide.v ===== *)
(** * The disk in memory: memide.c, and [ideinit] of both drivers

    A build of the kernel may link memide.c in place of ide.c; its blocks are the bytes of an image in the kernel's
    memory.  The file shows that it does to the buffers and to the blocks what the driver of [Ide] does to its
    second disk. *)
From S2P Require Import Prelude Memory Apic Sleeplock Ide.

(** ** ideinit of ide.c *)

Definition IRQ_IDE : Z := 14.

(** [status] is what the reads of port 0x1f7 give, in order; [n] reads were made. *)
Section Init.
Variable status : nat -> Z.

Fixpoint wait_ready (fuel n : nat) : res nat :=
  match fuel with
  | O => Fuel
  | S fuel => if negb (Z.land (status n) (Z.lor IDE_BSY IDE_DRDY) =? IDE_DRDY) then wait_ready fuel (S n) else Ok (S n)
  end.
(** The loop over [i], with [k] turns left. *)
Fixpoint probe (k n : nat) : bool :=
  match k with
  | O => false
  | S k => if negb (status n =? 0) then true else probe k (S n)
  end.
Definition ideinit (fuel : nat) (ncpu : Z) (s : io) (a : ioapic) : res (io * ioapic) :=
  match ioapicenable IRQ_IDE (ncpu - 1) a with
  | Ok (_, a) =>
      match wait_ready fuel 0 with
      | Ok n =>
          let h := hw_outb 502 (Z.lor 224 (Z.shiftl 1 4)) (ctl s) in
          let have := if probe 1000 n then true else havedisk1 s in
          Ok (Io (bufs s) (idequeue s) have (hw_outb 502 (Z.lor 224 (Z.shiftl 0 4)) h), a)
      | Panic msg => Panic msg | Block => Block | Fuel => Fuel
      end
  | Panic msg => Panic msg | Block => Block | Fuel => Fuel
  end.
End Init.

(** ** memide.c *)

(** The buffers, the kernel's memory, and [memdisk] and [disksize]. *)
Record memst : Type := Memst { m_bufs : Z -> buf; m_mem : mem; memdisk : Z; disksize : Z }.

(** [_binary_fs_img_start] and [_binary_fs_img_size] of the linker. *)
Definition mem_ideinit (start size : Z) : M memst unit :=
  modify (fun s => Memst (m_bufs s) (m_mem s) start (u32 size / BSIZE)).
Definition mem_ideintr : M memst unit := ret tt.

Definition mem_buf (i : Z) (f : buf -> buf) : M memst unit :=
  modify (fun s => Memst (<[i := f (m_bufs s i)]> (m_bufs s)) (m_mem s) (memdisk s) (disksize s)).

Definition mem_iderw (i : Z) : M memst unit :=
  let! s := get in
  let b := m_bufs s i in
  if negb (holdingsleep (b_lock b)) then panic "iderw: buf not locked"
  else if in_sync b then panic "iderw: nothing to do"
  else if negb (b_dev b =? 1) then panic "iderw: request not for disk 1"
  else if disksize s <=? b_blockno b then panic "iderw: block out of range"
  else
    let p := memdisk s + u32 (b_blockno b * BSIZE) in
    do! (if dirty b then
           do! mem_buf i (fun b => set_flags (Z.land (b_flags b) (Z.lnot B_DIRTY)) b) in
           modify (fun s => Memst (m_bufs s) (wr_bytes (m_mem s) p (b_data (m_bufs s i))) (memdisk s) (disksize s))
         else mem_buf i (set_data (rd_bytes (Z.to_nat BSIZE) (m_mem s) p))) in
    mem_buf i (fun b => set_flags (Z.lor (b_flags b) B_VALID) b).

(** ** Proofs *)

(** [ideinit] finds the second disk exactly when one of its thousand reads of the status is not zero. *)
Lemma probe_spec status k : forall n, probe status k n = true <-> exists j, (n <= j < n + k)%nat /\ status j <> 0.
Proof.
  induction k as [|k IH]; intros n; cbn [probe]; [split; [done|]; intros (j & Hj & _); lia|].
  destruct (Z.eqb_spec (status n) 0) as [E|E]; cbn [negb].
  - rewrite IH. split; intros (j & Hj & H); exists j; (split; [|done]); [lia|]. destruct (decide (j = n)) as [->|]; [done|lia].
  - split; [|done]. intros _. exists n. split; [lia|done].
Qed.
Theorem ideinit_correct status fuel ncpu s a n :
  (n < fuel)%nat -> Z.land (status n) 192 = 64 -> (forall m, (m < n)%nat -> Z.land (status m) 192 <> 64) ->
  exists s' a', ideinit status fuel ncpu s a = Ok (s', a') /\
    (havedisk1 s' = true <-> havedisk1 s = true \/ exists j, (n < j <= n + 1000)%nat /\ status j <> 0) /\
    drive (regs (ctl s')) = 0 /\ disk (ctl s') = disk (ctl s) /\ bufs s' = bufs s.
Proof.
  intros Hn Hr Hb. assert (Hw : forall k m, (m <= n)%nat -> (n - m < k)%nat -> wait_ready status k m = Ok (S n)).
  { induction k as [|k IH]; intros m Hm Hk; [lia|]. cbn [wait_ready]. change (Z.lor IDE_BSY IDE_DRDY) with 192. change IDE_DRDY with 64.
    destruct (Z.eqb_spec (Z.land (status m) 192) 64) as [E|E]; cbn [negb].
    - destruct (decide (m = n)) as [->|]; [done|]. by destruct (Hb m ltac:(lia)).
    - assert (m <> n) by (by intros ->). apply IH; lia. }
  unfold ideinit. rewrite (Hw fuel 0%nat) by lia. eexists _, _. split; [reflexivity|]. cbn [havedisk1 ctl bufs].
  split; [|split; [|done]].
  - pose proof (probe_spec status 1000 (S n)) as Hp.
    assert (Hi : (exists j, (S n <= j < S n + 1000)%nat /\ status j <> 0) <-> exists j, (n < j <= n + 1000)%nat /\ status j <> 0).
    { split; intros (j & Hj & H); exists j; (split; [lia|done]). }
    rewrite Hi in Hp. destruct (probe status 1000 (S n)).
    + split; [intros _; right; by apply Hp|done].
    + split; [by left|]. intros [H|H]; [done|]. by apply Hp in H.
  - reflexivity.
Qed.

(** The image holds the blocks of the second disk, and the buffers are the same but for the queue of the other driver. *)
Record same_disk (s : io) (t : memst) : Prop := {
  sd_bufs : forall j, exists q, bufs s j = set_qnext q (m_bufs t j);
  sd_size : disksize t = FSSIZE;
  sd_disk : forall k, 0 <= k < FSSIZE -> disk (ctl s) 1 k = rd_bytes 512 (m_mem t) (memdisk t + 512 * k);
}.

Lemma flags_commute f : Z.land (Z.lor f B_VALID) (Z.lnot B_DIRTY) = Z.lor (Z.land f (Z.lnot B_DIRTY)) B_VALID.
Proof.
  apply Z.bits_inj'. intros k Hk. rewrite Z.land_spec, !Z.lor_spec, Z.land_spec, !Z.lnot_spec by done.
  destruct (decide (k = 1)) as [->|Hk1]; [change (Z.testbit B_VALID 1) with true; change (Z.testbit B_DIRTY 1) with false; by destruct (Z.testbit f 1)|].
  assert (Hv : Z.testbit B_VALID k = false). { change B_VALID with (2 ^ 1). apply Z.pow2_bits_false. lia. }
  rewrite Hv. by destruct (Z.testbit f k), (Z.testbit B_DIRTY k).
Qed.

Lemma rd_bytes_wr n m a l : Forall (fun c => 0 <= c < 256) l -> length l = n -> rd_bytes n (wr_bytes m a l) a = l.
Proof.
  intros Hl Hn. apply list_eq. intros k. destruct (decide (k < n)%nat) as [Hk|Hk].
  - rewrite rd_bytes_lookup by done. rewrite rd_wr_bytes. destruct (in_range_spec a (Z.of_nat (length l)) (a + Z.of_nat k)); [|lia].
    replace (Z.to_nat (a + Z.of_nat k - a)) with k by lia. destruct (lookup_lt_is_Some_2 l k) as [x Hx]; [lia|]. rewrite Hx. simpl.
    unfold u8. rewrite Z.mod_small; [done|]. exact (Forall_lookup_1 _ _ _ _ Hl Hx).
  - rewrite !lookup_ge_None_2; [done|lia|rewrite length_rd_bytes; lia].
Qed.

(** What [mem_iderw] does to a buffer that it accepts. *)
Definition mem_done (t : memst) (b : buf) : buf :=
  set_flags (Z.lor (Z.land (b_flags b) (Z.lnot B_DIRTY)) B_VALID)
    (if dirty b then b else set_data (rd_bytes 512 (m_mem t) (memdisk t + 512 * b_blockno b)) b).
Definition mem_after (t : memst) (b : buf) : mem :=
  if dirty b then wr_bytes (m_mem t) (memdisk t + 512 * b_blockno b) (b_data b) else m_mem t.

Lemma clean_flags b : dirty b = false -> Z.land (b_flags b) (Z.lnot B_DIRTY) = b_flags b.
Proof.
  intros Hd. apply negb_false_iff, Z.eqb_eq in Hd. rewrite <-Z.ldiff_land.
  apply Z.bits_inj'. intros k Hk. rewrite Z.ldiff_spec.
  assert (H : Z.testbit (Z.land (b_flags b) B_DIRTY) k = false) by (by rewrite Hd, Z.bits_0). rewrite Z.land_spec in H.
  by destruct (Z.testbit (b_flags b) k), (Z.testbit B_DIRTY k).
Qed.

Lemma mem_iderw_run i t : let b := m_bufs t i in
  sl_locked (b_lock b) = true -> in_sync b = false -> b_dev b = 1 -> 0 <= b_blockno b < FSSIZE -> disksize t = FSSIZE ->
  exists t', mem_iderw i t = Ok (tt, t') /\ m_mem t' = mem_after t b /\ memdisk t' = memdisk t /\ disksize t' = disksize t /\
    m_bufs t' i = mem_done t b /\ forall j, j <> i -> m_bufs t' j = m_bufs t j.
Proof.
  intros b Hlk Hs Hdev Hbn Hz. unfold mem_iderw, bind at 1, get, holdingsleep. fold b. rewrite Hlk, Hs, Hdev, Hz.
  destruct (Z.leb_spec FSSIZE (b_blockno b)) as [|_]; [lia|]. change (negb (1 =? 1)) with false. cbn [negb].
  assert (Hp : u32 (b_blockno b * BSIZE) = 512 * b_blockno b).
  { unfold u32, BSIZE. unfold FSSIZE in Hbn. rewrite Z.mod_small by lia. lia. }
  rewrite Hp. unfold mem_done, mem_after. destruct (dirty b) eqn:Hd.
  - unfold mem_buf, bind, modify. eexists. split; [reflexivity|]. cbn [m_bufs m_mem memdisk disksize]. rewrite !fn_lookup_insert. fold b.
    split; [done|]. split; [done|]. split; [done|]. split; [done|]. intros j Hj. by rewrite !fn_lookup_insert_ne.
  - unfold mem_buf, bind, modify. eexists. split; [reflexivity|]. cbn [m_bufs m_mem memdisk disksize]. rewrite !fn_lookup_insert. fold b.
    rewrite clean_flags by done. split; [done|]. split; [done|]. split; [done|]. split; [done|]. intros j Hj. by rewrite !fn_lookup_insert_ne.
Qed.

(** The disk in memory is a disk.  For a buffer of the second disk, and an image of the size of the file system
    with the same blocks, memide.c and ide.c do the same: both write a dirty buffer to its block and mark it
    clean, or fill a buffer that is not valid from its block, both leave all other buffers and blocks,
    and both refuse a buffer that is not locked or has nothing to do. *)
Theorem memide_equivalent s t i :
  same_disk s t -> idequeue s = None -> havedisk1 s = true ->
  buf_ok (m_bufs t i) -> b_dev (m_bufs t i) = 1 ->
  length (b_data (m_bufs t i)) = 512%nat -> Forall (fun c => 0 <= c < 256) (b_data (m_bufs t i)) ->
  match iderw i s, mem_iderw i t with
  | Ok (_, s'), Ok (_, t') => same_disk s' t' /\ in_sync (m_bufs t' i) = true /\ idequeue s' = None
  | Panic msg, Panic msg' => msg = msg'
  | _, _ => False
  end.
Proof.
  intros [Hb Hz Hd] Hq Hh Hok Hdev Hlen Hby. destruct (Hb i) as [q Ei]. set (b := m_bufs t i) in *.
  destruct (sl_locked (b_lock b)) eqn:Hlk; [destruct (in_sync b) eqn:Hs|].
  - assert (E1 : iderw i s = Panic "iderw: nothing to do").
    { unfold iderw, iderw_start, bind at 1 2, buf_at, gets, holdingsleep. rewrite Ei. change (b_lock (set_qnext q b)) with (b_lock b).
      change (in_sync (set_qnext q b)) with (in_sync b). by rewrite Hlk, Hs. }
    assert (E2 : mem_iderw i t = Panic "iderw: nothing to do").
    { unfold mem_iderw, bind at 1, get, holdingsleep. fold b. by rewrite Hlk, Hs. }
    by rewrite E1, E2.
  - destruct (iderw_spec s i) as (s' & -> & Hq' & Ho & [q' Ei'] & D & _ & _); [done|by rewrite Ei|by rewrite Ei|by rewrite Ei|by right|].
    destruct (mem_iderw_run i t) as (t' & -> & Hm & Hbase & Hsz & Hi & Ho'); [done|done|done|apply Hok|done|].
    rewrite Ei in Ei', D. fold b in Hm, Hi.
    assert (Edone : exists q, bufs s' i = set_qnext q (m_bufs t' i)).
    { exists q'. rewrite Ei', Hi. unfold done_buf, mem_done. change (dirty (set_qnext q b)) with (dirty b). rewrite flags_commute.
      destruct (dirty b); [done|]. simpl. rewrite Hdev. change (Z.land 1 1) with 1. by rewrite (Hd (b_blockno b) (proj1 Hok)). }
    split; [|split; [|done]].
    + split; [|by rewrite Hsz|].
      * intros j. destruct (decide (j = i)) as [->|Hj]; [done|]. destruct (Ho j Hj) as [q1 ->]. destruct (Hb j) as [q2 ->]. rewrite Ho' by done. by exists q1.
      * intros k Hk. rewrite D, Hm, Hbase. unfold done_disk, mem_after. change (dirty (set_qnext q b)) with (dirty b).
        destruct (dirty b); [|by apply Hd]. simpl b_dev. simpl b_blockno. simpl b_data. rewrite Hdev. change (Z.land 1 1) with 1.
        unfold write_disk. rewrite fn_lookup_insert. destruct (decide (k = b_blockno b)) as [->|Hk'].
        -- rewrite fn_lookup_insert. by rewrite rd_bytes_wr.
        -- rewrite fn_lookup_insert_ne, Hd by done. apply rd_bytes_ext. intros x Hx. rewrite rd_wr_bytes_out by lia. done.
    + rewrite Hi. pose proof (done_buf_sync (disk (ctl s)) b Hok) as Hsy. unfold done_buf, in_sync in Hsy. unfold mem_done, in_sync. rewrite flags_commute in Hsy.
      by destruct (dirty b).
  - assert (E1 : iderw i s = Panic "iderw: buf not locked").
    { unfold iderw, iderw_start, bind at 1 2, buf_at, gets, holdingsleep. rewrite Ei. change (b_lock (set_qnext q b)) with (b_lock b). by rewrite Hlk. }
    assert (E2 : mem_iderw i t = Panic "iderw: buf not locked").
    { unfold mem_iderw, bind at 1, get, holdingsleep. fold b. by rewrite Hlk. }
    by rewrite E1, E2.
Qed.

(** Buffer 0 is to be written to block 7, and the other disk holds the image. *)
Definition demo_buf : buf := Buf 4 1 7 (Sleeplk true 1) 1 0 0 None (replicate 512 5).
Definition demo_memst : memst := Memst (fun _ => demo_buf) ∅ 4096 1000.
Definition demo_io : io :=
  Io (fun _ => demo_buf) None true (Hw (fun _ => 0) (fun _ k => rd_bytes 512 ∅ (4096 + 512 * k)) None []).
Lemma memide_equivalent_witness :
  match iderw 0 demo_io, mem_iderw 0 demo_memst with
  | Ok (_, s'), Ok (_, t') => same_disk s' t' /\ in_sync (m_bufs t' 0) = true /\ idequeue s' = None
  | Panic msg, Panic msg' => msg = msg'
  | _, _ => False
  end.
Proof.
  apply (memide_equivalent demo_io demo_memst 0); try reflexivity.
  - split; [intros j; exists None; reflexivity|reflexivity|reflexivity].
  - split; simpl; unfold FSSIZE; lia.
  - apply (Forall_replicate (fun c => 0 <= c < 256) 512 5). lia.
Defined.

