(* ===== verification/Blocks.v ===== *)
(** * The interface between the buffer cache and its clients

    log.c and fs.c use the disk through [bread], [bwrite] and [brelse] and
    through the [data], [blockno] and [flags] of the buffer they get.
    [BlockOps] is this interface.  [BlockLaws] is what it promises, in terms of
    an abstract cache: the disk, the blocks pinned in memory because they are
    dirty, the blocks held locked by the caller, and the completed disk writes
    in order.  The buffer cache is an instance of it; the theorems on the log
    are proved from the laws alone. *)
From S2P Require Import Prelude Sleeplock Ide.

Record acache : Type := Acache {
  a_disk : Z -> blk;
  a_pin : gmap Z blk;
  a_held : gmap Z (Z * blk);        (** block number to buffer and contents *)
  a_trace : list (Z * blk);
}.

(** The contents of a block as the system sees it. *)
Definition aview (a : acache) (b : Z) : blk := default (a_disk a b) (a_pin a !! b).

Definition a_set_held (h : gmap Z (Z * blk)) (a : acache) : acache :=
  Acache (a_disk a) (a_pin a) h (a_trace a).
Definition a_set_pin (p : gmap Z blk) (a : acache) : acache :=
  Acache (a_disk a) p (a_held a) (a_trace a).
Definition a_write (b : Z) (d : blk) (a : acache) : acache :=
  Acache (<[b := d]> (a_disk a)) (delete b (a_pin a)) (a_held a) (a_trace a ++ [(b, d)]).

Class BlockOps (S : Type) : Type := {
  bread : Z -> Z -> M S Z;              (** device and block number, to a buffer *)
  bwrite : Z -> M S unit;
  brelse : Z -> M S unit;
  b_get : Z -> M S blk;                 (** [b->data] *)
  b_put : Z -> blk -> M S unit;         (** storing into [b->data] *)
  b_number : Z -> M S Z;                (** [b->blockno] *)
  b_mark : Z -> M S unit;               (** [b->flags |= B_DIRTY] *)
}.

Definition ROOTDEV : Z := 1.

(** There is a buffer left for block [b]. *)
Definition room (a : acache) (b : Z) : Prop :=
  is_Some (a_pin a !! b) \/ (size (dom (a_pin a) ∪ dom (a_held a)) < Z.to_nat NBUF)%nat.

Class BlockLaws (S : Type) {ops : BlockOps S} (R : S -> acache -> Prop) : Prop := {
  bread_law s a b :
    R s a -> 0 <= b < FSSIZE -> a_held a !! b = None -> room a b ->
    exists h s', bread ROOTDEV b s = Ok (h, s') /\
      R s' (a_set_held (<[b := (h, aview a b)]> (a_held a)) a);
  bwrite_law s a b h d :
    R s a -> a_held a !! b = Some (h, d) ->
    exists s', bwrite h s = Ok (tt, s') /\ R s' (a_write b d a);
  brelse_law s a b h d :
    R s a -> a_held a !! b = Some (h, d) -> aview a b = d ->
    exists s', brelse h s = Ok (tt, s') /\ R s' (a_set_held (delete b (a_held a)) a);
  b_get_law s a b h d :
    R s a -> a_held a !! b = Some (h, d) -> b_get h s = Ok (d, s);
  b_put_law s a b h d d' :
    R s a -> a_held a !! b = Some (h, d) ->
    exists s', b_put h d' s = Ok (tt, s') /\
      R s' (a_set_held (<[b := (h, d')]> (a_held a)) a);
  b_number_law s a b h d :
    R s a -> a_held a !! b = Some (h, d) -> b_number h s = Ok (b, s);
  b_mark_law s a b h d :
    R s a -> a_held a !! b = Some (h, d) ->
    exists s', b_mark h s = Ok (tt, s') /\ R s' (a_set_pin (<[b := d]> (a_pin a)) a);
}.
