(* ===== verification/Bio.v ===== *)
(** * The buffer cache: bio.c

    The buffers are the indices 0 to [NBUF - 1] of [bufs], the list head
    [bcache.head] is the index [NBUF]; the list is doubly linked through
    [b_prev] and [b_next].  The file shows that the list surgery of [brelse]
    keeps the list well formed and in the order of last use, that a block is in
    the cache at most once, and that the cache implements the interface of
    Blocks.v. *)
From S2P Require Import Prelude Memory Sleeplock Ide Blocks.

Definition HEAD : Z := NBUF.

Fixpoint binit_loop (n : nat) (b : Z) : M io unit :=
  match n with
  | O => ret tt
  | S n =>
      let! h := buf_at HEAD in
      do! upd_buf b (set_next (b_next h)) in
      do! upd_buf b (set_prev HEAD) in
      do! upd_buf b (set_lock initsleeplock) in
      do! upd_buf (b_next h) (set_prev b) in
      do! upd_buf HEAD (set_next b) in
      binit_loop n (b + 1)
  end.

Definition binit : M io unit :=
  do! upd_buf HEAD (set_prev HEAD) in
  do! upd_buf HEAD (set_next HEAD) in
  binit_loop (Z.to_nat NBUF) 0.

(** A loop over the list from [i] in the direction of [step], up to the first
    buffer with [P]. *)
Fixpoint scan (step : buf -> Z) (P : buf -> bool) (fuel : nat) (i : Z) : M io (option Z) :=
  if i =? HEAD then ret None
  else
    match fuel with
    | O => out_of_fuel
    | S fuel =>
        let! b := buf_at i in
        if P b then ret (Some i) else scan step P fuel (step b)
    end.

Definition is_block (dev blockno : Z) (b : buf) : bool :=
  (b_dev b =? dev) && (b_blockno b =? blockno).
Definition unused (b : buf) : bool := (b_refcnt b =? 0) && negb (dirty b).

(** [acquiresleep(&b->lock)] by the process [pid]. *)
Definition lock_buf (pid i : Z) : M io unit :=
  let! b := buf_at i in
  match acquiresleep pid (b_lock b) with
  | None => block
  | Some lk => upd_buf i (set_lock lk)
  end.

Definition set_block (dev blockno : Z) (b : buf) : buf :=
  Buf (b_flags b) dev blockno (b_lock b) (b_refcnt b) (b_prev b) (b_next b) (b_qnext b) (b_data b).

Section Bio.
Variable pid : Z.

Definition bget (dev blockno : Z) : M io Z :=
  let! h := buf_at HEAD in
  let! r := scan b_next (is_block dev blockno) (Z.to_nat NBUF) (b_next h) in
  match r with
  | Some i =>
      do! upd_buf i (fun b => set_refcnt (u32 (b_refcnt b + 1)) b) in
      do! lock_buf pid i in
      ret i
  | None =>
      let! r := scan b_prev unused (Z.to_nat NBUF) (b_prev h) in
      match r with
      | Some i =>
          do! upd_buf i (set_block dev blockno) in
          do! upd_buf i (set_flags 0) in
          do! upd_buf i (set_refcnt 1) in
          do! lock_buf pid i in
          ret i
      | None => panic "bget: no buffers"
      end
  end.

Definition bio_bread (dev blockno : Z) : M io Z :=
  let! i := bget dev blockno in
  let! b := buf_at i in
  do! (if Z.land (b_flags b) B_VALID =? 0 then iderw i else ret tt) in
  ret i.

Definition bio_bwrite (i : Z) : M io unit :=
  let! b := buf_at i in
  if negb (holdingsleep (b_lock b)) then panic "bwrite"
  else
    do! upd_buf i (fun b => set_flags (Z.lor (b_flags b) B_DIRTY) b) in
    iderw i.

Definition bio_brelse (i : Z) : M io unit :=
  let! b := buf_at i in
  if negb (holdingsleep (b_lock b)) then panic "brelse"
  else
    do! upd_buf i (fun b => set_lock (releasesleep (b_lock b)) b) in
    do! upd_buf i (fun b => set_refcnt (u32 (b_refcnt b - 1)) b) in
    let! b := buf_at i in
    if b_refcnt b =? 0 then
      do! upd_buf (b_next b) (set_prev (b_prev b)) in
      do! upd_buf (b_prev b) (set_next (b_next b)) in
      let! h := buf_at HEAD in
      do! upd_buf i (set_next (b_next h)) in
      do! upd_buf i (set_prev HEAD) in
      let! h := buf_at HEAD in
      do! upd_buf (b_next h) (set_prev i) in
      upd_buf HEAD (set_next i)
    else ret tt.

#[export] Instance bio_ops : BlockOps io := {|
  bread := bio_bread;
  bwrite := bio_bwrite;
  brelse := bio_brelse;
  b_get i := gets (fun s => b_data (bufs s i));
  b_put i d := upd_buf i (set_data d);
  b_number i := gets (fun s => b_blockno (bufs s i));
  b_mark i := upd_buf i (fun b => set_flags (Z.lor (b_flags b) B_DIRTY) b);
|}.
End Bio.

(** ** The doubly linked list *)

(** From [p], the nodes of [l] in order, then [q]. *)
Fixpoint seg (f : Z -> buf) (p : Z) (l : list Z) (q : Z) : Prop :=
  match l with
  | [] => b_next (f p) = q /\ b_prev (f q) = p
  | x :: l => b_next (f p) = x /\ b_prev (f x) = p /\ seg f x l q
  end.

Lemma seg_app f p l1 x l2 q :
  seg f p (l1 ++ x :: l2) q <-> seg f p l1 x /\ seg f x l2 q.
Proof.
  revert p. induction l1 as [|y l1 IH]; intros p; simpl; [tauto|]. rewrite IH. tauto.
Qed.

Lemma seg_ext f g p l q :
  (forall x, x ∈ p :: l -> b_next (g x) = b_next (f x)) ->
  (forall x, x ∈ l ++ [q] -> b_prev (g x) = b_prev (f x)) ->
  seg f p l q -> seg g p l q.
Proof.
  revert p. induction l as [|y l IH]; intros p Hn Hp; simpl.
  - rewrite Hn by left. rewrite Hp by left. done.
  - intros (H1 & H2 & H3). rewrite Hn by left. rewrite Hp by left.
    split; [done|]. split; [done|]. apply IH; [| |done].
    + intros x Hx. apply Hn. by right.
    + intros x Hx. apply Hp. by right.
Qed.

Lemma seg_prev_in f p l q : seg f p l q -> b_prev (f q) ∈ p :: l.
Proof.
  revert p. induction l as [|y l IH]; intros p; simpl; [intros [_ ->]; left|].
  intros (_ & _ & H%IH). by right.
Qed.

(** Redirecting the end of a segment. *)
Lemma seg_end f g a l x n :
  seg f a l x -> NoDup (a :: l) ->
  (forall y, y ∈ a :: l -> y <> b_prev (f x) -> b_next (g y) = b_next (f y)) ->
  (forall y, y ∈ l -> b_prev (g y) = b_prev (f y)) ->
  b_next (g (b_prev (f x))) = n -> b_prev (g n) = b_prev (f x) -> seg g a l n.
Proof.
  revert a. induction l as [|y l IH]; intros a; simpl.
  - intros [_ <-] _ _ _ H1 H2. done.
  - intros (H1 & H2 & H3) [Ha Hn]%NoDup_cons Hg Hp E1 E2.
    assert (a <> b_prev (f x)) by (intros ->; by apply Ha, seg_prev_in).
    rewrite Hg, Hp by (done || left). split; [done|]. split; [done|].
    apply IH; try done.
    + intros z Hz. apply Hg. by right.
    + intros z Hz. apply Hp. by right.
Qed.

Definition dll (f : Z -> buf) (l : list Z) : Prop := seg f HEAD l HEAD.

Definition unlink (x : Z) (f : Z -> buf) : Z -> buf :=
  let n := b_next (f x) in let p := b_prev (f x) in
  let f1 := <[n := set_prev p (f n)]> f in
  <[p := set_next n (f1 p)]> f1.

Lemma unlink_prev x f y :
  b_prev (unlink x f y) = if decide (y = b_next (f x)) then b_prev (f x) else b_prev (f y).
Proof. unfold unlink. fn_cases. Qed.

Lemma unlink_next x f y :
  b_next (unlink x f y) = if decide (y = b_prev (f x)) then b_next (f x) else b_next (f y).
Proof. unfold unlink. fn_cases. Qed.

Lemma dll_unlink f l1 x l2 :
  dll f (l1 ++ x :: l2) -> NoDup (HEAD :: l1 ++ x :: l2) -> dll (unlink x f) (l1 ++ l2).
Proof.
  intros [H1 H2]%seg_app Hn. unfold dll.
  assert (Hn1 : NoDup (HEAD :: l1)) by (rewrite app_comm_cons in Hn; by apply NoDup_app in Hn as (? & _)).
  rewrite app_comm_cons in Hn. apply NoDup_app in Hn as (_ & Hd & [Hx Hn2]%NoDup_cons).
  assert (Hpin : b_prev (f x) ∈ HEAD :: l1) by by eapply seg_prev_in.
  destruct l2 as [|z l2]; simpl in H2.
  - destruct H2 as [En Ep]. rewrite app_nil_r. eapply (seg_end f); try done.
    + intros y _ Hy. rewrite unlink_next. by rewrite decide_False.
    + intros y Hy. rewrite unlink_prev. rewrite decide_False; [done|]. rewrite En.
      intros ->. apply NoDup_cons in Hn1 as [? _]. done.
    + rewrite unlink_next. by rewrite decide_True.
    + rewrite unlink_prev. by rewrite decide_True.
  - destruct H2 as (En & Ep & Hs). apply seg_app. split.
    + eapply (seg_end f); try done.
      * intros y _ Hy. rewrite unlink_next. by rewrite decide_False.
      * intros y Hy. rewrite unlink_prev. rewrite decide_False; [done|]. rewrite En.
        intros ->. apply (Hd z); [by right|]. right. left.
      * rewrite unlink_next. by rewrite decide_True.
      * rewrite unlink_prev. by rewrite decide_True.
    + apply NoDup_cons in Hn2 as [Hz Hn2].
      eapply seg_ext; [| |exact Hs].
      * intros y Hy. rewrite unlink_next. rewrite decide_False; [done|]. intros ->.
        apply (Hd _ Hpin). by right.
      * intros y Hy. rewrite unlink_prev, En. rewrite decide_False; [done|]. intros ->.
        apply elem_of_app in Hy as [?|Hy%list_elem_of_singleton]; [done|]. subst z. rewrite Hy in Hd.
        apply (Hd HEAD); [left|]. right. left.
Qed.

Definition push_front (x : Z) (f : Z -> buf) : Z -> buf :=
  let f1 := <[x := set_next (b_next (f HEAD)) (f x)]> f in
  let f2 := <[x := set_prev HEAD (f1 x)]> f1 in
  let n := b_next (f2 HEAD) in
  let f3 := <[n := set_prev x (f2 n)]> f2 in
  <[HEAD := set_next x (f3 HEAD)]> f3.

Lemma push_front_next x f y :
  x <> HEAD ->
  b_next (push_front x f y) =
    if decide (y = HEAD) then x else if decide (y = x) then b_next (f HEAD) else b_next (f y).
Proof. intros N. unfold push_front. fn_cases. Qed.

Lemma push_front_prev x f y :
  x <> HEAD -> b_next (f HEAD) <> x ->
  b_prev (push_front x f y) =
    if decide (y = b_next (f HEAD)) then x else if decide (y = x) then HEAD else b_prev (f y).
Proof.
  intros N N2. unfold push_front. fn_cases.
Qed.

Lemma dll_push f l x :
  dll f l -> x ∉ HEAD :: l -> NoDup (HEAD :: l) -> dll (push_front x f) (x :: l).
Proof.
  intros H [Nx Hx]%not_elem_of_cons Hn. unfold dll. cbn [seg].
  assert (Hh : b_next (f HEAD) <> x) by (destruct l as [|z l]; simpl in H; destruct H as [-> _]; [done|];
    intros ->; apply Hx; left).
  rewrite push_front_next, push_front_prev by done.
  rewrite decide_True by done. split; [done|]. split.
  { rewrite decide_False by congruence. by rewrite decide_True. }
  destruct l as [|z l]; cbn [dll seg] in *.
  - destruct H as [En Ep]. rewrite push_front_next, push_front_prev by done.
    rewrite decide_False, decide_True by done. rewrite En. by rewrite decide_True.
  - destruct H as (En & Ep & Hs). rewrite push_front_next, push_front_prev by done.
    rewrite decide_False, decide_True by done. split; [done|].
    rewrite En, decide_True by done. split; [done|].
    apply NoDup_cons in Hn as [Hh' [Hz Hn]%NoDup_cons].
    eapply seg_ext; [| |exact Hs].
    + intros y Hy. rewrite push_front_next by done.
      rewrite !decide_False; [done| |]; intros ->; [by apply Hx|by apply Hh'].
    + intros y Hy. rewrite push_front_prev, En by done.
      apply elem_of_app in Hy as [Hy|Hy%list_elem_of_singleton].
      * assert (y <> x) by (intros ->; apply Hx; by right).
        assert (y <> z) by congruence. by rewrite !decide_False.
      * assert (HEAD <> z) by (intros E; apply Hh'; rewrite E; left).
        rewrite Hy, !decide_False by congruence. done.
Qed.

(** ** The loops over the list *)

Lemma scan_next f q h c P l p fuel :
  seg f p l HEAD -> HEAD ∉ l -> (length l <= fuel)%nat ->
  scan b_next P fuel (b_next (f p)) (Io f q h c) =
  Ok (list_find (fun i => P (f i) = true) l ≫= (fun x => Some x.2), Io f q h c).
Proof.
  revert p fuel. induction l as [|x l IH]; intros p fuel; cbn [seg].
  - intros [-> _] _ _. by destruct fuel.
  - intros (-> & _ & Hs) [Nx Hl]%not_elem_of_cons Hf. destruct fuel as [|fuel]; [simpl in Hf; lia|].
    cbn [scan list_find]. destruct (Z.eqb_spec x HEAD); [congruence|].
    rewrite (bind_Ok _ _ _ (f x) _) by done. destruct (P (f x)) eqn:E.
    + by rewrite decide_True.
    + rewrite decide_False by done. rewrite IH by (done || simpl in Hf; lia).
      by destruct (list_find _ l) as [[]|].
Qed.

Lemma scan_prev f q h c P l x fuel :
  seg f HEAD l x -> HEAD ∉ l -> (length l <= fuel)%nat ->
  scan b_prev P fuel (b_prev (f x)) (Io f q h c) =
  Ok (list_find (fun i => P (f i) = true) (reverse l) ≫= (fun x => Some x.2), Io f q h c).
Proof.
  revert x fuel. induction l as [|y l IH] using rev_ind; intros x fuel.
  - intros [_ ->] _ _. by destruct fuel.
  - intros [Hs [_ ->]]%seg_app Hl Hf. rewrite length_app in Hf. simpl in Hf.
    destruct fuel as [|fuel]; [lia|]. rewrite reverse_snoc.
    cbn [scan list_find]. destruct (Z.eqb_spec y HEAD); [set_solver|].
    rewrite (bind_Ok _ _ _ (f y) _) by done. destruct (P (f y)) eqn:E.
    + by rewrite decide_True.
    + rewrite decide_False by done. rewrite IH by (done || set_solver || lia).
      by destruct (list_find _ (reverse l)) as [[]|].
Qed.

(** ** The cache and its abstraction *)

(** The fields of a buffer that matter to its users. *)
Definition core (b : buf) : Z * Z * Z * sleeplock * Z * blk :=
  (b_flags b, b_dev b, b_blockno b, b_lock b, b_refcnt b, b_data b).

(** A buffer was never used, or holds a block of the device: clean or pinned,
    free or held by the caller. *)
Definition buf_rel (a : acache) (i : Z) (b : buf) : Prop :=
  (b_dev b = 0 /\ b_flags b = 0 /\ b_refcnt b = 0 /\ sl_locked (b_lock b) = false) \/
  (b_dev b = ROOTDEV /\ 0 <= b_blockno b < FSSIZE /\
   b_flags b = (if a_pin a !! b_blockno b then 6 else 2) /\
   match a_held a !! b_blockno b with
   | Some (h, d) => h = i /\ b_refcnt b = 1 /\ sl_locked (b_lock b) = true /\ b_data b = d
   | None => b_refcnt b = 0 /\ sl_locked (b_lock b) = false /\ b_data b = aview a (b_blockno b)
   end).

Definition dev_trace (t : list (Z * blk)) : list (Z * Z * blk) :=
  map (fun x => (ROOTDEV, x.1, x.2)) t.

Record cache_inv (s : io) (a : acache) : Prop := {
  ci_list : exists l, dll (bufs s) l /\ l ≡ₚ seqZ 0 NBUF;
  ci_idle : idequeue s = None;
  ci_disk1 : havedisk1 s = true;
  ci_disk : forall b, 0 <= b < FSSIZE -> disk (ctl s) ROOTDEV b = a_disk a b;
  ci_trace : trace (ctl s) = dev_trace (a_trace a);
  ci_buf : forall i, 0 <= i < NBUF -> buf_rel a i (bufs s i);
  ci_uniq : forall i j, 0 <= i < NBUF -> 0 <= j < NBUF ->
    b_dev (bufs s i) = ROOTDEV -> b_dev (bufs s j) = ROOTDEV ->
    b_blockno (bufs s i) = b_blockno (bufs s j) -> i = j;
  ci_pin : forall b, is_Some (a_pin a !! b) ->
    exists i, 0 <= i < NBUF /\ is_block ROOTDEV b (bufs s i) = true;
  ci_held : forall b h d, a_held a !! b = Some (h, d) ->
    0 <= h < NBUF /\ is_block ROOTDEV b (bufs s h) = true;
}.

Lemma is_block_spec dev b x : is_block dev b x = true <-> b_dev x = dev /\ b_blockno x = b.
Proof. unfold is_block. rewrite andb_true_iff, !Z.eqb_eq. done. Qed.

Lemma core_eq b b' :
  core b = core b' -> b_flags b = b_flags b' /\ b_dev b = b_dev b' /\
  b_blockno b = b_blockno b' /\ b_lock b = b_lock b' /\ b_refcnt b = b_refcnt b' /\
  b_data b = b_data b'.
Proof. unfold core. intros [=]. done. Qed.

Lemma buf_rel_core a i b b' : core b = core b' -> buf_rel a i b -> buf_rel a i b'.
Proof.
  intros (E1 & E2 & E3 & E4 & E5 & E6)%core_eq. unfold buf_rel.
  by rewrite E1, E2, E3, E4, E5, E6.
Qed.

Lemma is_block_core dev n b b' : core b = core b' -> is_block dev n b = is_block dev n b'.
Proof. intros (_ & E2 & E3 & _)%core_eq. unfold is_block. by rewrite E2, E3. Qed.

(** Two abstract caches that differ at most at block [b]. *)
Definition agree_off (b : Z) (a a' : acache) : Prop :=
  forall b', b' <> b -> a_pin a' !! b' = a_pin a !! b' /\ a_held a' !! b' = a_held a !! b' /\
    a_disk a' b' = a_disk a b'.

Lemma buf_rel_off b a a' i x :
  agree_off b a a' -> (b_dev x = ROOTDEV -> b_blockno x <> b) -> buf_rel a i x -> buf_rel a' i x.
Proof.
  intros Ha Hb [H|(Hd & Hn & Hf & Hh)]; [by left|right].
  destruct (Ha (b_blockno x) (Hb Hd)) as (E1 & E2 & E3).
  unfold aview in *. rewrite E1, E2, E3. done.
Qed.

(** Changing the buffer [i], which holds the block [b] afterwards. *)
Lemma cache_update s a s' a' i b :
  cache_inv s a -> 0 <= i < NBUF ->
  (exists l, dll (bufs s') l /\ l ≡ₚ seqZ 0 NBUF) ->
  idequeue s' = None -> havedisk1 s' = true ->
  (forall b, 0 <= b < FSSIZE -> disk (ctl s') ROOTDEV b = a_disk a' b) ->
  trace (ctl s') = dev_trace (a_trace a') ->
  (forall j, j <> i -> core (bufs s' j) = core (bufs s j)) ->
  agree_off b a a' ->
  is_block ROOTDEV b (bufs s' i) = true -> buf_rel a' i (bufs s' i) ->
  (forall j, 0 <= j < NBUF -> j <> i -> is_block ROOTDEV b (bufs s j) = false) ->
  (is_block ROOTDEV b (bufs s i) = true \/ unused (bufs s i) = true) ->
  cache_inv s' a'.
Proof.
  intros I Hi Hl Hq Hd1 Hdisk Htr Hcore Ha [Ed Eb]%is_block_spec Hrel Hno Hold.
  assert (Hne : forall j, 0 <= j < NBUF -> j <> i -> b_dev (bufs s j) = ROOTDEV ->
    b_blockno (bufs s j) <> b).
  { intros j Hj N E1 E2. assert (is_block ROOTDEV b (bufs s j) = true) by by apply is_block_spec.
    rewrite Hno in * by done. done. }
  (* no other block of the client was in buffer i *)
  assert (Hlost : forall b', b' <> b -> is_block ROOTDEV b' (bufs s i) = true ->
    a_pin a !! b' = None /\ a_held a !! b' = None).
  { intros b' N [E1 E2]%is_block_spec. destruct Hold as [[_ ?]%is_block_spec|Hu]; [congruence|].
    apply andb_true_iff in Hu as [Hr%Z.eqb_eq Hdt%negb_true_iff].
    destruct (ci_buf _ _ I i Hi) as [(? & _)|(_ & _ & Hf & Hh)]; [unfold ROOTDEV in *; lia|].
    rewrite E2 in *. split.
    - destruct (a_pin a !! b'); [|done]. unfold dirty in Hdt. by rewrite Hf in Hdt.
    - destruct (a_held a !! b') as [[h d]|]; [|done]. lia. }
  split; try done.
  - intros j Hj. destruct (decide (j = i)) as [->|N]; [done|].
    eapply buf_rel_core; [symmetry; by apply Hcore|].
    eapply buf_rel_off; [done|by apply Hne|by apply I].
  - intros j k Hj Hk Dj Dk E.
    destruct (decide (j = i)) as [->|Nj], (decide (k = i)) as [->|Nk]; [done|..].
    + destruct (core_eq _ _ (Hcore k Nk)) as (_ & E2 & E3 & _). exfalso.
      apply (Hne k); congruence.
    + destruct (core_eq _ _ (Hcore j Nj)) as (_ & E2 & E3 & _). exfalso.
      apply (Hne j); congruence.
    + destruct (core_eq _ _ (Hcore j Nj)) as (_ & E2 & E3 & _),
        (core_eq _ _ (Hcore k Nk)) as (_ & E2' & E3' & _).
      apply (ci_uniq _ _ I); congruence.
  - intros b' Hp. destruct (decide (b' = b)) as [->|N].
    { exists i. split; [done|]. by apply is_block_spec. }
    destruct (Ha b' N) as (E1 & _). rewrite E1 in Hp.
    destruct (ci_pin _ _ I b' Hp) as (j & Hj & Ej). exists j. split; [done|].
    destruct (decide (j = i)) as [->|Nj]; [|by rewrite (is_block_core _ _ _ _ (Hcore j Nj))].
    destruct (Hlost b' N Ej) as [E _]. rewrite E in Hp. by destruct Hp.
  - intros b' h d Hh. destruct (decide (b' = b)) as [->|N].
    { destruct Hrel as [(? & _)|(_ & _ & _ & Hr)]; [unfold ROOTDEV in *; lia|].
      rewrite Eb, Hh in Hr. destruct Hr as [-> _]. split; [done|]. by apply is_block_spec. }
    destruct (Ha b' N) as (_ & E1 & _). rewrite E1 in Hh.
    destruct (ci_held _ _ I b' h d Hh) as (Hj & Ej). split; [done|].
    destruct (decide (h = i)) as [->|Nj]; [|by rewrite (is_block_core _ _ _ _ (Hcore h Nj))].
    destruct (Hlost b' N Ej) as [_ E]. congruence.
Qed.

(** ** The laws of the interface *)

Lemma dll_ext f g l :
  (forall x, b_next (g x) = b_next (f x) /\ b_prev (g x) = b_prev (f x)) -> dll f l -> dll g l.
Proof. intros H. apply seg_ext; intros x _; apply H. Qed.

Lemma held_buf s a b h d :
  cache_inv s a -> a_held a !! b = Some (h, d) ->
  0 <= h < NBUF /\ is_block ROOTDEV b (bufs s h) = true /\ 0 <= b < FSSIZE /\
  b_flags (bufs s h) = (if a_pin a !! b then 6 else 2) /\ b_refcnt (bufs s h) = 1 /\
  sl_locked (b_lock (bufs s h)) = true /\ b_data (bufs s h) = d /\
  forall j, 0 <= j < NBUF -> j <> h -> is_block ROOTDEV b (bufs s j) = false.
Proof.
  intros I Hh. destruct (ci_held _ _ I b h d Hh) as [Hr Hb].
  pose proof Hb as [E1 E2]%is_block_spec. split; [done|]. split; [done|].
  destruct (ci_buf _ _ I h Hr) as [(? & _)|(_ & Hn & Hf & Hd)]; [unfold ROOTDEV in *; lia|].
  rewrite E2 in *. rewrite Hh in Hd. destruct Hd as (_ & Hrc & Hl & Hdat).
  do 5 (split; [done|]). intros j Hj N. apply not_true_is_false. intros [E3 E4]%is_block_spec.
  apply N. apply (ci_uniq _ _ I); congruence.
Qed.

(** An update of one field of a held buffer that is no list field. *)
Lemma held_update s a a' b h d x :
  cache_inv s a -> a_held a !! b = Some (h, d) ->
  b_next x = b_next (bufs s h) -> b_prev x = b_prev (bufs s h) ->
  a_disk a' = a_disk a -> a_trace a' = a_trace a -> agree_off b a a' ->
  is_block ROOTDEV b x = true -> buf_rel a' h x ->
  cache_inv (Io (<[h := x]> (bufs s)) (idequeue s) (havedisk1 s) (ctl s)) a'.
Proof.
  intros I Hh En Ep Ed Et Ha Hb Hx.
  destruct (held_buf _ _ _ _ _ I Hh) as (Hr & Hb0 & _ & _ & _ & _ & _ & Hno).
  eapply (cache_update s a _ a' h b); simpl; try done; try apply I.
  - destruct (ci_list _ _ I) as (l & Hl & Hp). exists l. split; [|done].
    eapply dll_ext; [|exact Hl]. intros y. fn_cases.
  - intros b' Hb'. rewrite Ed. by apply I.
  - rewrite Et. apply I.
  - intros j N. by rewrite fn_lookup_insert_ne.
  - by rewrite fn_lookup_insert.
  - by rewrite fn_lookup_insert.
  - by left.
Qed.

Lemma agree_off_held b x a : agree_off b a (a_set_held (<[b := x]> (a_held a)) a).
Proof. intros b' N. simpl. by rewrite lookup_insert_ne. Qed.
Lemma agree_off_release b a : agree_off b a (a_set_held (delete b (a_held a)) a).
Proof. intros b' N. simpl. by rewrite lookup_delete_ne. Qed.
Lemma agree_off_pin b d a : agree_off b a (a_set_pin (<[b := d]> (a_pin a)) a).
Proof. intros b' N. simpl. by rewrite lookup_insert_ne. Qed.
Lemma agree_off_write b d a : agree_off b a (a_write b d a).
Proof. intros b' N. simpl. by rewrite lookup_delete_ne, fn_lookup_insert_ne. Qed.

Lemma bio_put_law s a b h d d' :
  cache_inv s a -> a_held a !! b = Some (h, d) ->
  exists s', upd_buf h (set_data d') s = Ok (tt, s') /\
    cache_inv s' (a_set_held (<[b := (h, d')]> (a_held a)) a).
Proof.
  intros I Hh. destruct (held_buf _ _ _ _ _ I Hh) as (Hr & Hb & Hn & Hf & Hrc & Hl & Hd & _).
  pose proof Hb as [E1 E2]%is_block_spec.
  eexists. split; [reflexivity|]. eapply held_update; eauto using agree_off_held.
  right. simpl. rewrite E2, lookup_insert_eq. done.
Qed.

Lemma bio_mark_law s a b h d :
  cache_inv s a -> a_held a !! b = Some (h, d) ->
  exists s', upd_buf h (fun b => set_flags (Z.lor (b_flags b) B_DIRTY) b) s = Ok (tt, s') /\
    cache_inv s' (a_set_pin (<[b := d]> (a_pin a)) a).
Proof.
  intros I Hh. destruct (held_buf _ _ _ _ _ I Hh) as (Hr & Hb & Hn & Hf & Hrc & Hl & Hd & _).
  pose proof Hb as [E1 E2]%is_block_spec.
  eexists. split; [reflexivity|]. eapply held_update; eauto using agree_off_pin.
  right. simpl. rewrite E2, lookup_insert_eq, Hh, Hf. split; [done|]. split; [done|].
  split; [by destruct (a_pin a !! b)|done].
Qed.

Lemma bio_write_law s a b h d :
  cache_inv s a -> a_held a !! b = Some (h, d) ->
  exists s', bio_bwrite h s = Ok (tt, s') /\ cache_inv s' (a_write b d a).
Proof.
  intros I Hh. destruct (held_buf _ _ _ _ _ I Hh) as (Hr & Hb & Hn & Hf & Hrc & Hl & Hd & Hno).
  pose proof Hb as [E1 E2]%is_block_spec.
  unfold bio_bwrite. rewrite (bind_Ok _ _ _ (bufs s h) _) by done.
  unfold holdingsleep. rewrite Hl. cbn [negb].
  rewrite (bind_Ok _ _ _ tt _) by reflexivity.
  set (x := set_flags (Z.lor (b_flags (bufs s h)) B_DIRTY) (bufs s h)).
  set (s1 := Io (<[h := x]> (bufs s)) (idequeue s) (havedisk1 s) (ctl s)).
  assert (Ex : bufs s1 h = x) by (simpl; by rewrite fn_lookup_insert).
  assert (Fx : b_flags x = 6) by (simpl; rewrite Hf; by destruct (a_pin a !! b)).
  destruct (iderw_spec s1 h) as (s' & E & Hq & Ho & [q Ei] & D & T & H1).
  - apply I.
  - rewrite Ex. split; [simpl; by rewrite E2|]. rewrite Fx. lia.
  - rewrite Ex. unfold in_sync. by rewrite Fx.
  - by rewrite Ex.
  - right. apply I.
  - rewrite Ex in *. assert (Hdx : dirty x = true) by (unfold dirty; by rewrite Fx).
    unfold done_buf, done_disk, done_trace in *. rewrite Hdx in *. rewrite Fx in Ei.
    change (b_dev x) with (b_dev (bufs s h)) in *. rewrite E1 in *.
    change (b_blockno x) with (b_blockno (bufs s h)) in *. rewrite E2 in *.
    change (b_data x) with (b_data (bufs s h)) in *. rewrite Hd in *.
    exists s'. split; [done|].
    eapply (cache_update s a s' _ h b); eauto using agree_off_write.
    + destruct (ci_list _ _ I) as (l & Hll & Hp). exists l. split; [|done].
      eapply dll_ext; [|exact Hll]. intros y. destruct (decide (y = h)) as [->|N].
      * by rewrite Ei.
      * destruct (Ho y N) as [q' ->]. simpl. by rewrite fn_lookup_insert_ne.
    + rewrite H1. apply I.
    + intros b' Hb'. rewrite D. simpl. unfold write_disk.
      change (Z.land ROOTDEV 1) with ROOTDEV. rewrite fn_lookup_insert.
      destruct (decide (b = b')) as [->|]; [by rewrite !fn_lookup_insert|].
      rewrite !fn_lookup_insert_ne by done. by apply I.
    + rewrite T. simpl. rewrite (ci_trace _ _ I). unfold dev_trace. by rewrite map_app.
    + intros j N. destruct (Ho j N) as [q' ->]. simpl. by rewrite fn_lookup_insert_ne.
    + rewrite Ei. by apply is_block_spec.
    + rewrite Ei. right. simpl. rewrite E2, lookup_delete_eq, Hh. done.
Qed.

(** [brelse] of a held buffer moves it to the front of the list. *)
Lemma bio_brelse_eq s h :
  sl_locked (b_lock (bufs s h)) = true -> b_refcnt (bufs s h) = 1 ->
  bio_brelse h s = Ok (tt, Io (push_front h (unlink h
    (<[h := set_refcnt 0 (set_lock (releasesleep (b_lock (bufs s h))) (bufs s h))]> (bufs s))))
    (idequeue s) (havedisk1 s) (ctl s)).
Proof.
  intros Hl Hr. unfold bio_brelse. rewrite (bind_Ok _ _ _ (bufs s h) _) by done.
  unfold holdingsleep. rewrite Hl. cbn [negb].
  rewrite (bind_Ok _ _ _ tt _) by reflexivity.
  rewrite (bind_Ok _ _ _ tt _) by reflexivity. cbn [bufs idequeue havedisk1 ctl].
  rewrite fn_lookup_insert, fn_insert_insert. cbn [b_refcnt set_lock]. rewrite Hr.
  change (u32 (1 - 1)) with 0.
  set (x := set_refcnt 0 _). set (f := <[h := x]> (bufs s)).
  assert (Ex : f h = x) by (unfold f; by rewrite fn_lookup_insert).
  rewrite (bind_Ok _ _ _ x _) by (unfold buf_at, gets; cbn [bufs]; by rewrite Ex).
  change (b_refcnt x =? 0) with true. cbn iota.
  rewrite <-Ex. reflexivity.
Qed.

Lemma unlink_core x f y : core (unlink x f y) = core (f y).
Proof. unfold core, unlink. fn_cases. Qed.
Lemma push_front_core x f y : core (push_front x f y) = core (f y).
Proof. unfold core, push_front. fn_cases. Qed.

Lemma list_nodup l : l ≡ₚ seqZ 0 NBUF -> NoDup (HEAD :: l).
Proof.
  intros Hp. rewrite Hp. apply NoDup_cons. split; [|apply NoDup_seqZ].
  rewrite elem_of_seqZ. unfold HEAD. lia.
Qed.

Lemma list_in l i : l ≡ₚ seqZ 0 NBUF -> i ∈ l <-> 0 <= i < NBUF.
Proof. intros ->. rewrite elem_of_seqZ. lia. Qed.

Lemma bio_release_law s a b h d :
  cache_inv s a -> a_held a !! b = Some (h, d) -> aview a b = d ->
  exists s', bio_brelse h s = Ok (tt, s') /\
    cache_inv s' (a_set_held (delete b (a_held a)) a).
Proof.
  intros I Hh Hv.
  destruct (held_buf _ _ _ _ _ I Hh) as (Hr & Hb & Hn & Hf & Hrc & Hl & Hd & Hno).
  pose proof Hb as [E1 E2]%is_block_spec.
  rewrite bio_brelse_eq by done. set (x := set_refcnt 0 _). set (f := <[h := x]> (bufs s)).
  assert (Ex : f h = x) by (unfold f; by rewrite fn_lookup_insert).
  eexists. split; [reflexivity|].
  assert (Hc : forall j, core (push_front h (unlink h f) j) = core (f j))
    by (intros j; by rewrite push_front_core, unlink_core).
  eapply (cache_update s a _ _ h b); eauto using agree_off_release; try apply I; simpl.
  - destruct (ci_list _ _ I) as (l & Hll & Hp).
    pose proof (list_nodup _ Hp) as Hnd.
    assert (Hin : h ∈ l) by by apply (list_in l).
    apply list_elem_of_split in Hin as (l1 & l2 & ->).
    exists (h :: l1 ++ l2). split; [|by rewrite Permutation_middle].
    assert (Hnd' : NoDup (HEAD :: h :: l1 ++ l2)) by by rewrite Permutation_middle.
    apply NoDup_cons in Hnd' as [Hx1 [Hx2 Hx3]%NoDup_cons].
    apply dll_push.
    + apply dll_unlink; [|done]. eapply dll_ext; [|exact Hll]. intros y. unfold f, x. fn_cases.
    + apply not_elem_of_cons. split; [|done]. intros ->. apply Hx1. left.
    + apply NoDup_cons. split; [|done]. intros ?. apply Hx1. by right.
  - intros j N. rewrite Hc. unfold f. by rewrite fn_lookup_insert_ne.
  - rewrite (is_block_core _ _ _ _ (Hc h)), Ex. by apply is_block_spec.
  - eapply buf_rel_core; [symmetry; apply Hc|]. rewrite Ex. right. simpl.
    rewrite E2, lookup_delete_eq. split; [done|]. split; [done|]. split; [done|].
    split; [done|]. split; [done|]. unfold aview in *. simpl. congruence.
Qed.

(** When more buffers exist than blocks are pinned or held, one can be
    recycled. *)
Lemma unused_exists s a :
  cache_inv s a -> (size (dom (a_pin a) ∪ dom (a_held a)) < Z.to_nat NBUF)%nat ->
  exists i, 0 <= i < NBUF /\ unused (bufs s i) = true.
Proof.
  intros I Hsz.
  destruct (decide (Exists (fun i => unused (bufs s i) = true) (seqZ 0 NBUF))) as [H|H].
  { apply Exists_exists in H as (i & Hi%elem_of_seqZ & Hu). exists i. split; [lia|done]. }
  exfalso. assert (Hall : forall i, 0 <= i < NBUF -> b_dev (bufs s i) = ROOTDEV /\
    b_blockno (bufs s i) ∈ dom (a_pin a) ∪ dom (a_held a)).
  { intros i Hi. assert (Hu : unused (bufs s i) = false).
    { apply not_true_is_false. intros Hu. apply H, Exists_exists. exists i.
      split; [apply elem_of_seqZ; lia|done]. }
    unfold unused in Hu. destruct (ci_buf _ _ I i Hi) as [(_ & Hf & Hr & _)|(Hd & _ & Hf & Hh)].
    - unfold dirty in Hu. by rewrite Hr, Hf in Hu.
    - split; [done|]. apply elem_of_union.
      destruct (a_pin a !! b_blockno (bufs s i)) eqn:Ep; [left; by apply elem_of_dom|].
      destruct (a_held a !! b_blockno (bufs s i)) eqn:Eh; [right; by apply elem_of_dom|].
      destruct Hh as (Hr & _). unfold dirty in Hu. by rewrite Hr, Hf in Hu. }
  assert (Hn : NoDup ((fun i => b_blockno (bufs s i)) <$> seqZ 0 NBUF)).
  { apply NoDup_fmap_2_strong; [|apply NoDup_seqZ].
    intros i j Hi%elem_of_seqZ Hj%elem_of_seqZ E.
    apply (ci_uniq _ _ I); try lia; [apply Hall; lia|apply Hall; lia]. }
  assert (Hsub : list_to_set ((fun i => b_blockno (bufs s i)) <$> seqZ 0 NBUF) ⊆
    dom (a_pin a) ∪ dom (a_held a)).
  { intros b. rewrite elem_of_list_to_set. intros (i & -> & Hi%elem_of_seqZ)%list_elem_of_fmap.
    apply Hall. lia. }
  apply subseteq_size in Hsub. rewrite size_list_to_set in Hsub by done.
  rewrite length_fmap, length_seqZ in Hsub. lia.
Qed.

Lemma lock_buf_ok pid i f q h c :
  sl_locked (b_lock (f i)) = false ->
  lock_buf pid i (Io f q h c) = Ok (tt, Io (<[i := set_lock (Sleeplk true pid) (f i)]> f) q h c).
Proof.
  intros Hl. unfold lock_buf. rewrite (bind_Ok _ _ _ (f i) _) by done.
  unfold acquiresleep. by rewrite Hl.
Qed.

(** A hit: the buffer that holds the block. *)
Lemma bget_hit pid dev b i s l n :
  dll (bufs s) l -> l ≡ₚ seqZ 0 NBUF ->
  list_find (fun i => is_block dev b (bufs s i) = true) l = Some (n, i) ->
  b_refcnt (bufs s i) = 0 -> sl_locked (b_lock (bufs s i)) = false ->
  bget pid dev b s = Ok (i, Io (<[i := set_lock (Sleeplk true pid) (set_refcnt 1 (bufs s i))]>
    (bufs s)) (idequeue s) (havedisk1 s) (ctl s)).
Proof.
  intros Hl Hp Hf Hr Hk. destruct s as [f q h c]. simpl in *. unfold bget.
  rewrite (bind_Ok _ _ _ (f HEAD) _) by done.
  pose proof (list_nodup _ Hp) as [Hh _]%NoDup_cons.
  rewrite (bind_Ok _ _ _ _ _ (scan_next f q h c _ l HEAD (Z.to_nat NBUF) Hl Hh
    ltac:(rewrite Hp, length_seqZ; lia))).
  rewrite Hf. simpl. rewrite (bind_Ok _ _ _ tt _) by reflexivity. cbn [bufs idequeue havedisk1 ctl].
  rewrite Hr. erewrite bind_Ok by (apply lock_buf_ok; by rewrite fn_lookup_insert).
  unfold ret. by rewrite fn_lookup_insert, fn_insert_insert.
Qed.

(** A miss: the unused buffer that was released the longest time ago. *)
Lemma bget_miss pid dev b i s l n :
  dll (bufs s) l -> l ≡ₚ seqZ 0 NBUF ->
  list_find (fun i => is_block dev b (bufs s i) = true) l = None ->
  list_find (fun i => unused (bufs s i) = true) (reverse l) = Some (n, i) ->
  sl_locked (b_lock (bufs s i)) = false ->
  bget pid dev b s = Ok (i, Io (<[i := set_lock (Sleeplk true pid) (set_refcnt 1 (set_flags 0
    (set_block dev b (bufs s i))))]> (bufs s)) (idequeue s) (havedisk1 s) (ctl s)).
Proof.
  intros Hl Hp Hf Hu Hk. destruct s as [f q h c]. simpl in *. unfold bget.
  rewrite (bind_Ok _ _ _ (f HEAD) _) by done.
  pose proof (list_nodup _ Hp) as [Hh _]%NoDup_cons.
  assert (Hlen : (length l <= Z.to_nat NBUF)%nat) by (rewrite Hp, length_seqZ; lia).
  rewrite (bind_Ok _ _ _ _ _ (scan_next f q h c _ l HEAD _ Hl Hh Hlen)). rewrite Hf. cbn [mbind option_bind].
  rewrite (bind_Ok _ _ _ _ _ (scan_prev f q h c _ l HEAD _ Hl Hh Hlen)). rewrite Hu. cbn [mbind option_bind snd].
  do 3 rewrite (bind_Ok _ _ _ tt _) by reflexivity. cbn [bufs idequeue havedisk1 ctl].
  erewrite bind_Ok by (apply lock_buf_ok; by rewrite fn_lookup_insert, !fn_insert_insert, !fn_lookup_insert).
  unfold ret. by rewrite !fn_lookup_insert, !fn_insert_insert.
Qed.

Lemma list_find_in (P : Z -> Prop) `{forall x, Decision (P x)} l n i :
  list_find P l = Some (n, i) -> i ∈ l /\ P i.
Proof. intros (H1 & H2 & _)%list_find_Some. split; [by eapply list_elem_of_lookup_2|done]. Qed.

Lemma bio_bread_law pid s a b :
  cache_inv s a -> 0 <= b < FSSIZE -> a_held a !! b = None -> room a b ->
  exists h s', bio_bread pid ROOTDEV b s = Ok (h, s') /\
    cache_inv s' (a_set_held (<[b := (h, aview a b)]> (a_held a)) a).
Proof.
  intros I Hb Hh Hroom. destruct (ci_list _ _ I) as (l & Hl & Hp). unfold bio_bread.
  destruct (list_find (fun i => is_block ROOTDEV b (bufs s i) = true) l) as [[n i]|] eqn:Hf.
  - destruct (list_find_in _ _ _ _ Hf) as [Hin Hblk]. apply (list_in l) in Hin; [|done].
    pose proof Hblk as [E1 E2]%is_block_spec.
    destruct (ci_buf _ _ I i Hin) as [(? & _)|(_ & _ & Hfl & Hr)]; [unfold ROOTDEV in *; lia|].
    rewrite E2, Hh in *. destruct Hr as (Hr & Hk & Hd).
    rewrite (bind_Ok _ _ _ _ _ (bget_hit pid ROOTDEV b i s l n Hl Hp Hf Hr Hk)).
    set (x := set_lock _ _). set (s1 := Io _ _ _ _).
    assert (Ex : bufs s1 i = x) by (simpl; by rewrite fn_lookup_insert).
    rewrite (bind_Ok _ _ _ x _) by (unfold buf_at, gets; by rewrite Ex).
    assert (Z.land (b_flags x) B_VALID =? 0 = false) as ->
      by (simpl; rewrite Hfl; by destruct (a_pin a !! b)).
    rewrite (bind_Ok _ _ _ tt s1) by done. exists i, s1. split; [done|].
    eapply (cache_update s a s1 _ i b); try apply I; try done.
    + exists l. split; [|done]. eapply dll_ext; [|exact Hl]. intros y. unfold s1, x. cbn [bufs]. fn_cases.
    + intros j N. unfold s1. simpl. by rewrite fn_lookup_insert_ne.
    + apply agree_off_held.
    + rewrite Ex. done.
    + rewrite Ex. right. simpl. rewrite E2, lookup_insert_eq. done.
    + intros j Hj N. apply not_true_is_false. intros [E3 E4]%is_block_spec. apply N.
      apply (ci_uniq _ _ I); congruence.
    + by left.
  - assert (Hno : forall j, 0 <= j < NBUF -> is_block ROOTDEV b (bufs s j) = false).
    { intros j Hj. apply not_true_is_false. rewrite list_find_None, Forall_forall in Hf.
      apply Hf. by apply (list_in l). }
    assert (Hpin : a_pin a !! b = None).
    { destruct (a_pin a !! b) eqn:E; [|done]. destruct (ci_pin _ _ I b) as (j & Hj & Ej); [done|].
      rewrite Hno in Ej; done. }
    destruct Hroom as [[? ?]|Hroom]; [congruence|].
    destruct (list_find (fun i => unused (bufs s i) = true) (reverse l)) as [[n i]|] eqn:Hu.
    2: { exfalso. destruct (unused_exists s a I Hroom) as (i & Hi & Hui).
      rewrite list_find_None, Forall_forall in Hu. apply (Hu i); [|done].
      apply elem_of_reverse. by apply (list_in l). }
    destruct (list_find_in _ _ _ _ Hu) as [Hin Hun]. rewrite elem_of_reverse in Hin.
    apply (list_in l) in Hin; [|done].
    assert (Hk : sl_locked (b_lock (bufs s i)) = false).
    { apply andb_true_iff in Hun as [Hr%Z.eqb_eq _].
      destruct (ci_buf _ _ I i Hin) as [(_ & _ & _ & ?)|(_ & _ & _ & Hx)]; [done|].
      destruct (a_held a !! b_blockno (bufs s i)) as [[]|]; [lia|tauto]. }
    rewrite (bind_Ok _ _ _ _ _ (bget_miss pid ROOTDEV b i s l n Hl Hp Hf Hu Hk)).
    set (x := set_lock _ _). set (s1 := Io _ _ _ _).
    assert (Ex : bufs s1 i = x) by (simpl; by rewrite fn_lookup_insert).
    rewrite (bind_Ok _ _ _ x _) by (unfold buf_at, gets; by rewrite Ex).
    change (Z.land (b_flags x) B_VALID =? 0) with true. cbn iota.
    destruct (iderw_spec s1 i) as (s' & E & Hq & Ho & [q Ei] & D & T & H1);
      rewrite ?Ex; try done; [apply I|right; apply I|].
    rewrite (bind_Ok _ _ _ _ _ E). exists i, s'. split; [done|].
    rewrite Ex in *. unfold done_buf, done_disk, done_trace in *.
    change (dirty x) with false in *. cbn iota in *.
    assert (Hd : disk (ctl s1) (Z.land ROOTDEV 1) b = a_disk a b) by by apply I.
    eapply (cache_update s a s' _ i b); try done.
    + exists l. split; [|done]. eapply dll_ext; [|exact Hl]. intros y.
      destruct (decide (y = i)) as [->|N]; [by rewrite Ei|].
      destruct (Ho y N) as [q' ->]. simpl. by rewrite fn_lookup_insert_ne.
    + rewrite H1. apply I.
    + intros b' Hb'. rewrite D. by apply I.
    + rewrite T, app_nil_r. apply I.
    + intros j N. destruct (Ho j N) as [q' ->]. simpl. by rewrite fn_lookup_insert_ne.
    + apply agree_off_held.
    + rewrite Ei. by apply is_block_spec.
    + rewrite Ei. right. simpl. rewrite lookup_insert_eq, Hpin. do 6 (split; [done|]).
      unfold aview. rewrite Hpin. exact Hd.
    + intros j Hj _. by apply Hno.
    + by right.
Qed.

(** The buffer cache implements the interface. *)
#[export] Instance bio_laws pid : @BlockLaws io (bio_ops pid) cache_inv.
Proof.
  split.
  - apply bio_bread_law.
  - apply bio_write_law.
  - apply bio_release_law.
  - intros s a b h d I Hh. destruct (held_buf _ _ _ _ _ I Hh) as (_ & _ & _ & _ & _ & _ & Hd & _).
    simpl. unfold gets. by rewrite Hd.
  - apply bio_put_law.
  - intros s a b h d I Hh. destruct (held_buf _ _ _ _ _ I Hh) as (_ & [_ Hb]%is_block_spec & _).
    simpl. unfold gets. by rewrite Hb.
  - apply bio_mark_law.
Qed.

(** ** binit *)

Lemma binit_step s b :
  b <> HEAD ->
  (let! h := buf_at HEAD in
   do! upd_buf b (set_next (b_next h)) in
   do! upd_buf b (set_prev HEAD) in
   do! upd_buf b (set_lock initsleeplock) in
   do! upd_buf (b_next h) (set_prev b) in
   upd_buf HEAD (set_next b)) s =
  Ok (tt, Io (push_front b (<[b := set_lock initsleeplock (bufs s b)]> (bufs s)))
    (idequeue s) (havedisk1 s) (ctl s)).
Proof.
  intros N. unfold bind, buf_at, gets, upd_buf, modify. cbn [bufs idequeue havedisk1 ctl].
  do 3 f_equal. unfold push_front. cbv zeta.
  rewrite !fn_insert_insert. apply functional_extensionality. intros y. fn_cases.
Qed.

Lemma binit_loop_spec n b s l :
  dll (bufs s) l -> NoDup (HEAD :: l) -> (forall i, b <= i < b + Z.of_nat n -> i ∉ HEAD :: l) ->
  exists s', binit_loop n b s = Ok (tt, s') /\
    dll (bufs s') (reverse (seqZ b (Z.of_nat n)) ++ l) /\
    (forall i, core (bufs s' i) = core (if in_range b (Z.of_nat n) i
                                        then set_lock initsleeplock (bufs s i) else bufs s i)) /\
    idequeue s' = idequeue s /\ havedisk1 s' = havedisk1 s /\ ctl s' = ctl s.
Proof.
  revert b s l. induction n as [|n IH]; intros b s l Hl Hn Hi.
  { exists s. simpl. split; [done|]. split; [done|]. split; [|done]. intros i.
    by destruct (in_range_spec b (Z.of_nat 0) i); [lia|]. }
  cbn [binit_loop].
  assert (Hb : b ∉ HEAD :: l) by (apply Hi; lia).
  assert (Nb : b <> HEAD) by (intros ->; apply Hb; left).
  pose proof (binit_step s b Nb) as E.
  set (f1 := <[b := set_lock initsleeplock (bufs s b)]> (bufs s)) in *.
  destruct (IH (b + 1) (Io (push_front b f1) (idequeue s) (havedisk1 s) (ctl s)) (b :: l))
    as (s' & E' & Hl' & Hc' & Hr').
  - simpl. apply dll_push; try done. eapply dll_ext; [|exact Hl]. intros y. unfold f1. fn_cases.
  - apply NoDup_cons in Hn as [Hh Hn]. apply NoDup_cons. split; [set_solver|].
    apply NoDup_cons. split; [set_solver|done].
  - intros i Hr. specialize (Hi i ltac:(lia)). assert (i <> b) by lia. set_solver.
  - exists s'. split.
    { rewrite <-E'. unfold bind in *. unfold buf_at, gets, upd_buf, modify in *.
      cbn [bufs idequeue havedisk1 ctl] in *. injection E as E. by rewrite E. }
    split.
    { rewrite (seqZ_cons b) by lia. rewrite reverse_cons, <-app_assoc. simpl.
      replace (Z.pred (Z.of_nat (S n))) with (Z.of_nat n) by lia. exact Hl'. }
    split; [|done]. intros i. rewrite Hc'. simpl.
    assert (Hcore : core (push_front b f1 i) = core (f1 i)) by apply push_front_core.
    assert (Hcl : core (set_lock initsleeplock (push_front b f1 i)) =
      core (set_lock initsleeplock (f1 i))).
    { pose proof Hcore as (E1 & E2 & E3 & E4 & E5 & E6)%core_eq. unfold core. cbn [b_flags b_dev b_blockno b_lock b_refcnt b_data set_lock]. congruence. }
    destruct (in_range_spec (b + 1) (Z.of_nat n) i), (in_range_spec b (Z.of_nat (S n)) i);
      try lia.
    + rewrite Hcl. unfold f1. rewrite fn_lookup_insert_ne by lia. done.
    + rewrite Hcore. assert (i = b) as -> by lia. unfold f1. by rewrite fn_lookup_insert.
    + rewrite Hcore. unfold f1. by rewrite fn_lookup_insert_ne by lia.
Qed.

(** The state at boot: zeroed buffers, two drives with given contents. *)
Definition boot (d : Z -> Z -> blk) : io :=
  Io (fun _ => buf0) None true (Hw (fun _ => 0) d None []).

Lemma binit_spec d :
  exists s', binit (boot d) = Ok (tt, s') /\ cache_inv s' (Acache (d ROOTDEV) ∅ ∅ []) /\
    dll (bufs s') (reverse (seqZ 0 NBUF)) /\
    forall i, 0 <= i < NBUF -> core (bufs s' i) = core buf0.
Proof.
  unfold binit. do 2 rewrite (bind_Ok _ _ _ tt _) by reflexivity.
  cbn [bufs idequeue havedisk1 ctl boot].
  set (f := <[HEAD := _]> _).
  destruct (binit_loop_spec (Z.to_nat NBUF) 0 (Io f None true
    (Hw (fun _ => 0) d None [])) []) as (s' & E & Hl & Hc & Hq & Hd & Hh).
  - split; [done|]. unfold f. by rewrite !fn_lookup_insert.
  - apply NoDup_singleton.
  - intros i Hi ->%list_elem_of_singleton. unfold HEAD in Hi. lia.
  - assert (Hcore : forall i, 0 <= i < NBUF -> core (bufs s' i) = core buf0).
    { intros i Hi. rewrite Hc. simpl.
      destruct (in_range_spec 0 (Z.of_nat (Z.to_nat NBUF)) i); [|unfold NBUF in *; lia].
      unfold f. rewrite !fn_lookup_insert_ne by (unfold HEAD; lia). done. }
    exists s'. split; [exact E|]. clear E. rewrite app_nil_r in Hl.
    change (Z.of_nat (Z.to_nat NBUF)) with NBUF in Hl.
    split; [|done]. split; rewrite ?Hh; try done.
    + eexists. split; [exact Hl|]. by rewrite reverse_Permutation.
    + intros i Hi. left. destruct (core_eq _ _ (Hcore i Hi)) as (-> & -> & _ & -> & -> & _). done.
    + intros i j Hi Hj Di. destruct (core_eq _ _ (Hcore i Hi)) as (_ & E1 & _).
      rewrite E1 in Di. done.
    + intros b [? Hx]. done.
Qed.

(** ** Theorems *)

(** C8: the buffer cache implements the abstract disk: after [binit] on a
    zeroed cache it stands for the disk with nothing pinned and nothing held,
    and [bread], [bwrite], [brelse] and the accesses to a held buffer obey every
    law of the interface its clients rely on. *)
Theorem bcache_refinement (pid : Z) :
  (forall d, exists s', binit (boot d) = Ok (tt, s') /\
     cache_inv s' (Acache (d ROOTDEV) ∅ ∅ [])) /\
  @BlockLaws io (bio_ops pid) cache_inv.
Proof.
  split; [|apply bio_laws]. intros d. destruct (binit_spec d) as (s' & E & I & _).
  exists s'. split; [exact E|exact I].
Qed.

(** The list is kept in order of last use and [bget] recycles its least
    recently used end.  Releasing a held buffer makes it the first of the list
    and keeps the order of the others; a block that is not cached gets the last
    buffer of the list that is unreferenced and clean, and when there is none
    [bget] panics. *)
Theorem bcache_lru (pid b h : Z) (d : blk) (s : io) (a : acache) (l1 l2 : list Z) :
  cache_inv s a -> dll (bufs s) (l1 ++ h :: l2) -> l1 ++ h :: l2 ≡ₚ seqZ 0 NBUF ->
  (a_held a !! b = Some (h, d) ->
     exists s', bio_brelse h s = Ok (tt, s') /\ dll (bufs s') (h :: l1 ++ l2)) /\
  (forall b', (forall i, 0 <= i < NBUF -> is_block ROOTDEV b' (bufs s i) = false) ->
     ((unused (bufs s h) = true /\ forall i, i ∈ l2 -> unused (bufs s i) = false) ->
        exists s', bget pid ROOTDEV b' s = Ok (h, s')) /\
     ((forall i, 0 <= i < NBUF -> unused (bufs s i) = false) ->
        bget pid ROOTDEV b' s = Panic "bget: no buffers")).
Proof.
  intros I Hl Hp. pose proof (list_nodup _ Hp) as Hnd. split.
  - intros Hh. destruct (held_buf _ _ _ _ _ I Hh) as (Hr & _ & _ & _ & Hrc & Hk & _).
    rewrite bio_brelse_eq by done. eexists. split; [reflexivity|]. simpl.
    assert (Hnd' : NoDup (HEAD :: h :: l1 ++ l2)) by by rewrite Permutation_middle.
    apply NoDup_cons in Hnd' as [Hx1 [Hx2 Hx3]%NoDup_cons].
    apply dll_push.
    + apply dll_unlink; [|done]. eapply dll_ext; [|exact Hl]. intros y. fn_cases.
    + apply not_elem_of_cons. split; [|done]. intros ->. apply Hx1. left.
    + apply NoDup_cons. split; [|done]. intros ?. apply Hx1. by right.
  - intros b' Hno.
    assert (Hf : list_find (fun i => is_block ROOTDEV b' (bufs s i) = true) (l1 ++ h :: l2) = None).
    { apply list_find_None, Forall_forall. intros i Hi%(list_in _ _ Hp). by rewrite Hno. }
    split.
    + intros [Hu Hun]. assert (Hin : 0 <= h < NBUF).
      { apply (list_in _ _ Hp), elem_of_app. right. left. }
      eexists. eapply (bget_miss pid ROOTDEV b' h s _ (length l2) Hl Hp Hf).
      * apply list_find_Some. rewrite reverse_app, reverse_cons, <-app_assoc.
        split; [|split; [done|]].
        -- rewrite lookup_app_r by (rewrite length_reverse; lia).
           by rewrite length_reverse, Nat.sub_diag.
        -- intros j y Hy Hj. rewrite lookup_app_l in Hy by (rewrite length_reverse; lia).
           apply list_elem_of_lookup_2 in Hy. rewrite elem_of_reverse in Hy. by rewrite Hun.
      * apply andb_true_iff in Hu as [Hr%Z.eqb_eq _].
        destruct (ci_buf _ _ I h Hin) as [(_ & _ & _ & ?)|(_ & _ & _ & Hx)]; [done|].
        destruct (a_held a !! b_blockno (bufs s h)) as [[]|]; [lia|tauto].
    + intros Hun. destruct s as [f q hd c]. simpl in *. unfold bget.
      rewrite (bind_Ok _ _ _ (f HEAD) _) by done.
      pose proof Hnd as [Hhd _]%NoDup_cons.
      assert (Hlen : (length (l1 ++ h :: l2) <= Z.to_nat NBUF)%nat)
        by (rewrite Hp, length_seqZ; lia).
      rewrite (bind_Ok _ _ _ _ _ (scan_next f q hd c _ _ HEAD _ Hl Hhd Hlen)), Hf.
      cbn [mbind option_bind].
      rewrite (bind_Ok _ _ _ _ _ (scan_prev f q hd c _ _ HEAD _ Hl Hhd Hlen)).
      assert (Hu : list_find (fun i => unused (f i) = true) (reverse (l1 ++ h :: l2)) = None).
      { apply list_find_None, Forall_forall. intros i Hi. rewrite elem_of_reverse in Hi.
        apply (list_in _ _ Hp) in Hi. by rewrite Hun. }
      by rewrite Hu.
Qed.

(** ** Witnesses *)

Lemma reverse_split : reverse (seqZ 0 NBUF) = reverse (seqZ 1 29) ++ 0 :: [].
Proof. reflexivity. Qed.

Lemma reverse_perm : reverse (seqZ 1 29) ++ 0 :: [] ≡ₚ seqZ 0 NBUF.
Proof. rewrite <-reverse_split. by rewrite reverse_Permutation. Qed.

(** After [binit] the last buffer of the list is buffer 0. *)
Lemma bcache_lru_witness :
  exists s s', binit (boot (fun _ _ => [])) = Ok (tt, s) /\ bget 1 ROOTDEV 5 s = Ok (0, s').
Proof.
  destruct (binit_spec (fun _ _ => [])) as (s & E & I & Hl & Hc).
  rewrite reverse_split in Hl.
  destruct (bcache_lru 1 5 0 [] s _ (reverse (seqZ 1 29)) [] I Hl reverse_perm) as [_ H].
  destruct (H 5) as [H1 _].
  - intros i Hi. rewrite (is_block_core _ _ _ _ (Hc i Hi)). reflexivity.
  - destruct H1 as [s' E'].
    + split; [|intros i Hi; exfalso; by apply not_elem_of_nil in Hi].
      destruct (core_eq _ _ (Hc 0 ltac:(unfold NBUF; lia))) as (E1 & _ & _ & _ & E2 & _).
      unfold unused, dirty. rewrite E1, E2. reflexivity.
    + exists s, s'. split; [exact E|exact E'].
Defined.
