(* ===== verification/Log.v ===== *)
(** * The log: log.c

    The operations of log.c over the interface of Blocks.v, and crash safety: a
    crash is the loss of everything but the disk after any number of the disk
    writes of an operation. *)
From S2P Require Import Prelude Bytes Sleeplock Ide Blocks Bio.

Definition MAXOPBLOCKS : Z := 10.
Definition LOGSIZE : Z := MAXOPBLOCKS * 3.

Record logheader : Type := Logheader { lh_n : Z; lh_block : list Z }.

Record log : Type := Log {
  lg_start : Z;
  lg_size : Z;
  lg_outstanding : Z;
  lg_committing : bool;
  lg_dev : Z;
  lg_lh : logheader;
}.

Definition set_lh (h : logheader) (l : log) : log :=
  Log (lg_start l) (lg_size l) (lg_outstanding l) (lg_committing l) (lg_dev l) h.
Definition set_n (n : Z) (l : log) : log := set_lh (Logheader n (lh_block (lg_lh l))) l.
Definition set_outstanding (n : Z) (l : log) : log :=
  Log (lg_start l) (lg_size l) n (lg_committing l) (lg_dev l) (lg_lh l).
Definition set_committing (c : bool) (l : log) : log :=
  Log (lg_start l) (lg_size l) (lg_outstanding l) c (lg_dev l) (lg_lh l).

(** [log.lh.block[i]], and its update; an index outside the array is undefined
    in C. *)
Definition lh_get (h : logheader) (i : Z) : Z := default 0 (lh_block h !! Z.to_nat i).

(** ** The header block: [int n; int block[LOGSIZE]] *)

Definition hb_n (d : blk) : Z := s32 (get32 d 0).
Definition hb_block (d : blk) (i : nat) : Z := s32 (get32 d (4 + 4 * i)).
Fixpoint hb_put (d : blk) (i : nat) (l : list Z) : blk :=
  match l with
  | [] => d
  | b :: l => hb_put (put32 d (4 + 4 * i) b) (S i) l
  end.
(** [hb->n = n; for (...) hb->block[i] = block[i];] *)
Definition hb_write (d : blk) (l : list Z) : blk := hb_put (put32 d 0 (Z.of_nat (length l))) 0 l.

(** [log.lh.n >= LOGSIZE || log.lh.n >= log.size - 1] *)
Definition too_big (l : log) : bool :=
  (LOGSIZE <=? lh_n (lg_lh l)) || (lg_size l - 1 <=? lh_n (lg_lh l)).

Section Log.
Context {S : Type} {ops : BlockOps S}.

Record lst : Type := Lst { l_io : S; l_log : log }.

Definition lift {A} (m : M S A) : M lst A := fun s =>
  match m (l_io s) with
  | Ok (a, io) => Ok (a, Lst io (l_log s))
  | Panic msg => Panic msg
  | Block => Block
  | Fuel => Fuel
  end.
Definition the_log : M lst log := gets l_log.
Definition upd_log (f : log -> log) : M lst unit := modify (fun s => Lst (l_io s) (f (l_log s))).

(** [memmove(to->data, from->data, BSIZE)] *)
Definition copy_block (to from : Z) : M lst unit :=
  let! d := lift (b_get from) in lift (b_put to d).

(** The loop of [install_trans] from [tail] on, with [n] iterations left. *)
Fixpoint install_loop (n : nat) (tail : Z) : M lst unit :=
  match n with
  | O => ret tt
  | Datatypes.S n =>
      let! l := the_log in
      let! lbuf := lift (bread (lg_dev l) (lg_start l + tail + 1)) in
      let! dbuf := lift (bread (lg_dev l) (lh_get (lg_lh l) tail)) in
      do! copy_block dbuf lbuf in
      do! lift (bwrite dbuf) in
      do! lift (brelse lbuf) in
      do! lift (brelse dbuf) in
      install_loop n (tail + 1)
  end.

Definition install_trans : M lst unit :=
  let! l := the_log in install_loop (Z.to_nat (lh_n (lg_lh l))) 0.

(** [for (i = 0; i < n; i++) log.lh.block[i] = lh->block[i];] *)
Fixpoint read_blocks (n : nat) (i : nat) (d : blk) : M lst unit :=
  match n with
  | O => ret tt
  | Datatypes.S n =>
      if LOGSIZE <=? Z.of_nat i then panic "undefined: log.lh.block out of bounds"
      else
        do! upd_log (fun l => set_lh (Logheader (lh_n (lg_lh l))
              (<[i := hb_block d i]> (lh_block (lg_lh l)))) l) in
        read_blocks n (Datatypes.S i) d
  end.

Definition read_head : M lst unit :=
  let! l := the_log in
  let! b := lift (bread (lg_dev l) (lg_start l)) in
  let! d := lift (b_get b) in
  do! upd_log (set_n (hb_n d)) in
  do! read_blocks (Z.to_nat (hb_n d)) 0 d in
  lift (brelse b).

Definition write_head : M lst unit :=
  let! l := the_log in
  let! b := lift (bread (lg_dev l) (lg_start l)) in
  let! d := lift (b_get b) in
  do! lift (b_put b (hb_write d (take (Z.to_nat (lh_n (lg_lh l))) (lh_block (lg_lh l))))) in
  do! lift (bwrite b) in
  lift (brelse b).

Definition recover_from_log : M lst unit :=
  do! read_head in
  do! install_trans in
  do! upd_log (set_n 0) in
  write_head.

(** [initlog], with the superblock fields it reads. *)
Definition initlog (dev logstart nlog : Z) : M lst unit :=
  do! upd_log (fun l => Log logstart nlog (lg_outstanding l) (lg_committing l) dev (lg_lh l)) in
  recover_from_log.

Definition begin_op : M lst unit :=
  let! l := the_log in
  if lg_committing l then block
  else if LOGSIZE <? lh_n (lg_lh l) + (lg_outstanding l + 1) * MAXOPBLOCKS then block
  else upd_log (set_outstanding (lg_outstanding l + 1)).

Fixpoint write_log_loop (n : nat) (tail : Z) : M lst unit :=
  match n with
  | O => ret tt
  | Datatypes.S n =>
      let! l := the_log in
      let! to := lift (bread (lg_dev l) (lg_start l + tail + 1)) in
      let! from := lift (bread (lg_dev l) (lh_get (lg_lh l) tail)) in
      do! copy_block to from in
      do! lift (bwrite to) in
      do! lift (brelse from) in
      do! lift (brelse to) in
      write_log_loop n (tail + 1)
  end.

Definition write_log : M lst unit :=
  let! l := the_log in write_log_loop (Z.to_nat (lh_n (lg_lh l))) 0.

Definition commit : M lst unit :=
  let! l := the_log in
  if 0 <? lh_n (lg_lh l) then
    do! write_log in
    do! write_head in
    do! install_trans in
    do! upd_log (set_n 0) in
    write_head
  else ret tt.

Definition end_op : M lst unit :=
  let! l := the_log in
  do! upd_log (set_outstanding (lg_outstanding l - 1)) in
  if lg_committing l then panic "log.committing"
  else if lg_outstanding l - 1 =? 0 then
    do! upd_log (set_committing true) in
    do! commit in
    upd_log (set_committing false)
  else ret tt.

(** The absorption loop: the first index with the block, or [n]. *)
Fixpoint find_slot (l : list Z) (b : Z) : nat :=
  match l with
  | [] => O
  | x :: l => if x =? b then O else Datatypes.S (find_slot l b)
  end.

Definition record_block (b : Z) (l : log) : log :=
  let n := Z.to_nat (lh_n (lg_lh l)) in
  let i := find_slot (take n (lh_block (lg_lh l))) b in
  set_lh (Logheader (if (i =? n)%nat then lh_n (lg_lh l) + 1 else lh_n (lg_lh l))
    (<[i := b]> (lh_block (lg_lh l)))) l.

Definition log_write (b : Z) : M lst unit :=
  let! l := the_log in
  if too_big l then panic "too big a transaction"
  else if lg_outstanding l <? 1 then panic "log_write outside of trans"
  else
    let! n := lift (b_number b) in
    do! upd_log (record_block n) in
    lift (b_mark b).
End Log.
Arguments lst : clear implicits.
Arguments Lst {S} l_io l_log.

(** ** The operations on the abstract cache *)

Section LogSpec.
Context {S : Type} {ops : BlockOps S} {R : S -> acache -> Prop} {laws : BlockLaws S R}.

Lemma lift_Ok {A} (m : M S A) io l a io' :
  m io = Ok (a, io') -> lift m (Lst io l) = Ok (a, Lst io' l).
Proof. intros E. unfold lift. simpl. by rewrite E. Qed.

Lemma aview_write_eq b d a : aview (a_write b d a) b = d.
Proof. unfold aview. simpl. by rewrite lookup_delete_eq, fn_lookup_insert. Qed.

Lemma aview_write_ne b b' d a : b' <> b -> aview (a_write b d a) b' = aview a b'.
Proof.
  intros N. unfold aview. simpl. by rewrite lookup_delete_ne, fn_lookup_insert_ne by done.
Qed.

(** With the blocks [x] and [y] held: storing the contents of [x] in [y],
    writing [y] and releasing both is one disk write. *)
Lemma copy_tail io a x y h1 h2 d :
  R io (a_set_held {[x := (h1, aview a x); y := (h2, d)]} a) -> a_held a = ∅ -> x <> y ->
  exists io3 io4 io5 io6,
    b_get h1 io = Ok (aview a x, io) /\ b_put h2 (aview a x) io = Ok (tt, io3) /\
    bwrite h2 io3 = Ok (tt, io4) /\
    brelse h1 io4 = Ok (tt, io5) /\ brelse h2 io5 = Ok (tt, io6) /\
    R io6 (a_write y (aview a x) a).
Proof.
  intros R2 Hh N. set (a2 := a_set_held _ a) in R2.
  assert (Hx2 : a_held a2 !! x = Some (h1, aview a x)) by (simpl; by rewrite lookup_insert_eq).
  assert (Hy2 : a_held a2 !! y = Some (h2, d)).
  { simpl. rewrite lookup_insert_ne by done. by rewrite lookup_singleton_eq. }
  pose proof (b_get_law _ _ _ _ _ R2 Hx2) as E3.
  destruct (b_put_law _ _ _ _ _ (aview a x) R2 Hy2) as (io3 & E4 & R3).
  set (a3 := a_set_held _ a2) in R3.
  destruct (bwrite_law io3 a3 y h2 (aview a x) R3) as (io4 & E5 & R4).
  { simpl. by rewrite lookup_insert_eq. }
  destruct (brelse_law io4 _ x h1 (aview a x) R4) as (io5 & E6 & R5).
  { simpl. rewrite !lookup_insert_ne, lookup_insert_eq by done. done. }
  { by rewrite aview_write_ne. }
  destruct (brelse_law io5 _ y h2 (aview a x) R5) as (io6 & E7 & R6).
  { simpl. rewrite lookup_delete_ne, lookup_insert_eq by done. done. }
  { apply (aview_write_eq y (aview a x) a3). }
  exists io3, io4, io5, io6. do 5 (split; [done|]).
  match type of R6 with R _ ?a' => replace (a_write y (aview a x) a) with a' end; [done|].
  unfold a_write, a_set_held; simpl. f_equal. rewrite Hh. apply map_eq. intros b.
  destruct (decide (b = y)) as [->|]; [by rewrite lookup_delete_eq|].
  rewrite lookup_delete_ne by done. destruct (decide (b = x)) as [->|]; [by rewrite lookup_delete_eq|].
  rewrite lookup_delete_ne, !lookup_insert_ne, lookup_singleton_ne by done. done.
Qed.

Lemma held_swap (x y : Z) (u v : Z * blk) :
  x <> y -> ({[x := u; y := v]} : gmap Z (Z * blk)) = {[y := v; x := u]}.
Proof. intros N. rewrite <-!insert_empty. by rewrite insert_insert_ne. Qed.

Lemma bread2 io a x y :
  R io a -> a_held a = ∅ -> x <> y -> 0 <= x < FSSIZE -> 0 <= y < FSSIZE ->
  (size (dom (a_pin a)) < Z.to_nat NBUF)%nat ->
  is_Some (a_pin a !! y) \/ (Datatypes.S (size (dom (a_pin a))) < Z.to_nat NBUF)%nat ->
  exists h1 h2 io1 io2,
    bread ROOTDEV x io = Ok (h1, io1) /\ bread ROOTDEV y io1 = Ok (h2, io2) /\
    R io2 (a_set_held {[x := (h1, aview a x); y := (h2, aview a y)]} a).
Proof.
  intros HR Hh N Hx Hy Hp Hr.
  destruct (bread_law io a x HR Hx) as (h1 & io1 & E1 & R1).
  { by rewrite Hh. } { right. rewrite Hh, dom_empty_L, union_empty_r_L. done. }
  set (a1 := a_set_held _ a) in R1.
  destruct (bread_law io1 a1 y R1 Hy) as (h2 & io2 & E2 & R2).
  { simpl. rewrite Hh. by rewrite lookup_insert_ne. }
  { destruct Hr as [Hr|Hr]; [by left|right]. simpl. rewrite Hh, insert_empty, dom_singleton_L.
    pose proof (size_union_alt (dom (a_pin a)) {[x]}).
    pose proof (subseteq_size ({[x]} ∖ dom (a_pin a)) {[x]} ltac:(set_solver)).
    rewrite size_singleton in *. lia. }
  exists h1, h2, io1, io2. do 2 (split; [done|]).
  match type of R2 with R _ ?a' => replace (a_set_held _ a) with a' end; [done|].
  unfold a1, a_set_held; simpl. f_equal. rewrite Hh, insert_empty. by apply held_swap.
Qed.

(** One iteration of [install_trans]. *)
Lemma install_iter io l a x y :
  R io a -> a_held a = ∅ -> x <> y -> 0 <= x < FSSIZE -> 0 <= y < FSSIZE ->
  (size (dom (a_pin a)) < Z.to_nat NBUF)%nat ->
  is_Some (a_pin a !! y) \/ (Datatypes.S (size (dom (a_pin a))) < Z.to_nat NBUF)%nat ->
  exists io', R io' (a_write y (aview a x) a) /\ forall B (k : M (lst S) B),
    (let! lbuf := lift (bread ROOTDEV x) in
     let! dbuf := lift (bread ROOTDEV y) in
     do! copy_block dbuf lbuf in
     do! lift (bwrite dbuf) in
     do! lift (brelse lbuf) in
     do! lift (brelse dbuf) in k) (Lst io l) = k (Lst io' l).
Proof.
  intros HR Hh N Hx Hy Hp Hr.
  destruct (bread2 io a x y HR Hh N Hx Hy Hp Hr) as (h1 & h2 & io1 & io2 & E1 & E2 & R2).
  destruct (copy_tail io2 a x y h1 h2 _ R2 Hh N) as (io3 & io4 & io5 & io6 & E3 & E4 & E5 & E6 & E7 & R6).
  exists io6. split; [done|]. intros B k. unfold copy_block.
  rewrite (bind_Ok _ _ _ _ _ (lift_Ok _ _ l _ _ E1)), (bind_Ok _ _ _ _ _ (lift_Ok _ _ l _ _ E2)).
  erewrite bind_Ok.
  2: { rewrite (bind_Ok _ _ _ _ _ (lift_Ok _ _ l _ _ E3)). apply (lift_Ok _ _ l _ _ E4). }
  rewrite (bind_Ok _ _ _ _ _ (lift_Ok _ _ l _ _ E5)), (bind_Ok _ _ _ _ _ (lift_Ok _ _ l _ _ E6)).
  by rewrite (bind_Ok _ _ _ _ _ (lift_Ok _ _ l _ _ E7)).
Qed.

(** One iteration of [write_log]. *)
Lemma write_iter io l a x y :
  R io a -> a_held a = ∅ -> x <> y -> 0 <= x < FSSIZE -> 0 <= y < FSSIZE ->
  (size (dom (a_pin a)) < Z.to_nat NBUF)%nat -> is_Some (a_pin a !! x) ->
  exists io', R io' (a_write y (aview a x) a) /\ forall B (k : M (lst S) B),
    (let! to := lift (bread ROOTDEV y) in
     let! from := lift (bread ROOTDEV x) in
     do! copy_block to from in
     do! lift (bwrite to) in
     do! lift (brelse from) in
     do! lift (brelse to) in k) (Lst io l) = k (Lst io' l).
Proof.
  intros HR Hh N Hx Hy Hp Hr.
  destruct (bread2 io a y x HR Hh ltac:(done) Hy Hx Hp (or_introl Hr))
    as (h2 & h1 & io1 & io2 & E1 & E2 & R2).
  rewrite (held_swap y x) in R2 by done.
  destruct (copy_tail io2 a x y h1 h2 (aview a y)) as
    (io3 & io4 & io5 & io6 & E3 & E4 & E5 & E6 & E7 & R6); [exact R2|done|done|].
  exists io6. split; [done|]. intros B k. unfold copy_block.
  rewrite (bind_Ok _ _ _ _ _ (lift_Ok _ _ l _ _ E1)), (bind_Ok _ _ _ _ _ (lift_Ok _ _ l _ _ E2)).
  erewrite bind_Ok.
  2: { rewrite (bind_Ok _ _ _ _ _ (lift_Ok _ _ l _ _ E3)). apply (lift_Ok _ _ l _ _ E4). }
  rewrite (bind_Ok _ _ _ _ _ (lift_Ok _ _ l _ _ E5)), (bind_Ok _ _ _ _ _ (lift_Ok _ _ l _ _ E6)).
  by rewrite (bind_Ok _ _ _ _ _ (lift_Ok _ _ l _ _ E7)).
Qed.
End LogSpec.

(** ** The effect of the loops *)

Fixpoint a_install (start k : Z) (bl : list Z) (a : acache) : acache :=
  match bl with
  | [] => a
  | b :: bl => a_install start (k + 1) bl (a_write b (aview a (start + k + 1)) a)
  end.

Fixpoint a_logged (start k : Z) (bl : list Z) (a : acache) : acache :=
  match bl with
  | [] => a
  | b :: bl => a_logged start (k + 1) bl (a_write (start + k + 1) (aview a b) a)
  end.

Definition a_head (start : Z) (bl : list Z) (a : acache) : acache :=
  a_write start (hb_write (aview a start) bl) a.

(** Blocks of the log's area, and blocks outside it. *)
Definition in_log (l : log) (b : Z) : Prop := lg_start l <= b < lg_start l + lg_size l.
Definition data_block (l : log) (b : Z) : Prop := 0 <= b < FSSIZE /\ ~ in_log l b.

(** The logged block numbers. *)
Definition logged (l : log) : list Z := take (Z.to_nat (lh_n (lg_lh l))) (lh_block (lg_lh l)).

(** The geometry of the log and the bounds its header keeps. *)
Record log_ok (l : log) : Prop := {
  lo_dev : lg_dev l = ROOTDEV;
  lo_start : 0 <= lg_start l /\ lg_start l + lg_size l <= FSSIZE;
  lo_size : 1 < lg_size l <= LOGSIZE;
  lo_n : 0 <= lh_n (lg_lh l) < lg_size l;
  lo_len : length (lh_block (lg_lh l)) = Z.to_nat LOGSIZE;
  lo_nodup : NoDup (logged l);
  lo_data : Forall (data_block l) (logged l);
}.

Lemma logged_length l : log_ok l -> Z.of_nat (length (logged l)) = lh_n (lg_lh l).
Proof.
  intros I. pose proof (lo_n _ I). pose proof (lo_size _ I). pose proof (lo_len _ I).
  unfold logged. rewrite length_take. lia.
Qed.

Lemma lh_get_logged l k b :
  log_ok l -> logged l !! k = Some b -> lh_get (lg_lh l) (Z.of_nat k) = b.
Proof.
  intros I Hk. unfold lh_get. rewrite Nat2Z.id. unfold logged in Hk.
  apply lookup_take_Some in Hk as [Hk _]. by rewrite Hk.
Qed.

Section LogLoops.
Context {S : Type} {ops : BlockOps S} {R : S -> acache -> Prop} {laws : BlockLaws S R}.

(** Enough buffers for the pinned blocks and the two a loop holds. *)
Definition cache_room (a : acache) (bl : list Z) : Prop :=
  (size (dom (a_pin a)) < Z.to_nat NBUF)%nat /\
  (a_pin a = ∅ \/ forall b, b ∈ bl -> is_Some (a_pin a !! b)).

Lemma cache_room_write a b d bl :
  cache_room a bl -> b ∉ bl -> cache_room (a_write b d a) bl.
Proof.
  intros [Hs Hp] Hb. split.
  - simpl. rewrite dom_delete_L. pose proof (subseteq_size (dom (a_pin a) ∖ {[b]}) (dom (a_pin a)) ltac:(set_solver)).
    lia.
  - destruct Hp as [Hp|Hp]; [left; simpl; by rewrite Hp, delete_empty|right].
    intros x Hx. simpl. rewrite lookup_delete_ne by (by intros ->). by apply Hp.
Qed.

Lemma room_2 a bl y :
  cache_room a bl -> y ∈ bl ->
  is_Some (a_pin a !! y) \/ (Datatypes.S (size (dom (a_pin a))) < Z.to_nat NBUF)%nat.
Proof.
  intros [_ [Hp|Hp]] Hy; [right|left; by apply Hp].
  rewrite Hp, dom_empty_L, size_empty. unfold NBUF. lia.
Qed.

Lemma install_loop_spec bl done io l a :
  R io a -> a_held a = ∅ -> log_ok l -> logged l = done ++ bl -> cache_room a bl ->
  exists io', install_loop (length bl) (Z.of_nat (length done)) (Lst io l) = Ok (tt, Lst io' l) /\
    R io' (a_install (lg_start l) (Z.of_nat (length done)) bl a).
Proof.
  revert done io a. induction bl as [|b bl IH]; intros done io a HR Hh I Hl Hroom.
  { exists io. done. }
  cbn [install_loop length]. rewrite (bind_Ok _ _ _ l _) by done.
  set (k := Z.of_nat (length done)).
  assert (Hk : logged l !! length done = Some b).
  { rewrite Hl. by rewrite list_lookup_middle. }
  unfold k. rewrite (lh_get_logged l _ b I Hk). rewrite (lo_dev _ I). fold k.
  assert (Hb : data_block l b).
  { pose proof (lo_data _ I) as Hd. rewrite Forall_forall in Hd. apply Hd.
    rewrite Hl. apply elem_of_app. right. left. }
  assert (Hkn : 0 <= k /\ k + 1 < lg_size l).
  { pose proof (logged_length l I) as Hlen. rewrite Hl, length_app in Hlen. simpl in Hlen.
    pose proof (lo_n _ I). unfold k. lia. }
  pose proof (lo_start _ I) as Hs. destruct Hb as [Hb Hnl]. unfold in_log in Hnl.
  assert (Hbn : b ∉ bl).
  { pose proof (lo_nodup _ I) as Hn. rewrite Hl in Hn.
    apply NoDup_app in Hn as (_ & _ & [Hn _]%NoDup_cons). done. }
  destruct (install_iter io l a (lg_start l + k + 1) b) as (io1 & R1 & E); try done; try lia.
  { apply Hroom. } { eapply room_2; [done|left]. }
  rewrite E. replace (k + 1) with (Z.of_nat (length (done ++ [b]))) by (rewrite length_app; simpl; lia).
  destruct (IH (done ++ [b]) io1 (a_write b (aview a (lg_start l + k + 1)) a)) as (io' & E' & R'); try done.
  { by rewrite Hl, <-app_assoc. }
  { apply cache_room_write; [|done]. destruct Hroom as [H1 H2]. split; [done|].
    destruct H2 as [H2|H2]; [by left|right]. intros x Hx. apply H2. by right. }
  exists io'. split; [done|]. simpl.
  replace (k + 1) with (Z.of_nat (length (done ++ [b]))) by (rewrite length_app; simpl; lia). done.
Qed.

Lemma write_log_loop_spec bl done io l a :
  R io a -> a_held a = ∅ -> log_ok l -> logged l = done ++ bl ->
  (size (dom (a_pin a)) < Z.to_nat NBUF)%nat -> (forall b, b ∈ bl -> is_Some (a_pin a !! b)) ->
  exists io', write_log_loop (length bl) (Z.of_nat (length done)) (Lst io l) = Ok (tt, Lst io' l) /\
    R io' (a_logged (lg_start l) (Z.of_nat (length done)) bl a).
Proof.
  revert done io a. induction bl as [|b bl IH]; intros done io a HR Hh I Hl Hsz Hpin.
  { exists io. done. }
  cbn [write_log_loop length]. rewrite (bind_Ok _ _ _ l _) by done.
  set (k := Z.of_nat (length done)).
  assert (Hk : logged l !! length done = Some b).
  { rewrite Hl. by rewrite list_lookup_middle. }
  unfold k. rewrite (lh_get_logged l _ b I Hk). rewrite (lo_dev _ I). fold k.
  assert (Hdata : forall x, x ∈ b :: bl -> data_block l x).
  { pose proof (lo_data _ I) as Hd. rewrite Forall_forall in Hd. intros x Hx. apply Hd.
    rewrite Hl. apply elem_of_app. by right. }
  assert (Hkn : 0 <= k /\ k + 1 < lg_size l).
  { pose proof (logged_length l I) as Hlen. rewrite Hl, length_app in Hlen. simpl in Hlen.
    pose proof (lo_n _ I). unfold k. lia. }
  pose proof (lo_start _ I) as Hs.
  destruct (Hdata b) as [Hb Hnl]; [left|]. unfold in_log in Hnl.
  destruct (write_iter io l a b (lg_start l + k + 1)) as (io1 & R1 & E); try done; try lia.
  { apply Hpin. left. }
  rewrite E. replace (k + 1) with (Z.of_nat (length (done ++ [b]))) by (rewrite length_app; simpl; lia).
  destruct (IH (done ++ [b]) io1 (a_write (lg_start l + k + 1) (aview a b) a)) as (io' & E' & R'); try done.
  { by rewrite Hl, <-app_assoc. }
  { simpl. rewrite dom_delete_L.
    pose proof (subseteq_size (dom (a_pin a) ∖ {[lg_start l + k + 1]}) (dom (a_pin a)) ltac:(set_solver)).
    lia. }
  { intros x Hx. simpl. rewrite lookup_delete_ne; [apply Hpin; by right|].
    destruct (Hdata x) as [_ Hx']; [by right|]. unfold in_log in Hx'. lia. }
  exists io'. split; [done|]. simpl.
  replace (k + 1) with (Z.of_nat (length (done ++ [b]))) by (rewrite length_app; simpl; lia). done.
Qed.

(** Reading, changing and writing back one block. *)
Lemma modify_block io l a b (f : blk -> blk) :
  R io a -> a_held a = ∅ -> 0 <= b < FSSIZE -> (size (dom (a_pin a)) < Z.to_nat NBUF)%nat ->
  exists io', R io' (a_write b (f (aview a b)) a) /\
    (let! h := lift (bread ROOTDEV b) in
     let! d := lift (b_get h) in
     do! lift (b_put h (f d)) in
     do! lift (bwrite h) in
     lift (brelse h)) (Lst io l) = Ok (tt, Lst io' l).
Proof.
  intros HR Hh Hb Hsz.
  destruct (bread_law io a b HR Hb) as (h & io1 & E1 & R1).
  { by rewrite Hh. } { right. rewrite Hh, dom_empty_L, union_empty_r_L. done. }
  assert (H1 : a_held (a_set_held (<[b := (h, aview a b)]> (a_held a)) a) !! b = Some (h, aview a b))
    by (simpl; by rewrite lookup_insert_eq).
  pose proof (b_get_law _ _ _ _ _ R1 H1) as E2.
  destruct (b_put_law _ _ _ _ _ (f (aview a b)) R1 H1) as (io2 & E3 & R2).
  destruct (bwrite_law io2 _ b h (f (aview a b)) R2) as (io3 & E4 & R3).
  { simpl. by rewrite lookup_insert_eq. }
  destruct (brelse_law io3 _ b h (f (aview a b)) R3) as (io4 & E5 & R4).
  { simpl. by rewrite lookup_insert_eq. }
  { apply aview_write_eq. }
  exists io4. split.
  - match type of R4 with R _ ?a' => replace (a_write b (f (aview a b)) a) with a' end; [done|].
    unfold a_write, a_set_held; simpl. f_equal. rewrite Hh.
    by rewrite insert_insert_eq, insert_empty, delete_singleton_eq.
  - rewrite (bind_Ok _ _ _ _ _ (lift_Ok _ _ l _ _ E1)), (bind_Ok _ _ _ _ _ (lift_Ok _ _ l _ _ E2)).
    rewrite (bind_Ok _ _ _ _ _ (lift_Ok _ _ l _ _ E3)), (bind_Ok _ _ _ _ _ (lift_Ok _ _ l _ _ E4)).
    apply (lift_Ok _ _ l _ _ E5).
Qed.

Lemma write_head_spec io l a :
  R io a -> a_held a = ∅ -> log_ok l -> (size (dom (a_pin a)) < Z.to_nat NBUF)%nat ->
  exists io', write_head (Lst io l) = Ok (tt, Lst io' l) /\
    R io' (a_head (lg_start l) (logged l) a).
Proof.
  intros HR Hh I Hsz. pose proof (lo_start _ I). pose proof (lo_size _ I).
  destruct (modify_block io l a (lg_start l) (fun d => hb_write d (logged l)) HR Hh)
    as (io' & R' & E); [lia|done|].
  exists io'. split; [|done]. unfold write_head. rewrite (bind_Ok _ _ _ l _) by done.
  by rewrite (lo_dev _ I).
Qed.

End LogLoops.

Lemma a_install_held start k bl a : a_held (a_install start k bl a) = a_held a.
Proof. revert k a. induction bl as [|b bl IH]; intros; simpl; [done|]. by rewrite IH. Qed.
Lemma a_logged_held start k bl a : a_held (a_logged start k bl a) = a_held a.
Proof. revert k a. induction bl as [|b bl IH]; intros; simpl; [done|]. by rewrite IH. Qed.
Lemma a_install_pin start k bl a b :
  a_pin (a_install start k bl a) !! b = if decide (b ∈ bl) then None else a_pin a !! b.
Proof.
  revert k a. induction bl as [|x bl IH]; intros; simpl; [done|]. rewrite IH. simpl.
  destruct (decide (b = x)) as [->|N].
  - rewrite lookup_delete_eq. rewrite (decide_True (P := x ∈ x :: bl)) by left. by case_decide.
  - rewrite lookup_delete_ne by done. repeat case_decide; set_solver.
Qed.
Lemma a_logged_pin start k bl a b :
  0 <= k -> (b <= start \/ start + k + Z.of_nat (length bl) < b) ->
  a_pin (a_logged start k bl a) !! b = a_pin a !! b.
Proof.
  revert k a. induction bl as [|x bl IH]; intros k a Hk Hb; simpl in *; [done|].
  rewrite IH by lia. simpl. by rewrite lookup_delete_ne by lia.
Qed.

(** ** The header block *)

(** The block numbers of a header block. *)
Definition hdr (d : blk) : list Z := map (hb_block d) (seq 0 (Z.to_nat (hb_n d))).

Lemma length_hb_put d i l : length (hb_put d i l) = length d.
Proof.
  revert d i. induction l as [|b l IH]; intros; simpl; [done|]. by rewrite IH, length_put32.
Qed.

Lemma get32_hb_put_lt d i l off :
  (off + 4 <= 4 + 4 * i)%nat -> get32 (hb_put d i l) off = get32 d off.
Proof.
  revert d i. induction l as [|b l IH]; intros d i Ho; cbn [hb_put]; [done|].
  rewrite IH by lia. apply get32_put32_ne. lia.
Qed.

Lemma get32_hb_put d i l j b :
  (4 + 4 * (i + length l) <= length d)%nat -> l !! j = Some b ->
  get32 (hb_put d i l) (4 + 4 * (i + j)) = u32 b.
Proof.
  revert d i j. induction l as [|x l IH]; intros d i j Hl Hj; [done|].
  cbn [hb_put length] in *. destruct j as [|j]; simpl in Hj.
  - injection Hj as ->. rewrite get32_hb_put_lt by lia. rewrite Nat.add_0_r.
    apply get32_put32_eq. lia.
  - replace (4 + 4 * (i + Datatypes.S j))%nat with (4 + 4 * (Datatypes.S i + j))%nat by lia.
    apply IH; [|done]. rewrite length_put32. lia.
Qed.

Lemma length_hb_write d l : length (hb_write d l) = length d.
Proof. unfold hb_write. by rewrite length_hb_put, length_put32. Qed.

Lemma s32_u32_small x : 0 <= x < 2147483648 -> s32 (u32 x) = x.
Proof.
  intros Hx. rewrite u32_small by lia. apply s32_small. lia.
Qed.

Lemma hb_n_write d l :
  length d = Z.to_nat BSIZE -> (length l <= Z.to_nat LOGSIZE)%nat ->
  hb_n (hb_write d l) = Z.of_nat (length l).
Proof.
  intros Hd Hl. unfold hb_n, hb_write. rewrite get32_hb_put_lt by lia.
  rewrite get32_put32_eq by (rewrite Hd; unfold BSIZE; lia).
  apply s32_u32_small. unfold LOGSIZE, MAXOPBLOCKS in Hl. lia.
Qed.

(** What [write_head] writes, [read_head] reads back. *)
Lemma hdr_write d l :
  length d = Z.to_nat BSIZE -> (length l <= Z.to_nat LOGSIZE)%nat ->
  Forall (fun b => 0 <= b < FSSIZE) l -> hdr (hb_write d l) = l.
Proof.
  intros Hd Hl Hb. unfold hdr. rewrite hb_n_write, Nat2Z.id by done.
  apply list_eq. intros j. rewrite list_lookup_fmap.
  destruct (l !! j) as [b|] eqn:E.
  - pose proof (lookup_lt_Some _ _ _ E) as Hj. rewrite lookup_seq_lt by done. simpl. f_equal.
    unfold hb_block, hb_write.
    rewrite (get32_hb_put _ 0 l j b); [|rewrite length_put32, Hd; unfold BSIZE, LOGSIZE, MAXOPBLOCKS in *; lia|done].
    apply s32_u32_small. rewrite Forall_forall in Hb.
    specialize (Hb b (list_elem_of_lookup_2 _ _ _ E)). unfold FSSIZE in Hb. lia.
  - apply lookup_ge_None in E. by rewrite lookup_seq_ge.
Qed.

(** ** Searching the header *)

Lemma find_slot_in l b : b ∈ l -> l !! find_slot l b = Some b.
Proof.
  induction l as [|x l IH]; intros H; [by apply not_elem_of_nil in H|]. simpl.
  destruct (Z.eqb_spec x b) as [->|N]; [done|].
  apply elem_of_cons in H as [->|H]; [done|]. by apply IH.
Qed.

Lemma find_slot_lt l b : b ∈ l -> (find_slot l b < length l)%nat.
Proof. intros H. eapply lookup_lt_Some, find_slot_in, H. Qed.

Lemma find_slot_notin l b : b ∉ l -> find_slot l b = length l.
Proof.
  induction l as [|x l IH]; intros H; simpl; [done|].
  apply not_elem_of_cons in H as [N H]. destruct (Z.eqb_spec x b); [done|]. by rewrite IH.
Qed.

(** What the disk [D] stands for: a block listed in the log's header has its
    contents in the log. *)
Definition lview (l : log) (D : Z -> blk) (b : Z) : blk :=
  let bl := hdr (D (lg_start l)) in
  if decide (b ∈ bl) then D (lg_start l + Z.of_nat (find_slot bl b) + 1) else D b.

(** ** Disk contents after the loops *)

Definition slots_ok (start size k : Z) (bl : list Z) : Prop :=
  0 <= k /\ k + Z.of_nat (length bl) < size /\
  forall b, b ∈ bl -> b < start \/ start + size <= b.

Lemma a_install_disk start size k bl a x :
  slots_ok start size k bl -> NoDup bl ->
  a_disk (a_install start k bl a) x =
  if decide (x ∈ bl) then aview a (start + k + Z.of_nat (find_slot bl x) + 1) else a_disk a x.
Proof.
  revert k a. induction bl as [|b bl IH]; intros k a (Hk & Hl & Hb) Hn; [done|].
  apply NoDup_cons in Hn as [Hnb Hn]. cbn [length a_install find_slot] in *.
  rewrite IH; [|split; [lia|split; [lia|intros y Hy; apply Hb; by right]]|done]. simpl a_disk.
  destruct (Z.eqb_spec b x) as [->|N].
  - rewrite (decide_False (P := x ∈ bl)) by done. rewrite decide_True by left.
    rewrite fn_lookup_insert. f_equal. lia.
  - destruct (decide (x ∈ bl)) as [Hx|Hx].
    + rewrite decide_True by (by right). rewrite aview_write_ne.
      * f_equal. lia.
      * pose proof (find_slot_lt _ _ Hx). specialize (Hb b ltac:(left)). lia.
    + rewrite decide_False by (rewrite elem_of_cons; naive_solver).
      by rewrite fn_lookup_insert_ne.
Qed.

Lemma a_logged_other start k bl a x :
  x <= start + k \/ start + k + Z.of_nat (length bl) < x ->
  a_disk (a_logged start k bl a) x = a_disk a x.
Proof.
  revert k a. induction bl as [|b bl IH]; intros k a Hx; simpl in *; [done|].
  rewrite IH by lia. simpl. by rewrite fn_lookup_insert_ne by lia.
Qed.

Lemma a_logged_slot start size k bl a i b :
  slots_ok start size k bl -> bl !! i = Some b ->
  a_disk (a_logged start k bl a) (start + k + Z.of_nat i + 1) = aview a b.
Proof.
  revert k a i. induction bl as [|x bl IH]; intros k a i (Hk & Hl & Hb) Hi; [done|].
  cbn [length a_logged] in *. destruct i as [|i]; simpl in Hi.
  - injection Hi as ->. rewrite a_logged_other by lia. simpl.
    replace (start + k + Z.of_nat 0 + 1) with (start + k + 1) by lia.
    by rewrite fn_lookup_insert.
  - replace (start + k + Z.of_nat (Datatypes.S i) + 1) with (start + (k + 1) + Z.of_nat i + 1) by lia.
    rewrite (IH (k + 1) _ i); [|split; [lia|split; [lia|intros y Hy; apply Hb; by right]]|done].
    apply aview_write_ne. assert (b ∈ x :: bl) as Hin by (right; by eapply list_elem_of_lookup_2).
    specialize (Hb b Hin). lia.
Qed.

(** ** Disk writes and crashes *)

Definition apply_writes (D : Z -> blk) (ws : list (Z * blk)) : Z -> blk :=
  fold_left (fun D w => <[w.1 := w.2]> D) ws D.

(** From [a] to [a'] by the disk writes [ws], the disk satisfying [P] before,
    between and after them. *)
Record wrote (P : (Z -> blk) -> Prop) (a a' : acache) (ws : list (Z * blk)) : Prop := {
  wr_trace : a_trace a' = a_trace a ++ ws;
  wr_disk : a_disk a' = apply_writes (a_disk a) ws;
  wr_always : forall ws1, ws1 `prefix_of` ws -> P (apply_writes (a_disk a) ws1);
}.

Lemma wrote_refl P a : P (a_disk a) -> wrote P a a [].
Proof.
  intros H. split; [by rewrite app_nil_r|done|]. intros ws1 Hp.
  by apply prefix_nil_inv in Hp as ->.
Qed.

Lemma wrote_step P a b d : P (a_disk a) -> P (<[b := d]> (a_disk a)) -> wrote P a (a_write b d a) [(b, d)].
Proof.
  intros H1 H2. split; [done|done|]. intros ws1 Hp.
  destruct ws1 as [|w ws1]; [done|]. apply prefix_cons_inv_1 in Hp as Ew.
  apply prefix_cons_inv_2, prefix_nil_inv in Hp as ->. by subst w.
Qed.

Lemma wrote_trans P a a1 a2 ws1 ws2 :
  wrote P a a1 ws1 -> wrote P a1 a2 ws2 -> wrote P a a2 (ws1 ++ ws2).
Proof.
  intros [T1 D1 A1] [T2 D2 A2]. split.
  - by rewrite T2, T1, app_assoc.
  - rewrite D2, D1. unfold apply_writes. by rewrite fold_left_app.
  - intros ws Hp. destruct (prefix_app_cases ws ws1 ws2 Hp) as [H|(ws' & -> & H)].
    + by apply A1.
    + unfold apply_writes. rewrite fold_left_app. specialize (A2 ws' H). by rewrite D1 in A2.
Qed.

Lemma wrote_mono (P Q : (Z -> blk) -> Prop) a a' ws :
  (forall D, P D -> Q D) -> wrote P a a' ws -> wrote Q a a' ws.
Proof. intros H [T D A]. split; try done. intros ws1 Hp. by apply H, A. Qed.

Lemma wrote_ends P a a' ws : wrote P a a' ws -> P (a_disk a) /\ P (a_disk a').
Proof.
  intros [T D A]. split.
  - apply (A []), prefix_nil.
  - rewrite D. by apply A.
Qed.

Lemma a_logged_sub start k bl a b :
  is_Some (a_pin (a_logged start k bl a) !! b) -> is_Some (a_pin a !! b).
Proof.
  revert k a. induction bl as [|x bl IH]; intros k a H; simpl in *; [done|].
  apply IH in H as [d H]. simpl in H. apply lookup_delete_Some in H as [_ H]. by eexists.
Qed.

(** A header the log can be recovered from. *)
Definition hdr_ok (l : log) (d : blk) : Prop :=
  length d = Z.to_nat BSIZE /\ 0 <= hb_n d < lg_size l /\
  NoDup (hdr d) /\ Forall (data_block l) (hdr d).

Lemma hdr_length d : 0 <= hb_n d -> Z.of_nat (length (hdr d)) = hb_n d.
Proof. intros H. unfold hdr. rewrite length_map, length_seq. lia. Qed.

Lemma lview_empty l D b : hdr (D (lg_start l)) = [] -> lview l D b = D b.
Proof. intros E. unfold lview. rewrite E. by rewrite decide_False by apply not_elem_of_nil. Qed.

(** Writing home locations of logged blocks does not change what the disk
    stands for. *)
Definition install_inv (l : log) (D0 D : Z -> blk) : Prop :=
  (forall x, in_log l x -> D x = D0 x) /\
  (forall b, ~ in_log l b -> b ∉ hdr (D0 (lg_start l)) -> D b = D0 b).

Lemma lview_install l D0 D b :
  1 < lg_size l -> hdr_ok l (D0 (lg_start l)) -> install_inv l D0 D -> ~ in_log l b ->
  lview l D b = lview l D0 b.
Proof.
  intros Hs (_ & Hn & _ & _) [H1 H2] Hb. unfold lview.
  rewrite H1 by (unfold in_log; lia). case_decide as Hd; [|by apply H2].
  apply H1. pose proof (find_slot_lt _ _ Hd). pose proof (hdr_length (D0 (lg_start l))).
  unfold in_log. lia.
Qed.

Lemma a_install_wrote l D0 k bl a :
  (forall b, b ∈ bl -> b ∈ hdr (D0 (lg_start l)) /\ ~ in_log l b) ->
  install_inv l D0 (a_disk a) ->
  exists ws, wrote (install_inv l D0) a (a_install (lg_start l) k bl a) ws.
Proof.
  revert k a. induction bl as [|b bl IH]; intros k a Hb Hi; simpl.
  { exists []. by apply wrote_refl. }
  destruct (Hb b) as [Hin Hnl]; [left|].
  assert (Hw : install_inv l D0 (<[b := aview a (lg_start l + k + 1)]> (a_disk a))).
  { destruct Hi as [H1 H2]. split.
    - intros x Hx. rewrite fn_lookup_insert_ne; [by apply H1|]. by intros <-.
    - intros x Hx Hx'. rewrite fn_lookup_insert_ne; [by apply H2|]. by intros <-. }
  destruct (IH (k + 1) (a_write b (aview a (lg_start l + k + 1)) a)) as [ws Hws]; [|done|].
  { intros x Hx. apply Hb. by right. }
  eexists. eapply wrote_trans; [by apply wrote_step|exact Hws].
Qed.

Definition logging_inv (l : log) (D0 D : Z -> blk) : Prop :=
  forall x, x = lg_start l \/ ~ in_log l x -> D x = D0 x.

Lemma a_logged_wrote l D0 k bl a :
  0 <= k -> k + Z.of_nat (length bl) < lg_size l -> logging_inv l D0 (a_disk a) ->
  exists ws, wrote (logging_inv l D0) a (a_logged (lg_start l) k bl a) ws.
Proof.
  revert k a. induction bl as [|b bl IH]; intros k a Hk Hl Hi; simpl in *.
  { exists []. by apply wrote_refl. }
  assert (Hw : logging_inv l D0 (<[lg_start l + k + 1 := aview a b]> (a_disk a))).
  { intros x Hx. rewrite fn_lookup_insert_ne; [by apply Hi|].
    unfold in_log in Hx. intros <-. destruct Hx; lia. }
  destruct (IH (k + 1) (a_write (lg_start l + k + 1) (aview a b) a)) as [ws Hws]; [lia|lia|done|].
  eexists. eapply wrote_trans; [by apply wrote_step|exact Hws].
Qed.

(** The contents of the disk are those of [V] for every data block, when read
    through a sound header. *)
Definition stands_for (l : log) (V : Z -> blk) (D : Z -> blk) : Prop :=
  hdr_ok l (D (lg_start l)) /\ forall b, data_block l b -> lview l D b = V b.

(** The cache before a commit: the pinned blocks are the logged ones, and the
    header on the disk is empty. *)
Record commit_ready (l : log) (a : acache) : Prop := {
  cr_log : log_ok l;
  cr_held : a_held a = ∅;
  cr_pin : forall b, is_Some (a_pin a !! b) <-> b ∈ logged l;
  cr_head : length (a_disk a (lg_start l)) = Z.to_nat BSIZE;
  cr_n : hb_n (a_disk a (lg_start l)) = 0;
}.

Definition a_commit (l : log) (a : acache) : acache :=
  a_head (lg_start l) [] (a_install (lg_start l) 0 (logged l)
    (a_head (lg_start l) (logged l) (a_logged (lg_start l) 0 (logged l) a))).

Section CommitPure.
Context (l : log) (a : acache).
Hypothesis C : commit_ready l a.
Let start := lg_start l.
Let bl := logged l.
Let a1 := a_logged start 0 bl a.
Let a2 := a_head start bl a1.
Let a3 := a_install start 0 bl a2.
Let a4 := a_head start [] a3.

Lemma cp_n : hb_n (a_disk a start) = 0.
Proof. apply (cr_n _ _ C). Qed.

Lemma cp_slots : slots_ok start (lg_size l) 0 bl.
Proof.
  pose proof (cr_log _ _ C) as I. pose proof (logged_length l I). pose proof (lo_n _ I).
  split; [lia|]. split; [unfold bl; lia|]. intros b Hb.
  pose proof (lo_data _ I) as Hd. rewrite Forall_forall in Hd. destruct (Hd b Hb) as [_ Hn].
  unfold in_log in Hn. unfold start. lia.
Qed.

Lemma cp_pin_start : a_pin a !! start = None.
Proof.
  destruct (a_pin a !! start) eqn:E; [|done]. exfalso.
  assert (Hs : start ∈ bl) by (by apply (cr_pin _ _ C)).
  destruct cp_slots as (_ & ? & Hb). specialize (Hb start Hs). lia.
Qed.

Lemma cp_bounds : Forall (fun b => 0 <= b < FSSIZE) bl /\ (length bl <= Z.to_nat LOGSIZE)%nat.
Proof.
  pose proof (cr_log _ _ C) as I. split.
  - eapply Forall_impl; [apply (lo_data _ I)|]. by intros b [? _].
  - pose proof (logged_length l I). pose proof (lo_n _ I). pose proof (lo_size _ I).
    unfold bl. lia.
Qed.

(** The header as it is before, at and after the commit point. *)
Lemma cp_head1 : aview a1 start = a_disk a start.
Proof.
  unfold aview, a1. rewrite a_logged_pin by lia. rewrite cp_pin_start. simpl.
  apply a_logged_other. lia.
Qed.

Lemma cp_head2 : a_disk a2 start = hb_write (a_disk a start) bl.
Proof. unfold a2, a_head. simpl. by rewrite fn_lookup_insert, cp_head1. Qed.

Lemma cp_hdr2 : hdr (a_disk a2 start) = bl.
Proof.
  rewrite cp_head2. apply hdr_write; [apply (cr_head _ _ C)|apply cp_bounds|apply cp_bounds].
Qed.

Lemma cp_hdr_ok2 : hdr_ok l (a_disk a2 start).
Proof.
  pose proof (cr_log _ _ C) as I. unfold hdr_ok. rewrite cp_hdr2, cp_head2.
  rewrite length_hb_write, hb_n_write by (apply (cr_head _ _ C) || apply cp_bounds).
  split; [apply (cr_head _ _ C)|]. split; [|split; apply I].
  pose proof (logged_length l I). pose proof (lo_n _ I). unfold bl. lia.
Qed.

Lemma cp_old D : logging_inv l (a_disk a) D -> stands_for l (a_disk a) D.
Proof.
  intros H. pose proof (cr_log _ _ C) as I. pose proof (lo_size _ I).
  assert (E : D start = a_disk a start) by (apply H; by left).
  assert (Eh : hdr (D start) = []) by (unfold hdr; by rewrite E, cp_n).
  split.
  - fold start. unfold hdr_ok. rewrite Eh, E, cp_n. split; [apply (cr_head _ _ C)|].
    split; [lia|]. split; constructor.
  - intros b [_ Hb]. rewrite lview_empty by exact Eh. apply H. by right.
Qed.

(** Once the header is written, the disk stands for the new contents. *)
Lemma cp_new2 b : data_block l b -> lview l (a_disk a2) b = aview a b.
Proof.
  intros [_ Hb]. unfold lview. fold start. rewrite cp_hdr2.
  unfold a2, a_head. simpl a_disk. unfold in_log in Hb.
  pose proof (lo_size _ (cr_log _ _ C)). case_decide as Hd.
  - rewrite fn_lookup_insert_ne by lia. pose proof (find_slot_in _ _ Hd) as Hs.
    pose proof (a_logged_slot start (lg_size l) 0 bl a _ _ cp_slots Hs) as E.
    unfold a1. rewrite <-E. f_equal. lia.
  - rewrite fn_lookup_insert_ne by (unfold start; lia).
    unfold a1. destruct cp_slots as (_ & Hl & _). rewrite a_logged_other by (unfold start in *; lia).
    unfold aview. destruct (a_pin a !! b) eqn:E; [|done].
    exfalso. apply Hd. by apply (cr_pin _ _ C).
Qed.

Lemma cp_new D : install_inv l (a_disk a2) D -> stands_for l (aview a) D.
Proof.
  intros H. pose proof (lo_size _ (cr_log _ _ C)). split.
  - destruct H as [H _]. rewrite H by (unfold in_log; lia). apply cp_hdr_ok2.
  - intros b Hb. rewrite (lview_install l (a_disk a2) D); [by apply cp_new2|lia|apply cp_hdr_ok2|done|apply Hb].
Qed.

Lemma cp_in b : b ∈ bl -> ~ in_log l b.
Proof.
  intros Hb. pose proof (lo_data _ (cr_log _ _ C)) as Hd. rewrite Forall_forall in Hd.
  by apply Hd.
Qed.

Lemma cp_final b : data_block l b -> a_disk a4 b = aview a b.
Proof.
  intros Hb. pose proof (lo_size _ (cr_log _ _ C)).
  rewrite <-(cp_new2 b Hb). destruct Hb as [Hr Hb]. unfold in_log in Hb.
  change (a_disk a4 b) with ((<[start := hb_write (aview a3 start) []]> (a_disk a3) : Z -> blk) b).
  rewrite fn_lookup_insert_ne by (unfold start; lia).
  unfold a3. rewrite (a_install_disk start (lg_size l)) by (apply cp_slots || apply (cr_log _ _ C)).
  unfold lview. fold start. rewrite cp_hdr2. case_decide as Hd; [|done].
  replace (start + 0 + Z.of_nat (find_slot bl b) + 1) with (start + Z.of_nat (find_slot bl b) + 1) by lia.
  pose proof (find_slot_lt _ _ Hd). destruct cp_slots as (_ & Hl & Hs).
  unfold aview. assert (a_pin a2 !! (start + Z.of_nat (find_slot bl b) + 1) = None) as ->; [|done].
  unfold a2, a_head. simpl. rewrite lookup_delete_ne by lia.
  destruct (a_pin a1 !! _) as [d|] eqn:E; [|done]. exfalso.
  assert (Hp : is_Some (a_pin a !! (start + Z.of_nat (find_slot bl b) + 1))).
  { unfold a1 in E. eapply a_logged_sub. by rewrite E. }
  apply (cr_pin _ _ C), Hs in Hp. lia.
Qed.

Lemma cp_empty4 : hdr (a_disk a4 start) = [] /\ hdr_ok l (a_disk a4 start) /\ hb_n (a_disk a4 start) = 0.
Proof.
  assert (E3 : length (aview a3 start) = Z.to_nat BSIZE).
  { unfold aview. assert (a_pin a3 !! start = None) as ->.
    { unfold a3. rewrite a_install_pin. case_decide; [done|]. unfold a2, a_head. simpl.
      by rewrite lookup_delete_eq. }
    simpl. unfold a3. rewrite (a_install_disk start (lg_size l)) by (apply cp_slots || apply (cr_log _ _ C)).
    rewrite decide_False, cp_head2, length_hb_write; [apply (cr_head _ _ C)|].
    intros Hs. destruct cp_slots as (_ & ? & Hb). specialize (Hb start Hs). lia. }
  assert (E : a_disk a4 start = hb_write (aview a3 start) []).
  { unfold a4, a_head. simpl. by rewrite fn_lookup_insert. }
  assert (En : hb_n (a_disk a4 start) = 0) by (rewrite E; rewrite hb_n_write; [done|done|simpl; lia]).
  assert (Eh : hdr (a_disk a4 start) = []) by (unfold hdr; by rewrite En).
  split; [done|]. split; [|done]. unfold hdr_ok. rewrite Eh, En, E, length_hb_write.
  pose proof (lo_size _ (cr_log _ _ C)). split; [done|]. split; [lia|]. split; constructor.
Qed.

(** At every point of a commit the disk stands for the old contents, or for the
    new ones. *)
Lemma commit_wrote :
  exists ws, wrote (fun D => stands_for l (a_disk a) D \/ stands_for l (aview a) D)
    a (a_commit l a) ws.
Proof.
  pose proof (cr_log _ _ C) as I. pose proof (lo_size _ I) as Hsz.
  destruct cp_slots as (_ & Hl & _).
  destruct (a_logged_wrote l (a_disk a) 0 bl a ltac:(lia) ltac:(lia) ltac:(done)) as [ws1 W1].
  destruct (a_install_wrote l (a_disk a2) 0 bl a2) as [ws2 W2].
  { intros b Hb. fold start. rewrite cp_hdr2. split; [done|by apply cp_in]. }
  { done. }
  fold start a1 in W1. fold start a3 in W2.
  pose proof (cp_new _ (proj2 (wrote_ends _ _ _ _ W2))) as N3.
  eexists. eapply wrote_trans; [eapply wrote_mono; [|exact W1]|eapply wrote_trans;
    [eapply (wrote_step _ a1)|eapply wrote_trans; [eapply wrote_mono; [|exact W2]|eapply (wrote_step _ a3)]]].
  - intros D HD. left. by apply cp_old.
  - left. apply cp_old. apply (wrote_ends _ _ _ _ W1).
  - right. apply (cp_new (a_disk a2)). done.
  - intros D HD. right. by apply cp_new.
  - right. exact N3.
  - right. split; [apply cp_empty4|]. intros b Hb.
    rewrite lview_empty by apply cp_empty4. by apply cp_final.
Qed.
End CommitPure.

(** ** Commit and recovery *)
Section LogTop.
Context {S : Type} {ops : BlockOps S} {R : S -> acache -> Prop} {laws : BlockLaws S R}.

Lemma log_ok_clear l : log_ok l -> log_ok (set_n 0 l).
Proof.
  intros I. split; try apply I; simpl.
  - pose proof (lo_size _ I). simpl. lia.
  - unfold logged. simpl. constructor.
  - unfold logged. simpl. constructor.
Qed.

Lemma pins_fit l (p : gmap Z blk) :
  log_ok l -> (forall b, is_Some (p !! b) -> b ∈ logged l) ->
  (size (dom p) < Z.to_nat NBUF)%nat.
Proof.
  intros I Hp. assert (Hs : dom p ⊆ list_to_set (logged l)).
  { intros b. rewrite elem_of_dom, elem_of_list_to_set. apply Hp. }
  apply subseteq_size in Hs. rewrite size_list_to_set in Hs by apply I.
  pose proof (logged_length l I). pose proof (lo_n _ I). pose proof (lo_size _ I).
  unfold LOGSIZE, MAXOPBLOCKS, NBUF in *. lia.
Qed.

Lemma commit_spec io l a :
  R io a -> commit_ready l a -> 0 < lh_n (lg_lh l) ->
  exists io', commit (Lst io l) = Ok (tt, Lst io' (set_n 0 l)) /\ R io' (a_commit l a).
Proof.
  intros HR C Hn. pose proof (cr_log _ _ C) as I. unfold commit.
  rewrite (bind_Ok _ _ _ l _) by done. destruct (Z.ltb_spec 0 (lh_n (lg_lh l))); [|lia].
  assert (Hlen : Z.to_nat (lh_n (lg_lh l)) = length (logged l))
    by (pose proof (logged_length l I); lia).
  set (start := lg_start l). set (bl := logged l).
  assert (Hpin : forall b, is_Some (a_pin a !! b) -> b ∈ logged l) by (intros b; apply (cr_pin _ _ C)).
  (* write_log *)
  destruct (write_log_loop_spec bl [] io l a) as (io1 & E1 & R1); try done.
  { apply (cr_held _ _ C). } { by eapply pins_fit. } { intros b. apply (cr_pin _ _ C). }
  simpl in E1, R1. fold start in R1.
  erewrite bind_Ok by (unfold write_log; rewrite (bind_Ok _ _ _ l _) by done; rewrite Hlen; exact E1).
  (* write_head *)
  assert (Hp1 : forall b, is_Some (a_pin (a_logged start 0 bl a) !! b) -> b ∈ logged l).
  { intros b Hb. by eapply Hpin, a_logged_sub. }
  destruct (write_head_spec io1 l _ R1) as (io2 & E2 & R2); [|done|by eapply pins_fit|].
  { rewrite a_logged_held. apply (cr_held _ _ C). }
  rewrite (bind_Ok _ _ _ _ _ E2). fold start bl in R2.
  (* install_trans *)
  destruct (install_loop_spec bl [] io2 l _ R2) as (io3 & E3 & R3); try done.
  { simpl. rewrite a_logged_held. apply (cr_held _ _ C). }
  { split; [|right].
    - eapply pins_fit; [exact I|]. intros b Hb. simpl in Hb. apply Hp1.
      destruct Hb as [d Hb]. apply lookup_delete_Some in Hb as [_ Hb]. by eexists.
    - intros b Hb. destruct (cp_slots l a C) as (_ & Hl & Hs). specialize (Hs b Hb). fold bl start in Hl, Hs.
      simpl. rewrite lookup_delete_ne, a_logged_pin by lia. by apply (cr_pin _ _ C). }
  simpl in E3, R3. fold start in R3.
  erewrite bind_Ok by (unfold install_trans; rewrite (bind_Ok _ _ _ l _) by done; rewrite Hlen; exact E3).
  rewrite (bind_Ok _ _ _ tt (Lst io3 (set_n 0 l))) by done.
  (* clearing the header *)
  destruct (write_head_spec io3 (set_n 0 l) _ R3) as (io4 & E4 & R4).
  { rewrite a_install_held. simpl. rewrite a_logged_held. apply (cr_held _ _ C). }
  { by apply log_ok_clear. }
  { eapply pins_fit; [exact I|]. intros b. rewrite a_install_pin. case_decide; [by intros [? ?]|].
    simpl. intros [d Hb]. apply lookup_delete_Some in Hb as [_ Hb]. apply Hp1. by eexists. }
  exists io4. split; [exact E4|exact R4].
Qed.

Lemma read_blocks_spec n i (io : S) l d :
  (i + n <= Z.to_nat LOGSIZE)%nat -> length (lh_block (lg_lh l)) = Z.to_nat LOGSIZE ->
  exists bs, read_blocks n i d (Lst io l) =
      Ok (tt, Lst io (set_lh (Logheader (lh_n (lg_lh l)) bs) l)) /\
    length bs = Z.to_nat LOGSIZE /\
    (forall j, (j < i)%nat -> bs !! j = lh_block (lg_lh l) !! j) /\
    (forall j, (i <= j < i + n)%nat -> bs !! j = Some (hb_block d j)).
Proof.
  revert i l. induction n as [|n IH]; intros i l Hi Hl; cbn [read_blocks].
  { exists (lh_block (lg_lh l)). split; [by destruct l as [? ? ? ? ? []]|].
    split; [done|]. split; [done|lia]. }
  destruct (Z.leb_spec LOGSIZE (Z.of_nat i)); [lia|].
  rewrite (bind_Ok _ _ _ tt _) by reflexivity. cbn [l_io l_log].
  destruct (IH (Datatypes.S i) (set_lh (Logheader (lh_n (lg_lh l))
    (<[i := hb_block d i]> (lh_block (lg_lh l)))) l)) as (bs & E & Hlen & Hlo & Hhi).
  { lia. } { simpl. by rewrite length_insert. }
  exists bs. split; [exact E|]. split; [done|]. split.
  - intros j Hj. rewrite Hlo by lia. simpl. by rewrite list_lookup_insert_ne by lia.
  - intros j Hj. destruct (decide (j = i)) as [->|N]; [|apply Hhi; lia].
    rewrite Hlo by lia. simpl. by rewrite list_lookup_insert_eq by lia.
Qed.

(** The geometry alone. *)
Record log_geo (l : log) : Prop := {
  lg_geo_dev : lg_dev l = ROOTDEV;
  lg_geo_start : 0 <= lg_start l /\ lg_start l + lg_size l <= FSSIZE;
  lg_geo_size : 1 < lg_size l <= LOGSIZE;
  lg_geo_len : length (lh_block (lg_lh l)) = Z.to_nat LOGSIZE;
}.

Lemma read_head_spec io l a :
  R io a -> a_held a = ∅ -> a_pin a = ∅ -> log_geo l -> hdr_ok l (a_disk a (lg_start l)) ->
  exists io' bs, let l' := set_lh (Logheader (hb_n (a_disk a (lg_start l))) bs) l in
    read_head (Lst io l) = Ok (tt, Lst io' l') /\ R io' a /\
    log_ok l' /\ logged l' = hdr (a_disk a (lg_start l)).
Proof.
  intros HR Hh Hp G (Hlen & Hn & Hnd & Hd). destruct G as [Gd Gs Gz Gl].
  set (d := a_disk a (lg_start l)) in *.
  assert (Ev : aview a (lg_start l) = d) by (unfold aview; by rewrite Hp).
  destruct (bread_law io a (lg_start l) HR) as (h & io1 & E1 & R1).
  { lia. } { by rewrite Hh. }
  { right. rewrite Hh, Hp, !dom_empty_L, union_empty_r_L, size_empty. unfold NBUF. lia. }
  rewrite Ev in R1.
  assert (H1 : a_held (a_set_held (<[lg_start l := (h, d)]> (a_held a)) a) !! lg_start l = Some (h, d))
    by (simpl; by rewrite lookup_insert_eq).
  pose proof (b_get_law _ _ _ _ _ R1 H1) as E2.
  destruct (read_blocks_spec (Z.to_nat (hb_n d)) 0 io1 (set_n (hb_n d) l) d) as (bs & E3 & Hbl & _ & Hbs).
  { unfold LOGSIZE, MAXOPBLOCKS in *. lia. } { done. }
  destruct (brelse_law io1 _ (lg_start l) h d R1 H1 Ev) as (io2 & E4 & R2).
  exists io2, bs. cbv zeta. split; [|split].
  - unfold read_head. rewrite (bind_Ok _ _ _ l _) by done. rewrite Gd.
    rewrite (bind_Ok _ _ _ _ _ (lift_Ok _ _ l _ _ E1)), (bind_Ok _ _ _ _ _ (lift_Ok _ _ l _ _ E2)).
    rewrite (bind_Ok _ _ _ tt (Lst io1 (set_n (hb_n d) l))) by done.
    rewrite (bind_Ok _ _ _ _ _ E3). apply (lift_Ok _ _ _ _ _ E4).
  - match type of R2 with R _ ?a' => replace a with a' end; [done|].
    destruct a as [ad ap ah at']. simpl in *. unfold a_set_held. simpl. f_equal.
    by rewrite Hh, insert_empty, delete_singleton_eq.
  - assert (El : logged (set_lh (Logheader (hb_n d) bs) l) = hdr d).
    { unfold logged, hdr. simpl. apply list_eq. intros j. rewrite list_lookup_fmap.
      destruct (decide (j < Z.to_nat (hb_n d))%nat) as [Hj|Hj].
      - rewrite lookup_take_lt, lookup_seq_lt by done. simpl. apply Hbs. lia.
      - rewrite lookup_take_ge, lookup_seq_ge by lia. done. }
    split; [|done]. split; rewrite ?El; try done.
Qed.

Definition a_recover (l : log) (a : acache) : acache :=
  a_head (lg_start l) [] (a_install (lg_start l) 0 (hdr (a_disk a (lg_start l))) a).

Lemma recover_spec io l a :
  R io a -> a_held a = ∅ -> a_pin a = ∅ -> log_geo l -> hdr_ok l (a_disk a (lg_start l)) ->
  exists io' l', recover_from_log (Lst io l) = Ok (tt, Lst io' l') /\ R io' (a_recover l a) /\
    log_ok l' /\ logged l' = [] /\ lg_start l' = lg_start l /\ lg_size l' = lg_size l.
Proof.
  intros HR Hh Hp G Hok.
  destruct (read_head_spec io l a HR Hh Hp G Hok) as (io1 & bs & E1 & R1 & I1 & Hl1).
  set (l1 := set_lh _ l) in *. unfold recover_from_log. rewrite (bind_Ok _ _ _ _ _ E1).
  set (bl := hdr (a_disk a (lg_start l))) in *.
  assert (Hlen : Z.to_nat (lh_n (lg_lh l1)) = length bl).
  { pose proof (logged_length l1 I1) as H. rewrite Hl1 in H. lia. }
  destruct (install_loop_spec bl [] io1 l1 a R1 Hh I1) as (io2 & E2 & R2); [done| |].
  { split; [rewrite Hp, dom_empty_L, size_empty; unfold NBUF; lia|by left]. }
  erewrite bind_Ok by (unfold install_trans; rewrite (bind_Ok _ _ _ l1 _) by done; rewrite Hlen; exact E2).
  rewrite (bind_Ok _ _ _ tt (Lst io2 (set_n 0 l1))) by done.
  assert (Hp2 : a_pin (a_install (lg_start l1) 0 bl a) = ∅).
  { apply map_eq. intros b. rewrite a_install_pin, Hp, lookup_empty. by case_decide. }
  destruct (write_head_spec io2 (set_n 0 l1) _ R2) as (io3 & E3 & R3).
  { by rewrite a_install_held. } { by apply log_ok_clear. }
  { change (Z.of_nat (length [])) with 0. rewrite Hp2, dom_empty_L, size_empty. unfold NBUF. lia. }
  exists io3, (set_n 0 l1). split; [exact E3|]. split; [exact R3|].
  split; [by apply log_ok_clear|]. done.
Qed.
End LogTop.

(** Recovery installs what the disk stands for, empties the log, and at every
    point of it the disk stands for the same contents. *)
Lemma recover_pure l a V :
  a_pin a = ∅ -> log_geo l -> stands_for l V (a_disk a) ->
  (exists ws, wrote (stands_for l V) a (a_recover l a) ws) /\
  hb_n (a_disk (a_recover l a) (lg_start l)) = 0 /\
  forall b, data_block l b -> a_disk (a_recover l a) b = V b.
Proof.
  intros Hp G [Hok HV]. pose proof (lg_geo_size _ G) as Hsz.
  set (start := lg_start l) in *. set (bl := hdr (a_disk a start)) in *.
  pose proof Hok as (Hlen & Hn & Hnd & Hd). rewrite Forall_forall in Hd.
  assert (Hsl : slots_ok start (lg_size l) 0 bl).
  { split; [lia|]. pose proof (hdr_length (a_disk a start)). split; [fold bl in H; lia|].
    intros b Hb. destruct (Hd b Hb) as [_ Hb']. unfold in_log in Hb'. unfold start. lia. }
  assert (Hns : start ∉ bl).
  { intros Hs. destruct Hsl as (_ & ? & Hb). specialize (Hb start Hs). lia. }
  set (a1 := a_install start 0 bl a) in *.
  destruct (a_install_wrote l (a_disk a) 0 bl a) as [ws1 W1].
  { intros b Hb. split; [done|]. by apply Hd. } { done. }
  assert (E1 : aview a1 start = a_disk a start).
  { unfold aview, a1. rewrite a_install_pin, Hp, lookup_empty. rewrite decide_False by done. simpl.
    rewrite (a_install_disk start (lg_size l)) by done. by rewrite decide_False. }
  assert (Hst : forall D, install_inv l (a_disk a) D -> stands_for l V D).
  { intros D HD. split; [destruct HD as [HD _]; rewrite HD by (unfold in_log; lia); done|].
    intros b Hb. rewrite (lview_install l (a_disk a) D); [by apply HV|lia|done|done|apply Hb]. }
  assert (E2 : a_disk (a_recover l a) start = hb_write (a_disk a start) []).
  { unfold a_recover. fold start bl a1. unfold a_head. simpl. by rewrite fn_lookup_insert, E1. }
  assert (En : hb_n (a_disk (a_recover l a) start) = 0)
    by (rewrite E2, hb_n_write; [done|done|simpl; lia]).
  assert (Eh : hdr (a_disk (a_recover l a) start) = []) by (unfold hdr; by rewrite En).
  assert (Hfin : forall b, data_block l b -> a_disk (a_recover l a) b = V b).
  { intros b Hb. rewrite <-HV by done. destruct Hb as [_ Hb]. unfold in_log in Hb.
    change (a_disk (a_recover l a) b) with
      ((<[start := hb_write (aview a1 start) []]> (a_disk a1) : Z -> blk) b).
    rewrite fn_lookup_insert_ne by (unfold start; lia). unfold a1.
    rewrite (a_install_disk start (lg_size l)) by done.
    unfold lview. fold start bl. case_decide as Hdb; [|done].
    unfold aview. rewrite Hp, lookup_empty. simpl. f_equal. lia. }
  split; [|done]. eexists. eapply wrote_trans.
  - eapply wrote_mono; [exact Hst|exact W1].
  - apply wrote_step.
    + apply Hst, (wrote_ends _ _ _ _ W1).
    + assert (stands_for l V (a_disk (a_recover l a))); [|done]. split.
      * fold start. unfold hdr_ok. rewrite Eh, En, E2, length_hb_write.
        split; [done|]. split; [lia|]. split; constructor.
      * intros b Hb. rewrite lview_empty by exact Eh. by apply Hfin.
Qed.

(** ** log_write *)

Lemma find_slot_full (l : list Z) b : find_slot l b = length l <-> b ∉ l.
Proof.
  split; [|apply find_slot_notin]. intros E H. pose proof (find_slot_lt _ _ H). lia.
Qed.

(** Recording a block: absorbed when it is in the log, appended otherwise. *)
Lemma logged_record b l :
  log_ok l -> logged (record_block b l) = if decide (b ∈ logged l) then logged l else logged l ++ [b].
Proof.
  intros I. pose proof (logged_length l I) as Hlen. pose proof (lo_n _ I) as Hn.
  pose proof (lo_size _ I) as Hs. pose proof (lo_len _ I) as Hl.
  assert (Hl2 : length (logged l) = Z.to_nat (lh_n (lg_lh l))) by lia.
  unfold record_block. fold (logged l). unfold logged at 1. simpl.
  case_decide as Hb.
  - pose proof (find_slot_lt _ _ Hb) as Hlt.
    destruct (Nat.eqb_spec (find_slot (logged l) b) (Z.to_nat (lh_n (lg_lh l)))); [lia|].
    rewrite take_insert_lt by lia. fold (logged l). apply list_insert_id. by apply find_slot_in.
  - rewrite find_slot_notin, Hl2, Nat.eqb_refl by done.
    replace (Z.to_nat (lh_n (lg_lh l) + 1)) with (Datatypes.S (Z.to_nat (lh_n (lg_lh l)))) by lia.
    erewrite take_S_r by (rewrite list_lookup_insert_eq; [reflexivity|unfold LOGSIZE, MAXOPBLOCKS in *; lia]).
    by rewrite take_insert_ge by lia.
Qed.

Lemma record_ok b l :
  log_ok l -> data_block l b -> lh_n (lg_lh l) < lg_size l - 1 -> log_ok (record_block b l).
Proof.
  intros I Hb Hn. pose proof (logged_record b l I) as E.
  split; try apply I.
  - pose proof (lo_n _ I). unfold record_block. simpl. destruct (_ =? _)%nat; lia.
  - unfold record_block. simpl. rewrite length_insert. apply I.
  - rewrite E. case_decide as D; [apply I|]. apply NoDup_app.
    split; [apply I|]. split; [|apply NoDup_singleton].
    intros x Hx ->%list_elem_of_singleton. done.
  - rewrite E. case_decide; [apply I|]. apply Forall_app. split; [apply I|]. by constructor.
Qed.

(** ** Reservation of log space

    Operations in progress, each with the number of blocks it may still log. *)
Inductive op_step : log * list nat -> log * list nat -> Prop :=
  | op_begin l ops :
      lg_committing l = false ->
      lh_n (lg_lh l) + (lg_outstanding l + 1) * MAXOPBLOCKS <= LOGSIZE ->
      op_step (l, ops) (set_outstanding (lg_outstanding l + 1) l, Z.to_nat MAXOPBLOCKS :: ops)
  | op_write l ops1 k ops2 b :
      too_big l = false -> lg_outstanding l >= 1 ->
      op_step (l, ops1 ++ Datatypes.S k :: ops2) (record_block b l, ops1 ++ k :: ops2)
  | op_end l ops1 k ops2 :
      lg_outstanding l - 1 <> 0 ->
      op_step (l, ops1 ++ k :: ops2) (set_outstanding (lg_outstanding l - 1) l, ops1 ++ ops2)
  | op_end_commit l k :
      lg_outstanding l - 1 = 0 ->
      op_step (l, [k]) (set_n 0 (set_outstanding 0 l), []).

Definition space_inv (size : Z) (st : log * list nat) : Prop :=
  lg_size st.1 = size /\ lg_committing st.1 = false /\
  lg_outstanding st.1 = Z.of_nat (length st.2) /\
  0 <= lh_n (lg_lh st.1) /\ lh_n (lg_lh st.1) + Z.of_nat (sum_list st.2) <= LOGSIZE /\
  Forall (fun k => (k <= Z.to_nat MAXOPBLOCKS)%nat) st.2.

Lemma sum_list_app l1 l2 : sum_list (l1 ++ l2) = (sum_list l1 + sum_list l2)%nat.
Proof. induction l1; simpl; lia. Qed.

Lemma sum_list_bound l m : Forall (fun k => (k <= m)%nat) l -> (sum_list l <= length l * m)%nat.
Proof. induction 1; simpl; lia. Qed.

Lemma op_step_inv size st st' : space_inv size st -> op_step st st' -> space_inv size st'.
Proof.
  intros (H1 & H2 & H3 & H4 & H5 & H6) Hs.
  destruct Hs as [l ops Hc Hg|l ops1 k ops2 b Ht Ho|l ops1 k ops2 Ho|l k Ho]; simpl in *.
  - pose proof (sum_list_bound _ _ H6) as Hsum. change (Z.to_nat MAXOPBLOCKS) with 10%nat in *.
    unfold LOGSIZE, MAXOPBLOCKS in *.
    split; [done|]. split; [done|]. simpl. split; [lia|]. split; [lia|].
    split; [unfold LOGSIZE, MAXOPBLOCKS; lia|]. by constructor.
  - rewrite sum_list_app, length_app in *. simpl in *.
    apply Forall_app in H6 as [Ha [Hk Hb]%Forall_cons].
    split; [done|]. split; [done|]. unfold record_block. simpl.
    rewrite sum_list_app, length_app. simpl.
    split; [lia|]. destruct (_ =? _)%nat.
    + split; [lia|]. split; [lia|]. apply Forall_app. split; [done|]. constructor; [lia|done].
    + split; [lia|]. split; [lia|]. apply Forall_app. split; [done|]. constructor; [lia|done].
  - rewrite sum_list_app, length_app in *. simpl in *.
    apply Forall_app in H6 as [Ha [Hk Hb]%Forall_cons].
    split; [done|]. split; [done|]. simpl. rewrite sum_list_app, length_app.
    split; [lia|]. split; [lia|]. split; [lia|]. by apply Forall_app.
  - split; [done|]. split; [done|]. simpl. split; [done|]. split; [lia|].
    split; [unfold LOGSIZE, MAXOPBLOCKS; lia|done].
Qed.

Lemma op_steps_inv size st st' : space_inv size st -> rtc op_step st st' -> space_inv size st'.
Proof. intros I H. induction H; eauto using op_step_inv. Qed.

(** An idle log of the given size. *)
Definition idle_log (size : Z) : log :=
  Log 2 size 0 false ROOTDEV (Logheader 0 (replicate (Z.to_nat LOGSIZE) 0)).

Lemma idle_space size : space_inv size (idle_log size, []).
Proof. repeat split; simpl; unfold LOGSIZE, MAXOPBLOCKS; lia || constructor. Qed.

(** [n] writes of the blocks [from], [from + 1], ... *)
Definition write_seq (from : Z) (n : nat) (l : log) : log :=
  fold_left (fun l i => record_block (from + Z.of_nat i) l) (seq 0 n) l.

Lemma op_writes n l from ops1 k ops2 :
  forallb (fun i => negb (too_big (write_seq from i l))) (seq 0 n) = true ->
  forallb (fun i => 1 <=? lg_outstanding (write_seq from i l)) (seq 0 n) = true ->
  rtc op_step (l, ops1 ++ (n + k)%nat :: ops2) (write_seq from n l, ops1 ++ k :: ops2).
Proof.
  revert k. induction n as [|n IH]; intros k H1 H2; [apply rtc_refl|].
  rewrite seq_S, forallb_app in H1, H2. apply andb_true_iff in H1 as [H1 Ht], H2 as [H2 Ho].
  simpl in Ht, Ho. rewrite andb_true_r in Ht, Ho.
  apply negb_true_iff in Ht. apply Z.leb_le in Ho.
  replace (Datatypes.S n + k)%nat with (n + Datatypes.S k)%nat by lia.
  eapply rtc_r; [by apply IH|].
  replace (write_seq from (Datatypes.S n) l) with (record_block (from + Z.of_nat n) (write_seq from n l)).
  - constructor; [done|lia].
  - unfold write_seq. by rewrite seq_S, fold_left_app.
Qed.

Section LogUse.
Context {S : Type} {ops : BlockOps S} {R : S -> acache -> Prop} {laws : BlockLaws S R}.

(** The typical use of [log_write]: read a block, change it, log it, release
    it. *)
Definition logged_update (b : Z) (f : blk -> blk) : M (lst S) unit :=
  let! h := lift (bread ROOTDEV b) in
  let! d := lift (b_get h) in
  do! lift (b_put h (f d)) in
  do! log_write h in
  lift (brelse h).

Lemma logged_update_spec io l a b f :
  R io a -> a_held a = ∅ -> 0 <= b < FSSIZE -> (size (dom (a_pin a)) < Z.to_nat NBUF)%nat ->
  too_big l = false -> 1 <= lg_outstanding l ->
  exists io', logged_update b f (Lst io l) = Ok (tt, Lst io' (record_block b l)) /\
    R io' (a_set_pin (<[b := f (aview a b)]> (a_pin a)) a).
Proof.
  intros HR Hh Hb Hsz Ht Ho.
  destruct (bread_law io a b HR Hb) as (h & io1 & E1 & R1).
  { by rewrite Hh. } { right. rewrite Hh, dom_empty_L, union_empty_r_L. done. }
  assert (H1 : a_held (a_set_held (<[b := (h, aview a b)]> (a_held a)) a) !! b = Some (h, aview a b))
    by (simpl; by rewrite lookup_insert_eq).
  pose proof (b_get_law _ _ _ _ _ R1 H1) as E2.
  destruct (b_put_law _ _ _ _ _ (f (aview a b)) R1 H1) as (io2 & E3 & R2).
  set (a2 := a_set_held _ _) in R2.
  assert (H2 : a_held a2 !! b = Some (h, f (aview a b))) by (simpl; by rewrite lookup_insert_eq).
  pose proof (b_number_law _ _ _ _ _ R2 H2) as E4.
  destruct (b_mark_law _ _ _ _ _ R2 H2) as (io3 & E5 & R3).
  destruct (brelse_law io3 _ b h (f (aview a b)) R3) as (io4 & E6 & R4).
  { done. } { unfold aview. simpl. by rewrite lookup_insert_eq. }
  exists io4. split.
  - unfold logged_update, log_write.
    rewrite (bind_Ok _ _ _ _ _ (lift_Ok _ _ l _ _ E1)), (bind_Ok _ _ _ _ _ (lift_Ok _ _ l _ _ E2)).
    rewrite (bind_Ok _ _ _ _ _ (lift_Ok _ _ l _ _ E3)).
    erewrite bind_Ok.
    2: { rewrite (bind_Ok _ _ _ l _) by done. rewrite Ht.
      destruct (Z.ltb_spec (lg_outstanding l) 1); [lia|].
      rewrite (bind_Ok _ _ _ _ _ (lift_Ok _ _ l _ _ E4)).
      rewrite (bind_Ok _ _ _ tt (Lst io2 (record_block b l))) by done.
      apply (lift_Ok _ _ _ _ _ E5). }
    apply (lift_Ok _ _ _ _ _ E6).
  - match type of R4 with R _ ?a' => replace (a_set_pin _ a) with a' end; [done|].
    unfold a2, a_set_held, a_set_pin; simpl. f_equal.
    by rewrite Hh, insert_insert_eq, insert_empty, delete_singleton_eq.
Qed.

Lemma logged_update_ready (s : S) (l : log) (a : acache) (b : Z) (f : blk -> blk) :
  R s a -> commit_ready l a -> data_block l b -> too_big l = false -> 1 <= lg_outstanding l ->
  exists s' l' a', logged_update b f (Lst s l) = Ok (tt, Lst s' l') /\ R s' a' /\
    commit_ready l' a' /\ a_disk a' = a_disk a /\ a_trace a' = a_trace a /\
    (forall b', aview a' b' = if decide (b' = b) then f (aview a b) else aview a b') /\
    logged l' = (if decide (b ∈ logged l) then logged l else logged l ++ [b]).
Proof.
  intros HR C Hb Ht Ho. pose proof (cr_log _ _ C) as I.
  destruct (logged_update_spec s l a b f HR (cr_held _ _ C)) as (s' & E & R'); try done.
  { apply Hb. } { eapply pins_fit; [exact I|]. intros x. apply (cr_pin _ _ C). }
  pose proof (logged_record b l I) as El.
  eexists s', (record_block b l), _. split; [exact E|]. split; [exact R'|].
  split; [|split; [done|split; [done|split; [|done]]]].
  - split; try apply C.
    + apply record_ok; try done. unfold too_big in Ht. apply orb_false_iff in Ht as [_ Ht].
      apply Z.leb_gt in Ht. lia.
    + intros x. rewrite El. simpl. destruct (decide (x = b)) as [->|N].
      * rewrite lookup_insert_eq. split; [intros _|done]. case_decide; [done|].
        apply elem_of_app. right. left.
      * rewrite lookup_insert_ne, (cr_pin _ _ C) by done. case_decide; [done|].
        rewrite elem_of_app, list_elem_of_singleton. naive_solver.
  - intros b'. unfold aview. cbn [a_pin a_set_pin a_disk].
    destruct (decide (b' = b)) as [->|D].
    + by rewrite lookup_insert_eq.
    + by rewrite lookup_insert_ne.
Qed.

Lemma commit_n0 io l : lh_n (lg_lh l) = 0 -> commit (Lst io l) = Ok (tt, Lst (S := S) io l).
Proof. intros E. unfold commit. rewrite (bind_Ok _ _ _ l _) by done. by rewrite E. Qed.

(** Recovery brings back what the disk stands for. *)
Lemma recover_stands l V D sc lc :
  stands_for l V D -> R sc (Acache D ∅ ∅ []) -> log_geo lc -> lg_start lc = lg_start l -> lg_size lc = lg_size l ->
  exists sr lr ar, recover_from_log (Lst sc lc) = Ok (tt, Lst sr lr) /\ R sr ar /\
    forall b, data_block l b -> a_disk ar b = V b.
Proof.
  intros HV HRc G Es Ez.
  assert (Hst : stands_for lc V D) by (unfold stands_for, hdr_ok, data_block, in_log, lview in *; by rewrite Es, Ez).
  destruct (recover_spec sc lc _ HRc) as (sr & lr & E & Rr & _); try done; [apply Hst|].
  destruct (recover_pure lc (Acache D ∅ ∅ []) V) as (_ & _ & Hf); try done.
  eexists sr, lr, _. split; [exact E|]. split; [exact Rr|]. intros b Hb. apply Hf.
  unfold data_block, in_log in *. by rewrite Es, Ez.
Qed.

(** [commit] returns with an empty log, and all along the disk stands for the
    blocks from before the transaction or for those after it. *)
Lemma commit_recoverable s l a :
  R s a -> commit_ready l a ->
  exists s' l' a' ws, commit (Lst s l) = Ok (tt, Lst s' l') /\ R s' a' /\ a_trace a' = a_trace a ++ ws /\
    (logged l' = [] /\ a_pin a' = ∅) /\ (forall b, data_block l b -> a_disk a' b = aview a b) /\
    forall ws1, ws1 `prefix_of` ws ->
      stands_for l (a_disk a) (apply_writes (a_disk a) ws1) \/ stands_for l (aview a) (apply_writes (a_disk a) ws1).
Proof.
  intros HR C. pose proof (cr_log _ _ C) as I. destruct (decide (lh_n (lg_lh l) = 0)) as [E0|N0].
  - assert (Hl : logged l = []) by (unfold logged; by rewrite E0).
    assert (Hp : a_pin a = ∅).
    { apply map_eq. intros b. rewrite lookup_empty. destruct (a_pin a !! b) eqn:E; [|done].
      assert (b ∈ logged l) as Hb by (by apply (cr_pin _ _ C)). rewrite Hl in Hb.
      by apply not_elem_of_nil in Hb. }
    exists s, l, a, []. split; [by apply commit_n0|]. split; [done|]. rewrite app_nil_r.
    do 2 (split; [done|]). split; [intros b _; unfold aview; by rewrite Hp|].
    intros ws1 ->%prefix_nil_inv. left. by apply cp_old.
  - pose proof (lo_n _ I). destruct (commit_spec s l a HR C) as (s' & E & R'); [lia|].
    destruct (commit_wrote l a C) as [ws W].
    exists s', (set_n 0 l), (a_commit l a), ws. split; [exact E|]. split; [exact R'|].
    split; [apply W|]. split; [split; [done|]|].
    { apply map_eq. intros b. unfold a_commit, a_head at 1. simpl. rewrite lookup_empty.
      destruct (decide (b = lg_start l)) as [->|N]; [by rewrite lookup_delete_eq|].
      rewrite lookup_delete_ne, a_install_pin by done. case_decide as D; [done|]. simpl.
      rewrite lookup_delete_ne by done. apply eq_None_not_Some. intros Hs%a_logged_sub.
      by apply (cr_pin _ _ C) in Hs. }
    split; [intros b Hb; by apply (cp_final l a C)|apply W].
Qed.
End LogUse.

(** ** Theorems *)

(** C1: crash safety of a commit.  [commit] always returns, with every logged
    block at its home location and the log empty; and if the machine stops
    after any number of its disk writes, recovery at the next boot leaves the
    data blocks either all as they were before the transaction or all as the
    transaction made them. *)
Theorem commit_crash_atomic {S : Type} {ops : BlockOps S} {R : S -> acache -> Prop}
    {laws : BlockLaws S R} (s : S) (l : log) (a : acache) :
  R s a -> commit_ready l a ->
  exists s' l' a' ws, commit (Lst s l) = Ok (tt, Lst s' l') /\ R s' a' /\
    a_trace a' = a_trace a ++ ws /\ logged l' = [] /\ a_pin a' = ∅ /\
    (forall b, data_block l b -> a_disk a' b = aview a b) /\
    forall ws1 sc lc, ws1 `prefix_of` ws ->
      R sc (Acache (apply_writes (a_disk a) ws1) ∅ ∅ []) ->
      log_geo lc -> lg_start lc = lg_start l -> lg_size lc = lg_size l ->
      exists sr lr ar, recover_from_log (Lst sc lc) = Ok (tt, Lst sr lr) /\ R sr ar /\
        ((forall b, data_block l b -> a_disk ar b = a_disk a b) \/
         (forall b, data_block l b -> a_disk ar b = aview a b)).
Proof.
  intros HR C. destruct (commit_recoverable s l a HR C) as (s' & l' & a' & ws & E & R' & Et & C' & Hf & Hw).
  exists s', l', a', ws. split; [exact E|]. split; [exact R'|]. split; [exact Et|]. split; [apply C'|].
  split; [apply C'|]. split; [exact Hf|]. intros ws1 sc lc Hp HRc G Es Ez.
  destruct (Hw ws1 Hp) as [Hv|Hv]; destruct (recover_stands l _ _ sc lc Hv HRc G Es Ez) as (sr & lr & ar & Er & Rr & Hr);
    exists sr, lr, ar; (split; [exact Er|]; split; [exact Rr|]); [by left|by right].
Qed.

(** Recovery is idempotent.  On any disk with a sound log header, recovery
    returns with every data block as the log says and with an empty log, and
    after any number of its own disk writes the disk still stands for the same
    contents: a crash during recovery is repaired by the next one. *)
Theorem recovery_idempotent {S : Type} {ops : BlockOps S} {R : S -> acache -> Prop}
    {laws : BlockLaws S R} (s : S) (l : log) (D V : Z -> blk) :
  R s (Acache D ∅ ∅ []) -> log_geo l -> stands_for l V D ->
  exists s' l' a', recover_from_log (Lst s l) = Ok (tt, Lst s' l') /\ R s' a' /\
    (forall b, data_block l b -> a_disk a' b = V b) /\
    hb_n (a_disk a' (lg_start l)) = 0 /\ logged l' = [] /\
    forall ws1, ws1 `prefix_of` a_trace a' -> stands_for l V (apply_writes D ws1).
Proof.
  intros HR G HV. destruct (recover_spec s l _ HR) as (s' & l' & E & R' & _ & Hl & _); try done.
  { apply HV. }
  destruct (recover_pure l (Acache D ∅ ∅ []) V) as ([ws W] & Hn & Hf); try done.
  eexists s', l', _. split; [exact E|]. split; [exact R'|]. do 3 (split; [done|]).
  intros ws1 Hp. rewrite (wr_trace _ _ _ _ W) in Hp. by apply (wr_always _ _ _ _ W).
Qed.

(** [log_write] builds a transaction.  Within an operation and with room in
    the log, changing a block and logging it gives every reader the new
    contents, leaves the disk alone, and keeps the cache ready to commit: the
    pinned blocks are those in the header, each of them once. *)
Theorem log_write_correct {S : Type} {ops : BlockOps S} {R : S -> acache -> Prop}
    {laws : BlockLaws S R} (s : S) (l : log) (a : acache) (b : Z) (f : blk -> blk) :
  R s a -> commit_ready l a -> data_block l b -> too_big l = false -> 1 <= lg_outstanding l ->
  exists s' l' a', logged_update b f (Lst s l) = Ok (tt, Lst s' l') /\ R s' a' /\
    commit_ready l' a' /\ a_disk a' = a_disk a /\ a_trace a' = a_trace a /\
    (forall b', aview a' b' = if decide (b' = b) then f (aview a b) else aview a b') /\
    logged l' = (if decide (b ∈ logged l) then logged l else logged l ++ [b]).
Proof. apply logged_update_ready. Qed.

(** [begin_op] reserves enough.  In every interleaving of operations that
    log at most [MAXOPBLOCKS] blocks each, on a log with more than [LOGSIZE]
    blocks, an operation that has not used up its share never finds the log
    full. *)
Theorem log_space_reserved (size : Z) (l : log) (ops1 ops2 : list nat) (k : nat) :
  LOGSIZE < size -> rtc op_step (idle_log size, []) (l, ops1 ++ Datatypes.S k :: ops2) ->
  too_big l = false /\ 1 <= lg_outstanding l.
Proof.
  intros Hs Hr. destruct (op_steps_inv size _ _ (idle_space size) Hr) as (H1 & _ & H3 & H4 & H5 & _).
  simpl in *. rewrite sum_list_app, length_app in *. simpl in *. split; [|lia].
  apply orb_false_iff. split; apply Z.leb_gt; lia.
Qed.

(** On the disk mkfs makes, whose log has [LOGSIZE] blocks with the header
    among them, the reservation is one block short: three operations admitted
    together, none above its share, can drive [log_write] into its panic. *)
Theorem log_space_short :
  exists l ops1 k ops2,
    rtc op_step (idle_log LOGSIZE, []) (l, ops1 ++ Datatypes.S k :: ops2) /\
    forall (S : Type) (ops : BlockOps S) (s : S) (h : Z),
      log_write h (Lst s l) = Panic "too big a transaction".
Proof.
  set (l3 := set_outstanding 3 (set_outstanding 2 (set_outstanding 1 (idle_log LOGSIZE)))).
  set (la := write_seq 100 10 l3). set (lb := write_seq 200 10 la). set (lc := write_seq 300 9 lb).
  exists lc, [0; 0]%nat, O, []. split.
  - eapply rtc_l; [apply op_begin; [done|vm_compute; congruence]|].
    eapply rtc_l; [apply op_begin; [done|vm_compute; congruence]|].
    eapply rtc_l; [apply op_begin; [done|vm_compute; congruence]|].
    etrans; [apply (op_writes 10 l3 100 [] 0 [10; 10]%nat); vm_compute; reflexivity|].
    etrans; [apply (op_writes 10 la 200 [0]%nat 0 [10]%nat); vm_compute; reflexivity|].
    apply (op_writes 9 lb 300 [0; 0]%nat 1 []); vm_compute; reflexivity.
  - intros S ops s h. unfold log_write. rewrite (bind_Ok _ _ _ lc _) by done.
    replace (too_big lc) with true by (vm_compute; reflexivity). done.
Qed.

(** ** Witnesses *)

Definition zero_block : blk := replicate (Z.to_nat BSIZE) 0.
Definition zero_disk : Z -> Z -> blk := fun _ _ => zero_block.
(** The log of a fresh file system, with one operation in progress. *)
Definition log1 : log := set_outstanding 1 (idle_log LOGSIZE).

Lemma log1_geo : log_geo log1.
Proof. split; vm_compute; split; congruence || reflexivity. Qed.

Lemma log1_ok : log_ok log1.
Proof. split; try (vm_compute; repeat split; congruence || reflexivity); constructor. Qed.

Lemma log1_ready : commit_ready log1 (Acache (zero_disk ROOTDEV) ∅ ∅ []).
Proof.
  split; [apply log1_ok|reflexivity| |reflexivity|vm_compute; reflexivity].
  intros b. split; [intros [? H]; discriminate H|intros H; by apply not_elem_of_nil in H].
Qed.

Lemma data40 : data_block log1 40.
Proof. split; [vm_compute; split; congruence|]. intros [_ H]. vm_compute in H. congruence. Qed.

(** A state of the buffer cache with block 40 changed and logged. *)
Lemma logged40 :
  exists s l a, cache_inv s a /\ commit_ready l a /\ logged l = [40] /\
    lg_start l = 2 /\ lg_size l = LOGSIZE.
Proof.
  destruct (binit_spec zero_disk) as (s0 & _ & I0 & _).
  destruct (logged_update_spec (ops := bio_ops 1) s0 log1 _ 40 (fun d => put32 d 0 7) I0)
    as (s1 & _ & R1); [reflexivity|vm_compute; split; congruence|vm_compute; lia|reflexivity|vm_compute; congruence|].
  eexists s1, (record_block 40 log1), _. split; [exact R1|].
  split; [|split; [reflexivity|split; reflexivity]].
  split; [|reflexivity| |reflexivity|vm_compute; reflexivity].
  - apply record_ok; [apply log1_ok|apply data40|vm_compute; reflexivity].
  - intros b. rewrite logged_record by apply log1_ok. simpl. rewrite insert_empty. split.
    + intros [d [<- _]%lookup_singleton_Some]. left.
    + intros ->%list_elem_of_singleton. by rewrite lookup_singleton_eq.
Qed.

Lemma commit_crash_atomic_witness :
  exists (s : io) (l : log) s' l', logged l = [40] /\
    commit (ops := bio_ops 1) (Lst s l) = Ok (tt, Lst s' l') /\ logged l' = [].
Proof.
  destruct logged40 as (s & l & a & HR & C & Hl & _).
  destruct (commit_crash_atomic (ops := bio_ops 1) s l a HR C) as (s' & l' & a' & ws & E & _ & _ & E' & _).
  exists s, l, s', l'. split; [exact Hl|]. split; [exact E|exact E'].
Defined.

Lemma zero_stands : stands_for log1 (zero_disk ROOTDEV) (zero_disk ROOTDEV).
Proof. apply (cp_old log1 (Acache (zero_disk ROOTDEV) ∅ ∅ []) log1_ready). by intros x _. Qed.

Lemma recovery_idempotent_witness :
  exists (s s' : io) l', recover_from_log (ops := bio_ops 1) (Lst s log1) = Ok (tt, Lst s' l') /\
    logged l' = [].
Proof.
  destruct (binit_spec zero_disk) as (s0 & _ & I0 & _).
  destruct (recovery_idempotent (ops := bio_ops 1) s0 log1 (zero_disk ROOTDEV) (zero_disk ROOTDEV))
    as (s' & l' & a' & E & _ & _ & _ & El & _).
  - exact I0.
  - exact log1_geo.
  - exact zero_stands.
  - exists s0, s', l'. split; [exact E|exact El].
Defined.

Lemma log_write_correct_witness :
  exists (s s' : io) l', logged_update (ops := bio_ops 1) 40 (fun d => put32 d 0 7) (Lst s log1) =
    Ok (tt, Lst s' l') /\ logged l' = [40].
Proof.
  destruct (binit_spec zero_disk) as (s0 & _ & I0 & _).
  destruct (log_write_correct (ops := bio_ops 1) s0 log1 _ 40 (fun d => put32 d 0 7) I0 log1_ready data40)
    as (s' & l' & a' & E & _ & _ & _ & _ & _ & El).
  - reflexivity.
  - vm_compute. congruence.
  - exists s0, s', l'. split; [exact E|exact El].
Defined.

Lemma log_space_reserved_witness :
  too_big (set_outstanding 1 (idle_log 31)) = false /\
  1 <= lg_outstanding (set_outstanding 1 (idle_log 31)).
Proof.
  apply (log_space_reserved 31 (set_outstanding 1 (idle_log 31)) [] [] 9).
  - vm_compute. reflexivity.
  - eapply rtc_l; [|apply rtc_refl]. apply (op_begin (idle_log 31) []); [reflexivity|vm_compute; congruence].
Defined.
