(* ===== verification/Tx.v ===== *)
(** * The interface between the log and the file system

    fs.c uses disk blocks in two ways: it reads one ([bread], uses of
    [bp->data], [brelse]), or it changes one inside a transaction ([bread],
    stores to [bp->data], [log_write], [brelse]).  [TxOps] has these two uses;
    [TxLaws] says that they act on one array of blocks, as long as the
    transaction has updates left.  The log over the buffer cache is an
    instance, so that what is proved of the file system from the laws holds of
    the whole stack. *)
From S2P Require Import Prelude Sleeplock Ide Blocks Bytes Log.

Class TxOps (T : Type) : Type := {
  tx_read : Z -> M T blk;
  tx_update : Z -> (blk -> blk) -> M T unit;
}.

(** [ok t n V]: in state [t] the blocks read as [V] and [n] more updates are
    possible; [data] are the blocks outside the log. *)
Class TxLaws (T : Type) {ops : TxOps T} (ok : T -> nat -> (Z -> blk) -> Prop) (data : Z -> Prop) : Prop := {
  tx_read_law t n V b :
    ok t n V -> data b -> exists t', tx_read b t = Ok (V b, t') /\ ok t' n V;
  tx_update_law t n V b f :
    ok t (Datatypes.S n) V -> data b ->
    exists t', tx_update b f t = Ok (tt, t') /\ ok t' n (<[b := f (V b)]> V);
  tx_weaken t n V : ok t (Datatypes.S n) V -> ok t n V;
}.

Section LogTx.
Context {S : Type} {ops : BlockOps S} {R : S -> acache -> Prop} {laws : BlockLaws S R}.

Definition log_read (b : Z) : M (lst S) blk :=
  let! h := lift (bread ROOTDEV b) in
  let! d := lift (b_get h) in
  do! lift (brelse h) in
  ret d.

#[export] Instance log_tx : TxOps (lst S) := {
  tx_read := log_read;
  tx_update := logged_update;
}.

(** In a transaction on the log [l0], begun when the disk was [D] and the writes so
    far were [tr]: nothing is written before the commit, and of the log only the
    header changes. *)
Definition in_tx (l0 : log) (D : Z -> blk) (tr : list (Z * blk)) (t : lst S) (n : nat) (V : Z -> blk) : Prop :=
  exists a, R (l_io t) a /\ commit_ready (l_log t) a /\ V = aview a /\ a_disk a = D /\ a_trace a = tr /\
    l_log t = set_lh (lg_lh (l_log t)) l0 /\ 1 <= lg_outstanding l0 /\
    lh_n (lg_lh (l_log t)) + Z.of_nat n <= LOGSIZE /\
    lh_n (lg_lh (l_log t)) + Z.of_nat n <= lg_size l0 - 1.

Lemma log_read_tx l0 D tr t n V b :
  in_tx l0 D tr t n V -> data_block l0 b ->
  exists t', log_read b t = Ok (V b, t') /\ in_tx l0 D tr t' n V.
Proof.
  intros (a & HR & C & -> & Ed & Et & El & Ho & H1 & H2) [Hb Hn]. destruct t as [io l]. simpl in *.
  assert (Hroom : (size (dom (a_pin a)) < Z.to_nat NBUF)%nat).
  { eapply pins_fit; [apply C|]. intros x. apply (cr_pin _ _ C). }
  destruct (bread_law io a b HR Hb) as (h & io1 & E1 & R1).
  { by rewrite (cr_held _ _ C). }
  { right. rewrite (cr_held _ _ C), dom_empty_L, union_empty_r_L. done. }
  assert (Hh : a_held (a_set_held (<[b := (h, aview a b)]> (a_held a)) a) !! b = Some (h, aview a b))
    by (simpl; by rewrite lookup_insert_eq).
  pose proof (b_get_law _ _ _ _ _ R1 Hh) as E2.
  destruct (brelse_law io1 _ b h (aview a b) R1 Hh) as (io2 & E3 & R2); [done|].
  exists (Lst io2 l). split.
  - unfold log_read. rewrite (bind_Ok _ _ _ _ _ (lift_Ok _ _ l _ _ E1)).
    rewrite (bind_Ok _ _ _ _ _ (lift_Ok _ _ l _ _ E2)). by rewrite (bind_Ok _ _ _ _ _ (lift_Ok _ _ l _ _ E3)).
  - exists a. split; [|done]. simpl in R2.
    match type of R2 with R _ ?a' => replace a with a' end; [done|].
    pose proof (cr_held _ _ C) as Eh. destruct a as [dk pn hd trc]. unfold a_set_held; simpl in *. f_equal.
    by rewrite Eh, insert_empty, delete_singleton_eq.
Qed.

Lemma log_update_tx l0 D tr t n V b f :
  in_tx l0 D tr t (Datatypes.S n) V -> data_block l0 b ->
  exists t', logged_update b f t = Ok (tt, t') /\ in_tx l0 D tr t' n (<[b := f (V b)]> V).
Proof.
  intros (a & HR & C & -> & Ed & Et & El & Ho & H1 & H2) Hb. destruct t as [io l]. simpl in *.
  assert (Ht : too_big l = false).
  { unfold too_big. rewrite El. simpl. apply orb_false_iff. split; apply Z.leb_gt; lia. }
  assert (Hd : data_block l b) by (unfold data_block, in_log; by rewrite El).
  assert (Hol : 1 <= lg_outstanding l) by (by rewrite El).
  destruct (logged_update_ready io l a b f HR C Hd Ht Hol) as (io' & l' & a' & E & R' & C' & Ed' & Et' & Hv & Hlg).
  exists (Lst io' l'). split; [done|]. exists a'. simpl.
  destruct (logged_update_spec io l a b f HR (cr_held _ _ C)) as (io2 & E2 & _); try done; [apply Hd| |].
  { eapply pins_fit; [apply C|]. intros x. apply (cr_pin _ _ C). }
  rewrite E in E2. injection E2 as -> ->.
  split; [done|]. split; [done|]. split.
  { apply functional_extensionality. intros x. rewrite Hv. unfold insert, fn_insert.
    repeat case_decide; congruence. }
  split; [congruence|]. split; [congruence|].
  split; [unfold record_block; simpl; rewrite El; by destruct l0|]. split; [done|].
  pose proof (logged_length _ (cr_log _ _ C')) as Hn'. pose proof (logged_length _ (cr_log _ _ C)) as Hn.
  rewrite Hlg in Hn'. case_decide; [lia|]. rewrite length_app in Hn'. cbn [length] in Hn'. lia.
Qed.

#[export] Instance log_tx_laws l0 D tr : TxLaws (lst S) (in_tx l0 D tr) (data_block l0).
Proof.
  split.
  - intros t n V b. apply log_read_tx.
  - intros t n V b f. apply log_update_tx.
  - intros t n V (a & HR & C & -> & Ed & Et & El & Ho & H1 & H2). exists a.
    do 7 (split; [done|]). lia.
Qed.
End LogTx.
