(* ===== verification/Fs.v ===== *)
(** * The file system: fs.c

    Blocks and their bitmap, inodes on disk and in the inode cache, file
    contents, directories and paths, over the block interface of transactions.
    A buffer that the source holds while it works on other blocks (the indirect
    block in [bmap] and [itrunc]) is read and updated without being held: the
    other blocks are different ones. *)
From S2P Require Import Prelude Sleeplock Ide Bytes Tx.

Definition NDIRECT : nat := 12.
Definition NINDIRECT : nat := 128.
Definition MAXFILE : Z := 140.
Definition IPB : Z := 8.             (* BSIZE / sizeof(struct dinode) *)
Definition BPB : Z := 4096.          (* BSIZE*8 *)
Definition NINODE : nat := 50.
Definition NDEV : Z := 10.
Definition DIRSIZ : nat := 14.
Definition ROOTINO : Z := 1.
Definition FSDEV : Z := 1.           (* ROOTDEV *)
Definition T_DIR : Z := 1.
Definition T_FILE : Z := 2.
Definition T_DEV : Z := 3.

Record superblock : Type := Superblock {
  sb_size : Z;
  sb_nblocks : Z;
  sb_ninodes : Z;
  sb_nlog : Z;
  sb_logstart : Z;
  sb_inodestart : Z;
  sb_bmapstart : Z;
}.

(** [memmove(sb, bp->data, sizeof( *sb))] *)
Definition get_sb (d : blk) : superblock :=
  Superblock (get32 d 0) (get32 d 4) (get32 d 8) (get32 d 12) (get32 d 16) (get32 d 20) (get32 d 24).

(** [IBLOCK] and [BBLOCK] *)
Definition IBLOCK (i : Z) (sb : superblock) : Z := u32 (i / IPB + sb_inodestart sb).
Definition BBLOCK (b : Z) (sb : superblock) : Z := u32 (b / BPB + sb_bmapstart sb).

(** The inode in memory; [i_valid] is the flag [I_VALID]. *)
Record inode : Type := Inode {
  i_dev : Z;
  i_inum : Z;
  i_ref : Z;
  i_lock : sleeplock;
  i_valid : bool;
  i_type : Z;
  i_major : Z;
  i_minor : Z;
  i_nlink : Z;
  i_size : Z;
  i_addrs : list Z;  (* NDIRECT+1 block numbers *)
}.

Definition set_i_dev (v : Z) (r : inode) : inode :=
  Inode v (i_inum r) (i_ref r) (i_lock r) (i_valid r) (i_type r) (i_major r) (i_minor r)
    (i_nlink r) (i_size r) (i_addrs r).
Definition set_i_inum (v : Z) (r : inode) : inode :=
  Inode (i_dev r) v (i_ref r) (i_lock r) (i_valid r) (i_type r) (i_major r) (i_minor r)
    (i_nlink r) (i_size r) (i_addrs r).
Definition set_i_ref (v : Z) (r : inode) : inode :=
  Inode (i_dev r) (i_inum r) v (i_lock r) (i_valid r) (i_type r) (i_major r) (i_minor r)
    (i_nlink r) (i_size r) (i_addrs r).
Definition set_i_lock (v : sleeplock) (r : inode) : inode :=
  Inode (i_dev r) (i_inum r) (i_ref r) v (i_valid r) (i_type r) (i_major r) (i_minor r)
    (i_nlink r) (i_size r) (i_addrs r).
Definition set_i_valid (v : bool) (r : inode) : inode :=
  Inode (i_dev r) (i_inum r) (i_ref r) (i_lock r) v (i_type r) (i_major r) (i_minor r)
    (i_nlink r) (i_size r) (i_addrs r).
Definition set_i_type (v : Z) (r : inode) : inode :=
  Inode (i_dev r) (i_inum r) (i_ref r) (i_lock r) (i_valid r) v (i_major r) (i_minor r)
    (i_nlink r) (i_size r) (i_addrs r).
Definition set_i_major (v : Z) (r : inode) : inode :=
  Inode (i_dev r) (i_inum r) (i_ref r) (i_lock r) (i_valid r) (i_type r) v (i_minor r)
    (i_nlink r) (i_size r) (i_addrs r).
Definition set_i_minor (v : Z) (r : inode) : inode :=
  Inode (i_dev r) (i_inum r) (i_ref r) (i_lock r) (i_valid r) (i_type r) (i_major r) v
    (i_nlink r) (i_size r) (i_addrs r).
Definition set_i_nlink (v : Z) (r : inode) : inode :=
  Inode (i_dev r) (i_inum r) (i_ref r) (i_lock r) (i_valid r) (i_type r) (i_major r)
    (i_minor r) v (i_size r) (i_addrs r).
Definition set_i_size (v : Z) (r : inode) : inode :=
  Inode (i_dev r) (i_inum r) (i_ref r) (i_lock r) (i_valid r) (i_type r) (i_major r) (i_minor r)
    (i_nlink r) v (i_addrs r).
Definition set_i_addrs (v : list Z) (r : inode) : inode :=
  Inode (i_dev r) (i_inum r) (i_ref r) (i_lock r) (i_valid r) (i_type r) (i_major r) (i_minor r)
    (i_nlink r) (i_size r) v.


Definition inode0 : inode := Inode 0 0 0 initsleeplock false 0 0 0 0 0 (replicate 13 0).

(** ** struct dinode: 64 bytes of a block *)

Definition dinode_off (inum : Z) : nat := (64 * Z.to_nat (inum mod IPB))%nat.

(** [memmove(ip->addrs, dip->addrs, sizeof(ip->addrs))] *)
Definition get_addrs (d : blk) (off : nat) : list Z :=
  (fun k => get32 d (off + 12 + 4 * k)) <$> seq 0 (S NDIRECT).
Fixpoint put_addrs (d : blk) (off : nat) (l : list Z) : blk :=
  match l with
  | [] => d
  | a :: l => put_addrs (put32 d off a) (off + 4) l
  end.

Definition dip_type (d : blk) (off : nat) : Z := s16 (get16 d off).

(** The assignments of [ilock] from the dinode at [off]. *)
Definition read_dinode (d : blk) (off : nat) (ip : inode) : inode :=
  let ip := set_i_type (s16 (get16 d off)) ip in
  let ip := set_i_major (s16 (get16 d (off + 2))) ip in
  let ip := set_i_minor (s16 (get16 d (off + 4))) ip in
  let ip := set_i_nlink (s16 (get16 d (off + 6))) ip in
  let ip := set_i_size (get32 d (off + 8)) ip in
  set_i_addrs (get_addrs d off) ip.

(** The assignments of [iupdate] to the dinode at [off]. *)
Definition write_dinode (ip : inode) (off : nat) (d : blk) : blk :=
  let d := put16 d off (i_type ip) in
  let d := put16 d (off + 2) (i_major ip) in
  let d := put16 d (off + 4) (i_minor ip) in
  let d := put16 d (off + 6) (i_nlink ip) in
  let d := put32 d (off + 8) (i_size ip) in
  put_addrs d (off + 12) (i_addrs ip).

(** [memset(dip, 0, sizeof( *dip)); dip->type = type] *)
Definition new_dinode (type : Z) (off : nat) (d : blk) : blk :=
  put16 (take off d ++ replicate 64 0 ++ drop (off + 64) d) off type.

(** ** Bitmap *)

(** [bp->data[bi/8] & m] with [m = 1 << (bi % 8)] *)
Definition bit (d : blk) (bi : nat) : bool := Z.testbit (default 0 (d !! (bi / 8)%nat)) (Z.of_nat (bi mod 8)).
Definition set_bit (bi : nat) (d : blk) : blk :=
  <[(bi / 8)%nat := Z.lor (default 0 (d !! (bi / 8)%nat)) (Z.shiftl 1 (Z.of_nat (bi mod 8)))]> d.
Definition clear_bit (bi : nat) (d : blk) : blk :=
  <[(bi / 8)%nat := Z.ldiff (default 0 (d !! (bi / 8)%nat)) (Z.shiftl 1 (Z.of_nat (bi mod 8)))]> d.

(** The inner loop of [balloc]: the first free bit of [n] from [bi] on. *)
Fixpoint find_free (d : blk) (bi n : nat) : option nat :=
  match n with
  | O => None
  | S n => if bit d bi then find_free d (S bi) n else Some bi
  end.

(** The state of fs.c over the blocks [T]. *)
Record fs (T : Type) : Type := FS {
  f_tx : T;
  f_sb : superblock;
  f_icache : nat -> inode;
}.
Arguments FS {T}.
Arguments f_tx {T}.
Arguments f_sb {T}.
Arguments f_icache {T}.

(** Devices: what [devsw] has for a major number. *)
Record devops (T : Type) : Type := Devops {
  d_read : nat -> Z -> Z -> M (fs T) (option (list Z));      (* ip, off, n *)
  d_write : nat -> Z -> list Z -> M (fs T) (option Z);       (* ip, off, src *)
}.
Arguments d_read {T}.
Arguments d_write {T}.

Section Fs.
Context {T : Type} {ops : TxOps T}.
Variable devsw : Z -> option (devops T).
Variable pid : Z.                            (* the calling process *)

Definition on_tx {A} (c : M T A) : M (fs T) A := fun s =>
  match c (f_tx s) with
  | Ok (a, t) => Ok (a, FS t (f_sb s) (f_icache s))
  | Panic msg => Panic msg
  | Block => Block
  | Fuel => Fuel
  end.
Definition the_sb : M (fs T) superblock := gets f_sb.
Definition the_inode (ip : nat) : M (fs T) inode := gets (fun s => f_icache s ip).
Definition upd_inode (ip : nat) (f : inode -> inode) : M (fs T) unit :=
  modify (fun s => FS (f_tx s) (f_sb s) (<[ip := f (f_icache s ip)]> (f_icache s))).

(** The source passes [dev] along; there is one device. *)
Definition readsb : M (fs T) unit :=
  let! d := on_tx (tx_read 1) in
  modify (fun s => FS (f_tx s) (get_sb d) (f_icache s)).

Definition bzero (bno : Z) : M (fs T) unit :=
  on_tx (tx_update bno (fun d => replicate (Z.to_nat BSIZE) 0)).

(** The outer loop of [balloc], from block [b] on. *)
Fixpoint balloc_loop (n : nat) (b : Z) : M (fs T) Z :=
  match n with
  | O => panic "balloc: out of blocks"
  | S n =>
      let! sb := the_sb in
      let! d := on_tx (tx_read (BBLOCK b sb)) in
      match find_free d 0 (Z.to_nat (Z.min BPB (sb_size sb - b))) with
      | Some bi =>
          do! on_tx (tx_update (BBLOCK b sb) (set_bit bi)) in
          do! bzero (b + Z.of_nat bi) in
          ret (b + Z.of_nat bi)
      | None => balloc_loop n (b + BPB)
      end
  end.

(** [b < sb.size; b += BPB]: this many turns. *)
Definition balloc : M (fs T) Z :=
  let! sb := the_sb in
  balloc_loop (Z.to_nat ((sb_size sb + BPB - 1) / BPB)) 0.

Definition bfree (b : Z) : M (fs T) unit :=
  do! readsb in
  let! sb := the_sb in
  let! d := on_tx (tx_read (BBLOCK b sb)) in
  let bi := Z.to_nat (b mod BPB) in
  if bit d bi then on_tx (tx_update (BBLOCK b sb) (clear_bit bi))
  else panic "freeing free block".

(** [iinit] *)
Definition iinit : M (fs T) unit :=
  do! modify (fun s => FS (f_tx s) (f_sb s) (fun i => set_i_lock initsleeplock (f_icache s i))) in
  readsb.

(** The loop of [iget]: the entry of the inode, or the first free entry. *)
Fixpoint iget_scan (inum : Z) (c : nat -> inode) (ip n : nat) (empty : option nat) : nat + option nat :=
  match n with
  | O => inr empty
  | S n =>
      if (0 <? i_ref (c ip)) && (i_dev (c ip) =? FSDEV) && (i_inum (c ip) =? inum) then inl ip
      else
        let empty := match empty with
                     | None => if i_ref (c ip) =? 0 then Some ip else None
                     | Some e => Some e
                     end in
        iget_scan inum c (S ip) n empty
  end.

Definition iget (inum : Z) : M (fs T) nat :=
  let! s := get in
  match iget_scan inum (f_icache s) 0 NINODE None with
  | inl ip =>
      do! upd_inode ip (fun i => set_i_ref (i_ref i + 1) i) in
      ret ip
  | inr None => panic "iget: no inodes"
  | inr (Some ip) =>
      do! upd_inode ip (fun i => set_i_valid false (set_i_ref 1 (set_i_inum inum (set_i_dev FSDEV i)))) in
      ret ip
  end.

(** The loop of [ialloc] from [inum] on. *)
Fixpoint ialloc_loop (n : nat) (inum type : Z) : M (fs T) nat :=
  match n with
  | O => panic "ialloc: no inodes"
  | S n =>
      let! sb := the_sb in
      let! d := on_tx (tx_read (IBLOCK inum sb)) in
      if dip_type d (dinode_off inum) =? 0 then
        do! on_tx (tx_update (IBLOCK inum sb) (new_dinode type (dinode_off inum))) in
        iget inum
      else ialloc_loop n (inum + 1) type
  end.

Definition ialloc (type : Z) : M (fs T) nat :=
  let! sb := the_sb in
  ialloc_loop (Z.to_nat (sb_ninodes sb - 1)) 1 type.

Definition iupdate (ip : nat) : M (fs T) unit :=
  let! sb := the_sb in
  let! i := the_inode ip in
  on_tx (tx_update (IBLOCK (i_inum i) sb) (write_dinode i (dinode_off (i_inum i)))).

Definition idup (ip : nat) : M (fs T) nat :=
  do! upd_inode ip (fun i => set_i_ref (i_ref i + 1) i) in
  ret ip.

Definition ilock (ip : nat) : M (fs T) unit :=
  let! i := the_inode ip in
  if i_ref i <? 1 then panic "ilock"
  else
    match acquiresleep pid (i_lock i) with
    | None => block
    | Some lk =>
        do! upd_inode ip (set_i_lock lk) in
        if i_valid i then ret tt
        else
          let! sb := the_sb in
          let! d := on_tx (tx_read (IBLOCK (i_inum i) sb)) in
          do! upd_inode ip (read_dinode d (dinode_off (i_inum i))) in
          do! upd_inode ip (set_i_valid true) in
          let! i := the_inode ip in
          if i_type i =? 0 then panic "ilock: no type" else ret tt
    end.

Definition iunlock (ip : nat) : M (fs T) unit :=
  let! i := the_inode ip in
  if negb (holdingsleep (i_lock i)) || (i_ref i <? 1) then panic "iunlock"
  else upd_inode ip (fun i => set_i_lock (releasesleep (i_lock i)) i).

(** The loops of [itrunc] over the direct blocks and over the indirect block. *)
Fixpoint trunc_direct (ip i n : nat) : M (fs T) unit :=
  match n with
  | O => ret tt
  | S n =>
      let! x := the_inode ip in
      let a := default 0 (i_addrs x !! i) in
      do! (if a =? 0 then ret tt
           else
             do! bfree a in
             upd_inode ip (fun x => set_i_addrs (<[i := 0]> (i_addrs x)) x)) in
      trunc_direct ip (S i) n
  end.
Fixpoint trunc_indirect (d : blk) (j n : nat) : M (fs T) unit :=
  match n with
  | O => ret tt
  | S n =>
      let a := get32 d (4 * j) in
      do! (if a =? 0 then ret tt else bfree a) in
      trunc_indirect d (S j) n
  end.

Definition itrunc (ip : nat) : M (fs T) unit :=
  do! trunc_direct ip 0 NDIRECT in
  let! x := the_inode ip in
  let a := default 0 (i_addrs x !! NDIRECT) in
  do! (if a =? 0 then ret tt
       else
         let! d := on_tx (tx_read a) in
         do! trunc_indirect d 0 NINDIRECT in
         do! bfree a in
         upd_inode ip (fun x => set_i_addrs (<[NDIRECT := 0]> (i_addrs x)) x)) in
  do! upd_inode ip (set_i_size 0) in
  iupdate ip.

Definition iput (ip : nat) : M (fs T) unit :=
  let! i := the_inode ip in
  do! (if (i_ref i =? 1) && i_valid i && (i_nlink i =? 0) then
         do! itrunc ip in
         do! upd_inode ip (set_i_type 0) in
         do! iupdate ip in
         upd_inode ip (set_i_valid false)
       else ret tt) in
  upd_inode ip (fun i => set_i_ref (i_ref i - 1) i).

Definition iunlockput (ip : nat) : M (fs T) unit :=
  do! iunlock ip in iput ip.

(** ** File contents *)

Definition bmap (ip : nat) (bn : Z) : M (fs T) Z :=
  let! i := the_inode ip in
  if bn <? Z.of_nat NDIRECT then
    let addr := default 0 (i_addrs i !! Z.to_nat bn) in
    if addr =? 0 then
      let! addr := balloc in
      do! upd_inode ip (fun i => set_i_addrs (<[Z.to_nat bn := addr]> (i_addrs i)) i) in
      ret addr
    else ret addr
  else
    let bn := bn - Z.of_nat NDIRECT in
    if bn <? Z.of_nat NINDIRECT then
      let addr := default 0 (i_addrs i !! NDIRECT) in
      let! addr :=
        (if addr =? 0 then
           let! addr := balloc in
           do! upd_inode ip (fun i => set_i_addrs (<[NDIRECT := addr]> (i_addrs i)) i) in
           ret addr
         else ret addr) in
      let! d := on_tx (tx_read addr) in
      let a := get32 d (4 * Z.to_nat bn) in
      if a =? 0 then
        let! a := balloc in
        do! on_tx (tx_update addr (fun d => put32 d (4 * Z.to_nat bn) a)) in
        ret a
      else ret a
    else panic "bmap: out of range".

Record stat : Type := Stat { st_dev : Z; st_ino : Z; st_type : Z; st_nlink : Z; st_size : Z }.

Definition stati (ip : nat) : M (fs T) stat :=
  let! i := the_inode ip in
  ret (Stat (i_dev i) (i_inum i) (i_type i) (i_nlink i) (i_size i)).

Definition Bz : Z := BSIZE.

(** [memmove(dst, bp->data + off%BSIZE, m)] and the converse. *)
Definition get_bytes (d : blk) (off m : Z) : list Z := take (Z.to_nat m) (drop (Z.to_nat off) d).
Definition put_bytes (off : Z) (l : list Z) (d : blk) : blk :=
  take (Z.to_nat off) d ++ l ++ drop (Z.to_nat off + length l) d.

(** The loop of [readi] with [n] bytes to go. *)
Fixpoint readi_loop (fuel : nat) (ip : nat) (off n : Z) : M (fs T) (list Z) :=
  match fuel with
  | O => out_of_fuel
  | S fuel =>
      if n =? 0 then ret []
      else
        let! b := bmap ip (off / Bz) in
        let! d := on_tx (tx_read b) in
        let m := Z.min n (Bz - off mod Bz) in
        let! rest := readi_loop fuel ip (off + m) (n - m) in
        ret (get_bytes d (off mod Bz) m ++ rest)
  end.

(** The turns the loop can take. *)
Definition io_fuel (n : Z) : nat := Z.to_nat (n / Bz + 3).

(** [None] is -1. *)
Definition readi (ip : nat) (off n : Z) : M (fs T) (option (list Z)) :=
  let! i := the_inode ip in
  if i_type i =? T_DEV then
    if (i_major i <? 0) || (NDEV <=? i_major i) then ret None
    else
      match devsw (i_major i) with
      | None => ret None
      | Some dev => d_read dev ip off n
      end
  else if (i_size i <? off) || (u32 (off + n) <? off) then ret None
  else
    let n := if i_size i <? u32 (off + n) then i_size i - off else n in
    let! l := readi_loop (io_fuel n) ip off n in
    ret (Some l).

(** The loop of [writei] with the bytes [src] to go; the offset reached. *)
Fixpoint writei_loop (fuel : nat) (ip : nat) (off : Z) (src : list Z) : M (fs T) Z :=
  match fuel with
  | O => out_of_fuel
  | S fuel =>
      match src with
      | [] => ret off
      | _ =>
          let! b := bmap ip (off / Bz) in
          let m := Z.min (Z.of_nat (length src)) (Bz - off mod Bz) in
          do! on_tx (tx_update b (put_bytes (off mod Bz) (take (Z.to_nat m) src))) in
          writei_loop fuel ip (off + m) (drop (Z.to_nat m) src)
      end
  end.

Definition writei (ip : nat) (src : list Z) (off : Z) : M (fs T) (option Z) :=
  let n := Z.of_nat (length src) in
  let! i := the_inode ip in
  if i_type i =? T_DEV then
    if (i_major i <? 0) || (NDEV <=? i_major i) then ret None
    else
      match devsw (i_major i) with
      | None => ret None
      | Some dev => d_write dev ip off src
      end
  else if (i_size i <? off) || (u32 (off + n) <? off) then ret None
  else if MAXFILE * Bz <? u32 (off + n) then ret None
  else
    let! off := writei_loop (io_fuel n) ip off src in
    let! i := the_inode ip in
    do! (if (0 <? n) && (i_size i <? off) then
           do! upd_inode ip (set_i_size off) in iupdate ip
         else ret tt) in
    ret (Some n).

(** ** Directories *)

(** [strncmp(s, t, n)] of C strings given by their bytes, 0 beyond the end. *)
Fixpoint strncmp_bytes (n : nat) (s t : list Z) : Z :=
  match n with
  | O => 0
  | S n =>
      let a := hd 0 s in let b := hd 0 t in
      if negb (a =? 0) && (a =? b) then strncmp_bytes n (tail s) (tail t) else a - b
  end.
Definition namecmp (s t : list Z) : Z := strncmp_bytes DIRSIZ s t.

(** [strncpy(de.name, name, DIRSIZ)] *)
Fixpoint strncpy_bytes (n : nat) (s : list Z) : list Z :=
  match n with
  | O => []
  | S n =>
      let c := hd 0 s in
      if c =? 0 then 0 :: replicate n 0 else c :: strncpy_bytes n (tail s)
  end.

(** [struct dirent]: [inum] and the 14 bytes of [name]. *)
Definition de_inum (de : list Z) : Z := get16 de 0.
Definition de_name (de : list Z) : list Z := drop 2 de.
Definition mk_dirent (inum : Z) (name : list Z) : list Z :=
  put16 [0; 0] 0 inum ++ strncpy_bytes DIRSIZ name.

(** The loop of [dirlookup] from [off] on: the inode and its offset. *)
Fixpoint dirlookup_loop (n : nat) (dp : nat) (name : list Z) (off : Z) : M (fs T) (option (nat * Z)) :=
  match n with
  | O => out_of_fuel
  | S n =>
      let! i := the_inode dp in
      if off <? i_size i then
        let! r := readi dp off 16 in
        match r with
        | Some de =>
            if negb (Z.of_nat (length de) =? 16) then panic "dirlookup read"
            else if de_inum de =? 0 then dirlookup_loop n dp name (u32 (off + 16))
            else if namecmp name (de_name de) =? 0 then
              let! ip := iget (de_inum de) in
              ret (Some (ip, off))
            else dirlookup_loop n dp name (u32 (off + 16))
        | None => panic "dirlookup read"
        end
      else ret None
  end.

Definition dir_fuel (size : Z) : nat := Z.to_nat (size / 16 + 2).

Definition dirlookup (dp : nat) (name : list Z) : M (fs T) (option (nat * Z)) :=
  let! i := the_inode dp in
  if negb (i_type i =? T_DIR) then panic "dirlookup not DIR"
  else dirlookup_loop (dir_fuel (i_size i)) dp name 0.

(** The loop of [dirlink]: the offset of an empty entry or the end. *)
Fixpoint dirlink_loop (n : nat) (dp : nat) (off : Z) : M (fs T) Z :=
  match n with
  | O => out_of_fuel
  | S n =>
      let! i := the_inode dp in
      if off <? i_size i then
        let! r := readi dp off 16 in
        match r with
        | Some de =>
            if negb (Z.of_nat (length de) =? 16) then panic "dirlink read"
            else if de_inum de =? 0 then ret off
            else dirlink_loop n dp (off + 16)
        | None => panic "dirlink read"
        end
      else ret off
  end.

Definition dirlink (dp : nat) (name : list Z) (inum : Z) : M (fs T) Z :=
  let! r := dirlookup dp name in
  match r with
  | Some (ip, _) => do! iput ip in ret (-1)
  | None =>
      let! i := the_inode dp in
      let! off := dirlink_loop (dir_fuel (i_size i)) dp 0 in
      let! w := writei dp (mk_dirent inum name) off in
      match w with
      | Some n => if n =? 16 then ret 0 else panic "dirlink"
      | None => panic "dirlink"
      end
  end.
End Fs.

(** ** Paths *)

Definition SLASH : Z := 47.

Fixpoint skip_slashes (path : list Z) : list Z :=
  match path with
  | c :: path' => if c =? SLASH then skip_slashes path' else path
  | [] => []
  end.

(** The element at the front and what follows it. *)
Fixpoint path_elem (path : list Z) : list Z * list Z :=
  match path with
  | [] => ([], [])
  | c :: path' =>
      if c =? SLASH then ([], path)
      else let (e, rest) := path_elem path' in (c :: e, rest)
  end.

(** The bytes left in [name] and the rest of the path; [None] is 0. *)
Definition skipelem (path : list Z) : option (list Z * list Z) :=
  let path := skip_slashes path in
  match path with
  | [] => None
  | _ =>
      let (s, rest) := path_elem path in
      Some (take DIRSIZ s, skip_slashes rest)
  end.

Section Names.
Context {T : Type} {ops : TxOps T}.
Variable devsw : Z -> option (devops T).
Variable pid : Z.
Variable cwd : nat.     (* proc->cwd *)

(** The loop of [namex], with the inode and the path reached. *)
Fixpoint namex_loop (n : nat) (ip : nat) (path : list Z) (parent : bool) (name : list Z) :
    M (fs T) (option (nat * list Z)) :=
  match n with
  | O => out_of_fuel
  | S n =>
      match skipelem path with
      | None =>
          if parent then do! iput ip in ret None
          else ret (Some (ip, name))
      | Some (name, path) =>
          do! ilock pid ip in
          let! i := the_inode ip in
          if negb (i_type i =? T_DIR) then do! iunlockput ip in ret None
          else if parent && bool_decide (path = []) then
            do! iunlock ip in ret (Some (ip, name))
          else
            let! r := dirlookup devsw ip name in
            match r with
            | None => do! iunlockput ip in ret None
            | Some (next, _) =>
                do! iunlockput ip in
                namex_loop n next path parent name
            end
      end
  end.

Definition namex (path : list Z) (parent : bool) : M (fs T) (option (nat * list Z)) :=
  let! ip := (if hd 0 path =? SLASH then iget ROOTINO else idup cwd) in
  namex_loop (S (length path)) ip path parent [].

Definition namei (path : list Z) : M (fs T) (option nat) :=
  let! r := namex path false in
  ret (match r with Some (ip, _) => Some ip | None => None end).

Definition nameiparent (path : list Z) : M (fs T) (option (nat * list Z)) := namex path true.
End Names.
