(* ===== verification/FsInv.v ===== *)
(** * The file system: blocks, inodes and file contents

    The invariant of the block bitmap and of one inode's blocks, and what
    [balloc], [bfree], [bmap], [readi] and [writei] do to them and to the
    contents of the file, proved from the laws of transactions. *)
From S2P Require Import Prelude Sleeplock Ide Bytes Tx Fs.

(** ** Bits of a bitmap block *)

Lemma shift_bit (a b : nat) : Z.testbit (Z.shiftl 1 (Z.of_nat a)) (Z.of_nat b) = bool_decide (a = b).
Proof.
  rewrite Z.shiftl_1_l. destruct (decide (a = b)) as [->|Hne].
  - rewrite bool_decide_eq_true_2 by done. apply Z.pow2_bits_true. lia.
  - rewrite bool_decide_eq_false_2 by done. apply Z.pow2_bits_false. lia.
Qed.

Lemma div8_inj (i j : nat) : (i / 8 = j / 8)%nat -> (i mod 8 = j mod 8)%nat -> i = j.
Proof. intros H1 H2. rewrite (Nat.div_mod_eq i 8), (Nat.div_mod_eq j 8). congruence. Qed.

Lemma bit_set d bi bj :
  (bi / 8 < length d)%nat -> bit (set_bit bi d) bj = if decide (bi = bj) then true else bit d bj.
Proof.
  intros Hl. unfold bit, set_bit. destruct (decide (bi / 8 = bj / 8)%nat) as [E|E].
  - rewrite <-E, list_lookup_insert_eq by done. cbn [default from_option id]. rewrite Z.lor_spec, shift_bit.
    case_decide as D; [subst; rewrite bool_decide_eq_true_2 by done; apply orb_true_r|].
    rewrite bool_decide_eq_false_2; [apply orb_false_r|]. intros E'. apply D. by apply div8_inj.
  - rewrite list_lookup_insert_ne by done. case_decide; [congruence|done].
Qed.

Lemma bit_clear d bi bj :
  (bi / 8 < length d)%nat -> bit (clear_bit bi d) bj = if decide (bi = bj) then false else bit d bj.
Proof.
  intros Hl. unfold bit, clear_bit. destruct (decide (bi / 8 = bj / 8)%nat) as [E|E].
  - rewrite <-E, list_lookup_insert_eq by done. cbn [default from_option id]. rewrite Z.ldiff_spec, shift_bit.
    case_decide as D; [subst; rewrite bool_decide_eq_true_2 by done; apply andb_false_r|].
    rewrite bool_decide_eq_false_2; [apply andb_true_r|]. intros E'. apply D. by apply div8_inj.
  - rewrite list_lookup_insert_ne by done. case_decide; [congruence|done].
Qed.

Lemma length_set_bit bi d : length (set_bit bi d) = length d.
Proof. apply length_insert. Qed.
Lemma length_clear_bit bi d : length (clear_bit bi d) = length d.
Proof. apply length_insert. Qed.

Lemma find_free_Some d n : forall bi k,
  find_free d bi n = Some k ->
  (bi <= k < bi + n)%nat /\ bit d k = false /\ forall j, (bi <= j < k)%nat -> bit d j = true.
Proof.
  induction n as [|n IH]; intros bi k; simpl; [done|]. destruct (bit d bi) eqn:E.
  - intros (H1 & H2 & H3)%IH. split; [lia|]. split; [done|]. intros j Hj.
    destruct (decide (j = bi)) as [->|]; [done|]. apply H3. lia.
  - intros [= <-]. split; [lia|]. split; [done|]. lia.
Qed.

Lemma find_free_None d n : forall bi,
  find_free d bi n = None -> forall j, (bi <= j < bi + n)%nat -> bit d j = true.
Proof.
  induction n as [|n IH]; intros bi; simpl; [lia|]. destruct (bit d bi) eqn:E; [|done].
  intros Hn j Hj. destruct (decide (j = bi)) as [->|]; [done|]. apply (IH (S bi)); [done|lia].
Qed.

(** ** The layout of the disk *)

(** Block [b] is marked as used. *)
Definition used (sb : superblock) (V : Z -> blk) (b : Z) : bool :=
  bit (V (BBLOCK b sb)) (Z.to_nat (b mod BPB)).

Definition first_data (sb : superblock) : Z := sb_bmapstart sb + (sb_size sb / BPB + 1).

(** Inode blocks, then the bitmap, then data; [data] are the blocks outside the
    log. *)
Record layout (sb : superblock) (data : Z -> Prop) : Prop := {
  la_size : 0 < sb_size sb < 2147483648;
  la_inodes : 0 < sb_inodestart sb /\ 0 <= sb_ninodes sb /\
    sb_inodestart sb + (sb_ninodes sb / IPB + 1) <= sb_bmapstart sb;
  la_fit : first_data sb < 2147483648;
  la_meta : forall b, sb_inodestart sb <= b < first_data sb -> data b;
  la_data : forall b, first_data sb <= b < sb_size sb -> data b;
}.

(** Blocks have their size, and only data blocks are free. *)
Record disk_ok (sb : superblock) (V : Z -> blk) : Prop := {
  dk_len : forall b, length (V b) = Z.to_nat BSIZE;
  dk_free : forall b, 0 <= b < sb_size sb -> used sb V b = false -> first_data sb <= b;
}.

Section Layout.
Context (sb : superblock) (data : Z -> Prop).
Hypothesis L : layout sb data.

Lemma BBLOCK_eq b : 0 <= b < sb_size sb -> BBLOCK b sb = b / BPB + sb_bmapstart sb.
Proof.
  intros Hb. unfold BBLOCK. pose proof (la_size _ _ L). pose proof (la_fit _ _ L). pose proof (la_inodes _ _ L).
  unfold first_data in *. apply u32_small.
  assert (0 <= b / BPB <= sb_size sb / BPB).
  { split; [apply Z.div_pos; unfold BPB; lia|]. apply Z.div_le_mono; unfold BPB; lia. }
  assert (0 <= sb_ninodes sb / IPB) by (apply Z.div_pos; unfold IPB; lia). lia.
Qed.

Lemma BBLOCK_meta b : 0 <= b < sb_size sb -> sb_bmapstart sb <= BBLOCK b sb < first_data sb.
Proof.
  intros Hb. rewrite BBLOCK_eq by done. unfold first_data.
  assert (0 <= b / BPB <= sb_size sb / BPB).
  { split; [apply Z.div_pos; unfold BPB; lia|]. apply Z.div_le_mono; unfold BPB; lia. }
  lia.
Qed.

Lemma BBLOCK_data b : 0 <= b < sb_size sb -> data (BBLOCK b sb).
Proof.
  intros Hb. apply (la_meta _ _ L). pose proof (BBLOCK_meta b Hb). pose proof (la_inodes _ _ L).
  assert (0 <= sb_ninodes sb / IPB) by (apply Z.div_pos; unfold IPB; lia). lia.
Qed.

Lemma IBLOCK_meta i : 0 <= i < sb_ninodes sb -> sb_inodestart sb <= IBLOCK i sb < sb_bmapstart sb.
Proof.
  intros Hi. pose proof (la_inodes _ _ L). pose proof (la_fit _ _ L). pose proof (la_size _ _ L).
  unfold first_data in *.
  assert (0 <= i / IPB <= sb_ninodes sb / IPB).
  { split; [apply Z.div_pos; unfold IPB; lia|]. apply Z.div_le_mono; unfold IPB; lia. }
  assert (0 <= sb_size sb / BPB) by (apply Z.div_pos; unfold BPB; lia).
  unfold IBLOCK. rewrite u32_small by lia. lia.
Qed.

Lemma IBLOCK_data i : 0 <= i < sb_ninodes sb -> data (IBLOCK i sb).
Proof.
  intros Hi. pose proof (IBLOCK_meta i Hi). pose proof (la_inodes _ _ L). pose proof (la_size _ _ L).
  apply (la_meta _ _ L). unfold first_data.
  assert (0 <= sb_size sb / BPB) by (apply Z.div_pos; unfold BPB; lia). lia.
Qed.

(** The bit of a block is the one of no other block. *)
Lemma bit_index_inj a b :
  0 <= a < sb_size sb -> 0 <= b < sb_size sb -> BBLOCK a sb = BBLOCK b sb ->
  Z.to_nat (a mod BPB) = Z.to_nat (b mod BPB) -> a = b.
Proof.
  intros Ha Hb E1 E2. rewrite !BBLOCK_eq in E1 by done.
  pose proof (Z.mod_pos_bound a BPB). pose proof (Z.mod_pos_bound b BPB).
  pose proof (Z.div_mod a BPB). pose proof (Z.div_mod b BPB). unfold BPB in *. lia.
Qed.

Lemma bit_in_block V b : disk_ok sb V -> (Z.to_nat (b mod BPB) / 8 < length (V (BBLOCK b sb)))%nat.
Proof.
  intros D. rewrite (dk_len _ _ D). change (Z.to_nat BSIZE) with 512%nat.
  pose proof (Z.mod_pos_bound b BPB ltac:(done)) as Hm. unfold BPB in Hm.
  apply Nat.Div0.div_lt_upper_bound. unfold BPB. lia.
Qed.

(** The blocks after [balloc] of [b]. *)
Definition V_alloc (b : Z) (V : Z -> blk) : Z -> blk :=
  <[b := replicate (Z.to_nat BSIZE) 0]> (<[BBLOCK b sb := set_bit (Z.to_nat (b mod BPB)) (V (BBLOCK b sb))]> V).

Lemma V_alloc_used V b x :
  disk_ok sb V -> first_data sb <= b < sb_size sb -> 0 <= x < sb_size sb ->
  used sb (V_alloc b V) x = if decide (x = b) then true else used sb V x.
Proof.
  intros D Hb Hx. pose proof (la_inodes _ _ L) as Hi. pose proof (la_size _ _ L).
  assert (Hb0 : 0 <= b < sb_size sb).
  { unfold first_data in Hb. assert (0 <= sb_size sb / BPB) by (apply Z.div_pos; unfold BPB; lia).
    assert (0 <= sb_ninodes sb / IPB) by (apply Z.div_pos; unfold IPB; lia). lia. }
  pose proof (BBLOCK_meta x Hx) as Mx. pose proof (BBLOCK_meta b Hb0) as Mb.
  unfold used, V_alloc. rewrite fn_lookup_insert_ne by lia.
  destruct (decide (BBLOCK b sb = BBLOCK x sb)) as [E|E].
  - rewrite <-E, fn_lookup_insert. case_decide as D'.
    + subst. rewrite bit_set by by apply bit_in_block. by rewrite decide_True.
    + rewrite bit_set by by apply bit_in_block. rewrite decide_False, E; [done|].
      intros E'. apply D'. symmetry. by apply bit_index_inj.
  - rewrite fn_lookup_insert_ne by done. by rewrite decide_False by congruence.
Qed.

Lemma V_alloc_ok V b :
  disk_ok sb V -> first_data sb <= b < sb_size sb -> disk_ok sb (V_alloc b V).
Proof.
  intros D Hb. split.
  - intros x. unfold V_alloc. fn_cases; try apply (dk_len _ _ D).
    + rewrite length_set_bit. apply (dk_len _ _ D).
  - intros x Hx. rewrite V_alloc_used by done. case_decide; [done|]. by apply (dk_free _ _ D).
Qed.

(** Data blocks other than [b] are as before. *)
Lemma V_alloc_other V b x :
  0 <= b < sb_size sb -> first_data sb <= x -> x <> b -> V_alloc b V x = V x.
Proof.
  intros Hb Hx Hne. pose proof (BBLOCK_meta b Hb). unfold V_alloc.
  by rewrite !fn_lookup_insert_ne by lia.
Qed.

Lemma first_data_pos : 0 < first_data sb.
Proof.
  pose proof (la_inodes _ _ L). pose proof (la_size _ _ L). unfold first_data.
  assert (0 <= sb_size sb / BPB) by (apply Z.div_pos; unfold BPB; lia).
  assert (0 <= sb_ninodes sb / IPB) by (apply Z.div_pos; unfold IPB; lia). lia.
Qed.

Lemma bmap_first : sb_bmapstart sb < first_data sb.
Proof.
  pose proof (la_size _ _ L). unfold first_data.
  assert (0 <= sb_size sb / BPB) by (apply Z.div_pos; unfold BPB; lia). lia.
Qed.

Lemma V_alloc_meta V b x :
  first_data sb <= b < sb_size sb -> x < sb_bmapstart sb -> V_alloc b V x = V x.
Proof.
  intros Hb Hx. pose proof first_data_pos. pose proof (BBLOCK_meta b ltac:(lia)). pose proof bmap_first.
  unfold V_alloc. by rewrite !fn_lookup_insert_ne by lia.
Qed.
End Layout.

(** ** Runs of the file system *)

(** The run returns with [Q], or the disk is full. *)
Definition safe {T A} (c : M (fs T) A) (s : fs T) (Q : A -> fs T -> Prop) : Prop :=
  match c s with
  | Ok (a, s') => Q a s'
  | Panic m => m = "balloc: out of blocks"
  | _ => False
  end.

Lemma safe_ret {T A} (a : A) (s : fs T) (Q : A -> fs T -> Prop) : Q a s -> safe (ret a) s Q.
Proof. done. Qed.

Lemma safe_bind {T A B} (c : M (fs T) A) (k : A -> M (fs T) B) s Q R :
  safe c s Q -> (forall a s', Q a s' -> safe (k a) s' R) -> safe (bind c k) s R.
Proof.
  unfold safe, bind. destruct (c s) as [[a s']| | |]; try done. intros Hq Hk. by apply Hk.
Qed.

Lemma safe_mono {T A} (c : M (fs T) A) s (Q R : A -> fs T -> Prop) :
  safe c s Q -> (forall a s', Q a s' -> R a s') -> safe c s R.
Proof. unfold safe. destruct (c s) as [[a s']| | |]; naive_solver. Qed.

Lemma safe_and {T A} (c : M (fs T) A) s (Q R : A -> fs T -> Prop) :
  safe c s Q -> (forall a s', c s = Ok (a, s') -> R a s') -> safe c s (fun a s' => Q a s' /\ R a s').
Proof. unfold safe. destruct (c s) as [[a s']| | |]; naive_solver. Qed.

(** Looking at the state. *)
Lemma safe_gets {T A B} (f : fs T -> A) (k : A -> M (fs T) B) s Q :
  safe (k (f s)) s Q -> safe (bind (gets f) k) s Q.
Proof. done. Qed.
Lemma safe_modify {T} (f : fs T -> fs T) s (Q : unit -> fs T -> Prop) : Q tt (f s) -> safe (modify f) s Q.
Proof. done. Qed.

Section Runs.
Context {T : Type} {ops : TxOps T} {ok : T -> nat -> (Z -> blk) -> Prop} {data : Z -> Prop}
  {laws : TxLaws T ok data}.

Lemma safe_read {A} t n V sb c b (k : blk -> M (fs T) A) Q :
  ok t n V -> data b -> (forall t', ok t' n V -> safe (k (V b)) (FS t' sb c) Q) ->
  safe (bind (on_tx (tx_read b)) k) (FS t sb c) Q.
Proof.
  intros Ho Hd Hk. destruct (tx_read_law t n V b Ho Hd) as (t' & E & Ho').
  unfold safe, bind, on_tx. simpl. rewrite E. by apply Hk.
Qed.

Lemma safe_update t n V sb c b f (Q : unit -> fs T -> Prop) :
  ok t (S n) V -> data b -> (forall t', ok t' n (<[b := f (V b)]> V) -> Q tt (FS t' sb c)) ->
  safe (on_tx (tx_update b f)) (FS t sb c) Q.
Proof.
  intros Ho Hd Hk. destruct (tx_update_law t n V b f Ho Hd) as (t' & E & Ho').
  unfold safe, on_tx. simpl. rewrite E. by apply Hk.
Qed.

Lemma ok_weaken t m n V : (n <= m)%nat -> ok t m V -> ok t n V.
Proof. intros Hle. induction Hle; [done|]. intros Ho. apply IHHle. by apply tx_weaken. Qed.

Context (sb : superblock).
Hypothesis L : layout sb data.

(** What [balloc] returns: the first free block. *)
Definition allocated (V : Z -> blk) (b : Z) : Prop :=
  first_data sb <= b < sb_size sb /\ used sb V b = false /\ forall x, 0 <= x < b -> used sb V x = true.

Lemma used_block V m bi :
  0 <= m -> 0 <= bi < BPB ->
  used sb V (m * BPB + bi) = bit (V (BBLOCK (m * BPB) sb)) (Z.to_nat bi).
Proof.
  intros Hm Hb. unfold used, BBLOCK. unfold BPB in *.
  rewrite Z.div_add_l, Z.div_small, Z.add_0_r by lia. rewrite Z.div_mul by lia.
  rewrite (Z.add_comm (m * 4096) bi), Z.mod_add, Z.mod_small by lia. done.
Qed.

Lemma balloc_loop_safe n V c : disk_ok sb V -> forall k t m,
  ok t (S (S n)) V -> 0 <= m -> Z.of_nat k = (sb_size sb + BPB - 1) / BPB - m ->
  (forall x, 0 <= x < m * BPB -> x < sb_size sb -> used sb V x = true) ->
  match balloc_loop k (m * BPB) (FS t sb c) with
  | Ok (b, s') => exists t', s' = FS t' sb c /\ allocated V b /\ ok t' n (V_alloc sb b V)
  | Panic msg => msg = "balloc: out of blocks" /\ forall x, 0 <= x < sb_size sb -> used sb V x = true
  | _ => False
  end.
Proof.
  intros D. pose proof (la_size _ _ L) as Hs.
  induction k as [|k IH]; intros t m Ho Hm Hk Hused; cbn [balloc_loop].
  - split; [done|]. intros x Hx. apply Hused; [|lia]. unfold BPB in *.
    Z.to_euclidean_division_equations. lia.
  - assert (Hmb : m * BPB < sb_size sb).
    { unfold BPB in *. Z.to_euclidean_division_equations. lia. }
    assert (Hd : data (BBLOCK (m * BPB) sb)) by (apply (BBLOCK_data sb data L); unfold BPB in *; lia).
    unfold the_sb, gets. erewrite bind_Ok by reflexivity. cbn [f_sb].
    destruct (tx_read_law t _ V (BBLOCK (m * BPB) sb) Ho Hd) as (t1 & E1 & Ho1).
    rewrite (bind_Ok _ _ _ (V (BBLOCK (m * BPB) sb)) (FS t1 sb c)) by (unfold on_tx; simpl; by rewrite E1).
    destruct (find_free _ 0 _) as [bi|] eqn:Ef.
    + apply find_free_Some in Ef as (Hbi & Hbit & Hbefore).
      set (b := m * BPB + Z.of_nat bi).
      assert (Hbr : Z.of_nat bi < BPB /\ b < sb_size sb) by (unfold b; lia).
      assert (Hub : used sb V b = false).
      { unfold b. rewrite used_block by lia. by rewrite Nat2Z.id. }
      assert (Hfd : first_data sb <= b < sb_size sb).
      { split; [|lia]. apply (dk_free _ _ D); [unfold b, BPB in *; lia|done]. }
      destruct (tx_update_law t1 (S n) V _ (set_bit bi) Ho1 Hd) as (t2 & E2 & Ho2).
      rewrite (bind_Ok _ _ _ tt (FS t2 sb c)) by (unfold on_tx; simpl; by rewrite E2).
      destruct (tx_update_law t2 n _ b (fun _ => replicate (Z.to_nat BSIZE) 0) Ho2) as (t3 & E3 & Ho3);
        [by apply (la_data _ _ L)|].
      rewrite (bind_Ok _ _ _ tt (FS t3 sb c)) by (unfold bzero, on_tx; cbn [f_tx f_sb f_icache]; fold b; by rewrite E3).
      exists t3. split; [done|]. split.
      * split; [done|]. split; [done|]. intros x Hx.
        destruct (Z.lt_ge_cases x (m * BPB)) as [Hlt|Hge]; [apply Hused; lia|].
        replace x with (m * BPB + (x - m * BPB)) by lia. rewrite used_block by (unfold b in Hx; lia).
        apply Hbefore. unfold b in Hx. lia.
      * unfold V_alloc. replace (BBLOCK b sb) with (BBLOCK (m * BPB) sb).
        2:{ unfold b, BBLOCK, BPB in *. rewrite Z.div_add_l, (Z.div_small (Z.of_nat bi)), Z.add_0_r, Z.div_mul by lia. done. }
        replace (Z.to_nat (b mod BPB)) with bi; [done|].
        unfold b, BPB in *. rewrite (Z.add_comm (m * 4096)), Z.mod_add, Z.mod_small by lia. by rewrite Nat2Z.id.
    + replace (m * BPB + BPB) with ((m + 1) * BPB) by lia. apply IH; [done|lia|lia|].
      intros x Hx Hxs. destruct (Z.lt_ge_cases x (m * BPB)) as [Hlt|Hge]; [by apply Hused; lia|].
      replace x with (m * BPB + (x - m * BPB)) by lia. rewrite used_block by lia.
      apply (find_free_None _ _ _ Ef). lia.
Qed.

Lemma balloc_run t n V c :
  disk_ok sb V -> ok t (S (S n)) V ->
  match balloc (FS t sb c) with
  | Ok (b, s') => exists t', s' = FS t' sb c /\ allocated V b /\ ok t' n (V_alloc sb b V)
  | Panic msg => msg = "balloc: out of blocks" /\ forall x, 0 <= x < sb_size sb -> used sb V x = true
  | _ => False
  end.
Proof.
  intros D Ho. unfold balloc, the_sb, gets. erewrite bind_Ok by reflexivity. cbn [f_sb].
  apply (balloc_loop_safe n V c D _ t 0 Ho); [lia| |lia].
  pose proof (la_size _ _ L). rewrite Z2Nat.id; [lia|]. apply Z.div_pos; unfold BPB; lia.
Qed.

Lemma balloc_safe t n V c (Q : Z -> fs T -> Prop) :
  disk_ok sb V -> ok t (S (S n)) V ->
  (forall b t', allocated V b -> ok t' n (V_alloc sb b V) -> Q b (FS t' sb c)) ->
  safe balloc (FS t sb c) Q.
Proof.
  intros D Ho Hq. pose proof (balloc_run t n V c D Ho) as H. unfold safe.
  destruct (balloc _) as [[b s']| | |]; try done; [|by destruct H].
  destruct H as (t' & -> & Ha & Ho'). by apply Hq.
Qed.
End Runs.

(** ** The blocks of a file *)

(** The block pointers of a file: twelve direct ones, the indirect block, and
    the 128 pointers in it. *)
Definition slot (V : Z -> blk) (addrs : list Z) (k : nat) : Z :=
  if (k <=? NDIRECT)%nat then default 0 (addrs !! k)
  else
    let ind := default 0 (addrs !! NDIRECT) in
    if ind =? 0 then 0 else get32 (V ind) (4 * (k - 13)).

Definition SLOTS : nat := 141.

(** The pointer of block [bn] of the file. *)
Definition slot_of (bn : Z) : nat :=
  if bn <? Z.of_nat NDIRECT then Z.to_nat bn else S (Z.to_nat bn).

(** The byte at an offset; 0 where there is no block. *)
Definition fbyte (V : Z -> blk) (addrs : list Z) (off : Z) : Z :=
  let b := slot V addrs (slot_of (off / Bz)) in
  if b =? 0 then 0 else default 0 (V b !! Z.to_nat (off mod Bz)).

Lemma default_replicate0 n i : default 0 (replicate n 0 !! i) = 0.
Proof. destruct (replicate n 0 !! i) eqn:E; [by apply lookup_replicate in E as [-> _]|done]. Qed.

Section File.
Context (sb : superblock) (data : Z -> Prop).
Hypothesis L : layout sb data.

(** The file's blocks are used data blocks, and no two pointers are the same. *)
Record file_ok (V : Z -> blk) (addrs : list Z) : Prop := {
  fo_len : length addrs = S NDIRECT;
  fo_good : forall k, (k < SLOTS)%nat -> slot V addrs k <> 0 ->
    first_data sb <= slot V addrs k < sb_size sb /\ used sb V (slot V addrs k) = true;
  fo_inj : forall j k, (j < SLOTS)%nat -> (k < SLOTS)%nat -> slot V addrs k <> 0 ->
    slot V addrs j = slot V addrs k -> j = k;
}.

(** What changing a file so that its contents become [B] leaves alone: the
    pointers it had, the used blocks, and the contents of those that are not its
    own. *)
Record grows (B : Z -> Z) (V : Z -> blk) (addrs : list Z) (V' : Z -> blk) (addrs' : list Z) : Prop := {
  gr_disk : disk_ok sb V';
  gr_file : file_ok V' addrs';
  gr_slot : forall k, (k < SLOTS)%nat -> slot V addrs k <> 0 -> slot V' addrs' k = slot V addrs k;
  gr_byte : forall off, 0 <= off < MAXFILE * Bz -> fbyte V' addrs' off = B off;
  gr_new : forall k, (k < SLOTS)%nat -> slot V' addrs' k <> 0 ->
    slot V' addrs' k = slot V addrs k \/ used sb V (slot V' addrs' k) = false;
  gr_frame : forall b, first_data sb <= b < sb_size sb -> used sb V b = true ->
    (forall k, (k < SLOTS)%nat -> slot V addrs k <> b) -> V' b = V b;
  gr_used : forall b, 0 <= b < sb_size sb -> used sb V b = true -> used sb V' b = true;
  gr_meta : forall b, b < sb_bmapstart sb -> V' b = V b;
}.

Lemma grown_refl V addrs : disk_ok sb V -> file_ok V addrs -> grows (fbyte V addrs) V addrs V addrs.
Proof. intros D F. split; auto. Qed.

Lemma grown_trans B1 B2 V1 a1 V2 a2 V3 a3 :
  grows B1 V1 a1 V2 a2 -> grows B2 V2 a2 V3 a3 -> grows B2 V1 a1 V3 a3.
Proof.
  intros G1 G2. split.
  - apply G2.
  - apply G2.
  - intros k Hk Hs. rewrite <-(gr_slot _ _ _ _ _ G1 k Hk Hs). apply (gr_slot _ _ _ _ _ G2 k Hk).
    by rewrite (gr_slot _ _ _ _ _ G1 k Hk Hs).
  - intros off Ho. by apply (gr_byte _ _ _ _ _ G2).
  - intros k Hk Hs. destruct (gr_new _ _ _ _ _ G2 k Hk Hs) as [E|E].
    + rewrite E in Hs |- *. by apply (gr_new _ _ _ _ _ G1).
    + right. destruct (used sb V1 (slot V3 a3 k)) eqn:Eu; [|done].
      pose proof (fo_good _ _ (gr_file _ _ _ _ _ G2) k Hk Hs) as [Hr _].
      pose proof (first_data_pos sb data L).
      rewrite (gr_used _ _ _ _ _ G1) in E; [done|lia|done].
  - intros b Hb Hu Hn. pose proof (first_data_pos sb data L).
    rewrite (gr_frame _ _ _ _ _ G2), (gr_frame _ _ _ _ _ G1); try done; [apply (gr_used _ _ _ _ _ G1); [lia|done]|].
    intros k Hk E. destruct (gr_new _ _ _ _ _ G1 k Hk) as [E'|E'].
    + rewrite E. lia.
    + by apply (Hn k Hk); congruence.
    + congruence.
  - intros b Hb Hu. apply (gr_used _ _ _ _ _ G2), (gr_used _ _ _ _ _ G1); done.
  - intros b Hb. by rewrite (gr_meta _ _ _ _ _ G2), (gr_meta _ _ _ _ _ G1).
Qed.

(** A block that [balloc] returns is not in the file. *)
Lemma fresh_slot V addrs b k :
  file_ok V addrs -> allocated sb V b -> (k < SLOTS)%nat -> slot V addrs k <> b.
Proof.
  intros F (Hb & Hu & _) Hk E. pose proof (first_data_pos sb data L).
  destruct (fo_good _ _ F k Hk) as [_ Hu']; [rewrite E; lia|]. congruence.
Qed.

Lemma ind_good V addrs :
  file_ok V addrs -> default 0 (addrs !! NDIRECT) <> 0 ->
  first_data sb <= default 0 (addrs !! NDIRECT) < sb_size sb /\
  used sb V (default 0 (addrs !! NDIRECT)) = true.
Proof. intros F Hn. apply (fo_good _ _ F NDIRECT); [unfold SLOTS, NDIRECT; lia|done]. Qed.

(** Allocating a block changes no pointer. *)
Lemma slot_alloc V addrs b k :
  file_ok V addrs -> allocated sb V b -> slot (V_alloc sb b V) addrs k = slot V addrs k.
Proof.
  intros F Ha. pose proof (fresh_slot V addrs b NDIRECT F Ha ltac:(unfold SLOTS, NDIRECT; lia)) as Hf.
  unfold slot at 1 2. unfold slot in Hf. simpl in Hf. destruct (k <=? NDIRECT)%nat; [done|].
  destruct (Z.eqb_spec (default 0 (addrs !! NDIRECT)) 0) as [|Hn]; [done|].
  destruct (ind_good V addrs F Hn) as [Hr _]. pose proof (first_data_pos sb data L).
  rewrite (V_alloc_other sb data L); [done| |lia|done]. destruct Ha as [? _]. lia.
Qed.

(** One more pointer, to a new block; the rest as before. *)
Lemma grows_set V addrs V' addrs' b k :
  disk_ok sb V -> disk_ok sb V' -> file_ok V addrs -> allocated sb V b -> (k < SLOTS)%nat ->
  length addrs' = S NDIRECT -> slot V addrs k = 0 ->
  (forall j, (j < SLOTS)%nat -> slot V' addrs' j = if decide (j = k) then b else slot V addrs j) ->
  (forall x, 0 <= x < sb_size sb -> used sb V' x = if decide (x = b) then true else used sb V x) ->
  (forall x, first_data sb <= x < sb_size sb -> x <> b -> x <> default 0 (addrs' !! NDIRECT) -> V' x = V x) ->
  V' b = replicate (Z.to_nat BSIZE) 0 -> (forall x, x < sb_bmapstart sb -> V' x = V x) ->
  grows (fbyte V addrs) V addrs V' addrs'.
Proof.
  intros D D' F Ha Hk Hl Hz Hs Hu Hv Hb Hmeta. pose proof (first_data_pos sb data L) as Hfd.
  destruct Ha as (Hbr & Hbu & Hbf). pose proof (conj Hbr (conj Hbu Hbf) : allocated sb V b) as Ha.
  assert (Fr : forall j, (j < SLOTS)%nat -> slot V addrs j <> b) by (intros; by eapply fresh_slot).
  assert (Hslot : forall j, (j < SLOTS)%nat -> slot V addrs j <> 0 -> slot V' addrs' j = slot V addrs j).
  { intros j Hj Hn. rewrite Hs by done. case_decide; [congruence|done]. }
  assert (Hind : forall x, (forall j, (j < SLOTS)%nat -> slot V' addrs' j <> x) ->
    first_data sb <= x < sb_size sb -> V' x = V x).
  { intros x Hx Hr. apply Hv; [done| |].
    - intros ->. apply (Hx k Hk). rewrite Hs by done. by rewrite decide_True.
    - intros ->. by apply (Hx NDIRECT); [unfold SLOTS, NDIRECT; lia|]. }
  split; [done| |done| | | | |done].
  - split; [done| |].
    + intros j Hj. rewrite Hs by done. case_decide as Dj.
      * intros _. split; [done|]. rewrite Hu by lia. by rewrite decide_True.
      * intros Hn. destruct (fo_good _ _ F j Hj Hn) as [Hr Hus]. split; [done|].
        rewrite Hu by lia. by rewrite decide_False by by apply Fr.
    + intros i j Hi Hj. rewrite !Hs by done. destruct (decide (i = k)), (decide (j = k)).
      * congruence.
      * intros _ E. by destruct (Fr j Hj).
      * intros _ E. by destruct (Fr i Hi).
      * by apply (fo_inj _ _ F).
  - intros off Ho. unfold fbyte.
    assert (Hso : (slot_of (off / Bz) < SLOTS)%nat /\ slot_of (off / Bz) <> NDIRECT).
    { unfold slot_of, SLOTS, NDIRECT, MAXFILE, Bz, BSIZE in *.
      destruct (Z.ltb_spec (off / 512) (Z.of_nat 12)); Z.to_euclidean_division_equations; lia. }
    destruct Hso as [Hso Hnd]. set (j := slot_of (off / Bz)) in *. clearbody j.
    rewrite Hs by done. case_decide as Dj.
    + subst j. rewrite Hz. destruct (Z.eqb_spec b 0); [lia|]. rewrite Hb.
      change (0 =? 0) with true. cbv iota. apply default_replicate0.
    + destruct (Z.eqb_spec (slot V addrs j) 0) as [|Hn]; [done|].
      destruct (fo_good _ _ F j Hso Hn) as [Hr _]. rewrite Hv; [done..|by apply Fr|].
      intros E. assert (Hi : slot V' addrs' NDIRECT = slot V addrs j) by done.
      rewrite Hs in Hi by (unfold SLOTS, NDIRECT; lia). case_decide as Dn.
      * subst k. by destruct (Fr j Hso).
      * apply Hnd. symmetry. apply (fo_inj _ _ F); [unfold SLOTS, NDIRECT; lia|done..].
  - intros j Hj. rewrite Hs by done. case_decide; [by right|by left].
  - intros x Hx Hux Hn. apply Hind; [|done]. intros j Hj. rewrite Hs by done. case_decide.
    + intros ->. congruence.
    + by apply Hn.
  - intros x Hx Hux. rewrite Hu by done. by case_decide.
Qed.

Lemma grows_ext B B' V addrs V' addrs' :
  (forall off, 0 <= off < MAXFILE * Bz -> B off = B' off) ->
  grows B V addrs V' addrs' -> grows B' V addrs V' addrs'.
Proof. intros E [? ? ? Hb ? ? ? ?]. split; try done. intros off Ho. by rewrite <-E, Hb. Qed.

(** A new block for a pointer in the inode. *)
Lemma slot_set_inode V addrs b k j :
  disk_ok sb V -> file_ok V addrs -> allocated sb V b -> (k <= NDIRECT)%nat -> slot V addrs k = 0 ->
  slot (V_alloc sb b V) (<[k := b]> addrs) j = if decide (j = k) then b else slot V addrs j.
Proof.
  intros D F Ha Hk Hz. pose proof (first_data_pos sb data L) as Hfd. pose proof (fo_len _ _ F) as Hl.
  pose proof Ha as (Hr & _ & _). destruct (Nat.leb_spec j NDIRECT) as [Hjd|Hjd].
  - unfold slot. rewrite (proj2 (Nat.leb_le _ _) Hjd). case_decide as Dj.
    + subst j. by rewrite list_lookup_insert_eq by lia.
    + by rewrite list_lookup_insert_ne by done.
  - rewrite decide_False by lia. rewrite <-(slot_alloc V addrs b j F Ha). unfold slot.
    rewrite (proj2 (Nat.leb_gt _ _) Hjd). destruct (decide (k = NDIRECT)) as [->|Dk].
    + rewrite list_lookup_insert_eq by lia. cbn [default from_option id].
      unfold slot in Hz. simpl in Hz. rewrite Hz. change (0 =? 0) with true. cbv iota.
      destruct (Z.eqb_spec b 0); [lia|]. unfold V_alloc. rewrite fn_lookup_insert.
      unfold get32. cbn [get_le]. by rewrite !default_replicate0.
    + by rewrite list_lookup_insert_ne by done.
Qed.

Lemma grows_inode V addrs b k :
  disk_ok sb V -> file_ok V addrs -> allocated sb V b -> (k <= NDIRECT)%nat -> slot V addrs k = 0 ->
  grows (fbyte V addrs) V addrs (V_alloc sb b V) (<[k := b]> addrs).
Proof.
  intros D F Ha Hk Hz. pose proof (first_data_pos sb data L) as Hfd. pose proof (fo_len _ _ F) as Hl.
  pose proof Ha as (Hr & _ & _). apply (grows_set V addrs _ _ b k); try done.
  - apply (V_alloc_ok sb data L); done.
  - unfold SLOTS, NDIRECT in *. lia.
  - by rewrite length_insert.
  - intros j _. by apply slot_set_inode.
  - intros x Hx. by apply (V_alloc_used sb data L).
  - intros x Hx Hne _. apply (V_alloc_other sb data L); [lia..|done].
  - unfold V_alloc. by rewrite fn_lookup_insert.
  - intros x Hx. by apply (V_alloc_meta sb data L).
Qed.

(** A new block for a pointer in the indirect block. *)
Definition V_indirect (V : Z -> blk) (addrs : list Z) (b : Z) (q : nat) : Z -> blk :=
  let ind := default 0 (addrs !! NDIRECT) in
  <[ind := put32 (V_alloc sb b V ind) (4 * q) b]> (V_alloc sb b V).

Lemma slot_set_indirect V addrs b q j :
  disk_ok sb V -> file_ok V addrs -> allocated sb V b -> (q < NINDIRECT)%nat ->
  default 0 (addrs !! NDIRECT) <> 0 ->
  slot (V_indirect V addrs b q) addrs j = if decide (j = (13 + q)%nat) then b else slot V addrs j.
Proof.
  intros D F Ha Hq Hi. pose proof (first_data_pos sb data L) as Hfd. unfold V_indirect.
  set (ind := default 0 (addrs !! NDIRECT)) in *.
  pose proof Ha as (Hr & _ & _). destruct (ind_good V addrs F Hi) as [Hir Hiu]. fold ind in Hir, Hiu.
  assert (Hne : ind <> b) by (apply (fresh_slot V addrs b NDIRECT F Ha); unfold SLOTS, NDIRECT; lia).
  assert (Hvi : V_alloc sb b V ind = V ind) by (apply (V_alloc_other sb data L); [lia..|done]).
  pose proof (la_size _ _ L) as Hsz. unfold slot. destruct (Nat.leb_spec j NDIRECT) as [Hjd|Hjd].
  - rewrite decide_False; [done|]. unfold NDIRECT in Hjd. lia.
  - fold ind. destruct (Z.eqb_spec ind 0); [done|]. rewrite fn_lookup_insert, Hvi. case_decide as Dj.
    + subst j. replace (4 * (13 + q - 13))%nat with (4 * q)%nat by lia.
      rewrite get32_put32_eq; [apply u32_small; lia|].
      rewrite (dk_len _ _ D). change (Z.to_nat BSIZE) with 512%nat. unfold NINDIRECT in Hq. lia.
    + apply get32_put32_ne. unfold NDIRECT in Hjd. lia.
Qed.

Lemma grows_indirect V addrs b q :
  disk_ok sb V -> file_ok V addrs -> allocated sb V b -> (q < NINDIRECT)%nat ->
  default 0 (addrs !! NDIRECT) <> 0 -> slot V addrs (13 + q) = 0 ->
  grows (fbyte V addrs) V addrs (V_indirect V addrs b q) addrs.
Proof.
  intros D F Ha Hq Hi Hz. pose proof (first_data_pos sb data L) as Hfd.
  pose proof Ha as (Hr & _ & _). destruct (ind_good V addrs F Hi) as [Hir Hiu].
  assert (Hne : default 0 (addrs !! NDIRECT) <> b) by (apply (fresh_slot V addrs b NDIRECT F Ha); unfold SLOTS, NDIRECT; lia).
  assert (Hused : forall x, 0 <= x < sb_size sb ->
    used sb (V_indirect V addrs b q) x = if decide (x = b) then true else used sb V x).
  { intros x Hx. rewrite <-(V_alloc_used sb data L V b x) by done. unfold used, V_indirect. cbv zeta.
    pose proof (BBLOCK_meta sb data L x Hx). by rewrite fn_lookup_insert_ne by lia. }
  apply (grows_set V addrs _ addrs b (13 + q)); try done.
  - split.
    + intros x. unfold V_indirect. fn_cases; [rewrite length_put32|]; apply (dk_len sb), (V_alloc_ok sb data L); done.
    + intros x Hx. rewrite Hused by done. case_decide; [done|]. by apply (dk_free _ _ D).
  - unfold SLOTS, NINDIRECT in *. lia.
  - apply F.
  - intros j _. by apply slot_set_indirect.
  - intros x Hx Hnb Hni. unfold V_indirect. rewrite fn_lookup_insert_ne by done.
    apply (V_alloc_other sb data L); [lia..|done].
  - unfold V_indirect. rewrite fn_lookup_insert_ne by done. unfold V_alloc. by rewrite fn_lookup_insert.
  - intros x Hx. unfold V_indirect. pose proof (bmap_first sb data L). rewrite fn_lookup_insert_ne by lia.
    by apply (V_alloc_meta sb data L).
Qed.

(** A change that keeps the file's blocks and the used blocks. *)
Lemma file_frame V V' addrs :
  file_ok V addrs ->
  (forall k, (k < SLOTS)%nat -> slot V addrs k <> 0 -> V' (slot V addrs k) = V (slot V addrs k)) ->
  (forall x, 0 <= x < sb_size sb -> used sb V x = true -> used sb V' x = true) ->
  file_ok V' addrs /\ (forall k, slot V' addrs k = slot V addrs k) /\
  forall x, 0 <= x < MAXFILE * Bz -> fbyte V' addrs x = fbyte V addrs x.
Proof.
  intros F Hb Hu. pose proof (first_data_pos sb data L) as Hfd.
  assert (Hs : forall k, slot V' addrs k = slot V addrs k).
  { intros k. unfold slot. destruct (k <=? NDIRECT)%nat; [done|].
    destruct (Z.eqb_spec (default 0 (addrs !! NDIRECT)) 0) as [|Hn]; [done|].
    by rewrite (Hb NDIRECT ltac:(unfold SLOTS, NDIRECT; lia) Hn : V' (default 0 (addrs !! NDIRECT)) = _). }
  split; [|split; [done|]].
  - split; [apply F| |].
    + intros k Hk. rewrite Hs. intros Hn. destruct (fo_good _ _ F k Hk Hn) as [Hr Hus]. split; [done|]. apply Hu; [lia|done].
    + intros j k Hj Hk. rewrite !Hs. by apply (fo_inj _ _ F).
  - intros x Hx. unfold fbyte. rewrite Hs. destruct (Z.eqb_spec (slot V addrs (slot_of (x / Bz))) 0) as [|Hn]; [done|].
    rewrite Hb; [done| |done]. unfold slot_of, SLOTS, NDIRECT, MAXFILE, Bz, BSIZE in *.
    destruct (Z.ltb_spec (x / 512) (Z.of_nat 12)); Z.to_euclidean_division_equations; lia.
Qed.
End File.

(** ** [bmap] *)

Section Bmap.
Context {T : Type} {ops : TxOps T} {ok : T -> nat -> (Z -> blk) -> Prop} {data : Z -> Prop}
  {laws : TxLaws T ok data}.
Context (sb : superblock).
Hypothesis L : layout sb data.

Lemma set_addrs_id (c : nat -> inode) ip : <[ip := set_i_addrs (i_addrs (c ip)) (c ip)]> c = c.
Proof.
  apply functional_extensionality. intros x. unfold insert, fn_insert. case_decide; [|done].
  subst. by destruct (c x).
Qed.

Lemma slot_of_direct bn : 0 <= bn < Z.of_nat NDIRECT -> slot_of bn = Z.to_nat bn.
Proof. intros H. unfold slot_of. by rewrite (proj2 (Z.ltb_lt _ _)) by lia. Qed.
Lemma slot_of_indirect bn :
  Z.of_nat NDIRECT <= bn -> slot_of bn = (13 + Z.to_nat (bn - Z.of_nat NDIRECT))%nat.
Proof.
  intros H. unfold slot_of. rewrite (proj2 (Z.ltb_ge _ _)) by lia. unfold NDIRECT in *. lia.
Qed.

(** The pointer of block [bn], with a block allocated when there was none. *)
Definition mapped (V : Z -> blk) (c : nat -> inode) (ip : nat) (bn : Z) (n : nat) (a : Z) (s : fs T) : Prop :=
  exists t' V' addrs',
    s = FS t' sb (<[ip := set_i_addrs addrs' (c ip)]> c) /\ ok t' n V' /\
    grows sb (fbyte V (i_addrs (c ip))) V (i_addrs (c ip)) V' addrs' /\
    slot V' addrs' (slot_of bn) = a /\ a <> 0.

Lemma set_addrs_twice (c : nat -> inode) ip l l' :
  <[ip := set_i_addrs l' (set_i_addrs l (c ip))]> (<[ip := set_i_addrs l (c ip)]> c) =
  <[ip := set_i_addrs l' (c ip)]> c.
Proof.
  apply functional_extensionality. intros x. unfold insert, fn_insert. by case_decide.
Qed.

Lemma safe_balloc {A} t n V c (k : Z -> M (fs T) A) Q :
  ok t (2 + n) V -> disk_ok sb V ->
  (forall b t', allocated sb V b -> ok t' n (V_alloc sb b V) -> safe (k b) (FS t' sb c) Q) ->
  safe (bind balloc k) (FS t sb c) Q.
Proof.
  intros Ho D Hk.
  apply (safe_bind _ _ _ (fun b s => exists t', s = FS t' sb c /\ allocated sb V b /\ ok t' n (V_alloc sb b V))).
  - apply (balloc_safe sb L t n V c); [done..|]. intros b t' Ha Ho'. by exists t'.
  - intros b s (t' & -> & Ha & Ho'). by apply Hk.
Qed.

Lemma safe_upd_inode {A} t c ip f (k : unit -> M (fs T) A) Q :
  safe (k tt) (FS t sb (<[ip := f (c ip)]> c)) Q -> safe (bind (upd_inode ip f) k) (FS t sb c) Q.
Proof. done. Qed.

Lemma mapped_same t n V c ip bn a :
  ok t n V -> disk_ok sb V -> file_ok sb V (i_addrs (c ip)) ->
  slot V (i_addrs (c ip)) (slot_of bn) = a -> a <> 0 -> mapped V c ip bn n a (FS t sb c).
Proof.
  intros Ho D F Es Hz. exists t, V, (i_addrs (c ip)). rewrite set_addrs_id.
  split; [done|]. split; [done|]. split; [by apply grown_refl|done].
Qed.

(** Using or allocating the block of a pointer of the inode. *)
Lemma inode_pointer t n V c ip k :
  ok t (2 + n) V -> disk_ok sb V -> file_ok sb V (i_addrs (c ip)) -> (k <= NDIRECT)%nat ->
  safe (let addr := default 0 (i_addrs (c ip) !! k) in
        if addr =? 0 then
          let! addr := balloc in
          do! upd_inode ip (fun i => set_i_addrs (<[k := addr]> (i_addrs i)) i) in
          ret addr
        else ret addr) (FS t sb c)
    (fun a s => exists t' V' addrs',
      s = FS t' sb (<[ip := set_i_addrs addrs' (c ip)]> c) /\ ok t' n V' /\
      grows sb (fbyte V (i_addrs (c ip))) V (i_addrs (c ip)) V' addrs' /\
      slot V' addrs' k = a /\ a <> 0).
Proof.
  intros Ho D F Hk. cbv zeta.
  assert (Es : slot V (i_addrs (c ip)) k = default 0 (i_addrs (c ip) !! k)).
  { unfold slot. by rewrite (proj2 (Nat.leb_le _ _)). }
  rewrite <-Es. destruct (Z.eqb_spec (slot V (i_addrs (c ip)) k) 0) as [Hz|Hz].
  - apply (safe_balloc t n V); [done..|]. intros b t' Ha Ho'. apply safe_upd_inode, safe_ret.
    exists t', (V_alloc sb b V), (<[k := b]> (i_addrs (c ip))). split; [done|]. split; [done|].
    split; [by apply (grows_inode sb data L)|]. split; [rewrite (slot_set_inode sb data L) by done; by rewrite decide_True|].
    destruct Ha as [? _]. pose proof (first_data_pos sb data L). lia.
  - apply safe_ret. exists t, V, (i_addrs (c ip)). rewrite set_addrs_id. split; [done|].
    split; [by apply (ok_weaken _ (2 + n)); [lia|]|]. split; [by apply grown_refl|done].
Qed.

Lemma bmap_safe t n V c ip bn :
  ok t (5 + n) V -> disk_ok sb V -> file_ok sb V (i_addrs (c ip)) -> 0 <= bn < MAXFILE ->
  safe (bmap ip bn) (FS t sb c) (mapped V c ip bn n).
Proof.
  intros Ho D F Hbn. unfold bmap. apply safe_gets. cbn [f_icache].
  destruct (Z.ltb_spec bn (Z.of_nat NDIRECT)) as [Hd|Hd].
  - eapply safe_mono.
    + apply (inode_pointer t n V c ip (Z.to_nat bn)); [by apply (ok_weaken _ (5 + n)); [lia|]|done..|lia].
    + intros a s H. unfold mapped. by rewrite slot_of_direct by lia.
  - cbv zeta. rewrite (proj2 (Z.ltb_lt _ _)) by (unfold MAXFILE, NDIRECT, NINDIRECT in *; lia).
    eapply safe_bind; [apply (inode_pointer t (3 + n) V c ip NDIRECT); done|].
    intros a s (t1 & V1 & addrs & -> & Ho1 & G1 & Es & Ha).
    pose proof (gr_file _ _ _ _ _ _ G1) as F1. pose proof (gr_disk _ _ _ _ _ _ G1) as D1.
    assert (Ea : default 0 (addrs !! NDIRECT) = a) by done.
    destruct (ind_good sb V1 addrs F1) as [Hr _]; [by rewrite Ea|]. rewrite Ea in Hr.
    eapply safe_read; [done|by apply (la_data _ _ L)|]. intros t2 Ho2.
    set (q := Z.to_nat (bn - Z.of_nat NDIRECT)).
    assert (Eq : slot V1 addrs (13 + q) = get32 (V1 a) (4 * q)).
    { unfold slot. rewrite (proj2 (Nat.leb_gt _ _)) by (unfold NDIRECT; lia). rewrite Ea.
      destruct (Z.eqb_spec a 0); [done|]. f_equal. lia. }
    rewrite <-Eq. unfold mapped. rewrite slot_of_indirect by done. fold q.
    destruct (Z.eqb_spec (slot V1 addrs (13 + q)) 0) as [Hz|Hz].
    + apply (safe_balloc t2 (1 + n) V1); [done..|]. intros b t3 Hb Ho3.
      eapply safe_bind.
      * eapply (safe_update t3 n _ sb); [done|by apply (la_data _ _ L)|]. intros t4 Ho4.
        instantiate (1 := fun _ s => exists t4, s = FS t4 sb (<[ip:=set_i_addrs addrs (c ip)]> c) /\
          ok t4 n (<[a:=put32 (V_alloc sb b V1 a) (4 * q) b]> (V_alloc sb b V1))). by exists t4.
      * intros [] s (t4 & -> & Ho4). apply safe_ret. eexists t4, _, addrs. split; [done|]. split; [done|].
        assert (Hq : (q < NINDIRECT)%nat) by (unfold q, MAXFILE, NDIRECT, NINDIRECT in *; lia).
        pose proof (grows_indirect sb data L V1 addrs b q D1 F1 Hb Hq ltac:(by rewrite Ea) Hz) as G.
        pose proof (slot_set_indirect sb data L V1 addrs b q (13 + q) D1 F1 Hb Hq ltac:(by rewrite Ea)) as E.
        rewrite decide_True in E by done. unfold V_indirect in G, E. rewrite Ea in G, E. split; [|split; [done|]].
        -- eapply grows_ext; [|by eapply grown_trans; [exact L|exact G1|exact G]].
           intros off Hoff. by apply (gr_byte _ _ _ _ _ _ G1).
        -- destruct Hb as [? _]. pose proof (first_data_pos sb data L). lia.
    + apply safe_ret. exists t2, V1, addrs. split; [done|].
      split; [by apply (ok_weaken _ (3 + n)); [lia|]|]. done.
Qed.
End Bmap.

(** ** Contents: [writei] and [readi] *)

(** The contents with [src] at [off]. *)
Definition overwrite (B : Z -> Z) (off : Z) (src : list Z) (x : Z) : Z :=
  if (off <=? x) && (x <? off + Z.of_nat (length src)) then default 0 (src !! Z.to_nat (x - off)) else B x.

Lemma overwrite_nil B off x : overwrite B off [] x = B x.
Proof.
  unfold overwrite. cbn [length]. destruct (Z.leb_spec off x), (Z.ltb_spec x (off + Z.of_nat 0)); cbn [andb]; try done.
  lia.
Qed.

Lemma overwrite_ext B B' off l x : B x = B' x -> overwrite B off l x = overwrite B' off l x.
Proof. intros E. unfold overwrite. by rewrite E. Qed.

Lemma overwrite_app B off a b x :
  overwrite (overwrite B off a) (off + Z.of_nat (length a)) b x = overwrite B off (a ++ b) x.
Proof.
  unfold overwrite. rewrite length_app.
  destruct (Z.leb_spec off x), (Z.ltb_spec x (off + Z.of_nat (length a))),
    (Z.leb_spec (off + Z.of_nat (length a)) x), (Z.ltb_spec x (off + Z.of_nat (length a) + Z.of_nat (length b))),
    (Z.ltb_spec x (off + Z.of_nat (length a + length b))); simpl; try lia; try done.
  - by rewrite lookup_app_l by lia.
  - rewrite lookup_app_r by lia. f_equal. f_equal. lia.
Qed.

Lemma length_put_bytes o l d :
  0 <= o -> (Z.to_nat o + length l <= length d)%nat -> length (put_bytes o l d) = length d.
Proof. intros Ho Hl. unfold put_bytes. rewrite !length_app, length_take, length_drop. lia. Qed.

Lemma lookup_put_bytes o l d i :
  0 <= o -> (Z.to_nat o + length l <= length d)%nat ->
  put_bytes o l d !! i =
    if (Z.to_nat o <=? i)%nat && (i <? Z.to_nat o + length l)%nat then l !! (i - Z.to_nat o)%nat else d !! i.
Proof.
  intros Ho Hl. unfold put_bytes.
  destruct (Nat.leb_spec (Z.to_nat o) i), (Nat.ltb_spec i (Z.to_nat o + length l)); cbn [andb]; try lia.
  - rewrite lookup_app_r by (rewrite length_take; lia). rewrite length_take, Nat.min_l by lia.
    by rewrite lookup_app_l by lia.
  - rewrite lookup_app_r by (rewrite length_take; lia). rewrite length_take, Nat.min_l by lia.
    rewrite lookup_app_r by lia. rewrite lookup_drop. f_equal. lia.
  - rewrite lookup_app_l by (rewrite length_take; lia). by rewrite lookup_take_lt by lia.
Qed.

(** The bytes of a block of the file, seen at their offsets. *)
Lemma overwrite_block B off l d x :
  0 <= off -> 0 <= x -> off mod Bz + Z.of_nat (length l) <= Bz -> length d = Z.to_nat BSIZE ->
  (x / Bz = off / Bz -> B x = default 0 (d !! Z.to_nat (x mod Bz))) ->
  (if x / Bz =? off / Bz then default 0 (put_bytes (off mod Bz) l d !! Z.to_nat (x mod Bz)) else B x) =
  overwrite B off l x.
Proof.
  intros Ho Hx Hl Hd HB. unfold overwrite. unfold Bz in *. change BSIZE with 512 in *.
  pose proof (Z.mod_pos_bound off 512 ltac:(lia)). pose proof (Z.mod_pos_bound x 512 ltac:(lia)).
  pose proof (Z.div_mod off 512 ltac:(lia)). pose proof (Z.div_mod x 512 ltac:(lia)).
  destruct (Z.eqb_spec (x / 512) (off / 512)) as [E|E].
  - rewrite HB by done. rewrite lookup_put_bytes by lia.
    destruct (Nat.leb_spec (Z.to_nat (off mod 512)) (Z.to_nat (x mod 512))),
      (Nat.ltb_spec (Z.to_nat (x mod 512)) (Z.to_nat (off mod 512) + length l)),
      (Z.leb_spec off x), (Z.ltb_spec x (off + Z.of_nat (length l))); cbn [andb]; try lia; try done.
    f_equal. f_equal. lia.
  - destruct (Z.leb_spec off x), (Z.ltb_spec x (off + Z.of_nat (length l))); cbn [andb]; try done.
    exfalso. apply E. Z.to_euclidean_division_equations. lia.
Qed.

Section Contents.
Context {T : Type} {ops : TxOps T} {ok : T -> nat -> (Z -> blk) -> Prop} {data : Z -> Prop}
  {laws : TxLaws T ok data}.
Context (sb : superblock).
Hypothesis L : layout sb data.

Lemma slot_of_bounds bn : 0 <= bn < MAXFILE -> (slot_of bn < SLOTS)%nat /\ slot_of bn <> NDIRECT.
Proof.
  intros H. unfold slot_of, SLOTS, NDIRECT, MAXFILE in *. destruct (Z.ltb_spec bn (Z.of_nat 12)); lia.
Qed.
Lemma slot_of_inj a b : 0 <= a -> 0 <= b -> slot_of a = slot_of b -> a = b.
Proof.
  intros Ha Hb. unfold slot_of, NDIRECT. destruct (Z.ltb_spec a (Z.of_nat 12)), (Z.ltb_spec b (Z.of_nat 12)); lia.
Qed.
Lemma block_range x : 0 <= x < MAXFILE * Bz -> 0 <= x / Bz < MAXFILE.
Proof.
  intros H. split; [apply Z.div_pos; unfold Bz, BSIZE; lia|].
  apply Z.div_lt_upper_bound; unfold Bz, BSIZE in *; lia.
Qed.

(** Changing the contents of one of the file's blocks. *)
Lemma grows_store V addrs bn d' :
  disk_ok sb V -> file_ok sb V addrs -> 0 <= bn < MAXFILE ->
  let b := slot V addrs (slot_of bn) in
  b <> 0 -> length d' = Z.to_nat BSIZE ->
  (forall k, slot (<[b := d']> V) addrs k = slot V addrs k) /\
  grows sb (fun x => if x / Bz =? bn then default 0 (d' !! Z.to_nat (x mod Bz)) else fbyte V addrs x)
    V addrs (<[b := d']> V) addrs.
Proof.
  intros D F Hbn b Hb Hd. destruct (slot_of_bounds bn Hbn) as [Hk Hnd].
  destruct (fo_good _ _ _ F _ Hk Hb) as [Hr Hu]. fold b in Hr, Hu.
  pose proof (first_data_pos sb data L) as Hfd.
  assert (Hs : forall k, slot (<[b := d']> V) addrs k = slot V addrs k).
  { intros k. unfold slot. destruct (k <=? NDIRECT)%nat; [done|].
    destruct (Z.eqb_spec (default 0 (addrs !! NDIRECT)) 0) as [|Hi]; [done|].
    rewrite fn_lookup_insert_ne; [done|]. intros E. apply Hnd.
    apply (fo_inj _ _ _ F); [done|unfold SLOTS, NDIRECT; lia|done|]. fold b. by rewrite E. }
  assert (Hus : forall x, 0 <= x < sb_size sb -> used sb (<[b := d']> V) x = used sb V x).
  { intros x Hx. unfold used. pose proof (BBLOCK_meta sb data L x Hx). by rewrite fn_lookup_insert_ne by lia. }
  split; [done|]. split.
  - split; [intros x; fn_cases; try done; apply D|]. intros x Hx. rewrite Hus by done. by apply (dk_free _ _ D).
  - split; [apply F| |].
    + intros k Hk'. rewrite Hs. intros Hn. destruct (fo_good _ _ _ F k Hk' Hn) as [? ?].
      split; [done|]. by rewrite Hus by lia.
    + intros j k. rewrite !Hs. apply (fo_inj _ _ _ F).
  - intros k _ _. apply Hs.
  - intros x Hx. unfold fbyte. rewrite !Hs. pose proof (block_range x Hx) as Hxb.
    destruct (Z.eqb_spec (x / Bz) bn) as [->|Hne].
    + fold b. destruct (Z.eqb_spec b 0); [done|]. by rewrite fn_lookup_insert.
    + destruct (Z.eqb_spec (slot V addrs (slot_of (x / Bz))) 0) as [|Hn]; [done|].
      rewrite fn_lookup_insert_ne; [done|]. intros E. apply Hne.
      apply slot_of_inj; [lia..|]. apply (fo_inj _ _ _ F); try done. by apply slot_of_bounds.
  - intros k _ _. by left.
  - intros x Hx Hux Hn. rewrite fn_lookup_insert_ne; [done|]. by apply Hn.
  - intros x Hx. by rewrite Hus.
  - intros x Hx. pose proof (bmap_first sb data L). by rewrite fn_lookup_insert_ne by lia.
Qed.

(** Bytes stored into one block of a file that got its blocks. *)
Lemma grows_write V addrs V1 addrs1 off l :
  grows sb (fbyte V addrs) V addrs V1 addrs1 ->
  0 <= off -> off + Z.of_nat (length l) <= MAXFILE * Bz ->
  off mod Bz + Z.of_nat (length l) <= Bz -> 0 < Z.of_nat (length l) ->
  let b := slot V1 addrs1 (slot_of (off / Bz)) in
  let V2 := <[b := put_bytes (off mod Bz) l (V1 b)]> V1 in
  b <> 0 ->
  length (put_bytes (off mod Bz) l (V1 b)) = Z.to_nat BSIZE /\
  (forall k, slot V2 addrs1 k = slot V1 addrs1 k) /\
  grows sb (overwrite (fbyte V addrs) off l) V addrs V2 addrs1.
Proof.
  intros G1 Hoff Hmax Hl Hpos b V2 Hb0. pose proof (block_range off ltac:(lia)) as Hb.
  pose proof (gr_file _ _ _ _ _ _ G1) as F1. pose proof (gr_disk _ _ _ _ _ _ G1) as D1.
  assert (Hlen : length (put_bytes (off mod Bz) l (V1 b)) = Z.to_nat BSIZE).
  { pose proof (Z.mod_pos_bound off Bz ltac:(done)).
    rewrite length_put_bytes; rewrite ?(dk_len _ _ D1); [done|lia|]. unfold Bz in *. lia. }
  destruct (grows_store V1 addrs1 (off / Bz) (put_bytes (off mod Bz) l (V1 b)) D1 F1 Hb Hb0 Hlen) as [Hs G2].
  split; [done|]. split; [done|].
  eapply grows_ext; [|by eapply grown_trans; [exact L|exact G1|exact G2]].
  intros x Hx. cbv beta. rewrite <-(overwrite_block _ off l (V1 b)).
  - destruct (Z.eqb_spec (x / Bz) (off / Bz)); [done|]. by apply (gr_byte _ _ _ _ _ _ G1).
  - done.
  - lia.
  - done.
  - apply D1.
  - intros E. rewrite <-(gr_byte _ _ _ _ _ _ G1) by done. unfold fbyte. rewrite E. fold b.
    by destruct (Z.eqb_spec b 0).
Qed.

(** The turns of the loops of [readi] and [writei] for [n] bytes at [off]. *)
Definition turns (off n : Z) : nat :=
  if n =? 0 then 0%nat else Z.to_nat ((off mod Bz + n + (Bz - 1)) / Bz).

Lemma turns_step off n :
  0 <= off -> 0 < n ->
  let m := Z.min n (Bz - off mod Bz) in
  turns off n = S (turns (off + m) (n - m)) /\ 0 < m <= n /\ off mod Bz + m <= Bz.
Proof.
  intros Ho Hn m. unfold turns. destruct (Z.eqb_spec n 0); [lia|]. unfold Bz in *. change BSIZE with 512 in *.
  pose proof (Z.mod_pos_bound off 512 ltac:(lia)). split; [|subst m; lia].
  destruct (Z.eqb_spec (n - m) 0).
  - assert (m = n) by lia. Z.to_euclidean_division_equations. subst m. nia.
  - assert (Em : m = 512 - off mod 512) by lia. rewrite Em in *.
    replace ((off + (512 - off mod 512)) mod 512) with 0.
    + rewrite <-Z2Nat.inj_succ by (apply Z.div_pos; lia). f_equal.
      Z.to_euclidean_division_equations. nia.
    + Z.to_euclidean_division_equations. lia.
Qed.

Lemma turns_fuel off n : 0 <= off -> 0 <= n -> (turns off n < io_fuel n)%nat.
Proof.
  intros Ho Hn. unfold turns, io_fuel, Bz. change BSIZE with 512.
  destruct (Z.eqb_spec n 0); Z.to_euclidean_division_equations; lia.
Qed.

(** After the loop of [writei]. *)
Definition wrote (V : Z -> blk) (c : nat -> inode) (ip : nat) (off : Z) (src : list Z) (n : nat)
    (r : Z) (s : fs T) : Prop :=
  exists t' V' addrs',
    r = off + Z.of_nat (length src) /\
    s = FS t' sb (<[ip := set_i_addrs addrs' (c ip)]> c) /\ ok t' n V' /\
    grows sb (overwrite (fbyte V (i_addrs (c ip))) off src) V (i_addrs (c ip)) V' addrs' /\
    forall x, off <= x < off + Z.of_nat (length src) -> slot V' addrs' (slot_of (x / Bz)) <> 0.

Lemma writei_turn t n V c ip off l :
  ok t (6 + n) V -> disk_ok sb V -> file_ok sb V (i_addrs (c ip)) ->
  0 <= off -> off + Z.of_nat (length l) <= MAXFILE * Bz ->
  off mod Bz + Z.of_nat (length l) <= Bz -> 0 < Z.of_nat (length l) ->
  safe (let! b := bmap ip (off / Bz) in on_tx (tx_update b (put_bytes (off mod Bz) l)))
    (FS t sb c) (fun _ => wrote V c ip off l n (off + Z.of_nat (length l))).
Proof.
  intros Ho D F Hoff Hmax Hl Hpos. assert (Hrng : 0 <= off < MAXFILE * Bz) by lia.
  pose proof (block_range off Hrng) as Hb.
  eapply safe_bind; [by apply (bmap_safe sb L t (1 + n) V c ip)|].
  intros b s (t1 & V1 & addrs & -> & Ho1 & G1 & Es & Hb0).
  pose proof (gr_file _ _ _ _ _ _ G1) as F1.
  destruct (slot_of_bounds _ Hb) as [Hk _].
  destruct (fo_good _ _ _ F1 _ Hk) as [Hr _]; [by rewrite Es|]. rewrite Es in Hr.
  eapply safe_update; [done|by apply (la_data _ _ L)|]. intros t2 Ho2.
  destruct (grows_write V (i_addrs (c ip)) V1 addrs off l G1 Hoff Hmax Hl Hpos) as (_ & Hs & G2); [by rewrite Es|].
  rewrite Es in Hs, G2.
  exists t2, (<[b := put_bytes (off mod Bz) l (V1 b)]> V1), addrs. split; [done|]. split; [done|]. split; [done|].
  split; [done|]. intros x Hx. rewrite Hs. replace (x / Bz) with (off / Bz); [by rewrite Es|].
  unfold Bz in *. change BSIZE with 512 in *. Z.to_euclidean_division_equations. lia.
Qed.

Lemma writei_loop_safe fuel : forall t n V c ip off src,
  let k := turns off (Z.of_nat (length src)) in
  ok t (6 * k + n) V -> disk_ok sb V -> file_ok sb V (i_addrs (c ip)) ->
  0 <= off -> off + Z.of_nat (length src) <= MAXFILE * Bz -> (k < fuel)%nat ->
  safe (writei_loop fuel ip off src) (FS t sb c) (wrote V c ip off src n).
Proof.
  induction fuel as [|fuel IH]; intros t n V c ip off src k Ho D F Hoff Hmax Hk; [lia|].
  destruct (decide (src = [])) as [->|Hne].
  - simpl. exists t, V, (i_addrs (c ip)). rewrite set_addrs_id. split; [simpl; lia|]. split; [done|].
    split; [done|]. split; [|simpl; lia].
    eapply grows_ext; [|by apply grown_refl]. intros x _. by rewrite overwrite_nil.
  - assert (Hpos : 0 < Z.of_nat (length src)) by (destruct src; [done|simpl; lia]).
    destruct (turns_step off _ Hoff Hpos) as (Et & Hm & Hfit). fold k in Et.
    set (m := Z.min (Z.of_nat (length src)) (Bz - off mod Bz)) in *.
    set (l := take (Z.to_nat m) src). set (rest := drop (Z.to_nat m) src).
    assert (El : Z.of_nat (length l) = m) by (unfold l; rewrite length_take; lia).
    assert (Er : Z.of_nat (length rest) = Z.of_nat (length src) - m) by (unfold rest; rewrite length_drop; lia).
    assert (Esrc : src = l ++ rest) by (symmetry; apply take_drop).
    assert (Eloop : writei_loop (S fuel) ip off src =
      (do! (let! b := bmap ip (off / Bz) in on_tx (tx_update b (put_bytes (off mod Bz) l))) in
       writei_loop fuel ip (off + m) rest)).
    { destruct src; [done|]. cbn [writei_loop]. apply functional_extensionality. intros s. by rewrite bind_assoc. }
    rewrite Eloop. set (k' := turns (off + m) (Z.of_nat (length src) - m)) in *.
    eapply safe_bind.
    + apply (writei_turn t (6 * k' + n) V c ip off l); try done; try lia.
      replace (6 + (6 * k' + n))%nat with (6 * k + n)%nat by lia. done.
    + intros [] s (t1 & V1 & addrs & _ & -> & Ho1 & G1 & Hs1).
      eapply safe_mono.
      * apply (IH t1 n V1 (<[ip := set_i_addrs addrs (c ip)]> c) ip (off + m) rest).
        -- by rewrite Er.
        -- apply G1.
        -- rewrite fn_lookup_insert. apply G1.
        -- lia.
        -- lia.
        -- rewrite Er. fold k'. lia.
      * intros r s (t2 & V2 & addrs2 & -> & -> & Ho2 & G2 & Hs2).
        rewrite fn_lookup_insert in G2 |- *. cbn [set_i_addrs i_addrs] in G2.
        exists t2, V2, addrs2. split; [rewrite Esrc, length_app; lia|]. split.
        { f_equal. apply set_addrs_twice. }
        split; [done|]. split.
        -- eapply grows_ext; [|by eapply grown_trans; [exact L|exact G1|exact G2]].
           intros x Hx. rewrite Esrc, <-overwrite_app, El.
           by apply overwrite_ext, (gr_byte _ _ _ _ _ _ G1).
        -- intros x Hx. destruct (Z.lt_ge_cases x (off + m)) as [Hlt|Hge]; [|apply Hs2; lia].
           specialize (Hs1 x ltac:(lia)). rewrite (gr_slot _ _ _ _ _ _ G2); [done| |done].
           apply slot_of_bounds, block_range. lia.
Qed.

(** The [n] bytes of the file from [off] on. *)
Definition contents (V : Z -> blk) (addrs : list Z) (off : Z) (n : nat) : list Z :=
  (fun k => fbyte V addrs (off + Z.of_nat k)) <$> seq 0 n.

Lemma contents_app V addrs off m n :
  contents V addrs off (m + n) = contents V addrs off m ++ contents V addrs (off + Z.of_nat m) n.
Proof.
  unfold contents. rewrite seq_app, fmap_app. f_equal. apply list_eq. intros i.
  rewrite !list_lookup_fmap. destruct (decide (i < n)%nat) as [Hi|Hi].
  - rewrite !lookup_seq_lt by done. simpl. f_equal. f_equal. lia.
  - by rewrite !lookup_seq_ge by lia.
Qed.

Lemma get_bytes_contents V addrs off m :
  0 <= off -> 0 <= m -> off mod Bz + m <= Bz -> slot V addrs (slot_of (off / Bz)) <> 0 ->
  length (V (slot V addrs (slot_of (off / Bz)))) = Z.to_nat BSIZE ->
  get_bytes (V (slot V addrs (slot_of (off / Bz)))) (off mod Bz) m = contents V addrs off (Z.to_nat m).
Proof.
  intros Ho Hm Hfit Hs Hl. pose proof (Z.mod_pos_bound off Bz ltac:(done)) as Hb.
  unfold get_bytes, contents. apply list_eq. intros i. rewrite list_lookup_fmap.
  destruct (decide (i < Z.to_nat m)%nat) as [Hi|Hi].
  - rewrite lookup_take_lt, lookup_drop, lookup_seq_lt by done. simpl. unfold fbyte.
    replace ((off + Z.of_nat i) / Bz) with (off / Bz).
    2:{ unfold Bz in *. change BSIZE with 512 in *. Z.to_euclidean_division_equations. lia. }
    destruct (Z.eqb_spec (slot V addrs (slot_of (off / Bz))) 0); [done|].
    replace (Z.to_nat ((off + Z.of_nat i) mod Bz)) with (Z.to_nat (off mod Bz) + i)%nat.
    2:{ unfold Bz in *. change BSIZE with 512 in *. Z.to_euclidean_division_equations. lia. }
    destruct (V _ !! (Z.to_nat (off mod Bz) + i)%nat) eqn:E; [done|].
    apply lookup_ge_None in E. unfold Bz in *. lia.
  - rewrite lookup_take_ge, lookup_seq_ge by lia. done.
Qed.

Lemma bmap_present t n V c ip bn :
  ok t n V -> file_ok sb V (i_addrs (c ip)) -> 0 <= bn < MAXFILE ->
  slot V (i_addrs (c ip)) (slot_of bn) <> 0 ->
  exists t', bmap ip bn (FS t sb c) = Ok (slot V (i_addrs (c ip)) (slot_of bn), FS t' sb c) /\ ok t' n V.
Proof.
  intros Ho F Hbn Hs. unfold bmap, the_inode. erewrite bind_Ok by reflexivity. cbn [f_icache].
  destruct (Z.ltb_spec bn (Z.of_nat NDIRECT)) as [Hd|Hd].
  - rewrite slot_of_direct in * by lia.
    assert (Es : slot V (i_addrs (c ip)) (Z.to_nat bn) = default 0 (i_addrs (c ip) !! Z.to_nat bn)).
    { unfold slot. rewrite (proj2 (Nat.leb_le _ _)); [done|]. unfold NDIRECT in *. lia. }
    cbv zeta. rewrite <-Es. destruct (Z.eqb_spec (slot V (i_addrs (c ip)) (Z.to_nat bn)) 0); [done|]. by exists t.
  - rewrite slot_of_indirect in * by done. set (q := Z.to_nat (bn - Z.of_nat NDIRECT)) in *.
    cbv zeta. rewrite (proj2 (Z.ltb_lt _ _)) by (unfold MAXFILE, NDIRECT, NINDIRECT in *; lia).
    unfold slot in Hs |- *. rewrite (proj2 (Nat.leb_gt _ _)) in Hs |- * by (unfold NDIRECT; lia).
    destruct (Z.eqb_spec (default 0 (i_addrs (c ip) !! NDIRECT)) 0) as [|Hi]; [done|].
    destruct (ind_good sb V _ F Hi) as [Hr _].
    erewrite bind_Ok by reflexivity.
    destruct (tx_read_law t n V _ Ho (la_data _ _ L _ Hr)) as (t' & E & Ho').
    erewrite bind_Ok by (unfold on_tx; cbn [f_tx]; by rewrite E). cbn [f_sb f_icache].
    replace (4 * q)%nat with (4 * (13 + q - 13))%nat by lia.
    destruct (Z.eqb_spec (get32 (V (default 0 (i_addrs (c ip) !! NDIRECT))) (4 * (13 + q - 13))) 0); [done|].
    by exists t'.
Qed.

(** Over blocks the file has already, the loop of [writei] leaves the inode as it is. *)
Lemma writei_loop_inplace fuel : forall t n V c ip off src,
  let k := turns off (Z.of_nat (length src)) in
  ok t (k + n) V -> disk_ok sb V -> file_ok sb V (i_addrs (c ip)) ->
  0 <= off -> off + Z.of_nat (length src) <= MAXFILE * Bz -> (k < fuel)%nat ->
  (forall x, off <= x < off + Z.of_nat (length src) -> slot V (i_addrs (c ip)) (slot_of (x / Bz)) <> 0) ->
  exists r t', writei_loop fuel ip off src (FS t sb c) = Ok (r, FS t' sb c).
Proof.
  induction fuel as [|fuel IH]; intros t n V c ip off src k Ho D F Hoff Hmax Hk Hs; [lia|].
  destruct (decide (src = [])) as [->|Hne]; [by exists off, t|].
  assert (Hpos : 0 < Z.of_nat (length src)) by (destruct src; [done|simpl; lia]).
  destruct (turns_step off _ Hoff Hpos) as (Et & Hm & Hfit). fold k in Et.
  set (m := Z.min (Z.of_nat (length src)) (Bz - off mod Bz)) in *.
  set (l := take (Z.to_nat m) src). set (rest := drop (Z.to_nat m) src).
  assert (Er : Z.of_nat (length rest) = Z.of_nat (length src) - m) by (unfold rest; rewrite length_drop; lia).
  assert (Eloop : writei_loop (S fuel) ip off src =
    (let! b := bmap ip (off / Bz) in do! on_tx (tx_update b (put_bytes (off mod Bz) l)) in
     writei_loop fuel ip (off + m) rest)) by (by destruct src).
  set (k' := turns (off + m) (Z.of_nat (length src) - m)) in *.
  assert (Hbn : 0 <= off / Bz < MAXFILE) by (apply block_range; lia).
  specialize (Hs off ltac:(lia)) as Hs0.
  destruct (bmap_present t _ V c ip (off / Bz) Ho F Hbn Hs0) as (t1 & E1 & Ho1).
  rewrite Eloop, (bind_Ok _ _ _ _ _ E1). set (b := slot V (i_addrs (c ip)) (slot_of (off / Bz))) in *.
  destruct (fo_good _ _ _ F _ (proj1 (slot_of_bounds _ Hbn)) Hs0) as [Hr _]. fold b in Hr.
  assert (Ho1' : ok t1 (S (k' + n)) V) by (replace (S (k' + n)) with (k + n)%nat by lia; done).
  set (d := put_bytes (off mod Bz) l (V b)).
  destruct (tx_update_law t1 _ V b (put_bytes (off mod Bz) l) Ho1' (la_data _ _ L _ Hr)) as (t2 & E2 & Ho2). fold d in Ho2.
  erewrite bind_Ok by (unfold on_tx; cbn [f_tx]; by rewrite E2). cbn [f_sb f_icache].
  assert (Hlen : length d = Z.to_nat BSIZE).
  { pose proof (Z.mod_pos_bound off Bz ltac:(done)). pose proof (dk_len _ _ D b).
    unfold d. rewrite length_put_bytes; [done|lia|]. unfold l. rewrite length_take. unfold Bz in *. lia. }
  destruct (grows_store V (i_addrs (c ip)) (off / Bz) d D F Hbn Hs0 Hlen) as [Hsl G]. fold b in Hsl, G.
  apply (IH t2 n (<[b := d]> V)); try rewrite Er; try fold k'; try apply G; try lia; [done|].
  intros x Hx. rewrite Hsl. apply Hs. lia.
Qed.

(** The blocks of the file up to [size] are there. *)
Definition full (V : Z -> blk) (addrs : list Z) (size : Z) : Prop :=
  forall x, 0 <= x < size -> slot V addrs (slot_of (x / Bz)) <> 0.

Lemma readi_loop_run fuel : forall t n V c ip off len,
  ok t n V -> disk_ok sb V -> file_ok sb V (i_addrs (c ip)) ->
  0 <= off -> 0 <= len -> off + len <= MAXFILE * Bz -> full V (i_addrs (c ip)) (off + len) ->
  (turns off len < fuel)%nat ->
  exists t', readi_loop fuel ip off len (FS t sb c) =
    Ok (contents V (i_addrs (c ip)) off (Z.to_nat len), FS t' sb c) /\ ok t' n V.
Proof.
  induction fuel as [|fuel IH]; intros t n V c ip off len Ho D F Hoff Hlen Hmax Hfull Hk; [lia|].
  cbn [readi_loop]. destruct (Z.eqb_spec len 0) as [->|Hne]; [by exists t|].
  destruct (turns_step off len Hoff ltac:(lia)) as (Et & Hm & Hfit).
  set (m := Z.min len (Bz - off mod Bz)) in *.
  pose proof (block_range off ltac:(lia)) as Hb. pose proof (Hfull off ltac:(lia)) as Hs.
  destruct (bmap_present t n V c ip (off / Bz) Ho F Hb Hs) as (t1 & E1 & Ho1).
  rewrite (bind_Ok _ _ _ _ _ E1).
  destruct (fo_good _ _ _ F (slot_of (off / Bz))) as [Hr _]; [by apply slot_of_bounds|done|].
  destruct (tx_read_law t1 n V _ Ho1 (la_data _ _ L _ Hr)) as (t2 & E2 & Ho2).
  erewrite bind_Ok by (unfold on_tx; cbn [f_tx]; by rewrite E2). cbn [f_sb f_icache]. cbv zeta. fold m.
  destruct (IH t2 n V c ip (off + m) (len - m)) as (t3 & E3 & Ho3); try done; try lia.
  { by replace (off + m + (len - m)) with (off + len) by lia. }
  rewrite (bind_Ok _ _ _ _ _ E3). exists t3. split; [|done]. unfold ret. f_equal. f_equal.
  rewrite get_bytes_contents by (done || lia || apply D).
  replace (Z.to_nat len) with (Z.to_nat m + Z.to_nat (len - m))%nat by lia.
  rewrite contents_app. by rewrite Z2Nat.id by lia.
Qed.
End Contents.
