(* ===== verification/Inodes.v ===== *)
(** * The file system: inodes on disk and whole files

    A dinode in its block and the inode in memory, [iupdate] and [ilock]; and
    what [readi] and [writei] do to a file: its contents, its size, its inode on
    disk, and everything that is not the file's. *)
From S2P Require Import Prelude Sleeplock Ide Bytes Tx Fs FsInv.

(** ** The dinode on disk *)

Lemma get_put_addrs_ne n l : forall d off off',
  (off' + n <= off \/ off + 4 * length l <= off')%nat -> get_le n (put_addrs d off l) off' = get_le n d off'.
Proof.
  induction l as [|a l IH]; intros d off off' Ho; cbn [put_addrs length] in *; [done|].
  rewrite IH by lia. unfold put32. apply get_put_ne. lia.
Qed.

Lemma get_put_addrs l : forall d off k a,
  l !! k = Some a -> (off + 4 * length l <= length d)%nat -> 0 <= a < 2 ^ 32 ->
  get32 (put_addrs d off l) (off + 4 * k) = a.
Proof.
  induction l as [|x l IH]; intros d off k a Hk Hl Ha; [done|]. cbn [put_addrs length] in *.
  destruct k as [|k]; simpl in Hk.
  - injection Hk as ->. rewrite Nat.mul_0_r, Nat.add_0_r. unfold get32. rewrite get_put_addrs_ne by lia.
    fold (get32 (put32 d off a) off). rewrite get32_put32_eq by lia. by apply u32_small.
  - replace (off + 4 * S k)%nat with (off + 4 + 4 * k)%nat by lia.
    apply (IH _ _ _ a); [done| |done]. rewrite length_put32. lia.
Qed.

(** The fields fit the types of [struct dinode]. *)
Definition dinode_fits (i : inode) : Prop :=
  let short z := - 2 ^ 15 <= z < 2 ^ 15 in
  short (i_type i) /\ short (i_major i) /\ short (i_minor i) /\ short (i_nlink i) /\
  0 <= i_size i < 2 ^ 32 /\ length (i_addrs i) = S NDIRECT /\ Forall (fun a => 0 <= a < 2 ^ 32) (i_addrs i).

Lemma short_roundtrip z : - 2 ^ 15 <= z < 2 ^ 15 -> s16 (u16 z) = z.
Proof.
  intros Hz. unfold s16, u16. rewrite Z.mod_mod by lia.
  destruct (Z.ltb_spec (z mod 65536) 32768); Z.to_euclidean_division_equations; lia.
Qed.

(** Loading the fields that [iupdate] stored. *)
Lemma dinode_roundtrip i j off d :
  dinode_fits i -> (off + 64 <= length d)%nat ->
  read_dinode (write_dinode i off d) off j =
  set_i_addrs (i_addrs i) (set_i_size (i_size i) (set_i_nlink (i_nlink i)
    (set_i_minor (i_minor i) (set_i_major (i_major i) (set_i_type (i_type i) j))))).
Proof.
  intros (Ht & Hma & Hmi & Hn & Hs & Hl & Ha) Hd. unfold NDIRECT in Hl.
  assert (E0 : s16 (get16 (write_dinode i off d) off) = i_type i).
  { unfold write_dinode, get16, put16, put32. rewrite get_put_addrs_ne, !(get_put_ne 2) by lia.
    rewrite get_put_eq by lia. by apply short_roundtrip. }
  assert (E1 : s16 (get16 (write_dinode i off d) (off + 2)) = i_major i).
  { unfold write_dinode, get16, put16, put32. rewrite get_put_addrs_ne, (get_put_ne 2 4), !(get_put_ne 2 2 _ (off + 2)) by lia.
    rewrite get_put_eq by (rewrite !length_put_le; lia). by apply short_roundtrip. }
  assert (E2 : s16 (get16 (write_dinode i off d) (off + 4)) = i_minor i).
  { unfold write_dinode, get16, put16, put32. rewrite get_put_addrs_ne, (get_put_ne 2 4), (get_put_ne 2 2 _ (off + 4)) by lia.
    rewrite get_put_eq by (rewrite !length_put_le; lia). by apply short_roundtrip. }
  assert (E3 : s16 (get16 (write_dinode i off d) (off + 6)) = i_nlink i).
  { unfold write_dinode, get16, put16, put32. rewrite get_put_addrs_ne, (get_put_ne 2 4) by lia.
    rewrite get_put_eq by (rewrite !length_put_le; lia). by apply short_roundtrip. }
  assert (E4 : get32 (write_dinode i off d) (off + 8) = i_size i).
  { unfold write_dinode, get32, put16, put32. rewrite get_put_addrs_ne by lia.
    rewrite get_put_eq by (rewrite !length_put_le; lia). by apply u32_small. }
  assert (E5 : get_addrs (write_dinode i off d) off = i_addrs i).
  { unfold get_addrs. apply list_eq. intros k. rewrite list_lookup_fmap.
    destruct (i_addrs i !! k) as [a|] eqn:E.
    - pose proof (lookup_lt_Some _ _ _ E) as Hk. rewrite lookup_seq_lt by (unfold NDIRECT; lia).
      cbn [fmap option_fmap option_map]. f_equal. unfold write_dinode.
      apply get_put_addrs; [done| |by eapply (Forall_lookup_1 _ _ _ _ Ha)].
      unfold put16. rewrite length_put32, !length_put_le. lia.
    - apply lookup_ge_None in E. rewrite lookup_seq_ge by (unfold NDIRECT; lia). done. }
  unfold read_dinode. cbv zeta. by rewrite E0, E1, E2, E3, E4, E5.
Qed.

Lemma lookup_put_addrs_ne l : forall d off k,
  (k < off \/ off + 4 * length l <= k)%nat -> put_addrs d off l !! k = d !! k.
Proof.
  induction l as [|a l IH]; intros d off k Hk; cbn [put_addrs length] in *; [done|].
  rewrite IH by lia. unfold put32. apply lookup_put_le_ne. lia.
Qed.

Lemma lookup_write_dinode_ne i off d k :
  length (i_addrs i) = S NDIRECT -> (k < off \/ off + 64 <= k)%nat -> write_dinode i off d !! k = d !! k.
Proof.
  intros Hl Hk. unfold write_dinode, put16, put32, NDIRECT in *.
  rewrite lookup_put_addrs_ne by lia. by rewrite !lookup_put_le_ne by lia.
Qed.

(** A dinode is given by its 64 bytes. *)
Lemma read_dinode_ext d d' off j :
  (forall k, (off <= k < off + 64)%nat -> d !! k = d' !! k) -> read_dinode d off j = read_dinode d' off j.
Proof.
  intros H. assert (E : forall n f, (f + n <= 64)%nat -> get_le n d (off + f) = get_le n d' (off + f)).
  { intros n f Hf. apply get_le_ext. intros k Hk. apply H. lia. }
  unfold read_dinode, get16, get32. cbv zeta.
  rewrite (E 2%nat 2%nat), (E 2%nat 4%nat), (E 2%nat 6%nat), (E 4%nat 8%nat) by lia.
  pose proof (E 2%nat 0%nat ltac:(lia)) as E0. rewrite Nat.add_0_r in E0. rewrite E0. f_equal.
  unfold get_addrs. apply list_fmap_ext. intros i x Hx. apply lookup_seq in Hx as [-> Hi].
  unfold get32. rewrite <-!Nat.add_assoc. apply E. unfold NDIRECT in Hi. lia.
Qed.

Section Inodes.
Context {T : Type} {ops : TxOps T} {ok : T -> nat -> (Z -> blk) -> Prop} {data : Z -> Prop}
  {laws : TxLaws T ok data}.
Context (sb : superblock).
Hypothesis L : layout sb data.

(** The inode [inum] as [ilock] loads it into [j]. *)
Definition on_disk (V : Z -> blk) (inum : Z) (j : inode) : inode :=
  read_dinode (V (IBLOCK inum sb)) (dinode_off inum) j.

(** The inode [j] with the fields that are on disk taken from [i]. *)
Definition loaded (i j : inode) : inode :=
  set_i_addrs (i_addrs i) (set_i_size (i_size i) (set_i_nlink (i_nlink i)
    (set_i_minor (i_minor i) (set_i_major (i_major i) (set_i_type (i_type i) j))))).
Definition synced (V : Z -> blk) (i : inode) : Prop := forall j, on_disk V (i_inum i) j = loaded i j.

(** The inode stays the one on disk, and the other inodes there stay the same. *)
Definition stored (V : Z -> blk) (i : inode) (V' : Z -> blk) (i' : inode) : Prop :=
  (dinode_fits i -> synced V i -> synced V' i') /\
  forall k j, 0 <= k < sb_ninodes sb -> k <> i_inum i -> on_disk V' k j = on_disk V k j.

Lemma dinode_off_fits inum : (dinode_off inum + 64 <= Z.to_nat BSIZE)%nat.
Proof.
  unfold dinode_off, IPB. change (Z.to_nat BSIZE) with 512%nat.
  pose proof (Z.mod_pos_bound inum 8 ltac:(lia)). lia.
Qed.

Lemma IBLOCK_inj a b :
  0 <= a < sb_ninodes sb -> 0 <= b < sb_ninodes sb -> IBLOCK a sb = IBLOCK b sb ->
  dinode_off a = dinode_off b -> a = b.
Proof.
  intros Ha Hb E Eo. pose proof (IBLOCK_meta sb data L a Ha). pose proof (IBLOCK_meta sb data L b Hb).
  assert (Ei : forall x, 0 <= x < sb_ninodes sb -> IBLOCK x sb = x / IPB + sb_inodestart sb).
  { intros x Hx. unfold IBLOCK. apply u32_small. pose proof (la_inodes _ _ L). pose proof (la_fit _ _ L).
    pose proof (la_size _ _ L). unfold first_data in *.
    assert (0 <= sb_size sb / BPB) by (apply Z.div_pos; unfold BPB; lia).
    assert (0 <= x / IPB <= sb_ninodes sb / IPB) by (split; [apply Z.div_pos|apply Z.div_le_mono]; unfold IPB; lia).
    lia. }
  rewrite !Ei in E by done. unfold dinode_off, IPB in *. Z.to_euclidean_division_equations. lia.
Qed.

(** What storing an inode does to the inodes on disk. *)
Definition put_inode (V : Z -> blk) (i : inode) : Z -> blk :=
  let b := IBLOCK (i_inum i) sb in <[b := write_dinode i (dinode_off (i_inum i)) (V b)]> V.

Lemma put_inode_synced V i : disk_ok sb V -> dinode_fits i -> synced (put_inode V i) i.
Proof.
  intros D Hf j. unfold on_disk, put_inode. rewrite fn_lookup_insert. apply dinode_roundtrip; [done|].
  rewrite (dk_len _ _ D). apply dinode_off_fits.
Qed.

Lemma put_inode_other V i k j :
  0 <= i_inum i < sb_ninodes sb -> 0 <= k < sb_ninodes sb -> length (i_addrs i) = S NDIRECT ->
  k <> i_inum i -> on_disk (put_inode V i) k j = on_disk V k j.
Proof.
  intros Hi Hk Hl Hne. unfold on_disk, put_inode. destruct (decide (IBLOCK k sb = IBLOCK (i_inum i) sb)) as [Eb|Eb].
  - rewrite Eb, fn_lookup_insert. apply read_dinode_ext. intros x Hx. apply lookup_write_dinode_ne; [done|].
    assert (dinode_off k <> dinode_off (i_inum i)) by (intros Eo; by apply Hne, IBLOCK_inj).
    unfold dinode_off in *. lia.
  - by rewrite fn_lookup_insert_ne by done.
Qed.

(** [iupdate] stores the inode and leaves every other one as it is. *)
Lemma iupdate_stores t n V c ip :
  ok t (S n) V -> disk_ok sb V -> 0 <= i_inum (c ip) < sb_ninodes sb -> dinode_fits (c ip) ->
  exists t' V', iupdate ip (FS t sb c) = Ok (tt, FS t' sb c) /\ ok t' n V' /\
    (forall j, on_disk V' (i_inum (c ip)) j =
      set_i_addrs (i_addrs (c ip)) (set_i_size (i_size (c ip)) (set_i_nlink (i_nlink (c ip))
        (set_i_minor (i_minor (c ip)) (set_i_major (i_major (c ip)) (set_i_type (i_type (c ip)) j)))))) /\
    (forall k j, 0 <= k < sb_ninodes sb -> k <> i_inum (c ip) -> on_disk V' k j = on_disk V k j) /\
    (forall b, b <> IBLOCK (i_inum (c ip)) sb -> V' b = V b).
Proof.
  intros Ho D Hi Hf. set (b := IBLOCK (i_inum (c ip)) sb).
  destruct (tx_update_law t n V b (write_dinode (c ip) (dinode_off (i_inum (c ip)))) Ho) as (t' & E & Ho').
  { by apply (IBLOCK_data sb data L). }
  eexists t', _. split; [|split; [exact Ho'|]].
  { unfold iupdate, the_sb, the_inode, gets. do 2 erewrite bind_Ok by reflexivity.
    unfold on_tx. cbn [f_tx f_sb f_icache]. fold b. by rewrite E. }
  split; [by apply put_inode_synced|]. split; [intros k j Hk Hne; apply put_inode_other; [done..|apply Hf|done]|].
  intros x Hx. by rewrite fn_lookup_insert_ne by done.
Qed.

(** [ilock] of an inode that is not in memory yet. *)
Lemma ilock_loads pid t n V c ip lk :
  ok t n V -> 0 <= i_inum (c ip) < sb_ninodes sb -> 1 <= i_ref (c ip) -> i_valid (c ip) = false ->
  acquiresleep pid (i_lock (c ip)) = Some lk -> i_type (on_disk V (i_inum (c ip)) (c ip)) <> 0 ->
  exists t', ilock pid ip (FS t sb c) =
    Ok (tt, FS t' sb (<[ip := set_i_valid true (on_disk V (i_inum (c ip)) (set_i_lock lk (c ip)))]> c)) /\
    ok t' n V.
Proof.
  intros Ho Hi Hr Hv Hlk Hty. unfold ilock, the_inode, gets. erewrite bind_Ok by reflexivity. cbn [f_icache].
  rewrite (proj2 (Z.ltb_ge _ _)), Hlk by lia.
  unfold upd_inode, modify. erewrite bind_Ok by reflexivity. cbn [f_tx f_sb f_icache]. rewrite Hv.
  unfold the_sb, gets. erewrite bind_Ok by reflexivity. cbn [f_sb].
  destruct (tx_read_law t n V _ Ho (IBLOCK_data sb data L _ Hi)) as (t' & E & Ho').
  erewrite bind_Ok by (unfold on_tx; cbn [f_tx]; by rewrite E). cbn [f_sb f_icache].
  do 2 erewrite bind_Ok by reflexivity. cbn [f_tx f_sb f_icache]. erewrite bind_Ok by reflexivity. cbn [f_icache].
  rewrite !fn_lookup_insert, !fn_insert_insert.
  assert (Et : i_type (set_i_valid true (read_dinode (V (IBLOCK (i_inum (c ip)) sb)) (dinode_off (i_inum (c ip)))
    (set_i_lock lk (c ip)))) = i_type (on_disk V (i_inum (c ip)) (c ip))) by done.
  rewrite Et. destruct (Z.eqb_spec (i_type (on_disk V (i_inum (c ip)) (c ip))) 0); [done|]. by exists t'.
Qed.
End Inodes.

(** ** Files *)

Section Files.
Context {T : Type} {ops : TxOps T} {ok : T -> nat -> (Z -> blk) -> Prop} {data : Z -> Prop}
  {laws : TxLaws T ok data}.
Context (sb : superblock).
Hypothesis L : layout sb data.
Variable devsw : Z -> option (devops T).

(** A file whose blocks are all there, and no larger than a file can be. *)
Record inode_ok (V : Z -> blk) (i : inode) : Prop := {
  io_file : file_ok sb V (i_addrs i);
  io_size : 0 <= i_size i <= MAXFILE * Bz;
  io_full : full V (i_addrs i) (i_size i);
}.

(** What [readi] returns for [n] bytes at [off]. *)
Definition read_spec (V : Z -> blk) (i : inode) (off n : Z) : option (list Z) :=
  if i_size i <? off then None
  else Some (contents V (i_addrs i) off (Z.to_nat (Z.min n (i_size i - off)))).

Lemma readi_run t n V c ip off len :
  ok t n V -> disk_ok sb V -> inode_ok V (c ip) -> i_type (c ip) <> T_DEV ->
  0 <= off -> 0 <= len -> off + len < 2 ^ 32 ->
  exists t', readi devsw ip off len (FS t sb c) = Ok (read_spec V (c ip) off len, FS t' sb c) /\ ok t' n V.
Proof.
  intros Ho D I Hty Hoff Hlen Hov. pose proof (io_size _ _ I) as Hsz.
  unfold readi, the_inode. erewrite bind_Ok by reflexivity. cbn [f_icache].
  destruct (Z.eqb_spec (i_type (c ip)) T_DEV); [done|]. unfold read_spec.
  rewrite (u32_small (off + len)) by lia. rewrite (proj2 (Z.ltb_ge (off + len) off)), orb_false_r by lia.
  destruct (Z.ltb_spec (i_size (c ip)) off) as [|Hle]; [by exists t|]. cbv zeta.
  set (m := if i_size (c ip) <? off + len then i_size (c ip) - off else len).
  assert (Em : m = Z.min len (i_size (c ip) - off)).
  { unfold m. destruct (Z.ltb_spec (i_size (c ip)) (off + len)); lia. }
  clearbody m. subst m. set (m := Z.min len (i_size (c ip) - off)).
  destruct (readi_loop_run sb L (io_fuel m) t n V c ip off m) as (t' & E & Ho'); try done; try lia.
  - apply I.
  - intros x Hx. apply (io_full _ _ I). lia.
  - apply turns_fuel; lia.
  - rewrite (bind_Ok _ _ _ _ _ E). by exists t'.
Qed.

(** After [writei] of [src] at [off]: the contents, the size, and what of the
    data blocks is not changed. *)
Definition changed (V : Z -> blk) (i : inode) (off : Z) (src : list Z) (V' : Z -> blk) (i' : inode) : Prop :=
  disk_ok sb V' /\ inode_ok V' i' /\
  i' = set_i_size (Z.max (i_size i) (off + Z.of_nat (length src))) (set_i_addrs (i_addrs i') i) /\
  (forall x, 0 <= x < MAXFILE * Bz -> fbyte V' (i_addrs i') x = overwrite (fbyte V (i_addrs i)) off src x) /\
  (forall b, first_data sb <= b < sb_size sb -> used sb V b = true ->
    used sb V' b = true /\ ((forall k, (k < SLOTS)%nat -> slot V (i_addrs i) k <> b) -> V' b = V b)).

Definition written (V : Z -> blk) (c : nat -> inode) (ip : nat) (off : Z) (src : list Z) (n : nat)
    (s : fs T) : Prop :=
  exists t' V' i',
    s = FS t' sb (<[ip := i']> c) /\ ok t' n V' /\ changed V (c ip) off src V' i' /\ stored sb V (c ip) V' i'.

(** A change outside the bitmap and the data blocks. *)
Lemma file_ok_meta V addrs b d :
  sb_inodestart sb <= b < sb_bmapstart sb -> disk_ok sb V -> file_ok sb V addrs -> length d = Z.to_nat BSIZE ->
  disk_ok sb (<[b := d]> V) /\ file_ok sb (<[b := d]> V) addrs /\
  (forall k, slot (<[b := d]> V) addrs k = slot V addrs k) /\
  (forall x, first_data sb <= x -> (<[b := d]> V) x = V x) /\
  (forall x, 0 <= x < sb_size sb -> used sb (<[b := d]> V) x = used sb V x).
Proof.
  intros Hb D F Hd.
  assert (Hv : forall x, first_data sb <= x -> (<[b := d]> V) x = V x).
  { intros x Hx. rewrite fn_lookup_insert_ne; [done|]. unfold first_data in Hx.
    pose proof (la_size _ _ L). assert (0 <= sb_size sb / BPB) by (apply Z.div_pos; unfold BPB; lia). lia. }
  assert (Hs : forall k, slot (<[b := d]> V) addrs k = slot V addrs k).
  { intros k. unfold slot. destruct (k <=? NDIRECT)%nat; [done|].
    destruct (Z.eqb_spec (default 0 (addrs !! NDIRECT)) 0) as [|Hi]; [done|].
    destruct (ind_good sb V addrs F Hi) as [Hr _]. by rewrite Hv by lia. }
  assert (Hu : forall x, 0 <= x < sb_size sb -> used sb (<[b := d]> V) x = used sb V x).
  { intros x Hx. unfold used. pose proof (BBLOCK_meta sb data L x Hx). by rewrite fn_lookup_insert_ne by lia. }
  split; [|split; [|done]].
  - split; [intros x; fn_cases; try done; apply D|]. intros x Hx. rewrite Hu by done. by apply (dk_free _ _ D).
  - pose proof (first_data_pos sb data L). split; [apply F| |].
    + intros k Hk. rewrite Hs. intros Hn. destruct (fo_good _ _ _ F k Hk Hn) as [? ?].
      split; [done|]. by rewrite Hu by lia.
    + intros j k. rewrite !Hs. apply (fo_inj _ _ _ F).
Qed.

Lemma length_put_addrs l : forall d off, length (put_addrs d off l) = length d.
Proof. induction l as [|a l IH]; intros d off; simpl; [done|]. by rewrite IH, length_put32. Qed.

Lemma length_write_dinode i off d : length (write_dinode i off d) = length d.
Proof. unfold write_dinode, put16. by rewrite length_put_addrs, length_put32, !length_put_le. Qed.

Lemma write_inode_ok V V' (c : nat -> inode) ip addrs off src size :
  inode_ok V (c ip) -> 0 <= off <= i_size (c ip) -> off + Z.of_nat (length src) <= MAXFILE * Bz ->
  grows sb (overwrite (fbyte V (i_addrs (c ip))) off src) V (i_addrs (c ip)) V' addrs ->
  (forall x, off <= x < off + Z.of_nat (length src) -> slot V' addrs (slot_of (x / Bz)) <> 0) ->
  size = Z.max (i_size (c ip)) (off + Z.of_nat (length src)) ->
  inode_ok V' (set_i_size size (set_i_addrs addrs (c ip))).
Proof.
  intros I Hoff Hmax G Hs ->. pose proof (io_size _ _ I). split; cbn [i_addrs i_size set_i_size set_i_addrs].
  - apply G.
  - lia.
  - intros x Hx. destruct (Z.lt_ge_cases x (i_size (c ip))) as [Hlt|Hge]; [|apply Hs; lia].
    pose proof (io_full _ _ I x ltac:(lia)) as Hf. rewrite (gr_slot _ _ _ _ _ _ G); [done| |done].
    apply slot_of_bounds, block_range. lia.
Qed.

(** The loop left the file as it should be, with the size still to be set. *)
Lemma written_size V V' (c : nat -> inode) ip addrs off src :
  inode_ok V (c ip) -> 0 <= off <= i_size (c ip) -> off + Z.of_nat (length src) <= MAXFILE * Bz ->
  grows sb (overwrite (fbyte V (i_addrs (c ip))) off src) V (i_addrs (c ip)) V' addrs ->
  (forall x, off <= x < off + Z.of_nat (length src) -> slot V' addrs (slot_of (x / Bz)) <> 0) ->
  changed V (c ip) off src V'
    (set_i_size (Z.max (i_size (c ip)) (off + Z.of_nat (length src))) (set_i_addrs addrs (c ip))).
Proof.
  intros I Hoff Hmax G Hs. split; [apply G|]. split; [by eapply write_inode_ok|]. split; [done|]. split; [apply G|].
  intros b Hb Hu. pose proof (first_data_pos sb data L). split; [apply (gr_used _ _ _ _ _ _ G); [lia|done]|].
  by apply (gr_frame _ _ _ _ _ _ G).
Qed.

(** The blocks of a file have numbers that fit an inode. *)
Lemma file_addrs_fit V addrs : file_ok sb V addrs -> Forall (fun a => 0 <= a < 2 ^ 32) addrs.
Proof.
  intros F. apply Forall_lookup_2. intros k a Hk. pose proof (lookup_lt_Some _ _ _ Hk) as Hlt.
  rewrite (fo_len _ _ _ F) in Hlt. destruct (Z.eqb_spec a 0) as [|Hn]; [lia|].
  assert (Es : slot V addrs k = a).
  { unfold slot. rewrite (proj2 (Nat.leb_le _ _)) by lia. by rewrite Hk. }
  destruct (fo_good _ _ _ F k) as [Hr _]; [unfold SLOTS, NDIRECT, NINDIRECT in *; lia|by rewrite Es|].
  rewrite Es in Hr. pose proof (la_size _ _ L). pose proof (first_data_pos sb data L). lia.
Qed.

(** What the inode blocks keep, the inodes on disk keep. *)
Lemma stored_same V V' i :
  0 <= i_inum i < sb_ninodes sb -> (forall b, b < sb_bmapstart sb -> V' b = V b) -> stored sb V i V' i.
Proof.
  intros Hi Hm.
  assert (E : forall k j, 0 <= k < sb_ninodes sb -> on_disk sb V' k j = on_disk sb V k j).
  { intros k j Hk. pose proof (IBLOCK_meta sb data L k Hk). unfold on_disk. by rewrite Hm by lia. }
  split; [|by intros; apply E]. intros _ Hs j. by rewrite E.
Qed.

(** Writing the inode does not change the file, and the inode is on disk then. *)
Lemma iupdate_written t V V' c ip i' off src n :
  0 <= i_inum (c ip) < sb_ninodes sb -> ok t (S n) V' -> changed V (c ip) off src V' i' ->
  (forall b, b < sb_bmapstart sb -> V' b = V b) ->
  safe (iupdate ip) (FS t sb (<[ip := i']> c)) (fun _ => written V c ip off src n).
Proof.
  intros Hi Ho (D & I & Ei & Hb & Hf) Hmeta. unfold iupdate.
  apply safe_gets, safe_gets. cbn [f_sb f_icache]. rewrite fn_lookup_insert.
  assert (Hin : i_inum i' = i_inum (c ip)) by by rewrite Ei. rewrite Hin.
  eapply safe_update; [done|by apply (IBLOCK_data sb data L)|]. intros t' Ho'.
  pose proof (IBLOCK_meta sb data L _ Hi) as Hm.
  destruct (file_ok_meta V' (i_addrs i') (IBLOCK (i_inum (c ip)) sb)
    (write_dinode i' (dinode_off (i_inum (c ip))) (V' (IBLOCK (i_inum (c ip)) sb))) Hm D (io_file _ _ I))
    as (D' & F' & Hs & Hv & Hu); [rewrite length_write_dinode; apply D|].
  eexists t', _, i'. split; [done|]. split; [done|]. split; [split; [done|]; split|].
  { split; [done|apply I|]. intros x Hx. rewrite Hs. by apply (io_full _ _ I). }
  - split; [done|]. pose proof (first_data_pos sb data L) as Hfd. split.
    + intros x Hx. rewrite <-Hb by done. unfold fbyte. rewrite Hs.
      destruct (Z.eqb_spec (slot V' (i_addrs i') (slot_of (x / Bz))) 0) as [|Hn]; [done|].
      destruct (fo_good _ _ _ (io_file _ _ I) (slot_of (x / Bz))) as [Hr _];
        [by apply slot_of_bounds, block_range|done|]. by rewrite Hv by lia.
    + intros b Hbr Hub. destruct (Hf b Hbr Hub) as [H1 H2]. rewrite Hu, Hv by lia. done.
  - destruct (stored_same V V' (c ip) Hi Hmeta) as [_ Hother]. split.
    + intros (Ht & Hma & Hmi & Hn & _ & _ & _) _. rewrite <-Hin. apply put_inode_synced; [done|].
      pose proof (io_size _ _ I). repeat split; try (rewrite Ei; cbn; lia).
      * lia.
      * unfold MAXFILE, NDIRECT, NINDIRECT, Bz, BSIZE in *. lia.
      * apply (fo_len _ _ _ (io_file _ _ I)).
      * by apply (file_addrs_fit V'), I.
    + intros k j Hk Hne. rewrite <-Hother by done. rewrite <-Hin in *. apply (put_inode_other (data := data)); [done..| |done].
      apply (fo_len _ _ _ (io_file _ _ I)).
Qed.

Lemma writei_run t n V c ip off src :
  let len := Z.of_nat (length src) in
  ok t (6 * turns off len + S n) V -> disk_ok sb V -> inode_ok V (c ip) -> i_type (c ip) <> T_DEV ->
  0 <= i_inum (c ip) < sb_ninodes sb -> 0 <= off -> off + len < 2 ^ 32 ->
  safe (writei devsw ip src off) (FS t sb c) (fun r s =>
    if (off <=? i_size (c ip)) && (off + len <=? MAXFILE * Bz)
    then r = Some len /\ written V c ip off src n s
    else r = None /\ s = FS t sb c).
Proof.
  intros len Ho D I Hty Hin Hoff Hov. unfold writei. fold len. cbv zeta. apply safe_gets. cbn [f_icache].
  destruct (Z.eqb_spec (i_type (c ip)) T_DEV); [done|]. rewrite (u32_small (off + len)) by lia.
  rewrite (proj2 (Z.ltb_ge (off + len) off)), orb_false_r by lia. rewrite (Z.ltb_antisym off).
  destruct (Z.leb_spec off (i_size (c ip))) as [Hle|]; [|done]. rewrite Z.ltb_antisym.
  destruct (Z.leb_spec (off + len) (MAXFILE * Bz)) as [Hmax|]; [|done]. cbn [andb negb].
  eapply safe_bind.
  - apply safe_and with (R := fun _ s => off + len <= i_size (c ip) -> f_icache s = c).
    + apply (writei_loop_safe sb L (io_fuel len) t (S n) V c ip off src); try done; [apply I|].
      apply turns_fuel; lia.
    + intros r s Er Hg.
      destruct (writei_loop_inplace sb L (io_fuel len) t 0 V c ip off src) as (r' & t' & E'); try done.
      * apply (ok_weaken _ (6 * turns off len + S n)); [fold len; lia|done].
      * apply I.
      * apply turns_fuel; lia.
      * intros x Hx. apply (io_full _ _ I). lia.
      * rewrite E' in Er. by injection Er as <- <-.
  - intros r s [(t1 & V1 & addrs & -> & -> & Ho1 & G & Hs) Hin']. fold len in Hs |- *.
    apply safe_gets. cbn [f_icache]. rewrite fn_lookup_insert. cbn [i_size set_i_addrs].
    pose proof (written_size V V1 c ip addrs off src I (conj Hoff Hle) Hmax G Hs) as W. fold len in W.
    assert (Egrow : (0 <? len) && (i_size (c ip) <? off + len) = (i_size (c ip) <? off + len)).
    { destruct (Z.ltb_spec 0 len), (Z.ltb_spec (i_size (c ip)) (off + len)); try done. lia. }
    rewrite Egrow. eapply (safe_bind _ _ _ (fun _ => written V c ip off src n)); [|by intros [] s Hw].
    destruct (Z.ltb_spec (i_size (c ip)) (off + len)) as [Hg|Hg].
    + apply safe_upd_inode. rewrite Z.max_r in W by lia.
      rewrite fn_lookup_insert, fn_insert_insert. eapply iupdate_written; [done..|apply G].
    + apply safe_ret. rewrite Z.max_l in W by lia.
      assert (Ei : set_i_addrs addrs (c ip) = c ip).
      { pose proof (f_equal (fun g => g ip) (Hin' Hg)) as Ei. cbn [f_icache] in Ei. by rewrite fn_lookup_insert in Ei. }
      rewrite Ei in W |- *. replace (set_i_size (i_size (c ip)) (c ip)) with (c ip) in W by (by destruct (c ip)).
      exists t1, V1, (c ip). split; [done|]. split; [by apply tx_weaken|]. split; [done|].
      apply stored_same; [done|apply G].
Qed.

Lemma contents_overwrite V' addrs B off src :
  (forall x, 0 <= x < MAXFILE * Bz -> fbyte V' addrs x = overwrite B off src x) ->
  0 <= off -> off + Z.of_nat (length src) <= MAXFILE * Bz ->
  contents V' addrs off (length src) = src.
Proof.
  intros Hb Hoff Hmax. unfold contents. apply list_eq. intros i. rewrite list_lookup_fmap.
  destruct (decide (i < length src)%nat) as [Hi|Hi].
  - rewrite lookup_seq_lt by done. cbn [fmap option_fmap option_map].
    rewrite Hb by lia. unfold overwrite.
    rewrite (proj2 (Z.leb_le _ _)), (proj2 (Z.ltb_lt _ _)) by lia. cbn [andb].
    replace (Z.to_nat (off + Z.of_nat (0 + i) - off)) with i by lia.
    destruct (src !! i) eqn:E; [done|]. apply lookup_ge_None in E. lia.
  - rewrite lookup_seq_ge by lia. symmetry. apply lookup_ge_None. lia.
Qed.
End Files.
