(* ===== verification/Files.v ===== *)
(** * Files, directories, inodes and paths

    What the operations of fs.c promise to their callers: files whose contents
    [writei] changes and [readi] returns, directories as maps from names to
    inode numbers, inodes that survive on disk, an inode cache with one entry
    for an inode, and paths split into names; proved from the laws of
    transactions, so for the log over the buffer cache. *)
From S2P Require Import Prelude Sleeplock Ide Bytes Tx Fs FsInv Inodes.

(** ** Directories *)

Section Dirs.
Context {T : Type} {ops : TxOps T} {ok : T -> nat -> (Z -> blk) -> Prop} {data : Z -> Prop}
  {laws : TxLaws T ok data}.
Context (sb : superblock).
Hypothesis L : layout sb data.
Variable devsw : Z -> option (devops T).

(** Entry [k] of a directory. *)
Definition dirent_at (V : Z -> blk) (i : inode) (k : nat) : list Z :=
  contents V (i_addrs i) (16 * Z.of_nat k) 16.
(** The entry is in use and has the name. *)
Definition hit (name de : list Z) : bool := negb (de_inum de =? 0) && (namecmp name (de_name de) =? 0).
(** The first such entry of [n] from [k] on. *)
Fixpoint find_entry (V : Z -> blk) (i : inode) (name : list Z) (k n : nat) : option nat :=
  match n with
  | O => None
  | S n => if hit name (dirent_at V i k) then Some k else find_entry V i name (S k) n
  end.
Definition n_entries (i : inode) : nat := Z.to_nat (i_size i / 16).

(** A directory as a map from names to inode numbers. *)
Definition entry (V : Z -> blk) (i : inode) (name : list Z) : option Z :=
  (fun k => de_inum (dirent_at V i k)) <$> find_entry V i name 0 (n_entries i).

Record dir_ok (V : Z -> blk) (i : inode) : Prop := {
  do_inode : inode_ok sb V i;
  do_type : i_type i = T_DIR;
  do_size : i_size i mod 16 = 0;
}.

Lemma length_file_bytes V addrs off n : length (contents V addrs off n) = n.
Proof using Type. unfold contents. by rewrite length_fmap, length_seq. Qed.

Lemma size_entries V i : dir_ok V i -> i_size i = 16 * Z.of_nat (n_entries i) /\ i_size i < 2 ^ 31.
Proof using Type.
  clear devsw. intros [I _ Hs]. pose proof (io_size _ _ _ I) as Hz. unfold n_entries, MAXFILE, Bz, BSIZE in *.
  Z.to_euclidean_division_equations. lia.
Qed.

(** Reading one entry. *)
Lemma read_dirent t n V c dp k :
  ok t n V -> disk_ok sb V -> dir_ok V (c dp) -> (k < n_entries (c dp))%nat ->
  exists t', readi devsw dp (16 * Z.of_nat k) 16 (FS t sb c) = Ok (Some (dirent_at V (c dp) k), FS t' sb c) /\ ok t' n V.
Proof.
  intros Ho D I Hk. destruct (size_entries _ _ I) as [Es Hlt].
  destruct (readi_run sb L devsw t n V c dp (16 * Z.of_nat k) 16) as (t' & E & Ho'); try done; try lia.
  - apply I.
  - by rewrite (do_type _ _ I).
  - exists t'. split; [|done]. rewrite E. unfold read_spec. rewrite (proj2 (Z.ltb_ge _ _)) by lia.
    rewrite Z.min_l by lia. done.
Qed.

Lemma dirlookup_loop_run fuel : forall t n V c dp name k,
  ok t n V -> disk_ok sb V -> dir_ok V (c dp) -> (k <= n_entries (c dp))%nat ->
  (n_entries (c dp) - k < fuel)%nat ->
  exists t', ok t' n V /\
    dirlookup_loop devsw fuel dp name (16 * Z.of_nat k) (FS t sb c) =
    match find_entry V (c dp) name k (n_entries (c dp) - k) with
    | None => Ok (None, FS t' sb c)
    | Some j =>
        (let! ip := iget (de_inum (dirent_at V (c dp) j)) in ret (Some (ip, 16 * Z.of_nat j))) (FS t' sb c)
    end.
Proof.
  induction fuel as [|fuel IH]; intros t n V c dp name k Ho D I Hk Hf; [lia|].
  destruct (size_entries _ _ I) as [Es Hlt]. cbn [dirlookup_loop].
  unfold the_inode, gets. erewrite bind_Ok by reflexivity. cbn [f_icache].
  destruct (Z.ltb_spec (16 * Z.of_nat k) (i_size (c dp))) as [Hlt'|Hge].
  2:{ replace (n_entries (c dp) - k)%nat with 0%nat by lia. simpl. by exists t. }
  destruct (read_dirent t n V c dp k) as (t1 & E1 & Ho1); try done; [lia|].
  rewrite (bind_Ok _ _ _ _ _ E1). unfold dirent_at at 1. rewrite length_file_bytes. cbn [Z.eqb negb].
  replace (n_entries (c dp) - k)%nat with (S (n_entries (c dp) - S k)) by lia. cbn [find_entry]. unfold hit.
  destruct (IH t1 n V c dp name (S k)) as (t2 & Ho2 & E2); try done; try lia.
  assert (En : u32 (16 * Z.of_nat k + 16) = 16 * Z.of_nat (S k)) by (rewrite u32_small; lia).
  change (negb (Z.of_nat 16 =? 16)) with false. cbv iota.
  destruct (de_inum (dirent_at V (c dp) k) =? 0); cbn [negb andb].
  - rewrite En. by exists t2.
  - destruct (namecmp name (de_name (dirent_at V (c dp) k)) =? 0); [by exists t1|]. rewrite En. by exists t2.
Qed.

Lemma dirlookup_run t n V c dp name :
  ok t n V -> disk_ok sb V -> dir_ok V (c dp) ->
  exists t', ok t' n V /\
    dirlookup devsw dp name (FS t sb c) =
    match find_entry V (c dp) name 0 (n_entries (c dp)) with
    | None => Ok (None, FS t' sb c)
    | Some j =>
        (let! ip := iget (de_inum (dirent_at V (c dp) j)) in ret (Some (ip, 16 * Z.of_nat j))) (FS t' sb c)
    end.
Proof.
  intros Ho D I. unfold dirlookup, the_inode, gets. erewrite bind_Ok by reflexivity. cbn [f_icache].
  rewrite (do_type _ _ I). rewrite Z.eqb_refl. cbn [negb].
  destruct (dirlookup_loop_run (dir_fuel (i_size (c dp))) t n V c dp name 0) as (t' & Ho' & E); try done.
  - lia.
  - destruct (size_entries _ _ I). pose proof (io_size _ _ _ (do_inode _ _ I)).
    unfold dir_fuel, n_entries. Z.to_euclidean_division_equations. lia.
  - exists t'. split; [done|]. rewrite Nat.sub_0_r in E. exact E.
Qed.

(** The slot [dirlink] uses: the first free entry, or the end. *)
Fixpoint free_entry (V : Z -> blk) (i : inode) (k n : nat) : nat :=
  match n with
  | O => k
  | S n => if de_inum (dirent_at V i k) =? 0 then k else free_entry V i (S k) n
  end.

Lemma free_entry_spec V i n : forall k,
  (k <= free_entry V i k n <= k + n)%nat /\
  ((free_entry V i k n < k + n)%nat -> de_inum (dirent_at V i (free_entry V i k n)) = 0).
Proof using Type.
  induction n as [|n IH]; intros k; simpl; [lia|].
  destruct (Z.eqb_spec (de_inum (dirent_at V i k)) 0) as [E|E]; [split; [lia|done]|].
  destruct (IH (S k)) as [H1 H2]. split; [lia|]. intros H. apply H2. lia.
Qed.

Lemma dirlink_loop_run fuel : forall t n V c dp k,
  ok t n V -> disk_ok sb V -> dir_ok V (c dp) -> (k <= n_entries (c dp))%nat ->
  (n_entries (c dp) - k < fuel)%nat ->
  exists t', ok t' n V /\
    dirlink_loop devsw fuel dp (16 * Z.of_nat k) (FS t sb c) =
    Ok (16 * Z.of_nat (free_entry V (c dp) k (n_entries (c dp) - k)), FS t' sb c).
Proof.
  induction fuel as [|fuel IH]; intros t n V c dp k Ho D I Hk Hf; [lia|].
  destruct (size_entries _ _ I) as [Es Hlt]. cbn [dirlink_loop].
  unfold the_inode, gets. erewrite bind_Ok by reflexivity. cbn [f_icache].
  destruct (Z.ltb_spec (16 * Z.of_nat k) (i_size (c dp))) as [Hlt'|Hge].
  2:{ replace (n_entries (c dp) - k)%nat with 0%nat by lia. by exists t. }
  destruct (read_dirent t n V c dp k) as (t1 & E1 & Ho1); try done; [lia|].
  rewrite (bind_Ok _ _ _ _ _ E1). unfold dirent_at at 1. rewrite length_file_bytes.
  replace (n_entries (c dp) - k)%nat with (S (n_entries (c dp) - S k)) by lia. cbn [free_entry].
  change (negb (Z.of_nat 16 =? 16)) with false. cbv iota.
  destruct (de_inum (dirent_at V (c dp) k) =? 0); [by exists t1|].
  replace (16 * Z.of_nat k + 16) with (16 * Z.of_nat (S k)) by lia.
  apply IH; try done; lia.
Qed.

Lemma find_entry_Some V i name n : forall k j,
  find_entry V i name k n = Some j <->
  (k <= j < k + n)%nat /\ hit name (dirent_at V i j) = true /\
  forall x, (k <= x < j)%nat -> hit name (dirent_at V i x) = false.
Proof using Type.
  induction n as [|n IH]; intros k j; cbn [find_entry]; [split; [done|lia]|].
  destruct (hit name (dirent_at V i k)) eqn:E.
  - split; [intros [= <-]; split; [lia|]; split; [done|lia]|]. intros (Hj & _ & Hb).
    destruct (decide (k = j)) as [->|]; [done|]. by rewrite Hb in E by lia.
  - rewrite IH. split; intros (Hj & Hh & Hb).
    + split; [lia|]. split; [done|]. intros x Hx. destruct (decide (x = k)) as [->|]; [done|]. apply Hb. lia.
    + assert (k <> j) by congruence. split; [lia|]. split; [done|]. intros x Hx. apply Hb. lia.
Qed.

Lemma find_entry_None V i name n : forall k,
  find_entry V i name k n = None <-> forall x, (k <= x < k + n)%nat -> hit name (dirent_at V i x) = false.
Proof using Type.
  induction n as [|n IH]; intros k; cbn [find_entry]; [split; [lia|done]|].
  destruct (hit name (dirent_at V i k)) eqn:E.
  - split; [done|]. intros H. by rewrite H in E by lia.
  - rewrite IH. split; intros H x Hx; [|apply H; lia].
    destruct (decide (x = k)) as [->|]; [done|]. apply H. lia.
Qed.

(** *** Names *)

Lemma namecmp_take n : forall s t, strncmp_bytes n (take n s) t = strncmp_bytes n s t.
Proof using Type.
  induction n as [|n IH]; intros s t; [done|]. destruct s as [|a s]; [done|]. cbn [take strncmp_bytes hd tail].
  by rewrite IH.
Qed.

Lemma strncmp_strncpy_bytes n : forall s t,
  Forall (fun z => z <> 0) s -> Forall (fun z => z <> 0) t ->
  (strncmp_bytes n s (strncpy_bytes n t) =? 0) = bool_decide (take n s = take n t).
Proof using Type.
  induction n as [|n IH]; intros s t Hs Ht; [done|]. cbn [strncmp_bytes strncpy_bytes].
  destruct t as [|y t]; cbn [hd].
  - cbn [Z.eqb hd]. destruct s as [|x s]; [done|]. cbn [hd take]. apply Forall_cons in Hs as [Hx _].
    rewrite bool_decide_eq_false_2 by done. destruct (Z.eqb_spec x 0); [done|]. simpl. apply Z.eqb_neq. lia.
  - apply Forall_cons in Ht as [Hy Ht]. destruct (Z.eqb_spec y 0); [done|]. cbn [hd tail].
    destruct s as [|x s]; cbn [hd tail take].
    + rewrite bool_decide_eq_false_2 by done. simpl. apply Z.eqb_neq. lia.
    + apply Forall_cons in Hs as [Hx Hs]. destruct (Z.eqb_spec x 0); [done|]. cbn [negb andb].
      destruct (Z.eqb_spec x y) as [->|Hne].
      * rewrite IH by done. apply bool_decide_ext. split; [by intros ->|by intros [=]].
      * rewrite bool_decide_eq_false_2 by congruence. apply Z.eqb_neq. lia.
Qed.

Lemma length_strncpy_bytes n : forall s, length (strncpy_bytes n s) = n.
Proof using Type.
  induction n as [|n IH]; intros s; [done|]. cbn [strncpy_bytes]. destruct (hd 0 s =? 0); simpl.
  - by rewrite length_replicate.
  - by rewrite IH.
Qed.

Lemma mk_dirent_fields inum name :
  length (mk_dirent inum name) = 16%nat /\ de_inum (mk_dirent inum name) = u16 inum /\
  de_name (mk_dirent inum name) = strncpy_bytes DIRSIZ name.
Proof using Type.
  unfold mk_dirent, de_inum, de_name. assert (Hl : length (put16 [0; 0] 0 inum) = 2%nat) by done.
  split; [|split].
  - rewrite length_app, length_strncpy_bytes, Hl. done.
  - unfold get16. rewrite (get_le_ext 2 _ (put16 [0; 0] 0 inum)).
    + by apply (get_put_eq 2 [0; 0] 0 inum).
    + intros k Hk. apply lookup_app_l. rewrite Hl. lia.
  - by rewrite drop_app_length' by done.
Qed.

(** *** [dirlink] *)

(** The entries after the new one is written at the free place. *)
Lemma entries_written V V' i i' inum name :
  dir_ok V i -> dir_ok V' i' -> i_size i + 16 <= MAXFILE * Bz ->
  let k := free_entry V i 0 (n_entries i) in
  i_size i' = Z.max (i_size i) (16 * Z.of_nat k + 16) ->
  (forall x, 0 <= x < MAXFILE * Bz ->
    fbyte V' (i_addrs i') x = overwrite (fbyte V (i_addrs i)) (16 * Z.of_nat k) (mk_dirent inum name) x) ->
  n_entries i' = Nat.max (n_entries i) (S k) /\
  forall j, (j < n_entries i')%nat ->
    dirent_at V' i' j = if decide (j = k) then mk_dirent inum name else dirent_at V i j.
Proof using Type.
  intros I I' Hmax k Hsz Hb. destruct (size_entries _ _ I) as [Es _]. destruct (size_entries _ _ I') as [Es' _].
  destruct (free_entry_spec V i (n_entries i) 0) as [Hk _]. fold k in Hk.
  destruct (mk_dirent_fields inum name) as (Hl & _ & _).
  split; [lia|]. intros j Hj. unfold dirent_at. case_decide as Dj.
  - subst j. rewrite <-Hl at 1. eapply contents_overwrite; [exact Hb|lia|]. rewrite Hl. lia.
  - unfold contents. apply list_fmap_ext. intros x y Hy. apply lookup_seq in Hy as [-> Hx].
    rewrite Hb by lia. unfold overwrite. rewrite Hl.
    destruct (Z.leb_spec (16 * Z.of_nat k) (16 * Z.of_nat j + Z.of_nat (0 + x))),
      (Z.ltb_spec (16 * Z.of_nat j + Z.of_nat (0 + x)) (16 * Z.of_nat k + Z.of_nat 16)); cbn [andb]; try done.
    lia.
Qed.

(** Where an entry matches a name. *)
Lemma hit_dirent inum name name' :
  0 < inum < 65536 -> Forall (fun z => z <> 0) name -> Forall (fun z => z <> 0) name' ->
  hit name' (mk_dirent inum name) = bool_decide (take DIRSIZ name' = take DIRSIZ name).
Proof using Type.
  intros Hi Hz Hz'. destruct (mk_dirent_fields inum name) as (_ & Ei & Ename).
  unfold u16 in Ei. rewrite Z.mod_small in Ei by lia.
  unfold hit. rewrite Ei, Ename. destruct (Z.eqb_spec inum 0); [lia|]. cbn [negb andb]. unfold namecmp.
  by apply strncmp_strncpy_bytes.
Qed.

(** The map of the directory after the write. *)
Lemma entry_written V V' i i' inum name :
  let k := free_entry V i 0 (n_entries i) in
  n_entries i' = Nat.max (n_entries i) (S k) ->
  (forall j, (j < n_entries i')%nat ->
    dirent_at V' i' j = if decide (j = k) then mk_dirent inum name else dirent_at V i j) ->
  0 < inum < 65536 -> Forall (fun z => z <> 0) name -> find_entry V i name 0 (n_entries i) = None ->
  forall name', Forall (fun z => z <> 0) name' ->
  entry V' i' name' = if decide (take DIRSIZ name' = take DIRSIZ name) then Some inum else entry V i name'.
Proof using Type.
  intros k Hn He Hi Hz Hnone name' Hz'. destruct (free_entry_spec V i (n_entries i) 0) as [Hk Hfree].
  fold k in Hk, Hfree. destruct (mk_dirent_fields inum name) as (_ & Ei & Ename).
  unfold u16 in Ei. rewrite Z.mod_small in Ei by lia.
  pose proof (hit_dirent inum name name' Hi Hz Hz') as Hnew.
  unfold entry. case_decide as Dn.
  - assert (find_entry V' i' name' 0 (n_entries i') = Some k) as ->.
    + apply find_entry_Some. split; [lia|]. split.
      * rewrite He, decide_True by lia. rewrite Hnew. by apply bool_decide_eq_true_2.
      * intros x Hx. rewrite He, decide_False by lia. rewrite find_entry_None in Hnone.
        rewrite <-(Hnone x) by lia. unfold hit, namecmp. by rewrite <-namecmp_take, Dn, namecmp_take.
    + simpl. rewrite He, decide_True by lia. by rewrite Ei.
  - rewrite bool_decide_eq_false_2 in Hnew by done.
    destruct (find_entry V i name' 0 (n_entries i)) as [j|] eqn:Ej.
    + apply find_entry_Some in Ej as (Hj & Hh & Hb).
      assert (j <> k).
      { intros ->. unfold hit in Hh. rewrite Hfree in Hh by lia. done. }
      assert (find_entry V' i' name' 0 (n_entries i') = Some j) as ->.
      * apply find_entry_Some. split; [lia|]. rewrite He, decide_False by lia. split; [done|].
        intros x Hx. rewrite He by lia. case_decide; [done|]. by apply Hb.
      * simpl. by rewrite He, decide_False by lia.
    + rewrite find_entry_None in Ej.
      assert (find_entry V' i' name' 0 (n_entries i') = None) as ->; [|done].
      apply find_entry_None. intros x Hx. rewrite He by lia. case_decide; [done|]. apply Ej. lia.
Qed.
End Dirs.

(** ** The inode cache *)

(** Entry [ip] is in use for inode [inum]. *)
Definition holds (c : nat -> inode) (ip : nat) (inum : Z) : Prop :=
  0 < i_ref (c ip) /\ i_dev (c ip) = FSDEV /\ i_inum (c ip) = inum.

(** Counts are not negative, and an inode is in the cache once. *)
Record icache_ok (c : nat -> inode) : Prop := {
  ic_ref : forall ip, (ip < NINODE)%nat -> 0 <= i_ref (c ip);
  ic_once : forall ip jp inum, (ip < NINODE)%nat -> (jp < NINODE)%nat ->
    holds c ip inum -> holds c jp inum -> ip = jp;
}.

Lemma iget_scan_inl inum c n : forall ip e r,
  iget_scan inum c ip n e = inl r -> (ip <= r < ip + n)%nat /\ holds c r inum.
Proof.
  induction n as [|n IH]; intros ip e r; cbn [iget_scan]; [done|].
  destruct ((0 <? i_ref (c ip)) && (i_dev (c ip) =? FSDEV) && (i_inum (c ip) =? inum)) eqn:E.
  - intros [= <-]. apply andb_true_iff in E as [[E1 E2]%andb_true_iff E3].
    split; [lia|]. split; [by apply Z.ltb_lt|]. split; by apply Z.eqb_eq.
  - intros [Hr Hh]%IH. split; [lia|done].
Qed.

Lemma iget_scan_inr inum c n : forall ip e r,
  iget_scan inum c ip n e = inr r ->
  (forall j, (ip <= j < ip + n)%nat -> ~ holds c j inum) /\
  match r with
  | Some k => e = Some k \/ ((ip <= k < ip + n)%nat /\ i_ref (c k) = 0)
  | None => e = None /\ forall j, (ip <= j < ip + n)%nat -> i_ref (c j) <> 0
  end.
Proof.
  induction n as [|n IH]; intros ip e r; cbn [iget_scan].
  - intros [= <-]. split; [lia|]. destruct e; [by left|]. split; [done|lia].
  - destruct ((0 <? i_ref (c ip)) && (i_dev (c ip) =? FSDEV) && (i_inum (c ip) =? inum)) eqn:E; [done|].
    intros [Hno Hr]%IH. split.
    + intros j Hj. destruct (decide (j = ip)) as [->|]; [|apply Hno; lia].
      intros (H1 & H2 & H3). rewrite (proj2 (Z.ltb_lt _ _) H1), (proj2 (Z.eqb_eq _ _) H2), (proj2 (Z.eqb_eq _ _) H3) in E. done.
    + destruct (Z.eqb_spec (i_ref (c ip)) 0) as [E0|E0], e as [e|], r as [k|].
      all: try (destruct Hr as [Hr|[Hr1 Hr2]]; [by left|right; split; [lia|done]]).
      all: try (by destruct Hr).
      * destruct Hr as [[= <-]|[Hr1 Hr2]]; right; [split; [lia|done]|split; [lia|done]].
      * destruct Hr as [_ Hr]. split; [done|]. intros j Hj. destruct (decide (j = ip)) as [->|]; [done|]. apply Hr. lia.
Qed.

(** What [iget] does to the cache. *)
Definition got (c : nat -> inode) (inum : Z) (ip : nat) (c' : nat -> inode) : Prop :=
  (ip < NINODE)%nat /\ holds c' ip inum /\ (forall j, j <> ip -> c' j = c j) /\
  (c' ip = set_i_ref (i_ref (c ip) + 1) (c ip) /\ holds c ip inum \/
   i_ref (c ip) = 0 /\ i_ref (c' ip) = 1 /\ i_valid (c' ip) = false /\
     forall j, (j < NINODE)%nat -> ~ holds c j inum).

Lemma iget_run {T} (t : T) sb c inum :
  icache_ok c ->
  match iget inum (FS t sb c) with
  | Ok (ip, s') => exists c', s' = FS t sb c' /\ icache_ok c' /\ got c inum ip c'
  | Panic msg => msg = "iget: no inodes" /\ forall j, (j < NINODE)%nat -> i_ref (c j) <> 0 /\ ~ holds c j inum
  | _ => False
  end.
Proof.
  intros [Hr Ho]. unfold iget, get. erewrite bind_Ok by reflexivity. cbn [f_icache].
  destruct (iget_scan inum c 0 NINODE None) as [ip|[ip|]] eqn:E.
  - apply iget_scan_inl in E as [Hip Hh]. unfold upd_inode, modify. erewrite bind_Ok by reflexivity.
    cbn [f_tx f_sb f_icache ret]. eexists. split; [done|].
    assert (Hh' : forall j k, holds (<[ip := set_i_ref (i_ref (c ip) + 1) (c ip)]> c) j k <-> holds c j k).
    { intros j k. unfold holds. fn_case; [|done]. cbn [i_ref i_dev i_inum set_i_ref]. destruct Hh as (? & _). split; intros (? & ? & ?); (split; [lia|done]). }
    split; [split|].
    + intros j Hj. fn_case; [|by apply Hr]. cbn [i_ref set_i_ref]. specialize (Hr j Hj). lia.
    + intros a b k Ha Hb. rewrite !Hh'. by apply Ho.
    + split; [lia|]. split; [by apply Hh'|]. split; [intros j Hj; by rewrite fn_lookup_insert_ne by done|].
      left. by rewrite fn_lookup_insert.
  - apply iget_scan_inr in E as [Hno [|[Hip H0]]]; [done|]. unfold upd_inode, modify.
    erewrite bind_Ok by reflexivity. cbn [f_tx f_sb f_icache ret]. eexists. split; [done|].
    set (i := set_i_valid false _).
    assert (Hnew : holds (<[ip := i]> c) ip inum) by (unfold holds; by rewrite fn_lookup_insert).
    assert (Hother : forall j, j <> ip -> (<[ip := i]> c) j = c j) by (intros; by rewrite fn_lookup_insert_ne).
    assert (Hold : forall j k, j <> ip -> holds (<[ip := i]> c) j k <-> holds c j k).
    { intros j k Hj. unfold holds. by rewrite Hother. }
    split; [split|].
    + intros j Hj. fn_case; [done|]. by apply Hr.
    + intros a b k Ha Hb Hka Hkb. destruct (decide (a = ip)) as [->|Hna], (decide (b = ip)) as [->|Hnb]; try done.
      * destruct Hka as (_ & _ & Ek), Hnew as (_ & _ & En). rewrite En in Ek. subst k.
        apply Hold in Hkb; [|done]. by destruct (Hno b ltac:(lia)).
      * destruct Hkb as (_ & _ & Ek), Hnew as (_ & _ & En). rewrite En in Ek. subst k.
        apply Hold in Hka; [|done]. by destruct (Hno a ltac:(lia)).
      * apply (Ho a b k); try done; by apply Hold.
    + split; [lia|]. split; [done|]. split; [done|]. right. rewrite fn_lookup_insert.
      split; [done|]. split; [done|]. split; [done|]. intros j Hj. apply Hno. lia.
  - apply iget_scan_inr in E as [Hno [_ Hall]]. split; [done|]. intros j Hj. split; [apply Hall; lia|apply Hno; lia].
Qed.

(** ** Paths *)

(** The segments between the slashes of a path. *)
Fixpoint segments (path : list Z) : list (list Z) :=
  match path with
  | [] => [[]]
  | c :: path' =>
      if c =? SLASH then [] :: segments path'
      else match segments path' with
           | s :: l => (c :: s) :: l
           | [] => [[c]]
           end
  end.
(** The names in a path, cut to the length of a name. *)
Definition components (path : list Z) : list (list Z) :=
  take DIRSIZ <$> filter (fun s => s <> []) (segments path).

(** The names that the loop of [namex] takes from a path. *)
Fixpoint elements (n : nat) (path : list Z) : list (list Z) :=
  match n with
  | O => []
  | S n =>
      match skipelem path with
      | None => []
      | Some (name, path) => name :: elements n path
      end
  end.

Lemma skip_slashes_spec path :
  filter (fun s => s <> []) (segments (skip_slashes path)) = filter (fun s => s <> []) (segments path) /\
  (length (skip_slashes path) <= length path)%nat /\ hd 0 (skip_slashes path) <> SLASH.
Proof.
  induction path as [|c path (IH1 & IH2 & IH3)]; [done|]. cbn [skip_slashes].
  destruct (Z.eqb_spec c SLASH) as [->|Hc].
  - split; [|split; [simpl; lia|done]]. rewrite IH1. done.
  - split; [done|]. split; [done|done].
Qed.

Lemma path_elem_spec path : forall e rest,
  path_elem path = (e, rest) ->
  (exists l, segments path = e :: l /\
    filter (fun s => s <> []) l = filter (fun s => s <> []) (segments rest)) /\
  length path = (length e + length rest)%nat.
Proof.
  induction path as [|c path IH]; intros e rest; cbn [path_elem segments].
  - intros [= <- <-]. split; [|done]. by exists [].
  - destruct (Z.eqb_spec c SLASH) as [->|Hc].
    + intros [= <- <-]. split; [|done]. eexists. split; [done|]. done.
    + destruct (path_elem path) as [e' r'] eqn:E. intros [= <- <-].
      destruct (IH _ _ eq_refl) as ((l & -> & Hl) & Hlen). split; [by exists l|]. simpl. lia.
Qed.

Lemma skipelem_spec path :
  match skipelem path with
  | None => components path = []
  | Some (name, rest) => components path = name :: components rest /\ (length rest < length path)%nat
  end.
Proof.
  unfold skipelem. destruct (skip_slashes_spec path) as (E & Hlen & Hhd).
  destruct (skip_slashes path) as [|c p] eqn:Es.
  - unfold components. by rewrite <-E.
  - destruct (path_elem (c :: p)) as [e rest] eqn:Ep.
    destruct (path_elem_spec _ _ _ Ep) as ((l & Hs & Hl) & Hpl).
    destruct (skip_slashes_spec rest) as (E' & Hlen' & _). unfold components.
    cbn [path_elem hd] in Ep, Hhd. destruct (Z.eqb_spec c SLASH); [done|].
    destruct (path_elem p) as [e' r']. injection Ep as <- <-. split.
    + rewrite <-E, Hs, filter_cons_True by done. rewrite fmap_cons, Hl, E'. done.
    + simpl in *. lia.
Qed.

Lemma elements_components n : forall path, (length path < n)%nat -> elements n path = components path.
Proof.
  induction n as [|n IH]; intros path Hn; [lia|]. cbn [elements].
  pose proof (skipelem_spec path) as H. destruct (skipelem path) as [[name rest]|]; [|done].
  destruct H as [-> Hr]. f_equal. apply IH. lia.
Qed.

(** ** Blocks in memory

    The interface of transactions has an instance that keeps the blocks in a
    function; the disk below has room for files. *)
Module Demo.
#[local] Instance mem_tx : TxOps (Z -> blk) := {
  tx_read b := gets (fun V => V b);
  tx_update b f := modify (fun V => <[b := f (V b)]> V);
}.
Definition mem_ok (t : Z -> blk) (n : nat) (V : Z -> blk) : Prop := t = V.
#[local] Instance mem_laws : TxLaws (Z -> blk) mem_ok (fun _ => True).
Proof.
  split.
  - intros t n V b -> _. by exists V.
  - intros t n V b f -> _. by eexists.
  - done.
Qed.

(** 100 blocks: 16 inodes from block 2 on, the bitmap in block 6, then data. *)
Definition sb : superblock := Superblock 100 93 16 0 2 2 6.
Definition zeros : blk := replicate (Z.to_nat BSIZE) 0.
Definition disk : Z -> blk := <[6 := <[0%nat := 127]> zeros]> (fun _ => zeros).

Lemma sb_layout : layout sb (fun _ => True).
Proof. by split; repeat split. Qed.

Lemma disk_is_ok : disk_ok sb disk.
Proof.
  split.
  - intros b. unfold disk. fn_cases; unfold zeros; by rewrite ?length_insert, length_replicate.
  - intros b Hb Hu. change (first_data sb) with 7. destruct (Z.lt_ge_cases b 7) as [Hlt|]; [|done].
    exfalso. change (sb_size sb) with 100 in Hb.
    assert (b = 0 \/ b = 1 \/ b = 2 \/ b = 3 \/ b = 4 \/ b = 5 \/ b = 6)
      as [->|[->|[->|[->|[->|[->| ->]]]]]] by lia; vm_compute in Hu; discriminate.
Qed.

(** An empty file and an empty directory. *)
Definition icache : nat -> inode := fun ip =>
  match ip with
  | O => Inode FSDEV 2 1 initsleeplock true T_FILE 0 0 1 0 (replicate 13 0)
  | 1%nat => Inode FSDEV 1 1 initsleeplock true T_DIR 0 0 1 0 (replicate 13 0)
  | _ => inode0
  end.
(** The file again, in an entry that is not loaded. *)
Definition reopened : nat -> inode :=
  <[2%nat := Inode FSDEV 2 1 initsleeplock false 0 0 0 0 0 (replicate 13 0)]> icache.

Lemma empty_ok i : i_size i = 0 -> i_addrs i = replicate 13 0 -> inode_ok sb disk i.
Proof.
  intros Es Ea. assert (Hs : forall k, slot disk (i_addrs i) k = 0).
  { intros k. rewrite Ea. unfold slot. destruct (Nat.leb_spec k NDIRECT); [apply default_replicate0|done]. }
  split.
  - split; [by rewrite Ea|intros k _; by rewrite Hs|intros j k _ _; by rewrite Hs].
  - rewrite Es. unfold MAXFILE, Bz, BSIZE. lia.
  - intros x Hx. lia.
Qed.
End Demo.

(** [balloc] returns the first free block, marked as used and zeroed, with
    every other block of the data area as it was; it panics exactly when no
    block is free. *)
Theorem balloc_correct {T} {ops : TxOps T} {ok : T -> nat -> (Z -> blk) -> Prop} {data}
    {laws : TxLaws T ok data} sb (t : T) (n : nat) V c :
  layout sb data -> disk_ok sb V -> ok t (2 + n)%nat V ->
  match balloc (FS t sb c) with
  | Ok (b, s') => exists t' V',
      s' = FS t' sb c /\ ok t' n V' /\ disk_ok sb V' /\
      first_data sb <= b < sb_size sb /\ used sb V b = false /\ V' b = replicate (Z.to_nat BSIZE) 0 /\
      (forall x, 0 <= x < b -> used sb V x = true) /\
      (forall x, 0 <= x < sb_size sb -> used sb V' x = if decide (x = b) then true else used sb V x) /\
      (forall x, first_data sb <= x -> x <> b -> V' x = V x)
  | Panic msg => msg = "balloc: out of blocks" /\ forall x, 0 <= x < sb_size sb -> used sb V x = true
  | _ => False
  end.
Proof.
  intros L D Ho. pose proof (balloc_run sb L t n V c D Ho) as H.
  destruct (balloc _) as [[b s']| | |]; try done. destruct H as (t' & -> & (Hb & Hu & Hf) & Ho').
  pose proof (first_data_pos sb data L). exists t', (V_alloc sb b V). split; [done|]. split; [done|].
  split; [by apply (V_alloc_ok sb data L)|]. split; [done|]. split; [done|].
  split; [unfold V_alloc; by rewrite fn_lookup_insert|]. split; [done|].
  split; [intros x Hx; by apply (V_alloc_used sb data L)|].
  intros x Hx Hne. apply (V_alloc_other sb data L); [lia..|done].
Qed.

Lemma balloc_correct_witness :
  exists t' V', balloc (ops := Demo.mem_tx) (FS Demo.disk Demo.sb Demo.icache) = Ok (7, FS t' Demo.sb Demo.icache) /\
    used Demo.sb V' 7 = true /\ Demo.mem_ok t' 0 V'.
Proof.
  pose proof (balloc_correct (laws := Demo.mem_laws) Demo.sb Demo.disk 0 Demo.disk Demo.icache
    Demo.sb_layout Demo.disk_is_ok eq_refl) as H.
  assert (E : exists t', balloc (ops := Demo.mem_tx) (FS Demo.disk Demo.sb Demo.icache) = Ok (7, FS t' Demo.sb Demo.icache))
    by (eexists; reflexivity).
  destruct E as (t0 & E). rewrite E in H. destruct H as (t' & V' & Es & Ho & _ & _ & _ & _ & _ & Hu & _).
  exists t0, V'. injection Es as ->. split; [exact E|]. split; [|exact Ho].
  rewrite Hu by (vm_compute; split; congruence). reflexivity.
Defined.

(** C4: [writei] of [src] at [off], for a file, returns the number of bytes and
    changes the file's contents exactly in [[off, off+len)], its size to the
    larger of the old one and [off+len], and no used block that is not the
    file's; it fails, with nothing changed, exactly when [off] is beyond the end
    or the file would be too large.  The only panic is that of a full disk.  The
    transaction needs six updates for each block touched and one for the
    inode. *)
Theorem writei_correct {T} {ops : TxOps T} {ok : T -> nat -> (Z -> blk) -> Prop} {data}
    {laws : TxLaws T ok data} sb devsw (t : T) (n : nat) V c ip off src :
  let len := Z.of_nat (length src) in
  layout sb data -> ok t (6 * turns off len + S n)%nat V -> disk_ok sb V -> inode_ok sb V (c ip) ->
  i_type (c ip) <> T_DEV -> 0 <= i_inum (c ip) < sb_ninodes sb -> 0 <= off -> off + len < 2 ^ 32 ->
  safe (writei devsw ip src off) (FS t sb c) (fun r s =>
    if (off <=? i_size (c ip)) && (off + len <=? MAXFILE * Bz)
    then r = Some len /\ written (ok := ok) sb V c ip off src n s
    else r = None /\ s = FS t sb c).
Proof. intros len L. by apply writei_run. Qed.

Lemma writei_correct_witness :
  safe (writei (ops := Demo.mem_tx) (fun _ => None) 0 (replicate 700 5) 0) (FS Demo.disk Demo.sb Demo.icache)
    (fun r s => r = Some 700 /\
      written (ok := Demo.mem_ok) Demo.sb Demo.disk Demo.icache 0 0 (replicate 700 5) 0 s).
Proof.
  apply (writei_correct (laws := Demo.mem_laws) Demo.sb (fun _ => None) Demo.disk 0 Demo.disk Demo.icache 0 0
    (replicate 700 5) Demo.sb_layout eq_refl Demo.disk_is_ok); [by apply Demo.empty_ok|done|done|lia|done].
Defined.

(** What [writei] wrote, [readi] reads back. *)
Theorem write_read_roundtrip {T} {ops : TxOps T} {ok : T -> nat -> (Z -> blk) -> Prop} {data}
    {laws : TxLaws T ok data} sb devsw (t : T) (n : nat) V c ip off src :
  let len := Z.of_nat (length src) in
  layout sb data -> ok t (6 * turns off len + S n)%nat V -> disk_ok sb V -> inode_ok sb V (c ip) ->
  i_type (c ip) <> T_DEV -> 0 <= i_inum (c ip) < sb_ninodes sb ->
  0 <= off <= i_size (c ip) -> off + len <= MAXFILE * Bz ->
  safe (do! writei devsw ip src off in readi devsw ip off len) (FS t sb c) (fun r _ => r = Some src).
Proof.
  intros len L Ho D I Hty Hin Hoff Hmax.
  assert (Hov : off + len < 2 ^ 32) by (unfold MAXFILE, Bz, BSIZE in Hmax; lia).
  eapply safe_bind; [apply (writei_run sb L devsw t n V c ip off src); done || lia|].
  intros r s Hw. cbv beta in Hw. fold len in Hw.
  rewrite (proj2 (Z.leb_le off _)), (proj2 (Z.leb_le (off + len) _)) in Hw by lia.
  destruct Hw as (_ & t' & V' & i' & -> & Ho' & (D' & I' & Ei & Hb & _) & _).
  destruct (readi_run sb L devsw t' n V' (<[ip := i']> c) ip off len) as (t2 & E & _); try done; try lia.
  - by rewrite fn_lookup_insert.
  - rewrite fn_lookup_insert, Ei. done.
  - unfold safe. rewrite E. rewrite fn_lookup_insert. unfold read_spec.
    assert (Esz : i_size i' = Z.max (i_size (c ip)) (off + len)) by (rewrite Ei; done). rewrite Esz.
    rewrite (proj2 (Z.ltb_ge _ _)), Z.min_l by lia. f_equal.
    unfold len. rewrite Nat2Z.id. eapply contents_overwrite; [exact Hb|lia|done].
Qed.

Lemma write_read_roundtrip_witness :
  safe (do! writei (ops := Demo.mem_tx) (fun _ => None) 0 [104; 105] 0 in readi (ops := Demo.mem_tx) (fun _ => None) 0 0 2)
    (FS Demo.disk Demo.sb Demo.icache) (fun r _ => r = Some [104; 105]).
Proof.
  apply (write_read_roundtrip (laws := Demo.mem_laws) Demo.sb (fun _ => None) Demo.disk 0 Demo.disk Demo.icache 0 0
    [104; 105] Demo.sb_layout eq_refl Demo.disk_is_ok); [by apply Demo.empty_ok|done|done|done|done].
Defined.

(** C10: adding a name to a directory.  When [dirlink] of a name that is not in
    the directory returns, it returns 0 and the directory, as a map from names
    to inode numbers, is updated at that name and nowhere else; names are
    compared on their first 14 bytes, as the entries store them. *)
Theorem dirlink_correct {T} {ops : TxOps T} {ok : T -> nat -> (Z -> blk) -> Prop} {data}
    {laws : TxLaws T ok data} sb devsw (t : T) (n : nat) V c dp name inum :
  layout sb data -> ok t (7 + n)%nat V -> disk_ok sb V -> dir_ok sb V (c dp) ->
  0 <= i_inum (c dp) < sb_ninodes sb -> i_size (c dp) + 16 <= MAXFILE * Bz ->
  0 < inum < 65536 -> Forall (fun z => z <> 0) name -> entry V (c dp) name = None ->
  safe (dirlink devsw dp name inum) (FS t sb c) (fun r s =>
    r = 0 /\ exists t' V' i',
      s = FS t' sb (<[dp := i']> c) /\ ok t' n V' /\ disk_ok sb V' /\ dir_ok sb V' i' /\
      forall name', Forall (fun z => z <> 0) name' ->
        entry V' i' name' = if decide (take DIRSIZ name' = take DIRSIZ name) then Some inum
                            else entry V (c dp) name').
Proof.
  intros L Ho D I Hin Hmax Hi Hz He.
  assert (Hnone : find_entry V (c dp) name 0 (n_entries (c dp)) = None) by (by apply fmap_None in He).
  destruct (dirlookup_run sb L devsw t _ V c dp name Ho D I) as (t1 & Ho1 & E1). rewrite Hnone in E1.
  destruct (size_entries sb V (c dp) I) as [Es _]. pose proof (io_size _ _ _ (do_inode _ _ _ I)) as Hsz.
  destruct (dirlink_loop_run sb L devsw (dir_fuel (i_size (c dp))) t1 _ V c dp 0 Ho1 D I) as (t2 & Ho2 & E2);
    [lia|unfold dir_fuel, n_entries; Z.to_euclidean_division_equations; lia|].
  rewrite Nat.sub_0_r in E2. set (k := free_entry V (c dp) 0 (n_entries (c dp))) in *.
  destruct (free_entry_spec V (c dp) (n_entries (c dp)) 0) as [Hk _]. fold k in Hk.
  destruct (mk_dirent_fields inum name) as (Hl & _ & _).
  unfold dirlink, safe. rewrite (bind_Ok _ _ _ _ _ E1). unfold the_inode, gets. erewrite bind_Ok by reflexivity.
  cbn [f_icache]. rewrite (bind_Ok _ _ _ _ _ E2).
  assert (Ht : turns (16 * Z.of_nat k) 16 = 1%nat).
  { unfold turns. cbn [Z.eqb]. unfold Bz. change BSIZE with 512. Z.to_euclidean_division_equations. lia. }
  pose proof (writei_run sb L devsw t2 n V c dp (16 * Z.of_nat k) (mk_dirent inum name)) as W.
  cbv zeta in W. rewrite Hl in W. change (Z.of_nat 16) with 16 in W. rewrite Ht in W.
  specialize (W Ho2 D (do_inode _ _ _ I)). rewrite (do_type _ _ _ I) in W.
  specialize (W ltac:(done) Hin ltac:(lia) ltac:(unfold MAXFILE, Bz, BSIZE in *; lia)). unfold safe in W.
  unfold bind. destruct (writei devsw dp (mk_dirent inum name) (16 * Z.of_nat k) (FS t2 sb c)) as [[r s]| | |]; try done.
  rewrite (proj2 (Z.leb_le _ _)), (proj2 (Z.leb_le _ _)) in W by lia.
  destruct W as (-> & t' & V' & i' & -> & Ho' & (D' & I' & Ei & Hb & _) & _). rewrite Z.eqb_refl. unfold ret.
  split; [done|]. exists t', V', i'. split; [done|]. split; [done|]. split; [done|].
  rewrite Hl in Ei. change (Z.of_nat 16) with 16 in Ei.
  assert (Esz : i_size i' = Z.max (i_size (c dp)) (16 * Z.of_nat k + 16)) by (rewrite Ei; done).
  assert (Dd : dir_ok sb V' i').
  { split; [done|rewrite Ei; apply I|]. rewrite Esz. Z.to_euclidean_division_equations. lia. }
  split; [done|]. destruct (entries_written sb V V' (c dp) i' inum name I Dd Hmax Esz Hb) as [Hn Hd].
  by apply entry_written.
Qed.

Lemma dirlink_correct_witness :
  safe (dirlink (ops := Demo.mem_tx) (fun _ => None) 1 [97; 98] 2) (FS Demo.disk Demo.sb Demo.icache) (fun r s =>
    r = 0 /\ exists t' V' i',
      s = FS t' Demo.sb (<[1%nat := i']> Demo.icache) /\ Demo.mem_ok t' 0 V' /\ disk_ok Demo.sb V' /\ dir_ok Demo.sb V' i' /\
      forall name', Forall (fun z => z <> 0) name' ->
        entry V' i' name' = if decide (take DIRSIZ name' = take DIRSIZ [97; 98]) then Some 2
                            else entry Demo.disk (Demo.icache 1%nat) name').
Proof.
  apply (dirlink_correct (laws := Demo.mem_laws) Demo.sb (fun _ => None) Demo.disk 0 Demo.disk Demo.icache 1
    [97; 98] 2 Demo.sb_layout eq_refl Demo.disk_is_ok).
  - split; [by apply Demo.empty_ok|done|done].
  - done.
  - done.
  - done.
  - repeat constructor; done.
  - done.
Defined.

(** [dirlookup] finds a name exactly when the directory has it; then it
    returns an inode of the cache for the number in the entry, with one more
    reference, and the cache still has no inode twice; the only panic is that
    of a full inode cache. *)
Theorem dirlookup_correct {T} {ops : TxOps T} {ok : T -> nat -> (Z -> blk) -> Prop} {data}
    {laws : TxLaws T ok data} sb devsw (t : T) (n : nat) V c dp name :
  layout sb data -> ok t n V -> disk_ok sb V -> dir_ok sb V (c dp) -> icache_ok c ->
  match dirlookup devsw dp name (FS t sb c) with
  | Ok (None, s') => entry V (c dp) name = None /\ exists t', s' = FS t' sb c /\ ok t' n V
  | Ok (Some (ip, off), s') => exists inum t' c',
      entry V (c dp) name = Some inum /\ s' = FS t' sb c' /\ ok t' n V /\ icache_ok c' /\ got c inum ip c' /\
      de_inum (dirent_at V (c dp) (Z.to_nat (off / 16))) = inum
  | Panic msg => msg = "iget: no inodes"
  | _ => False
  end.
Proof.
  intros L Ho D I Hc. destruct (dirlookup_run sb L devsw t n V c dp name Ho D I) as (t' & Ho' & ->). unfold entry.
  destruct (find_entry V (c dp) name 0 (n_entries (c dp))) as [k|]; simpl; [|split; [done|by exists t']].
  pose proof (iget_run t' sb c (de_inum (dirent_at V (c dp) k)) Hc) as H. unfold bind.
  destruct (iget _ _) as [[ip s']| | |]; try done; [|by destruct H]. destruct H as (c' & -> & Hc' & Hg).
  eexists _, t', c'. split; [done|]. split; [done|]. split; [done|]. split; [done|]. split; [done|].
  by rewrite Z.mul_comm, Z.div_mul, Nat2Z.id by lia.
Qed.

Lemma dirlookup_correct_witness :
  exists s', dirlookup (ops := Demo.mem_tx) (fun _ => None) 1 [97] (FS Demo.disk Demo.sb Demo.icache) = Ok (None, s') /\
    entry Demo.disk (Demo.icache 1%nat) [97] = None.
Proof.
  pose proof (dirlookup_correct (laws := Demo.mem_laws) Demo.sb (fun _ => None) Demo.disk 0 Demo.disk Demo.icache 1 [97]
    Demo.sb_layout eq_refl Demo.disk_is_ok) as H.
  exists (FS Demo.disk Demo.sb Demo.icache). split; [reflexivity|].
  destruct H as [H _]; [split; [by apply Demo.empty_ok|done|done]|split|exact H].
  - intros [|[|ip]] _; done.
  - intros [|[|ip]] [|[|jp]] inum _ _ (H1 & H2 & H3) (H4 & H5 & H6); done || (simpl in *; congruence).
Defined.

(** An inode survives on disk.  After [iupdate], [ilock] of an entry for
    the same inode that is not in memory loads the fields that were stored, and
    every other inode of the disk is as it was. *)
Theorem inode_roundtrip {T} {ops : TxOps T} {ok : T -> nat -> (Z -> blk) -> Prop} {data}
    {laws : TxLaws T ok data} sb (t : T) (n : nat) V c ip jp pid :
  layout sb data -> ok t (S n) V -> disk_ok sb V ->
  0 <= i_inum (c ip) < sb_ninodes sb -> dinode_fits (c ip) -> i_type (c ip) <> 0 ->
  i_inum (c jp) = i_inum (c ip) -> 1 <= i_ref (c jp) -> i_valid (c jp) = false -> sl_locked (i_lock (c jp)) = false ->
  exists t' V' j,
    (do! iupdate ip in ilock pid jp) (FS t sb c) = Ok (tt, FS t' sb (<[jp := j]> c)) /\ ok t' n V' /\
    (i_type j, i_major j, i_minor j, i_nlink j, i_size j, i_addrs j, i_valid j) =
    (i_type (c ip), i_major (c ip), i_minor (c ip), i_nlink (c ip), i_size (c ip), i_addrs (c ip), true) /\
    (i_inum j, i_ref j, i_lock j) = (i_inum (c jp), i_ref (c jp), Sleeplk true pid) /\
    (forall k x, 0 <= k < sb_ninodes sb -> k <> i_inum (c ip) -> on_disk sb V' k x = on_disk sb V k x).
Proof.
  intros L Ho D Hin Hf Hty Ej Hr Hv Hlk.
  destruct (iupdate_stores sb L t n V c ip Ho D Hin Hf) as (t1 & V1 & E1 & Ho1 & Hd & Hother & _).
  destruct (ilock_loads sb L pid t1 n V1 c jp (Sleeplk true pid)) as (t2 & E2 & Ho2); try done.
  - by rewrite Ej.
  - unfold acquiresleep. by rewrite Hlk.
  - by rewrite Ej, Hd.
  - eexists t2, V1, _. split; [|split; [exact Ho2|]].
    + rewrite (bind_Ok _ _ _ _ _ E1). exact E2.
    + rewrite Ej, Hd. cbn. by rewrite Ej.
Qed.

Lemma inode_roundtrip_witness :
  exists t' V' j,
    (do! iupdate (ops := Demo.mem_tx) 0 in ilock (ops := Demo.mem_tx) 9 2) (FS Demo.disk Demo.sb Demo.reopened) =
      Ok (tt, FS t' Demo.sb (<[2%nat := j]> Demo.reopened)) /\ Demo.mem_ok t' 0 V' /\
    (i_type j, i_nlink j) = (T_FILE, 1).
Proof.
  destruct (inode_roundtrip (laws := Demo.mem_laws) Demo.sb Demo.disk 0 Demo.disk Demo.reopened 0 2 9
    Demo.sb_layout eq_refl Demo.disk_is_ok) as (t' & V' & j & E & Ho & Hj & _); [done| |done|done|done|done|done|].
  - repeat split; try done. repeat constructor; done.
  - exists t', V', j. split; [exact E|]. split; [exact Ho|]. injection Hj as -> _ _ -> _ _ _. reflexivity.
Defined.

(** The names that [namex] takes from a path with [skipelem] are the
    nonempty segments between its slashes, each cut to 14 bytes, in order; a
    path of [n] bytes takes fewer than [n + 1] turns. *)
Theorem skipelem_components (path : list Z) : elements (S (length path)) path = components path.
Proof. apply elements_components. lia. Qed.
