(* ===== verification/Mkfs.v ===== *)
(** * The image of the file system: mkfs.c

    The program that builds [fs.img].  It runs on the host, a little-endian
    machine; the image is a file of sectors.  The type [inode] of the kernel serves for
    [struct dinode], by the fields a dinode has. *)
From S2P Require Import Prelude Bytes Sleeplock Ide Tx Fs FsInv Inodes Files.

Definition FSSIZE : Z := 1000.
Definition LOGSIZE : Z := 30.
Definition NINODES : Z := 200.

Definition nbitmap : Z := FSSIZE / (BSIZE * 8) + 1.
Definition ninodeblocks : Z := NINODES / IPB + 1.
Definition nlog : Z := LOGSIZE.
Definition nmeta : Z := 2 + nlog + ninodeblocks + nbitmap.
Definition nblocks : Z := FSSIZE - nmeta.

(** The bytes of the result are set one by one, and read as a [uint] of the host. *)
Definition xshort (x : Z) : Z := get16 [u8 x; u8 (Z.shiftr x 8)] 0.
Definition xint (x : Z) : Z := get32 [u8 x; u8 (Z.shiftr x 8); u8 (Z.shiftr x 16); u8 (Z.shiftr x 24)] 0.

(** [sb], which [main] sets before it uses it. *)
Definition mk_sb : superblock :=
  Superblock (xint FSSIZE) (xint nblocks) (xint NINODES) (xint nlog) (xint 2) (xint (2 + nlog))
    (xint (2 + nlog + ninodeblocks)).

(** The image, how many sectors it has, and the counters. *)
Record mkfs : Type := Mkfs {
  mk_img : Z -> blk;
  mk_len : Z;
  mk_freeinode : Z;
  mk_freeblock : Z;
}.

Definition zeroes : blk := replicate (Z.to_nat BSIZE) 0.

(** The sector at the offset [sec * BSIZE], a [uint]. *)
Definition sector (sec : Z) : Z := u32 (sec * BSIZE) / BSIZE.

Definition wsect (sec : Z) (buf : blk) : M mkfs unit :=
  modify (fun s => Mkfs (<[sector sec := buf]> (mk_img s)) (Z.max (mk_len s) (sector sec + 1))
    (mk_freeinode s) (mk_freeblock s)).

(** A short read ends the program. *)
Definition rsect (sec : Z) : M mkfs blk :=
  let! s := get in
  if sector sec <? mk_len s then ret (mk_img s (sector sec)) else panic "read".

Definition winode (inum : Z) (ip : inode) : M mkfs unit :=
  let bn := IBLOCK inum mk_sb in
  let! buf := rsect bn in
  wsect bn (write_dinode ip (dinode_off inum) buf).

Definition rinode (inum : Z) : M mkfs inode :=
  let bn := IBLOCK inum mk_sb in
  let! buf := rsect bn in
  ret (read_dinode buf (dinode_off inum) inode0).

(** [freeblock++] and [freeinode++] *)
Definition next_block : M mkfs Z :=
  let! s := get in
  do! put (Mkfs (mk_img s) (mk_len s) (mk_freeinode s) (u32 (mk_freeblock s + 1))) in
  ret (mk_freeblock s).
Definition next_inode : M mkfs Z :=
  let! s := get in
  do! put (Mkfs (mk_img s) (mk_len s) (u32 (mk_freeinode s + 1)) (mk_freeblock s)) in
  ret (mk_freeinode s).

Definition ialloc (type : Z) : M mkfs Z :=
  let! inum := next_inode in
  let din := set_i_size (xint 0) (set_i_nlink (xshort 1) (set_i_type (xshort type) inode0)) in
  do! winode inum din in
  ret inum.

(** The loop of [balloc]: [buf] with the first [used] bits set. *)
Fixpoint set_bits (used : nat) (buf : blk) : blk :=
  match used with
  | O => buf
  | S n => set_bit n (set_bits n buf)
  end.
Definition balloc (used : Z) : M mkfs unit :=
  if negb (used <? BSIZE * 8) then panic "assert"
  else wsect (sb_bmapstart mk_sb) (set_bits (Z.to_nat used) zeroes).

(** A block for the pointer [k] of the dinode, when it has none. *)
Definition direct_block (din : inode) (k : nat) : M mkfs inode :=
  if xint (default 0 (i_addrs din !! k)) =? 0 then
    let! b := next_block in
    ret (set_i_addrs (<[k := xint b]> (i_addrs din)) din)
  else ret din.

(** The block for entry [q] of the indirect block [ind], allocated when there is none. *)
Definition indirect_block (ind : Z) (q : nat) : M mkfs Z :=
  let! indirect := rsect ind in
  let! indirect :=
    (if get32 indirect (4 * q) =? 0 then
       let! b := next_block in
       let indirect := put32 indirect (4 * q) (xint b) in
       do! wsect ind indirect in
       ret indirect
     else ret indirect) in
  ret (xint (get32 indirect (4 * q))).

(** The body of [iappend]'s loop up to [x]: the block for [fbn], with the dinode. *)
Definition block_for (din : inode) (fbn : Z) : M mkfs (inode * Z) :=
  if fbn <? Z.of_nat NDIRECT then
    let! din := direct_block din (Z.to_nat fbn) in
    ret (din, xint (default 0 (i_addrs din !! Z.to_nat fbn)))
  else
    let! din := direct_block din NDIRECT in
    let! x := indirect_block (xint (default 0 (i_addrs din !! NDIRECT))) (Z.to_nat (fbn - Z.of_nat NDIRECT)) in
    ret (din, x).

(** The loop with the bytes [p] to go; the dinode and the offset reached. *)
Fixpoint iappend_loop (fuel : nat) (din : inode) (off : Z) (p : list Z) : M mkfs (inode * Z) :=
  match p with
  | [] => ret (din, off)
  | _ =>
      match fuel with
      | O => out_of_fuel
      | S fuel =>
          let fbn := off / BSIZE in
          if negb (fbn <? MAXFILE) then panic "assert"
          else
            let! r := block_for din fbn in
            let '(din, x) := r in
            let n1 := Z.min (Z.of_nat (length p)) ((fbn + 1) * BSIZE - off) in
            let! buf := rsect x in
            do! wsect x (put_bytes (off - fbn * BSIZE) (take (Z.to_nat n1) p) buf) in
            iappend_loop fuel din (u32 (off + n1)) (drop (Z.to_nat n1) p)
      end
  end.

Definition iappend (inum : Z) (p : list Z) : M mkfs unit :=
  let! din := rinode inum in
  let! r := iappend_loop (length p) din (xint (i_size din)) p in
  let '(din, off) := r in
  winode inum (set_i_size (xint off) din).

(** ** main *)

(** A file to put into the image: its name, and the pieces in which [read] returns it,
    [None] when it cannot be opened. *)
Definition infile : Type := (list Z * option (list (list Z)))%type.

Fixpoint append_all (inum : Z) (chunks : list (list Z)) : M mkfs unit :=
  match chunks with
  | [] => ret tt
  | c :: chunks => do! iappend inum c in append_all inum chunks
  end.

(** [if(argv[i][0] == '_') ++argv[i];] *)
Definition skip_underscore (name : list Z) : list Z :=
  match name with
  | 95 :: name => name
  | _ => name
  end.

Definition add_file (rootino : Z) (f : infile) : M mkfs unit :=
  if existsb (Z.eqb 47) (fst f) then panic "assert"
  else
    match snd f with
    | None => panic "open"
    | Some chunks =>
        let! inum := ialloc T_FILE in
        do! iappend rootino (mk_dirent (xshort inum) (skip_underscore (fst f))) in
        append_all inum chunks
    end.

Fixpoint add_files (rootino : Z) (fl : list infile) : M mkfs unit :=
  match fl with
  | [] => ret tt
  | f :: fl => do! add_file rootino f in add_files rootino fl
  end.

Fixpoint write_zeroes (n : nat) (i : Z) : M mkfs unit :=
  match n with
  | O => ret tt
  | S n => do! wsect i zeroes in write_zeroes n (i + 1)
  end.

(** [memmove(buf, &sb, sizeof(sb))] into a buffer of zeroes *)
Definition put_sb (sb : superblock) (d : blk) : blk :=
  put32 (put32 (put32 (put32 (put32 (put32 (put32 d 0 (sb_size sb)) 4 (sb_nblocks sb)) 8 (sb_ninodes sb))
    12 (sb_nlog sb)) 16 (sb_logstart sb)) 20 (sb_inodestart sb)) 24 (sb_bmapstart sb).

(** The truncated file, and the counters at the start. *)
Definition mkfs0 : mkfs := Mkfs (fun _ => zeroes) 0 1 nmeta.

Definition main (fl : list infile) : M mkfs unit :=
  do! write_zeroes (Z.to_nat FSSIZE) 0 in
  do! wsect 1 (put_sb mk_sb zeroes) in
  let! rootino := ialloc T_DIR in
  if negb (rootino =? ROOTINO) then panic "assert"
  else
    do! iappend rootino (mk_dirent (xshort rootino) [46]) in
    do! iappend rootino (mk_dirent (xshort rootino) [46; 46]) in
    do! add_files rootino fl in
    let! din := rinode rootino in
    let off := xint (i_size din) in
    let off := u32 ((off / BSIZE + 1) * BSIZE) in
    do! winode rootino (set_i_size (xint off) din) in
    let! s := get in
    balloc (mk_freeblock s).

(** ** The layout of the image *)

Lemma mk_sb_eq : mk_sb = Superblock 1000 941 200 30 2 32 58.
Proof. reflexivity. Qed.

Lemma xint_eq x : xint x = u32 x.
Proof.
  unfold xint, get32. cbn [get_le lookup list_lookup default from_option id].
  rewrite !u8_small by apply u8_bound. unfold u8, u32. rewrite !Z.shiftr_div_pow2 by lia.
  change (2 ^ 8) with 256. change (2 ^ 16) with 65536. change (2 ^ 24) with 16777216.
  Z.to_euclidean_division_equations. lia.
Qed.
Lemma xint_small x : 0 <= x < 4294967296 -> xint x = x.
Proof. intros H. rewrite xint_eq. by apply u32_small. Qed.
Lemma xint_get32 d off : xint (get32 d off) = get32 d off.
Proof. apply xint_small. apply (get_le_bound 4 d off). Qed.
Lemma xshort_small x : 0 <= x < 65536 -> xshort x = x.
Proof.
  intros H. unfold xshort, get16. cbn [get_le lookup list_lookup default from_option id].
  rewrite !u8_small by apply u8_bound. unfold u8. rewrite Z.shiftr_div_pow2 by lia. change (2 ^ 8) with 256.
  Z.to_euclidean_division_equations. lia.
Qed.

(** The blocks that are not the log's. *)
Definition mk_data (b : Z) : Prop := 32 <= b < FSSIZE.

Lemma mk_layout : layout mk_sb mk_data.
Proof.
  rewrite mk_sb_eq. unfold mk_data, FSSIZE. split; simpl; unfold first_data, BPB, IPB; simpl; try lia.
  - split; [lia|]. split; [lia|]. change (200 / 8) with 25. lia.
  - change (1000 / 4096) with 0. lia.
  - change (1000 / 4096) with 0. lia.
  - change (1000 / 4096) with 0. lia.
Qed.

Lemma mk_first : first_data mk_sb = 59.
Proof. reflexivity. Qed.

Lemma sector_eq b : 0 <= b < 1000 -> sector b = b.
Proof. intros H. unfold sector. change BSIZE with 512. rewrite u32_small by lia. by rewrite Z.div_mul. Qed.

(** ** The state and the disk it stands for

    [mkfs] allocates blocks in order and writes the bitmap at the end.  The disk the
    state stands for has the bitmap of the blocks allocated so far, so
    that what is proved of the kernel's allocation holds for it. *)

Lemma length_set_bits n d : length (set_bits n d) = length d.
Proof. induction n as [|n IH]; [done|]. cbn [set_bits]. by rewrite length_set_bit. Qed.

Lemma bit_set_bits n k :
  (n <= 4096)%nat -> bit (set_bits n zeroes) k = (k <? n)%nat.
Proof.
  induction n as [|n IH]; intros Hn; cbn [set_bits].
  - unfold bit, zeroes. rewrite default_replicate0. by rewrite Z.bits_0.
  - rewrite bit_set.
    + rewrite IH by lia. case_decide; destruct (Nat.ltb_spec k n), (Nat.ltb_spec k (S n)); try done; lia.
    + rewrite length_set_bits. unfold zeroes. rewrite length_replicate. change (Z.to_nat BSIZE) with 512%nat.
      apply Nat.Div0.div_lt_upper_bound. lia.
Qed.

Definition shadow (s : mkfs) : Z -> blk := <[58 := set_bits (Z.to_nat (mk_freeblock s)) zeroes]> (mk_img s).

(** The image has its size; the blocks not allocated are zero, and so are the boot block, the log and the bitmap. *)
Record base (s : mkfs) : Prop := {
  ba_len : mk_len s = 1000;
  ba_free : 59 <= mk_freeblock s <= 1000;
  ba_blk : forall b, length (mk_img s b) = Z.to_nat BSIZE;
  ba_zero : forall b, mk_freeblock s <= b -> mk_img s b = zeroes;
  ba_bmap : mk_img s 58 = zeroes;
  ba_sb : mk_img s 1 = put_sb mk_sb zeroes;
  ba_log : forall b, b = 0 \/ 2 <= b < 32 -> mk_img s b = zeroes;
}.

Definition rep (s : mkfs) (V : Z -> blk) : Prop := base s /\ shadow s = V.

Lemma used_shadow s b : base s -> 0 <= b < 1000 -> used mk_sb (shadow s) b = (b <? mk_freeblock s).
Proof.
  intros B Hb. pose proof (ba_free _ B). unfold used, BBLOCK. rewrite mk_sb_eq. cbn [sb_bmapstart]. unfold BPB.
  rewrite (Z.div_small b 4096), (Z.mod_small b 4096) by lia. change (u32 (0 + 58)) with 58.
  unfold shadow. rewrite fn_lookup_insert, bit_set_bits by lia.
  destruct (Nat.ltb_spec (Z.to_nat b) (Z.to_nat (mk_freeblock s))), (Z.ltb_spec b (mk_freeblock s)); try done; lia.
Qed.

Lemma rep_disk s V : rep s V -> disk_ok mk_sb V.
Proof.
  intros [B <-]. split.
  - intros b. unfold shadow. fn_cases; [|apply B]. rewrite length_set_bits. done.
  - intros b Hb. change (sb_size mk_sb) with 1000 in Hb. rewrite used_shadow by done. rewrite mk_first.
    pose proof (ba_free _ B). destruct (Z.ltb_spec b (mk_freeblock s)); [done|]. lia.
Qed.

Lemma rep_read s V b : rep s V -> 0 <= b < 1000 -> b <> 58 -> rsect b s = Ok (V b, s).
Proof.
  intros [B <-] Hb Hn. unfold rsect, bind, get. rewrite sector_eq, (ba_len _ B) by done.
  rewrite (proj2 (Z.ltb_lt _ _)) by lia. unfold shadow. by rewrite fn_lookup_insert_ne by congruence.
Qed.

Lemma rep_write s V b d :
  rep s V -> 32 <= b < mk_freeblock s -> b <> 58 -> length d = Z.to_nat BSIZE ->
  exists s', wsect b d s = Ok (tt, s') /\ rep s' (<[b := d]> V) /\
    mk_freeblock s' = mk_freeblock s /\ mk_freeinode s' = mk_freeinode s.
Proof.
  intros [B <-] Hb Hn Hd. pose proof (ba_free _ B) as Hf. eexists. split; [reflexivity|].
  rewrite sector_eq by lia. split; [|done]. split; [split|].
  - cbn. rewrite (ba_len _ B). lia.
  - apply B.
  - intros x. cbn. fn_cases; apply B.
  - intros x Hx. cbn in *. rewrite fn_lookup_insert_ne by lia. by apply (ba_zero _ B).
  - cbn. rewrite fn_lookup_insert_ne by lia. apply (ba_bmap _ B).
  - cbn. rewrite fn_lookup_insert_ne by lia. apply (ba_sb _ B).
  - intros x Hx. cbn. rewrite fn_lookup_insert_ne by lia. by apply (ba_log _ B).
  - unfold shadow. cbn. apply functional_extensionality. intros x. fn_cases; congruence.
Qed.

Lemma rep_alloc s V :
  rep s V -> mk_freeblock s < 1000 ->
  let b := mk_freeblock s in
  exists s', next_block s = Ok (b, s') /\ rep s' (V_alloc mk_sb b V) /\ allocated mk_sb V b /\
    mk_freeblock s' = b + 1 /\ mk_freeinode s' = mk_freeinode s.
Proof.
  intros [B <-] Hlt b. pose proof (ba_free _ B) as Hf. eexists. split; [reflexivity|].
  rewrite u32_small by lia. split; [|split; [|done]].
  - split.
    + destruct B as [B1 B2 B3 B4 B5 B6 B7]. split; cbn; try done; [lia|]. intros x Hx. apply B4. lia.
    + unfold shadow, V_alloc. cbn [mk_freeblock mk_img]. apply functional_extensionality. intros x.
      assert (Eb : BBLOCK b mk_sb = 58).
      { unfold BBLOCK, BPB. rewrite mk_sb_eq. cbn [sb_bmapstart]. rewrite Z.div_small by lia. done. }
      rewrite Eb. unfold BPB. rewrite (Z.mod_small b 4096), fn_lookup_insert by lia.
      replace (Z.to_nat (mk_freeblock s + 1)) with (S (Z.to_nat b)) by lia. cbn [set_bits].
      fn_cases; subst; try done; try lia. by rewrite (ba_zero _ B) by lia.
  - split; [rewrite mk_first; change (sb_size mk_sb) with 1000; lia|]. split.
    + rewrite used_shadow by (done || lia). apply Z.ltb_irrefl.
    + intros x Hx. rewrite used_shadow by (done || lia). apply Z.ltb_lt. unfold b in Hx. lia.
Qed.

(** ** Blocks of a file *)

Notation zcount b := (if b then 1 else 0).

Lemma slot_small V addrs k : file_ok mk_sb V addrs -> (k < SLOTS)%nat -> 0 <= slot V addrs k < 1000.
Proof.
  intros F Hk. destruct (Z.eqb_spec (slot V addrs k) 0) as [->|Hn]; [lia|].
  destruct (fo_good _ _ _ F k Hk Hn) as [Hr _]. rewrite mk_first in Hr. change (sb_size mk_sb) with 1000 in Hr. lia.
Qed.

(** A block for a pointer of the dinode. *)
Lemma direct_block_spec s V din k :
  rep s V -> file_ok mk_sb V (i_addrs din) -> (k <= NDIRECT)%nat ->
  mk_freeblock s + zcount (slot V (i_addrs din) k =? 0) <= 1000 ->
  exists s' V' addrs, direct_block din k s = Ok (set_i_addrs addrs din, s') /\ rep s' V' /\
    grows mk_sb (fbyte V (i_addrs din)) V (i_addrs din) V' addrs /\
    (forall j, j <> k -> slot V' addrs j = slot V (i_addrs din) j) /\ slot V' addrs k <> 0 /\
    mk_freeblock s' = mk_freeblock s + zcount (slot V (i_addrs din) k =? 0) /\ mk_freeinode s' = mk_freeinode s.
Proof.
  intros R F Hk Hf. pose proof (rep_disk s V R) as D.
  assert (Es : slot V (i_addrs din) k = default 0 (i_addrs din !! k)) by (unfold slot; by rewrite (proj2 (Nat.leb_le _ _))).
  assert (Hx : xint (default 0 (i_addrs din !! k)) = slot V (i_addrs din) k).
  { rewrite <-Es. apply xint_small. pose proof (slot_small V (i_addrs din) k F). unfold SLOTS, NDIRECT in *. lia. }
  unfold direct_block. rewrite Hx. destruct (Z.eqb_spec (slot V (i_addrs din) k) 0) as [Hz|Hz].
  - destruct (rep_alloc s V R) as (s' & E & R' & Ha & Ef & Ei); [lia|].
    rewrite (bind_Ok _ _ _ _ _ E). pose proof (ba_free _ (proj1 R)).
    exists s', (V_alloc mk_sb (mk_freeblock s) V), (<[k := mk_freeblock s]> (i_addrs din)).
    rewrite xint_small by lia. split; [done|]. split; [done|].
    split; [by apply (grows_inode mk_sb mk_data mk_layout)|].
    split; [intros j Hj; rewrite (slot_set_inode mk_sb mk_data mk_layout) by done; by rewrite decide_False|].
    split; [rewrite (slot_set_inode mk_sb mk_data mk_layout), decide_True by done; lia|done].
  - exists s, V, (i_addrs din). split; [by destruct din|]. split; [done|]. split; [by apply grown_refl|].
    split; [done|]. split; [done|]. split; [lia|done].
Qed.

(** What [block_for] allocates. *)
Definition needed (V : Z -> blk) (addrs : list Z) (fbn : Z) : Z :=
  zcount (slot V addrs (slot_of fbn) =? 0) + zcount ((12 <=? fbn) && (slot V addrs NDIRECT =? 0)).

(** The block for a pointer in the indirect block. *)
Lemma indirect_block_spec s V addrs q :
  rep s V -> file_ok mk_sb V addrs -> slot V addrs NDIRECT <> 0 -> (q < NINDIRECT)%nat ->
  mk_freeblock s + zcount (slot V addrs (13 + q) =? 0) <= 1000 ->
  exists s' V', indirect_block (xint (default 0 (addrs !! NDIRECT))) q s = Ok (slot V' addrs (13 + q), s') /\ rep s' V' /\
    grows mk_sb (fbyte V addrs) V addrs V' addrs /\
    (forall j, j <> (13 + q)%nat -> slot V' addrs j = slot V addrs j) /\ slot V' addrs (13 + q) <> 0 /\
    mk_freeblock s' = mk_freeblock s + zcount (slot V addrs (13 + q) =? 0) /\ mk_freeinode s' = mk_freeinode s.
Proof.
  intros R F Hn Hq Hf. pose proof (rep_disk s V R) as D. pose proof (ba_free _ (proj1 R)) as Hfb.
  assert (En : slot V addrs NDIRECT = default 0 (addrs !! NDIRECT)) by done. rewrite En in Hn.
  destruct (ind_good mk_sb V addrs F Hn) as [Hr Hu]. set (ind := default 0 (addrs !! NDIRECT)) in *.
  rewrite mk_first in Hr. change (sb_size mk_sb) with 1000 in Hr.
  assert (Hlt : ind < mk_freeblock s).
  { destruct R as [B <-]. rewrite used_shadow in Hu by (done || lia). by apply Z.ltb_lt. }
  unfold indirect_block. rewrite (xint_small ind) by lia. rewrite (bind_Ok _ _ _ _ _ (rep_read s V ind R ltac:(lia) ltac:(lia))).
  assert (Eq : forall W, slot W addrs (13 + q) = get32 (W ind) (4 * q)).
  { intros W. unfold slot. rewrite (proj2 (Nat.leb_gt _ _)) by (unfold NDIRECT; lia). fold ind.
    destruct (Z.eqb_spec ind 0); [done|]. f_equal. lia. }
  rewrite <-(Eq V). destruct (Z.eqb_spec (slot V addrs (13 + q)) 0) as [Hz|Hz].
  - destruct (rep_alloc s V R) as (s1 & E1 & R1 & Ha & Ef1 & Ei1); [lia|]. set (b := mk_freeblock s) in *.
    assert (Hvi : V_alloc mk_sb b V ind = V ind).
    { apply (V_alloc_other mk_sb mk_data mk_layout); [change (sb_size mk_sb) with 1000; lia|rewrite mk_first; lia|lia]. }
    destruct (rep_write s1 _ ind (put32 (V ind) (4 * q) (xint b)) R1) as (s2 & E2 & R2 & Ef2 & Ei2);
      [rewrite Ef1; lia|lia|rewrite length_put32; apply (dk_len _ _ D)|].
    exists s2, (V_indirect mk_sb V addrs b q).
    assert (R2' : rep s2 (V_indirect mk_sb V addrs b q)).
    { unfold V_indirect. fold ind. rewrite Hvi. by rewrite xint_small in R2 by lia. }
    pose proof (slot_set_indirect mk_sb mk_data mk_layout V addrs b q) as Hs.
    split.
    { rewrite bind_assoc, (bind_Ok _ _ _ _ _ E1), bind_assoc, (bind_Ok _ _ _ _ _ E2). unfold bind, ret. do 2 f_equal.
      rewrite xint_get32, Eq, (xint_small b) by lia. unfold V_indirect. fold ind. by rewrite fn_lookup_insert, Hvi. }
    split; [done|]. split; [by apply (grows_indirect mk_sb mk_data mk_layout)|].
    split; [intros j Hj; rewrite Hs by done; by rewrite decide_False|].
    split; [rewrite Hs, decide_True by done; lia|]. split; [lia|congruence].
  - exists s, V. unfold bind, ret. split; [by rewrite xint_get32, Eq|].
    split; [done|]. split; [by apply grown_refl|]. split; [done|]. split; [done|]. split; [lia|done].
Qed.

Lemma block_for_spec s V din fbn :
  rep s V -> file_ok mk_sb V (i_addrs din) -> 0 <= fbn < MAXFILE ->
  mk_freeblock s + needed V (i_addrs din) fbn <= 1000 ->
  exists s' V' addrs a, block_for din fbn s = Ok ((set_i_addrs addrs din, a), s') /\ rep s' V' /\
    grows mk_sb (fbyte V (i_addrs din)) V (i_addrs din) V' addrs /\
    slot V' addrs (slot_of fbn) = a /\ a <> 0 /\
    (forall j, j <> slot_of fbn -> (j = NDIRECT -> fbn < 12) -> slot V' addrs j = slot V (i_addrs din) j) /\
    (12 <= fbn -> slot V' addrs NDIRECT <> 0) /\
    mk_freeblock s' = mk_freeblock s + needed V (i_addrs din) fbn /\ mk_freeinode s' = mk_freeinode s.
Proof.
  intros R F Hb Hf. unfold block_for, needed in *. destruct (slot_of_bounds fbn Hb) as [Hk Hnd].
  change (Z.of_nat NDIRECT) with 12.
  destruct (Z.ltb_spec fbn 12) as [Hd|Hd].
  - rewrite (proj2 (Z.leb_gt 12 fbn)) in Hf |- * by lia. cbn [andb] in *. rewrite Z.add_0_r in *.
    rewrite slot_of_direct in * by (unfold NDIRECT; lia).
    destruct (direct_block_spec s V din (Z.to_nat fbn) R F) as (s' & V' & addrs & E & R' & G & Hs & Hn & Ef & Ei);
      [unfold NDIRECT; lia|done|].
    rewrite (bind_Ok _ _ _ _ _ E). exists s', V', addrs, (slot V' addrs (Z.to_nat fbn)). split.
    { unfold ret. do 3 f_equal. pose proof (slot_small V' addrs (Z.to_nat fbn) (gr_file _ _ _ _ _ _ G) Hk) as Hsm.
      unfold slot in Hsm |- *. rewrite (proj2 (Nat.leb_le _ _)) in Hsm |- * by (unfold NDIRECT; lia).
      apply xint_small. cbn [i_addrs set_i_addrs]. lia. }
    split; [done|]. split; [done|]. split; [done|]. split; [done|]. split; [intros j Hj _; by apply Hs|].
    split; [lia|done].
  - rewrite (proj2 (Z.leb_le 12 fbn)) in Hf |- * by lia. cbn [andb] in *.
    assert (Eqs : slot_of fbn = (13 + Z.to_nat (fbn - 12))%nat) by (apply (slot_of_indirect fbn); unfold NDIRECT; lia).
    set (c1 := zcount (slot V (i_addrs din) NDIRECT =? 0)) in *.
    assert (Hc0 : 0 <= zcount (slot V (i_addrs din) (slot_of fbn) =? 0)) by (case_match; lia).
    destruct (direct_block_spec s V din NDIRECT R F) as (s1 & V1 & addrs & E1 & R1 & G1 & Hs1 & Hn1 & Ef1 & Ei1);
      [done|fold c1; lia|]. fold c1 in Ef1.
    rewrite (bind_Ok _ _ _ _ _ E1). cbn [i_addrs set_i_addrs].
    destruct (indirect_block_spec s1 V1 addrs (Z.to_nat (fbn - 12)) R1 (gr_file _ _ _ _ _ _ G1))
      as (s2 & V2 & E2 & R2 & G2 & Hs2 & Hn2 & Ef2 & Ei2); [done|unfold MAXFILE, NINDIRECT in *; lia| |].
    + rewrite <-Eqs, Hs1, Ef1 by done. lia.
    + rewrite <-Eqs in E2, Hs2, Hn2, Ef2. rewrite Hs1 in Ef2 by done.
      exists s2, V2, addrs, (slot V2 addrs (slot_of fbn)).
      split; [by rewrite (bind_Ok _ _ _ _ _ E2)|].
      split; [done|]. split.
      { eapply grows_ext; [|by eapply grown_trans; [exact mk_layout|exact G1|exact G2]].
        intros x Hx. by apply (gr_byte _ _ _ _ _ _ G1). }
      split; [done|]. split; [done|]. split; [intros j Hj Hj2|].
      { rewrite Hs2 by done. apply Hs1. intros ->. specialize (Hj2 eq_refl). lia. }
      split; [intros _; by rewrite Hs2|]. split; [lia|congruence].
Qed.

(** *** Appending *)

(** The blocks a file of [n] bytes takes, the indirect block included. *)
Definition blocks (n : Z) : Z := (n + 511) / 512 + zcount (6144 <? n).

(** A file of [n] bytes has just the blocks it needs. *)
Definition compact (V : Z -> blk) (addrs : list Z) (n : Z) : Prop :=
  (forall bn, 0 <= bn < MAXFILE -> slot V addrs (slot_of bn) = 0 <-> n <= bn * 512) /\
  (slot V addrs NDIRECT = 0 <-> n <= 6144).

Lemma zcount_iff (b c : bool) : (b = true <-> c = true) -> zcount b = zcount c.
Proof. destruct b, c; intros [H1 H2]; try done; [by specialize (H1 eq_refl)|by specialize (H2 eq_refl)]. Qed.

Lemma compact_needed V addrs off m :
  compact V addrs off -> 0 <= off -> 0 < m -> off mod 512 + m <= 512 -> off + m <= 71680 ->
  needed V addrs (off / 512) = blocks (off + m) - blocks off.
Proof.
  intros [C1 C2] Hoff Hm Hfit Hmax. unfold needed, blocks.
  assert (Hb : 0 <= off / 512 < MAXFILE) by (unfold MAXFILE; Z.to_euclidean_division_equations; lia).
  assert (E1 : zcount (slot V addrs (slot_of (off / 512)) =? 0) = zcount (off mod 512 =? 0)).
  { apply zcount_iff. rewrite !Z.eqb_eq, C1 by done. Z.to_euclidean_division_equations; lia. }
  assert (E2 : zcount ((12 <=? off / 512) && (slot V addrs NDIRECT =? 0)) = zcount (off =? 6144)).
  { apply zcount_iff. rewrite andb_true_iff, Z.leb_le, !Z.eqb_eq, C2. Z.to_euclidean_division_equations; lia. }
  rewrite E1, E2. destruct (Z.eqb_spec (off mod 512) 0), (Z.eqb_spec off 6144), (Z.ltb_spec 6144 (off + m)), (Z.ltb_spec 6144 off);
    Z.to_euclidean_division_equations; lia.
Qed.

Lemma blocks_mono a b : 0 <= a <= b -> blocks a <= blocks b.
Proof.
  intros H. unfold blocks. assert ((a + 511) / 512 <= (b + 511) / 512) by (apply Z.div_le_mono; lia).
  destruct (Z.ltb_spec 6144 a), (Z.ltb_spec 6144 b); lia.
Qed.

(** One turn of the loop. *)
Lemma append_turn s V din off l :
  rep s V -> file_ok mk_sb V (i_addrs din) -> compact V (i_addrs din) off ->
  0 <= off -> 0 < Z.of_nat (length l) -> off mod 512 + Z.of_nat (length l) <= 512 -> off + Z.of_nat (length l) <= 71680 ->
  mk_freeblock s + (blocks (off + Z.of_nat (length l)) - blocks off) <= 1000 ->
  exists s' V' addrs, (let! r := block_for din (off / 512) in
      let '(din, x) := r in
      let! buf := rsect x in
      do! wsect x (put_bytes (off - off / 512 * 512) l buf) in ret din) s = Ok (set_i_addrs addrs din, s') /\
    rep s' V' /\ grows mk_sb (overwrite (fbyte V (i_addrs din)) off l) V (i_addrs din) V' addrs /\
    compact V' addrs (off + Z.of_nat (length l)) /\
    mk_freeblock s' = mk_freeblock s + (blocks (off + Z.of_nat (length l)) - blocks off) /\
    mk_freeinode s' = mk_freeinode s.
Proof.
  intros R F C Hoff Hpos Hfit Hmax Hf. pose proof (compact_needed V _ off _ C Hoff Hpos Hfit Hmax) as En.
  rewrite <-En in Hf |- *.
  assert (Hb : 0 <= off / 512 < MAXFILE) by (unfold MAXFILE; Z.to_euclidean_division_equations; lia).
  destruct (block_for_spec s V din (off / 512) R F Hb Hf) as (s1 & V1 & addrs & a & E1 & R1 & G1 & Ea & Ha & Hs & Hi & Ef & Ei).
  rewrite (bind_Ok _ _ _ _ _ E1). destruct (slot_of_bounds _ Hb) as [Hk Hnd].
  destruct (fo_good _ _ _ (gr_file _ _ _ _ _ _ G1) _ Hk) as [Hr Hu]; [by rewrite Ea|]. rewrite Ea, mk_first in Hr. rewrite Ea in Hu.
  change (sb_size mk_sb) with 1000 in Hr.
  destruct (grows_write mk_sb mk_layout V (i_addrs din) V1 addrs off l G1) as (Hlen & Hs2 & G2);
    [done|unfold MAXFILE, Bz, BSIZE; lia|done|done|change Bz with 512; by rewrite Ea|].
  change Bz with 512 in *. rewrite Ea in Hlen, Hs2, G2.
  rewrite (bind_Ok _ _ _ _ _ (rep_read s1 V1 a R1 ltac:(lia) ltac:(lia))).
  replace (off - off / 512 * 512) with (off mod 512) by (rewrite Z.mod_eq by lia; lia).
  destruct (rep_write s1 V1 a (put_bytes (off mod 512) l (V1 a)) R1) as (s2 & E2 & R2 & Ef2 & Ei2); [|lia|done|].
  { split; [lia|]. destruct R1 as [B1 <-]. rewrite used_shadow in Hu by (done || lia). by apply Z.ltb_lt. }
  rewrite (bind_Ok _ _ _ _ _ E2). exists s2, (<[a := put_bytes (off mod 512) l (V1 a)]> V1), addrs.
  split; [done|]. split; [done|]. split; [done|]. split; [|split; [lia|congruence]].
  destruct C as [C1 C2]. split.
  - intros bn Hbn. rewrite Hs2. destruct (decide (bn = off / 512)) as [->|N].
    + rewrite Ea. split; [done|]. Z.to_euclidean_division_equations; lia.
    + destruct (slot_of_bounds bn Hbn) as [_ Hnd']. rewrite Hs; [rewrite C1 by done| |done].
      * Z.to_euclidean_division_equations; lia.
      * intros E. apply N. apply slot_of_inj; [lia|lia|done].
  - rewrite Hs2. destruct (Z.lt_ge_cases (off / 512) 12) as [Hd|Hd].
    + rewrite Hs by (done || lia). rewrite C2. Z.to_euclidean_division_equations; lia.
    + specialize (Hi Hd). split; [done|]. Z.to_euclidean_division_equations; lia.
Qed.

Lemma iappend_loop_spec fuel : forall s V din off p,
  rep s V -> file_ok mk_sb V (i_addrs din) -> compact V (i_addrs din) off ->
  0 <= off -> off + Z.of_nat (length p) <= 71680 -> (length p <= fuel)%nat ->
  mk_freeblock s + (blocks (off + Z.of_nat (length p)) - blocks off) <= 1000 ->
  exists s' V' addrs, iappend_loop fuel din off p s = Ok ((set_i_addrs addrs din, off + Z.of_nat (length p)), s') /\
    rep s' V' /\ grows mk_sb (overwrite (fbyte V (i_addrs din)) off p) V (i_addrs din) V' addrs /\
    compact V' addrs (off + Z.of_nat (length p)) /\
    mk_freeblock s' = mk_freeblock s + (blocks (off + Z.of_nat (length p)) - blocks off) /\
    mk_freeinode s' = mk_freeinode s.
Proof.
  induction fuel as [|fuel IH]; intros s V din off p R F C Hoff Hmax Hfuel Hf; (destruct p as [|b p']; [|]).
  1,3: exists s, V, (i_addrs din); simpl; rewrite Z.add_0_r; split; [by destruct din|]; split; [done|]; split;
    [eapply grows_ext; [|by apply grown_refl; [eapply rep_disk|]]; intros x _; by rewrite overwrite_nil|];
    split; [done|]; split; [lia|done].
  { simpl in Hfuel. lia. }
  set (p := b :: p') in *. assert (Hpos : 0 < Z.of_nat (length p)) by (simpl; lia).
  set (m := Z.min (Z.of_nat (length p)) ((off / 512 + 1) * 512 - off)).
  assert (Hm : 0 < m <= Z.of_nat (length p) /\ off mod 512 + m <= 512) by (unfold m; Z.to_euclidean_division_equations; lia).
  set (l := take (Z.to_nat m) p). set (rest := drop (Z.to_nat m) p).
  assert (El : Z.of_nat (length l) = m) by (unfold l; rewrite length_take; lia).
  assert (Er : Z.of_nat (length rest) = Z.of_nat (length p) - m) by (unfold rest; rewrite length_drop; lia).
  assert (Ep : p = l ++ rest) by (symmetry; apply take_drop).
  pose proof (blocks_mono off (off + m) ltac:(lia)). pose proof (blocks_mono (off + m) (off + Z.of_nat (length p)) ltac:(lia)).
  destruct (append_turn s V din off l R F C) as (s1 & V1 & addrs & E1 & R1 & G1 & C1 & Ef1 & Ei1);
    [lia|lia|lia|lia|rewrite El; lia|]. rewrite El in *.
  assert (Eloop : iappend_loop (S fuel) din off p s =
    (let! din := (let! r := block_for din (off / 512) in
      let '(din, x) := r in
      let! buf := rsect x in
      do! wsect x (put_bytes (off - off / 512 * 512) l buf) in ret din) in
     iappend_loop fuel din (u32 (off + m)) rest) s).
  { unfold p at 1. cbn [iappend_loop]. fold p. change BSIZE with 512.
    rewrite (proj2 (Z.ltb_lt _ _)) by (unfold MAXFILE; Z.to_euclidean_division_equations; lia). cbn [negb].
    unfold bind. destruct (block_for din (off / 512) s) as [[[din1 x] s2]| | |]; [|done..].
    by destruct (rsect x s2) as [[buf s3]| | |]. }
  rewrite Eloop, (bind_Ok _ _ _ _ _ E1), u32_small by lia.
  destruct (IH s1 V1 (set_i_addrs addrs din) (off + m) rest R1) as (s2 & V2 & addrs2 & E2 & R2 & G2 & C2 & Ef2 & Ei2);
    [apply G1|done|lia|lia|unfold rest; rewrite length_drop; lia| |].
  { rewrite Er. replace (off + m + (Z.of_nat (length p) - m)) with (off + Z.of_nat (length p)) by lia. lia. }
  cbn [i_addrs set_i_addrs] in G2. exists s2, V2, addrs2. rewrite Er in *.
  replace (off + m + (Z.of_nat (length p) - m)) with (off + Z.of_nat (length p)) in * by lia.
  split; [by rewrite E2|]. split; [done|]. split; [|split; [done|]; split; [lia|congruence]].
  eapply grows_ext; [|by eapply grown_trans; [exact mk_layout|exact G1|exact G2]].
  intros x Hx. rewrite Ep, <-overwrite_app, El. by apply overwrite_ext, (gr_byte _ _ _ _ _ _ G1).
Qed.

(** ** The files of the image *)

Record mfile : Type := MFile { m_type : Z; m_data : list Z }.
Notation m_len f := (Z.of_nat (length (m_data f))).

(** The inode [inum] on the disk [V] is [i], a file that holds [f] and then zeroes. *)
Record good (V : Z -> blk) (inum : Z) (i : inode) (f : mfile) : Prop := {
  gd_inum : i_inum i = inum;
  gd_type : i_type i = m_type f;
  gd_nlink : i_nlink i = 1;
  gd_size : i_size i = m_len f;
  gd_max : m_len f <= 71680;
  gd_fits : dinode_fits i;
  gd_synced : synced mk_sb V i;
  gd_file : file_ok mk_sb V (i_addrs i);
  gd_compact : compact V (i_addrs i) (m_len f);
  gd_bytes : forall x, 0 <= x < 71680 -> fbyte V (i_addrs i) x = default 0 (m_data f !! Z.to_nat x);
}.

(** No block belongs to two files. *)
Definition apart (V : Z -> blk) (i i' : inode) : Prop :=
  forall a b, (a < SLOTS)%nat -> (b < SLOTS)%nat -> slot V (i_addrs i) a <> 0 ->
    slot V (i_addrs i) a <> slot V (i_addrs i') b.

Fixpoint total (C : list mfile) : Z :=
  match C with
  | [] => 0
  | f :: C => blocks (m_len f) + total C
  end.

(** The inodes from 1 on hold the files [C]. *)
Record mk_ok (s : mkfs) (Is : list inode) (C : list mfile) : Prop := {
  mo_base : base s;
  mo_count : mk_freeinode s = 1 + Z.of_nat (length Is);
  mo_max : (length Is <= 199)%nat;
  mo_len : length C = length Is;
  mo_good : forall k i f, Is !! k = Some i -> C !! k = Some f -> good (shadow s) (1 + Z.of_nat k) i f;
  mo_apart : forall j k i i', j <> k -> Is !! j = Some i -> Is !! k = Some i' -> apart (shadow s) i i';
  mo_blocks : mk_freeblock s = 59 + total C;
}.

(** A change elsewhere on the disk. *)
Lemma good_frame V V' n i f :
  good V n i f ->
  (forall k, (k < SLOTS)%nat -> slot V (i_addrs i) k <> 0 -> V' (slot V (i_addrs i) k) = V (slot V (i_addrs i) k)) ->
  (forall x, 0 <= x < 1000 -> used mk_sb V x = true -> used mk_sb V' x = true) ->
  (forall j, on_disk mk_sb V' n j = on_disk mk_sb V n j) ->
  good V' n i f /\ forall k, slot V' (i_addrs i) k = slot V (i_addrs i) k.
Proof.
  intros G Hb Hu Hd. destruct (file_frame mk_sb mk_data mk_layout V V' (i_addrs i) (gd_file _ _ _ _ G) Hb Hu) as (F' & Hs & Hx).
  split; [|done]. destruct G as [G1 G2 G3 G4 G5 G6 G7 G8 G9 G10]. split; try done.
  - intros j. rewrite G1, Hd, <-G1. apply G7.
  - destruct G9 as [C1 C2]. split; [intros bn Hbn|]; rewrite Hs; [by apply C1|done].
  - intros x Hx'. rewrite Hx by (unfold MAXFILE, Bz, BSIZE; lia). by apply G10.
Qed.

Lemma ninodes_bound n : 1 <= n < 200 -> 0 <= n < sb_ninodes mk_sb.
Proof. change (sb_ninodes mk_sb) with 200. lia. Qed.

Lemma IBLOCK_range n : 1 <= n < 200 -> 32 <= IBLOCK n mk_sb < 58.
Proof. intros Hn. apply (IBLOCK_meta mk_sb mk_data mk_layout n). by apply ninodes_bound. Qed.

(** [winode] of a dinode with the disk fields of [i]. *)
Lemma winode_spec s V n din i :
  rep s V -> 1 <= n < 200 -> i_inum i = n -> (forall d off, write_dinode din off d = write_dinode i off d) ->
  length (i_addrs i) = S NDIRECT ->
  exists s', winode n din s = Ok (tt, s') /\ rep s' (put_inode mk_sb V i) /\
    mk_freeblock s' = mk_freeblock s /\ mk_freeinode s' = mk_freeinode s.
Proof.
  intros R Hn Ei Ed Hl. pose proof (IBLOCK_range n Hn) as Hb. pose proof (ba_free _ (proj1 R)) as Hf. unfold winode.
  rewrite (bind_Ok _ _ _ _ _ (rep_read s V (IBLOCK n mk_sb) R ltac:(lia) ltac:(lia))).
  destruct (rep_write s V (IBLOCK n mk_sb) (write_dinode din (dinode_off n) (V (IBLOCK n mk_sb))) R) as (s' & E & R' & H);
    [lia|lia| |].
  - rewrite length_write_dinode. apply (dk_len _ _ (rep_disk s V R)).
  - exists s'. split; [done|]. split; [|done]. unfold put_inode. by rewrite Ei, <-Ed.
Qed.

Lemma rinode_spec s V n i f :
  rep s V -> good V n i f -> 1 <= n < 200 -> rinode n s = Ok (loaded i inode0, s).
Proof.
  intros R G Hn. pose proof (IBLOCK_range n Hn) as Hb. unfold rinode.
  rewrite (bind_Ok _ _ _ _ _ (rep_read s V (IBLOCK n mk_sb) R ltac:(lia) ltac:(lia))). unfold ret.
  do 2 f_equal. rewrite <-(gd_synced _ _ _ _ G inode0). by rewrite (gd_inum _ _ _ _ G).
Qed.

Lemma total_insert C k f f' :
  C !! k = Some f -> total (<[k := f']> C) = total C - blocks (m_len f) + blocks (m_len f').
Proof.
  revert k. induction C as [|g C IH]; intros k Hk; [done|]. destruct k as [|k]; simpl in *.
  - injection Hk as ->. lia.
  - rewrite (IH k) by done. lia.
Qed.

(** The disk after a file changed and its dinode was stored. *)
Lemma put_inode_data V i b : 1 <= i_inum i < 200 -> 58 <= b -> put_inode mk_sb V i b = V b.
Proof. intros Hi Hb. pose proof (IBLOCK_range _ Hi). unfold put_inode. by rewrite fn_lookup_insert_ne by lia. Qed.

Lemma used_data V V' x : (forall b, 58 <= b -> V' b = V b) -> 0 <= x < 1000 -> used mk_sb V' x = used mk_sb V x.
Proof.
  intros H Hx. unfold used. pose proof (BBLOCK_meta mk_sb mk_data mk_layout x Hx) as Hb.
  change (sb_bmapstart mk_sb) with 58 in Hb. by rewrite H by lia.
Qed.

Section Append.
Context (V V1 : Z -> blk) (i i' : inode) (n : Z) (B : Z -> Z).
Hypothesis Hn : 1 <= n < 200.
Hypothesis Ei : i_inum i' = n.
Hypothesis G1 : grows mk_sb B V (i_addrs i) V1 (i_addrs i').
Notation V2 := (put_inode mk_sb V1 i').

Lemma changed_slots k : slot V2 (i_addrs i') k = slot V1 (i_addrs i') k.
Proof.
  eapply (file_frame mk_sb mk_data mk_layout V1 V2); [apply G1|..].
  - intros j Hj Hs. apply put_inode_data; [lia|].
    destruct (fo_good _ _ _ (gr_file _ _ _ _ _ _ G1) j Hj Hs) as [Hr _]. rewrite mk_first in Hr. lia.
  - intros x Hx Hu. rewrite <-Hu. apply used_data; [|done]. intros b Hb. apply put_inode_data; [lia|done].
Qed.

(** Another file. *)
Lemma other_good m j f :
  good V m j f -> 1 <= m < 200 -> m <> n -> apart V j i -> length (i_addrs i') = S NDIRECT ->
  good V2 m j f /\ forall k, slot V2 (i_addrs j) k = slot V (i_addrs j) k.
Proof.
  intros G Hm Hne Ha Hl. pose proof (gd_file _ _ _ _ G) as F. apply (good_frame V V2 m j f G).
  - intros k Hk Hs. destruct (fo_good _ _ _ F k Hk Hs) as [Hr Hu]. pose proof Hr as Hr'. rewrite mk_first in Hr'.
    rewrite put_inode_data by lia. apply (gr_frame _ _ _ _ _ _ G1); [done|done|]. intros b Hb E. by apply (Ha k b).
  - intros x Hx Hu. rewrite (used_data V1 V2) by (done || (intros b Hb; apply put_inode_data; lia)).
    apply (gr_used _ _ _ _ _ _ G1); [done|done].
  - intros y. rewrite (put_inode_other mk_sb mk_layout); [|by apply ninodes_bound; lia|by apply ninodes_bound|done|lia].
    unfold on_disk. pose proof (IBLOCK_range m Hm). rewrite (gr_meta _ _ _ _ _ _ G1); [done|].
    change (sb_bmapstart mk_sb) with 58. lia.
Qed.

Lemma apart_changed j :
  file_ok mk_sb V (i_addrs j) -> apart V j i -> apart V i j ->
  (forall k, slot V2 (i_addrs j) k = slot V (i_addrs j) k) -> apart V2 j i' /\ apart V2 i' j.
Proof.
  intros F A1 A2 Hs.
  assert (H : forall a b, (a < SLOTS)%nat -> (b < SLOTS)%nat -> slot V (i_addrs j) a <> 0 -> slot V1 (i_addrs i') b <> 0 ->
    slot V (i_addrs j) a <> slot V1 (i_addrs i') b).
  { intros a b Ha Hb Hj Hi. destruct (gr_new _ _ _ _ _ _ G1 b Hb Hi) as [E|E]; [rewrite E; by apply A1|].
    intros E'. rewrite <-E' in E. destruct (fo_good _ _ _ F a Ha Hj) as [_ Hu]. congruence. }
  split; intros a b Ha Hb; rewrite Hs, changed_slots; intros Hn0 E.
  - apply (H a b); [done..|congruence|done].
  - apply (H b a); [done..|congruence|done|done].
Qed.
End Append.

(** The disk pointers fit in a dinode. *)
Lemma addrs_fit V addrs : file_ok mk_sb V addrs -> Forall (fun a => 0 <= a < 2 ^ 32) addrs.
Proof.
  intros F. apply Forall_lookup. intros k a Ha. pose proof (lookup_lt_Some _ _ _ Ha) as Hk. rewrite (fo_len _ _ _ F) in Hk.
  pose proof (slot_small V addrs k F) as H. unfold slot in H. rewrite (proj2 (Nat.leb_le _ _)), Ha in H by lia.
  unfold SLOTS, NDIRECT in *. simpl in H. lia.
Qed.

(** The file at [k], which was [i], becomes [i']. *)
Lemma mk_ok_change s Is C s' Is' C' V1 k i i' f' B :
  mk_ok s Is C -> base s' -> shadow s' = put_inode mk_sb V1 i' ->
  grows mk_sb B (shadow s) (i_addrs i) V1 (i_addrs i') ->
  file_ok mk_sb (shadow s) (i_addrs i) ->
  (forall j i2, j <> k -> Is !! j = Some i2 -> apart (shadow s) i i2 /\ apart (shadow s) i2 i) ->
  (k < 199)%nat -> (length Is' <= 199)%nat -> length C' = length Is' ->
  Is' !! k = Some i' -> C' !! k = Some f' -> good (shadow s') (1 + Z.of_nat k) i' f' ->
  (forall j, j <> k -> Is' !! j = Is !! j /\ C' !! j = C !! j) ->
  mk_freeinode s' = 1 + Z.of_nat (length Is') -> mk_freeblock s' = 59 + total C' ->
  mk_ok s' Is' C'.
Proof.
  intros O B' ES G F Ha Hk Hl Hc EI EC Gd Ho Hfi Hfb. pose proof (fo_len _ _ _ (gr_file _ _ _ _ _ _ G)) as Hla.
  assert (Hn : 1 <= 1 + Z.of_nat k < 200) by lia. pose proof (gd_inum _ _ _ _ Gd) as Ei.
  assert (OG : forall j i2, j <> k -> Is' !! j = Some i2 ->
    exists f, C' !! j = Some f /\ file_ok mk_sb (shadow s) (i_addrs i2) /\ good (shadow s') (1 + Z.of_nat j) i2 f /\
      forall a, slot (shadow s') (i_addrs i2) a = slot (shadow s) (i_addrs i2) a).
  { intros j i2 Hj Hi2. pose proof (lookup_lt_Some _ _ _ Hi2) as Hlt. rewrite <-Hc in Hlt.
    destruct (lookup_lt_is_Some_2 C' j Hlt) as [f Hf]. exists f. split; [done|].
    destruct (Ho j Hj) as [H1 H2]. pose proof Hi2 as Hi2'. rewrite H1 in Hi2. pose proof Hf as Hf'. rewrite H2 in Hf.
    pose proof (mo_good _ _ _ O j i2 f Hi2 Hf) as Gj. pose proof (lookup_lt_Some _ _ _ Hi2').
    split; [apply Gj|]. rewrite ES.
    apply (other_good _ _ i i' _ B Hn Ei G); [done|lia|lia|by apply (Ha j)|done]. }
  split; [done|done|done|done| | |done].
  - intros j i2 f Hi2 Hf. destruct (decide (j = k)) as [->|N]; [by rewrite EI in Hi2; rewrite EC in Hf; simplify_eq|].
    destruct (OG j i2 N Hi2) as (f2 & Hf2 & _ & Gj & _). by simplify_eq.
  - intros j l i1 i2 Hne Hi1 Hi2. destruct (decide (j = k)) as [->|N]; [|destruct (decide (l = k)) as [->|N']].
    + rewrite EI in Hi1. simplify_eq. destruct (OG l i2 ltac:(done) Hi2) as (f2 & _ & F2 & _ & Hs).
      destruct (Ho l ltac:(done)) as [H1 _]. rewrite H1 in Hi2. destruct (Ha l i2 ltac:(done) Hi2). rewrite ES in *.
      by eapply apart_changed.
    + rewrite EI in Hi2. simplify_eq. destruct (OG j i1 N Hi1) as (f2 & _ & F2 & _ & Hs).
      destruct (Ho j N) as [H1 _]. rewrite H1 in Hi1. destruct (Ha j i1 N Hi1). rewrite ES in *. by eapply apart_changed.
    + destruct (OG j i1 N Hi1) as (f1 & _ & _ & _ & Hs1). destruct (OG l i2 N' Hi2) as (f2 & _ & _ & _ & Hs2).
      rewrite (proj1 (Ho j N)) in Hi1. rewrite (proj1 (Ho l N')) in Hi2.
      intros a b A1 B1. rewrite Hs1, Hs2. by eapply (mo_apart _ _ _ O j l).
Qed.

(** The inode of a file that [iappend] leaves. *)
Definition appended (n : Z) (i : inode) (addrs : list Z) (size : Z) : inode :=
  set_i_inum n (set_i_size size (set_i_addrs addrs (loaded i inode0))).

Lemma good_stored V1 n i' f :
  disk_ok mk_sb V1 -> 1 <= n < 200 -> i_inum i' = n -> i_type i' = m_type f -> i_nlink i' = 1 -> i_size i' = m_len f ->
  m_len f <= 71680 -> dinode_fits i' -> file_ok mk_sb V1 (i_addrs i') -> compact V1 (i_addrs i') (m_len f) ->
  (forall x, 0 <= x < 71680 -> fbyte V1 (i_addrs i') x = default 0 (m_data f !! Z.to_nat x)) ->
  good (put_inode mk_sb V1 i') n i' f.
Proof.
  intros D Hn Ei Et El Es Hm Hf F C Hx.
  assert (Hd : forall b, 58 <= b -> put_inode mk_sb V1 i' b = V1 b) by (intros b Hb; apply put_inode_data; lia).
  destruct (file_frame mk_sb mk_data mk_layout V1 (put_inode mk_sb V1 i') (i_addrs i') F) as (F' & Hs & Hb).
  { intros k Hk Hsk. apply Hd. destruct (fo_good _ _ _ F k Hk Hsk) as [Hr _]. rewrite mk_first in Hr. lia. }
  { intros x Hx' Hu. by rewrite (used_data V1). }
  split; try done.
  - by apply put_inode_synced.
  - destruct C as [C1 C2]. split; [intros bn Hbn|]; rewrite Hs; [by apply C1|done].
  - intros x Hx'. rewrite Hb by (unfold MAXFILE, Bz, BSIZE; lia). by apply Hx.
Qed.

Lemma good_appended V V1 n i f addrs p :
  good V n i f -> 1 <= n < 200 -> disk_ok mk_sb V1 -> m_len f + Z.of_nat (length p) <= 71680 ->
  grows mk_sb (overwrite (fbyte V (i_addrs i)) (m_len f) p) V (i_addrs i) V1 addrs ->
  compact V1 addrs (m_len f + Z.of_nat (length p)) ->
  let i' := appended n i addrs (m_len f + Z.of_nat (length p)) in
  good (put_inode mk_sb V1 i') n i' (MFile (m_type f) (m_data f ++ p)).
Proof.
  intros G Hn D Hm Gr C i'. pose proof (gd_fits _ _ _ _ G) as (H1 & H2 & H3 & H4 & _ & _ & _).
  assert (El : m_len (MFile (m_type f) (m_data f ++ p)) = m_len f + Z.of_nat (length p)) by (cbn; rewrite length_app; lia).
  apply good_stored; rewrite ?El; try done; try apply G.
  - split_and!; cbn; try done; try lia; [apply (gr_file _ _ _ _ _ _ Gr)|eapply addrs_fit, Gr].
  - cbn. apply (gr_file _ _ _ _ _ _ Gr).
  - intros x Hx. cbn. rewrite (gr_byte _ _ _ _ _ _ Gr) by (unfold MAXFILE, Bz, BSIZE; lia). unfold overwrite.
    destruct (Z.leb_spec (m_len f) x), (Z.ltb_spec x (m_len f + Z.of_nat (length p))); cbn [andb]; try lia.
    + rewrite lookup_app_r by lia. do 2 f_equal. lia.
    + rewrite (gd_bytes _ _ _ _ G), !lookup_ge_None_2 by (rewrite ?length_app; lia). done.
    + rewrite lookup_app_l by lia. apply (gd_bytes _ _ _ _ G). lia.
Qed.

Lemma iappend_ok s Is C k i f p :
  mk_ok s Is C -> Is !! k = Some i -> C !! k = Some f -> m_len f + Z.of_nat (length p) <= 71680 ->
  mk_freeblock s + (blocks (m_len f + Z.of_nat (length p)) - blocks (m_len f)) <= 1000 ->
  exists s' i', iappend (1 + Z.of_nat k) p s = Ok (tt, s') /\
    mk_ok s' (<[k := i']> Is) (<[k := MFile (m_type f) (m_data f ++ p)]> C).
Proof.
  intros O Hi Hf Hm Hb. pose proof (lookup_lt_Some _ _ _ Hi) as Hk. pose proof (mo_max _ _ _ O) as Hmx.
  pose proof (mo_good _ _ _ O k i f Hi Hf) as G. set (n := 1 + Z.of_nat k) in *. assert (Hn : 1 <= n < 200) by lia.
  assert (R : rep s (shadow s)) by (split; [apply O|done]).
  unfold iappend. rewrite (bind_Ok _ _ _ _ _ (rinode_spec s _ n i f R G Hn)).
  change (i_size (loaded i inode0)) with (i_size i). rewrite (gd_size _ _ _ _ G), xint_small by lia.
  destruct (iappend_loop_spec (length p) s (shadow s) (loaded i inode0) (m_len f) p R)
    as (s1 & V1 & addrs & E1 & R1 & G1 & C1 & Ef1 & Ei1); [apply G|apply G|lia|lia|done|done|].
  rewrite (bind_Ok _ _ _ _ _ E1), xint_small by lia. cbn [i_addrs set_i_addrs loaded] in G1.
  pose proof (rep_disk _ _ R1) as D1. pose proof (good_appended _ _ n i f addrs p G Hn D1 Hm G1 C1) as Gn.
  set (i' := appended _ _ _ _) in Gn.
  destruct (winode_spec s1 V1 n (set_i_size (m_len f + Z.of_nat (length p)) (set_i_addrs addrs (loaded i inode0))) i' R1 Hn)
    as (s2 & E2 & [B2 R2] & Ef2 & Ei2); [done|done|cbn; apply (gr_file _ _ _ _ _ _ G1)|].
  exists s2, i'. split; [exact E2|].
  apply (mk_ok_change s Is C s2 _ _ V1 k i i' (MFile (m_type f) (m_data f ++ p)) _ O B2 R2 G1 (gd_file _ _ _ _ G)).
  - intros j i2 Hj Hi2. split; [by apply (mo_apart _ _ _ O k j)|by apply (mo_apart _ _ _ O j k)].
  - lia.
  - by rewrite length_insert.
  - rewrite !length_insert. apply O.
  - by rewrite list_lookup_insert_eq.
  - rewrite list_lookup_insert_eq; [done|]. rewrite (mo_len _ _ _ O). done.
  - rewrite R2. exact Gn.
  - intros j Hj. by rewrite !list_lookup_insert_ne by done.
  - rewrite length_insert, <-(mo_count _ _ _ O). congruence.
  - rewrite (total_insert C k f) by done. cbn [m_data]. rewrite length_app, Ef2, Ef1, (mo_blocks _ _ _ O), Nat2Z.inj_add. lia.
Qed.

(** A new inode has no blocks. *)
Lemma slot_empty V k : slot V (replicate 13 0) k = 0.
Proof.
  unfold slot. destruct (Nat.leb_spec k NDIRECT) as [Hk|Hk].
  - apply default_replicate0.
  - reflexivity.
Qed.

Definition fresh_inode (n type : Z) : inode := set_i_inum n (set_i_nlink 1 (set_i_type type inode0)).

Lemma empty_file V : file_ok mk_sb V (replicate 13 0).
Proof. split; [done|..]; intros; rewrite slot_empty in *; done. Qed.

Lemma ialloc_ok s Is C type :
  mk_ok s Is C -> (length Is < 199)%nat -> 0 <= type < 2 ^ 15 ->
  exists s' i', ialloc type s = Ok (1 + Z.of_nat (length Is), s') /\
    mk_ok s' (Is ++ [i']) (C ++ [MFile type []]).
Proof.
  intros O Hl Ht. set (n := 1 + Z.of_nat (length Is)). assert (Hn : 1 <= n < 200) by lia.
  pose proof (mo_base _ _ _ O) as B. set (i' := fresh_inode n type). set (V := shadow s).
  set (s1 := Mkfs (mk_img s) (mk_len s) (u32 (mk_freeinode s + 1)) (mk_freeblock s)).
  assert (R1 : rep s1 V) by (split; [by destruct B; constructor|done]). pose proof (rep_disk _ _ R1) as D.
  assert (E1 : next_inode s = Ok (n, s1)).
  { unfold next_inode, bind, get, put, ret. fold s1. by rewrite (mo_count _ _ _ O). }
  unfold ialloc. rewrite (bind_Ok _ _ _ _ _ E1).
  destruct (winode_spec s1 V n (set_i_size (xint 0) (set_i_nlink (xshort 1) (set_i_type (xshort type) inode0))) i' R1 Hn)
    as (s2 & E2 & [B2 R2] & Ef2 & Ei2); [done| |done|].
  { intros d off. by rewrite (xshort_small type), (xshort_small 1), (xint_small 0) by lia. }
  rewrite (bind_Ok _ _ _ _ _ E2). exists s2, i'. split; [done|].
  assert (Hlen : length C = length Is) by apply O.
  apply (mk_ok_change s Is C s2 _ _ V (length Is) i' i' (MFile type []) (fbyte V (i_addrs i')) O B2 R2).
  - apply grown_refl; [done|apply empty_file].
  - apply empty_file.
  - intros j i2 Hj Hi2. split; intros a b Ha Hb; cbn [i' fresh_inode i_addrs set_i_inum set_i_nlink set_i_type inode0];
      rewrite slot_empty; done.
  - done.
  - rewrite length_app. simpl. lia.
  - rewrite !length_app, Hlen. done.
  - by rewrite lookup_app_r, Nat.sub_diag by done.
  - rewrite <-Hlen. by rewrite lookup_app_r, Nat.sub_diag by done.
  - rewrite R2. apply good_stored; try done.
    + split_and!; cbn; try done; try lia. by apply (Forall_replicate _ 13 0).
    + apply empty_file.
    + split; [intros bn Hbn|]; cbn [i' fresh_inode i_addrs set_i_inum set_i_nlink set_i_type inode0]; rewrite slot_empty; simpl; lia.
    + intros x Hx. unfold fbyte. cbn [i' fresh_inode i_addrs set_i_inum set_i_nlink set_i_type inode0]. by rewrite slot_empty.
  - intros j Hj. destruct (decide (j < length Is)%nat); [by rewrite !lookup_app_l by lia|].
    rewrite !lookup_app_r by lia. rewrite !(lookup_ge_None_2 _ j) by lia.
    rewrite !(lookup_ge_None_2 [_]); [done|simpl; lia..].
  - rewrite Ei2, length_app. cbn. rewrite (mo_count _ _ _ O), u32_small; lia.
  - rewrite Ef2. cbn. rewrite (mo_blocks _ _ _ O). assert (total (C ++ [MFile type []]) = total C); [|lia].
    clear. induction C as [|g C IH]; simpl; [done|lia].
Qed.

(** ** The files of the command line *)

Lemma blocks_nonneg n : 0 <= n -> 0 <= blocks n.
Proof. intros Hn. unfold blocks. destruct (6144 <? n); Z.to_euclidean_division_equations; lia. Qed.
Lemma total_nonneg C : 0 <= total C.
Proof. induction C as [|f C IH]; simpl; [done|]. pose proof (blocks_nonneg (m_len f)). lia. Qed.
Lemma total_app C C' : total (C ++ C') = total C + total C'.
Proof. induction C as [|f C IH]; simpl; [done|lia]. Qed.

(** The files [C], with some inodes. *)
Definition holds (s : mkfs) (C : list mfile) : Prop := exists Is, mk_ok s Is C.

Lemma iappend_holds s C k f p :
  holds s C -> C !! k = Some f -> m_len f + Z.of_nat (length p) <= 71680 ->
  59 + total (<[k := MFile (m_type f) (m_data f ++ p)]> C) <= 1000 ->
  exists s', iappend (1 + Z.of_nat k) p s = Ok (tt, s') /\ holds s' (<[k := MFile (m_type f) (m_data f ++ p)]> C).
Proof.
  intros [Is O] Hf Hm Hb. pose proof (lookup_lt_Some _ _ _ Hf) as Hk. rewrite (mo_len _ _ _ O) in Hk.
  destruct (lookup_lt_is_Some_2 Is k Hk) as [i Hi].
  rewrite (total_insert C k f) in Hb by done. cbn [m_data] in Hb. rewrite length_app, Nat2Z.inj_add in Hb.
  destruct (iappend_ok s Is C k i f p O Hi Hf Hm) as (s' & i' & E & O'); [rewrite (mo_blocks _ _ _ O); lia|].
  exists s'. split; [done|by eexists].
Qed.

Lemma append_all_holds chunks : forall s C k f,
  holds s C -> C !! k = Some f -> m_len f + Z.of_nat (length (concat chunks)) <= 71680 ->
  59 + total (<[k := MFile (m_type f) (m_data f ++ concat chunks)]> C) <= 1000 ->
  exists s', append_all (1 + Z.of_nat k) chunks s = Ok (tt, s') /\
    holds s' (<[k := MFile (m_type f) (m_data f ++ concat chunks)]> C).
Proof.
  induction chunks as [|c chunks IH]; intros s C k f H Hf Hm Hb; cbn [concat append_all] in *.
  - exists s. rewrite app_nil_r. split; [done|]. rewrite list_insert_id; [done|]. by destruct f.
  - pose proof (lookup_lt_Some _ _ _ Hf) as Hk. rewrite length_app in Hm.
    set (f1 := MFile (m_type f) (m_data f ++ c)).
    destruct (iappend_holds s C k f c H Hf) as (s1 & E1 & H1); [lia| |].
    + rewrite (total_insert C k f) in Hb |- * by done.
      pose proof (blocks_mono (m_len f1) (m_len (MFile (m_type f) (m_data f ++ c ++ concat chunks)))) as Hmono.
      unfold f1 in *. cbn [m_data] in *. rewrite !length_app in *. lia.
    + rewrite (bind_Ok _ _ _ _ _ E1). fold f1 in H1.
      destruct (IH s1 (<[k := f1]> C) k f1 H1) as (s2 & E2 & H2); [by apply list_lookup_insert_eq| | |].
      * cbn [f1 m_data]. rewrite length_app. lia.
      * rewrite list_insert_insert_eq. cbn [f1 m_data m_type]. by rewrite <-app_assoc.
      * exists s2. split; [done|]. rewrite list_insert_insert_eq in H2. cbn [f1 m_data m_type] in H2.
        by rewrite <-app_assoc in H2.
Qed.

(** A file that can be added, and what the image then has for it. *)
Definition addable (f : infile) : Prop :=
  Forall (fun z => z <> 0) (fst f) /\ existsb (Z.eqb 47) (fst f) = false /\ snd f <> None /\ Z.of_nat (length (concat (default [] (snd f)))) <= 71680.
Definition file_of (f : infile) : mfile := MFile T_FILE (concat (default [] (snd f))).

Lemma insert_last (f g h : mfile) fs : <[S (length fs) := g]> (f :: fs ++ [h]) = f :: fs ++ [g].
Proof. change (f :: <[length fs := g]> (fs ++ [h]) = f :: fs ++ [g]). by rewrite insert_app_r_alt, Nat.sub_diag by done. Qed.

Lemma add_file_holds s d fs f :
  holds s (MFile T_DIR d :: fs) -> addable f -> (length fs < 198)%nat ->
  let de := mk_dirent (2 + Z.of_nat (length fs)) (skip_underscore (fst f)) in
  Z.of_nat (length d) + 16 <= 71680 ->
  59 + total (MFile T_DIR (d ++ de) :: fs ++ [file_of f]) <= 1000 ->
  exists s', add_file 1 f s = Ok (tt, s') /\ holds s' (MFile T_DIR (d ++ de) :: fs ++ [file_of f]).
Proof.
  intros [Is O] (_ & Hs & Ho & Hl) Hn de Hd Hb. unfold add_file. rewrite Hs. unfold file_of in *.
  destruct f as [name [chunks|]]; [|done]. cbn [snd fst default from_option id] in *.
  destruct (mk_dirent_fields (2 + Z.of_nat (length fs)) (skip_underscore name)) as (Hde & _ & _). fold de in Hde.
  pose proof (mo_len _ _ _ O) as Hc. cbn [length] in Hc.
  destruct (ialloc_ok s Is _ T_FILE O) as (s1 & i1 & E1 & O1); [lia|done|]. rewrite (bind_Ok _ _ _ _ _ E1), <-Hc.
  replace (1 + Z.of_nat (S (length fs))) with (2 + Z.of_nat (length fs)) by lia. rewrite xshort_small by lia. fold de.
  cbn [app] in O1. cbn [total m_data] in Hb. rewrite total_app, length_app in Hb. cbn [total m_data] in Hb.
  pose proof (blocks_nonneg (Z.of_nat (length (concat chunks))) ltac:(lia)) as Hnn.
  destruct (iappend_holds s1 _ 0 (MFile T_DIR d) de (ex_intro _ _ O1)) as (s2 & E2 & H2);
    [done|cbn [m_data]; lia| |].
  { cbn [insert list_insert total m_data m_type]. rewrite length_app, total_app. cbn [total m_data].
    change (blocks (Z.of_nat (length []))) with 0. lia. }
  rewrite (bind_Ok _ _ _ _ _ E2). cbn [m_type m_data insert list_insert] in H2.
  destruct (append_all_holds chunks s2 _ (S (length fs)) (MFile T_FILE []) H2) as (s3 & E3 & H3).
  - change ((fs ++ [MFile T_FILE []]) !! length fs = Some (MFile T_FILE [])). by rewrite lookup_app_r, Nat.sub_diag by done.
  - cbn. lia.
  - rewrite insert_last. cbn [m_type m_data app total]. rewrite total_app, length_app. cbn [total m_data]. lia.
  - exists s3. replace (2 + Z.of_nat (length fs)) with (1 + Z.of_nat (S (length fs))) by lia. split; [done|].
    by rewrite insert_last in H3.
Qed.

(** The names the root directory gets, with their inode numbers. *)
Fixpoint entries (n : Z) (fl : list infile) : list (list Z * Z) :=
  match fl with
  | [] => []
  | f :: fl => (skip_underscore (fst f), n) :: entries (n + 1) fl
  end.
Definition dirents (L : list (list Z * Z)) : list Z := concat ((fun e => mk_dirent (snd e) (fst e)) <$> L).
Definition names (fl : list infile) : list (list Z * Z) := ([46], 1) :: ([46; 46], 1) :: entries 2 fl.
Definition image_files (fl : list infile) : list mfile := MFile T_DIR (dirents (names fl)) :: (file_of <$> fl).

Lemma length_dirents L : length (dirents L) = (16 * length L)%nat.
Proof.
  unfold dirents. induction L as [|e L IH]; [done|]. cbn [fmap list_fmap concat length]. rewrite length_app, IH.
  destruct (mk_dirent_fields (snd e) (fst e)) as (-> & _ & _). lia.
Qed.
Lemma length_entries fl : forall n, length (entries n fl) = length fl.
Proof. induction fl as [|f fl IH]; intros n; simpl; [done|]. by rewrite IH. Qed.

Lemma add_files_holds fl : forall s d fs,
  holds s (MFile T_DIR d :: fs) -> Forall addable fl -> (length fs + length fl <= 198)%nat ->
  Z.of_nat (length d + 16 * length fl) <= 71680 ->
  let C := MFile T_DIR (d ++ dirents (entries (2 + Z.of_nat (length fs)) fl)) :: fs ++ (file_of <$> fl) in
  59 + total C <= 1000 ->
  exists s', add_files 1 fl s = Ok (tt, s') /\ holds s' C.
Proof.
  induction fl as [|f fl IH]; intros s d fs H Ha Hn Hd; cbn [entries fmap list_fmap add_files].
  - exists s. cbn [dirents fmap list_fmap concat]. rewrite !app_nil_r. done.
  - apply Forall_cons in Ha as [Hf Ha]. cbn [length] in Hn, Hd.
    set (de := mk_dirent (2 + Z.of_nat (length fs)) (skip_underscore (fst f))).
    change (dirents ((?a, ?n) :: ?L)) with (mk_dirent n a ++ dirents L). fold de.
    assert (Hde : length de = 16%nat) by apply mk_dirent_fields.
    replace (2 + Z.of_nat (length fs) + 1) with (2 + Z.of_nat (length (fs ++ [file_of f]))) by (rewrite length_app; simpl; lia).
    rewrite app_assoc. change (file_of f :: (file_of <$> fl)) with ([file_of f] ++ (file_of <$> fl)). rewrite app_assoc.
    intros Hb. destruct (add_file_holds s d fs f H Hf) as (s1 & E1 & H1); [lia|lia| |].
    + cbn [total m_data] in Hb |- *. rewrite total_app in Hb. pose proof (total_nonneg (file_of <$> fl)). fold de.
      pose proof (blocks_mono (Z.of_nat (length (d ++ de)))
        (Z.of_nat (length ((d ++ de) ++ dirents (entries (2 + Z.of_nat (length (fs ++ [file_of f]))) fl))))) as Hmono.
      rewrite (length_app (d ++ de)) in Hmono, Hb. lia.
    + rewrite (bind_Ok _ _ _ _ _ E1). apply (IH s1 (d ++ de)); [done|done| | |done]; rewrite length_app; cbn [length]; lia.
Qed.

(** *** The empty image *)

Lemma write_zeroes_spec n : forall i s,
  mk_img s = (fun _ => zeroes) -> mk_len s = i -> 0 <= i -> i + Z.of_nat n <= 1000 ->
  write_zeroes n i s = Ok (tt, Mkfs (fun _ => zeroes) (i + Z.of_nat n) (mk_freeinode s) (mk_freeblock s)).
Proof.
  induction n as [|n IH]; intros i s Hi Hl H0 Hb; cbn [write_zeroes].
  - unfold ret. destruct s. simpl in *. subst. by rewrite Z.add_0_r.
  - erewrite bind_Ok by reflexivity. rewrite IH.
    + cbn [mk_freeinode mk_freeblock]. do 2 f_equal. f_equal. lia.
    + cbn. rewrite Hi. apply functional_extensionality. intros x. fn_cases; done.
    + cbn. rewrite sector_eq by lia. lia.
    + lia.
    + lia.
Qed.

Definition mkfs1 : mkfs := Mkfs (<[1 := put_sb mk_sb zeroes]> (fun _ => zeroes)) 1000 1 59.

Lemma mkfs_start :
  (do! write_zeroes (Z.to_nat FSSIZE) 0 in wsect 1 (put_sb mk_sb zeroes)) mkfs0 = Ok (tt, mkfs1).
Proof.
  rewrite (bind_Ok _ _ _ _ _ (write_zeroes_spec (Z.to_nat FSSIZE) 0 mkfs0 eq_refl eq_refl ltac:(lia) ltac:(done))).
  reflexivity.
Qed.

Lemma start_holds : holds mkfs1 [].
Proof.
  exists []. split; try done.
  split; try done.
  - intros b. cbn. fn_cases; done.
  - intros b Hb. cbn in *. fn_cases; lia.
  - intros b Hb. cbn. fn_cases; lia.
  - cbn. lia.
Qed.

(** *** The root directory *)

(** The inode number of the first entry with the name, which counts up to 14 bytes. *)
Fixpoint assoc (name : list Z) (L : list (list Z * Z)) : option Z :=
  match L with
  | [] => None
  | (n, inum) :: L => if decide (take DIRSIZ name = take DIRSIZ n) then Some inum else assoc name L
  end.

Definition named (e : list Z * Z) : Prop := 0 < snd e < 65536 /\ Forall (fun z => z <> 0) (fst e).

(** A directory that has the entries [L] and then free ones. *)
Lemma entry_table V i L name :
  (length L <= n_entries i)%nat -> Forall named L -> Forall (fun z => z <> 0) name ->
  (forall k, (k < n_entries i)%nat -> dirent_at V i k =
    match L !! k with Some e => mk_dirent (snd e) (fst e) | None => replicate 16 0 end) ->
  entry V i name = assoc name L.
Proof.
  intros Hl Hn Hz He. unfold entry.
  assert (H : forall n k, (k + n <= n_entries i)%nat -> (length L <= k + n)%nat ->
    (fun j => de_inum (dirent_at V i j)) <$> find_entry V i name k n = assoc name (drop k L)); [|by apply (H (n_entries i) 0%nat)].
  induction n as [|n IH]; intros k Hk Hle; cbn [find_entry].
  - rewrite drop_ge by lia. done.
  - pose proof (He k ltac:(lia)) as Ek. destruct (L !! k) as [[nm inum]|] eqn:EL.
    + rewrite (drop_S _ _ _ EL). cbn [assoc]. destruct (Forall_lookup_1 _ _ _ _ Hn EL) as [Hi Hnm]. cbn [fst snd] in *.
      rewrite Ek, hit_dirent by done. case_bool_decide as D.
      * rewrite decide_True by done. cbn [fmap option_fmap option_map]. rewrite Ek. f_equal. destruct (mk_dirent_fields inum nm) as (_ & -> & _).
        unfold u16. by rewrite Z.mod_small by lia.
      * rewrite decide_False by done. apply IH; lia.
    + rewrite Ek. change (hit name (replicate 16 0)) with false. cbv iota. rewrite IH by lia. apply lookup_ge_None in EL. by rewrite !drop_ge by lia.
Qed.

Lemma named_entries fl : forall n, 0 < n -> n + Z.of_nat (length fl) <= 65536 -> Forall addable fl -> Forall named (entries n fl).
Proof.
  induction fl as [|f fl IH]; intros n Hn Hb Ha; cbn [entries length] in *; [constructor|].
  apply Forall_cons in Ha as [(Hz & _) Ha]. constructor.
  - split; [simpl; lia|]. simpl. destruct (fst f) as [|c nm] eqn:E; [done|]. apply Forall_cons in Hz as [Hc Hz].
    unfold skip_underscore. repeat case_match; simplify_eq; first [done|by constructor].
  - apply IH; [lia|lia|done].
Qed.

Lemma lookup_dirents L : forall k e j, L !! k = Some e -> (j < 16)%nat ->
  dirents L !! (16 * k + j)%nat = mk_dirent (snd e) (fst e) !! j.
Proof.
  induction L as [|e0 L IH]; intros k e j Hk Hj; [done|].
  change (dirents (e0 :: L)) with (mk_dirent (snd e0) (fst e0) ++ dirents L).
  destruct (mk_dirent_fields (snd e0) (fst e0)) as (Hl & _ & _). destruct k as [|k]; simpl in Hk.
  - injection Hk as ->. by rewrite lookup_app_l by lia.
  - rewrite lookup_app_r by lia. rewrite <-(IH k e j) by done. f_equal. lia.
Qed.

(** ** The image *)

(** [V] is a file system that holds the files: what the kernel reads of it is the superblock, an empty log,
    a root directory that has the names, and the files' contents. *)
Record fs_image (V : Z -> blk) (fl : list infile) : Prop := {
  im_sb : get_sb (V 1) = mk_sb;
  im_log : forall b, 2 <= b < 32 -> V b = zeroes;
  im_disk : disk_ok mk_sb V;
  im_used : forall b, 0 <= b < 1000 -> used mk_sb V b = (b <? 59 + total (image_files fl));
  im_root : let root := on_disk mk_sb V 1 inode0 in
    i_type root = T_DIR /\ i_nlink root = 1 /\ i_size root = 512 * ((2 + Z.of_nat (length fl)) / 32 + 1) /\
    file_ok mk_sb V (i_addrs root) /\
    (dir_ok mk_sb V root <-> (2 + Z.of_nat (length fl)) mod 32 <> 0) /\
    forall name, Forall (fun z => z <> 0) name -> entry V root name = assoc name (names fl);
  im_file : forall k (f : infile), fl !! k = Some f ->
    let i := on_disk mk_sb V (2 + Z.of_nat k) inode0 in
    i_type i = T_FILE /\ i_nlink i = 1 /\ inode_ok mk_sb V i /\
    read_spec V i 0 (i_size i) = Some (concat (default [] (snd f)));
  im_apart : forall j k, j <> k -> (j <= length fl)%nat -> (k <= length fl)%nat ->
    apart V (on_disk mk_sb V (1 + Z.of_nat j) inode0) (on_disk mk_sb V (1 + Z.of_nat k) inode0);
}.

(** [main] up to the size of the root directory. *)
Lemma main_adds fl :
  Forall addable fl -> (length fl <= 198)%nat -> 59 + total (image_files fl) <= 1000 ->
  exists s, holds s (image_files fl) /\
    main fl mkfs0 = (let! din := rinode 1 in
      do! winode 1 (set_i_size (xint (u32 ((xint (i_size din) / BSIZE + 1) * BSIZE))) din) in
      let! s := get in balloc (mk_freeblock s)) s.
Proof.
  intros Ha Hn Hb. destruct start_holds as [Is O].
  destruct (ialloc_ok mkfs1 Is [] T_DIR O) as (s1 & i1 & E1 & O1); [rewrite <-(mo_len _ _ _ O); simpl; lia|done|].
  rewrite <-(mo_len _ _ _ O) in E1. cbn [app] in O1.
  destruct (iappend_holds s1 [MFile T_DIR []] 0 (MFile T_DIR []) (dirents [([46], 1)]) (ex_intro _ _ O1)) as (s2 & E2 & H2);
    [done|done|by vm_compute|].
  cbn [insert list_insert m_data m_type app] in H2.
  destruct (iappend_holds s2 _ 0 _ (dirents [([46; 46], 1)]) H2 eq_refl) as (s3 & E3 & H3); [done|by vm_compute|].
  cbn [insert list_insert m_data m_type] in H3.
  destruct (add_files_holds fl s3 _ [] H3 Ha) as (s4 & E4 & H4); [simpl; lia| | |].
  { rewrite length_app, !length_dirents. cbn [length]. lia. }
  { exact Hb. }
  exists s4. split; [exact H4|]. unfold main. rewrite <-(bind_assoc _ _ _ mkfs0), (bind_Ok _ _ _ _ _ mkfs_start).
  rewrite (bind_Ok _ _ _ _ _ E1). change (1 + Z.of_nat (length (@nil mfile))) with 1. change (negb (1 =? ROOTINO)) with false.
  cbv iota. change (1 + Z.of_nat 0) with 1 in *.
  change (mk_dirent (xshort 1) [46]) with (dirents [([46], 1)]). change (mk_dirent (xshort 1) [46; 46]) with (dirents [([46; 46], 1)]).
  rewrite (bind_Ok _ _ _ _ _ E2), (bind_Ok _ _ _ _ _ E3), (bind_Ok _ _ _ _ _ E4). done.
Qed.

Lemma contents_bytes V addrs (d : list Z) off n :
  0 <= off -> off + Z.of_nat n <= 71680 ->
  (forall x, 0 <= x < 71680 -> fbyte V addrs x = default 0 (d !! Z.to_nat x)) ->
  contents V addrs off n = (fun j => default 0 (d !! (Z.to_nat off + j)%nat)) <$> seq 0 n.
Proof.
  intros H0 Hn Hx. unfold contents. apply list_fmap_ext. intros x y Hy. apply lookup_seq in Hy as [-> Hlt].
  rewrite Hx by lia. do 2 f_equal. lia.
Qed.

Lemma fmap_lookup_seq (d : list Z) : (fun j => default 0 (d !! j)) <$> seq 0 (length d) = d.
Proof.
  apply list_eq. intros k. rewrite list_lookup_fmap. destruct (decide (k < length d)%nat) as [Hk|Hk].
  - rewrite lookup_seq_lt by done. destruct (lookup_lt_is_Some_2 d k Hk) as [z Hz]. simpl. by rewrite Hz.
  - rewrite !lookup_ge_None_2 by (rewrite ?length_seq; lia). done.
Qed.

Lemma loaded_addrs i j : i_addrs (loaded i j) = i_addrs i.
Proof. reflexivity. Qed.

(** What is read of a file. *)
Lemma good_read V n i f :
  good V n i f ->
  let i' := on_disk mk_sb V n inode0 in
  i' = loaded i inode0 /\ inode_ok mk_sb V i' /\ read_spec V i' 0 (i_size i') = Some (m_data f).
Proof.
  intros G. cbv zeta. rewrite <-(gd_inum _ _ _ _ G), (gd_synced _ _ _ _ G inode0).
  pose proof (gd_size _ _ _ _ G) as Hs. pose proof (gd_max _ _ _ _ G) as Hm. split; [done|]. split.
  - split; cbn [loaded i_addrs i_size set_i_addrs set_i_size]; [apply G|unfold MAXFILE, Bz, BSIZE; lia|].
    intros x Hx. rewrite Hs in Hx. destruct (gd_compact _ _ _ _ G) as [C1 _]. change Bz with 512.
    rewrite C1 by (unfold MAXFILE; Z.to_euclidean_division_equations; lia). Z.to_euclidean_division_equations; lia.
  - unfold read_spec. cbn [loaded i_addrs i_size set_i_addrs set_i_size]. rewrite Hs.
    rewrite (proj2 (Z.ltb_ge _ _)) by lia. f_equal. replace (Z.to_nat _) with (length (m_data f)) by lia.
    rewrite (contents_bytes _ _ (m_data f)) by (lia || apply G). apply fmap_lookup_seq.
Qed.

(** The root directory, its size rounded. *)
Section Root.
Context (V : Z -> blk) (i : inode) (L : list (list Z * Z)).
Hypothesis D : disk_ok mk_sb V.
Hypothesis G : good V 1 i (MFile T_DIR (dirents L)).
Hypothesis HL : Forall named L.
Hypothesis Hmax : (length L <= 200)%nat.
Notation m := (Z.of_nat (length L)).
Definition rounded : inode := appended 1 i (i_addrs i) (512 * (m / 32 + 1)).
Notation W := (put_inode mk_sb V rounded).

Lemma rounded_fits : dinode_fits rounded.
Proof using G Hmax.
  destruct (gd_fits _ _ _ _ G) as (H1 & H2 & H3 & H4 & _ & H6 & H7). split_and!; cbn; try done;
    Z.to_euclidean_division_equations; lia.
Qed.

Lemma root_read : on_disk mk_sb W 1 inode0 = loaded rounded inode0.
Proof using G D Hmax. apply (put_inode_synced mk_sb V rounded D rounded_fits). Qed.

Lemma root_frame :
  file_ok mk_sb W (i_addrs i) /\ (forall k, slot W (i_addrs i) k = slot V (i_addrs i) k) /\
  forall x, 0 <= x < 71680 -> fbyte W (i_addrs i) x = default 0 (dirents L !! Z.to_nat x).
Proof using G Hmax.
  assert (Hd : forall b, 58 <= b -> W b = V b) by (intros b Hb; apply put_inode_data; [simpl; lia|done]).
  destruct (file_frame mk_sb mk_data mk_layout V W (i_addrs i) (gd_file _ _ _ _ G)) as (F' & Hs & Hb).
  { intros k Hk Hsk. apply Hd. destruct (fo_good _ _ _ (gd_file _ _ _ _ G) k Hk Hsk) as [Hr _]. rewrite mk_first in Hr. lia. }
  { intros x Hx' Hu. by rewrite (used_data V). }
  split; [done|]. split; [done|]. intros x Hx. rewrite Hb by done. by apply (gd_bytes _ _ _ _ G).
Qed.

Lemma root_full : full W (i_addrs i) (512 * (m / 32 + 1)) <-> m mod 32 <> 0.
Proof using G Hmax.
  destruct root_frame as (_ & Hs & _). destruct (gd_compact _ _ _ _ G) as [C1 _]. cbn [m_data] in C1.
  rewrite length_dirents in C1. unfold full. change Bz with 512. split.
  - intros H E. apply (H (512 * (m / 32))); [Z.to_euclidean_division_equations; lia|].
    rewrite Hs, Z.mul_comm, Z.div_mul by lia. apply C1; unfold MAXFILE; Z.to_euclidean_division_equations; lia.
  - intros Hm x Hx. rewrite Hs, C1; unfold MAXFILE; Z.to_euclidean_division_equations; lia.
Qed.

Lemma root_entry name : Forall (fun z => z <> 0) name -> entry W (loaded rounded inode0) name = assoc name L.
Proof using G HL Hmax.
  intros Hz. destruct root_frame as (_ & _ & Hx).
  assert (Hn : n_entries (loaded rounded inode0) = Z.to_nat (32 * (m / 32 + 1))).
  { unfold n_entries. cbn. f_equal. Z.to_euclidean_division_equations; lia. }
  apply entry_table; [rewrite Hn; Z.to_euclidean_division_equations; lia|done|done|].
  intros k Hk. rewrite Hn in Hk. unfold dirent_at. cbn [loaded rounded appended i_addrs set_i_addrs set_i_size set_i_inum].
  assert (Hk' : 16 * Z.of_nat k + 16 <= 71680) by (Z.to_euclidean_division_equations; lia).
  rewrite (contents_bytes _ _ (dirents L)) by (lia || done).
  replace (Z.to_nat (16 * Z.of_nat k)) with (16 * k)%nat by lia.
  destruct (L !! k) as [e|] eqn:E.
  - destruct (mk_dirent_fields (snd e) (fst e)) as (Hl & _ & _).
    rewrite <-(fmap_lookup_seq (mk_dirent (snd e) (fst e))), Hl. apply list_fmap_ext.
    intros x y Hy. apply lookup_seq in Hy as [-> Hlt]. by rewrite (lookup_dirents L k e).
  - apply lookup_ge_None in E. rewrite <-(fmap_lookup_seq (replicate 16 0)), length_replicate. apply list_fmap_ext.
    intros x y Hy. apply lookup_seq in Hy as [-> Hlt].
    rewrite lookup_ge_None_2 by (rewrite length_dirents; lia). by rewrite default_replicate0.
Qed.
End Root.

Lemma length_names fl : length (names fl) = (2 + length fl)%nat.
Proof. unfold names. cbn [length]. by rewrite length_entries. Qed.

Lemma finish_run s V i fl :
  rep s V -> good V 1 i (MFile T_DIR (dirents (names fl))) -> (length fl <= 198)%nat ->
  exists s1 s2, (let! din := rinode 1 in
      do! winode 1 (set_i_size (xint (u32 ((xint (i_size din) / BSIZE + 1) * BSIZE))) din) in
      let! s := get in balloc (mk_freeblock s)) s = Ok (tt, s2) /\
    rep s1 (put_inode mk_sb V (rounded i (names fl))) /\ mk_img s2 = shadow s1 /\ mk_len s2 = 1000 /\
    mk_freeblock s1 = mk_freeblock s.
Proof.
  intros R G Hn. rewrite (bind_Ok _ _ _ _ _ (rinode_spec s V 1 i _ R G ltac:(lia))).
  change (i_size (loaded i inode0)) with (i_size i). rewrite (gd_size _ _ _ _ G). cbn [m_data].
  rewrite length_dirents, length_names. change BSIZE with 512. rewrite (xint_small (Z.of_nat (16 * (2 + length fl)))) by lia.
  replace ((Z.of_nat (16 * (2 + length fl)) / 512 + 1) * 512) with (512 * (Z.of_nat (length (names fl)) / 32 + 1))
    by (rewrite length_names; Z.to_euclidean_division_equations; lia).
  rewrite u32_small, xint_small by (rewrite length_names; Z.to_euclidean_division_equations; lia).
  destruct (winode_spec s V 1 (set_i_size (512 * (Z.of_nat (length (names fl)) / 32 + 1)) (loaded i inode0))
    (rounded i (names fl)) R) as (s1 & E1 & R1 & Ef1 & _); [lia|done|done|apply (fo_len _ _ _ (gd_file _ _ _ _ G))|].
  rewrite (bind_Ok _ _ _ _ _ E1). pose proof (ba_free _ (proj1 R1)) as Hf. pose proof (ba_len _ (proj1 R1)) as Hl.
  unfold bind, get, balloc. rewrite (proj2 (Z.ltb_lt _ _)) by (change (BSIZE * 8) with 4096; lia). cbn [negb].
  eexists s1, _. split; [reflexivity|]. split; [done|]. split; [done|]. split; [cbn; rewrite Hl; done|done].
Qed.

(** *** The files of the image, from the state [main] leaves *)
Section Image.
Context (s : mkfs) (Is : list inode) (fl : list infile) (i : inode).
Hypothesis O : mk_ok s Is (image_files fl).
Hypothesis Hi : Is !! 0%nat = Some i.
Hypothesis Ha : Forall addable fl.
Notation V := (shadow s).
Notation root := (rounded i (names fl)).
Notation W := (put_inode mk_sb V root).

Lemma image_count : length Is = S (length fl) /\ (length fl <= 198)%nat.
Proof using O.
  pose proof (mo_len _ _ _ O) as Hl. pose proof (mo_max _ _ _ O) as Hm. unfold image_files in Hl. cbn [length] in Hl.
  rewrite length_fmap in Hl. lia.
Qed.

Lemma image_rep : rep s V.
Proof using O. split; [apply O|done]. Qed.

Lemma image_root : good V 1 i (MFile T_DIR (dirents (names fl))).
Proof using O Hi. by apply (mo_good _ _ _ O 0). Qed.

Lemma root_grows : grows mk_sb (fbyte V (i_addrs i)) V (i_addrs i) V (i_addrs root).
Proof using O Hi. apply grown_refl; [eapply rep_disk, image_rep|apply image_root]. Qed.

(** A file other than the root directory. *)
Lemma image_good k j : Is !! S k = Some j ->
  exists f, fl !! k = Some f /\ good W (2 + Z.of_nat k) j (file_of f) /\
    forall a, slot W (i_addrs j) a = slot V (i_addrs j) a.
Proof using O Hi.
  intros Hj. pose proof (lookup_lt_Some _ _ _ Hj) as Hk. destruct image_count as [Hc Hm].
  destruct (lookup_lt_is_Some_2 fl k ltac:(lia)) as [f Hf]. exists f. split; [done|].
  assert (HC : image_files fl !! S k = Some (file_of f)).
  { change ((file_of <$> fl) !! k = Some (file_of f)). by rewrite list_lookup_fmap, Hf. }
  pose proof (mo_good _ _ _ O _ _ _ Hj HC) as G. replace (1 + Z.of_nat (S k)) with (2 + Z.of_nat k) in G by lia.
  apply (other_good V V i root 1 _ ltac:(lia) eq_refl root_grows); [done|lia|lia| |].
  - by apply (mo_apart _ _ _ O (S k) 0).
  - apply (fo_len _ _ _ (gd_file _ _ _ _ image_root)).
Qed.

Lemma image_apart j k i1 i2 :
  j <> k -> (<[0%nat := root]> Is) !! j = Some i1 -> (<[0%nat := root]> Is) !! k = Some i2 -> apart W i1 i2.
Proof using O Hi.
  assert (Hr : forall l j, Is !! S l = Some j -> apart W j root /\ apart W root j).
  { intros l i3 H. destruct (image_good l i3 H) as (f & _ & G & Hs).
    pose proof (mo_apart _ _ _ O (S l) 0 i3 i ltac:(lia) H Hi) as A1.
    pose proof (mo_apart _ _ _ O 0 (S l) i i3 ltac:(lia) Hi H) as A2.
    destruct image_count as [Hc Hm]. pose proof (lookup_lt_Some _ _ _ H) as Hl.
    destruct (lookup_lt_is_Some_2 (image_files fl) (S l)) as [f' Hf']; [rewrite (mo_len _ _ _ O); done|].
    eapply (apart_changed V V i root 1); [lia|done|apply root_grows| |done|done|done].
    apply (mo_good _ _ _ O _ _ _ H Hf'). }
  pose proof (lookup_lt_Some _ _ _ Hi) as Hl0.
  intros Hne H1 H2. destruct j as [|j], k as [|k]; [done|..].
  - rewrite list_lookup_insert_eq in H1 by done. rewrite list_lookup_insert_ne in H2 by done. simplify_eq. by apply (Hr k).
  - rewrite list_lookup_insert_eq in H2 by done. rewrite list_lookup_insert_ne in H1 by done. simplify_eq. by apply (Hr j).
  - rewrite list_lookup_insert_ne in H1, H2 by done.
    destruct (image_good j i1 H1) as (_ & _ & _ & Hs1). destruct (image_good k i2 H2) as (_ & _ & _ & Hs2).
    intros a b A B. rewrite Hs1, Hs2. by apply (mo_apart _ _ _ O (S j) (S k)).
Qed.

(** The inodes on the disk. *)
Lemma image_inode k i1 :
  (<[0%nat := root]> Is) !! k = Some i1 -> i_addrs (on_disk mk_sb W (1 + Z.of_nat k) inode0) = i_addrs i1.
Proof using O Hi Ha.
  destruct image_count as [Hc Hm]. pose proof (lookup_lt_Some _ _ _ Hi) as Hl0. intros H. destruct k as [|k].
  - rewrite list_lookup_insert_eq in H by done. injection H as <-. replace (1 + Z.of_nat 0) with 1 by done.
    rewrite (root_read V i (names fl)); [apply loaded_addrs|eapply rep_disk, image_rep|apply image_root|rewrite length_names; lia].
  - rewrite list_lookup_insert_ne in H by done. destruct (image_good k i1 H) as (f & _ & G & _).
    replace (1 + Z.of_nat (S k)) with (2 + Z.of_nat k) by lia. by destruct (good_read _ _ _ _ G) as [-> _].
Qed.
End Image.

Lemma image_ok s1 s Is fl i :
  mk_ok s Is (image_files fl) -> Is !! 0%nat = Some i -> Forall addable fl ->
  rep s1 (put_inode mk_sb (shadow s) (rounded i (names fl))) -> mk_freeblock s1 = mk_freeblock s ->
  fs_image (shadow s1) fl.
Proof.
  intros O Hi Ha R1 Ef. destruct (image_count s Is fl O) as [Hc Hm]. pose proof (lookup_lt_Some _ _ _ Hi) as Hl0.
  pose proof (image_root s Is fl i O Hi) as G. pose proof (rep_disk _ _ (image_rep s Is fl O)) as D.
  assert (Hmx : (length (names fl) <= 200)%nat) by (rewrite length_names; lia).
  pose proof (rep_disk _ _ R1) as D1. destruct R1 as [B1 E1]. split.
  - unfold shadow. rewrite fn_lookup_insert_ne by done. by rewrite (ba_sb _ B1).
  - intros b Hb. unfold shadow. rewrite fn_lookup_insert_ne by lia. apply (ba_log _ B1). by right.
  - by rewrite E1.
  - intros b Hb. rewrite used_shadow by done. by rewrite Ef, (mo_blocks _ _ _ O).
  - rewrite E1. cbv zeta. rewrite (root_read _ _ _ D G Hmx). destruct (root_frame _ _ _ G Hmx) as (F & _ & _).
    pose proof (root_full _ _ _ G Hmx) as Hfull. rewrite length_names in Hfull.
    replace (Z.of_nat (2 + length fl)) with (2 + Z.of_nat (length fl)) in Hfull by lia.
    assert (Esz : i_size (loaded (rounded i (names fl)) inode0) = 512 * ((2 + Z.of_nat (length fl)) / 32 + 1)).
    { cbn [loaded rounded appended i_size set_i_size set_i_addrs set_i_inum]. rewrite length_names. f_equal. f_equal. f_equal. lia. }
    split; [apply (gd_type _ _ _ _ G)|]. split; [apply (gd_nlink _ _ _ _ G)|]. split; [done|]. split; [exact F|]. split.
    + rewrite <-Hfull. split.
      * intros [I _ _]. pose proof (io_full _ _ _ I) as H. rewrite Esz in H. exact H.
      * intros H. split; [split| |]; [exact F| |rewrite Esz; exact H|apply (gd_type _ _ _ _ G)|].
        -- rewrite Esz. unfold MAXFILE, Bz, BSIZE. Z.to_euclidean_division_equations; lia.
        -- rewrite Esz. replace 512 with (16 * 32) by done. by rewrite <-Z.mul_assoc, Z.mul_comm, Z.mod_mul.
    + apply (root_entry _ _ _ G); [|done]. unfold names. constructor; [split; [simpl; lia|by repeat constructor]|].
      constructor; [split; [simpl; lia|by repeat constructor]|]. apply named_entries; [lia|lia|done].
  - intros k f Hf. rewrite E1. assert (Hk : (k < length fl)%nat) by (eapply lookup_lt_Some; exact Hf).
    destruct (lookup_lt_is_Some_2 Is (S k) ltac:(lia)) as [j Hj].
    destruct (image_good s Is fl i O Hi k j Hj) as (f' & Hf' & Gk & _). simplify_eq.
    pose proof (good_read _ _ _ _ Gk) as (Er & I & R). split; [rewrite Er; apply (gd_type _ _ _ _ Gk)|].
    split; [rewrite Er; apply (gd_nlink _ _ _ _ Gk)|]. split; [exact I|exact R].
  - intros j k Hne Hj Hk. rewrite E1.
    destruct (lookup_lt_is_Some_2 (<[0%nat := rounded i (names fl)]> Is) j) as [i1 H1]; [rewrite length_insert; lia|].
    destruct (lookup_lt_is_Some_2 (<[0%nat := rounded i (names fl)]> Is) k) as [i2 H2]; [rewrite length_insert; lia|].
    pose proof (image_apart s Is fl i O Hi j k i1 i2 Hne H1 H2) as A. unfold apart in A |- *.
    rewrite (image_inode s Is fl i O Hi Ha j i1 H1), (image_inode s Is fl i O Hi Ha k i2 H2). exact A.
Qed.

(** C12: [mkfs] builds a file system that the kernel reads back as what was put in.  For files that can be opened, whose names
    have no slash, that fit in a file each and in the image together, and of which there are at most 198, it
    finishes; the image has 1000 blocks, the superblock, an empty log and a bitmap of the blocks in use; looking up
    a name in the root directory gives the inode of the first file with that name (less a leading underscore);
    reading that inode gives the file's bytes; no block belongs to two files.  The root
    directory has a block for each part of its size unless its entries fill whole blocks:
    then the size is rounded up to a block that was never allocated. *)
Theorem mkfs_correct fl :
  Forall addable fl -> (length fl <= 198)%nat -> 59 + total (image_files fl) <= 1000 ->
  exists s, main fl mkfs0 = Ok (tt, s) /\ mk_len s = 1000 /\ fs_image (mk_img s) fl.
Proof.
  intros Ha Hn Hb. destruct (main_adds fl Ha Hn Hb) as (s & [Is O] & ->).
  destruct (image_count s Is fl O) as [Hc _]. destruct (lookup_lt_is_Some_2 Is 0 ltac:(lia)) as [i Hi].
  destruct (finish_run s (shadow s) i fl (image_rep s Is fl O) (image_root s Is fl i O Hi) Hn)
    as (s1 & s2 & E & R1 & EW & El & Ef).
  exists s2. split; [exact E|]. split; [done|]. rewrite EW. by apply (image_ok s1 s Is fl i).
Qed.

(** [_cat], and a file whose name starts without an underscore and which takes two blocks. *)
Definition demo_files : list infile :=
  [([95; 99; 97; 116], Some [[1; 2; 3]]); ([104; 105], Some [replicate 512 7; [8; 9]])].

Lemma mkfs_correct_witness :
  exists s, main demo_files mkfs0 = Ok (tt, s) /\
    entry (mk_img s) (on_disk mk_sb (mk_img s) 1 inode0) [99; 97; 116] = Some 2 /\
    read_spec (mk_img s) (on_disk mk_sb (mk_img s) 2 inode0) 0 (i_size (on_disk mk_sb (mk_img s) 2 inode0)) = Some [1; 2; 3].
Proof.
  destruct (mkfs_correct demo_files) as (s & E & _ & I).
  - repeat constructor; by vm_compute.
  - simpl. lia.
  - by vm_compute.
  - exists s. split; [exact E|]. split.
    + destruct (im_root _ _ I) as (_ & _ & _ & _ & _ & H). rewrite H by (repeat constructor; lia). reflexivity.
    + destruct (im_file _ _ I 0%nat _ eq_refl) as (_ & _ & _ & H). exact H.
Defined.
