(* ===== verification/Ring.v ===== *)
(** * Ring buffers with 32-bit counters

    Pipes and the console input keep bytes in an array indexed by a counter
    modulo its size; the counters are [uint]s that only grow and wrap around.
    This works because the size divides 2^32. *)
From S2P Require Import Prelude.

Section Ring.
Variable N : Z.
Hypothesis HN : 0 < N.
Hypothesis Hdiv : 4294967296 mod N = 0.

(** The bytes from counter [a] up to counter [b]. *)
Definition slice (data : Z -> Z) (a b : Z) : list Z :=
  (fun k => data (u32 (a + k) mod N)) <$> seqZ 0 (u32 (b - a)).

Lemma u32_ring x : u32 x mod N = x mod N.
Proof.
  unfold u32. apply Z.mod_divide in Hdiv; [|lia]. destruct Hdiv as [q Hq].
  rewrite (Z.mod_eq x 4294967296) by lia. rewrite Hq.
  replace (x - q * N * (x / (q * N))) with (x + (- (q * (x / (q * N)))) * N) by lia.
  apply Z.mod_add. lia.
Qed.

Lemma length_slice data a b : Z.of_nat (length (slice data a b)) = u32 (b - a).
Proof.
  unfold slice. rewrite length_fmap, length_seqZ. pose proof (u32_bound (b - a)). lia.
Qed.

Lemma slice_nil data a : slice data a a = [].
Proof. unfold slice. by rewrite Z.sub_diag. Qed.

(** Distinct counters less than [N] apart have distinct indices. *)
Lemma ring_index_ne a k e :
  0 <= k < u32 (e - a) -> u32 (e - a) < N -> u32 (a + k) mod N <> e mod N.
Proof.
  intros Hk He Heq. rewrite u32_ring in Heq. rewrite <-(u32_ring e) in Heq.
  assert (Ee : u32 e mod N = (a + u32 (e - a)) mod N).
  { rewrite <-(u32_ring (a + u32 (e - a))). f_equal. unfold u32. rewrite Zplus_mod_idemp_r. f_equal. lia. }
  rewrite Ee in Heq. set (n := u32 (e - a)) in *.
  assert (Hm : (n - k) mod N = 0).
  { replace (n - k) with ((a + n) - (a + k)) by lia. rewrite Zminus_mod, Heq, Z.sub_diag. apply Z.mod_0_l. lia. }
  rewrite Z.mod_small in Hm by lia. lia.
Qed.

(** A write ahead of a slice leaves it alone. *)
Lemma slice_write data a b e x :
  u32 (b - a) <= u32 (e - a) -> u32 (e - a) < N ->
  slice (<[e mod N := x]> data) a b = slice data a b.
Proof.
  intros H1 H2. unfold slice. apply list_fmap_ext. intros i k Hk%list_elem_of_lookup_2.
  apply elem_of_seqZ in Hk. rewrite fn_lookup_insert_ne; [done|].
  apply not_eq_sym. apply ring_index_ne; lia.
Qed.

Lemma slice_app data a b c :
  u32 (c - a) = u32 (b - a) + u32 (c - b) -> slice data a c = slice data a b ++ slice data b c.
Proof.
  intros E. unfold slice. pose proof (u32_bound (b - a)). pose proof (u32_bound (c - b)).
  rewrite E, seqZ_app, fmap_app by lia. f_equal.
  rewrite Z.add_0_l, <-(Z.add_0_r (u32 (b - a))), <-fmap_add_seqZ, <-list_fmap_compose.
  apply list_fmap_ext. intros i k _. simpl. f_equal. f_equal.
  unfold u32. rewrite Z.add_assoc. rewrite <-(Zplus_mod_idemp_l (a + _)), Zplus_mod_idemp_r.
  rewrite Zplus_mod_idemp_l. f_equal. lia.
Qed.

Lemma slice_one data a : slice data a (u32 (a + 1)) = [data (a mod N)].
Proof.
  unfold slice. assert (E : u32 (u32 (a + 1) - a) = 1).
  { unfold u32. rewrite Zminus_mod_idemp_l. replace (a + 1 - a) with 1 by lia. done. }
  rewrite E. simpl. by rewrite Z.add_0_r, u32_ring.
Qed.

(** A byte at the end, taken from the front, and taken back from the end. *)
Lemma slice_push data a b x :
  u32 (b - a) < N -> N <= 2147483648 ->
  slice (<[b mod N := x]> data) a (u32 (b + 1)) = slice data a b ++ [x].
Proof.
  intros Hb Hn. rewrite (slice_app _ a b).
  - rewrite slice_write, slice_one by lia. by rewrite fn_lookup_insert.
  - unfold u32 in *. Z.to_euclidean_division_equations. lia.
Qed.

Lemma slice_pop data a b :
  u32 (b - a) <> 0 -> slice data a b = data (a mod N) :: slice data (u32 (a + 1)) b.
Proof.
  intros Hb. rewrite (slice_app _ a (u32 (a + 1))).
  - by rewrite slice_one.
  - unfold u32 in *. Z.to_euclidean_division_equations. lia.
Qed.

Lemma slice_pop_back data a b :
  u32 (b - a) <> 0 -> 0 <= b < 4294967296 ->
  slice data a b = slice data a (u32 (b - 1)) ++ [data (u32 (b - 1) mod N)].
Proof.
  intros Hb Hr. rewrite (slice_app _ a (u32 (b - 1))).
  - f_equal. replace b with (u32 (u32 (b - 1) + 1)) at 2; [apply slice_one|].
    unfold u32. Z.to_euclidean_division_equations. lia.
  - unfold u32 in *. Z.to_euclidean_division_equations. lia.
Qed.
End Ring.
