(* ===== verification/Pipe.v ===== *)
(** * Pipes: pipe.c

    A pipe is a ring of [PIPESIZE] bytes with two 32-bit counters that are never
    reset: they wrap around, and the ring index is the counter modulo
    [PIPESIZE].  A call that would sleep returns what it has left to do; the
    process resumes with it after a wakeup.  Each call runs under the pipe's
    lock, so that it is one step; the interleavings of calls are the sequences
    of these steps. *)
From S2P Require Import Prelude Ring.

Definition PIPESIZE : Z := 512.

Record pipe : Type := Pipe {
  p_data : Z -> Z;
  nread : Z;
  nwrite : Z;
  readopen : bool;
  writeopen : bool;
}.

(** [pipealloc] sets the fields of a page that [kalloc] left with other data. *)
Definition pipe_init (junk : Z -> Z) : pipe := Pipe junk 0 0 true true.

(** The pipe afterwards, and whether its page is freed. *)
Definition pipeclose (p : pipe) (writable : bool) : pipe * bool :=
  let p' := if writable then Pipe (p_data p) (nread p) (nwrite p) (readopen p) false
            else Pipe (p_data p) (nread p) (nwrite p) false (writeopen p) in
  (p', negb (readopen p') && negb (writeopen p')).

Definition pipe_full (p : pipe) : bool := nwrite p =? u32 (nread p + PIPESIZE).
Definition pipe_empty (p : pipe) : bool := nread p =? nwrite p.

Definition put_byte (b : Z) (p : pipe) : pipe :=
  Pipe (<[nwrite p mod PIPESIZE := b]> (p_data p)) (nread p) (u32 (nwrite p + 1))
    (readopen p) (writeopen p).
Definition get_byte (p : pipe) : Z * pipe :=
  (p_data p (nread p mod PIPESIZE),
   Pipe (p_data p) (u32 (nread p + 1)) (nwrite p) (readopen p) (writeopen p)).

Inductive wresult : Type :=
  | WDone                       (** all bytes are in: the call returns [n] *)
  | WFail                       (** the call returns -1 *)
  | WSleep (rest : list Z).     (** asleep on [&p->nwrite] with these bytes left *)

(** The loop of [pipewrite] over the bytes [addr[i], ..., addr[n - 1]]. *)
Fixpoint pipewrite (p : pipe) (killed : bool) (bytes : list Z) : pipe * wresult :=
  match bytes with
  | [] => (p, WDone)
  | b :: bytes' =>
      if pipe_full p then
        if negb (readopen p) || killed then (p, WFail) else (p, WSleep bytes)
      else pipewrite (put_byte b p) killed bytes'
  end.

Inductive rresult : Type :=
  | RDone (bytes : list Z)      (** the bytes copied to [addr]; returns their number *)
  | RFail
  | RSleep.

(** The copy loop of [piperead], at most [n] bytes. *)
Fixpoint piperead_copy (n : nat) (p : pipe) : pipe * list Z :=
  match n with
  | O => (p, [])
  | S n =>
      if pipe_empty p then (p, [])
      else
        let (b, p1) := get_byte p in
        let (p2, l) := piperead_copy n p1 in
        (p2, b :: l)
  end.

Definition piperead (p : pipe) (killed : bool) (n : Z) : pipe * rresult :=
  if pipe_empty p && writeopen p then
    if killed then (p, RFail) else (p, RSleep)
  else let (p', l) := piperead_copy (Z.to_nat n) p in (p', RDone l).

(** ** The bytes in a pipe *)

Definition count (p : pipe) : Z := u32 (nwrite p - nread p).

Definition contents (p : pipe) : list Z := slice PIPESIZE (p_data p) (nread p) (nwrite p).

Record pipe_ok (p : pipe) : Prop := {
  po_nread : 0 <= nread p < 4294967296;
  po_nwrite : 0 <= nwrite p < 4294967296;
  po_count : count p <= PIPESIZE;
}.

(** ** Counters modulo 2^32 and ring indices *)

Lemma count_bound p : 0 <= count p < 4294967296.
Proof. unfold count, u32. apply Z.mod_pos_bound. lia. Qed.

Lemma nwrite_count p : pipe_ok p -> nwrite p = u32 (nread p + count p).
Proof. intros [H1 H2 _]. unfold count. word_lia. Qed.

Lemma full_count p : pipe_ok p -> pipe_full p = true <-> count p = PIPESIZE.
Proof.
  intros I. pose proof (po_count _ I). destruct I as [H1 H2 _].
  unfold pipe_full, count, PIPESIZE in *. rewrite Z.eqb_eq. word_lia.
Qed.

Lemma empty_count p : pipe_ok p -> pipe_empty p = true <-> count p = 0.
Proof.
  intros [H1 H2 _]. unfold pipe_empty, count. rewrite Z.eqb_eq. word_lia.
Qed.

Lemma length_contents p : Z.of_nat (length (contents p)) = count p.
Proof. apply length_slice. Qed.

Lemma put_byte_spec p b :
  pipe_ok p -> pipe_full p = false ->
  pipe_ok (put_byte b p) /\ contents (put_byte b p) = contents p ++ [b].
Proof.
  intros I Hf. assert (Hc : count p < PIPESIZE).
  { pose proof (po_count _ I). apply not_true_iff_false in Hf. rewrite full_count in Hf by done. lia. }
  pose proof (count_bound p) as Hb. pose proof (nwrite_count p I) as Ew.
  destruct I as [H1 H2 _].
  assert (Ec : count (put_byte b p) = count p + 1).
  { unfold count, put_byte, PIPESIZE in *. simpl. word_lia. }
  split.
  - split; [done|simpl; unfold u32; apply Z.mod_pos_bound; lia|lia].
  - unfold contents, put_byte. simpl. by apply slice_push.
Qed.

Lemma get_byte_spec p :
  pipe_ok p -> pipe_empty p = false ->
  pipe_ok (get_byte p).2 /\ contents p = (get_byte p).1 :: contents (get_byte p).2.
Proof.
  intros I He. assert (Hc : 0 < count p).
  { pose proof (count_bound p). apply not_true_iff_false in He. rewrite empty_count in He by done. lia. }
  pose proof (po_count _ I) as Hm. destruct I as [H1 H2 _].
  assert (Ec : count (get_byte p).2 = count p - 1).
  { unfold count, PIPESIZE in *. simpl. word_lia. }
  split.
  - split; [simpl; unfold u32; apply Z.mod_pos_bound; lia|done|lia].
  - unfold contents, get_byte. simpl. apply slice_pop; [done..|]. unfold count in Hc. lia.
Qed.

Lemma pipewrite_spec killed bytes : forall p p' r,
  pipe_ok p -> pipewrite p killed bytes = (p', r) ->
  exists w rest,
    bytes = w ++ rest /\ pipe_ok p' /\ contents p' = contents p ++ w /\
    readopen p' = readopen p /\ writeopen p' = writeopen p /\ nread p' = nread p /\
    match r with
    | WDone => rest = []
    | WFail => rest <> [] /\ pipe_full p' = true /\ (readopen p = false \/ killed = true)
    | WSleep l => l = rest /\ rest <> [] /\ pipe_full p' = true /\ readopen p = true /\ killed = false
    end.
Proof.
  induction bytes as [|b bytes IH]; intros p p' r I E; simpl in E.
  - simplify_eq. exists [], []. by rewrite !app_nil_r.
  - destruct (pipe_full p) eqn:Ef.
    + exists [], (b :: bytes). rewrite app_nil_r. simpl.
      destruct (readopen p) eqn:Er, killed; simpl in E; inversion E; subst; split_and!; auto.
    + destruct (put_byte_spec p b I Ef) as [I' Ec].
      destruct (IH _ _ _ I' E) as (w & rest & -> & I'' & Ec' & H1 & H2 & H3 & Hr).
      exists (b :: w), rest. rewrite Ec', Ec, <-app_assoc. done.
Qed.

Lemma piperead_copy_spec n : forall p p' l,
  pipe_ok p -> piperead_copy n p = (p', l) ->
  pipe_ok p' /\ contents p = l ++ contents p' /\ length l = (n `min` length (contents p))%nat /\
  readopen p' = readopen p /\ writeopen p' = writeopen p.
Proof.
  induction n as [|n IH]; intros p p' l I E; cbn [piperead_copy] in E; [by simplify_eq|].
  destruct (pipe_empty p) eqn:Ee.
  - simplify_eq. apply empty_count in Ee; [|done]. pose proof (length_contents p').
    destruct (contents p') eqn:Ec; [done|simpl in *; lia].
  - destruct (get_byte_spec p I Ee) as [I1 Ec]. destruct (get_byte p) as [b p1] eqn:Eg; cbn [fst snd] in *.
    destruct (piperead_copy n p1) as [p2 l2] eqn:E2; simplify_eq.
    destruct (IH _ _ _ I1 E2) as (I2 & Ec2 & Hl & H1 & H2).
    unfold get_byte in Eg; simplify_eq. simpl in *. rewrite Ec. simpl.
    split; [exact I2|]. split; [by rewrite <-Ec2|]. by rewrite Hl.
Qed.

(** ** Readers and writers of one pipe *)

(** The calls in progress by process: those that can run and those asleep on
    [&p->nwrite] or [&p->nread], and the bytes that went in and out so far. *)
Record psys : Type := PSys {
  ps_pipe : pipe;
  ps_wready : gmap Z (list Z);
  ps_wsleep : gmap Z (list Z);
  ps_rready : gmap Z Z;
  ps_rsleep : gmap Z Z;
  ps_sent : list Z;
  ps_recv : list Z;
}.

Definition ps_init (junk : Z -> Z) : psys := PSys (pipe_init junk) ∅ ∅ ∅ ∅ [] [].

Definition wakeup_readers (s : psys) : psys :=
  PSys (ps_pipe s) (ps_wready s) (ps_wsleep s) (ps_rsleep s ∪ ps_rready s) ∅ (ps_sent s) (ps_recv s).
Definition wakeup_writers (s : psys) : psys :=
  PSys (ps_pipe s) (ps_wsleep s ∪ ps_wready s) ∅ (ps_rready s) (ps_rsleep s) (ps_sent s) (ps_recv s).

(** Process [w] runs its [pipewrite] until it returns or sleeps. *)
Definition run_write (w : Z) (bytes : list Z) (killed : bool) (s : psys) : psys :=
  let (p', r) := pipewrite (ps_pipe s) killed bytes in
  let n := Z.to_nat (u32 (nwrite p' - nwrite (ps_pipe s))) in
  let sleep := match r with WSleep rest => <[w := rest]> (ps_wsleep s) | _ => ps_wsleep s end in
  let s' := PSys p' (delete w (ps_wready s)) sleep (ps_rready s) (ps_rsleep s)
                 (ps_sent s ++ take n bytes) (ps_recv s) in
  match r with WFail => s' | _ => wakeup_readers s' end.

(** Process [r] runs its [piperead] until it returns or sleeps. *)
Definition run_read (pid n : Z) (killed : bool) (s : psys) : psys :=
  let (p', r) := piperead (ps_pipe s) killed n in
  let sleep := match r with RSleep => <[pid := n]> (ps_rsleep s) | _ => ps_rsleep s end in
  let got := match r with RDone l => l | _ => [] end in
  let s' := PSys p' (ps_wready s) (ps_wsleep s) (delete pid (ps_rready s)) sleep
                 (ps_sent s) (ps_recv s ++ got) in
  match r with RDone _ => wakeup_writers s' | _ => s' end.

Definition run_close (writable : bool) (s : psys) : psys :=
  let s' := PSys (pipeclose (ps_pipe s) writable).1 (ps_wready s) (ps_wsleep s) (ps_rready s)
                 (ps_rsleep s) (ps_sent s) (ps_recv s) in
  if writable then wakeup_readers s' else wakeup_writers s'.

(** The steps; [kills] says whether a process can be killed inside [pipewrite].
    An end is closed when no call uses it: a call holds a reference to its file. *)
Inductive psys_step (kills : bool) : psys -> psys -> Prop :=
  | step_call_write s w bytes :
      writeopen (ps_pipe s) = true ->
      psys_step kills s
        (PSys (ps_pipe s) (<[w := bytes]> (ps_wready s)) (ps_wsleep s) (ps_rready s)
              (ps_rsleep s) (ps_sent s) (ps_recv s))
  | step_call_read s pid n :
      readopen (ps_pipe s) = true ->
      psys_step kills s
        (PSys (ps_pipe s) (ps_wready s) (ps_wsleep s) (<[pid := n]> (ps_rready s))
              (ps_rsleep s) (ps_sent s) (ps_recv s))
  | step_write s w bytes killed :
      ps_wready s !! w = Some bytes -> (killed = true -> kills = true) ->
      psys_step kills s (run_write w bytes killed s)
  | step_read s pid n killed :
      ps_rready s !! pid = Some n -> psys_step kills s (run_read pid n killed s)
  | step_close_write s :
      ps_wready s = ∅ -> ps_wsleep s = ∅ -> psys_step kills s (run_close true s)
  | step_close_read s :
      ps_rready s = ∅ -> ps_rsleep s = ∅ -> psys_step kills s (run_close false s).

Record psys_inv (kills : bool) (s : psys) : Prop := {
  pi_ok : pipe_ok (ps_pipe s);
  pi_fifo : ps_sent s = ps_recv s ++ contents (ps_pipe s);
  pi_open : (ps_rready s = ∅ /\ ps_rsleep s = ∅) \/ readopen (ps_pipe s) = true;
  pi_writers : ps_wsleep s = ∅ \/ (pipe_full (ps_pipe s) = true /\ readopen (ps_pipe s) = true);
  pi_readers : kills = false ->
    ps_rsleep s = ∅ \/ (pipe_empty (ps_pipe s) = true /\ writeopen (ps_pipe s) = true);
}.

Lemma full_not_empty p : pipe_ok p -> pipe_full p = true -> pipe_empty p = true -> False.
Proof. intros I H1%full_count H2%empty_count; unfold PIPESIZE in *; [lia|done..]. Qed.

Lemma contents_count p p' w :
  contents p' = contents p ++ w -> count p' = count p + Z.of_nat (length w).
Proof. intros E%(f_equal length). rewrite length_app in E. rewrite <-!length_contents. lia. Qed.

Lemma put_count p p' w :
  pipe_ok p -> pipe_ok p' -> nread p' = nread p -> contents p' = contents p ++ w ->
  Z.to_nat (u32 (nwrite p' - nwrite p)) = length w.
Proof.
  intros I I' En Ec%contents_count. rewrite (nwrite_count p I), (nwrite_count p' I'), En.
  pose proof (po_count _ I'). pose proof (count_bound p).
  replace (count p') with (count p + Z.of_nat (length w)) in * by lia.
  unfold PIPESIZE in *. word_lia.
Qed.

Lemma psys_init_inv kills junk : psys_inv kills (ps_init junk).
Proof. split; [split; simpl; unfold count; simpl; unfold PIPESIZE; word_lia|done|by left..]. Qed.

Lemma still_full p p' w :
  pipe_ok p -> pipe_ok p' -> contents p' = contents p ++ w -> pipe_full p = true -> pipe_full p' = true.
Proof.
  intros I I' Ec%contents_count Hf%full_count; [|done]. apply full_count; [done|].
  pose proof (po_count _ I'). lia.
Qed.

Lemma run_write_inv kills w bytes killed s :
  (killed = true -> kills = true) -> ps_wready s !! w = Some bytes ->
  psys_inv kills s -> psys_inv kills (run_write w bytes killed s).
Proof.
  intros Hk Hw [I F O W R]. unfold run_write. destruct (pipewrite _ _ _) as [p' r] eqn:E.
  destruct (pipewrite_spec _ _ _ _ _ I E) as (l & rest & -> & I' & Ec & H1 & H2 & H3 & Hr).
  rewrite (put_count _ _ l I I' H3 Ec), take_app_length.
  assert (F' : ps_sent s ++ l = ps_recv s ++ contents p') by by rewrite F, Ec, app_assoc.
  assert (W' : ps_wsleep s = ∅ \/ pipe_full p' = true /\ readopen p' = true).
  { destruct W as [?|[Hf Ho]]; [by left|right]. rewrite H1. eauto using still_full. }
  assert (O' : (ps_rready s = ∅ /\ ps_rsleep s = ∅) \/ readopen p' = true) by by rewrite H1.
  assert (O'' : (ps_rsleep s ∪ ps_rready s = ∅ /\ (∅ : gmap Z Z) = ∅) \/ readopen p' = true).
  { destruct O' as [[-> ->]|?]; [left; by rewrite map_union_empty|by right]. }
  destruct r as [| |l']; split; simpl; auto.
  - intros ->. left. destruct Hr as (_ & _ & [Hc|Hc]); [|naive_solver].
    destruct O as [[_ ?]|?]; [done|congruence].
  - right. rewrite H1. naive_solver.
Qed.

Lemma run_read_inv kills pid n killed s :
  ps_rready s !! pid = Some n -> psys_inv kills s -> psys_inv kills (run_read pid n killed s).
Proof.
  intros Hn [I F O W R]. unfold run_read, piperead.
  assert (Ho : readopen (ps_pipe s) = true).
  { destruct O as [[Hz _]|?]; [by rewrite Hz in Hn|done]. }
  destruct (pipe_empty (ps_pipe s) && writeopen (ps_pipe s)) eqn:Ee.
  - apply andb_true_iff in Ee. destruct killed; split; simpl; rewrite ?app_nil_r; auto.
  - destruct (piperead_copy _ _) as [p' l] eqn:E.
    destruct (piperead_copy_spec _ _ _ _ I E) as (I' & Ec & Hl & H1 & H2).
    split; simpl; auto.
    + by rewrite F, Ec, app_assoc.
    + rewrite H1. auto.
    + intros Hk. destruct (R Hk) as [?|[He Hw]]; [by left|]. by rewrite He, Hw in Ee.
Qed.

Lemma run_close_inv kills (writable : bool) s :
  (if writable then ps_wready s = ∅ /\ ps_wsleep s = ∅ else ps_rready s = ∅ /\ ps_rsleep s = ∅) ->
  psys_inv kills s -> psys_inv kills (run_close writable s).
Proof.
  intros Hc [[I1 I2 I3] F O W R].
  destruct writable, Hc as [E1 E2]; split; simpl; try done; auto.
  - destruct O as [[-> ->]|?]; [left; by rewrite map_union_empty|by right].
Qed.

Lemma psys_step_inv kills s s' : psys_inv kills s -> psys_step kills s s' -> psys_inv kills s'.
Proof.
  intros I St. destruct St as [| | | | |].
  - by destruct I.
  - destruct I. split; simpl; auto.
  - by apply run_write_inv.
  - by apply run_read_inv.
  - by apply run_close_inv.
  - by apply run_close_inv.
Qed.

Lemma psys_reach_inv kills junk s : rtc (psys_step kills) (ps_init junk) s -> psys_inv kills s.
Proof.
  apply rtc_invariant; eauto using psys_init_inv, psys_step_inv.
Qed.

(** C15: a pipe is a FIFO of bytes, across the wrap-around of its counters and of
    its ring: for all interleavings of readers, writers, kills and closes, the
    bytes written are the bytes read followed by the at most 512 bytes the pipe
    still holds. *)
Theorem pipe_fifo junk s :
  rtc (psys_step true) (ps_init junk) s ->
  ps_sent s = ps_recv s ++ contents (ps_pipe s) /\ (length (contents (ps_pipe s)) <= 512)%nat.
Proof.
  intros I%psys_reach_inv. split; [apply I|].
  pose proof (po_count _ (pi_ok _ _ I)) as Hc. rewrite <-length_contents in Hc.
  unfold PIPESIZE in Hc. lia.
Qed.

(** C34: no wakeup is lost when no process is killed in [pipewrite]: a writer
    sleeps only while the ring is full and the read end is open, a reader only
    while the ring is empty and the write end is open, so that readers and
    writers never all sleep. *)
Theorem pipe_no_lost_wakeup junk s :
  rtc (psys_step false) (ps_init junk) s ->
  (ps_wsleep s = ∅ \/ (pipe_full (ps_pipe s) = true /\ readopen (ps_pipe s) = true)) /\
  (ps_rsleep s = ∅ \/ (pipe_empty (ps_pipe s) = true /\ writeopen (ps_pipe s) = true)) /\
  (ps_wsleep s = ∅ \/ ps_rsleep s = ∅).
Proof.
  intros I%psys_reach_inv. pose proof (pi_writers _ _ I) as W.
  pose proof (pi_readers _ _ I eq_refl) as R. split; [done|]. split; [done|].
  destruct W as [?|[Hf _]]; [by left|]. destruct R as [?|[He _]]; [by right|].
  exfalso. eauto using full_not_empty, pi_ok.
Qed.

(** A run: two bytes of three are read back. *)
Definition demo : psys :=
  let s1 := PSys (ps_pipe (ps_init (fun _ => 0))) {[7 := [10; 11; 12]]} ∅ ∅ ∅ [] [] in
  let s2 := run_write 7 [10; 11; 12] false s1 in
  let s3 := PSys (ps_pipe s2) (ps_wready s2) (ps_wsleep s2) (<[8 := 2]> (ps_rready s2))
                 (ps_rsleep s2) (ps_sent s2) (ps_recv s2) in
  run_read 8 2 false s3.

Lemma demo_reach kills : rtc (psys_step kills) (ps_init (fun _ => 0)) demo.
Proof.
  eapply rtc_l; [by apply (step_call_write _ _ 7 [10; 11; 12])|].
  eapply rtc_l; [by apply (step_write _ _ 7 [10; 11; 12] false)|].
  eapply rtc_l; [by apply (step_call_read _ _ 8 2)|].
  eapply rtc_l; [by apply (step_read _ _ 8 2 false)|]. apply rtc_refl.
Qed.

Lemma pipe_fifo_witness :
  ps_recv demo = [10; 11] /\ ps_sent demo = ps_recv demo ++ contents (ps_pipe demo).
Proof. split; [reflexivity|]. apply (pipe_fifo _ demo (demo_reach true)). Defined.

Lemma pipe_no_lost_wakeup_witness : ps_wsleep demo = ∅ \/ ps_rsleep demo = ∅.
Proof. apply (pipe_no_lost_wakeup _ demo (demo_reach false)). Defined.

(** [pipewrite] returns without waking the readers when the writer has been
    killed, even after it filled the ring: a reader then sleeps on while the
    pipe is full. *)
Theorem pipe_killed_writer_loses_wakeup :
  exists s, rtc (psys_step true) (ps_init (fun _ => 0)) s /\
    ps_rsleep s = {[8 := 1]} /\ ps_rready s = ∅ /\
    pipe_full (ps_pipe s) = true /\ length (contents (ps_pipe s)) = 512%nat.
Proof.
  eexists. split.
  - eapply rtc_l; [by apply (step_call_read _ _ 8 1)|].
    eapply rtc_l; [by apply (step_read _ _ 8 1 false)|].
    eapply rtc_l; [by apply (step_call_write _ _ 7 (replicate 513 65))|].
    eapply rtc_l; [by apply (step_write _ _ 7 (replicate 513 65) true)|]. apply rtc_refl.
  - split_and!; vm_compute; reflexivity.
Qed.
