(* ===== verification/Proc.v ===== *)
(** * Processes and kernel threads: proc.c

    The process table with the operations on it, each locked section being one
    atomic step under [ptable.lock].  What a process is given by other parts of
    the kernel (pages, page tables, files, inodes, the log) comes through the
    interface [KernelOps], whose state the table does not look into.  The code
    of a process is not part of the table: a call of [sched] leaves the table as
    it is at the switch. *)
From S2P Require Import Prelude Spinlock.

Definition NPROC : nat := 64.
Definition NOFILE : nat := 16.
Definition KSTACKSIZE : Z := 4096.
Definition FL_IF : Z := 512.  (* 0x00000200 *)

Inductive procstate : Type :=
  UNUSED | EMBRYO | SLEEPING | RUNNABLE | RUNNING | ZOMBIE | KZOMBIE.

#[export] Instance procstate_eq_dec : EqDecision procstate.
Proof. solve_decision. Defined.

(** A sleep channel: the address of a process, as [wait] uses, or that of
    another kernel object; [ChAddr 0] is the null pointer. *)
Inductive chan : Type := ChProc (i : nat) | ChAddr (a : Z).

#[export] Instance chan_eq_dec : EqDecision chan.
Proof. solve_decision. Defined.

Inductive reg : Type :=
  RAX | RBX | RCX | RDX | RBP | RSI | RDI | R8 | R9 | R10 | R11 | R12 | R13 | R14 | R15
  | TRAPNO | ERR | RIP | CS | RFLAGS | RSP | SS.

#[export] Instance reg_eq_dec : EqDecision reg.
Proof. solve_decision. Defined.

Definition trapframe : Type := reg -> Z.

(** Code addresses that the kernel puts on a new kernel stack. *)
Inductive code : Type := Forkret | Syscall_trapret | Exitkth | Kroutine (a : Z).

(** A process; the table is indexed by slots, [p_parent] is a slot.  [p_ret] is
    what the new kernel stack holds: [context->rip] and the return addresses
    above it, the order in which the thread runs through them.  The
    file and inode pointers are 0 for a null pointer. *)
Record proc : Type := Proc {
  p_sz : Z;  (* size of process memory *)
  p_pgdir : Z;  (* page table *)
  p_kstack : Z;  (* bottom of kernel stack *)
  p_state : procstate;
  p_pid : Z;
  p_parent : option nat;
  p_tf : trapframe;
  p_ret : list code;
  p_chan : chan;
  p_killed : bool;
  p_ofile : nat -> Z;
  p_cwd : Z;
  p_is_process : bool;
  p_name : list Z;  (* the 16 bytes *)
}.

Definition set_p_sz (v : Z) (r : proc) : proc :=
  Proc v (p_pgdir r) (p_kstack r) (p_state r) (p_pid r) (p_parent r) (p_tf r) (p_ret r)
    (p_chan r) (p_killed r) (p_ofile r) (p_cwd r) (p_is_process r) (p_name r).
Definition set_p_pgdir (v : Z) (r : proc) : proc :=
  Proc (p_sz r) v (p_kstack r) (p_state r) (p_pid r) (p_parent r) (p_tf r) (p_ret r) (p_chan r)
    (p_killed r) (p_ofile r) (p_cwd r) (p_is_process r) (p_name r).
Definition set_p_kstack (v : Z) (r : proc) : proc :=
  Proc (p_sz r) (p_pgdir r) v (p_state r) (p_pid r) (p_parent r) (p_tf r) (p_ret r) (p_chan r)
    (p_killed r) (p_ofile r) (p_cwd r) (p_is_process r) (p_name r).
Definition set_p_state (v : procstate) (r : proc) : proc :=
  Proc (p_sz r) (p_pgdir r) (p_kstack r) v (p_pid r) (p_parent r) (p_tf r) (p_ret r) (p_chan r)
    (p_killed r) (p_ofile r) (p_cwd r) (p_is_process r) (p_name r).
Definition set_p_pid (v : Z) (r : proc) : proc :=
  Proc (p_sz r) (p_pgdir r) (p_kstack r) (p_state r) v (p_parent r) (p_tf r) (p_ret r)
    (p_chan r) (p_killed r) (p_ofile r) (p_cwd r) (p_is_process r) (p_name r).
Definition set_p_parent (v : option nat) (r : proc) : proc :=
  Proc (p_sz r) (p_pgdir r) (p_kstack r) (p_state r) (p_pid r) v (p_tf r) (p_ret r) (p_chan r)
    (p_killed r) (p_ofile r) (p_cwd r) (p_is_process r) (p_name r).
Definition set_p_tf (v : trapframe) (r : proc) : proc :=
  Proc (p_sz r) (p_pgdir r) (p_kstack r) (p_state r) (p_pid r) (p_parent r) v (p_ret r)
    (p_chan r) (p_killed r) (p_ofile r) (p_cwd r) (p_is_process r) (p_name r).
Definition set_p_ret (v : list code) (r : proc) : proc :=
  Proc (p_sz r) (p_pgdir r) (p_kstack r) (p_state r) (p_pid r) (p_parent r) (p_tf r) v
    (p_chan r) (p_killed r) (p_ofile r) (p_cwd r) (p_is_process r) (p_name r).
Definition set_p_chan (v : chan) (r : proc) : proc :=
  Proc (p_sz r) (p_pgdir r) (p_kstack r) (p_state r) (p_pid r) (p_parent r) (p_tf r) (p_ret r) v
    (p_killed r) (p_ofile r) (p_cwd r) (p_is_process r) (p_name r).
Definition set_p_killed (v : bool) (r : proc) : proc :=
  Proc (p_sz r) (p_pgdir r) (p_kstack r) (p_state r) (p_pid r) (p_parent r) (p_tf r) (p_ret r)
    (p_chan r) v (p_ofile r) (p_cwd r) (p_is_process r) (p_name r).
Definition set_p_ofile (v : nat -> Z) (r : proc) : proc :=
  Proc (p_sz r) (p_pgdir r) (p_kstack r) (p_state r) (p_pid r) (p_parent r) (p_tf r) (p_ret r)
    (p_chan r) (p_killed r) v (p_cwd r) (p_is_process r) (p_name r).
Definition set_p_cwd (v : Z) (r : proc) : proc :=
  Proc (p_sz r) (p_pgdir r) (p_kstack r) (p_state r) (p_pid r) (p_parent r) (p_tf r) (p_ret r)
    (p_chan r) (p_killed r) (p_ofile r) v (p_is_process r) (p_name r).
Definition set_p_is_process (v : bool) (r : proc) : proc :=
  Proc (p_sz r) (p_pgdir r) (p_kstack r) (p_state r) (p_pid r) (p_parent r) (p_tf r) (p_ret r)
    (p_chan r) (p_killed r) (p_ofile r) (p_cwd r) v (p_name r).
Definition set_p_name (v : list Z) (r : proc) : proc :=
  Proc (p_sz r) (p_pgdir r) (p_kstack r) (p_state r) (p_pid r) (p_parent r) (p_tf r) (p_ret r)
    (p_chan r) (p_killed r) (p_ofile r) (p_cwd r) (p_is_process r) v.


Record ptable : Type := PTable {
  slots : nat -> proc;
  nextpid : Z;
  initproc : option nat;
}.

Definition set_slot (i : nat) (p : proc) (t : ptable) : ptable :=
  PTable (<[i := p]> (slots t)) (nextpid t) (initproc t).
Definition upd_slot (i : nat) (f : proc -> proc) (t : ptable) : ptable :=
  set_slot i (f (slots t i)) t.

(** The table at boot: zeroed. *)
Definition proc0 : proc :=
  Proc 0 0 0 UNUSED 0 None (fun _ => 0) [] (ChAddr 0) false (fun _ => 0) 0 false (replicate 16 0).
Definition ptable0 : ptable := PTable (fun _ => proc0) 1 None.

(** The scan [for(p = ptable.proc; p < &ptable.proc[NPROC]; p++)] for the first
    slot with a property, from slot [i] with [n] slots to go. *)
Fixpoint scan (f : proc -> bool) (t : nat -> proc) (i n : nat) : option nat :=
  match n with
  | O => None
  | S n => if f (t i) then Some i else scan f t (S i) n
  end.

Definition is_state (s : procstate) (p : proc) : bool := bool_decide (p_state p = s).

(** ** The locked sections *)

(** [allocproc] and [startkth] up to the release of the lock.  The increment of
    the [int] wraps, as the hardware does. *)
Definition alloc_slot (t : ptable) : option (nat * ptable) :=
  match scan (is_state UNUSED) (slots t) 0 NPROC with
  | None => None
  | Some i =>
      let t := upd_slot i (set_p_state EMBRYO) t in
      let t := upd_slot i (set_p_pid (nextpid t)) t in
      Some (i, PTable (slots t) (s32 (nextpid t + 1)) (initproc t))
  end.

Definition wakeup1 (c : chan) (t : ptable) : ptable :=
  PTable (fun i => let p := slots t i in
                   if (i <? NPROC)%nat && is_state SLEEPING p && bool_decide (p_chan p = c)
                   then set_p_state RUNNABLE p else p)
    (nextpid t) (initproc t).

(** The pointer [proc->parent] or [initproc] as a channel. *)
Definition chan_of (o : option nat) : chan :=
  match o with Some i => ChProc i | None => ChAddr 0 end.

(** The loop of [exit] that passes abandoned children to init. *)
Fixpoint pass_children (me : nat) (i n : nat) (t : ptable) : ptable :=
  match n with
  | O => t
  | S n =>
      let t :=
        if bool_decide (p_parent (slots t i) = Some me) then
          let t := upd_slot i (set_p_parent (initproc t)) t in
          if is_state ZOMBIE (slots t i) then wakeup1 (chan_of (initproc t)) t else t
        else t in
      pass_children me (S i) n t
  end.

(** [exit] from [acquire] to [sched]. *)
Definition exit_locked (me : nat) (t : ptable) : ptable :=
  let t := wakeup1 (chan_of (p_parent (slots t me))) t in
  let t := pass_children me 0 NPROC t in
  upd_slot me (set_p_state ZOMBIE) t.

(** The scan of [wait]: its first exited child and whether it has children. *)
Definition zombie_child (me : nat) (t : ptable) : option nat :=
  scan (fun p => bool_decide (p_parent p = Some me) && is_state ZOMBIE p) (slots t) 0 NPROC.
Definition havekids (me : nat) (t : ptable) : bool :=
  match scan (fun p => bool_decide (p_parent p = Some me)) (slots t) 0 NPROC with
  | Some _ => true
  | None => false
  end.

(** What [wait] does to the slot of the child it found. *)
Definition reap (p : proc) : proc :=
  let p := set_p_kstack 0 p in
  let p := set_p_pid 0 p in
  let p := set_p_parent None p in
  let p := set_p_name (<[0%nat := 0]> (p_name p)) p in
  let p := set_p_killed false p in
  set_p_state UNUSED p.

(** [sleep] up to the switch, and after it. *)
Definition go_to_sleep (me : nat) (c : chan) (t : ptable) : ptable :=
  let t := upd_slot me (set_p_chan c) t in
  upd_slot me (set_p_state SLEEPING) t.
Definition tidy_up (me : nat) (t : ptable) : ptable := upd_slot me (set_p_chan (ChAddr 0)) t.

Definition yield_locked (me : nat) (t : ptable) : ptable := upd_slot me (set_p_state RUNNABLE) t.

Definition exitkth_locked (me : nat) (t : ptable) : ptable := upd_slot me (set_p_state KZOMBIE) t.

Definition kill (pid : Z) (t : ptable) : Z * ptable :=
  match scan (fun p => p_pid p =? pid) (slots t) 0 NPROC with
  | None => (-1, t)
  | Some i =>
      let t := upd_slot i (set_p_killed true) t in
      (0, if is_state SLEEPING (slots t i) then upd_slot i (set_p_state RUNNABLE) t else t)
  end.

(** [sched]'s checks, on the CPU that runs the process. *)
Definition sched_check (held : bool) (c : cpu) (p : proc) : res unit :=
  if negb held then Panic "sched ptable.lock"
  else if negb (ncli c =? 1) then Panic "sched locks"
  else if is_state RUNNING p then Panic "sched running"
  else if eflags_IF c then Panic "sched interruptible"
  else Ok tt.

(** ** The scheduler of one CPU

    [sc_pos] is the slot its loop is at, [sc_skipped] the counter of slots that
    were not runnable, [sc_proc] the process that it switched to. *)
Record sched_cpu : Type := SchedCpu {
  sc_pos : nat;
  sc_skipped : Z;
  sc_proc : option nat;
}.

Inductive sched_event : Type :=
  | Skip
  | Run (i : nat)
  | EndPass (halt : bool).

(** One turn of the loops of [scheduler], up to the switch to a process. *)
Definition scheduler_visit (c : sched_cpu) (t : ptable) : sched_event * sched_cpu * ptable :=
  if (sc_pos c <? NPROC)%nat then
    if is_state RUNNABLE (slots t (sc_pos c)) then
      (Run (sc_pos c), SchedCpu (sc_pos c) 0 (Some (sc_pos c)),
       upd_slot (sc_pos c) (set_p_state RUNNING) t)
    else (Skip, SchedCpu (S (sc_pos c)) (sc_skipped c + 1) None, t)
  else if 2 * Z.of_nat NPROC <? sc_skipped c then (EndPass true, SchedCpu 0 0 None, t)
  else (EndPass false, SchedCpu 0 (sc_skipped c) None, t).

(** The clean-up of a kernel thread that has exited. *)
Definition reap_kth (p : proc) : proc :=
  set_p_state UNUSED (set_p_pid 0 (set_p_kstack 0 p)).

(** After the switch back; the kernel stack to free, if any. *)
Definition scheduler_back (c : sched_cpu) (t : ptable) : option Z * sched_cpu * ptable :=
  match sc_proc c with
  | None => (None, c, t)
  | Some i =>
      let c' := SchedCpu (S (sc_pos c)) (sc_skipped c) None in
      if is_state KZOMBIE (slots t i)
      then (Some (p_kstack (slots t i)), c', upd_slot i reap_kth t)
      else (None, c', t)
  end.

(** ** The services of the rest of the kernel *)

(** What proc.c calls in the memory allocator, the page tables, the file table,
    the inodes and the log, on a state [K] of those parts. *)
Class KernelOps (K : Type) : Type := {
  ko_kalloc : M K Z;
  ko_kfree : Z -> M K unit;
  ko_setupkvm : M K Z;
  ko_inituvm : Z -> M K unit;              (* the initcode image is linked in *)
  ko_copyuvm : Z -> Z -> M K Z;
  ko_freevm : Z -> M K unit;
  ko_allocuvm : Z -> Z -> Z -> M K Z;
  ko_deallocuvm : Z -> Z -> Z -> M K Z;
  ko_filedup : Z -> M K Z;
  ko_fileclose : Z -> M K unit;
  ko_idup : Z -> M K Z;
  ko_iput : Z -> M K unit;
  ko_begin_op : M K unit;
  ko_end_op : M K unit;
  ko_namei : list Z -> M K Z;
}.

(** The registers that [switchuvm] and [switchkvm] load: the page table and the
    stack pointer of the task state segment. *)
Record mmu : Type := Mmu { cr3 : Z; tss_rsp0 : Z }.

Record kernel (K : Type) : Type := Kernel {
  k_tab : ptable;
  k_mmu : mmu;
  k_first : bool;       (* the static variable of forkret *)
  k_rest : K;
}.
Arguments Kernel {K}.
Arguments k_tab {K}.
Arguments k_mmu {K}.
Arguments k_first {K}.
Arguments k_rest {K}.

Section Processes.
Context {K : Type} `{KernelOps K}.

Definition kop {A} (c : M K A) : M (kernel K) A := fun s =>
  match c (k_rest s) with
  | Ok (a, k) => Ok (a, Kernel (k_tab s) (k_mmu s) (k_first s) k)
  | Panic msg => Panic msg
  | Block => Block
  | Fuel => Fuel
  end.

Definition tab (f : ptable -> ptable) : M (kernel K) unit :=
  modify (fun s => Kernel (f (k_tab s)) (k_mmu s) (k_first s) (k_rest s)).
Definition upd (i : nat) (f : proc -> proc) : M (kernel K) unit := tab (upd_slot i f).
Definition the_proc (i : nat) : M (kernel K) proc := gets (fun s => slots (k_tab s) i).

(** [v2p] of a kernel address; [KERNBASE] is 0xFFFF800000000000. *)
Definition v2p (a : Z) : Z := u64 (a - 18446603336221196288).

Definition switchuvm (i : nat) : M (kernel K) unit :=
  let! p := the_proc i in
  if p_pgdir p =? 0 then panic "switchuvm: no pgdir"
  else modify (fun s => Kernel (k_tab s) (Mmu (v2p (p_pgdir p)) (u64 (p_kstack p + KSTACKSIZE)))
                               (k_first s) (k_rest s)).

Definition alloc : M (kernel K) (option nat) := fun s =>
  match alloc_slot (k_tab s) with
  | None => Ok (None, s)
  | Some (i, t) => Ok (Some i, Kernel t (k_mmu s) (k_first s) (k_rest s))
  end.

Definition allocproc : M (kernel K) (option nat) :=
  let! o := alloc in
  match o with
  | None => ret None
  | Some i =>
      do! upd i (set_p_is_process true) in
      let! kstack := kop ko_kalloc in
      do! upd i (set_p_kstack kstack) in
      if kstack =? 0 then do! upd i (set_p_state UNUSED) in ret None
      else do! upd i (set_p_ret [Forkret; Syscall_trapret]) in ret (Some i)
  end.

(** [safestrcpy(name, s, 16)]: a string shorter than 15 bytes gets two zero
    bytes, one copied and one stored after the loop. *)
Definition put_name (s : list Z) (name : list Z) : list Z :=
  let s := take 15 s in
  if (length s <? 15)%nat then s ++ [0; 0] ++ drop (length s + 2) name else s ++ [0].

(** initcode, as bytes. *)
Definition initcode_name : list Z := [105; 110; 105; 116; 99; 111; 100; 101].

Definition userinit : M (kernel K) unit :=
  let! o := allocproc in
  do! tab (fun t => PTable (slots t) (nextpid t) o) in
  match o with
  | None => panic "trap"   (* p->pgdir with p == 0 *)
  | Some i =>
      let! pgdir := kop ko_setupkvm in
      do! upd i (set_p_pgdir pgdir) in
      if pgdir =? 0 then panic "userinit: out of memory?"
      else
        do! kop (ko_inituvm pgdir) in
        do! upd i (set_p_sz (4096 * 2)) in
        do! upd i (set_p_tf (<[RCX := 4096]> (<[RSP := 4096 * 2]> (<[R11 := FL_IF]> (fun _ => 0))))) in
        do! upd i (fun p => set_p_name (put_name initcode_name (p_name p)) p) in
        let! cwd := kop (ko_namei [47]) in
        do! upd i (set_p_cwd cwd) in
        upd i (set_p_state RUNNABLE)
  end.

(** [n] is an [int64]; [sz + n] wraps as an [addr_t]. *)
Definition growproc (me : nat) (n : Z) : M (kernel K) Z :=
  let! p := the_proc me in
  let sz := p_sz p in
  let done_with (sz : Z) :=
    do! upd me (set_p_sz sz) in
    do! switchuvm me in
    ret 0 in
  if 0 <? n then
    let! sz := kop (ko_allocuvm (p_pgdir p) sz (u64 (sz + n))) in
    if sz =? 0 then ret (-1) else done_with sz
  else if n <? 0 then
    let! sz := kop (ko_deallocuvm (p_pgdir p) sz (u64 (sz + n))) in
    if sz =? 0 then ret (-1) else done_with sz
  else done_with sz.

(** The loop of [fork] that duplicates the open files. *)
Fixpoint dup_files (me np fd n : nat) : M (kernel K) unit :=
  match n with
  | O => ret tt
  | S n =>
      let! p := the_proc me in
      if p_ofile p fd =? 0 then dup_files me np (S fd) n
      else
        let! f := kop (ko_filedup (p_ofile p fd)) in
        do! upd np (fun q => set_p_ofile (<[fd := f]> (p_ofile q)) q) in
        dup_files me np (S fd) n
  end.

(** The C string in an array. *)
Fixpoint cstring (l : list Z) : list Z :=
  match l with
  | [] => []
  | c :: l => if c =? 0 then [] else c :: cstring l
  end.

Definition fork (me : nat) : M (kernel K) Z :=
  let! o := allocproc in
  match o with
  | None => ret (-1)
  | Some np =>
      let! p := the_proc me in
      (* the second parameter of copyuvm is a uint *)
      let! pgdir := kop (ko_copyuvm (p_pgdir p) (u32 (p_sz p))) in
      do! upd np (set_p_pgdir pgdir) in
      if pgdir =? 0 then
        let! q := the_proc np in
        do! kop (ko_kfree (p_kstack q)) in
        do! upd np (set_p_kstack 0) in
        do! upd np (set_p_state UNUSED) in
        ret (-1)
      else
        do! upd np (set_p_sz (p_sz p)) in
        do! upd np (set_p_parent (Some me)) in
        do! upd np (set_p_tf (<[RAX := 0]> (p_tf p))) in
        do! dup_files me np 0 NOFILE in
        let! cwd := kop (ko_idup (p_cwd p)) in
        do! upd np (set_p_cwd cwd) in
        do! upd np (fun q => set_p_name (put_name (cstring (p_name p)) (p_name q)) q) in
        let! q := the_proc np in
        do! upd np (set_p_state RUNNABLE) in
        ret (p_pid q)
  end.

(** The loop of [exit] that closes the open files. *)
Fixpoint close_files (me fd n : nat) : M (kernel K) unit :=
  match n with
  | O => ret tt
  | S n =>
      let! p := the_proc me in
      if p_ofile p fd =? 0 then close_files me (S fd) n
      else
        do! kop (ko_fileclose (p_ofile p fd)) in
        do! upd me (fun q => set_p_ofile (<[fd := 0]> (p_ofile q)) q) in
        close_files me (S fd) n
  end.

(** [exit] up to the switch to the scheduler, from which it does not return. *)
Definition exit (me : nat) : M (kernel K) unit :=
  let! s := get in
  if bool_decide (initproc (k_tab s) = Some me) then panic "init exiting"
  else
    do! close_files me 0 NOFILE in
    let! p := the_proc me in
    do! kop ko_begin_op in
    do! kop (ko_iput (p_cwd p)) in
    do! kop ko_end_op in
    do! upd me (set_p_cwd 0) in
    tab (exit_locked me).

Inductive wait_result : Type :=
  | Waited (pid : Z)   (** the return value *)
  | WaitSleeps.        (** asleep on its own process; scans again when woken *)

(** One turn of the loop of [wait]. *)
Definition wait (me : nat) : M (kernel K) wait_result :=
  let! s := get in
  match zombie_child me (k_tab s) with
  | Some i =>
      let! p := the_proc i in
      let pid := p_pid p in
      do! kop (ko_kfree (p_kstack p)) in
      do! kop (ko_freevm (p_pgdir p)) in
      do! upd i reap in
      ret (Waited pid)
  | None =>
      let! p := the_proc me in
      if negb (havekids me (k_tab s)) || p_killed p then ret (Waited (-1))
      else do! tab (go_to_sleep me (ChProc me)) in ret WaitSleeps
  end.

(** [scheduler] from one slot to the switch to its process. *)
Definition scheduler_run (c : sched_cpu) : M (kernel K) (sched_event * sched_cpu) :=
  let! s := get in
  let '(e, c', t) := scheduler_visit c (k_tab s) in
  match e with
  | Run i =>
      let! p := the_proc i in
      do! (if p_is_process p then switchuvm i else ret tt) in
      do! tab (fun _ => t) in
      ret (e, c')
  | _ => ret (e, c')
  end.

(** [scheduler] after the switch back; [kpml4] is the kernel's page table. *)
Definition scheduler_return (kpml4 : Z) (c : sched_cpu) : M (kernel K) sched_cpu :=
  do! modify (fun s => Kernel (k_tab s) (Mmu (v2p kpml4) (tss_rsp0 (k_mmu s))) (k_first s) (k_rest s)) in
  let! s := get in
  let '(o, c', t) := scheduler_back c (k_tab s) in
  do! (match o with Some kstack => kop (ko_kfree kstack) | None => ret tt end) in
  do! tab (fun _ => t) in
  ret c'.

(** [forkret]: whether [iinit] and [initlog] are to run now. *)
Definition forkret (me : nat) : M (kernel K) bool :=
  let! s := get in
  let! p := the_proc me in
  if k_first s && p_is_process p then
    do! modify (fun s => Kernel (k_tab s) (k_mmu s) false (k_rest s)) in ret true
  else ret false.

(** kthread, as bytes, without a terminator. *)
Definition kthread_name : list Z := [107; 116; 104; 114; 101; 97; 100].

Definition startkth (kroutine : Z) : M (kernel K) (option nat) :=
  let! o := alloc in
  match o with
  | None => ret None
  | Some i =>
      do! upd i (set_p_is_process true) in
      let! kstack := kop ko_kalloc in
      do! upd i (set_p_kstack kstack) in
      if kstack =? 0 then do! upd i (set_p_state UNUSED) in ret None
      else
        do! upd i (set_p_ret [Forkret; Kroutine kroutine; Exitkth]) in
        do! upd i (fun p => set_p_name (kthread_name ++ drop 7 (p_name p)) p) in
        do! upd i (set_p_is_process false) in
        do! upd i (set_p_state RUNNABLE) in
        ret (Some i)
  end.

End Processes.

(** ** The table as a transition system

    The locked sections and the updates of a new slot, of any number of CPUs, in
    any order that the states of the slots allow. *)
Inductive pstep : ptable -> ptable -> Prop :=
  | step_alloc t i t' :
      alloc_slot t = Some (i, t') -> 0 < nextpid t < 2147483647 -> pstep t t'
  | step_new t i f :
      (* an update of a new slot that its creator has not published *)
      p_state (slots t i) = EMBRYO ->
      (forall p, p_state (f p) = p_state p /\ p_pid (f p) = p_pid p /\ p_parent (f p) = p_parent p /\
                 p_chan (f p) = p_chan p) ->
      (p_is_process (f (slots t i)) = false -> p_parent (slots t i) = None) ->
      pstep t (upd_slot i f t)
  | step_parent t me i :
      p_state (slots t i) = EMBRYO -> p_is_process (slots t i) = true ->
      p_state (slots t me) = RUNNING -> p_is_process (slots t me) = true ->
      pstep t (upd_slot i (set_p_parent (Some me)) t)
  | step_fail t i :
      p_state (slots t i) = EMBRYO -> p_parent (slots t i) = None ->
      pstep t (upd_slot i (set_p_state UNUSED) t)
  | step_publish t i :
      p_state (slots t i) = EMBRYO ->
      (p_is_process (slots t i) = true -> p_parent (slots t i) <> None) ->
      pstep t (upd_slot i (set_p_state RUNNABLE) t)
  | step_self t me f :
      (* updates of its own slot: files, directory, size, trap frame *)
      p_state (slots t me) = RUNNING ->
      (forall p, p_state (f p) = p_state p /\ p_pid (f p) = p_pid p /\ p_parent (f p) = p_parent p /\
                 p_chan (f p) = p_chan p /\ p_is_process (f p) = p_is_process p) ->
      pstep t (upd_slot me f t)
  | step_exit t me :
      p_state (slots t me) = RUNNING -> p_is_process (slots t me) = true ->
      initproc t <> Some me -> pstep t (exit_locked me t)
  | step_reap t me i :
      p_state (slots t me) = RUNNING -> zombie_child me t = Some i -> pstep t (upd_slot i reap t)
  | step_wait t me :
      p_state (slots t me) = RUNNING -> zombie_child me t = None ->
      pstep t (go_to_sleep me (ChProc me) t)
  | step_sleep t me a :
      p_state (slots t me) = RUNNING -> pstep t (go_to_sleep me (ChAddr a) t)
  | step_tidy t me : p_state (slots t me) = RUNNING -> pstep t (tidy_up me t)
  | step_yield t me : p_state (slots t me) = RUNNING -> pstep t (yield_locked me t)
  | step_wakeup t a : pstep t (wakeup1 (ChAddr a) t)
  | step_kill t pid : pstep t (kill pid t).2
  | step_visit t c : pstep t (scheduler_visit c t).2
  | step_exitkth t me :
      p_state (slots t me) = RUNNING -> p_is_process (slots t me) = false ->
      pstep t (exitkth_locked me t)
  | step_back t c : pstep t (scheduler_back c t).2.

(** A process that can still run. *)
Definition active (s : procstate) : Prop := s = SLEEPING \/ s = RUNNABLE \/ s = RUNNING.

Record proc_inv (t : ptable) : Prop := {
  (** a slot that is free or a dead kernel thread is nobody's child *)
  pi_unused : forall i, p_state (slots t i) = UNUSED \/ p_state (slots t i) = KZOMBIE ->
    p_parent (slots t i) = None;
  (** only slots of the table are in use *)
  pi_range : forall i, p_state (slots t i) <> UNUSED -> (i < NPROC)%nat;
  (** pids of used slots are distinct and have been given out *)
  pi_pid : forall i, p_state (slots t i) <> UNUSED -> 0 < p_pid (slots t i) < nextpid t;
  pi_pids : forall i j, p_state (slots t i) <> UNUSED -> p_state (slots t j) <> UNUSED ->
    p_pid (slots t i) = p_pid (slots t j) -> i = j;
  (** a parent is a process that can still call [wait] *)
  pi_parent : forall i q, p_parent (slots t i) = Some q ->
    active (p_state (slots t q)) /\ p_is_process (slots t q) = true;
  (** init does not exit *)
  pi_init : exists q, initproc t = Some q /\
    active (p_state (slots t q)) /\ p_is_process (slots t q) = true /\ p_parent (slots t q) = None;
  pi_self : forall i, p_parent (slots t i) <> Some i;
  (** kernel threads have no parent *)
  pi_kth : forall i, p_is_process (slots t i) = false -> p_parent (slots t i) = None;
  (** every process but init has a parent *)
  pi_orphan : forall i, active (p_state (slots t i)) \/ p_state (slots t i) = ZOMBIE ->
    p_is_process (slots t i) = true -> initproc t <> Some i -> p_parent (slots t i) <> None;
  (** a process asleep in [wait] has no exited child *)
  pi_wait : forall i j, p_state (slots t i) = SLEEPING -> p_chan (slots t i) = ChProc i ->
    p_parent (slots t j) = Some i -> p_state (slots t j) <> ZOMBIE;
}.

(** ** The scans *)

Lemma scan_Some f t n : forall i k,
  scan f t i n = Some k -> (i <= k < i + n)%nat /\ f (t k) = true /\
    forall j, (i <= j < k)%nat -> f (t j) = false.
Proof.
  induction n as [|n IH]; intros i k; simpl; [done|].
  destruct (f (t i)) eqn:E.
  - intros [= <-]. split; [lia|]. split; [done|]. lia.
  - intros (H1 & H2 & H3)%IH. split; [lia|]. split; [done|].
    intros j Hj. destruct (decide (j = i)) as [->|]; [done|]. apply H3. lia.
Qed.

Lemma scan_None f t n : forall i,
  scan f t i n = None -> forall j, (i <= j < i + n)%nat -> f (t j) = false.
Proof.
  induction n as [|n IH]; intros i; simpl; [lia|].
  destruct (f (t i)) eqn:E; [done|]. intros Hs j Hj.
  destruct (decide (j = i)) as [->|]; [done|]. apply (IH (S i)); [done|lia].
Qed.

Lemma is_state_true s p : is_state s p = true <-> p_state p = s.
Proof. unfold is_state. by rewrite bool_decide_eq_true. Qed.

(** ** Preservation, for an update of one used slot *)

Lemma upd_slot_inv t i p' :
  let p := slots t i in
  proc_inv t ->
  p_state p <> UNUSED ->
  p_state p' = UNUSED \/ p_pid p' = p_pid p ->
  (p_state p' = UNUSED \/ p_state p' = KZOMBIE -> p_parent p' = None) ->
  p_parent p' = None \/ p_parent p' = p_parent p \/
    (p_state p = EMBRYO /\ exists me, p_parent p' = Some me /\ me <> i /\ active (p_state (slots t me)) /\
                p_is_process (slots t me) = true) ->
  (active (p_state p) -> p_is_process p = true ->
   active (p_state p') /\ p_is_process p' = true) ->
  (active (p_state p') \/ p_state p' = ZOMBIE -> p_is_process p' = true ->
   initproc t <> Some i -> p_parent p' <> None) ->
  (p_is_process p' = false -> p_parent p' = None) ->
  (p_state p' = SLEEPING -> p_chan p' = ChProc i ->
   p_state p = SLEEPING /\ p_chan p = ChProc i \/
   forall j, p_parent (slots t j) = Some i -> p_state (slots t j) <> ZOMBIE) ->
  (p_state p' = ZOMBIE -> p_state p = ZOMBIE /\ p_parent p' = p_parent p) ->
  proc_inv (set_slot i p' t).
Proof.
  intros p I Hu Hpid Hun Hpar Hact Horp Hkth Hwait Hz. destruct I as [I1 I2 I3 I4 I5 I6 I6s I6k I7 I8].
  subst p. split; unfold set_slot; simpl.
  - intros j. fn_case; auto.
  - intros j. fn_case; auto.
  - intros j. fn_case; auto. intros ?. destruct Hpid as [?| ->]; [done|]. auto.
  - assert (Hp : forall j, p_state p' <> UNUSED -> p_state (slots t j) <> UNUSED ->
      p_pid p' = p_pid (slots t j) -> i = j).
    { intros j H1 H2 H3. destruct Hpid as [?|Hpid]; [done|]. rewrite Hpid in H3. auto. }
    intros j k. repeat fn_case; auto. intros. symmetry. auto.
  - intros j q. destruct (decide (i = j)) as [<-|].
    + rewrite fn_lookup_insert. intros Hq. destruct Hpar as [?|[Hs|(? & me & Hs & ? & ?)]].
      * congruence.
      * rewrite Hs in Hq. apply I5 in Hq as [Ha Hb]. fn_case; auto.
      * rewrite Hs in Hq. simplify_eq. by rewrite fn_lookup_insert_ne by done.
    + rewrite fn_lookup_insert_ne by done. intros [Ha Hb]%I5. fn_case; auto.
  - destruct I6 as (q & Hq & Ha & Hb & Hn). exists q. split; [done|]. fn_case; auto.
    destruct (Hact Ha Hb). split_and!; [done..|]. destruct Hpar as [?|[Hs|(Hs & _)]]; [done|congruence|].
    rewrite Hs in Ha. unfold active in Ha. naive_solver.
  - intros j. fn_case; auto. destruct Hpar as [->|[->|(_ & me & -> & ? & _)]]; [done|auto|congruence].
  - intros j. fn_case; auto.
  - intros j. fn_case; auto.
  - intros j k. destruct (decide (i = j)) as [<-|Hij].
    + rewrite fn_lookup_insert. intros H1 H2.
      assert (Hno : forall k, p_parent (slots t k) = Some i -> p_state (slots t k) <> ZOMBIE).
      { destruct (Hwait H1 H2) as [[? ?]|?]; eauto. }
      fn_case; [|apply Hno]. intros H3 [Hz1 Hz2]%Hz. rewrite Hz2 in H3. by eapply Hno.
    + rewrite fn_lookup_insert_ne by done. intros H1 H2.
      fn_case; [|by eauto]. intros H3 [Hz1 Hz2]%Hz. rewrite Hz2 in H3. by eapply I8.
Qed.

(** ** Wakeups and exit *)

(** Only sleepers were made runnable. *)
Record woken (t t' : ptable) : Prop := {
  wk_next : nextpid t' = nextpid t;
  wk_init : initproc t' = initproc t;
  wk_slot : forall i, p_pid (slots t' i) = p_pid (slots t i) /\
    p_chan (slots t' i) = p_chan (slots t i) /\
    p_is_process (slots t' i) = p_is_process (slots t i);
  wk_state : forall i, p_state (slots t' i) = p_state (slots t i) \/
    p_state (slots t i) = SLEEPING /\ p_state (slots t' i) = RUNNABLE;
}.

Lemma woken_refl t : woken t t.
Proof. split; auto. Qed.

Lemma woken_trans t1 t2 t3 : woken t1 t2 -> woken t2 t3 -> woken t1 t3.
Proof.
  intros [A1 A2 A3 A4] [B1 B2 B3 B4]. split; [congruence..| |].
  - intros i. specialize (A3 i). specialize (B3 i). naive_solver congruence.
  - intros i. specialize (A4 i). specialize (B4 i). naive_solver congruence.
Qed.

Lemma wakeup1_woken c t : woken t (wakeup1 c t).
Proof.
  split; [done..| |]; intros i; unfold wakeup1; simpl; destruct (_ && _ && _) eqn:E; auto.
  right. apply andb_true_iff in E as [[_ E]%andb_true_iff _]. by apply is_state_true in E.
Qed.

Lemma wakeup1_parent c t i : p_parent (slots (wakeup1 c t) i) = p_parent (slots t i).
Proof. unfold wakeup1; simpl. by destruct (_ && _ && _). Qed.

Lemma wakeup1_awake c t i :
  (i < NPROC)%nat -> p_chan (slots t i) = c -> p_state (slots (wakeup1 c t) i) <> SLEEPING.
Proof.
  intros Hi Hc. unfold wakeup1; simpl. apply Nat.ltb_lt in Hi as ->.
  rewrite (bool_decide_eq_true_2 _ Hc), andb_true_r. simpl.
  destruct (is_state SLEEPING (slots t i)) eqn:E; [done|].
  intros H%is_state_true. congruence.
Qed.

Lemma woken_sleeping t t' i :
  woken t t' -> p_state (slots t' i) = SLEEPING -> p_state (slots t i) = SLEEPING.
Proof. intros [_ _ _ W] H. destruct (W i) as [<-|[? ?]]; congruence. Qed.

Lemma woken_active t t' i :
  woken t t' -> active (p_state (slots t i)) -> active (p_state (slots t' i)).
Proof. intros [_ _ _ W] H. destruct (W i) as [->|[? ->]]; [done|]. unfold active; auto. Qed.

Lemma woken_active_inv t t' i :
  woken t t' -> active (p_state (slots t' i)) -> active (p_state (slots t i)).
Proof. intros [_ _ _ W] H. destruct (W i) as [<-|[-> ?]]; [done|]. unfold active; auto. Qed.

Lemma woken_iff t t' i s :
  woken t t' -> ~ active s -> p_state (slots t' i) = s <-> p_state (slots t i) = s.
Proof.
  intros [_ _ _ W] Hs. destruct (W i) as [->|[E1 E2]]; [done|]. rewrite E1, E2.
  split; intros <-; destruct Hs; unfold active; auto.
Qed.

Lemma not_active_unused : ~ active UNUSED.
Proof. unfold active. naive_solver. Qed.
Lemma not_active_kzombie : ~ active KZOMBIE.
Proof. unfold active. naive_solver. Qed.
Lemma not_active_zombie : ~ active ZOMBIE.
Proof. unfold active. naive_solver. Qed.
#[local] Hint Resolve not_active_unused not_active_kzombie not_active_zombie : core.

(** The invariant after wakeups and a change of parents: what remains to be
    shown is about the parents. *)
Lemma woken_inv t t' :
  proc_inv t -> woken t t' ->
  (forall i, p_parent (slots t' i) = p_parent (slots t i) \/
             p_parent (slots t i) <> None /\ p_parent (slots t' i) = initproc t) ->
  (forall i j, p_state (slots t' i) = SLEEPING -> p_chan (slots t' i) = ChProc i ->
    p_parent (slots t' j) = Some i -> p_state (slots t' j) <> ZOMBIE) ->
  proc_inv t'.
Proof.
  intros I W Hp Hw. pose proof W as W0. destruct I as [I1 I2 I3 I4 I5 I6 I6s I6k I7 I8].
  pose proof (fun i => woken_iff t t' i UNUSED W not_active_unused) as Hu.
  pose proof (fun i => woken_iff t t' i ZOMBIE W not_active_zombie) as Hz.
  pose proof (fun i => woken_iff t t' i KZOMBIE W not_active_kzombie) as Hkz.
  destruct W as [A1 A2 A3 A4].
  destruct I6 as (q0 & Eq0 & Ha0 & Hb0 & Hn0).
  split; try done.
  - intros i. rewrite Hu, Hkz. intros H%I1. destruct (Hp i) as [->|[? _]]; [done|congruence].
  - intros i. rewrite Hu. apply I2.
  - intros i. rewrite Hu, A1. destruct (A3 i) as (-> & _). apply I3.
  - intros i j. rewrite !Hu. destruct (A3 i) as (-> & _), (A3 j) as (-> & _). apply I4.
  - intros i q Hq. destruct (A3 q) as (_ & _ & ->).
    destruct (Hp i) as [E|[_ E]]; rewrite E in Hq.
    + apply I5 in Hq as [? ?]. split; [by eapply woken_active|done].
    + simplify_eq. split; [by eapply woken_active|done].
  - exists q0. rewrite A2. destruct (A3 q0) as (_ & _ & ->). split_and!; [done|by eapply woken_active|done|].
    destruct (Hp q0) as [->|[? _]]; [done|congruence].
  - intros i Hi. destruct (Hp i) as [E|[Hx E]]; rewrite E in Hi; [by apply (I6s i)|]. congruence.
  - intros i. destruct (A3 i) as (_ & _ & ->). intros H%I6k.
    destruct (Hp i) as [->|[? _]]; congruence.
  - intros i Hi Hip Hne. destruct (A3 i) as (_ & _ & E). rewrite E in Hip. rewrite A2 in Hne.
    assert (p_parent (slots t i) <> None).
    { apply I7; [|done..]. destruct Hi as [Hi|Hi]; [left; by eapply woken_active_inv|right; by apply Hz]. }
    destruct (Hp i) as [->|[_ ->]]; congruence.
Qed.

Lemma wakeup1_inv c t : proc_inv t -> proc_inv (wakeup1 c t).
Proof.
  intros I. apply (woken_inv t); [done|apply wakeup1_woken|intros i; left; apply wakeup1_parent|].
  intros i j H1 H2 H3. rewrite (woken_iff t); [|apply wakeup1_woken|done].
  destruct (wk_slot _ _ (wakeup1_woken c t) i) as (_ & Hc & _). rewrite Hc in H2.
  rewrite wakeup1_parent in H3. apply (pi_wait t I i j); [|done..].
  by eapply woken_sleeping; [apply wakeup1_woken|].
Qed.

Lemma set_parent_woken t i o : woken t (upd_slot i (set_p_parent o) t).
Proof.
  split; [done..| |]; intros j; unfold upd_slot, set_slot; simpl; fn_case; auto.
Qed.

Lemma set_parent_lookup t i o j :
  p_parent (slots (upd_slot i (set_p_parent o) t) j) =
  if decide (i = j) then o else p_parent (slots t j).
Proof. unfold upd_slot, set_slot; simpl. fn_cases. Qed.

(** A sleeper in [wait]. *)
Definition in_wait (t : ptable) (q : nat) : Prop :=
  p_state (slots t q) = SLEEPING /\ p_chan (slots t q) = ChProc q.

Lemma woken_in_wait t t' q : woken t t' -> in_wait t' q -> in_wait t q.
Proof.
  intros W [H1 H2]. destruct (wk_slot _ _ W q) as (_ & E & _). rewrite E in H2.
  split; [by eapply woken_sleeping|done].
Qed.

Lemma wakeup1_in_wait t q : (q < NPROC)%nat -> ~ in_wait (wakeup1 (ChProc q) t) q.
Proof.
  intros Hq H. pose proof (woken_in_wait _ _ q (wakeup1_woken (ChProc q) t) H) as [_ Hc].
  destruct H as [H _]. by eapply wakeup1_awake.
Qed.

(** One turn of the loop. *)
Lemma pass_child_spec me i q t :
  initproc t = Some q -> q <> me -> (q < NPROC)%nat ->
  let t' := if bool_decide (p_parent (slots t i) = Some me) then
              let t := upd_slot i (set_p_parent (initproc t)) t in
              if is_state ZOMBIE (slots t i) then wakeup1 (chan_of (initproc t)) t else t
            else t in
  woken t t' /\
  (forall j, p_parent (slots t' j) =
     if decide (i = j /\ p_parent (slots t i) = Some me) then Some q else p_parent (slots t j)) /\
  (p_parent (slots t i) = Some me -> p_state (slots t i) = ZOMBIE -> ~ in_wait t' q).
Proof.
  intros Eq Hne Hq. rewrite Eq. cbv zeta. case_bool_decide as Hp.
  2:{ split; [apply woken_refl|]. split; [|done]. intros j. case_decide as D; [|done].
      destruct D as [-> ?]. done. }
  set (t1 := upd_slot i _ t). assert (W1 : woken t t1) by apply set_parent_woken.
  assert (E1 : initproc t1 = Some q) by done.
  assert (P1 : forall j, p_parent (slots t1 j) =
    if decide (i = j /\ p_parent (slots t i) = Some me) then Some q else p_parent (slots t j)).
  { intros j. unfold t1. rewrite set_parent_lookup. repeat case_decide; naive_solver. }
  destruct (is_state ZOMBIE (slots t1 i)) eqn:Ez.
  - split; [eapply woken_trans; [done|apply wakeup1_woken]|]. split.
    + intros j. by rewrite wakeup1_parent.
    + intros _ _. rewrite E1. by apply wakeup1_in_wait.
  - split; [done|]. split; [done|]. intros _ Hz. exfalso. apply not_true_iff_false in Ez. apply Ez.
    apply is_state_true. by apply (woken_iff t t1 i ZOMBIE).
Qed.

Lemma pass_children_spec me q n : forall i t,
  initproc t = Some q -> q <> me -> (q < NPROC)%nat ->
  let t' := pass_children me i n t in
  woken t t' /\
  (forall j, p_parent (slots t' j) =
     if decide ((i <= j < i + n)%nat /\ p_parent (slots t j) = Some me) then Some q
     else p_parent (slots t j)) /\
  (forall j, (i <= j < i + n)%nat -> p_parent (slots t j) = Some me ->
     p_state (slots t j) = ZOMBIE -> ~ in_wait t' q).
Proof.
  induction n as [|n IH]; intros i t Eq Hne Hq; cbn [pass_children]; cbv zeta.
  { split; [apply woken_refl|]. split; [intros j; case_decide; [lia|done]|lia]. }
  destruct (pass_child_spec me i q t Eq Hne Hq) as (W1 & P1 & Z1).
  set (t1 := if bool_decide _ then _ else _) in *. clearbody t1.
  assert (Eq1 : initproc t1 = Some q) by (rewrite <-Eq; apply W1).
  destruct (IH (S i) t1 Eq1 Hne Hq) as (W2 & P2 & Z2). split; [by eapply woken_trans|]. split.
  - intros j. rewrite P2. destruct (decide (i = j)) as [<-|Hij].
    + rewrite decide_False by lia. rewrite P1. apply decide_ext.
      split; intros [? ?]; (split; [lia|done]).
    + assert (E : p_parent (slots t1 j) = p_parent (slots t j)).
      { rewrite P1. by rewrite decide_False by (by intros [? _]). }
      rewrite E. apply decide_ext. split; intros [? ?]; (split; [lia|done]).
  - intros j Hj Hp Hz Hw. destruct (decide (i = j)) as [<-|].
    + apply Z1; try done. by eapply woken_in_wait.
    + apply (Z2 j); [lia| | |done].
      * rewrite P1. by rewrite decide_False by (by intros [? _]).
      * by apply (woken_iff t t1 j ZOMBIE).
Qed.

Lemma die_inv t me s :
  proc_inv t -> p_state (slots t me) <> UNUSED -> s = ZOMBIE \/ s = KZOMBIE ->
  (forall j, p_parent (slots t j) <> Some me) -> initproc t <> Some me ->
  (forall r, p_parent (slots t me) = Some r -> ~ in_wait t r) ->
  (s = ZOMBIE -> active (p_state (slots t me))) -> (s = KZOMBIE -> p_parent (slots t me) = None) ->
  proc_inv (upd_slot me (set_p_state s) t).
Proof.
  intros I Hu Hs Hkids Hne Hr Ha Hk. assert (s <> UNUSED) by naive_solver.
  assert (~ active s) by (unfold active; naive_solver).
  destruct I as [I1 I2 I3 I4 I5 I6 I6s I6k I7 I8]. split; unfold upd_slot, set_slot; simpl.
  - intros i. fn_case; simpl; auto. intros [?| ?]; [congruence|auto].
  - intros i. fn_case; auto.
  - intros i. fn_case; auto. simpl. auto.
  - intros i j. repeat fn_case; simpl; auto.
  - intros i q. destruct (decide (me = q)) as [<-|].
    + fn_case; simpl; intros Hx; exfalso; by eapply Hkids.
    + rewrite (fn_lookup_insert_ne _ me q) by done. fn_case; simpl; apply I5.
  - destruct I6 as (q & Hq & ? & ?). exists q. rewrite fn_lookup_insert_ne by congruence. done.
  - intros i. fn_case; simpl; auto.
  - intros i. fn_case; simpl; auto.
  - intros i. fn_case; simpl; auto. intros [?|Hz]; [done|]. intros. apply I7; auto.
  - intros i j. destruct (decide (me = i)) as [<-|].
    + rewrite fn_lookup_insert. simpl. intros ->. destruct Hs; congruence.
    + rewrite (fn_lookup_insert_ne _ me i) by done. intros H1 H2. fn_case; simpl; [|by apply I8].
      intros H3. destruct (Hr i H3). done.
Qed.

Lemma child_range t i q : proc_inv t -> p_parent (slots t i) = Some q -> (i < NPROC)%nat.
Proof.
  intros I Hp. apply (pi_range t I). intros Hu. rewrite (pi_unused t I i) in Hp; auto. congruence.
Qed.

Lemma active_range t q : proc_inv t -> active (p_state (slots t q)) -> (q < NPROC)%nat.
Proof. intros I Ha. apply (pi_range t I). intros E. rewrite E in Ha. by destruct not_active_unused. Qed.

Lemma pass_children_inv me t :
  proc_inv t -> initproc t <> Some me ->
  let t' := pass_children me 0 NPROC t in
  proc_inv t' /\ woken t t' /\ (forall j, p_parent (slots t' j) <> Some me).
Proof.
  intros I Hne. destruct (pi_init t I) as (q & Eq & Ha & _).
  assert (Hq : (q < NPROC)%nat) by by eapply active_range.
  assert (Hqm : q <> me) by congruence.
  destruct (pass_children_spec me q NPROC 0 t Eq Hqm Hq) as (W & P & Z). cbv zeta in *.
  set (t' := pass_children me 0 NPROC t) in *. clearbody t'.
  assert (P' : forall j, p_parent (slots t' j) =
    if decide (p_parent (slots t j) = Some me) then Some q else p_parent (slots t j)).
  { intros j. rewrite P. apply decide_ext. split; [by intros [_ ?]|]. intros Hj.
    split; [|done]. apply (child_range t j) in Hj; [lia|done]. }
  split; [|split; [done|]].
  2:{ intros j. rewrite P'. case_decide; congruence. }
  apply (woken_inv t); [done..| |].
  - intros i. rewrite P', Eq. case_decide as D; [|by left]. right. by rewrite D.
  - intros i j H1 H2 H3 H4. apply (woken_iff t t' j ZOMBIE W not_active_zombie) in H4.
    rewrite P' in H3. case_decide as D.
    + simplify_eq. apply (Z j); [|done..|by split].
      pose proof (child_range t j me I D). lia.
    + assert (in_wait t i) as [? ?] by (by eapply woken_in_wait; [|split]).
      by apply (pi_wait t I i j).
Qed.

Lemma exit_inv t me :
  proc_inv t -> p_state (slots t me) = RUNNING -> initproc t <> Some me ->
  proc_inv (exit_locked me t).
Proof.
  intros I Hr Hne. unfold exit_locked. cbv zeta.
  set (c := chan_of _). pose proof (wakeup1_inv c t I) as I1.
  pose proof (wakeup1_woken c t) as W1. destruct (pi_init t I) as (q & Eq & Haq & _).
  destruct (pass_children_inv me (wakeup1 c t) I1) as (I2 & W2 & Hno); [by rewrite (wk_init _ _ W1)|].
  destruct (pass_children_spec me q NPROC 0 (wakeup1 c t)) as (_ & P & _);
    [by rewrite (wk_init _ _ W1)|congruence|exact (active_range t q I Haq)|].
  cbv zeta in *. revert I2 W2 Hno P. generalize (pass_children me 0 NPROC (wakeup1 c t)).
  intros t2 I2 W2 Hno P. pose proof (woken_trans _ _ _ W1 W2) as W.
  assert (Ha : active (p_state (slots t2 me))).
  { eapply woken_active; [exact W|]. rewrite Hr. unfold active; auto. }
  apply die_inv; auto; [| | |done].
  - intros E. rewrite E in Ha. by destruct not_active_unused.
  - by rewrite (wk_init _ _ W).
  - intros r Hp Hw. destruct (decide (p_parent (slots t me) = Some r)) as [Hpr|Hpr].
    + apply (wakeup1_in_wait t r).
      * apply (active_range t r I). by apply (pi_parent t I me r).
      * eapply woken_in_wait; [|exact Hw]. unfold c in W2. by rewrite Hpr in W2.
    + rewrite P, !wakeup1_parent in Hp. case_decide as D; [|done].
      destruct D as [_ D]. by apply (pi_self t I me).
Qed.

Lemma alloc_slot_spec t i t' :
  alloc_slot t = Some (i, t') ->
  (i < NPROC)%nat /\ p_state (slots t i) = UNUSED /\
  t' = PTable (<[i := set_p_pid (nextpid t) (set_p_state EMBRYO (slots t i))]> (slots t))
              (s32 (nextpid t + 1)) (initproc t).
Proof.
  unfold alloc_slot. destruct (scan _ _ 0 NPROC) as [k|] eqn:E; [|done].
  intros [= <- <-]. apply scan_Some in E as (Hk & Hs & _). split; [lia|].
  split; [by apply is_state_true|]. unfold upd_slot, set_slot; simpl.
  by rewrite fn_lookup_insert, fn_insert_insert.
Qed.

Lemma alloc_inv t i t' :
  alloc_slot t = Some (i, t') -> 0 < nextpid t < 2147483647 -> proc_inv t -> proc_inv t'.
Proof.
  intros (Hi & Hu & ->)%alloc_slot_spec Hn [I1 I2 I3 I4 I5 I6 I6s I6k I7 I8].
  assert (En : s32 (nextpid t + 1) = nextpid t + 1) by (apply s32_small; lia).
  assert (Hq : forall q, active (p_state (slots t q)) -> i <> q).
  { intros q Ha <-. rewrite Hu in Ha. by destruct not_active_unused. }
  split; simpl; rewrite ?En.
  - intros j. fn_case; simpl; [naive_solver|auto].
  - intros j. fn_case; auto.
  - intros j. fn_case; simpl; [lia|]. intros ?%I3. lia.
  - intros j k. repeat fn_case; simpl; auto.
    + intros _ ?%I3. lia.
    + intros ?%I3. lia.
  - intros j q Hp. assert (Hpar : p_parent (slots t j) = Some q) by (fn_case; done).
    apply I5 in Hpar as [Ha Hb]. rewrite fn_lookup_insert_ne by auto. done.
  - destruct I6 as (q & Eq & Ha & Hb). exists q. rewrite fn_lookup_insert_ne by auto. done.
  - intros j. fn_case; simpl; auto.
  - intros j. fn_case; simpl; auto.
  - intros j. fn_case; simpl; auto. unfold active. naive_solver.
  - intros j k. destruct (decide (i = j)) as [<-|].
    + rewrite fn_lookup_insert. done.
    + rewrite fn_lookup_insert_ne by done. intros H1 H2. fn_case; simpl; [done|by apply I8].
Qed.

Lemma zombie_child_None me t :
  proc_inv t -> zombie_child me t = None ->
  forall j, p_parent (slots t j) = Some me -> p_state (slots t j) <> ZOMBIE.
Proof.
  intros I Hz j Hp Hs. pose proof (child_range t j me I Hp).
  pose proof (scan_None _ _ _ _ Hz j ltac:(lia)) as Hf. apply andb_false_iff in Hf as [Hf|Hf].
  - by apply bool_decide_eq_false in Hf.
  - apply is_state_true in Hs. congruence.
Qed.

Lemma zombie_child_Some me t i :
  zombie_child me t = Some i -> p_parent (slots t i) = Some me /\ p_state (slots t i) = ZOMBIE.
Proof.
  intros (_ & [H1 H2]%andb_true_iff & _)%scan_Some.
  by apply bool_decide_eq_true in H1; apply is_state_true in H2.
Qed.

(** A used slot whose state, pid, parent, channel and kind are kept. *)
Lemma same_inv t i f :
  proc_inv t -> p_state (slots t i) <> UNUSED ->
  let p := slots t i in
  p_state (f p) = p_state p /\ p_pid (f p) = p_pid p /\ p_parent (f p) = p_parent p /\
    p_chan (f p) = p_chan p ->
  p_is_process (f p) = p_is_process p \/ p_state p = EMBRYO ->
  (p_is_process (f p) = false -> p_parent p = None) ->
  proc_inv (upd_slot i f t).
Proof.
  intros I Hu p (E1 & E2 & E3 & E4) Hk Hn. subst p. apply upd_slot_inv; rewrite ?E1, ?E2, ?E3, ?E4; auto.
  - apply (pi_unused t I).
  - intros Ha Hb. destruct Hk as [->|Hk]; [done|]. rewrite Hk in Ha. unfold active in Ha. naive_solver.
  - intros Ha Hb. destruct Hk as [Hk|Hk]; [rewrite Hk in Hb; by apply (pi_orphan t I)|].
    rewrite Hk in Ha. unfold active in Ha. naive_solver.
Qed.

(** A change of state between [SLEEPING], [RUNNABLE] and [RUNNING]. *)
Lemma restate_inv t i s :
  proc_inv t -> active (p_state (slots t i)) -> s = RUNNABLE \/ s = RUNNING ->
  proc_inv (upd_slot i (set_p_state s) t).
Proof.
  intros I Ha Hs. assert (Has : active s) by (unfold active; naive_solver).
  apply upd_slot_inv; simpl; auto.
  - intros E. rewrite E in Ha. by destruct not_active_unused.
  - intros [->| ->]; [by destruct not_active_unused|by destruct not_active_kzombie].
  - intros _ Hip Hne. by apply (pi_orphan t I i); [left|..].
  - apply (pi_kth t I).
  - intros ->. destruct Hs; done.
  - intros ->. by destruct not_active_zombie.
Qed.

Lemma sleep_inv t me c :
  proc_inv t -> p_state (slots t me) = RUNNING ->
  (c = ChProc me -> forall j, p_parent (slots t j) = Some me -> p_state (slots t j) <> ZOMBIE) ->
  proc_inv (go_to_sleep me c t).
Proof.
  intros I Hr Hc. unfold go_to_sleep, upd_slot at 1, set_slot. unfold upd_slot, set_slot; simpl.
  rewrite fn_lookup_insert, fn_insert_insert.
  apply (upd_slot_inv t me (set_p_state SLEEPING (set_p_chan c (slots t me)))); simpl; rewrite ?Hr; auto.
  - naive_solver.
  - unfold active; auto.
  - intros _. apply (pi_orphan t I me). left. rewrite Hr. unfold active; auto.
  - apply (pi_kth t I).
  - done.
Qed.

Lemma kill_inv pid t : proc_inv t -> proc_inv (kill pid t).2.
Proof.
  intros I. unfold kill. destruct (scan _ _ 0 NPROC) as [i|] eqn:E; [|done]. cbv zeta. cbn [snd].
  set (t1 := upd_slot i (set_p_killed true) t).
  assert (E1 : slots t1 i = set_p_killed true (slots t i)).
  { unfold t1, upd_slot, set_slot; simpl. by rewrite fn_lookup_insert. }
  assert (I1 : proc_inv t1).
  { destruct (decide (p_state (slots t i) = UNUSED)) as [Hu|Hu].
    - apply (woken_inv t); [done|..].
      + split; [done..| |]; intros j; unfold t1, upd_slot, set_slot; simpl; fn_case; auto.
      + intros j. left. unfold t1, upd_slot, set_slot; simpl; fn_case; auto.
      + intros j k. unfold t1, upd_slot, set_slot; simpl. repeat fn_case; simpl; apply (pi_wait t I).
    - apply same_inv; auto. simpl. intros ?. by apply (pi_kth t I). }
  destruct (is_state SLEEPING (slots t1 i)) eqn:Es; [|done].
  apply is_state_true in Es. apply restate_inv; [done| |auto]. rewrite Es. unfold active; auto.
Qed.

Lemma active_intro t i s : p_state (slots t i) = s -> active s -> active (p_state (slots t i)).
Proof. by intros ->. Qed.

Lemma pstep_inv t t' : proc_inv t -> pstep t t' -> proc_inv t'.
Proof.
  intros I St. destruct St as [t i t' Ha Hn|t i f He Hf Hk|t me i He Hp Hr Hm|t i He Hp|t i He Hp
    |t me f Hr Hf|t me Hr Hp Hne|t me i Hr Hz|t me Hr Hz|t me a Hr|t me Hr|t me Hr|t a|t pid|t c
    |t me Hr Hp|t c].
  - by eapply alloc_inv.
  - apply same_inv; [done|by rewrite He|apply Hf|by right|done].
  - apply upd_slot_inv; simpl; rewrite ?He; auto; try done.
    + intuition congruence.
    + right. right. split; [done|]. exists me. split_and!; [done|congruence| |done]. rewrite Hr. unfold active; auto.
    + unfold active; intuition congruence.
  - apply upd_slot_inv; simpl; rewrite ?He; auto; try done; unfold active; intuition congruence.
  - apply upd_slot_inv; simpl; rewrite ?He; auto; try done.
    + intuition congruence.
    + unfold active; intuition congruence.
    + apply (pi_kth t I).
  - apply same_inv; [done|by rewrite Hr| |left; apply Hf|].
    + destruct (Hf (slots t me)) as (? & ? & ? & ? & ?). done.
    + destruct (Hf (slots t me)) as (? & ? & ? & ? & ->). apply (pi_kth t I).
  - by apply exit_inv.
  - apply zombie_child_Some in Hz as [Hp Hz]. apply upd_slot_inv; simpl; rewrite ?Hz; auto; try done;
      unfold active; intuition congruence.
  - apply sleep_inv; [done..|]. intros _. by apply zombie_child_None.
  - by apply sleep_inv.
  - apply upd_slot_inv; simpl; rewrite ?Hr; auto; try done.
    + intuition congruence.
    + rewrite <-Hr. apply (pi_orphan t I me).
    + apply (pi_kth t I).
  - apply restate_inv; [done| |auto]. rewrite Hr. unfold active; auto.
  - by apply wakeup1_inv.
  - by apply kill_inv.
  - unfold scheduler_visit. destruct (_ <? _)%nat; [|by destruct (_ <? _)].
    destruct (is_state _ _) eqn:E; [|done]. apply is_state_true in E.
    apply restate_inv; [done| |auto]. rewrite E. unfold active; auto.
  - apply die_inv; auto.
    + by rewrite Hr.
    + intros j [_ Hc]%(pi_parent t I). congruence.
    + destruct (pi_init t I) as (q & -> & _ & Hq & _). congruence.
    + intros r Hpr. rewrite (pi_kth t I me Hp) in Hpr. done.
    + done.
    + intros _. by apply (pi_kth t I).
  - unfold scheduler_back. destruct (sc_proc c) as [i|]; [|done].
    destruct (is_state KZOMBIE (slots t i)) eqn:E; [|done]. apply is_state_true in E.
    apply upd_slot_inv; simpl; rewrite ?E; auto; try done; unfold active; try (intuition congruence).
    + intros _. apply (pi_unused t I). auto.
    + apply (pi_kth t I).
Qed.

(** ** The operations as runs of the transition system *)

Section Refinement.
Context {K : Type} `{KernelOps K}.

Lemma kop_tab {A} (c : M K A) s a s' : kop c s = Ok (a, s') -> k_tab s' = k_tab s.
Proof. unfold kop. destruct (c (k_rest s)) as [[? ?]| | |]; intros; by simplify_eq. Qed.

Lemma upd_tab i f (s : kernel K) a s' : upd i f s = Ok (a, s') -> k_tab s' = upd_slot i f (k_tab s).
Proof. unfold upd, tab, modify. intros; by simplify_eq. Qed.

Lemma tab_tab f (s : kernel K) a s' : tab f s = Ok (a, s') -> k_tab s' = f (k_tab s).
Proof. unfold tab, modify. intros; by simplify_eq. Qed.

Lemma upd_upd i f g t : upd_slot i f (upd_slot i g t) = upd_slot i (fun p => f (g p)) t.
Proof. unfold upd_slot, set_slot; simpl. by rewrite fn_lookup_insert, fn_insert_insert. Qed.

Lemma upd_eq i f t : slots (upd_slot i f t) i = f (slots t i).
Proof. unfold upd_slot, set_slot; simpl. by rewrite fn_lookup_insert. Qed.
Lemma upd_ne i j f t : i <> j -> slots (upd_slot i f t) j = slots t j.
Proof. intros. unfold upd_slot, set_slot; simpl. by rewrite fn_lookup_insert_ne. Qed.

Lemma alloc_ok (s s' : kernel K) o :
  alloc s = Ok (o, s') ->
  match o with
  | None => s' = s /\ alloc_slot (k_tab s) = None
  | Some i => alloc_slot (k_tab s) = Some (i, k_tab s')
  end.
Proof.
  unfold alloc. destruct (alloc_slot (k_tab s)) as [[i t]|] eqn:E; intros; by simplify_eq.
Qed.

(** Follow the table through a run. *)
Ltac tabs :=
  repeat match goal with
  | E : kop _ _ = Ok _ |- _ => apply kop_tab in E
  | E : upd _ _ _ = Ok _ |- _ => apply upd_tab in E
  | E : tab _ _ = Ok _ |- _ => apply tab_tab in E
  | E : the_proc _ _ = Ok _ |- _ => unfold the_proc in E
  | _ => progress minv
  end.

Ltac tab_rw :=
  repeat match goal with E : k_tab ?x = _ |- context [k_tab ?x] => rewrite E; clear E end;
  rewrite ?upd_upd.

Lemma allocproc_ok (s s' : kernel K) o :
  allocproc s = Ok (o, s') ->
  match o with
  | None => k_tab s' = k_tab s \/ exists i t1,
      alloc_slot (k_tab s) = Some (i, t1) /\
      k_tab s' = upd_slot i (fun p => set_p_state UNUSED (set_p_kstack 0 (set_p_is_process true p))) t1
  | Some i => exists t1 ks, ks <> 0 /\ alloc_slot (k_tab s) = Some (i, t1) /\
      k_tab s' = upd_slot i (fun p => set_p_ret [Forkret; Syscall_trapret]
                   (set_p_kstack ks (set_p_is_process true p))) t1
  end.
Proof.
  unfold allocproc. intros E. minv. apply alloc_ok in E0. destruct a as [i|].
  - minv. destruct (Z.eqb_spec a0 0) as [->|Hne]; tabs; simplify_eq.
    + right. exists i, (k_tab s0). split; [done|]. by tab_rw.
    + exists (k_tab s0), a0. split; [done|]. split; [done|]. by tab_rw.
  - destruct E0 as [-> _]. minv. by left.
Qed.

Lemma dup_files_ok me np n : forall fd (s s' : kernel K) a,
  dup_files me np fd n s = Ok (a, s') ->
  exists g, k_tab s' = upd_slot np (fun p => set_p_ofile (g (p_ofile p)) p) (k_tab s).
Proof.
  induction n as [|n IH]; intros fd s s' a E; cbn [dup_files] in E.
  - minv. exists (fun x => x). unfold upd_slot, set_slot. destruct s' as [[sl n i] ? ? ?]; simpl.
    f_equal. rewrite fn_insert_id; [done|]. by destruct (sl np).
  - unfold the_proc in E. minv. destruct (_ =? 0); [by eapply IH|].
    minv. apply IH in E as [g E]. tabs.
    exists (fun x => g (<[fd := a0]> x)). by tab_rw.
Qed.

Lemma close_files_ok me n : forall fd (s s' : kernel K) a,
  close_files me fd n s = Ok (a, s') ->
  exists g, k_tab s' = upd_slot me (fun p => set_p_ofile (g (p_ofile p)) p) (k_tab s).
Proof.
  induction n as [|n IH]; intros fd s s' a E; cbn [close_files] in E.
  - minv. exists (fun x => x). unfold upd_slot, set_slot. destruct s' as [[sl n i] ? ? ?]; simpl.
    f_equal. rewrite fn_insert_id; [done|]. by destruct (sl me).
  - unfold the_proc in E. minv. destruct (_ =? 0); [by eapply IH|].
    minv. apply IH in E as [g E]. tabs.
    exists (fun x => g (<[fd := 0]> x)). by tab_rw.
Qed.

(** The table after [fork]: as before when there is no free slot, else a slot
    given back, else the child. *)
Lemma fork_ok me (s s' : kernel K) r :
  fork me s = Ok (r, s') ->
  (r = -1 /\ k_tab s' = k_tab s) \/
  (exists i t1 f, alloc_slot (k_tab s) = Some (i, t1) /\ r = -1 /\
     k_tab s' = upd_slot i (set_p_state UNUSED) (upd_slot i f t1) /\
     forall p, p_state (f p) = p_state p /\ p_pid (f p) = p_pid p /\ p_parent (f p) = p_parent p /\
       p_chan (f p) = p_chan p /\ p_is_process (f p) = true) \/
  (exists i t1 f, alloc_slot (k_tab s) = Some (i, t1) /\ r = p_pid (slots t1 i) /\
     k_tab s' = upd_slot i (set_p_state RUNNABLE) (upd_slot i (set_p_parent (Some me)) (upd_slot i f t1)) /\
     let par := slots (k_tab s') me in
     forall p, p_state (f p) = p_state p /\ p_pid (f p) = p_pid p /\ p_parent (f p) = p_parent p /\
       p_chan (f p) = p_chan p /\ p_is_process (f p) = true /\ p_killed (f p) = p_killed p /\
       (i <> me -> p_sz (f p) = p_sz par /\ p_tf (f p) = <[RAX := 0]> (p_tf par) /\
                   p_ret (f p) = [Forkret; Syscall_trapret])).
Proof.
  unfold fork. intros E. apply bind_Ok_inv in E as (o & sa & E0 & E).
  apply allocproc_ok in E0. destruct o as [i|].
  2:{ minv. destruct E0 as [E|(i & t1 & Ha & E)]; [by left|]. right. left.
      exists i, t1, (fun p => set_p_kstack 0 (set_p_is_process true p)). by rewrite E, upd_upd. }
  destruct E0 as (t1 & ks & Hks & Ha & E1). apply bind_Ok_inv in E as (par & s1 & Ep & E).
  unfold the_proc, gets in Ep. injection Ep as <- <-.
  apply bind_Ok_inv in E as (pgdir & s2 & E2 & E). apply bind_Ok_inv in E as (u & s3 & E3 & E).
  destruct (Z.eqb_spec pgdir 0) as [->|Hpg].
  - tabs. right. left. exists i, t1, (fun p => set_p_kstack 0 (set_p_pgdir 0
      (set_p_ret [Forkret; Syscall_trapret] (set_p_kstack ks (set_p_is_process true p))))).
    split; [done|]. split; [done|]. split; [by tab_rw|done].
  - minv.
    match goal with D : dup_files _ _ _ _ _ = _ |- _ => apply dup_files_ok in D as [g D] end.
    tabs. right. right.
    set (par := slots (k_tab sa) me) in *.
    match goal with D : k_tab ?x = upd_slot i (set_p_cwd ?c) _ |- _ => set (cw := c) in * end.
    exists i, t1, (fun p => set_p_name (put_name (cstring (p_name par)) (p_name p))
      (set_p_cwd cw (set_p_ofile (g (p_ofile p)) (set_p_tf (<[RAX := 0]> (p_tf par))
      (set_p_sz (p_sz par) (set_p_pgdir pgdir (set_p_ret [Forkret; Syscall_trapret]
      (set_p_kstack ks (set_p_is_process true p))))))))).
    split; [done|]. split; [tab_rw; by rewrite upd_eq|]. split; [by tab_rw|].
    intros p. do 6 (split; [done|]). intros Hne.
    assert (Epar : slots (k_tab s') me = par).
    { unfold par. tab_rw. by rewrite !upd_ne by done. }
    by rewrite Epar.
Qed.

(** [fork] runs as steps of the table. *)
Lemma fork_refines me (s s' : kernel K) r :
  proc_inv (k_tab s) -> p_state (slots (k_tab s) me) = RUNNING ->
  p_is_process (slots (k_tab s) me) = true -> 0 < nextpid (k_tab s) < 2147483647 ->
  fork me s = Ok (r, s') -> rtc pstep (k_tab s) (k_tab s').
Proof.
  intros I Hr Hp Hn E. apply fork_ok in E as [[_ ->]|[(i & t1 & f & Ha & _ & -> & Hf)|(i & t1 & f & Ha & _ & -> & Hf)]].
  - apply rtc_refl.
  - pose proof (alloc_inv _ _ _ Ha Hn I) as I1. pose proof (alloc_slot_spec _ _ _ Ha) as (_ & Hu & Et).
    assert (Ee : p_state (slots t1 i) = EMBRYO) by (rewrite Et; simpl; by rewrite fn_lookup_insert).
    assert (Ep : p_parent (slots t1 i) = None).
    { rewrite Et; simpl. rewrite fn_lookup_insert. simpl. apply (pi_unused _ I). auto. }
    eapply rtc_l; [by eapply step_alloc|]. eapply rtc_l.
    { apply (step_new t1 i f Ee); [|done]. intros p. destruct (Hf p) as (? & ? & ? & ? & ?). done. }
    eapply rtc_l; [|apply rtc_refl]. destruct (Hf (slots t1 i)) as (E1 & E2 & E3 & E4 & E5).
    apply step_fail; rewrite upd_eq; congruence.
  - pose proof (alloc_inv _ _ _ Ha Hn I) as I1. pose proof (alloc_slot_spec _ _ _ Ha) as (_ & Hu & Et).
    assert (Ee : p_state (slots t1 i) = EMBRYO) by (rewrite Et; simpl; by rewrite fn_lookup_insert).
    assert (Ep : p_parent (slots t1 i) = None).
    { rewrite Et; simpl. rewrite fn_lookup_insert. simpl. apply (pi_unused _ I). auto. }
    assert (Hi : i <> me) by congruence.
    assert (Em : slots t1 me = slots (k_tab s) me).
    { rewrite Et; simpl. by rewrite fn_lookup_insert_ne. }
    destruct (Hf (slots t1 i)) as (E1 & E2 & E3 & E4 & E5 & _).
    eapply rtc_l; [by eapply step_alloc|]. eapply rtc_l.
    { apply (step_new t1 i f Ee); [|done]. intros p. destruct (Hf p) as (? & ? & ? & ? & ? & _). done. }
    eapply rtc_l; [apply (step_parent _ me i); rewrite ?upd_eq, ?upd_ne, ?Em by done; congruence|].
    eapply rtc_l; [|apply rtc_refl]. apply step_publish; rewrite !upd_eq; [simpl; congruence|done].
Qed.

Lemma startkth_ok a (s s' : kernel K) o :
  startkth a s = Ok (o, s') ->
  match o with
  | None => k_tab s' = k_tab s \/ exists i t1 f, alloc_slot (k_tab s) = Some (i, t1) /\
      k_tab s' = upd_slot i (set_p_state UNUSED) (upd_slot i f t1) /\
      forall p, p_state (f p) = p_state p /\ p_pid (f p) = p_pid p /\ p_parent (f p) = p_parent p /\
        p_chan (f p) = p_chan p
  | Some i => exists t1 f, alloc_slot (k_tab s) = Some (i, t1) /\
      k_tab s' = upd_slot i (set_p_state RUNNABLE) (upd_slot i f t1) /\
      forall p, p_state (f p) = p_state p /\ p_pid (f p) = p_pid p /\ p_parent (f p) = p_parent p /\
        p_chan (f p) = p_chan p /\ p_is_process (f p) = false /\ p_kstack (f p) <> 0 /\
        p_ret (f p) = [Forkret; Kroutine a; Exitkth] /\ p_name (f p) = kthread_name ++ drop 7 (p_name p)
  end.
Proof.
  unfold startkth. intros E. apply bind_Ok_inv in E as (o' & sa & E0 & E).
  apply alloc_ok in E0. destruct o' as [i|]; [|destruct E0 as [-> _]; minv; by left].
  apply bind_Ok_inv in E as (u & s1 & E1 & E). apply bind_Ok_inv in E as (ks & s2 & E2 & E).
  apply bind_Ok_inv in E as (u2 & s3 & E3 & E). destruct (Z.eqb_spec ks 0) as [->|Hk]; tabs.
  - right. exists i, (k_tab sa), (fun p => set_p_kstack 0 (set_p_is_process true p)).
    split; [done|]. split; [by tab_rw|done].
  - exists (k_tab sa), (fun p => set_p_is_process false (set_p_name (kthread_name ++ drop 7 (p_name p))
      (set_p_ret [Forkret; Kroutine a; Exitkth] (set_p_kstack ks (set_p_is_process true p))))).
    split; [done|]. split; [by tab_rw|done].
Qed.

(** What [alloc_slot] leaves in the new slot. *)
Lemma alloc_new t i t1 :
  alloc_slot t = Some (i, t1) -> (forall j, p_state (slots t j) = UNUSED -> p_parent (slots t j) = None) ->
  p_state (slots t1 i) = EMBRYO /\ p_parent (slots t1 i) = None /\ p_pid (slots t1 i) = nextpid t /\
  p_killed (slots t1 i) = p_killed (slots t i) /\ p_name (slots t1 i) = p_name (slots t i) /\
  p_state (slots t i) = UNUSED /\ forall j, j <> i -> slots t1 j = slots t j.
Proof.
  intros (_ & Hu & ->)%alloc_slot_spec Hp. simpl. rewrite fn_lookup_insert. simpl.
  split_and!; auto. intros j Hj. by rewrite fn_lookup_insert_ne.
Qed.

Lemma startkth_refines a (s s' : kernel K) o :
  proc_inv (k_tab s) -> 0 < nextpid (k_tab s) < 2147483647 ->
  startkth a s = Ok (o, s') -> rtc pstep (k_tab s) (k_tab s').
Proof.
  intros I Hn E. apply startkth_ok in E. destruct o as [i|].
  - destruct E as (t1 & f & Ha & -> & Hf).
    destruct (alloc_new _ _ _ Ha) as (Ee & Ep & _); [intros; apply (pi_unused _ I); auto|].
    destruct (Hf (slots t1 i)) as (E1 & E2 & E3 & E4 & E5 & _).
    eapply rtc_l; [by eapply step_alloc|]. eapply rtc_l.
    { apply (step_new t1 i f Ee); [|done]. intros p. destruct (Hf p) as (? & ? & ? & ? & _). done. }
    eapply rtc_l; [|apply rtc_refl]. apply step_publish; rewrite upd_eq; [congruence|].
    rewrite E5. done.
  - destruct E as [->|(i & t1 & f & Ha & -> & Hf)]; [apply rtc_refl|].
    destruct (alloc_new _ _ _ Ha) as (Ee & Ep & _); [intros; apply (pi_unused _ I); auto|].
    destruct (Hf (slots t1 i)) as (E1 & E2 & E3 & E4).
    eapply rtc_l; [by eapply step_alloc|].
    eapply rtc_l; [by apply (step_new t1 i f Ee)|].
    eapply rtc_l; [|apply rtc_refl]. apply step_fail; rewrite upd_eq; congruence.
Qed.

Lemma exit_refines me (s s' : kernel K) :
  p_state (slots (k_tab s) me) = RUNNING -> p_is_process (slots (k_tab s) me) = true ->
  exit me s = Ok (tt, s') ->
  rtc pstep (k_tab s) (k_tab s') /\ initproc (k_tab s) <> Some me.
Proof.
  intros Hr Hp E. unfold exit in E. apply bind_Ok_inv in E as (s0 & s1 & E0 & E).
  unfold get in E0. injection E0 as <- <-. case_bool_decide as Hi; [done|]. split; [|done].
  apply bind_Ok_inv in E as (u & s1 & E1 & E). apply close_files_ok in E1 as [g E1].
  apply bind_Ok_inv in E as (p & s2 & E2 & E). unfold the_proc, gets in E2. injection E2 as <- <-.
  tabs. repeat match goal with D : k_tab ?x = _ |- context [k_tab ?x] => rewrite D; clear D end.
  eapply rtc_l; [apply (step_self _ me (fun p => set_p_ofile (g (p_ofile p)) p)); [exact Hr|done]|].
  eapply rtc_l; [apply (step_self _ me (set_p_cwd 0)); [by rewrite upd_eq|done]|].
  eapply rtc_l; [|apply rtc_refl]. apply step_exit; rewrite ?upd_eq; done.
Qed.

Lemma wait_ok me (s s' : kernel K) r :
  wait me s = Ok (r, s') ->
  match r with
  | Waited pid =>
      (exists i, zombie_child me (k_tab s) = Some i /\ pid = p_pid (slots (k_tab s) i) /\
                 k_tab s' = upd_slot i reap (k_tab s)) \/
      (zombie_child me (k_tab s) = None /\ pid = -1 /\ k_tab s' = k_tab s /\
       (havekids me (k_tab s) = false \/ p_killed (slots (k_tab s) me) = true))
  | WaitSleeps => zombie_child me (k_tab s) = None /\ havekids me (k_tab s) = true /\
      p_killed (slots (k_tab s) me) = false /\ k_tab s' = go_to_sleep me (ChProc me) (k_tab s)
  end.
Proof.
  unfold wait. intros E. apply bind_Ok_inv in E as (s0 & s1 & E0 & E).
  unfold get in E0. injection E0 as <- <-.
  destruct (zombie_child me (k_tab s)) as [i|] eqn:Ez; apply bind_Ok_inv in E as (p & s1 & E1 & E);
    unfold the_proc, gets in E1; injection E1 as <- <-.
  - tabs. left. exists i. split; [done|]. split; [done|]. by tab_rw.
  - destruct (negb (havekids me (k_tab s)) || p_killed (slots (k_tab s) me)) eqn:Eb; tabs.
    + right. apply orb_true_iff in Eb as [?%negb_true_iff|?]; auto.
    + apply orb_false_iff in Eb as [?%negb_false_iff ?]. done.
Qed.

Lemma wait_refines me (s s' : kernel K) r :
  p_state (slots (k_tab s) me) = RUNNING ->
  wait me s = Ok (r, s') -> rtc pstep (k_tab s) (k_tab s').
Proof.
  intros Hr E. apply wait_ok in E. destruct r as [pid|].
  - destruct E as [(i & Hz & _ & ->)|(_ & _ & -> & _)]; [|apply rtc_refl].
    eapply rtc_l; [by eapply step_reap|apply rtc_refl].
  - destruct E as (Hz & _ & _ & ->). eapply rtc_l; [by eapply step_wait|apply rtc_refl].
Qed.

Lemma growproc_ok me n (s s' : kernel K) r :
  growproc me n s = Ok (r, s') ->
  (r = -1 /\ k_tab s' = k_tab s) \/
  (r = 0 /\ exists sz, k_tab s' = upd_slot me (set_p_sz sz) (k_tab s)).
Proof.
  intros E. unfold growproc in E. apply bind_Ok_inv in E as (p & s1 & E1 & E).
  unfold the_proc, gets in E1. injection E1 as <- <-.
  assert (Hd : forall sz (s1 s' : kernel K) r, k_tab s1 = k_tab s ->
    (do! upd me (set_p_sz sz) in do! switchuvm me in ret 0) s1 = Ok (r, s') ->
    r = 0 /\ exists sz, k_tab s' = upd_slot me (set_p_sz sz) (k_tab s)).
  { intros sz s1 s2 r' Es E'. apply bind_Ok_inv in E' as (u & s3 & E3 & E').
    apply bind_Ok_inv in E' as (u' & s4 & E4 & E'). unfold switchuvm in E4.
    apply bind_Ok_inv in E4 as (p & s5 & E5 & E4). unfold the_proc, gets in E5. injection E5 as <- <-.
    destruct (_ =? 0); [done|]. unfold modify in E4. tabs. simplify_eq. simpl.
    split; [done|]. exists sz. by rewrite E3, Es. }
  destruct (0 <? n); [|destruct (n <? 0); [|right; by eapply Hd]];
    apply bind_Ok_inv in E as (sz & s1 & E1 & E); apply kop_tab in E1;
    (destruct (sz =? 0); [left; tabs; by rewrite E1|right; by eapply Hd]).
Qed.

Lemma growproc_refines me n (s s' : kernel K) r :
  p_state (slots (k_tab s) me) = RUNNING ->
  growproc me n s = Ok (r, s') -> rtc pstep (k_tab s) (k_tab s').
Proof.
  intros Hr [[_ ->]|(_ & sz & ->)]%growproc_ok; [apply rtc_refl|].
  apply rtc_once. by apply (step_self _ me (set_p_sz sz)).
Qed.

Lemma exit_state me (s s' : kernel K) :
  exit me s = Ok (tt, s') -> p_state (slots (k_tab s') me) = ZOMBIE.
Proof.
  intros E. unfold exit in E. apply bind_Ok_inv in E as (s0 & s1 & E0 & E).
  unfold get in E0. injection E0 as <- <-. case_bool_decide; [done|].
  apply bind_Ok_inv in E as (u & s1 & _ & E). tabs.
  match goal with D : k_tab s' = exit_locked _ _ |- _ => rewrite D end. unfold exit_locked. by rewrite upd_eq.
Qed.

Lemma wakeup1_killed c t i : p_killed (slots (wakeup1 c t) i) = p_killed (slots t i).
Proof. unfold wakeup1; simpl. by destruct (_ && _ && _). Qed.

Lemma pass_children_killed me j n : forall i t,
  p_killed (slots (pass_children me i n t) j) = p_killed (slots t j).
Proof.
  induction n as [|n IH]; intros i t; cbn [pass_children]; [done|]. rewrite IH.
  destruct (bool_decide _); [|done].
  assert (E : p_killed (slots (upd_slot i (set_p_parent (initproc t)) t) j) = p_killed (slots t j)).
  { unfold upd_slot, set_slot; simpl. by fn_case. }
  destruct (is_state _ _); by rewrite ?wakeup1_killed.
Qed.

Lemma exit_killed me j (s s' : kernel K) :
  exit me s = Ok (tt, s') -> p_killed (slots (k_tab s') j) = p_killed (slots (k_tab s) j).
Proof.
  assert (U : forall f t, (forall p, p_killed (f p) = p_killed p) ->
    p_killed (slots (upd_slot me f t) j) = p_killed (slots t j)).
  { intros f t Hf. unfold upd_slot, set_slot; simpl. fn_case; [apply Hf|done]. }
  intros E. unfold exit in E. apply bind_Ok_inv in E as (s0 & s1 & E0 & E).
  unfold get in E0. injection E0 as <- <-. case_bool_decide; [done|].
  apply bind_Ok_inv in E as (u & s1 & E1 & E). apply close_files_ok in E1 as [g E1]. tabs.
  match goal with D : k_tab s' = exit_locked _ _ |- _ => rewrite D; unfold exit_locked end.
  rewrite U, pass_children_killed, wakeup1_killed by done.
  repeat match goal with D : k_tab ?x = _ |- context [k_tab ?x] => rewrite D; clear D end. by rewrite !U.
Qed.
End Refinement.

(** ** Boot *)

(** The table before init: only kernel threads, which wait to run. *)
Record boot_inv (t : ptable) : Prop := {
  bi_parent : forall i, p_parent (slots t i) = None;
  bi_state : forall i, p_state (slots t i) = UNUSED \/
    p_state (slots t i) = RUNNABLE /\ p_is_process (slots t i) = false;
  bi_range : forall i, p_state (slots t i) <> UNUSED -> (i < NPROC)%nat;
  bi_pid : forall i, p_state (slots t i) <> UNUSED -> 0 < p_pid (slots t i) < nextpid t;
  bi_pids : forall i j, p_state (slots t i) <> UNUSED -> p_state (slots t j) <> UNUSED ->
    p_pid (slots t i) = p_pid (slots t j) -> i = j;
  bi_next : 0 < nextpid t;
}.

Lemma ptable0_inv : boot_inv ptable0.
Proof. split; simpl; auto; try done; lia. Qed.

(** A slot allocated, filled and published, or given back. *)
Lemma boot_new t i t1 (f : proc -> proc) s :
  boot_inv t -> nextpid t < 2147483647 -> alloc_slot t = Some (i, t1) ->
  let p := f (slots t1 i) in
  p_pid p = p_pid (slots t1 i) -> p_parent p = None ->
  s = UNUSED \/ s = RUNNABLE ->
  let t' := upd_slot i (set_p_state s) (upd_slot i f t1) in
  (forall j, p_parent (slots t' j) = None) /\
  (forall j, p_state (slots t' j) <> UNUSED -> (j < NPROC)%nat) /\
  (forall j, p_state (slots t' j) <> UNUSED -> 0 < p_pid (slots t' j) < nextpid t') /\
  (forall j k, p_state (slots t' j) <> UNUSED -> p_state (slots t' k) <> UNUSED ->
    p_pid (slots t' j) = p_pid (slots t' k) -> j = k) /\
  nextpid t' = nextpid t + 1 /\
  p_state (slots t' i) = s /\ p_is_process (slots t' i) = p_is_process p /\
  (forall j, j <> i -> slots t' j = slots t j).
Proof.
  intros [B1 B2 B3 B4 B5 B6] Hn Ha p Hpid Hpar Hs t'.
  destruct (alloc_new _ _ _ Ha) as (Ee & _ & Epid & _ & _ & Hu & Hoth); [by intros|].
  pose proof (alloc_slot_spec _ _ _ Ha) as (Hi & _ & Et).
  assert (En : nextpid t' = nextpid t + 1).
  { unfold t', upd_slot, set_slot; simpl. rewrite Et; simpl. apply s32_small. lia. }
  assert (Ei : slots t' i = set_p_state s p) by (unfold t'; by rewrite !upd_eq).
  assert (Ej : forall j, j <> i -> slots t' j = slots t j).
  { intros j Hj. unfold t'. rewrite !upd_ne by done. auto. }
  assert (Hpi : p_pid p = nextpid t) by congruence.
  rewrite En. split; [|split; [|split; [|split; [|rewrite Ei; simpl; auto 10]]]].
  - intros j. destruct (decide (j = i)) as [->|]; [by rewrite Ei|by rewrite Ej].
  - intros j. destruct (decide (j = i)) as [->|]; [done|]. rewrite Ej by done. auto.
  - intros j. destruct (decide (j = i)) as [->|]; [rewrite Ei; simpl; lia|].
    rewrite Ej by done. intros ?%B4. lia.
  - intros j k. destruct (decide (j = i)) as [->|], (decide (k = i)) as [->|]; [done|..].
    + rewrite Ei, Ej by done. simpl. intros _ ?%B4 ?. lia.
    + rewrite Ei, Ej by done. simpl. intros ?%B4 _ ?. lia.
    + rewrite !Ej by done. auto.
Qed.

Section Boot.
Context {K : Type} `{KernelOps K}.

(** [kthinit]; the two addresses are those of [dummy_kth] and [aread_kth]. *)
Definition kthinit (dummy aread : Z) : M (kernel K) unit :=
  do! startkth dummy in
  do! startkth aread in
  ret tt.

(** The part of [main] that fills the process table. *)
Definition boot_procs (dummy aread : Z) : M (kernel K) unit :=
  do! kthinit dummy aread in userinit.

Lemma startkth_boot a (s s' : kernel K) o :
  boot_inv (k_tab s) -> nextpid (k_tab s) < 2147483647 -> startkth a s = Ok (o, s') ->
  boot_inv (k_tab s') /\ nextpid (k_tab s') <= nextpid (k_tab s) + 1.
Proof.
  intros B Hn E. apply startkth_ok in E. destruct o as [i|].
  - destruct E as (t1 & f & Ha & -> & Hf). pose proof (Hf (slots t1 i)) as (E1 & E2 & E3 & E4 & E5 & _).
    destruct (alloc_new _ _ _ Ha) as (Ee & Ep & _); [intros; apply B|].
    destruct (boot_new _ _ _ f RUNNABLE B Hn Ha) as (N1 & N2 & N3 & N4 & N5 & N6 & N7 & N8);
      [done|congruence|auto|]. rewrite N5. split; [|lia]. split; auto.
    + intros j. destruct (decide (j = i)) as [->|]; [right; by rewrite N6, N7|].
      rewrite N8 by done. apply B.
    + rewrite N5. pose proof (bi_next _ B). lia.
  - destruct E as [->|(i & t1 & f & Ha & -> & Hf)]; [split; [done|lia]|].
    pose proof (Hf (slots t1 i)) as (E1 & E2 & E3 & E4).
    destruct (alloc_new _ _ _ Ha) as (Ee & Ep & _); [intros; apply B|].
    destruct (boot_new _ _ _ f UNUSED B Hn Ha) as (N1 & N2 & N3 & N4 & N5 & N6 & N7 & N8);
      [done|congruence|auto|]. rewrite N5. split; [|lia]. split; auto.
    + intros j. destruct (decide (j = i)) as [->|]; [left; by rewrite N6|].
      rewrite N8 by done. apply B.
    + rewrite N5. pose proof (bi_next _ B). lia.
Qed.

Lemma userinit_ok (s s' : kernel K) :
  userinit s = Ok (tt, s') ->
  exists i t1 f, alloc_slot (k_tab s) = Some (i, t1) /\
    (let t2 := upd_slot i (set_p_state RUNNABLE) (upd_slot i f t1) in
     k_tab s' = PTable (slots t2) (nextpid t2) (Some i)) /\
    forall p, p_pid (f p) = p_pid p /\ p_parent (f p) = p_parent p /\ p_is_process (f p) = true.
Proof.
  unfold userinit. intros E. apply bind_Ok_inv in E as (o & sa & E0 & E).
  apply allocproc_ok in E0. apply bind_Ok_inv in E as (u & s1 & E1 & E).
  destruct o as [i|]; [|done]. destruct E0 as (t1 & ks & _ & Ha & E0).
  apply bind_Ok_inv in E as (pg & s2 & E2 & E). apply bind_Ok_inv in E as (u3 & s3 & E3 & E).
  destruct (_ =? 0); [done|]. minv.
  repeat match goal with
  | D : kop _ _ = Ok _ |- _ => apply kop_tab in D
  | D : upd _ _ _ = Ok _ |- _ => apply upd_tab in D
  | D : tab _ _ = Ok _ |- _ => apply tab_tab in D
  end.
  match goal with D : k_tab ?x = upd_slot i (set_p_cwd ?c) _ |- _ => set (cw := c) in * end.
  exists i, t1, (fun p => set_p_cwd cw (set_p_name (put_name initcode_name (p_name p))
    (set_p_tf (<[RCX := 4096]> (<[RSP := 4096 * 2]> (<[R11 := FL_IF]> (fun _ => 0))))
    (set_p_sz (4096 * 2) (set_p_pgdir pg (set_p_ret [Forkret; Syscall_trapret]
    (set_p_kstack ks (set_p_is_process true p)))))))).
  split; [done|]. split; [|done].
  repeat match goal with D : k_tab ?x = _ |- context [k_tab ?x] => rewrite D; clear D end.
  rewrite !upd_upd. unfold upd_slot, set_slot. cbn [slots nextpid initproc].
  by rewrite !fn_lookup_insert, !fn_insert_insert.
Qed.

Lemma userinit_boot (s s' : kernel K) :
  boot_inv (k_tab s) -> nextpid (k_tab s) < 2147483647 -> userinit s = Ok (tt, s') ->
  proc_inv (k_tab s') /\ nextpid (k_tab s') = nextpid (k_tab s) + 1.
Proof.
  intros B Hn E. apply userinit_ok in E as (i & t1 & f & Ha & Et & Hf). cbv zeta in Et.
  pose proof (Hf (slots t1 i)) as (E1 & E2 & E3).
  destruct (alloc_new _ _ _ Ha) as (Ee & Ep & _); [intros; apply B|].
  destruct (boot_new _ _ _ f RUNNABLE B Hn Ha) as (N1 & N2 & N3 & N4 & N5 & N6 & N7 & N8);
    [done|congruence|auto|].
  rewrite Et. revert N1 N2 N3 N4 N5 N6 N7 N8.
  generalize (upd_slot i (set_p_state RUNNABLE) (upd_slot i f t1)). intros t2 N1 N2 N3 N4 N5 N6 N7 N8.
  simpl. split; [|done]. rewrite E3 in N7. split; simpl; auto; try (intros; congruence).
  - exists i. rewrite N6, N7, N1. unfold active; auto.
  - intros j Hj Hp Hne. assert (j <> i) by congruence. rewrite N8 in Hj, Hp by done.
    destruct (bi_state _ B j) as [Hs|[_ Hs]]; [|congruence].
    rewrite Hs in Hj. unfold active in Hj. intuition congruence.
Qed.

Lemma boot_procs_inv d a (s s' : kernel K) :
  k_tab s = ptable0 -> boot_procs d a s = Ok (tt, s') ->
  proc_inv (k_tab s') /\ 0 < nextpid (k_tab s') <= 4.
Proof.
  intros E0 E. unfold boot_procs, kthinit in E. apply bind_Ok_inv in E as (u & s3 & Ek & E).
  apply bind_Ok_inv in Ek as (o1 & s1 & E1 & Ek). apply bind_Ok_inv in Ek as (o2 & s2 & E2 & Ek).
  unfold ret in Ek. injection Ek as <- <-.
  apply startkth_boot in E1 as [B1 N1]; rewrite ?E0; [|apply ptable0_inv|done].
  rewrite E0 in N1. simpl in N1.
  apply startkth_boot in E2 as [B2 N2]; [|done|lia].
  pose proof (bi_next _ B2). apply userinit_boot in E as [I N3]; [|done|lia]. split; [done|lia].
Qed.
End Boot.

(** ** Theorems *)


(** The calls of proc.c that a process makes. *)
Inductive pcall : Type := CFork | CExit | CWait | CGrow (n : Z) | CStartkth (a : Z).

Definition run_pcall {K} `{KernelOps K} (me : nat) (c : pcall) : M (kernel K) unit :=
  match c with
  | CFork => do! fork me in ret tt
  | CExit => exit me
  | CWait => do! wait me in ret tt
  | CGrow n => do! growproc me n in ret tt
  | CStartkth a => do! startkth a in ret tt
  end.

(** C19: [fork], [exit], [wait], [growproc] and [startkth] implement the
    transition system of the table: whatever the rest of the kernel does, a
    call that returns is a sequence of its steps, and keeps the invariant. *)
Theorem proc_calls_refine {K} `{KernelOps K} me c (s s' : kernel K) :
  proc_inv (k_tab s) -> p_state (slots (k_tab s) me) = RUNNING ->
  p_is_process (slots (k_tab s) me) = true -> 0 < nextpid (k_tab s) < 2147483647 ->
  run_pcall me c s = Ok (tt, s') -> rtc pstep (k_tab s) (k_tab s') /\ proc_inv (k_tab s').
Proof.
  intros I Hr Hp Hn E. assert (Hs : rtc pstep (k_tab s) (k_tab s')).
  { destruct c; cbn [run_pcall] in E; [| |..]; try (apply bind_Ok_inv in E as (r & s1 & E1 & E);
      unfold ret in E; injection E as <-).
    - by eapply fork_refines.
    - by apply (exit_refines me).
    - by eapply wait_refines.
    - by eapply growproc_refines.
    - by eapply startkth_refines. }
  split; [done|]. by eapply rtc_invariant; [|apply pstep_inv|].
Qed.

(** [fork] gives a child in a free slot with a new pid, which it returns,
    the caller as parent, the caller's size and registers but 0 in [rax], ready
    to run through [forkret] to user space; it changes no other slot.  When it
    returns -1, the used slots are as before. *)
Theorem fork_correct {K} `{KernelOps K} me (s s' : kernel K) r :
  proc_inv (k_tab s) -> p_state (slots (k_tab s) me) = RUNNING -> fork me s = Ok (r, s') ->
  (r = -1 /\ forall j, p_state (slots (k_tab s) j) = p_state (slots (k_tab s') j) /\
     (p_state (slots (k_tab s) j) <> UNUSED -> slots (k_tab s') j = slots (k_tab s) j)) \/
  (exists i, p_state (slots (k_tab s) i) = UNUSED /\ r = nextpid (k_tab s) /\
     let parent := slots (k_tab s) me in
     let child := slots (k_tab s') i in
     p_state child = RUNNABLE /\ p_pid child = r /\ p_parent child = Some me /\
     p_is_process child = true /\ p_sz child = p_sz parent /\
     p_tf child = <[RAX := 0]> (p_tf parent) /\ p_ret child = [Forkret; Syscall_trapret] /\
     forall j, j <> i -> slots (k_tab s') j = slots (k_tab s) j).
Proof.
  intros I Hr E.
  apply fork_ok in E as [[-> ->]|[(i & t1 & f & Ha & -> & -> & Hf)|(i & t1 & f & Ha & -> & Et & Hf)]].
  - left. auto.
  - left. split; [done|]. destruct (alloc_new _ _ _ Ha) as (Ee & Ep & Epid & _ & _ & Hu & Ho);
      [intros; apply (pi_unused _ I); auto|].
    intros j. destruct (decide (j = i)) as [->|Hj]; [by rewrite !upd_eq, Hu|].
    by rewrite !upd_ne, Ho by done.
  - right. exists i. destruct (alloc_new _ _ _ Ha) as (Ee & Ep & Epid & _ & _ & Hu & Ho);
      [intros; apply (pi_unused _ I); auto|].
    assert (Hi : i <> me) by congruence.
    assert (Em : slots (k_tab s') me = slots (k_tab s) me) by (rewrite Et, !upd_ne, Ho; auto).
    rewrite Em in Hf. destruct (Hf (slots t1 i)) as (F1 & F2 & F3 & F4 & F5 & F6 & F7).
    destruct (F7 Hi) as (F8 & F9 & F10). split; [done|]. split; [done|]. cbv zeta.
    rewrite Et, !upd_eq. cbn [p_state p_pid p_parent p_is_process p_sz p_tf p_ret set_p_state set_p_parent].
    split_and!; [done|by rewrite F2|done..|]. intros j Hj. rewrite !upd_ne by done. auto.
Qed.

(** [wait] collects the first exited child: it returns its pid and frees its
    slot; it returns -1 when no child has exited and there is no child left or
    the caller was killed; otherwise it sleeps, on its own process. *)
Theorem wait_correct {K} `{KernelOps K} me (s s' : kernel K) r :
  proc_inv (k_tab s) -> wait me s = Ok (r, s') ->
  match r with
  | WaitSleeps =>
      (exists j, p_parent (slots (k_tab s) j) = Some me) /\
      (forall j, p_parent (slots (k_tab s) j) = Some me -> p_state (slots (k_tab s) j) <> ZOMBIE) /\
      in_wait (k_tab s') me
  | Waited pid =>
      (exists i, p_parent (slots (k_tab s) i) = Some me /\ p_state (slots (k_tab s) i) = ZOMBIE /\
         pid = p_pid (slots (k_tab s) i) /\ p_state (slots (k_tab s') i) = UNUSED /\
         p_parent (slots (k_tab s') i) = None /\
         forall j, j <> i -> slots (k_tab s') j = slots (k_tab s) j) \/
      (pid = -1 /\ k_tab s' = k_tab s /\
       ((forall j, p_parent (slots (k_tab s) j) <> Some me) \/ p_killed (slots (k_tab s) me) = true))
  end.
Proof.
  intros I E. apply wait_ok in E. destruct r as [pid|].
  - destruct E as [(i & Hz & -> & ->)|(Hz & -> & -> & Hk)].
    + left. exists i. apply zombie_child_Some in Hz as [Hp Hz]. rewrite upd_eq.
      split_and!; [done..|]. intros j Hj. by rewrite upd_ne.
    + right. split; [done|]. split; [done|]. destruct Hk as [Hk|?]; [left|by right].
      unfold havekids in Hk. intros j Hj. destruct (scan _ _ _ _) eqn:Es; [done|].
      pose proof (child_range _ _ _ I Hj). pose proof (scan_None _ _ _ _ Es j ltac:(lia)) as Hf.
      by apply bool_decide_eq_false in Hf.
  - destruct E as (Hz & Hk & _ & ->). unfold havekids in Hk. split; [|split].
    + destruct (scan _ _ _ _) as [j|] eqn:Es; [|done]. apply scan_Some in Es as (_ & Hf & _).
      exists j. by apply bool_decide_eq_true in Hf.
    + by apply zombie_child_None.
    + unfold in_wait, go_to_sleep. rewrite upd_upd, upd_eq. done.
Qed.

(** The scheduler of a CPU after one turn: a process that it ran has switched
    back. *)
Definition after_visit (c : sched_cpu) (t : ptable) : sched_cpu :=
  let '(e, c', t') := scheduler_visit c t in
  match e with Run _ => (scheduler_back c' t').1.2 | _ => c' end.

Fixpoint sched_trace (T : nat -> ptable) (c : sched_cpu) (k : nat) : sched_cpu :=
  match k with
  | O => c
  | S k => after_visit (sched_trace T c k) (T k)
  end.

Definition event (c : sched_cpu) (t : ptable) : sched_event := (scheduler_visit c t).1.1.

Lemma after_visit_pos c t :
  sc_pos (after_visit c t) = if (sc_pos c <? NPROC)%nat then S (sc_pos c) else 0%nat.
Proof.
  unfold after_visit, scheduler_visit. destruct (sc_pos c <? NPROC)%nat.
  - destruct (is_state RUNNABLE _); [|done]. unfold scheduler_back. cbn [sc_proc].
    by destruct (is_state KZOMBIE _).
  - by destruct (_ <? _).
Qed.

Lemma sched_trace_pos T c k :
  (sc_pos c <= NPROC)%nat ->
  sc_pos (sched_trace T c k) = Nat.modulo (sc_pos c + k) (S NPROC).
Proof.
  intros Hc. induction k as [|k IH]; cbn [sched_trace].
  - rewrite Nat.add_0_r, Nat.mod_small by (unfold NPROC in *; lia). done.
  - rewrite after_visit_pos, IH. unfold NPROC in *.
    set (x := (sc_pos c + k)%nat). pose proof (Nat.div_mod_eq x 65) as Hx.
    pose proof (Nat.mod_upper_bound x 65).
    replace (sc_pos c + S k)%nat with (S x) by lia.
    destruct (Nat.ltb_spec (x mod 65) 64).
    + apply (Nat.mod_unique _ _ (x / 65)); lia.
    + apply (Nat.mod_unique _ _ (S (x / 65))); lia.
Qed.

(** C33: no process starves: whatever the tables are at the scheduler's visits,
    a process that stays runnable is run within one pass over the 64 slots. *)
Theorem scheduler_fair (T : nat -> ptable) (c : sched_cpu) (j : nat) :
  (sc_pos c <= NPROC)%nat -> (j < NPROC)%nat ->
  (forall k, p_state (slots (T k) j) = RUNNABLE) ->
  exists k, (k <= NPROC)%nat /\ event (sched_trace T c k) (T k) = Run j.
Proof.
  intros Hc Hj Hr.
  assert (exists k, (k <= NPROC)%nat /\ Nat.modulo (sc_pos c + k) (S NPROC) = j) as (k & Hk & Hm).
  { unfold NPROC in *. destruct (Nat.leb_spec (sc_pos c) j).
    - exists (j - sc_pos c)%nat. split; [lia|].
      replace (sc_pos c + (j - sc_pos c))%nat with j by lia. apply Nat.mod_small. lia.
    - exists (65 - sc_pos c + j)%nat. split; [lia|].
      replace (sc_pos c + (65 - sc_pos c + j))%nat with (j + 1 * 65)%nat by lia.
      rewrite Nat.Div0.mod_add. apply Nat.mod_small. lia. }
  exists k. split; [done|]. unfold event, scheduler_visit.
  rewrite sched_trace_pos, Hm by done. apply Nat.ltb_lt in Hj as ->.
  assert (is_state RUNNABLE (slots (T k) j) = true) as -> by (apply is_state_true, Hr). done.
Qed.

(** ** A small kernel for examples *)

(** The rest of the kernel as a counter of pages. *)
#[local] Instance demo_ops : KernelOps Z := {
  ko_kalloc := fun k => Ok (4096 * (k + 1), k + 1);
  ko_kfree := fun _ => ret tt;
  ko_setupkvm := fun k => Ok (4096 * (k + 1), k + 1);
  ko_inituvm := fun _ => ret tt;
  ko_copyuvm := fun _ _ k => Ok (4096 * (k + 1), k + 1);
  ko_freevm := fun _ => ret tt;
  ko_allocuvm := fun _ _ n => ret n;
  ko_deallocuvm := fun _ _ n => ret n;
  ko_filedup := fun f => ret f;
  ko_fileclose := fun _ => ret tt;
  ko_idup := fun i => ret i;
  ko_iput := fun _ => ret tt;
  ko_begin_op := ret tt;
  ko_end_op := ret tt;
  ko_namei := fun _ => ret 1;
}.

Definition demo0 : kernel Z := Kernel ptable0 (Mmu 0 0) true 0.

Definition run {A} (d : A) (r : res A) : A := match r with Ok a => a | _ => d end.

(** After boot; and with init, slot 2, running. *)
Definition demo1 : kernel Z := (run (tt, demo0) (boot_procs 1 2 demo0)).2.
Definition demo2 : kernel Z :=
  Kernel (scheduler_visit (SchedCpu 2 0 None) (k_tab demo1)).2 (k_mmu demo1) true (k_rest demo1).

Lemma demo1_boot : boot_procs 1 2 demo0 = Ok (tt, demo1).
Proof. vm_compute. reflexivity. Qed.
Lemma demo_step : pstep (k_tab demo1) (k_tab demo2).
Proof. apply (step_visit _ (SchedCpu 2 0 None)). Qed.
Lemma demo2_inv : proc_inv (k_tab demo2).
Proof.
  apply (pstep_inv (k_tab demo1)); [|apply demo_step].
  by apply (boot_procs_inv 1 2 demo0 demo1); [|apply demo1_boot].
Qed.


Definition demo3 : kernel Z := (run (0, demo2) (fork 2 demo2)).2.
Lemma demo3_fork : fork 2 demo2 = Ok (4, demo3).
Proof. vm_compute. reflexivity. Qed.
Lemma demo2_running : p_state (slots (k_tab demo2) 2) = RUNNING.
Proof. vm_compute. reflexivity. Qed.

Lemma fork_correct_witness :
  (4 = -1 /\ forall j, p_state (slots (k_tab demo2) j) = p_state (slots (k_tab demo3) j) /\
     (p_state (slots (k_tab demo2) j) <> UNUSED -> slots (k_tab demo3) j = slots (k_tab demo2) j)) \/
  exists i, p_state (slots (k_tab demo2) i) = UNUSED /\ 4 = nextpid (k_tab demo2).
Proof.
  destruct (fork_correct 2 demo2 demo3 4 demo2_inv demo2_running demo3_fork) as [Hl|(i & H1 & H2 & _)];
    [left; exact Hl|right; exists i; split; [exact H1|exact H2]].
Defined.

Lemma demo_call : run_pcall 2 CFork demo2 = Ok (tt, demo3).
Proof. vm_compute. reflexivity. Qed.
Lemma proc_calls_refine_witness :
  rtc pstep (k_tab demo2) (k_tab demo3) /\ proc_inv (k_tab demo3).
Proof.
  refine (proc_calls_refine 2 CFork demo2 demo3 demo2_inv demo2_running _ _ demo_call).
  - vm_compute; reflexivity.
  - split; vm_compute; reflexivity.
Defined.

Definition demo4 : kernel Z := (run (WaitSleeps, demo3) (wait 2 demo3)).2.
Lemma demo4_wait : wait 2 demo3 = Ok (WaitSleeps, demo4).
Proof. vm_compute. reflexivity. Qed.

Lemma demo3_inv : proc_inv (k_tab demo3).
Proof.
  refine (rtc_invariant _ proc_inv _ _ demo2_inv pstep_inv _).
  eapply (fork_refines 2); [apply demo2_inv|apply demo2_running|..|apply demo3_fork];
    [|split]; vm_compute; reflexivity.
Qed.

Lemma wait_correct_witness : in_wait (k_tab demo4) 2.
Proof. exact (proj2 (proj2 (wait_correct 2 demo3 demo4 WaitSleeps demo3_inv demo4_wait))). Defined.

Lemma scheduler_fair_witness :
  exists k, (k <= NPROC)%nat /\
    event (sched_trace (fun _ => k_tab demo1) (SchedCpu 40 7 None) k) (k_tab demo1) = Run 1.
Proof.
  apply (scheduler_fair (fun _ => k_tab demo1) (SchedCpu 40 7 None) 1).
  - apply Nat.leb_le; vm_compute; reflexivity.
  - apply Nat.ltb_lt; vm_compute; reflexivity.
  - intros _. vm_compute. reflexivity.
Defined.

(** [kill] does not look at the state of the slot, and a new process does
    not get its [killed] flag reset: [kill(0)] succeeds on a free slot, and the
    process that [fork] then puts into it is born killed. *)
Theorem kill_zero_hits_next_fork :
  exists t s', kill 0 (k_tab demo2) = (0, t) /\
    fork 2 (Kernel t (k_mmu demo2) true (k_rest demo2)) = Ok (4, s') /\
    p_pid (slots (k_tab s') 3) = 4 /\ p_state (slots (k_tab s') 3) = RUNNABLE /\
    p_killed (slots (k_tab s') 3) = true.
Proof. do 2 eexists. split; [vm_compute; reflexivity|]. split; [vm_compute; reflexivity|]. vm_compute. auto. Qed.
