(* ===== verification/Procmem.v ===== *)
(** * The memory of all processes: proc.c over the allocator and the page tables

    [Proc] proves the calls of proc.c over any implementation of the services they use.  Here the services of memory
    are those of [Kalloc] and [Vm], so that the calls act on the bytes of physical memory, and the file shows that
    every page of memory has at most one use, in every history of calls of all processes, that a call of
    one process leaves the memory of every other as it was, and that [fork] makes a copy.  The
    operations on files, which free the pages of pipes, are a parameter. *)
From S2P Require Import Prelude Memory Kalloc Vm Uvm Space Proc.

(** ** The services *)

(** The operations on files and inodes that proc.c calls, on memory and their own state. *)
Class FileOps (F : Type) : Type := {
  fo_filedup : Z -> M (kmem * F) Z;
  fo_fileclose : Z -> M (kmem * F) unit;
  fo_idup : Z -> M (kmem * F) Z;
  fo_iput : Z -> M (kmem * F) unit;
  fo_begin_op : M (kmem * F) unit;
  fo_end_op : M (kmem * F) unit;
  fo_namei : list Z -> M (kmem * F) Z;
}.

Definition on_kmem {F A} (c : M kmem A) : M (kmem * F) A := fun s =>
  match c s.1 with
  | Ok (a, k) => Ok (a, (k, s.2))
  | Panic msg => Panic msg
  | Block => Block
  | Fuel => Fuel
  end.

(** [kend] is the end of the kernel, [kpdpt] its page table and [initcode] the program of the first process. *)
Definition vm_ops (kend kpdpt : Z) (initcode : list Z) {F} `{FileOps F} : KernelOps (kmem * F) := {|
  ko_kalloc := on_kmem kalloc;
  ko_kfree p := on_kmem (kfree kend p);
  ko_setupkvm := on_kmem (setupkvm kpdpt);
  ko_inituvm pgdir := on_kmem (inituvm pgdir initcode);
  ko_copyuvm pgdir sz := on_kmem (copyuvm kend kpdpt pgdir sz);
  ko_freevm pgdir := on_kmem (freevm kend pgdir);
  ko_allocuvm pgdir oldsz newsz := on_kmem (allocuvm kend pgdir oldsz newsz);
  ko_deallocuvm pgdir oldsz newsz := on_kmem (deallocuvm kend pgdir oldsz newsz);
  ko_filedup := fo_filedup;
  ko_fileclose := fo_fileclose;
  ko_idup := fo_idup;
  ko_iput := fo_iput;
  ko_begin_op := fo_begin_op;
  ko_end_op := fo_end_op;
  ko_namei := fo_namei;
|}.

(** ** Who uses which page *)

(** A page belongs to the address space of a slot, tables included, is the kernel stack of a slot, or
    holds a pipe. *)
Inductive tag : Type := TSpace (i : nat) | TStack (i : nat) | TFile.

(** What memory knows of a slot. *)
Record slotview : Type := View { v_proc : bool; v_root : Z; v_stack : Z; v_size : Z }.
Definition in_use (p : proc) : bool := negb (is_state UNUSED p || is_state EMBRYO p).
Definition view (p : proc) : option slotview :=
  if in_use p then Some (View (p_is_process p) (p_pgdir p) (p_kstack p) (p_sz p)) else None.

Section Memory.
Variable kend : Z.
Hypothesis Hend : KERNBASE < kend.

(** The image of a process: every page from the second one up to its size, and nothing above. *)
Record image_ok (root sz : Z) (m : mem) : Prop := {
  im_size : 0 <= sz <= 140737488355328 - 4096;
  im_mapped : forall va, PGSIZE <= va < sz -> uspace root m va <> None;
  im_above : forall va, user_va va -> PGROUNDUP sz <= va / 4096 * 4096 -> uspace root m va = None;
}.

(** [l] are the free pages, [owns i] the pages of the address space of slot [i], [fp] those of pipes. *)
Record mem_inv (v : nat -> option slotview) (k : kmem) (fp : gset Z) (l : list Z)
    (owns : nat -> gmap Z (nat * Z)) (use : Z -> option tag) : Prop := {
  mi_kalloc : kalloc_inv kend k l;
  mi_free : forall c, c ∈ l -> use c = None;
  mi_ok : forall c x, use c = Some x -> page_ok kend c;
  mi_space : forall i w, v i = Some w -> v_proc w = true -> pt_inv kend (v_root w) k l (owns i);
  mi_image : forall i w, v i = Some w -> v_proc w = true -> image_ok (v_root w) (v_size w) (km_mem k);
  mi_tag : forall i c, use c = Some (TSpace i) <-> exists w, v i = Some w /\ v_proc w = true /\ c ∈ dom (owns i);
  mi_stack : forall i c, use c = Some (TStack i) <-> exists w, v i = Some w /\ c = v_stack w;
  mi_files : forall c, use c = Some TFile <-> c ∈ fp;
}.

(** What the process in slot [i] sees of its memory is the same in [k] and [k']. *)
Definition same_image (w : slotview) (k k' : kmem) : Prop :=
  forall va, user_va va -> uspace (v_root w) (km_mem k') va = uspace (v_root w) (km_mem k) va.

Section Frame.
Context (v : nat -> option slotview) (k : kmem) (fp : gset Z) (l : list Z) (owns : nat -> gmap Z (nat * Z)) (use : Z -> option tag).
Hypothesis I : mem_inv v k fp l owns use.

Lemma free_page_ok c : c ∈ l -> page_ok kend c.
Proof. intros Hc. pose proof (ki_pages _ _ _ (mi_kalloc _ _ _ _ _ _ I)) as Hf. by eapply Forall_forall in Hf. Qed.

(** Work that writes only free pages and the pages [Q] leaves an address space without pages in [Q] alone. *)
Lemma frame_space Q k' l' i w :
  kalloc_inv kend k' l' -> list_to_set l' ⊆ list_to_set l ∪ Q -> keeps (list_to_set l ∪ Q) (km_mem k) (km_mem k') ->
  (forall c, c ∈ Q -> page_ok kend c) -> v i = Some w -> v_proc w = true -> dom (owns i) ## Q ->
  pt_inv kend (v_root w) k' l' (owns i) /\ same_image w k k'.
Proof.
  intros Ik Hl Hk HQ Hi Hp Hd. pose proof (mi_space _ _ _ _ _ _ I i w Hi Hp) as Is.
  destruct (other_space kend (v_root w) k l (owns i) (list_to_set l ∪ Q) k' l') as (H1 & _ & H2); try done.
  - intros c Hc [Hu|Hu]%elem_of_union; [|by apply (Hd c)]. apply elem_of_list_to_set in Hu.
    apply elem_of_dom in Hc as [[lv p] Hc]. by destruct (pi_page _ _ _ _ _ Is _ _ _ Hc) as (_ & ? & _).
  - intros c [Hu|Hu]%elem_of_union; [|by apply HQ]. apply elem_of_list_to_set in Hu. by apply free_page_ok.
Qed.

(** Work on free pages alone. *)
Lemma frame_free k' l' i w :
  kalloc_inv kend k' l' -> (forall c, c ∈ l' -> c ∈ l) -> keeps (list_to_set l) (km_mem k) (km_mem k') ->
  v i = Some w -> v_proc w = true -> pt_inv kend (v_root w) k' l' (owns i) /\ same_image w k k'.
Proof.
  intros Ik Hl Hk Hi Hp. apply (frame_space ∅ k' l' i w); try done.
  - clear -Hl. set_solver.
  - eapply keeps_mono; [|exact Hk]. clear. set_solver.
Qed.

(** The same for an image. *)
Lemma same_image_ok w k' : image_ok (v_root w) (v_size w) (km_mem k) -> same_image w k k' -> image_ok (v_root w) (v_size w) (km_mem k').
Proof.
  intros [H1 H2 H3] Hs. split; [done| |].
  - intros va Hva. rewrite Hs; [by apply H2|]. unfold user_va, PGSIZE in *. lia.
  - intros va Hu Hva. rewrite Hs by done. by apply H3.
Qed.
End Frame.
End Memory.

Section MemoryProofs.
Variable kend : Z.
Hypothesis Hend : KERNBASE < kend.

(** A process has no more pages than there is memory, so its size fits an unsigned int. *)
Lemma image_small root sz k l own : pt_inv kend root k l own -> image_ok root sz (km_mem k) -> 0 <= sz < 4294967296.
Proof.
  intros I [H1 H2 _]. split; [lia|]. destruct (decide (sz < 4294967296)) as [|Hbig]; [done|]. exfalso.
  assert (Hn : exists n60 n57 : nat, Z.of_nat n60 = 60000 /\ Z.of_nat n57 = 57344) by (exists (Z.to_nat 60000), (Z.to_nat 57344); split; apply Z2Nat.id; lia).
  destruct Hn as (n60 & n57 & Hn60 & Hn57).
  set (fr := fun i : nat => frame root (km_mem k) (4096 * (1 + Z.of_nat i))).
  assert (Hfr : forall i, (i < n60)%nat -> own !! fr i = Some (0%nat, 1 + Z.of_nat i)).
  { intros i Hi. unfold fr. replace (1 + Z.of_nat i) with (4096 * (1 + Z.of_nat i) / 4096) at 2 by (rewrite Z.mul_comm; by apply Z.div_mul).
    apply (frame_own kend root k l own); [done|unfold user_va; lia|].
    apply not_false_iff_true. rewrite <-uspace_None. apply H2. unfold PGSIZE. lia. }
  assert (Hnd : NoDup (fr <$> seq 0 n60)).
  { apply NoDup_alt. intros i j x. rewrite !list_lookup_fmap. intros Hi Hj.
    apply fmap_Some in Hi as (a & Ha & ->). apply fmap_Some in Hj as (b & Hb & Hab).
    apply lookup_seq in Ha as [-> Ha]. apply lookup_seq in Hb as [-> Hb]. simpl in *.
    pose proof (Hfr i Ha) as E1. pose proof (Hfr j Hb) as E2. rewrite Hab, E2 in E1. injection E1. lia. }
  set (room := (fun i : nat => KERNBASE + 4096 * Z.of_nat i) <$> seq 0 n57).
  assert (Hin : fr <$> seq 0 n60 ⊆ room).
  { intros x Hx. apply list_elem_of_fmap in Hx as (i & -> & Hi). apply elem_of_seq in Hi.
    destruct (pi_page _ _ _ _ _ I _ _ _ (Hfr i ltac:(lia))) as ((Hm & _ & Hr) & _).
    unfold room. apply list_elem_of_fmap. exists (Z.to_nat ((fr i - KERNBASE) / 4096)).
    unfold PGSIZE, KERNBASE, PHYSTOP in *. split; [|apply elem_of_seq]; Z.to_euclidean_division_equations; lia. }
  assert (Hlen : (length (fr <$> seq 0 n60) <= length room)%nat).
  { apply NoDup_incl_length; [by apply NoDup_ListNoDup|]. intros x Hx. apply list_elem_of_In. apply Hin. by apply list_elem_of_In. }
  unfold room in Hlen. rewrite !length_fmap, !length_seq in Hlen. lia.
Qed.

(** The pages of one slot. *)
Definition use_set (x : tag) (P : gset Z) (use : Z -> option tag) : Z -> option tag := fun c => if decide (c ∈ P) then Some x else use c.
Definition use_clear (P : gset Z) (use : Z -> option tag) : Z -> option tag := fun c => if decide (c ∈ P) then None else use c.

(** The page of a stack is taken from the free list. *)
Lemma take_page v k fp c l owns use : mem_inv kend v k fp (c :: l) owns use ->
  exists k1, kalloc k = Ok (c, k1) /\ mem_inv kend v k1 fp l owns use /\ km_mem k1 = km_mem k /\ page_ok kend c /\ c ∉ l /\ c <> 0.
Proof.
  intros I. destruct (kalloc_cons _ _ _ _ (mi_kalloc _ _ _ _ _ _ _ I)) as (k1 & E & Ik & M & _).
  pose proof (ki_nodup _ _ _ (mi_kalloc _ _ _ _ _ _ _ I)) as [Hn _]%NoDup_cons.
  pose proof (free_page_ok kend _ _ _ _ _ _ I c ltac:(left)) as Hc. exists k1. split; [done|]. split; [|split; [done|split; [done|split; [done|by eapply page_ok_nonzero]]]].
  destruct I as [I1 I2 I3 I4 I5 I6 I7 I8]. split; try done.
  - intros x Hx. apply I2. by right.
  - intros i w Hi Hp. destruct (frame_free kend v k fp (c :: l) owns use ltac:(by split) k1 l i w) as [Hpt _]; try done.
    + intros x Hx. by right.
    + rewrite M. apply keeps_refl.
  - intros i w Hi Hp. rewrite M. by apply (I5 i w).
Qed.

(** A free page has no use; a page of a new address space was free. *)
Lemma use_new v k fp l owns use x (P : gset Z) c :
  mem_inv kend v k fp l owns use -> (forall c, c ∈ P -> c ∈ l) -> use c = Some x -> c ∉ P.
Proof. intros I HP Hu Hc. apply HP in Hc. rewrite (mi_free _ _ _ _ _ _ _ I c Hc) in Hu. done. Qed.

(** A new slot with a stack [c] and an address space of pages that were free. *)
Lemma add_slot v k fp l owns use k' l' own np d c sz :
  mem_inv kend v k fp l owns use -> v np = None -> use c = None -> c ∉ l -> page_ok kend c ->
  pt_inv kend d k' l' own -> image_ok d sz (km_mem k') -> pages_of l' own = list_to_set l -> keeps (list_to_set l) (km_mem k) (km_mem k') ->
  mem_inv kend (<[np := Some (View true d c sz)]> v) k' fp l' (<[np := own]> owns) (use_set (TStack np) {[c]} (use_set (TSpace np) (dom own) use)).
Proof.
  intros I Hv Hu Hcl Hcok Ip Him Hpg Hk.
  assert (Hl' : forall x, x ∈ l' -> x ∈ l) by (intros x Hx; apply (elem_of_list_to_set (C := gset Z)); rewrite <-Hpg; by apply in_pages_l).
  assert (Hown : forall x, x ∈ dom own -> x ∈ l).
  { intros x Hx. apply (elem_of_list_to_set (C := gset Z)). rewrite <-Hpg. apply elem_of_dom in Hx as [y Hx]. by eapply in_pages_own. }
  assert (Hno : forall x, use x <> Some (TSpace np) /\ use x <> Some (TStack np)).
  { intros x. split; intros Hx; [apply (mi_tag _ _ _ _ _ _ _ I) in Hx as (w & Hw & _)|apply (mi_stack _ _ _ _ _ _ _ I) in Hx as (w & Hw & _)]; congruence. }
  assert (Hold : forall x y, use x = Some y -> x <> c /\ x ∉ dom own).
  { intros x y Hx. split; [congruence|]. eapply use_new; [exact I|exact Hown|exact Hx]. }
  assert (Huse : forall x y, use_set (TStack np) {[c]} (use_set (TSpace np) (dom own) use) x = Some y <->
    (x = c /\ y = TStack np) \/ (x ∈ dom own /\ y = TSpace np) \/ use x = Some y).
  { intros x y. unfold use_set. destruct (decide (x ∈ ({[c]} : gset Z))) as [Hx|Hx]; [apply elem_of_singleton in Hx as ->|rewrite elem_of_singleton in Hx; destruct (decide (x ∈ dom own)) as [Ho|Ho]].
    - split; [intros [= <-]; by left|]. intros [[_ ->]|[[Ho _]|Hx]]; [done|by apply Hown in Ho|congruence].
    - split; [intros [= <-]; right; by left|]. intros [[? _]|[[_ ->]|Hx']]; [done|done|]. by destruct (Hold x y Hx').
    - split; [by right; right|]. intros [[? _]|[[? _]|?]]; done. }
  split.
  - apply Ip.
  - intros x Hx. destruct (use_set _ _ _ x) as [y|] eqn:E; [|done]. apply Huse in E as [[-> _]|[[Ho _]|E]].
    + by apply Hl' in Hx.
    + apply elem_of_dom in Ho as [[lv p] Ho]. by destruct (pi_page _ _ _ _ _ Ip _ _ _ Ho) as (_ & ? & _).
    + rewrite (mi_free _ _ _ _ _ _ _ I x (Hl' x Hx)) in E. done.
  - intros x y E. apply Huse in E as [[-> _]|[[Ho _]|E]]; [done| |by eapply mi_ok].
    eapply free_page_ok; [exact I|by apply Hown].
  - intros i w. destruct (decide (i = np)) as [->|Hi]; [rewrite !fn_lookup_insert; intros [= <-] _; done|rewrite !fn_lookup_insert_ne by done].
    intros Hw Hp. apply (frame_free kend v k fp l owns use I k' l' i w); try done. apply Ip.
  - intros i w. destruct (decide (i = np)) as [->|Hi]; [rewrite !fn_lookup_insert; intros [= <-] _; done|rewrite !fn_lookup_insert_ne by done].
    intros Hw Hp. eapply same_image_ok; [by apply (mi_image _ _ _ _ _ _ _ I i w)|].
    apply (frame_free kend v k fp l owns use I k' l' i w); try done. apply Ip.
  - intros i x. rewrite Huse. destruct (decide (i = np)) as [->|Hi]; [rewrite !fn_lookup_insert|rewrite !fn_lookup_insert_ne by done].
    + split.
      * intros [[_ ?]|[[Ho _]|Hx]]; [done|by eexists|by destruct (Hno x)].
      * intros (w & [= <-] & _ & Ho). right. by left.
    + rewrite <-(mi_tag _ _ _ _ _ _ _ I). split; [|by right; right]. intros [[_ ?]|[[_ [= ?]]|?]]; done.
  - intros i x. rewrite Huse. destruct (decide (i = np)) as [->|Hi]; [rewrite !fn_lookup_insert|rewrite !fn_lookup_insert_ne by done].
    + split.
      * intros [[-> _]|[[_ ?]|Hx]]; [by eexists|done|by destruct (Hno x)].
      * intros (w & [= <-] & ->). by left.
    + rewrite <-(mi_stack _ _ _ _ _ _ _ I). split; [|by right; right]. intros [[_ [= ?]]|[[_ ?]|?]]; done.
  - intros x. rewrite Huse, <-(mi_files _ _ _ _ _ _ _ I). split; [|by right; right]. intros [[_ ?]|[[_ ?]|?]]; done.
Qed.
End MemoryProofs.

Section SlotProofs.
Variable kend : Z.
Hypothesis Hend : KERNBASE < kend.

Lemma use_set_spec x P use c y : use_set x P use c = Some y <-> (c ∈ P /\ y = x) \/ (c ∉ P /\ use c = Some y).
Proof. unfold use_set. case_decide; split; [intros [= <-]; by left|intros [[_ ->]|[? _]]; done|by right|intros [[? _]|[_ ?]]; done]. Qed.
Lemma use_clear_spec P use c y : use_clear P use c = Some y <-> c ∉ P /\ use c = Some y.
Proof. unfold use_clear. case_decide; split; [done|by intros [? _]|done|by intros [_ ?]]. Qed.

(** The pages of a slot. *)
Definition slot_pages (w : slotview) (own : gmap Z (nat * Z)) : gset Z := {[v_stack w]} ∪ (if v_proc w then dom own else ∅).
Lemma slot_pages_use v k fp l owns use i w c : mem_inv kend v k fp l owns use -> v i = Some w ->
  c ∈ slot_pages w (owns i) <-> use c = Some (TStack i) \/ use c = Some (TSpace i).
Proof.
  intros I Hw. unfold slot_pages. rewrite elem_of_union, elem_of_singleton, (mi_stack _ _ _ _ _ _ _ I), (mi_tag _ _ _ _ _ _ _ I). split.
  - intros [->|Hc]; [left; by exists w|]. right. exists w. destruct (v_proc w); [done|by apply not_elem_of_empty in Hc].
  - intros [(w' & Hw' & ->)|(w' & Hw' & Hp & Hc)]; rewrite Hw in Hw'; injection Hw' as <-; [by left|]. right. by rewrite Hp.
Qed.

(** A slot gives all its pages back. *)
Lemma remove_slot v k fp l owns use i w k' l' :
  mem_inv kend v k fp l owns use -> v i = Some w -> kalloc_inv kend k' l' ->
  list_to_set l' = list_to_set l ∪ slot_pages w (owns i) -> keeps (list_to_set l ∪ slot_pages w (owns i)) (km_mem k) (km_mem k') ->
  mem_inv kend (<[i := None]> v) k' fp l' owns (use_clear (slot_pages w (owns i)) use) /\
  forall j w', j <> i -> v j = Some w' -> v_proc w' = true -> same_image w' k k'.
Proof.
  intros I Hw Ik Hl Hk. pose proof (slot_pages_use v k fp l owns use i w) as HP.
  set (P := slot_pages w (owns i)) in *.
  assert (Hother : forall j w', j <> i -> v j = Some w' -> v_proc w' = true -> pt_inv kend (v_root w') k' l' (owns j) /\ same_image w' k k').
  { intros j w' Hj Hv Hp. apply (frame_space kend v k fp l owns use I P k' l' j w'); try done.
    - rewrite Hl. clear. set_solver.
    - intros c Hc. apply HP in Hc as [Hc|Hc]; [by eapply mi_ok|by eapply mi_ok|done|done].
    - intros c Hc Hc'. apply HP in Hc'; [|done|done]. assert (Hu : use c = Some (TSpace j)) by (apply (mi_tag _ _ _ _ _ _ _ I); by exists w').
      destruct Hc'; congruence. }
  split; [|intros j w' Hj Hv Hp; by apply (Hother j w')]. split.
  - done.
  - intros c Hc. unfold use_clear. case_decide as HcP; [done|]. apply (mi_free _ _ _ _ _ _ _ I).
    apply (elem_of_list_to_set (C := gset Z)) in Hc. rewrite Hl in Hc. apply elem_of_union in Hc as [Hc|Hc]; [by apply elem_of_list_to_set in Hc|done].
  - intros c x Hc. apply use_clear_spec in Hc as [_ Hc]. by eapply mi_ok.
  - intros j w'. destruct (decide (j = i)) as [->|Hj]; [by rewrite fn_lookup_insert|]. rewrite fn_lookup_insert_ne by done. intros Hv Hp. by apply (Hother j w').
  - intros j w'. destruct (decide (j = i)) as [->|Hj]; [by rewrite fn_lookup_insert|]. rewrite fn_lookup_insert_ne by done. intros Hv Hp.
    eapply same_image_ok; [by apply (mi_image _ _ _ _ _ _ _ I j w')|]. by apply (Hother j w').
  - intros j c. rewrite use_clear_spec. destruct (decide (j = i)) as [->|Hj]; [rewrite fn_lookup_insert|rewrite fn_lookup_insert_ne by done].
    + split; [intros [Hn Hc]; destruct Hn; apply HP; auto|by intros (? & ? & _)].
    + rewrite <-(mi_tag _ _ _ _ _ _ _ I). split; [by intros [_ ?]|]. intros Hc. split; [|done]. intros Hn. apply HP in Hn as [Hn|Hn]; congruence.
  - intros j c. rewrite use_clear_spec. destruct (decide (j = i)) as [->|Hj]; [rewrite fn_lookup_insert|rewrite fn_lookup_insert_ne by done].
    + split; [intros [Hn Hc]; destruct Hn; apply HP; auto|by intros (? & ? & _)].
    + rewrite <-(mi_stack _ _ _ _ _ _ _ I). split; [by intros [_ ?]|]. intros Hc. split; [|done]. intros Hn. apply HP in Hn as [Hn|Hn]; congruence.
  - intros c. rewrite use_clear_spec, <-(mi_files _ _ _ _ _ _ _ I). split; [by intros [_ ?]|]. intros Hc. split; [|done].
    intros Hn. apply HP in Hn as [Hn|Hn]; congruence.
Qed.

(** The address space of a slot grows or shrinks. *)
Lemma resize_slot v k fp l owns use i w k' l' own sz :
  mem_inv kend v k fp l owns use -> v i = Some w -> v_proc w = true ->
  pt_inv kend (v_root w) k' l' own -> image_ok (v_root w) sz (km_mem k') ->
  pages_of l' own = pages_of l (owns i) -> keeps (pages_of l (owns i)) (km_mem k) (km_mem k') ->
  mem_inv kend (<[i := Some (View true (v_root w) (v_stack w) sz)]> v) k' fp l' (<[i := own]> owns)
    (use_set (TSpace i) (dom own) (use_clear (dom (owns i)) use)) /\
  forall j w', j <> i -> v j = Some w' -> v_proc w' = true -> same_image w' k k'.
Proof.
  intros I Hw Hp Ip Him Hpg Hk.
  assert (Htag : forall c, c ∈ dom (owns i) -> use c = Some (TSpace i)) by (intros c Hc; apply (mi_tag _ _ _ _ _ _ _ I); by exists w).
  assert (Hl' : forall c, c ∈ l' -> c ∈ l \/ c ∈ dom (owns i)).
  { intros c Hc. assert (H : c ∈ pages_of l (owns i)) by (rewrite <-Hpg; by apply in_pages_l).
    unfold pages_of in H. apply elem_of_union in H as [H|H]; [left; by apply elem_of_list_to_set in H|by right]. }
  assert (Hown : forall c, c ∈ dom own -> c ∈ l \/ c ∈ dom (owns i)).
  { intros c Hc. assert (H : c ∈ pages_of l (owns i)) by (rewrite <-Hpg; apply elem_of_dom in Hc as [? Hc]; by eapply in_pages_own).
    unfold pages_of in H. apply elem_of_union in H as [H|H]; [left; by apply elem_of_list_to_set in H|by right]. }
  assert (Hkeep : forall c x, use c = Some x -> x <> TSpace i -> c ∉ dom own /\ c ∉ dom (owns i)).
  { intros c x Hc Hx. split; intros Hd; [apply Hown in Hd as [Hd|Hd]|]; [|apply Htag in Hd; congruence..].
    rewrite (mi_free _ _ _ _ _ _ _ I c Hd) in Hc. done. }
  assert (Huse : forall c x, x <> TSpace i -> use_set (TSpace i) (dom own) (use_clear (dom (owns i)) use) c = Some x <-> use c = Some x).
  { intros c x Hx. rewrite use_set_spec, use_clear_spec. split; [intros [[_ ?]|(_ & _ & ?)]; done|]. intros Hc. right. by destruct (Hkeep c x Hc Hx). }
  assert (Hother : forall j w', j <> i -> v j = Some w' -> v_proc w' = true -> pt_inv kend (v_root w') k' l' (owns j) /\ same_image w' k k').
  { intros j w' Hj Hv Hp'. apply (frame_space kend v k fp l owns use I (dom (owns i)) k' l' j w'); try done.
    - apply Ip.
    - intros c Hc. apply elem_of_list_to_set in Hc. apply Hl' in Hc as [Hc|Hc]; apply elem_of_union; [left; by apply elem_of_list_to_set|by right].
    - intros c Hc. eapply mi_ok; [exact I|by apply Htag].
    - intros c Hc Hc'. apply Htag in Hc'. assert (Hu : use c = Some (TSpace j)) by (apply (mi_tag _ _ _ _ _ _ _ I); by exists w'). congruence. }
  split; [|intros j w' Hj Hv Hp'; by apply (Hother j w')]. split.
  - apply Ip.
  - intros c Hc. destruct (use_set _ _ _ c) as [x|] eqn:E; [|done]. apply use_set_spec in E as [[Hd _]|[_ E]].
    + apply elem_of_dom in Hd as [[lv p] Hd]. by destruct (pi_page _ _ _ _ _ Ip _ _ _ Hd) as (_ & ? & _).
    + apply use_clear_spec in E as [Hn E]. apply Hl' in Hc as [Hc|Hc]; [|done]. rewrite (mi_free _ _ _ _ _ _ _ I c Hc) in E. done.
  - intros c x E. apply use_set_spec in E as [[Hd _]|[_ E]].
    + apply elem_of_dom in Hd as [[lv p] Hd]. by destruct (pi_page _ _ _ _ _ Ip _ _ _ Hd) as (? & _).
    + apply use_clear_spec in E as [_ E]. by eapply mi_ok.
  - intros j w'. destruct (decide (j = i)) as [->|Hj]; [rewrite !fn_lookup_insert; intros [= <-] _; done|]. rewrite !fn_lookup_insert_ne by done. intros Hv Hp'. by apply (Hother j w').
  - intros j w'. destruct (decide (j = i)) as [->|Hj]; [rewrite !fn_lookup_insert; intros [= <-] _; done|]. rewrite !fn_lookup_insert_ne by done. intros Hv Hp'.
    eapply same_image_ok; [by apply (mi_image _ _ _ _ _ _ _ I j w')|]. by apply (Hother j w').
  - intros j c. destruct (decide (j = i)) as [->|Hj]; [rewrite !fn_lookup_insert|rewrite !fn_lookup_insert_ne, Huse by congruence; apply (mi_tag _ _ _ _ _ _ _ I)].
    rewrite use_set_spec, use_clear_spec. split.
    + intros [[Hc _]|(Hc & Hc' & Hu)]; [by eexists|]. apply (mi_tag _ _ _ _ _ _ _ I) in Hu as (? & _ & _ & ?). done.
    + intros (? & [= <-] & _ & Hc). by left.
  - intros j c. rewrite Huse, (mi_stack _ _ _ _ _ _ _ I) by done. destruct (decide (j = i)) as [->|Hj]; [rewrite !fn_lookup_insert|by rewrite !fn_lookup_insert_ne].
    split; [intros (w' & Hw' & ->); rewrite Hw in Hw'; injection Hw' as <-; by eexists|]. intros (? & [= <-] & ->). by exists w.
  - intros c. by rewrite Huse, (mi_files _ _ _ _ _ _ _ I).
Qed.
End SlotProofs.

Section OtherProofs.
Variable kend : Z.
Hypothesis Hend : KERNBASE < kend.

(** A kernel thread has a stack and no address space. *)
Lemma add_thread v k fp l owns use np c root sz :
  mem_inv kend v k fp l owns use -> v np = None -> use c = None -> c ∉ l -> page_ok kend c ->
  mem_inv kend (<[np := Some (View false root c sz)]> v) k fp l owns (use_set (TStack np) {[c]} use).
Proof.
  intros I Hv Hu Hcl Hok. assert (Huse : forall x y, use_set (TStack np) {[c]} use x = Some y <-> (x = c /\ y = TStack np) \/ use x = Some y).
  { intros x y. rewrite use_set_spec, elem_of_singleton. split; [intros [?|[_ ?]]; auto|]. intros [?|Hx]; [by left|]. right. split; [congruence|done]. }
  split; try by apply I.
  - intros x Hx. destruct (use_set _ _ _ x) as [y|] eqn:E; [|done]. apply Huse in E as [[-> _]|E]; [done|]. by rewrite (mi_free _ _ _ _ _ _ _ I x Hx) in E.
  - intros x y E. apply Huse in E as [[-> _]|E]; [done|by eapply mi_ok].
  - intros i w. destruct (decide (i = np)) as [->|Hi]; [rewrite fn_lookup_insert; by intros [= <-]|rewrite fn_lookup_insert_ne by done; apply (mi_space _ _ _ _ _ _ _ I)].
  - intros i w. destruct (decide (i = np)) as [->|Hi]; [rewrite fn_lookup_insert; by intros [= <-]|rewrite fn_lookup_insert_ne by done; apply (mi_image _ _ _ _ _ _ _ I)].
  - intros i x. rewrite Huse. destruct (decide (i = np)) as [->|Hi]; [rewrite fn_lookup_insert|rewrite fn_lookup_insert_ne by done].
    + split; [|by intros (? & [= <-] & ? & _)]. intros [[_ ?]|Hx]; [done|]. apply (mi_tag _ _ _ _ _ _ _ I) in Hx as (? & ? & _). congruence.
    + rewrite <-(mi_tag _ _ _ _ _ _ _ I). split; [intros [[_ ?]|?]; done|by right].
  - intros i x. rewrite Huse. destruct (decide (i = np)) as [->|Hi]; [rewrite fn_lookup_insert|rewrite fn_lookup_insert_ne by done].
    + split; [|intros (? & [= <-] & ->); by left]. intros [[-> _]|Hx]; [by eexists|]. apply (mi_stack _ _ _ _ _ _ _ I) in Hx as (? & ? & _). congruence.
    + rewrite <-(mi_stack _ _ _ _ _ _ _ I). split; [intros [[_ [= ?]]|?]; done|by right].
  - intros x. rewrite Huse, <-(mi_files _ _ _ _ _ _ _ I). split; [intros [[_ ?]|?]; done|by right].
Qed.

(** The pages of pipes come from the free list and go back to it. *)
Lemma files_step v k fp l owns use k' fp' l' :
  mem_inv kend v k fp l owns use -> kalloc_inv kend k' l' ->
  (list_to_set l' : gset Z) ∪ fp' = list_to_set l ∪ fp -> fp' ## list_to_set l' -> keeps (list_to_set l ∪ fp) (km_mem k) (km_mem k') ->
  mem_inv kend v k' fp' l' owns (use_set TFile fp' (use_clear fp use)) /\
  forall j w, v j = Some w -> v_proc w = true -> same_image w k k'.
Proof.
  intros I Ik Hset Hdis Hk.
  assert (Hin : forall c, c ∈ l' \/ c ∈ fp' -> c ∈ l \/ c ∈ fp).
  { intros c Hc. assert (H : c ∈ (list_to_set l : gset Z) ∪ fp) by (rewrite <-Hset, elem_of_union, elem_of_list_to_set; done).
    by rewrite elem_of_union, elem_of_list_to_set in H. }
  assert (Huse : forall c x, x <> TFile -> use_set TFile fp' (use_clear fp use) c = Some x <-> use c = Some x).
  { intros c x Hx. rewrite use_set_spec, use_clear_spec. split; [intros [[_ ?]|(_ & _ & ?)]; done|]. intros Hc. right.
    assert (Hn : c ∉ fp) by (rewrite <-(mi_files _ _ _ _ _ _ _ I); congruence). split; [|done].
    intros Hp. destruct (Hin c (or_intror Hp)) as [Hl|Hl]; [|done]. rewrite (mi_free _ _ _ _ _ _ _ I c Hl) in Hc. done. }
  assert (Hall : forall j w, v j = Some w -> v_proc w = true -> pt_inv kend (v_root w) k' l' (owns j) /\ same_image w k k').
  { intros j w Hw Hp. apply (frame_space kend v k fp l owns use I fp k' l' j w); try done.
    - rewrite <-Hset. apply union_subseteq_l.
    - intros c Hc. apply (mi_files _ _ _ _ _ _ _ I) in Hc. by eapply mi_ok.
    - intros c Hc Hf. apply (mi_files _ _ _ _ _ _ _ I) in Hf.
      assert (Hu : use c = Some (TSpace j)) by (apply (mi_tag _ _ _ _ _ _ _ I); by exists w). congruence. }
  split; [|intros j w Hw Hp; by apply (Hall j w)]. split.
  - done.
  - intros c Hc. destruct (use_set _ _ _ c) as [x|] eqn:E; [|done]. apply use_set_spec in E as [[Hd _]|[_ E]].
    + destruct (Hdis c Hd). by apply elem_of_list_to_set.
    + apply use_clear_spec in E as [Hn E]. destruct (Hin c (or_introl Hc)) as [Hl|Hl]; [|done]. by rewrite (mi_free _ _ _ _ _ _ _ I c Hl) in E.
  - intros c x E. apply use_set_spec in E as [[Hd _]|[_ E]].
    + destruct (Hin c (or_intror Hd)) as [Hl|Hl]; [by eapply free_page_ok|]. apply (mi_files _ _ _ _ _ _ _ I) in Hl. by eapply mi_ok.
    + apply use_clear_spec in E as [_ E]. by eapply mi_ok.
  - intros j w Hw Hp. by apply (Hall j w).
  - intros j w Hw Hp. eapply same_image_ok; [by apply (mi_image _ _ _ _ _ _ _ I j w)|]. by apply (Hall j w).
  - intros j c. rewrite Huse by done. apply (mi_tag _ _ _ _ _ _ _ I).
  - intros j c. rewrite Huse by done. apply (mi_stack _ _ _ _ _ _ _ I).
  - intros c. rewrite use_set_spec, use_clear_spec. split; [intros [[? _]|(_ & Hn & Hu)]; [done|]|by left].
    by apply (mi_files _ _ _ _ _ _ _ I) in Hu.
Qed.
End OtherProofs.

(** ** The operations on memory *)

Section OpProofs.
Variables kend kpdpt : Z.
Hypothesis Hend : KERNBASE < kend.

Lemma setupkvm_nil k k' r : kalloc_inv kend k [] -> setupkvm kpdpt k <> Ok (r, k').
Proof. intros Ik. unfold setupkvm, bind. by rewrite (kalloc_nil kend k Ik). Qed.

(** Every page of the child's image is the parent's. *)
Lemma copied_image root d sz m m' :
  image_ok root sz m ->
  (forall va, user_va va -> uspace d m' va = if decide (page_in PGSIZE sz va) then uspace root m va else None) -> image_ok d sz m'.
Proof.
  intros [H1 H2 H3] Hc. split; [done| |].
  - intros va Hva. rewrite Hc by (unfold user_va, PGSIZE in *; lia). rewrite decide_True; [by apply H2|].
    unfold page_in, PGSIZE in *. Z.to_euclidean_division_equations; lia.
  - intros va Hu Hva. rewrite Hc by done. rewrite decide_False; [done|]. unfold page_in.
    destruct (PGROUNDUP_user sz) as [_ Hr]; [unfold user_va; lia|]. lia.
Qed.

(** [copyuvm] for a slot [np] that has its stack [c] already. *)
Lemma fork_copy v k fp l owns use me w np c r k' :
  mem_inv kend v k fp l owns use -> v me = Some w -> v_proc w = true -> v np = None ->
  use c = None -> c ∉ l -> page_ok kend c ->
  copyuvm kend kpdpt (v_root w) (u32 (v_size w)) k = Ok (r, k') ->
  (forall j w', v j = Some w' -> v_proc w' = true -> same_image w' k k') /\
  ((r = 0 /\ exists l', mem_inv kend v k' fp l' owns use /\ c ∉ l') \/
   (r <> 0 /\ (exists l' owns' use', mem_inv kend (<[np := Some (View true r c (v_size w))]> v) k' fp l' owns' use') /\
    forall va, user_va va -> uspace r (km_mem k') va = if decide (page_in PGSIZE (v_size w) va) then uspace (v_root w) (km_mem k) va else None)).
Proof.
  intros I Hw Hp Hnp Hu Hcl Hok E. pose proof (mi_space _ _ _ _ _ _ _ I me w Hw Hp) as Ip. pose proof (mi_image _ _ _ _ _ _ _ I me w Hw Hp) as Im.
  pose proof (image_small kend (v_root w) (v_size w) k l (owns me) Ip Im) as Hsz. rewrite u32_small in E by lia.
  destruct l as [|d l].
  { exfalso. unfold copyuvm, bind in E. destruct (setupkvm kpdpt k) as [[r0 k0]| | |] eqn:Es; try done. by apply (setupkvm_nil k k0 r0 (pi_kalloc _ _ _ _ _ Ip)) in Es. }
  destruct (copyuvm_spec kend kpdpt (v_root w) (v_size w) d k l (owns me) Hend Ip Hsz (im_mapped _ _ _ Im)) as (r1 & k1 & l1 & E1 & I1 & U1 & K1 & R1).
  rewrite E1 in E. injection E as -> ->.
  assert (Hall : forall l2, kalloc_inv kend k' l2 -> (forall x, x ∈ l2 -> x ∈ d :: l) -> forall j w', v j = Some w' -> v_proc w' = true ->
    pt_inv kend (v_root w') k' l2 (owns j) /\ same_image w' k k').
  { intros l2 Ik Hl2 j w' Hj Hp'. by apply (frame_free kend v k fp (d :: l) owns use I k' l2 j w'). }
  assert (Hsub : forall x, x ∈ l1 -> x ∈ d :: l).
  { destruct R1 as [(_ & o & _ & _ & Hpg & _)|(_ & [Hl|(y & _ & Hl)])]; intros x Hx; apply (elem_of_list_to_set (C := gset Z)).
    - rewrite <-Hpg. by apply in_pages_l.
    - rewrite <-Hl. by apply elem_of_list_to_set.
    - apply (elem_of_list_to_set (C := gset Z)) in Hx. rewrite Hl in Hx. by apply elem_of_difference in Hx as [? _]. }
  split; [intros j w' Hj Hp'; by apply (Hall l1 (pi_kalloc _ _ _ _ _ I1) Hsub j w')|].
  destruct R1 as [(-> & o & Io & _ & Hpg & Hc)|(-> & _)].
  - right. split; [eapply page_ok_nonzero; eapply free_page_ok; [exact I|left]|]. split; [|done].
    exists l1, (<[np := o]> owns), (use_set (TStack np) {[c]} (use_set (TSpace np) (dom o) use)). apply (add_slot kend v k fp (d :: l)); try done.
    by eapply copied_image.
  - left. split; [done|]. exists l1. split; [|intros H; by apply Hsub in H].
    destruct I as [J1 J2 J3 J4 J5 J6 J7 J8]. split; try done.
    + apply I1.
    + intros x Hx. apply J2. by apply Hsub.
    + intros j w' Hj Hp'. by apply (Hall l1 (pi_kalloc _ _ _ _ _ I1) Hsub j w').
    + intros j w' Hj Hp'. eapply same_image_ok; [by apply (J5 j w')|]. by apply (Hall l1 (pi_kalloc _ _ _ _ _ I1) Hsub j w').
Qed.

(** A page that nothing uses goes back to the free list. *)
Lemma give_page v k fp l owns use c : mem_inv kend v k fp l owns use -> use c = None -> c ∉ l -> page_ok kend c ->
  exists k', kfree kend c k = Ok (tt, k') /\ mem_inv kend v k' fp (c :: l) owns use /\
    forall j w, v j = Some w -> v_proc w = true -> same_image w k k'.
Proof.
  intros I Hu Hcl Hok. destruct (kfree_spec kend c k l) as (k' & E & Ik & Hk & _); [lia|apply I|done|done|]. exists k'. split; [done|].
  assert (Hall : forall j w, v j = Some w -> v_proc w = true -> pt_inv kend (v_root w) k' (c :: l) (owns j) /\ same_image w k k').
  { intros j w Hw Hp. apply (frame_space kend v k fp l owns use I {[c]} k' (c :: l) j w); try done.
    - clear. set_solver.
    - intros x Hx. apply Hk. apply Hx. clear. set_solver.
    - intros x Hx. by apply elem_of_singleton in Hx as ->.
    - intros x Hx Hx'. apply elem_of_singleton in Hx' as ->.
      assert (H : use c = Some (TSpace j)) by (apply (mi_tag _ _ _ _ _ _ _ I); by exists w). congruence. }
  split; [|intros j w Hw Hp; by apply (Hall j w)]. split; try by apply I.
  - done.
  - intros x [->|Hx]%elem_of_cons; [done|by eapply mi_free].
  - intros j w Hw Hp. by apply (Hall j w).
  - intros j w Hw Hp. eapply same_image_ok; [by apply (mi_image _ _ _ _ _ _ _ I j w)|]. by apply (Hall j w).
Qed.

Lemma stack_free v k fp l owns use i w : mem_inv kend v k fp l owns use -> v i = Some w -> page_ok kend (v_stack w) /\ v_stack w ∉ l.
Proof.
  intros I Hw. assert (Hu : use (v_stack w) = Some (TStack i)) by (apply (mi_stack _ _ _ _ _ _ _ I); by exists w).
  split; [by eapply mi_ok|]. intros Hl. rewrite (mi_free _ _ _ _ _ _ _ I _ Hl) in Hu. done.
Qed.

(** [wait]: the stack and the address space of a child. *)
Lemma wait_free v k fp l owns use i w : mem_inv kend v k fp l owns use -> v i = Some w -> v_proc w = true ->
  exists k1 k2 l' use', kfree kend (v_stack w) k = Ok (tt, k1) /\ freevm kend (v_root w) k1 = Ok (tt, k2) /\
    mem_inv kend (<[i := None]> v) k2 fp l' owns use' /\
    forall j w', j <> i -> v j = Some w' -> v_proc w' = true -> same_image w' k k2.
Proof.
  intros I Hw Hp. destruct (stack_free v k fp l owns use i w I Hw) as [Hok Hn].
  destruct (kfree_spec kend (v_stack w) k l) as (k1 & E1 & Ik1 & Hk1 & _); [lia|apply I|done|done|].
  assert (Hk : keeps ({[v_stack w]} : gset Z) (km_mem k) (km_mem k1)) by (intros x Hx; apply Hk1, Hx; clear; set_solver).
  assert (Hu : use (v_stack w) = Some (TStack i)) by (apply (mi_stack _ _ _ _ _ _ _ I); by exists w).
  destruct (frame_space kend v k fp l owns use I {[v_stack w]} k1 (v_stack w :: l) i w) as [Ip1 _]; try done.
  { clear. set_solver. } { eapply keeps_mono; [|exact Hk]. clear. set_solver. } { intros x Hx. by apply elem_of_singleton in Hx as ->. }
  { intros x Hx Hx'. apply elem_of_singleton in Hx' as ->. assert (H : use (v_stack w) = Some (TSpace i)) by (apply (mi_tag _ _ _ _ _ _ _ I); by exists w). congruence. }
  destruct (freevm_spec kend (v_root w) k1 (v_stack w :: l) (owns i)) as (k2 & l2 & E2 & Ik2 & Hl2 & Hk2); [lia|done|].
  destruct (remove_slot kend v k fp l owns use i w k2 l2) as [I2 S2]; try done.
  - rewrite Hl2. unfold pages_of, slot_pages. rewrite Hp. clear. set_solver.
  - unfold slot_pages. rewrite Hp. eapply keeps_trans; [eapply keeps_mono; [|exact Hk]|eapply keeps_mono; [|exact Hk2]]; clear; set_solver.
  - exists k1, k2, l2, (use_clear (slot_pages w (owns i)) use). done.
Qed.

(** The scheduler: the stack of a kernel thread. *)
Lemma thread_free v k fp l owns use i w : mem_inv kend v k fp l owns use -> v i = Some w -> v_proc w = false ->
  exists k1 l' use', kfree kend (v_stack w) k = Ok (tt, k1) /\ mem_inv kend (<[i := None]> v) k1 fp l' owns use' /\
    forall j w', j <> i -> v j = Some w' -> v_proc w' = true -> same_image w' k k1.
Proof.
  intros I Hw Hp. destruct (stack_free v k fp l owns use i w I Hw) as [Hok Hn].
  destruct (kfree_spec kend (v_stack w) k l) as (k1 & E1 & Ik1 & Hk1 & _); [lia|apply I|done|done|].
  assert (Hk : keeps ({[v_stack w]} : gset Z) (km_mem k) (km_mem k1)) by (intros x Hx; apply Hk1, Hx; clear; set_solver).
  destruct (remove_slot kend v k fp l owns use i w k1 (v_stack w :: l)) as [I2 S2]; try done.
  - unfold slot_pages. rewrite Hp. clear. set_solver.
  - unfold slot_pages. rewrite Hp. eapply keeps_mono; [|exact Hk]. clear. set_solver.
  - exists k1, (v_stack w :: l), (use_clear (slot_pages w (owns i)) use). done.
Qed.
End OpProofs.

Section GrowProofs.
Variable kend : Z.
Hypothesis Hend : KERNBASE < kend.

Lemma uspace_page root k l own va va' : pt_inv kend root k l own -> user_va va -> user_va va' -> va / 4096 = va' / 4096 ->
  uspace root (km_mem k) va <> None -> uspace root (km_mem k) va' <> None.
Proof.
  intros I Hv Hv' He Hn H. apply Hn. rewrite uspace_None in *. by rewrite <-(pteval_page kend root k l own va va').
Qed.

Lemma grown_image root sz newsz k l own k' :
  pt_inv kend root k l own -> image_ok root sz (km_mem k) -> sz <= newsz <= 140737488355328 - 4096 ->
  (forall va, user_va va -> uspace root (km_mem k') va =
     if decide (page_in (PGROUNDUP sz) newsz va) then Some (0, 7) else uspace root (km_mem k) va) ->
  image_ok root newsz (km_mem k').
Proof.
  intros I [H1 H2 H3] Hn Hu. destruct (PGROUNDUP_user sz) as [Hal Hr]; [unfold user_va; lia|]. destruct (PGROUNDUP_user newsz) as [Hal' Hr']; [unfold user_va; lia|].
  split; [lia| |].
  - intros va Hva. assert (Hv : user_va va) by (unfold user_va, PGSIZE in *; lia). rewrite Hu by done. case_decide as Hp; [done|].
    destruct (decide (va < sz)) as [Hlt|Hge]; [apply H2; lia|].
    apply (uspace_page root k l own (va / 4096 * 4096) va); [done|unfold user_va in *; Z.to_euclidean_division_equations; lia|done|by rewrite Z.div_mul|].
    apply H2. unfold page_in, PGSIZE in *. Z.to_euclidean_division_equations. lia.
  - intros va Hv Hva. rewrite Hu by done. rewrite decide_False by (unfold page_in; lia). apply H3; [done|]. 
    unfold page_in in *. Z.to_euclidean_division_equations. lia.
Qed.

Lemma shrunk_image root sz newsz k k' :
  image_ok root sz (km_mem k) -> 0 <= newsz <= sz ->
  (forall va, user_va va -> uspace root (km_mem k') va =
     if decide (page_in (PGROUNDUP newsz) sz va) then None else uspace root (km_mem k) va) ->
  image_ok root newsz (km_mem k').
Proof.
  intros [H1 H2 H3] Hn Hu. destruct (PGROUNDUP_user sz) as [Hal Hr]; [unfold user_va; lia|]. destruct (PGROUNDUP_user newsz) as [Hal' Hr']; [unfold user_va; lia|].
  split; [lia| |].
  - intros va Hva. assert (Hv : user_va va) by (unfold user_va, PGSIZE in *; lia). rewrite Hu by done. rewrite decide_False; [apply H2; lia|].
    unfold page_in. Z.to_euclidean_division_equations. lia.
  - intros va Hv Hva. rewrite Hu by done. case_decide as Hp; [done|]. apply H3; [done|]. unfold page_in in Hp. Z.to_euclidean_division_equations. lia.
Qed.

(** [allocuvm] and [deallocuvm] for a slot. *)
Lemma grow_slot v k fp l owns use i w newsz :
  mem_inv kend v k fp l owns use -> v i = Some w -> v_proc w = true -> v_size w <= newsz <= 140737488355328 - 4096 ->
  exists r k', allocuvm kend (v_root w) (v_size w) newsz k = Ok (r, k') /\
    (r = 0 \/ r = newsz) /\
    (exists l' owns' use', mem_inv kend (<[i := Some (View true (v_root w) (v_stack w) (if r =? 0 then v_size w else newsz))]> v) k' fp l' owns' use') /\
    (forall j w', j <> i -> v j = Some w' -> v_proc w' = true -> same_image w' k k') /\
    (forall va, user_va va -> va / 4096 * 4096 < PGROUNDUP (v_size w) -> uspace (v_root w) (km_mem k') va = uspace (v_root w) (km_mem k) va).
Proof.
  intros I Hw Hp Hn. pose proof (mi_space _ _ _ _ _ _ _ I i w Hw Hp) as Ip. pose proof (mi_image _ _ _ _ _ _ _ I i w Hw Hp) as Im.
  pose proof (im_size _ _ _ Im) as Hs.
  destruct (allocuvm_spec kend (v_root w) Hend k l (owns i) (v_size w) newsz Ip) as (r & k' & l' & o & E & I' & Hpg & R & K); [unfold user_va; lia|lia| |].
  { intros va Hv Hva. apply (im_above _ _ _ Im); [done|]. unfold page_in in Hva. lia. }
  assert (Him : image_ok (v_root w) (if r =? 0 then v_size w else newsz) (km_mem k') /\ (r = 0 \/ r = newsz) /\
    (forall va, user_va va -> va / 4096 * 4096 < PGROUNDUP (v_size w) -> uspace (v_root w) (km_mem k') va = uspace (v_root w) (km_mem k) va)).
  { destruct R as [[-> U]|[-> U]].
    - split; [|split; [by left|intros; by apply U]]. by apply (same_image_ok k w k').
    - split; [|split; [by right|intros va Hv Hva; rewrite U by done; rewrite decide_False; [done|unfold page_in; lia]]].
      destruct (Z.eqb_spec newsz 0) as [Hz|Hz]; [assert (v_size w = newsz) as -> by lia|]; by apply (grown_image (v_root w) (v_size w) newsz k l (owns i)). }
  destruct Him as (Him & Hr & Hsame).
  destruct (resize_slot kend v k fp l owns use i w k' l' o (if r =? 0 then v_size w else newsz)) as [I2 S2]; try done.
  exists r, k'. split; [done|]. split; [done|]. split; [by eexists _, _, _|]. done.
Qed.

Lemma shrink_slot v k fp l owns use i w newsz :
  mem_inv kend v k fp l owns use -> v i = Some w -> v_proc w = true -> 0 <= newsz <= v_size w ->
  exists k', deallocuvm kend (v_root w) (v_size w) newsz k = Ok (newsz, k') /\
    (exists l' owns' use', mem_inv kend (<[i := Some (View true (v_root w) (v_stack w) newsz)]> v) k' fp l' owns' use') /\
    (forall j w', j <> i -> v j = Some w' -> v_proc w' = true -> same_image w' k k') /\
    (forall va, user_va va -> va / 4096 * 4096 < newsz -> uspace (v_root w) (km_mem k') va = uspace (v_root w) (km_mem k) va).
Proof.
  intros I Hw Hp Hn. pose proof (mi_space _ _ _ _ _ _ _ I i w Hw Hp) as Ip. pose proof (mi_image _ _ _ _ _ _ _ I i w Hw Hp) as Im.
  pose proof (im_size _ _ _ Im) as Hs.
  destruct (deallocuvm_spec kend (v_root w) Hend k l (owns i) (v_size w) newsz Ip) as (k' & l' & o & E & I' & _ & Hpg & U & K); [unfold user_va; lia|lia|].
  destruct (resize_slot kend v k fp l owns use i w k' l' o newsz) as [I2 S2]; try done.
  { by apply (shrunk_image (v_root w) (v_size w) newsz k k'). }
  exists k'. split; [done|]. split; [by eexists _, _, _|]. split; [done|]. intros va Hv Hva. rewrite U by done. rewrite decide_False; [done|].
  destruct (PGROUNDUP_user newsz) as [_ Hr']; [unfold user_va; lia|]. unfold page_in. lia.
Qed.
End GrowProofs.

(** ** The calls *)

Section Calls.
Context {F : Type} {fo : FileOps F}.
Variables kend kpdpt : Z.
Variable initcode : list Z.
Hypothesis Hend : KERNBASE < kend.
#[local] Instance the_ops : KernelOps (kmem * F) := vm_ops kend kpdpt initcode.

(** The pages that the files use, which are those of pipes. *)
Variable fpages : F -> gset Z.

(** An operation on files touches only its own pages and free ones. *)
Definition files_keep {A} (c : M (kmem * F) A) : Prop := forall k f l a k' f',
  kalloc_inv kend k l -> fpages f ## list_to_set l -> (forall x, x ∈ fpages f -> page_ok kend x) -> c (k, f) = Ok (a, (k', f')) ->
  exists l', kalloc_inv kend k' l' /\ (list_to_set l' : gset Z) ∪ fpages f' = list_to_set l ∪ fpages f /\
    fpages f' ## list_to_set l' /\ keeps (list_to_set l ∪ fpages f) (km_mem k) (km_mem k').
Class FileLaws : Prop := {
  fl_filedup x : files_keep (fo_filedup x);
  fl_fileclose x : files_keep (fo_fileclose x);
  fl_idup x : files_keep (fo_idup x);
  fl_iput x : files_keep (fo_iput x);
  fl_begin_op : files_keep fo_begin_op;
  fl_end_op : files_keep fo_end_op;
}.
Context `{fl : FileLaws}.

Notation sys := (kernel (kmem * F)).
Definition tview (t : ptable) : nat -> option slotview := fun i => view (slots t i).
Definition sys_mem (v : nat -> option slotview) (s : sys) : Prop :=
  exists l owns use, mem_inv kend v (k_rest s).1 (fpages (k_rest s).2) l owns use.
Definition same_images (v : nat -> option slotview) (s s' : sys) : Prop :=
  forall j w, v j = Some w -> v_proc w = true -> same_image w (k_rest s).1 (k_rest s').1.

Lemma same_images_refl v s : same_images v s s.
Proof. by intros j w _ _ va _. Qed.
Lemma same_images_trans v s1 s2 s3 : same_images v s1 s2 -> same_images v s2 s3 -> same_images v s1 s3.
Proof. intros H1 H2 j w Hw Hp va Hv. by rewrite (H2 j w Hw Hp va Hv), (H1 j w Hw Hp va Hv). Qed.

(** Code that gives no slot pages and takes none. *)
Definition quiet {A} (v : nat -> option slotview) (c : M sys A) : Prop := forall s a s',
  c s = Ok (a, s') -> sys_mem v s -> sys_mem v s' /\ same_images v s s'.

Lemma keep_ret {A} v (a : A) : quiet v (ret a).
Proof. intros s a' s' [= <- <-] Hs. split; [done|]. apply same_images_refl. Qed.
Lemma keep_bind {A B} v (c : M sys A) (g : A -> M sys B) : quiet v c -> (forall a, quiet v (g a)) -> quiet v (bind c g).
Proof.
  intros Hc Hg s b s' E Hs. apply bind_Ok_inv in E as (a & s1 & E1 & E2). destruct (Hc s a s1 E1 Hs) as [H1 S1].
  destruct (Hg a s1 b s' E2 H1) as [H2 S2]. split; [done|]. by eapply same_images_trans.
Qed.
Lemma quiet_tab v f : quiet v (tab f).
Proof. intros s a s' [= <- <-] Hs. split; [done|]. by intros j w _ _ va _. Qed.
Lemma quiet_the_proc v i : quiet v (the_proc i).
Proof. intros s a s' [= <- <-] Hs. split; [done|]. apply same_images_refl. Qed.
Lemma quiet_files {A} v (c : M (kmem * F) A) : files_keep c -> quiet v (kop c).
Proof.
  intros Hc s a s' E (l & owns & use & I). unfold kop in E. destruct (k_rest s) as [k f] eqn:Er. simpl in I.
  destruct (c (k, f)) as [[a' [k' f']]| | |] eqn:Ec; try done. injection E as <- <-.
  destruct (Hc k f l a' k' f') as (l' & Ik & Hset & Hdis & Hk); [apply I| | |done|].
  - intros x Hx Hl. apply elem_of_list_to_set in Hl. apply (mi_files _ _ _ _ _ _ _ I) in Hx. rewrite (mi_free _ _ _ _ _ _ _ I x Hl) in Hx. done.
  - intros x Hx. apply (mi_files _ _ _ _ _ _ _ I) in Hx. by eapply mi_ok.
  - destruct (files_step kend v k (fpages f) l owns use k' (fpages f') l' I Ik Hset Hdis Hk) as [I' S'].
    split; [by eexists _, _, _|]. intros j w Hw Hp. rewrite Er. exact (S' j w Hw Hp).
Qed.

Lemma quiet_dup_files v me np n : forall fd, quiet v (dup_files me np fd n).
Proof.
  induction n as [|n IH]; intros fd; cbn [dup_files]; [apply keep_ret|]. apply keep_bind; [apply quiet_the_proc|].
  intros p. destruct (p_ofile p fd =? 0); [apply IH|]. apply keep_bind; [apply quiet_files, fl_filedup|]. intros f.
  apply keep_bind; [apply quiet_tab|]. intros _. apply IH.
Qed.
Lemma quiet_close_files v me n : forall fd, quiet v (close_files me fd n).
Proof.
  induction n as [|n IH]; intros fd; cbn [close_files]; [apply keep_ret|]. apply keep_bind; [apply quiet_the_proc|].
  intros p. destruct (p_ofile p fd =? 0); [apply IH|]. apply keep_bind; [apply quiet_files, fl_fileclose|]. intros f.
  apply keep_bind; [apply quiet_tab|]. intros _. apply IH.
Qed.

(** ** What the calls do to the table *)

(** Updates of a slot that memory does not see. *)
Definition core (p : proc) : procstate * bool * Z * Z * Z := (p_state p, p_is_process p, p_pgdir p, p_kstack p, p_sz p).
Lemma core_view p q : core p = core q -> view p = view q.
Proof. unfold core, view, in_use, is_state. intros [= -> -> -> -> ->]. done. Qed.
Definition core_kept (np : nat) (s s' : sys) : Prop :=
  (forall j, j <> np -> slots (k_tab s') j = slots (k_tab s) j) /\ core (slots (k_tab s') np) = core (slots (k_tab s) np).

Lemma dup_files_core me np n : forall fd s s', dup_files me np fd n s = Ok (tt, s') -> core_kept np s s'.
Proof.
  induction n as [|n IH]; intros fd s s'; cbn [dup_files]; [intros [= <-]; done|]. intros E.
  apply bind_Ok_inv in E as (p & s1 & E1 & E). injection E1 as <- <-. destruct (_ =? 0); [by apply (IH (S fd))|].
  apply bind_Ok_inv in E as (f & s1 & E1 & E). apply bind_Ok_inv in E as (u & s2 & E2 & E).
  pose proof (kop_tab _ _ _ _ E1) as Ht.
  injection E2 as <- <-. destruct (IH _ _ _ E) as [H1 H2]. simpl in H1, H2. rewrite Ht in *. split.
  - intros j Hj. rewrite H1 by done. by rewrite fn_lookup_insert_ne.
  - rewrite H2. by rewrite fn_lookup_insert.
Qed.

Lemma kop_kmem {A} (c : M kmem A) (s s' : sys) a : kop (on_kmem c) s = Ok (a, s') ->
  exists k', c (k_rest s).1 = Ok (a, k') /\ s' = Kernel (k_tab s) (k_mmu s) (k_first s) (k', (k_rest s).2).
Proof.
  unfold kop, on_kmem. destruct (c (k_rest s).1) as [[a' k']| | |]; intros E; try done. injection E as <- <-. by exists k'.
Qed.

(** A new slot with its stack. *)
Record new_slot (s s' : sys) (i : nat) (c : Z) : Prop := {
  ns_unused : p_state (slots (k_tab s) i) = UNUSED;
  ns_state : p_state (slots (k_tab s') i) = EMBRYO;
  ns_process : p_is_process (slots (k_tab s') i) = true;
  ns_stack : p_kstack (slots (k_tab s') i) = c;
  ns_other : forall j, j <> i -> slots (k_tab s') j = slots (k_tab s) j;
  ns_files : (k_rest s').2 = (k_rest s).2;
  ns_mem : km_mem (k_rest s').1 = km_mem (k_rest s).1;
}.
Definition page_taken (v : nat -> option slotview) (s : sys) (c : Z) : Prop :=
  exists l owns use, mem_inv kend v (k_rest s).1 (fpages (k_rest s).2) l owns use /\ use c = None /\ c ∉ l /\ page_ok kend c.

Lemma unused_view p : p_state p = UNUSED -> view p = None.
Proof. intros E. unfold view, in_use, is_state. by rewrite E. Qed.

(** The used slots are as they were. *)
Definition used_same (s s' : sys) : Prop :=
  forall j, slots (k_tab s') j = slots (k_tab s) j \/ (p_state (slots (k_tab s) j) = UNUSED /\ p_state (slots (k_tab s') j) = UNUSED).
Lemma used_same_view s s' : used_same s s' -> tview (k_tab s') = tview (k_tab s).
Proof.
  intros H. apply functional_extensionality. intros j. unfold tview. destruct (H j) as [->|[H1 H2]]; [done|]. by rewrite !unused_view.
Qed.

(** The first part of [allocproc] and of [startkth]. *)
Definition alloc_stack (good : nat -> M sys (option nat)) : M sys (option nat) :=
  let! o := alloc in
  match o with
  | None => ret None
  | Some i =>
      do! upd i (set_p_is_process true) in
      let! kstack := kop ko_kalloc in
      do! upd i (set_p_kstack kstack) in
      if kstack =? 0 then do! upd i (set_p_state UNUSED) in ret None else good i
  end.
Lemma alloc_stack_spec s o s' good :
  sys_mem (tview (k_tab s)) s -> alloc_stack good s = Ok (o, s') ->
  (o = None /\ used_same s s' /\ sys_mem (tview (k_tab s)) s' /\ km_mem (k_rest s').1 = km_mem (k_rest s).1) \/
  (exists i c s1, new_slot s s1 i c /\ page_taken (tview (k_tab s)) s1 c /\ good i s1 = Ok (o, s')).
Proof.
  intros (l & owns & use & I) E. unfold alloc_stack in E. apply bind_Ok_inv in E as (o1 & s1 & E1 & E). unfold alloc in E1.
  destruct (alloc_slot (k_tab s)) as [[i t]|] eqn:Ea; injection E1 as <- <-.
  2: { injection E as <- <-. left. split; [done|]. split; [by left|]. split; [by eexists _, _, _|done]. }
  apply alloc_slot_spec in Ea as (_ & Hu & ->). apply bind_Ok_inv in E as (u & s2 & E2 & E). injection E2 as <- <-.
  apply bind_Ok_inv in E as (kst & s2 & E2 & E). apply kop_kmem in E2 as (k' & E2 & ->). simpl in E2.
  apply bind_Ok_inv in E as (u & s2 & E3 & E). injection E3 as <- <-.
  destruct l as [|c l].
  - rewrite (kalloc_nil kend _ (mi_kalloc _ _ _ _ _ _ _ I)) in E2. injection E2 as <- <-. cbn [Z.eqb] in E.
    injection E as <- <-. left. split; [done|]. split; [|split; [by eexists _, _, _|done]].
    intros j. simpl. rewrite !fn_lookup_insert. destruct (decide (j = i)) as [->|Hj]; [right; by rewrite !fn_lookup_insert|left; by rewrite !fn_lookup_insert_ne].
  - destruct (take_page kend _ _ _ _ _ _ _ I) as (k1 & E1 & I1 & M1 & Hok & Hn & H0). rewrite E1 in E2. injection E2 as <- <-.
    destruct (Z.eqb_spec c 0) as [|_]; [done|]. right. exists i, c. eexists. split; [|split; [|exact E]].
    + split; simpl; rewrite ?fn_lookup_insert; try done. intros j Hj. by rewrite !fn_lookup_insert_ne.
    + exists l, owns, use. simpl. split; [done|]. split; [|done]. apply (mi_free _ _ _ _ _ _ _ I). by left.
Qed.

(** ** Theorems on the calls *)

(** A zombie is a process, a kernel thread that has exited is not. *)
Definition kinds (t : ptable) : Prop := forall i,
  (p_state (slots t i) = ZOMBIE -> p_is_process (slots t i) = true) /\
  (p_state (slots t i) = KZOMBIE -> p_is_process (slots t i) = false).
Definition sys_inv (s : sys) : Prop := sys_mem (tview (k_tab s)) s /\ kinds (k_tab s).

Lemma used_view p : p_state p = RUNNING -> view p = Some (View (p_is_process p) (p_pgdir p) (p_kstack p) (p_sz p)).
Proof. intros E. unfold view, in_use, is_state. by rewrite E. Qed.
Lemma kinds_used_same s s' : used_same s s' -> kinds (k_tab s) -> kinds (k_tab s').
Proof. intros H K i. destruct (H i) as [->|[_ H2]]; [apply K|]. rewrite H2. done. Qed.

(** The steps of a call, one at a time. *)
Lemma upd_step {A} i f (g : unit -> M sys A) (s s' : sys) a : bind (upd i f) g s = Ok (a, s') ->
  exists s1, k_tab s1 = upd_slot i f (k_tab s) /\ k_rest s1 = k_rest s /\ g tt s1 = Ok (a, s').
Proof. intros E. apply bind_Ok_inv in E as ([] & s1 & E1 & E). exists s1. unfold upd, tab, modify in E1. injection E1 as <-. done. Qed.
Lemma proc_step {A} i (g : proc -> M sys A) (s s' : sys) a : bind (the_proc i) g s = Ok (a, s') -> g (slots (k_tab s) i) s = Ok (a, s').
Proof. intros E. apply bind_Ok_inv in E as (p & s1 & E1 & E). unfold the_proc, gets in E1. injection E1 as <- <-. done. Qed.
Lemma kmem_step {A B} (c : M kmem A) (g : A -> M sys B) (s s' : sys) b : bind (kop (on_kmem c)) g s = Ok (b, s') ->
  exists a k' s1, c (k_rest s).1 = Ok (a, k') /\ k_tab s1 = k_tab s /\ k_rest s1 = (k', (k_rest s).2) /\ g a s1 = Ok (b, s').
Proof. intros E. apply bind_Ok_inv in E as (a & s1 & E1 & E). apply kop_kmem in E1 as (k' & E1 & ->). eexists a, k', _. split; [exact E1|]. split; [|split; [|exact E]]; done. Qed.

(** The end of [fork], for a child with an address space. *)
Lemma fork_end v me np p d c (s s' : sys) r :
  p_state (slots (k_tab s) np) = EMBRYO -> core (slots (k_tab s) np) = (EMBRYO, true, d, c, p_sz p) -> sys_mem v s ->
  (do! dup_files me np 0 NOFILE in
   let! cwd := kop (ko_idup (p_cwd p)) in
   do! upd np (set_p_cwd cwd) in
   do! upd np (fun q => set_p_name (put_name (cstring (p_name p)) (p_name q)) q) in
   let! q := the_proc np in
   do! upd np (set_p_state RUNNABLE) in
   ret (p_pid q)) s = Ok (r, s') ->
  (forall j, j <> np -> slots (k_tab s') j = slots (k_tab s) j) /\ core (slots (k_tab s') np) = (RUNNABLE, true, d, c, p_sz p) /\
  sys_mem v s' /\ same_images v s s'.
Proof.
  intros Hst Hc Hs E. apply bind_Ok_inv in E as ([] & s1 & E1 & E).
  destruct (quiet_dup_files v me np NOFILE 0 s tt s1 E1 Hs) as [Hs1 S1]. apply dup_files_core in E1 as [T1 C1].
  apply bind_Ok_inv in E as (cwd & s2 & E2 & E). destruct (quiet_files v _ (fl_idup _) s1 cwd s2 E2 Hs1) as [Hs2 S2].
  apply kop_tab in E2. apply upd_step in E as (s3 & T3 & M3 & E). apply upd_step in E as (s4 & T4 & M4 & E). apply proc_step in E.
  apply upd_step in E as (s5 & T5 & M5 & E). unfold ret in E. injection E as _ <-.
  assert (M : k_rest s5 = k_rest s2) by congruence. rewrite T5, T4, T3, E2. split; [|split].
  - intros j Hj. rewrite !upd_ne by done. by apply T1.
  - rewrite !upd_eq. rewrite Hc in C1. unfold core in *. simpl. injection C1 as _ -> -> -> ->. done.
  - unfold sys_mem, same_images in *. rewrite M. split; [done|]. by eapply (same_images_trans v s s1 s2).
Qed.

(** [fork]: what it returns, and the memory of the child. *)
Lemma fork_spec me (s s' : sys) r :
  sys_inv s -> p_state (slots (k_tab s) me) = RUNNING -> p_is_process (slots (k_tab s) me) = true -> fork me s = Ok (r, s') ->
  let p := slots (k_tab s) me in
  sys_inv s' /\ same_images (tview (k_tab s)) s s' /\
  ((r = -1 /\ used_same s s') \/
   exists np w, tview (k_tab s) np = None /\ tview (k_tab s') = <[np := Some w]> (tview (k_tab s)) /\ v_proc w = true /\ v_size w = p_sz p /\
     forall va, user_va va -> uspace (v_root w) (km_mem (k_rest s').1) va =
       if decide (page_in PGSIZE (p_sz p) va) then uspace (p_pgdir p) (km_mem (k_rest s).1) va else None).
Proof.
  intros [Hm Hk] Hr Hpr E p. unfold fork in E. apply bind_Ok_inv in E as (o & sA & EA & E).
  change (alloc_stack (fun i => do! upd i (set_p_ret [Forkret; Syscall_trapret]) in ret (Some i)) s = Ok (o, sA)) in EA.
  destruct (alloc_stack_spec _ _ _ _ Hm EA) as [(-> & Hu & HmA & HkA)|(np & c & s1 & N & (l & owns & use & I & Hc1 & Hc2 & Hc3) & Eg)].
  { injection E as <- <-. split; [|split; [by intros j w _ _ va _; rewrite HkA|by left]]. split; [by rewrite (used_same_view _ _ Hu)|by eapply kinds_used_same]. }
  apply upd_step in Eg as (s2 & T2 & M2 & Eg). unfold ret in Eg. injection Eg as <- <-. destruct N as [N1 N2 N3 N4 N5 N6 N7].
  assert (Hne : np <> me) by (intros ->; congruence). apply proc_step in E. rewrite T2, (upd_ne _ _ _ _ Hne), (N5 me) in E by done. fold p in E.
  apply kmem_step in E as (d & k3 & s3 & E3 & T3 & M3 & E). rewrite M2 in E3.
  assert (Hvp : tview (k_tab s) me = Some (View true (p_pgdir p) (p_kstack p) (p_sz p))).
  { unfold tview. rewrite used_view by done. by rewrite Hpr. }
  destruct (fork_copy kend kpdpt Hend _ _ _ _ _ _ me _ np c d k3 I Hvp eq_refl (unused_view _ N1) Hc1 Hc2 Hc3 E3) as [Sim Cases]. cbn [v_root v_size] in Cases.
  assert (Sim' : forall j w, tview (k_tab s) j = Some w -> v_proc w = true -> same_image w (k_rest s).1 k3).
  { intros j w Hw Hp va Hv. rewrite (Sim j w Hw Hp va Hv). by rewrite N7. }
  apply upd_step in E as (s4 & T4 & M4 & E). rewrite M3, M2 in M4.
  assert (Told : forall j, j <> np -> slots (k_tab s4) j = slots (k_tab s) j) by (intros j Hj; rewrite T4, upd_ne, T3, T2, upd_ne by done; by apply N5).
  destruct Cases as [(-> & l' & I' & Hcl')|(Hd & (l' & owns' & use' & I') & Hcopy)].
  - cbn [Z.eqb] in E. apply proc_step in E. rewrite T4, upd_eq, T3, T2, upd_eq in E. cbn [set_p_pgdir set_p_ret p_kstack] in E. rewrite N4 in E.
    apply kmem_step in E as ([] & k5 & s5 & E5 & T5 & M5 & E). rewrite M4 in E5, M5. cbn [fst snd] in E5, M5.
    destruct (give_page kend Hend _ _ _ _ _ _ c I' Hc1 Hcl' Hc3) as (k6 & E6 & I6 & S6). rewrite E6 in E5. injection E5 as <-.
    apply upd_step in E as (s7 & T7 & M7 & E). apply upd_step in E as (s8 & T8 & M8 & E). unfold ret in E. injection E as <- <-.
    assert (Hus : used_same s s8).
    { intros j. rewrite T8, T7, T5. destruct (decide (j = np)) as [->|Hj]; [right; rewrite upd_eq; done|left; rewrite !upd_ne by done; by apply Told]. }
    assert (M : k_rest s8 = (k6, (k_rest s).2)) by (rewrite M8, M7, M5, N6; done).
    split; [|split; [|by left]].
    + split; [|by eapply kinds_used_same]. rewrite (used_same_view _ _ Hus). unfold sys_mem. rewrite M. rewrite N6 in I6. by eexists _, _, _.
    + intros j w Hw Hp va Hv. rewrite M. cbn [fst]. rewrite (S6 j w Hw Hp va Hv). by apply (Sim' j w Hw Hp).
  - destruct (Z.eqb_spec d 0) as [|_]; [done|].
    apply upd_step in E as (s5 & T5 & M5 & E). apply upd_step in E as (s6 & T6 & M6 & E). apply upd_step in E as (s7 & T7 & M7 & E).
    assert (M : k_rest s7 = (k3, (k_rest s).2)) by (rewrite M7, M6, M5, M4, N6; done).
    assert (Hc7 : core (slots (k_tab s7) np) = (EMBRYO, true, d, c, p_sz p)).
    { rewrite T7, T6, T5, T4, T3, T2. rewrite !upd_eq. unfold core. cbn. by rewrite N2, N3, N4. }
    set (v' := <[np := Some (View true d c (p_sz p))]> (tview (k_tab s))).
    assert (Hs7 : sys_mem v' s7) by (unfold sys_mem; rewrite M; rewrite N6 in I'; by eexists _, _, _).
    destruct (fork_end v' me np p d c s7 s' r ltac:(by injection Hc7) Hc7 Hs7 E) as (T8 & C8 & Hs8 & S8).
    assert (Hv : tview (k_tab s') = v').
    { apply functional_extensionality. intros j. unfold tview, v'. destruct (decide (j = np)) as [->|Hj].
      - rewrite fn_lookup_insert. unfold core in C8. injection C8 as C1 C2 C3 C4 C5. unfold view, in_use, is_state. by rewrite C1, C2, C3, C4, C5.
      - rewrite fn_lookup_insert_ne by done. rewrite (T8 j Hj), T7, T6, T5, !upd_ne, (Told j Hj) by done. done. }
    split; [split; [by rewrite Hv|]|split].
    + intros j. destruct (decide (j = np)) as [->|Hj]; [unfold core in C8; injection C8 as C1 _ _ _ _; rewrite C1; done|].
      rewrite (T8 j Hj), T7, T6, T5, !upd_ne, (Told j Hj) by done. apply Hk.
    + intros j w Hw Hp va Hv'. assert (Hj : np <> j) by (intros <-; unfold tview in Hw; by rewrite unused_view in Hw).
      assert (Hw' : v' j = Some w) by (unfold v'; by rewrite fn_lookup_insert_ne). rewrite (S8 j w Hw' Hp va Hv'), M. by apply (Sim' j w Hw Hp).
    + right. exists np, (View true d c (p_sz p)). split; [by apply unused_view|]. do 3 (split; [done|]). intros va Hva. cbn [v_root].
      pose proof (S8 np (View true d c (p_sz p)) ltac:(unfold v'; by rewrite fn_lookup_insert) eq_refl va Hva) as Heq. cbn [v_root] in Heq. rewrite Heq, M.
      cbn [fst]. rewrite (Hcopy va Hva). by rewrite N7.
Qed.

(** [wait] frees the memory of the child that it collects, and nothing else. *)
Lemma wait_spec me (s s' : sys) r :
  sys_inv s -> p_state (slots (k_tab s) me) = RUNNING -> wait me s = Ok (r, s') ->
  sys_inv s' /\ forall j w, view (slots (k_tab s) j) = Some w -> v_proc w = true -> p_state (slots (k_tab s) j) <> ZOMBIE ->
    view (slots (k_tab s') j) = Some w /\ same_image w (k_rest s).1 (k_rest s').1.
Proof.
  intros [Hm Hk] Hr E. unfold wait in E. unfold bind at 1, get in E.
  destruct (zombie_child me (k_tab s)) as [i|] eqn:Hz.
  - apply scan_Some in Hz as (_ & Hi & _). apply andb_true_iff in Hi as [_ Hz]. apply is_state_true in Hz.
    apply proc_step in E. set (q := slots (k_tab s) i) in *. set (w := View true (p_pgdir q) (p_kstack q) (p_sz q)).
    assert (Hw : tview (k_tab s) i = Some w). { unfold tview, view, in_use, is_state. fold q. rewrite Hz. cbn. by rewrite (proj1 (Hk i) Hz : p_is_process q = true). }
    destruct Hm as (l & owns & use & I). destruct (wait_free kend Hend _ _ _ _ _ _ i w I Hw eq_refl) as (k1 & k2 & l' & use' & E1 & E2 & I' & S').
    cbn [v_stack v_root w] in E1, E2.
    apply kmem_step in E as ([] & k3 & s3 & E3 & T3 & M3 & E). rewrite E1 in E3. injection E3 as <-.
    apply kmem_step in E as ([] & k4 & s4 & E4 & T4 & M4 & E). rewrite M3 in E4, M4. cbn [fst snd] in E4, M4. rewrite E2 in E4. injection E4 as <-.
    apply upd_step in E as (s5 & T5 & M5 & E). unfold ret in E. injection E as <- <-.
    assert (Told : forall j, j <> i -> slots (k_tab s5) j = slots (k_tab s) j) by (intros j Hj; rewrite T5, upd_ne, T4, T3 by done; done).
    assert (Hi : slots (k_tab s5) i = reap q) by (rewrite T5, upd_eq, T4, T3; done).
    assert (Hv : tview (k_tab s5) = <[i := None]> (tview (k_tab s))).
    { apply functional_extensionality. intros j. unfold tview. destruct (decide (j = i)) as [->|Hj]; [rewrite fn_lookup_insert, Hi; done|].
      rewrite fn_lookup_insert_ne, Told by done. done. }
    split; [split|].
    + rewrite Hv. unfold sys_mem. rewrite M5, M4. by eexists _, _, _.
    + intros j. destruct (decide (j = i)) as [->|Hj]; [rewrite Hi; done|rewrite Told by done; apply Hk].
    + intros j w' Hj Hp Hn. destruct (decide (j = i)) as [->|Hji]; [by destruct (Hn Hz)|]. rewrite Told by done. split; [done|].
      rewrite M5, M4. by apply (S' j w').
  - apply proc_step in E. destruct (_ || _).
    + injection E as <- <-. split; [done|]. intros j w Hj _ _. split; [done|]. by intros va _.
    + apply bind_Ok_inv in E as (u & s1 & E1 & E). injection E as <- <-. unfold tab, modify in E1. injection E1 as _ <-.
      assert (Hsame : forall j, view (slots (go_to_sleep me (ChProc me) (k_tab s)) j) = view (slots (k_tab s) j) /\
        (j <> me -> slots (go_to_sleep me (ChProc me) (k_tab s)) j = slots (k_tab s) j) /\ p_state (slots (go_to_sleep me (ChProc me) (k_tab s)) me) = SLEEPING).
      { intros j. unfold go_to_sleep. rewrite upd_eq. split; [|split; [intros Hj; by rewrite !upd_ne|done]].
        destruct (decide (j = me)) as [->|Hj]; [|by rewrite !upd_ne]. rewrite !upd_eq. unfold view, in_use, is_state. cbn. by rewrite Hr. }
      split; [split|].
      * assert (Hv : tview (go_to_sleep me (ChProc me) (k_tab s)) = tview (k_tab s)) by (apply functional_extensionality; intros j; apply Hsame).
        cbn [k_tab]. rewrite Hv. exact Hm.
      * intros j. cbn [k_tab]. destruct (decide (j = me)) as [->|Hj]; [by rewrite (proj2 (proj2 (Hsame me)))|]. rewrite (proj1 (proj2 (Hsame j)) Hj). apply Hk.
      * intros j w Hj _ _. cbn [k_tab k_rest]. rewrite (proj1 (Hsame j)). split; [done|]. by intros va _.
Qed.

Lemma switchuvm_step {A} i (g : unit -> M sys A) (s s' : sys) a : bind (switchuvm i) g s = Ok (a, s') ->
  exists s1, k_tab s1 = k_tab s /\ k_rest s1 = k_rest s /\ g tt s1 = Ok (a, s').
Proof.
  intros E. apply bind_Ok_inv in E as ([] & s1 & E1 & E). exists s1. unfold switchuvm in E1. apply proc_step in E1.
  destruct (_ =? 0); [done|]. unfold modify in E1. injection E1 as <-. done.
Qed.

(** A slot with a new size. *)
Lemma resized me sz (s s' : sys) :
  sys_inv s -> p_state (slots (k_tab s) me) = RUNNING -> p_is_process (slots (k_tab s) me) = true ->
  k_tab s' = upd_slot me (set_p_sz sz) (k_tab s) ->
  sys_mem (<[me := Some (View true (p_pgdir (slots (k_tab s) me)) (p_kstack (slots (k_tab s) me)) sz)]> (tview (k_tab s))) s' -> sys_inv s'.
Proof.
  intros [_ Hk] Hr Hp Ht Hs. split.
  - assert (Hv : tview (k_tab s') = <[me := Some (View true (p_pgdir (slots (k_tab s) me)) (p_kstack (slots (k_tab s) me)) sz)]> (tview (k_tab s))); [|by rewrite Hv].
    apply functional_extensionality. intros j. unfold tview. rewrite Ht. destruct (decide (j = me)) as [->|Hj].
    + rewrite upd_eq, fn_lookup_insert. unfold view, in_use, is_state. cbn. by rewrite Hr, Hp.
    + by rewrite upd_ne, fn_lookup_insert_ne.
  - intros j. rewrite Ht. destruct (decide (j = me)) as [->|Hj]; [rewrite upd_eq; cbn; by rewrite Hr|rewrite upd_ne by done; apply Hk].
Qed.

(** The memory of slots other than [me]. *)
Definition others_same (me : nat) (s s' : sys) : Prop := forall j w, j <> me ->
  view (slots (k_tab s) j) = Some w -> v_proc w = true -> p_state (slots (k_tab s) j) <> ZOMBIE ->
  view (slots (k_tab s') j) = Some w /\ same_image w (k_rest s).1 (k_rest s').1.

(** The end of [growproc]. *)
Lemma grow_end me sz (s s1 s' : sys) r :
  sys_inv s -> p_state (slots (k_tab s) me) = RUNNING -> p_is_process (slots (k_tab s) me) = true -> k_tab s1 = k_tab s ->
  sys_mem (<[me := Some (View true (p_pgdir (slots (k_tab s) me)) (p_kstack (slots (k_tab s) me)) sz)]> (tview (k_tab s))) s1 ->
  (forall j w, j <> me -> tview (k_tab s) j = Some w -> v_proc w = true -> same_image w (k_rest s).1 (k_rest s1).1) ->
  (do! upd me (set_p_sz sz) in do! switchuvm me in ret 0) s1 = Ok (r, s') ->
  sys_inv s' /\ others_same me s s' /\ k_rest s' = k_rest s1 /\ r = 0 /\ p_sz (slots (k_tab s') me) = sz.
Proof.
  intros Hs Hr Hp Ht Hm So E. apply upd_step in E as (s2 & T2 & M2 & E). apply switchuvm_step in E as (s3 & T3 & M3 & E). unfold ret in E. injection E as <- <-.
  assert (T : k_tab s3 = upd_slot me (set_p_sz sz) (k_tab s)) by (rewrite T3, T2, Ht; done).
  split; [eapply (resized me sz s s3); try done; unfold sys_mem in *; by rewrite M3, M2|]. split; [|split; [congruence|split; [done|by rewrite T, upd_eq]]].
  intros j w Hj Hw Hpw _. rewrite T, upd_ne by done. split; [done|]. rewrite M3, M2. by apply (So j w).
Qed.

(** [growproc]: the process keeps the bytes it had, below both sizes. *)
Lemma growproc_spec me n (s s' : sys) r :
  sys_inv s -> p_state (slots (k_tab s) me) = RUNNING -> p_is_process (slots (k_tab s) me) = true ->
  let p := slots (k_tab s) me in
  0 < p_sz p + n <= 140737488355328 - 4096 -> growproc me n s = Ok (r, s') ->
  sys_inv s' /\ others_same me s s' /\
  ((r = 0 /\ p_sz (slots (k_tab s') me) = p_sz p + n) \/ (r = -1 /\ k_tab s' = k_tab s)) /\
  forall va, user_va va -> va / 4096 * 4096 < p_sz p -> va / 4096 * 4096 < p_sz p + n ->
    uspace (p_pgdir p) (km_mem (k_rest s').1) va = uspace (p_pgdir p) (km_mem (k_rest s).1) va.
Proof.
  intros Hs Hr Hp p Hn E. pose proof Hs as [(l & owns & use & I) Hk]. unfold growproc in E. apply proc_step in E. fold p in E. cbv zeta in E.
  assert (Hw : tview (k_tab s) me = Some (View true (p_pgdir p) (p_kstack p) (p_sz p))).
  { unfold tview. rewrite used_view by done. by rewrite Hp. }
  pose proof (im_size _ _ _ (mi_image _ _ _ _ _ _ _ I me _ Hw eq_refl)) as Hsz. cbn [v_size] in Hsz.
  assert (Hrnd : p_sz p <= PGROUNDUP (p_sz p)) by (apply PGROUNDUP_user; unfold user_va; lia).
  destruct (Z.ltb_spec 0 n) as [Hpos|Hnp]; [|destruct (Z.ltb_spec n 0) as [Hneg|Hz]].
  - rewrite u64_small in E by lia. apply kmem_step in E as (sz & k1 & s1 & E1 & T1 & M1 & E).
    destruct (grow_slot kend Hend _ _ _ _ _ _ me _ (p_sz p + n) I Hw eq_refl) as (r1 & k2 & E2 & Hr1 & Im & So & Sm); [cbn [v_size]; lia|].
    cbn [v_root v_size v_stack] in *. rewrite E2 in E1. injection E1 as <- <-.
    assert (Hself : forall va, user_va va -> va / 4096 * 4096 < p_sz p -> uspace (p_pgdir p) (km_mem k2) va = uspace (p_pgdir p) (km_mem (k_rest s).1) va).
    { intros va Hv Hva. apply Sm; [done|lia]. }
    destruct (Z.eqb_spec r1 0) as [->|Hne].
    + unfold ret in E. injection E as <- <-. split; [split; [|by rewrite T1]|split; [|split; [by right|]]].
      * rewrite T1. unfold sys_mem. rewrite M1. cbn [Z.eqb] in Im. by rewrite fn_insert_id in Im.
      * intros j w Hj Hw' Hpw _. rewrite T1, M1. split; [done|]. by apply (So j w).
      * intros va Hv Hva _. rewrite M1. by apply Hself.
    + destruct Hr1 as [H0| ->]; [done|].
      destruct (grow_end me (p_sz p + n) s s1 s' r Hs Hr Hp T1) as (H1 & H2 & H3 & H4 & H5); [unfold sys_mem; by rewrite M1| |exact E|].
      { intros j w Hj Hw' Hpw. rewrite M1. by apply (So j w). }
      split; [done|]. split; [done|]. split; [by left|]. intros va Hv Hva _. rewrite H3, M1. by apply Hself.
  - rewrite u64_small in E by lia. apply kmem_step in E as (sz & k1 & s1 & E1 & T1 & M1 & E).
    destruct (shrink_slot kend Hend _ _ _ _ _ _ me _ (p_sz p + n) I Hw eq_refl) as (k2 & E2 & Im & So & Sm); [cbn [v_size]; lia|].
    cbn [v_root v_size v_stack] in *. rewrite E2 in E1. injection E1 as <- <-. destruct (Z.eqb_spec (p_sz p + n) 0) as [|_]; [lia|].
    destruct (grow_end me (p_sz p + n) s s1 s' r Hs Hr Hp T1) as (H1 & H2 & H3 & H4 & H5); [unfold sys_mem; by rewrite M1| |exact E|].
    { intros j w Hj Hw' Hpw. rewrite M1. by apply (So j w). }
    split; [done|]. split; [done|]. split; [by left|]. intros va Hv _ Hva. rewrite H3, M1. by apply Sm.
  - assert (n = 0) as -> by lia.
    destruct (grow_end me (p_sz p) s s s' r Hs Hr Hp eq_refl) as (H1 & H2 & H3 & H4 & H5); [| |exact E|].
    { fold p. rewrite fn_insert_id by exact Hw. by destruct Hs. }
    { intros j w Hj Hw' Hpw. by intros va _. }
    split; [done|]. split; [done|]. split; [left; split; [done|lia]|]. intros va Hv _ _. by rewrite H3.
Qed.

(** Changes of the table that memory does not see. *)
Definition tame (p q : proc) : Prop :=
  view q = view p /\ p_is_process q = p_is_process p /\ (p_state q = ZOMBIE \/ p_state q = KZOMBIE -> p_state q = p_state p).
Lemma tame_refl p : tame p p.
Proof. done. Qed.
Lemma tame_trans p q r : tame p q -> tame q r -> tame p r.
Proof. intros (H1 & H2 & H3) (G1 & G2 & G3). split; [congruence|]. split; [congruence|]. intros H. pose proof (G3 H) as E. rewrite E in H |- *. by apply H3. Qed.
Lemma tame_table (s s' : sys) : (forall j, tame (slots (k_tab s) j) (slots (k_tab s') j)) -> sys_mem (tview (k_tab s)) s' -> kinds (k_tab s) -> sys_inv s'.
Proof.
  intros Ht Hm Hk. split.
  - assert (Hv : tview (k_tab s') = tview (k_tab s)) by (apply functional_extensionality; intros j; apply Ht). by rewrite Hv.
  - intros j. destruct (Ht j) as (_ & H2 & H3). rewrite H2. split; intros H; apply Hk; rewrite <-H; symmetry; apply H3; auto.
Qed.
Lemma tame_state p st : in_use p = true -> st <> UNUSED -> st <> EMBRYO -> st <> ZOMBIE -> st <> KZOMBIE -> tame p (set_p_state st p).
Proof.
  intros Hu H1 H2 H3 H4. split; [|split; [done|intros [|]; done]]. unfold view. rewrite Hu.
  assert (H : in_use (set_p_state st p) = true) by (by destruct st). by rewrite H.
Qed.

Lemma wakeup1_tame c t j : tame (slots t j) (slots (wakeup1 c t) j).
Proof.
  unfold wakeup1. simpl. destruct (_ && _) eqn:E; [|done]. apply andb_true_iff in E as [E _]. apply andb_true_iff in E as [_ E].
  apply is_state_true in E. apply tame_state; try done. unfold in_use, is_state. by rewrite E.
Qed.
Lemma upd_tame i f t : (forall p, tame p (f p)) -> forall j, tame (slots t j) (slots (upd_slot i f t) j).
Proof. intros Hf j. destruct (decide (j = i)) as [->|Hj]; [by rewrite upd_eq|by rewrite upd_ne]. Qed.
Lemma pass_children_tame me n : forall i t j, tame (slots t j) (slots (pass_children me i n t) j).
Proof.
  induction n as [|n IH]; intros i t j; [done|]. cbn [pass_children]. eapply tame_trans; [|apply IH].
  destruct (bool_decide _); [|done]. cbv zeta.
  assert (H1 : forall j, tame (slots t j) (slots (upd_slot i (set_p_parent (initproc t)) t) j)) by (apply upd_tame; done).
  destruct (is_state ZOMBIE _); [|apply H1]. eapply tame_trans; [apply H1|apply wakeup1_tame].
Qed.
Lemma exit_locked_tame me t : exists t', exit_locked me t = upd_slot me (set_p_state ZOMBIE) t' /\ forall j, tame (slots t j) (slots t' j).
Proof. eexists. split; [reflexivity|]. intros j. eapply tame_trans; [apply wakeup1_tame|apply pass_children_tame]. Qed.
Lemma zombie_view p q : in_use p = true -> tame p q -> view (set_p_state ZOMBIE q) = view p.
Proof.
  intros Hu (H & _). unfold view in *. rewrite Hu in *. destruct (in_use q); [|done]. rewrite <-H. reflexivity.
Qed.

Lemma close_files_core me n : forall fd s s', close_files me fd n s = Ok (tt, s') -> core_kept me s s'.
Proof.
  induction n as [|n IH]; intros fd s s'; cbn [close_files]; [intros [= <-]; done|]. intros E.
  apply proc_step in E. destruct (_ =? 0); [by apply (IH (S fd))|].
  apply bind_Ok_inv in E as (f & s1 & E1 & E). apply kop_tab in E1. apply upd_step in E as (s2 & T2 & _ & E).
  destruct (IH _ _ _ E) as [H1 H2]. rewrite T2, E1 in *. split; [intros j Hj; rewrite H1, upd_ne by done; done|]. by rewrite H2, upd_eq.
Qed.

(** [exit] leaves all memory to the parent, in [wait]. *)
Lemma exit_spec me (s s' : sys) :
  sys_inv s -> p_state (slots (k_tab s) me) = RUNNING -> p_is_process (slots (k_tab s) me) = true -> exit me s = Ok (tt, s') ->
  sys_inv s' /\ same_images (tview (k_tab s)) s s' /\ tview (k_tab s') = tview (k_tab s).
Proof.
  intros [Hm Hk] Hr Hp E. unfold exit in E. unfold bind at 1, get in E. destruct (bool_decide _); [done|].
  set (v := tview (k_tab s)) in *.
  apply bind_Ok_inv in E as ([] & s1 & E1 & E). destruct (quiet_close_files v me NOFILE 0 s tt s1 E1 Hm) as [Hm1 S1]. apply close_files_core in E1 as [T1 C1].
  apply proc_step in E. apply bind_Ok_inv in E as (u2 & s2 & E2 & E). destruct (quiet_files v _ fl_begin_op s1 u2 s2 E2 Hm1) as [Hm2 S2]. apply kop_tab in E2.
  apply bind_Ok_inv in E as (u3 & s3 & E3 & E). destruct (quiet_files v _ (fl_iput _) s2 u3 s3 E3 Hm2) as [Hm3 S3]. apply kop_tab in E3.
  apply bind_Ok_inv in E as (u4 & s4 & E4 & E). destruct (quiet_files v _ fl_end_op s3 u4 s4 E4 Hm3) as [Hm4 S4]. apply kop_tab in E4.
  apply upd_step in E as (s5 & T5 & M5 & E). unfold tab, modify in E. injection E as <-.
  assert (S : same_images v s s4) by (eapply same_images_trans; [exact S1|]; eapply same_images_trans; [exact S2|]; by eapply same_images_trans).
  assert (T : forall j, slots (k_tab s5) j = if decide (j = me) then set_p_cwd 0 (slots (k_tab s1) me) else slots (k_tab s) j).
  { intros j. rewrite T5, E4, E3, E2. case_decide as Hj; [subst; by rewrite upd_eq|rewrite upd_ne by done; by apply T1]. }
  destruct (exit_locked_tame me (k_tab s5)) as (t6 & X & Ht6).
  assert (Hme : core (slots (k_tab s5) me) = core (slots (k_tab s) me)) by (rewrite T, decide_True by done; exact C1).
  assert (Hu : in_use (slots (k_tab s5) me) = true) by (unfold core in Hme; injection Hme as C _ _ _ _; unfold in_use, is_state; by rewrite C, Hr).
  assert (Hview : forall j, view (slots (upd_slot me (set_p_state ZOMBIE) t6) j) = v j).
  { intros j. destruct (decide (j = me)) as [->|Hj].
    - rewrite upd_eq, (zombie_view _ _ Hu (Ht6 me)). by apply core_view.
    - rewrite upd_ne by done. destruct (Ht6 j) as (-> & _). rewrite T, decide_False by done. done. }
  assert (Hv : tview (exit_locked me (k_tab s5)) = v) by (rewrite X; apply functional_extensionality; exact Hview).
  split; [split|split; [|exact Hv]].
  - cbn [k_tab]. rewrite Hv. unfold sys_mem in *. cbn [k_rest]. by rewrite M5.
  - intros j. cbn [k_tab]. rewrite X. destruct (decide (j = me)) as [->|Hj].
    + rewrite upd_eq. cbn. destruct (Ht6 me) as (_ & -> & _). unfold core in Hme. injection Hme as _ -> _ _ _. rewrite Hp. clear. by split.
    + rewrite upd_ne by done. destruct (Ht6 j) as (_ & H2 & H3). rewrite T, decide_False in H2, H3 by done. rewrite H2.
      split; intros H; apply Hk; rewrite <-H; symmetry; apply H3; auto.
  - unfold same_images in *. cbn [k_rest]. by rewrite M5.
Qed.

(** [startkth]: a stack for a new kernel thread. *)
Lemma startkth_spec a (s s' : sys) o : sys_inv s -> startkth a s = Ok (o, s') -> sys_inv s' /\ same_images (tview (k_tab s)) s s' /\
  forall j w, tview (k_tab s) j = Some w -> tview (k_tab s') j = Some w.
Proof.
  intros [Hm Hk] E.
  change (alloc_stack (fun i => do! upd i (set_p_ret [Forkret; Kroutine a; Exitkth]) in
        do! upd i (fun p => set_p_name (kthread_name ++ drop 7 (p_name p)) p) in
        do! upd i (set_p_is_process false) in
        do! upd i (set_p_state RUNNABLE) in
        ret (Some i)) s = Ok (o, s')) in E.
  destruct (alloc_stack_spec _ _ _ _ Hm E) as [(_ & Hu & HmA & HkA)|(np & c & s1 & N & (l & owns & use & I & Hc1 & Hc2 & Hc3) & Eg)].
  { split; [|split; [by intros j w _ _ va _; rewrite HkA|by rewrite (used_same_view _ _ Hu)]]. split; [by rewrite (used_same_view _ _ Hu)|by eapply kinds_used_same]. }
  destruct N as [N1 N2 N3 N4 N5 N6 N7]. apply upd_step in Eg as (s2 & T2 & M2 & Eg). apply upd_step in Eg as (s3 & T3 & M3 & Eg).
  apply upd_step in Eg as (s4 & T4 & M4 & Eg). apply upd_step in Eg as (s5 & T5 & M5 & Eg). unfold ret in Eg. injection Eg as <- <-.
  assert (M : k_rest s5 = k_rest s1) by congruence.
  assert (Told : forall j, j <> np -> slots (k_tab s5) j = slots (k_tab s) j) by (intros j Hj; rewrite T5, T4, T3, T2, !upd_ne by done; by apply N5).
  assert (Hnp : exists root sz, view (slots (k_tab s5) np) = Some (View false root c sz) /\ p_state (slots (k_tab s5) np) = RUNNABLE).
  { rewrite T5, T4, T3, T2, !upd_eq. eexists _, _. unfold view, in_use, is_state. cbn. by rewrite N4. }
  destruct Hnp as (root & sz & Hnp & Hst).
  assert (Hv : tview (k_tab s5) = <[np := Some (View false root c sz)]> (tview (k_tab s))).
  { apply functional_extensionality. intros j. unfold tview. destruct (decide (j = np)) as [->|Hj]; [by rewrite fn_lookup_insert|].
    by rewrite fn_lookup_insert_ne, Told. }
  split; [split|split].
  - rewrite Hv. unfold sys_mem. rewrite M. eexists l, owns, _. eapply add_thread; try done. by apply unused_view.
  - intros j. destruct (decide (j = np)) as [->|Hj]; [rewrite Hst; done|rewrite Told by done; apply Hk].
  - intros j w _ _ va _. by rewrite M, N7.
  - intros j w Hw. rewrite Hv, fn_lookup_insert_ne; [done|]. intros <-. unfold tview in Hw. by rewrite unused_view in Hw.
Qed.

(** ** Every step of the kernel *)

Definition with_tab (f : ptable -> ptable) (s : sys) : sys := Kernel (f (k_tab s)) (k_mmu s) (k_first s) (k_rest s).

(** A store of one byte by the program of slot [me], through its page table. *)
Definition user_store (me : nat) (va b : Z) (s : sys) : sys :=
  let root := p_pgdir (slots (k_tab s) me) in
  let k := (k_rest s).1 in
  Kernel (k_tab s) (k_mmu s) (k_first s)
    (set_mem (wr_bytes (km_mem k) (frame root (km_mem k) va + va mod 4096) [b]) k, (k_rest s).2).

(** The steps, with the slot that makes them; [kpml4] is the kernel's page table. *)
Inductive mstep (kpml4 : Z) : option nat -> sys -> sys -> Prop :=
  | m_fork me s r s' : p_state (slots (k_tab s) me) = RUNNING -> p_is_process (slots (k_tab s) me) = true ->
      fork me s = Ok (r, s') -> mstep kpml4 (Some me) s s'
  | m_exit me s s' : p_state (slots (k_tab s) me) = RUNNING -> p_is_process (slots (k_tab s) me) = true ->
      exit me s = Ok (tt, s') -> mstep kpml4 (Some me) s s'
  | m_wait me s r s' : p_state (slots (k_tab s) me) = RUNNING -> wait me s = Ok (r, s') -> mstep kpml4 (Some me) s s'
  | m_growproc me n s r s' : p_state (slots (k_tab s) me) = RUNNING -> p_is_process (slots (k_tab s) me) = true ->
      0 < p_sz (slots (k_tab s) me) + n <= 140737488355328 - 4096 -> growproc me n s = Ok (r, s') -> mstep kpml4 (Some me) s s'
  | m_store me va b s : p_state (slots (k_tab s) me) = RUNNING -> p_is_process (slots (k_tab s) me) = true -> user_va va ->
      user_page (p_pgdir (slots (k_tab s) me)) (km_mem (k_rest s).1) va = true -> mstep kpml4 (Some me) s (user_store me va b s)
  | m_sleep me c s : p_state (slots (k_tab s) me) = RUNNING -> mstep kpml4 (Some me) s (with_tab (go_to_sleep me c) s)
  | m_tidy me s : p_state (slots (k_tab s) me) = RUNNING -> mstep kpml4 (Some me) s (with_tab (tidy_up me) s)
  | m_yield me s : p_state (slots (k_tab s) me) = RUNNING -> mstep kpml4 (Some me) s (with_tab (yield_locked me) s)
  | m_exitkth me s : p_state (slots (k_tab s) me) = RUNNING -> p_is_process (slots (k_tab s) me) = false ->
      mstep kpml4 (Some me) s (with_tab (exitkth_locked me) s)
  | m_wakeup c s : mstep kpml4 None s (with_tab (wakeup1 c) s)
  | m_kill pid s : mstep kpml4 None s (with_tab (fun t => (kill pid t).2) s)
  | m_startkth a s o s' : startkth a s = Ok (o, s') -> mstep kpml4 None s s'
  | m_run c s e s' : scheduler_run c s = Ok (e, s') -> mstep kpml4 None s s'
  | m_return c s c' s' : scheduler_return kpml4 c s = Ok (c', s') -> mstep kpml4 None s s'.

(** The memory of every process that is not [who] and has not exited. *)
Definition same_but (who : option nat) (s s' : sys) : Prop := forall j w, who <> Some j ->
  view (slots (k_tab s) j) = Some w -> v_proc w = true -> p_state (slots (k_tab s) j) <> ZOMBIE ->
  view (slots (k_tab s') j) = Some w /\ same_image w (k_rest s).1 (k_rest s').1.

Lemma views_same who s s' : tview (k_tab s') = tview (k_tab s) -> same_images (tview (k_tab s)) s s' -> same_but who s s'.
Proof.
  intros Hv Hi j w _ Hw Hp _. assert (E : view (slots (k_tab s') j) = view (slots (k_tab s) j)) by (apply (f_equal (fun v => v j) Hv)).
  rewrite E. split; [done|]. by apply (Hi j w).
Qed.
Lemma tab_tame f who s : sys_inv s -> (forall j, tame (slots (k_tab s) j) (slots (f (k_tab s)) j)) -> sys_inv (with_tab f s) /\ same_but who s (with_tab f s).
Proof.
  intros [Hm Hk] Ht. split; [eapply tame_table; done|]. apply views_same; [|by intros j w _ _ va _].
  apply functional_extensionality. intros j. apply Ht.
Qed.
Lemma upd_state_tame me st t : p_state (slots t me) = RUNNING \/ p_state (slots t me) = RUNNABLE \/ p_state (slots t me) = SLEEPING ->
  st = RUNNING \/ st = RUNNABLE \/ st = SLEEPING -> forall j, tame (slots t j) (slots (upd_slot me (set_p_state st) t) j).
Proof.
  intros Hs Hst j. destruct (decide (j = me)) as [->|Hj]; [rewrite upd_eq|by rewrite upd_ne].
  apply tame_state; [|by intros ->; naive_solver..]. unfold in_use, is_state. by destruct Hs as [->|[->| ->]].
Qed.
Lemma sleep_tame me c t : p_state (slots t me) = RUNNING -> forall j, tame (slots t j) (slots (go_to_sleep me c t) j).
Proof.
  intros Hr j. unfold go_to_sleep. eapply tame_trans; [apply (upd_tame me (set_p_chan c)); done|].
  apply upd_state_tame; [rewrite upd_eq; by left|auto].
Qed.
Lemma kill_tame pid t j : tame (slots t j) (slots (kill pid t).2 j).
Proof.
  unfold kill. destruct (scan _ _ _ _) as [i|]; [|done]. cbn [snd].
  assert (H1 : forall j, tame (slots t j) (slots (upd_slot i (set_p_killed true) t) j)) by (apply upd_tame; done).
  destruct (is_state SLEEPING _) eqn:E; [|apply H1]. apply is_state_true in E. eapply tame_trans; [apply H1|]. apply upd_state_tame; auto.
Qed.
Lemma exitkth_mem me s : sys_inv s -> p_state (slots (k_tab s) me) = RUNNING -> p_is_process (slots (k_tab s) me) = false ->
  sys_inv (with_tab (exitkth_locked me) s) /\ same_but (Some me) s (with_tab (exitkth_locked me) s).
Proof.
  intros [Hm Hk] Hr Hp. assert (Hv : tview (exitkth_locked me (k_tab s)) = tview (k_tab s)).
  { apply functional_extensionality. intros j. unfold tview, exitkth_locked. destruct (decide (j = me)) as [->|Hj]; [|by rewrite upd_ne].
    rewrite upd_eq, (used_view _ Hr). done. }
  split; [split|].
  - cbn [k_tab with_tab]. by rewrite Hv.
  - intros j. cbn [k_tab with_tab]. unfold exitkth_locked. destruct (decide (j = me)) as [->|Hj]; [|rewrite upd_ne by done; apply Hk].
    rewrite upd_eq. cbn. by rewrite Hp.
  - apply views_same; [done|]. by intros j w _ _ va _.
Qed.

Lemma store_mem me va b s : sys_inv s -> p_state (slots (k_tab s) me) = RUNNING -> p_is_process (slots (k_tab s) me) = true -> user_va va ->
  user_page (p_pgdir (slots (k_tab s) me)) (km_mem (k_rest s).1) va = true ->
  sys_inv (user_store me va b s) /\ same_but (Some me) s (user_store me va b s).
Proof.
  intros [(l & owns & use & I) Hk] Hr Hp Hva Hu. set (p := slots (k_tab s) me) in *. set (w := View true (p_pgdir p) (p_kstack p) (p_sz p)).
  assert (Hw : tview (k_tab s) me = Some w) by (unfold tview; fold p; rewrite (used_view _ Hr), Hp; done).
  pose proof (mi_space _ _ _ _ _ _ _ I me w Hw eq_refl) as Is. cbn [v_root w] in Is.
  apply andb_true_iff in Hu as [Hpr _].
  destruct (write_frame kend (p_pgdir p) _ l (owns me) va [b] Is Hva Hpr) as (I1 & _ & U1 & K1); [pose proof (Z.mod_pos_bound va 4096); cbn; lia|].
  set (m' := wr_bytes _ _ [b]) in *.
  assert (Him : image_ok (p_pgdir p) (p_sz p) m').
  { destruct (mi_image _ _ _ _ _ _ _ I me w Hw eq_refl) as [S1 S2 S3]. cbn [v_root v_size w] in *. 
    assert (Hnone : forall va', user_va va' -> uspace (p_pgdir p) m' va' = None <-> uspace (p_pgdir p) (km_mem (k_rest s).1) va' = None).
    { intros va' Hv'. rewrite U1 by done. destruct (in_range_spec va (Z.of_nat (length [b])) va') as [R|R]; [|done].
      assert (va' = va) as -> by (cbn in R; lia). unfold uspace. by rewrite Hpr. }
    split; [done| |].
    - intros va' H'. rewrite Hnone; [by apply S2|]. unfold user_va, PGSIZE in *. lia.
    - intros va' H' H''. apply Hnone; [done|]. by apply S3. }
  destruct (resize_slot kend _ _ _ l owns use me w (set_mem m' (k_rest s).1) l (owns me) (p_sz p) I Hw eq_refl I1 Him eq_refl) as [I2 S2].
  { eapply keeps_mono; [|exact K1]. unfold pages_of. clear. set_solver. }
  change (View true (v_root w) (v_stack w) (p_sz p)) with w in I2. rewrite (fn_insert_id _ _ _ Hw) in I2.
  split; [split; [by eexists _, _, _|done]|]. intros j w' Hj Hw' Hp' _. split; [done|]. apply (S2 j w'); [congruence|done|done].
Qed.

Lemma run_mem c s e s' : sys_inv s -> scheduler_run c s = Ok (e, s') -> sys_inv s' /\ same_but None s s'.
Proof.
  intros Hs E. unfold scheduler_run in E. unfold bind at 1, get in E.
  assert (Hsame : sys_inv s /\ same_but None s s) by (split; [done|by apply views_same; [|apply same_images_refl]]).
  unfold scheduler_visit in E. destruct (sc_pos c <? NPROC)%nat; [|by destruct (_ <? _); injection E as <- <-].
  destruct (is_state RUNNABLE _) eqn:Hr; [|by injection E as <- <-]. apply is_state_true in Hr. apply proc_step in E.
  apply bind_Ok_inv in E as ([] & s1 & E1 & E). unfold tab, modify, ret, bind in E. injection E as _ <-.
  assert (k_tab s1 = k_tab s /\ k_rest s1 = k_rest s) as [T1 M1].
  { destruct (p_is_process _); [|by injection E1 as <-]. unfold switchuvm in E1. apply proc_step in E1.
    destruct (_ =? 0); [done|]. unfold modify in E1. by injection E1 as <-. }
  destruct (tab_tame (upd_slot (sc_pos c) (set_p_state RUNNING)) None s Hs) as [H1 H2]; [apply upd_state_tame; auto|].
  unfold sys_inv, sys_mem, same_but in *. cbn [k_tab k_rest with_tab] in *. by rewrite M1.
Qed.

Lemma return_mem kpml4 c s c' s' : sys_inv s -> scheduler_return kpml4 c s = Ok (c', s') -> sys_inv s' /\ same_but None s s'.
Proof.
  intros Hs E. unfold scheduler_return in E. unfold bind at 1, modify in E. set (s1 := Kernel _ _ _ _) in E. unfold bind at 1, get in E.
  change (k_tab s1) with (k_tab s) in E.
  assert (Hid : forall t, (t = k_tab s) -> (do! ret tt in do! tab (fun _ => t) in ret c') s1 = Ok (c', s') -> sys_inv s' /\ same_but None s s').
  { intros t -> E'. unfold bind, ret, tab, modify in E'. injection E' as <-. split; [done|]. apply views_same; [done|]. by intros j w _ _ va _. }
  unfold scheduler_back in E. destruct (sc_proc c) as [i|]; [|apply (Hid _ eq_refl); by injection E as <- <-].
  destruct (is_state KZOMBIE _) eqn:Hz; [|apply (Hid _ eq_refl); by injection E as <- <-]. apply is_state_true in Hz. clear Hid.
  destruct Hs as [(l & owns & use & I) Hk]. set (q := slots (k_tab s) i) in *. set (w := View false (p_pgdir q) (p_kstack q) (p_sz q)).
  assert (Hw : tview (k_tab s) i = Some w) by (unfold tview, view, in_use, is_state; fold q; rewrite Hz; cbn; by rewrite (proj2 (Hk i) Hz : p_is_process q = false)).
  destruct (thread_free kend Hend _ _ _ _ _ _ i w I Hw eq_refl) as (k1 & l' & use' & E1 & I' & S'). cbn [v_stack w] in E1.
  apply kmem_step in E as ([] & k2 & s2 & E2 & T2 & M2 & E). change (k_rest s1) with (k_rest s) in *. rewrite E1 in E2. injection E2 as <-.
  unfold bind, ret, tab, modify in E. injection E as _ <-.
  assert (Hv : tview (upd_slot i reap_kth (k_tab s)) = <[i := None]> (tview (k_tab s))).
  { apply functional_extensionality. intros j. unfold tview. destruct (decide (j = i)) as [->|Hj]; [by rewrite fn_lookup_insert, upd_eq|].
    by rewrite fn_lookup_insert_ne, upd_ne. }
  split; [split|].
  - cbn [k_tab]. rewrite Hv. unfold sys_mem. cbn [k_rest]. rewrite M2. by eexists _, _, _.
  - intros j. cbn [k_tab]. destruct (decide (j = i)) as [->|Hj]; [by rewrite upd_eq|rewrite upd_ne by done; apply Hk].
  - intros j w' _ Hw' Hp' _. cbn [k_tab k_rest]. assert (Hj : j <> i) by (intros ->; unfold tview in Hw; rewrite Hw in Hw'; injection Hw' as <-; done).
    rewrite upd_ne by done. split; [done|]. rewrite M2. by apply (S' j w').
Qed.

Lemma step_mem kpml4 who s s' : sys_inv s -> mstep kpml4 who s s' -> sys_inv s' /\ same_but who s s'.
Proof.
  intros I0 E0. revert I0. destruct E0 as [me a r a' Hr Hp E|me a a' Hr Hp E|me a r a' Hr E|me n a r a' Hr Hp Hn E|me va b a Hr Hp Hva Hu|me c a Hr|me a Hr|me a Hr|me a Hr Hp
    |c a|pid a|t a o a' E|c a e a' E|c a c' a' E]; intros I.
  - destruct (fork_spec me a a' r I Hr Hp E) as (I' & Si & H). split; [done|]. destruct H as [[_ Hu]|(np & w & Hnp & Hv & _)].
    + apply views_same; [by apply used_same_view|done].
    + intros j w' _ Hw' Hp' _. split; [|by apply (Si j w')]. change (tview (k_tab a') j = Some w'). rewrite Hv, fn_lookup_insert_ne; [done|].
      intros <-. unfold tview in Hnp. by rewrite Hnp in Hw'.
  - destruct (exit_spec me a a' I Hr Hp E) as (I' & Si & Hv). split; [done|]. by apply views_same.
  - destruct (wait_spec me a a' r I Hr E) as (I' & H). split; [done|]. intros j w _. apply H.
  - destruct (growproc_spec me n a a' r I Hr Hp Hn E) as (I' & H & _). split; [done|]. intros j w Hj. apply H. congruence.
  - by apply store_mem.
  - apply tab_tame; [done|]. by apply sleep_tame.
  - apply tab_tame; [done|]. by apply upd_tame.
  - apply tab_tame; [done|]. apply upd_state_tame; auto.
  - by apply exitkth_mem.
  - apply tab_tame; [done|]. intros j. apply wakeup1_tame.
  - apply tab_tame; [done|]. intros j. apply kill_tame.
  - destruct (startkth_spec t a a' o I E) as (I' & Si & H). split; [done|]. intros j w _ Hw Hp _. split; [by apply (H j w)|by apply (Si j w)].
  - by eapply run_mem.
  - by eapply return_mem.
Qed.

Lemma steps_mem kpml4 s s' : sys_inv s -> rtc (fun a b => exists who, mstep kpml4 who a b) s s' -> sys_inv s'.
Proof. intros I H. induction H as [|a b c [who E] _ IH]; [done|]. apply IH. by eapply step_mem. Qed.

(** No page of memory has two uses, and every process has the memory of its size. *)
Definition is_proc (s : sys) (i : nat) (w : slotview) : Prop := view (slots (k_tab s) i) = Some w /\ v_proc w = true.
Definition page_of (s : sys) (w : slotview) (va : Z) (c : Z) : Prop :=
  user_va va /\ present (pteval (v_root w) (km_mem (k_rest s).1) va) = true /\ c = frame (v_root w) (km_mem (k_rest s).1) va.
Record apart (s : sys) : Prop := {
  ap_image : forall i w, is_proc s i w -> image_ok (v_root w) (v_size w) (km_mem (k_rest s).1);
  ap_frames : forall i j w w' va va' c, is_proc s i w -> is_proc s j w' -> page_of s w va c -> page_of s w' va' c ->
    i = j /\ va / 4096 = va' / 4096;
  ap_stacks : forall i j w w', view (slots (k_tab s) i) = Some w -> view (slots (k_tab s) j) = Some w' -> v_stack w = v_stack w' -> i = j;
  ap_frame_stack : forall i j w w' va, is_proc s i w -> view (slots (k_tab s) j) = Some w' -> ~ page_of s w va (v_stack w');
  ap_free : exists l, kalloc_inv kend (k_rest s).1 l /\ forall c, c ∈ l ->
    c ∉ fpages (k_rest s).2 /\ (forall j w, view (slots (k_tab s) j) = Some w -> v_stack w <> c) /\
    (forall i w va, is_proc s i w -> ~ page_of s w va c);
  ap_files : forall c, c ∈ fpages (k_rest s).2 -> (forall j w, view (slots (k_tab s) j) = Some w -> v_stack w <> c) /\
    (forall i w va, is_proc s i w -> ~ page_of s w va c);
}.

Lemma inv_apart s : sys_inv s -> apart s.
Proof.
  intros [(l & owns & use & I) _].
  assert (Hf : forall i w va c, is_proc s i w -> page_of s w va c -> owns i !! c = Some (O, va / 4096) /\ use c = Some (TSpace i)).
  { intros i w va c [Hw Hp] (Hva & Hpr & ->). pose proof (mi_space _ _ _ _ _ _ _ I i w Hw Hp) as Is.
    pose proof (frame_own _ _ _ _ _ _ Is Hva Hpr) as Ho. split; [done|]. apply (mi_tag _ _ _ _ _ _ _ I). exists w. do 2 (split; [done|]). by apply elem_of_dom_2 in Ho. }
  assert (Hst : forall i w, view (slots (k_tab s) i) = Some w -> use (v_stack w) = Some (TStack i)).
  { intros i w Hw. apply (mi_stack _ _ _ _ _ _ _ I). by exists w. }
  assert (Hfi : forall c, c ∈ fpages (k_rest s).2 -> use c = Some TFile) by (intros c Hc; by apply (mi_files _ _ _ _ _ _ _ I)).
  split.
  - intros i w [Hw Hp]. by apply (mi_image _ _ _ _ _ _ _ I i w).
  - intros i j w w' va va' c Hi Hj Hc Hc'. destruct (Hf _ _ _ _ Hi Hc) as [O1 U1], (Hf _ _ _ _ Hj Hc') as [O2 U2].
    assert (i = j) as -> by congruence. split; [done|]. congruence.
  - intros i j w w' Hi Hj E. apply Hst in Hi, Hj. rewrite E in Hi. congruence.
  - intros i j w w' va Hi Hj Hc. destruct (Hf _ _ _ _ Hi Hc) as [_ U1]. apply Hst in Hj. congruence.
  - exists l. split; [apply I|]. intros c Hc. apply (mi_free _ _ _ _ _ _ _ I) in Hc. split; [intros H%Hfi; congruence|]. split.
    + intros j w Hj <-. apply Hst in Hj. congruence.
    + intros i w va Hi Hp. destruct (Hf _ _ _ _ Hi Hp) as [_ U1]. congruence.
  - intros c Hc%Hfi. split.
    + intros j w Hj <-. apply Hst in Hj. congruence.
    + intros i w va Hi Hp. destruct (Hf _ _ _ _ Hi Hp) as [_ U1]. congruence.
Qed.
End Calls.

Arguments FileLaws {F} {fo} kend fpages.

(** ** Theorems *)


(** C7: [fork] on the bytes of memory.  Whatever happened before, [fork] returns -1 and every process has the memory it had, or
    a slot that was free is a new process with the parent's size, whose pages from the second one up hold the parent's
    bytes with the parent's permissions, in frames of its own. *)
Theorem fork_copies_memory {F} {fo : FileOps F} kend kpdpt initcode (fpages : F -> gset Z) kpml4 me r (s0 s s' : kernel (kmem * F)) :
  KERNBASE < kend -> FileLaws kend fpages -> sys_inv kend fpages s0 ->
  rtc (fun a b => exists who, mstep kend kpdpt initcode kpml4 who a b) s0 s ->
  p_state (slots (k_tab s) me) = RUNNING -> p_is_process (slots (k_tab s) me) = true -> fork (H := vm_ops kend kpdpt initcode) me s = Ok (r, s') ->
  let p := slots (k_tab s) me in
  apart kend fpages s' /\
  (forall j w, view (slots (k_tab s) j) = Some w -> v_proc w = true -> same_image w (k_rest s).1 (k_rest s').1) /\
  ((r = -1 /\ forall j, view (slots (k_tab s') j) = view (slots (k_tab s) j)) \/
   exists np w, view (slots (k_tab s) np) = None /\ view (slots (k_tab s') np) = Some w /\
     (forall j, j <> np -> view (slots (k_tab s') j) = view (slots (k_tab s) j)) /\ v_proc w = true /\ v_size w = p_sz p /\
     forall va, user_va va -> uspace (v_root w) (km_mem (k_rest s').1) va =
       if decide (page_in PGSIZE (p_sz p) va) then uspace (p_pgdir p) (km_mem (k_rest s).1) va else None).
Proof.
  intros Hend Hl I Hs Hr Hp E p. pose proof (steps_mem kend kpdpt initcode Hend fpages kpml4 s0 s I Hs) as I1.
  destruct (fork_spec kend kpdpt initcode Hend fpages me s s' r I1 Hr Hp E) as (I2 & Si & H). split; [by apply inv_apart|]. split; [exact Si|].
  destruct H as [[-> Hu]|(np & w & Hn & Hv & H)]; [left; split; [done|]; intros j; apply (f_equal (fun v => v j) (used_same_view s s' Hu))|right].
  assert (Hj : forall j, view (slots (k_tab s') j) = (<[np := Some w]> (tview (k_tab s))) j) by (intros j; apply (f_equal (fun v => v j) Hv)).
  exists np, w. split; [done|]. split; [by rewrite Hj, fn_lookup_insert|]. split; [|done]. intros j Hne. by rewrite Hj, fn_lookup_insert_ne.
Qed.

(** ** Instances *)

(** No open files. *)
Definition no_files : FileOps unit := {|
  fo_filedup x := ret x;
  fo_fileclose _ := ret tt;
  fo_idup x := ret x;
  fo_iput _ := ret tt;
  fo_begin_op := ret tt;
  fo_end_op := ret tt;
  fo_namei _ := ret 0;
|}.
Lemma no_files_laws kend : FileLaws (fo := no_files) kend (fun _ => ∅).
Proof. split; intros; intros k f l a k' f' Ik Hd Ho [= _ <- <-]; exists l; (do 3 (split; [done|])); apply keeps_refl. Qed.

(** One process, of size 0, whose kernel stack is the page [stack0]. *)
Definition stack0 : Z := page_at 50.
Definition one_proc : proc :=
  set_p_is_process true (set_p_state RUNNING (set_p_kstack stack0 (set_p_pgdir root0 (set_p_pid 1 proc0)))).
Definition one_sys : kernel (kmem * unit) :=
  Kernel (PTable (<[O := one_proc]> (fun _ => proc0)) 2 (Some O)) (Mmu 0 0) false (kmem_n 20, tt).

Lemma one_view i : view (slots (k_tab one_sys) i) = if decide (i = O) then Some (View true root0 stack0 0) else None.
Proof. cbn [k_tab one_sys slots]. case_decide as H; [subst; by rewrite fn_lookup_insert|by rewrite fn_lookup_insert_ne by done]. Qed.

Lemma one_inv : sys_inv kend0 (fun _ => ∅) one_sys.
Proof.
  destruct (kmem_n_pt 20) as [I U]; [lia|lia|vm_compute; reflexivity|].
  assert (Hn : root0 <> stack0) by (unfold root0, stack0, page_at; lia).
  assert (Hfree : forall c, c ∈ free_n 20 -> c <> root0 /\ c <> stack0).
  { intros c (i & -> & Hi%idx_in)%list_elem_of_fmap. unfold root0, stack0, page_at. lia. }
  split; [|intros i; cbn [k_tab one_sys slots]; destruct (decide (i = O)) as [->|Hi]; [by rewrite fn_lookup_insert|by rewrite fn_lookup_insert_ne by done]].
  exists (free_n 20), (fun _ => {[root0 := (4%nat, 0)]}), (fun c => if decide (c = root0) then Some (TSpace O) else if decide (c = stack0) then Some (TStack O) else None).
  cbn [k_rest one_sys fst snd]. split.
  - apply I.
  - intros c Hc%Hfree. by rewrite !decide_False by tauto.
  - intros c x Hx. destruct (decide (c = root0)) as [->|]; [apply kend0_page_ok|]. destruct (decide (c = stack0)) as [->|]; [by apply page_at_ok|done].
  - intros i w Hi _. unfold tview in Hi. rewrite one_view in Hi. case_decide; [|done]. by injection Hi as <-.
  - intros i w Hi _. unfold tview in Hi. rewrite one_view in Hi. case_decide; [|done]. injection Hi as <-. split; [cbn; lia|cbn; unfold PGSIZE; lia|].
    intros va _ _. apply U.
  - intros i c. unfold tview. rewrite one_view. split.
    + intros X. destruct (decide (c = root0)) as [->|]; [|destruct (decide (c = stack0)); discriminate X].
      injection X as <-. rewrite decide_True by reflexivity. eexists. split; [reflexivity|]. split; [reflexivity|]. by rewrite dom_singleton_L, elem_of_singleton.
    + intros (w & Hw & _ & Hc). rewrite dom_singleton_L, elem_of_singleton in Hc. subst c. rewrite decide_True by reflexivity. destruct (decide (i = O)) as [->|]; [reflexivity|discriminate Hw].
  - intros i c. unfold tview. rewrite one_view. split.
    + intros X. destruct (decide (c = root0)); [discriminate X|]. destruct (decide (c = stack0)) as [->|]; [|discriminate X].
      injection X as <-. rewrite decide_True by reflexivity. eexists. split; reflexivity.
    + intros (w & Hw & ->). destruct (decide (i = O)) as [->|]; [|discriminate Hw]. injection Hw as <-. cbn [v_stack].
      rewrite decide_False by (intros X; by apply Hn). by rewrite decide_True by reflexivity.
  - intros c. split; intros X; [destruct (decide (c = root0)), (decide (c = stack0)); discriminate X|by apply elem_of_empty in X].
Qed.

(** It grows by two pages and forks. *)
Definition demo_ops : KernelOps (kmem * unit) := vm_ops kend0 0 [] (H := no_files).
Definition grow_one (s : kernel (kmem * unit)) : res (Z * kernel (kmem * unit)) := growproc (H := demo_ops) 0 5000 s.
Definition fork_one (s : kernel (kmem * unit)) : res (Z * kernel (kmem * unit)) := fork (H := demo_ops) 0 s.
Definition ready0 (s : kernel (kmem * unit)) : bool := is_state RUNNING (slots (k_tab s) 0) && p_is_process (slots (k_tab s) 0).
Definition demo_check (s0 : kernel (kmem * unit)) : bool :=
  match grow_one s0 with
  | Ok (r, s) =>
      match fork_one s with
      | Ok (r', s') =>
          (r =? 0) && (r' =? 2) && ready0 s && (p_sz (slots (k_tab s) 0) =? 5000) && ready0 s' &&
          user_page (p_pgdir (slots (k_tab s') 0)) (km_mem (k_rest s').1) 4096 &&
          is_state RUNNABLE (slots (k_tab s') 1) && p_is_process (slots (k_tab s') 1)
      | _ => false
      end
  | _ => false
  end.
Lemma demo_checks : demo_check one_sys = true.
Proof. vm_compute. reflexivity. Qed.

Record demo_run (s0 s s' : kernel (kmem * unit)) : Prop := {
  dr_grow : grow_one s0 = Ok (0, s);
  dr_fork : fork_one s = Ok (2, s');
  dr_run : p_state (slots (k_tab s) 0) = RUNNING;
  dr_proc : p_is_process (slots (k_tab s) 0) = true;
  dr_sz : p_sz (slots (k_tab s) 0) = 5000;
  dr_run' : p_state (slots (k_tab s') 0) = RUNNING;
  dr_proc' : p_is_process (slots (k_tab s') 0) = true;
  dr_page : user_page (p_pgdir (slots (k_tab s') 0)) (km_mem (k_rest s').1) 4096 = true;
  dr_child : view (slots (k_tab s') 1) = Some (View true (p_pgdir (slots (k_tab s') 1)) (p_kstack (slots (k_tab s') 1)) (p_sz (slots (k_tab s') 1)));
  dr_alive : p_state (slots (k_tab s') 1) <> ZOMBIE;
}.
Lemma demo_states s0 : demo_check s0 = true -> exists s s', demo_run s0 s s'.
Proof.
  unfold demo_check. destruct (grow_one s0) as [[r s]| | |] eqn:E1; try discriminate. destruct (fork_one s) as [[r' s']| | |] eqn:E2; try discriminate.
  intros X. apply andb_true_iff in X as [X X8]. apply andb_true_iff in X as [X X7]. apply andb_true_iff in X as [X X6]. apply andb_true_iff in X as [X X5].
  apply andb_true_iff in X as [X X4]. apply andb_true_iff in X as [X X3]. apply andb_true_iff in X as [X1 X2].
  apply Z.eqb_eq in X1, X2, X4. apply andb_true_iff in X3 as [X3 X3'], X5 as [X5 X5']. apply is_state_true in X3, X5, X7. subst r r'.
  exists s, s'. split; try assumption; [|by rewrite X7]. unfold view, in_use, is_state. by rewrite X7, X8.
Qed.
Lemma demo_grown s0 s s' : p_state (slots (k_tab s0) 0) = RUNNING -> p_is_process (slots (k_tab s0) 0) = true -> p_sz (slots (k_tab s0) 0) = 0 ->
  demo_run s0 s s' -> rtc (fun a b => exists who, mstep (fo := no_files) kend0 0 [] 0 who a b) s0 s.
Proof.
  intros Hr Hp Hs D. apply rtc_once. exists (Some O). apply (m_growproc (fo := no_files) kend0 0 [] 0 O 5000 s0 0 s Hr Hp); [rewrite Hs; lia|].
  exact (dr_grow _ _ _ D).
Qed.


Lemma fork_copies_memory_witness :
  exists s s' np w, demo_run one_sys s s' /\ view (slots (k_tab s) np) = None /\ view (slots (k_tab s') np) = Some w /\
    forall va, user_va va -> uspace (v_root w) (km_mem (k_rest s').1) va =
      if decide (page_in PGSIZE 5000 va) then uspace (p_pgdir (slots (k_tab s) 0)) (km_mem (k_rest s).1) va else None.
Proof.
  destruct (demo_states one_sys demo_checks) as (s & s' & D).
  destruct (fork_copies_memory kend0 0 [] (fun _ => ∅) 0 O 2 one_sys s s' kend0_above (no_files_laws kend0) one_inv
    (demo_grown one_sys s s' eq_refl eq_refl eq_refl D) (dr_run _ _ _ D) (dr_proc _ _ _ D) (dr_fork _ _ _ D))
    as (_ & _ & [[Hr _]|(np & w & H1 & H2 & _ & _ & _ & Hu)]); [discriminate Hr|].
  rewrite (dr_sz _ _ _ D) in Hu. exists s, s', np, w. split; [exact D|]. split; [exact H1|]. split; [exact H2|exact Hu].
Defined.
