(* ===== verification/Syscall.v ===== *)
(** * System calls and traps: syscall.c, sysproc.c, trap.c

    Fetching and checking the arguments of a system call, the calls about
    processes and time, the dispatch of a call, and the handler of interrupts
    and exceptions.  A call that sleeps or that ends its process says so in its
    result: the process goes on at that point when it is scheduled again, or
    not at all. *)
From S2P Require Import Prelude Memory Proc.

(** ** Arguments *)

Section Args.
Variables (m : mem) (sz : Z) (tf : trapframe).   (* the memory of the process, proc->sz, proc->tf *)

Definition fetchint (addr : Z) : option Z :=
  if (sz <=? addr) || (sz <? u64 (addr + 4)) then None else Some (s32 (load32 m addr)).

Definition fetchaddr (addr : Z) : option Z :=
  if (sz <=? addr) || (sz <? u64 (addr + 8)) then None else Some (load64 m addr).

(** The loop of [fetchstr] from [s] on, with [n] bytes up to [ep]. *)
Fixpoint find_nul (n : nat) (s : Z) : option Z :=
  match n with
  | O => None
  | S n => if rd m s =? 0 then Some s else find_nul n (s + 1)
  end.

(** [*pp] and the length. *)
Definition fetchstr (addr : Z) : option (Z * Z) :=
  if sz <=? addr then None
  else
    match find_nul (Z.to_nat (sz - addr)) addr with
    | Some s => Some (addr, s32 (s - addr))
    | None => None
    end.

Definition fetcharg (n : Z) : res Z :=
  if n =? 0 then Ok (tf RDI)
  else if n =? 1 then Ok (tf RSI)
  else if n =? 2 then Ok (tf RDX)
  else if n =? 3 then Ok (tf R10)
  else if n =? 4 then Ok (tf R8)
  else if n =? 5 then Ok (tf R9)
  else Panic "failed fetch".

Definition argint (n : Z) : res Z :=
  match fetcharg n with Ok a => Ok (s32 a) | Panic msg => Panic msg | Block => Block | Fuel => Fuel end.
Definition argaddr (n : Z) : res Z := fetcharg n.

(** [None] is -1.  The sum is of a [uint] and an [int], so a [uint]. *)
Definition argptr (n size : Z) : res (option Z) :=
  match argaddr n with
  | Ok i =>
      Ok (if (size <? 0) || (sz <=? u32 i) || (sz <? u32 (u32 i + size)) then None else Some i)
  | Panic msg => Panic msg
  | Block => Block
  | Fuel => Fuel
  end.

(** The [int] is extended to an [addr_t] with its sign. *)
Definition argstr (n : Z) : res (option (Z * Z)) :=
  match argint n with
  | Ok addr => Ok (fetchstr (u64 addr))
  | Panic msg => Panic msg
  | Block => Block
  | Fuel => Fuel
  end.
End Args.

(** ** Calls *)

Record sys (K : Type) : Type := Sys {
  s_kern : kernel K;
  s_ticks : Z;
}.
Arguments Sys {K}.
Arguments s_kern {K}.
Arguments s_ticks {K}.

Inductive callres : Type :=
  | Returns (r : Z)
  | Sleeps          (** off the CPU; the call goes on when it is woken *)
  | Exits.          (** the process is gone *)

Definition SYS_fork : Z := 1.
Definition SYS_exit : Z := 2.
Definition SYS_wait : Z := 3.
Definition SYS_kill : Z := 6.
Definition SYS_getpid : Z := 11.
Definition SYS_sbrk : Z := 12.
Definition SYS_sleep : Z := 13.
Definition SYS_uptime : Z := 14.
Definition NCALLS : Z := 23.   (* NELEM(syscalls) *)

Section Calls.
Context {K : Type} `{KernelOps K}.
Variable ticks_chan : Z.                                         (* &ticks *)
Variable sysfile : Z -> nat -> option (M (sys K) callres).       (* the calls of sysfile.c and sys_aread *)
Variable device : Z -> M (kernel K) unit.                        (* ideintr, kbdintr, uartintr by interrupt *)
(** The table declares every call to return an [addr_t]; most are defined to
    return an [int], of which the calling convention fixes the low half of
    [rax] only.  [widen r] is what is read from the whole register. *)
Variable widen : Z -> Z.

Definition kern {A} (c : M (kernel K) A) : M (sys K) A := fun s =>
  match c (s_kern s) with
  | Ok (a, k) => Ok (a, Sys k (s_ticks s))
  | Panic msg => Panic msg
  | Block => Block
  | Fuel => Fuel
  end.

Definition lift_res {A} (r : res A) : M (sys K) A := fun s =>
  match r with Ok a => Ok (a, s) | Panic msg => Panic msg | Block => Block | Fuel => Fuel end.

Definition the_tf (me : nat) : M (sys K) trapframe :=
  let! p := kern (the_proc me) in ret (p_tf p).

Definition sys_fork (me : nat) : M (sys K) callres :=
  let! pid := kern (fork me) in ret (Returns (widen pid)).

Definition sys_exit (me : nat) : M (sys K) callres :=
  do! kern (exit me) in ret Exits.

Definition sys_wait (me : nat) : M (sys K) callres :=
  let! r := kern (wait me) in
  ret (match r with Waited pid => Returns (widen pid) | WaitSleeps => Sleeps end).

Definition sys_kill (me : nat) : M (sys K) callres :=
  let! tf := the_tf me in
  let! pid := lift_res (argint tf 0) in
  let! s := get in
  let (r, t) := kill pid (k_tab (s_kern s)) in
  do! kern (tab (fun _ => t)) in
  ret (Returns (widen r)).

Definition sys_getpid (me : nat) : M (sys K) callres :=
  let! p := kern (the_proc me) in ret (Returns (widen (p_pid p))).

(** The argument is an [addr_t], the parameter of [growproc] an [int64]. *)
Definition sys_sbrk (me : nat) : M (sys K) callres :=
  let! tf := the_tf me in
  let! n := lift_res (argaddr tf 0) in
  let! p := kern (the_proc me) in
  let addr := p_sz p in
  let! r := kern (growproc me (s64 n)) in
  ret (Returns (if r <? 0 then -1 else addr)).

(** One turn of the loop of [sys_sleep]: the comparison is of [uint]s. *)
Definition sleep_turn (me : nat) (ticks0 n : Z) : M (sys K) callres :=
  let! s := get in
  if u32 (s_ticks s - ticks0) <? u32 n then
    let! p := kern (the_proc me) in
    if p_killed p then ret (Returns (widen (-1)))
    else do! kern (tab (go_to_sleep me (ChAddr ticks_chan))) in ret Sleeps
  else ret (Returns (widen 0)).

Definition sys_sleep (me : nat) : M (sys K) callres :=
  let! tf := the_tf me in
  let! n := lift_res (argint tf 0) in
  let! s := get in
  sleep_turn me (s_ticks s) n.

Definition sys_uptime (me : nat) : M (sys K) callres :=
  let! s := get in ret (Returns (widen (s32 (s_ticks s)))).

(** The table [syscalls]. *)
Definition syscalls (num : Z) (me : nat) : option (M (sys K) callres) :=
  if num =? SYS_fork then Some (sys_fork me)
  else if num =? SYS_exit then Some (sys_exit me)
  else if num =? SYS_wait then Some (sys_wait me)
  else if num =? SYS_kill then Some (sys_kill me)
  else if num =? SYS_getpid then Some (sys_getpid me)
  else if num =? SYS_sbrk then Some (sys_sbrk me)
  else if num =? SYS_sleep then Some (sys_sleep me)
  else if num =? SYS_uptime then Some (sys_uptime me)
  else sysfile num me.

Definition set_rax (me : nat) (v : Z) : M (sys K) unit :=
  kern (upd me (fun p => set_p_tf (<[RAX := u64 v]> (p_tf p)) p)).

(** The end of [syscall]; [Returns 0] is the [void] return. *)
Definition syscall_end (me : nat) : M (sys K) callres :=
  let! p := kern (the_proc me) in
  if p_killed p then do! kern (exit me) in ret Exits
  else ret (Returns 0).

Definition syscall (me : nat) (tf : trapframe) : M (sys K) callres :=
  let! p := kern (the_proc me) in
  if p_killed p then do! kern (exit me) in ret Exits
  else
    do! kern (upd me (set_p_tf tf)) in
    let num := tf RAX in
    match (if (0 <? num) && (num <? NCALLS) then syscalls num me else None) with
    | Some call =>
        let! r := call in
        match r with
        | Returns v => do! set_rax me v in syscall_end me
        | _ => ret r
        end
    | None => do! set_rax me (-1) in syscall_end me
    end.

(** ** Traps *)

Definition T_IRQ0 : Z := 32.
Definition IRQ_TIMER : Z := 0.
Definition IRQ_KBD : Z := 1.
Definition IRQ_COM1 : Z := 4.
Definition IRQ_IDE : Z := 14.
Definition IRQ_SPURIOUS : Z := 31.

Inductive trapres : Type :=
  | TReturn         (** back to what was interrupted *)
  | TYield          (** off the CPU; goes on with [trap_end] *)
  | TExit.          (** the process is gone *)

Definition from_user (cs : Z) : bool := Z.land cs 3 =? 3.

(** The test for a killed process that returns to user space. *)
Definition trap_end (proc : option nat) (cs : Z) : M (sys K) trapres :=
  match proc with
  | None => ret TReturn
  | Some me =>
      let! p := kern (the_proc me) in
      if p_killed p && from_user cs then do! kern (exit me) in ret TExit
      else ret TReturn
  end.

(** The [switch] on the trap number. *)
Definition trap_dispatch (cpu : Z) (proc : option nat) (trapno cs : Z) : M (sys K) unit :=
  if trapno =? T_IRQ0 + IRQ_TIMER then
    if cpu =? 0 then
      do! modify (fun s => Sys (s_kern s) (u32 (s_ticks s + 1))) in
      kern (tab (wakeup1 (ChAddr ticks_chan)))
    else ret tt
  else if (trapno =? T_IRQ0 + IRQ_IDE) || (trapno =? T_IRQ0 + IRQ_KBD) || (trapno =? T_IRQ0 + IRQ_COM1) then
    kern (device (trapno - T_IRQ0))
  else if (trapno =? T_IRQ0 + IRQ_IDE + 1) || (trapno =? T_IRQ0 + 7) || (trapno =? T_IRQ0 + IRQ_SPURIOUS) then
    ret tt
  else
    match proc with
    | None => panic "trap"
    | Some me =>
        if Z.land cs 3 =? 0 then panic "trap"
        else kern (upd me (set_p_killed true))
    end.

Definition trap (cpu : Z) (proc : option nat) (tf : trapframe) : M (sys K) trapres :=
  do! trap_dispatch cpu proc (tf TRAPNO) (tf CS) in
  let! r := trap_end proc (tf CS) in
  match r with
  | TReturn =>
      match proc with
      | None => ret TReturn
      | Some me =>
          let! p := kern (the_proc me) in
          if is_state RUNNING p && (tf TRAPNO =? T_IRQ0 + IRQ_TIMER) then
            do! kern (tab (yield_locked me)) in ret TYield
          else trap_end proc (tf CS)
      end
  | _ => ret r
  end.
End Calls.

(** ** Checked arguments *)

Lemma find_nul_spec m n : forall s r,
  find_nul m n s = Some r ->
  s <= r < s + Z.of_nat n /\ rd m r = 0 /\ forall k, s <= k < r -> rd m k <> 0.
Proof.
  induction n as [|n IH]; intros s r; cbn [find_nul]; [done|].
  destruct (Z.eqb_spec (rd m s) 0) as [E|E]; [intros [= <-]; split; [lia|]; split; [done|lia]|].
  intros (H1 & H2 & H3)%IH. split; [lia|]. split; [done|]. intros k Hk.
  destruct (decide (k = s)) as [->|]; [done|]. apply H3. lia.
Qed.

Lemma find_nul_None m n : forall s, find_nul m n s = None -> forall k, s <= k < s + Z.of_nat n -> rd m k <> 0.
Proof.
  induction n as [|n IH]; intros s; cbn [find_nul]; [lia|].
  destruct (Z.eqb_spec (rd m s) 0) as [E|E]; [done|]. intros Hn k Hk.
  destruct (decide (k = s)) as [->|]; [done|]. apply (IH (s + 1)); [done|lia].
Qed.

(** C39: what the kernel takes from a process's memory lies in it.  A fetched
    [int] or address is in bounds; a fetched string is terminated in bounds, has
    no zero byte before its end, and is refused exactly when the memory from its
    start on has no zero byte; a pointer argument below 4 GB passes exactly when
    its whole buffer is in the process. *)
Theorem args_checked (m : mem) (sz : Z) (tf : trapframe) (addr : Z) :
  0 <= sz < 2 ^ 31 -> 0 <= addr < 2 ^ 64 ->
  (forall v, fetchint m sz addr = Some v -> addr + 4 <= sz /\ v = s32 (load32 m addr)) /\
  (forall v, fetchaddr m sz addr = Some v -> addr + 8 <= sz /\ v = load64 m addr) /\
  match fetchstr m sz addr with
  | Some (p, len) => p = addr /\ 0 <= len /\ addr + len < sz /\ rd m (addr + len) = 0 /\
      forall k, 0 <= k < len -> rd m (addr + k) <> 0
  | None => forall k, addr <= k < sz -> rd m k <> 0
  end /\
  (forall n i size, fetcharg tf n = Ok i -> 0 <= i < 2 ^ 32 -> - 2 ^ 31 <= size < 2 ^ 31 ->
    argptr sz tf n size = Ok (if (0 <=? size) && (i <? sz) && (i + size <=? sz) then Some i else None)).
Proof.
  intros Hsz Ha. split; [|split; [|split]].
  - intros v. unfold fetchint. destruct (Z.leb_spec sz addr); [done|]. cbn [orb]. rewrite u64_small by lia.
    destruct (Z.ltb_spec sz (addr + 4)); [done|]. intros [= <-]. split; [lia|done].
  - intros v. unfold fetchaddr. destruct (Z.leb_spec sz addr); [done|]. cbn [orb]. rewrite u64_small by lia.
    destruct (Z.ltb_spec sz (addr + 8)); [done|]. intros [= <-]. split; [lia|done].
  - unfold fetchstr. destruct (Z.leb_spec sz addr) as [|Hlt]; [lia|].
    destruct (find_nul m (Z.to_nat (sz - addr)) addr) as [s|] eqn:E.
    + apply find_nul_spec in E as (H1 & H2 & H3). rewrite s32_small by lia. split; [done|]. split; [lia|].
      split; [lia|]. replace (addr + (s - addr)) with s by lia. split; [done|]. intros k Hk. apply H3. lia.
    + intros k Hk. apply (find_nul_None _ _ _ E). lia.
  - intros n i size Hf Hi Hs. unfold argptr, argaddr. rewrite Hf. f_equal. rewrite (u32_small i) by lia.
    destruct (Z.ltb_spec size 0), (Z.leb_spec 0 size); try lia; [done|]. cbn [orb andb].
    destruct (Z.leb_spec sz i), (Z.ltb_spec i sz); try lia; [done|]. cbn [orb andb].
    rewrite u32_small by lia. by destruct (Z.ltb_spec sz (i + size)), (Z.leb_spec (i + size) sz); try lia.
Qed.

Lemma args_checked_witness :
  fetchstr (<[10 := 104]> (<[11 := 105]> ∅)) 20 10 = Some (10, 2) /\ 10 + 2 < 20.
Proof.
  pose proof (args_checked (<[10 := 104]> (<[11 := 105]> ∅)) 20 (fun _ => 0) 10 ltac:(lia) ltac:(lia)) as (_ & _ & H & _).
  assert (E : fetchstr (<[10 := 104]> (<[11 := 105]> ∅)) 20 10 = Some (10, 2)) by reflexivity.
  rewrite E in H. split; [exact E|]. apply H.
Defined.

(** [argptr] looks at the low 32 bits of the pointer only and hands on all
    64: an address in the kernel's half of the address space passes the check
    of any process that has more than a page, so that a call like [read] stores
    where the process asks, in kernel memory. *)
Theorem argptr_accepts_kernel_address (sz size : Z) :
  4096 < sz < 2 ^ 31 -> 0 <= size <= sz - 4096 ->
  let kaddr := 18446603336221196288 + 4096 in   (* KERNBASE + PGSIZE *)
  argptr sz (fun _ => kaddr) 1 size = Ok (Some kaddr).
Proof.
  intros Hsz Hs kaddr. unfold argptr, argaddr, fetcharg. cbn [Z.eqb Pos.eqb].
  change (u32 kaddr) with 4096. f_equal. rewrite u32_small by lia.
  rewrite (proj2 (Z.ltb_ge size 0)), (proj2 (Z.leb_gt sz 4096)), (proj2 (Z.ltb_ge sz (4096 + size))) by lia. done.
Qed.

Lemma argptr_accepts_kernel_address_witness :
  argptr 8192 (fun _ => 18446603336221196288 + 4096) 1 512 = Ok (Some (18446603336221196288 + 4096)).
Proof. apply (argptr_accepts_kernel_address 8192 512); lia. Defined.

(** ** Calls keep the process table *)

(** [me] is a process that runs. *)
Definition running (me : nat) (t : ptable) : Prop :=
  p_state (slots t me) = RUNNING /\ p_is_process (slots t me) = true.

(** What a call of process [me] may do to the table: steps of the transition
    system, after which it runs, sleeps or is dead as the result says. *)
Definition call_ok (me : nat) (t : ptable) (r : callres) (t' : ptable) : Prop :=
  rtc pstep t t' /\
  match r with
  | Returns _ => running me t'
  | Sleeps => p_state (slots t' me) = SLEEPING
  | Exits => p_state (slots t' me) = ZOMBIE
  end.

Section KernLemmas.
Context {K : Type}.

Lemma kern_Ok {A} (c : M (kernel K) A) s a s' :
  kern c s = Ok (a, s') -> c (s_kern s) = Ok (a, s_kern s') /\ s_ticks s' = s_ticks s.
Proof. unfold kern. destruct (c (s_kern s)) as [[b k]|?| |]; [intros [= <- <-]|..]; done. Qed.

Lemma the_tf_Ok me (s : sys K) tf s' :
  the_tf me s = Ok (tf, s') -> s' = s /\ tf = p_tf (slots (k_tab (s_kern s)) me).
Proof. unfold the_tf, kern, the_proc, gets, bind. intros [= <- <-]. by destruct s. Qed.

Lemma the_proc_Ok me (s : sys K) p s' :
  kern (the_proc me) s = Ok (p, s') -> s' = s /\ p = slots (k_tab (s_kern s)) me.
Proof. unfold kern, the_proc, gets. intros [= <- <-]. by destruct s. Qed.

Lemma lift_res_Ok {A} (r : res A) (s : sys K) a s' : lift_res r s = Ok (a, s') -> s' = s /\ r = Ok a.
Proof. unfold lift_res. by destruct r; intros [= <- <-]. Qed.

Lemma kern_upd i f (s : sys K) a s' :
  kern (upd i f) s = Ok (a, s') ->
  k_tab (s_kern s') = upd_slot i f (k_tab (s_kern s)) /\ s_ticks s' = s_ticks s.
Proof. intros [E ->]%kern_Ok. split; [by apply upd_tab in E|done]. Qed.

Lemma kern_tab f (s : sys K) a s' :
  kern (tab f) s = Ok (a, s') -> k_tab (s_kern s') = f (k_tab (s_kern s)) /\ s_ticks s' = s_ticks s.
Proof. intros [E ->]%kern_Ok. split; [by apply tab_tab in E|done]. Qed.

End KernLemmas.

Ltac calls :=
  repeat match goal with
  | E : kern (the_proc _) _ = Ok _ |- _ => apply the_proc_Ok in E as [-> ->]
  | E : the_tf _ _ = Ok _ |- _ => apply the_tf_Ok in E as [-> ->]
  | E : lift_res _ _ = Ok _ |- _ => apply lift_res_Ok in E as [-> ?]
  | E : kern (upd _ _) _ = Ok _ |- _ => apply kern_upd in E as [E ?]
  | E : kern (tab _) _ = Ok _ |- _ => apply kern_tab in E as [E ?]
  | E : kern _ _ = Ok _ |- _ => apply kern_Ok in E as [E ?]
  | _ => progress minv
  end.

Section CallLemmas.
Context {K : Type} `{KernelOps K}.
Variables (ticks_chan : Z) (sysfile : Z -> nat -> option (M (sys K) callres)) (widen : Z -> Z).

Lemma fork_running me (s s' : kernel K) r :
  running me (k_tab s) -> fork me s = Ok (r, s') -> running me (k_tab s').
Proof.
  intros [Hr Hp] E.
  assert (A : forall i t1, alloc_slot (k_tab s) = Some (i, t1) -> i <> me /\ slots t1 me = slots (k_tab s) me).
  { intros i t1 (_ & Hu & ->)%alloc_slot_spec. assert (i <> me) by congruence. simpl. by rewrite fn_lookup_insert_ne. }
  apply fork_ok in E as [[_ ->]|[(i & t1 & f & [Hi E1]%A & _ & -> & _)|(i & t1 & f & [Hi E1]%A & _ & -> & _)]];
    unfold running; rewrite ?upd_ne, ?E1 by done; done.
Qed.

Lemma wait_running me (s s' : kernel K) r :
  running me (k_tab s) -> wait me s = Ok (Waited r, s') -> running me (k_tab s').
Proof.
  intros [Hr Hp] [(i & Hz & _ & ->)|(_ & _ & -> & _)]%wait_ok; [|done].
  apply zombie_child_Some in Hz as [_ Hz]. unfold running. rewrite upd_ne by congruence. done.
Qed.

Lemma growproc_running me n (s s' : kernel K) r :
  running me (k_tab s) -> growproc me n s = Ok (r, s') -> running me (k_tab s').
Proof. intros Hr [[_ ->]|(_ & sz & ->)]%growproc_ok; [done|]. unfold running. by rewrite upd_eq. Qed.

Lemma kill_running me pid t : running me t -> running me (kill pid t).2.
Proof.
  intros [Hr Hp]. unfold kill, running. destruct (scan _ _ 0 NPROC) as [i|]; [|done]. cbv zeta. cbn [snd].
  rewrite upd_eq. destruct (decide (i = me)) as [->|Hi].
  - unfold is_state. simpl. rewrite Hr. rewrite bool_decide_false by done. by rewrite upd_eq.
  - destruct (is_state _ _); rewrite ?upd_ne by done; done.
Qed.


Lemma call_ok_self me f t r t' :
  running me t ->
  (forall p, p_state (f p) = p_state p /\ p_pid (f p) = p_pid p /\ p_parent (f p) = p_parent p /\
             p_chan (f p) = p_chan p /\ p_is_process (f p) = p_is_process p) ->
  (running me (upd_slot me f t) -> call_ok me (upd_slot me f t) r t') -> call_ok me t r t'.
Proof.
  intros [Hr Hp] Hf C. destruct C as [C1 C2].
  { unfold running. rewrite upd_eq. destruct (Hf (slots t me)) as (-> & _ & _ & _ & ->). done. }
  split; [|done]. eapply rtc_l; [|exact C1]. by apply step_self.
Qed.

Lemma exit_call_ok me (s s' : kernel K) :
  running me (k_tab s) -> exit me s = Ok (tt, s') -> call_ok me (k_tab s) Exits (k_tab s').
Proof.
  intros [Hr Hp] E. split; [by apply (exit_refines me)|by eapply exit_state].
Qed.

Lemma call_ok_refl me t v : running me t -> call_ok me t (Returns v) t.
Proof. split; [apply rtc_refl|done]. Qed.

Lemma sleep_turn_ok me ticks0 n (s s' : sys K) r :
  running me (k_tab (s_kern s)) -> sleep_turn ticks_chan widen me ticks0 n s = Ok (r, s') ->
  call_ok me (k_tab (s_kern s)) r (k_tab (s_kern s')).
Proof.
  intros Hr E. unfold sleep_turn in E. calls. destruct (_ <? _); calls; [|by apply call_ok_refl].
  destruct (p_killed _); calls; [by apply call_ok_refl|].
  match goal with D : k_tab _ = _ |- _ => rewrite D end. split.
  - apply rtc_once, step_sleep, Hr.
  - unfold go_to_sleep. by rewrite upd_upd, upd_eq.
Qed.

Lemma syscalls_ok num me call (s s' : sys K) r :
  (forall num call (s s' : sys K) r, sysfile num me = Some call -> running me (k_tab (s_kern s)) ->
     call s = Ok (r, s') -> call_ok me (k_tab (s_kern s)) r (k_tab (s_kern s'))) ->
  proc_inv (k_tab (s_kern s)) -> running me (k_tab (s_kern s)) -> 0 < nextpid (k_tab (s_kern s)) < 2147483647 ->
  syscalls ticks_chan sysfile widen num me = Some call -> call s = Ok (r, s') ->
  call_ok me (k_tab (s_kern s)) r (k_tab (s_kern s')).
Proof.
  intros Hf I Hr Hn Ec E. pose proof Hr as [Hr1 Hr2]. unfold syscalls in Ec.
  repeat match type of Ec with (if ?b then _ else _) = _ =>
    destruct b; [injection Ec as <-|] end; [..|by eapply Hf].
  - unfold sys_fork in E. calls. split; [by eapply fork_refines|by eapply fork_running].
  - unfold sys_exit in E. calls. destruct a. by apply exit_call_ok.
  - unfold sys_wait in E. calls. split; [by eapply wait_refines|].
    destruct a; [by eapply wait_running|].
    match goal with D : wait _ _ = _ |- _ => apply wait_ok in D as (_ & _ & _ & ->) end.
    unfold go_to_sleep. by rewrite upd_upd, upd_eq.
  - unfold sys_kill in E. calls. destruct (kill _ _) as [v t] eqn:Ek. calls.
    assert (Et : t = (kill a0 (k_tab (s_kern s))).2) by (by rewrite Ek).
    match goal with D : k_tab _ = _ |- _ => rewrite D, Et end.
    split; [apply rtc_once, step_kill|by apply kill_running].
  - unfold sys_getpid in E. calls. by apply call_ok_refl.
  - unfold sys_sbrk in E. calls. split; [by eapply growproc_refines|by eapply growproc_running].
  - unfold sys_sleep in E. calls. by eapply sleep_turn_ok.
  - unfold sys_uptime in E. calls. by apply call_ok_refl.
Qed.

Lemma syscall_end_ok me (s s' : sys K) r :
  running me (k_tab (s_kern s)) -> syscall_end me s = Ok (r, s') ->
  call_ok me (k_tab (s_kern s)) r (k_tab (s_kern s')) /\
  (r = Returns 0 -> s' = s /\ p_killed (slots (k_tab (s_kern s)) me) = false) /\ (r = Returns 0 \/ r = Exits).
Proof.
  intros Hr E. unfold syscall_end in E. calls. destruct (p_killed _) eqn:Ek; calls.
  - split; [|split; [done|auto]]. destruct a. by apply exit_call_ok.
  - split; [by apply call_ok_refl|auto].
Qed.

Notation known tf me := (if (0 <? tf RAX) && (tf RAX <? NCALLS) then syscalls ticks_chan sysfile widen (tf RAX) me else None).

Lemma syscall_known me tf call (s s' : sys K) r :
  known tf me = Some call -> p_killed (slots (k_tab (s_kern s)) me) = false ->
  syscall ticks_chan sysfile widen me tf s = Ok (r, s') ->
  exists s1 v s2, k_tab (s_kern s1) = upd_slot me (set_p_tf tf) (k_tab (s_kern s)) /\ s_ticks s1 = s_ticks s /\
    call s1 = Ok (v, s2) /\
    match v with
    | Returns w => exists s3,
        k_tab (s_kern s3) = upd_slot me (fun p => set_p_tf (<[RAX := u64 w]> (p_tf p)) p) (k_tab (s_kern s2)) /\
        syscall_end me s3 = Ok (r, s')
    | _ => r = v /\ s' = s2
    end.
Proof.
  intros Ec Hk E. unfold syscall in E. calls. rewrite Hk in E. calls. rewrite Ec in E.
  apply bind_Ok_inv in E as (v & s2 & E1 & E). eexists _, v, s2. split_and!; [eassumption..|].
  destruct v; unfold set_rax in E; calls; [|done..]. eexists. split; eassumption.
Qed.

Lemma syscall_unknown me tf (s s' : sys K) r :
  known tf me = None ->
  p_killed (slots (k_tab (s_kern s)) me) = false ->
  syscall ticks_chan sysfile widen me tf s = Ok (r, s') ->
  exists s3, k_tab (s_kern s3) = upd_slot me (set_p_tf (<[RAX := u64 (-1)]> tf)) (k_tab (s_kern s)) /\
    syscall_end me s3 = Ok (r, s').
Proof.
  intros Hu Hk E. unfold syscall in E. calls. rewrite Hk in E. calls. rewrite Hu in E.
  unfold set_rax in E. calls. eexists. split; [|eassumption].
  repeat match goal with D : k_tab _ = _ |- _ => rewrite D; clear D end. by rewrite upd_upd.
Qed.

Lemma syscall_end_alive me (s s' : sys K) r :
  p_killed (slots (k_tab (s_kern s)) me) = false -> syscall_end me s = Ok (r, s') -> r = Returns 0 /\ s' = s.
Proof. intros Hk E. unfold syscall_end in E. calls. rewrite Hk in E. by calls. Qed.

Lemma syscall_ok me tf (s s' : sys K) r :
  (forall num call (s s' : sys K) r, sysfile num me = Some call -> running me (k_tab (s_kern s)) ->
     call s = Ok (r, s') -> call_ok me (k_tab (s_kern s)) r (k_tab (s_kern s'))) ->
  proc_inv (k_tab (s_kern s)) -> running me (k_tab (s_kern s)) -> 0 < nextpid (k_tab (s_kern s)) < 2147483647 ->
  syscall ticks_chan sysfile widen me tf s = Ok (r, s') ->
  call_ok me (k_tab (s_kern s)) r (k_tab (s_kern s')) /\
  (p_killed (slots (k_tab (s_kern s)) me) = true -> r = Exits) /\
  (forall v, r = Returns v -> p_killed (slots (k_tab (s_kern s')) me) = false).
Proof.
  intros Hf I Hr Hn E. destruct (p_killed (slots (k_tab (s_kern s)) me)) eqn:Hk.
  { unfold syscall in E. calls. rewrite Hk in E. calls. destruct a.
    split; [by apply exit_call_ok|]. split; done. }
  assert (Hend : forall t1 (s3 : sys K) v w, call_ok me (k_tab (s_kern s)) (Returns w) t1 ->
    k_tab (s_kern s3) = upd_slot me (fun p => set_p_tf (<[RAX := v]> (p_tf p)) p) t1 ->
    syscall_end me s3 = Ok (r, s') ->
    call_ok me (k_tab (s_kern s)) r (k_tab (s_kern s')) /\ (false = true -> r = Exits) /\
    forall v, r = Returns v -> p_killed (slots (k_tab (s_kern s')) me) = false).
  { intros t1 s3 v w [C1 C2] E3 Ee.
    assert (R3 : running me (k_tab (s_kern s3))) by (rewrite E3; unfold running; by rewrite upd_eq).
    destruct (syscall_end_ok _ _ _ _ R3 Ee) as ([D1 D2] & D3 & D4). split; [|split; [done|]].
    - split; [|done]. etrans; [exact C1|]. eapply rtc_l; [|exact D1]. rewrite E3. apply step_self; [apply C2|done].
    - intros x ->. destruct D4 as [[= ->]|]; [|done]. by destruct D3 as [-> ?]. }
  destruct (known tf me) as [call|] eqn:Ec.
  - destruct (syscall_known _ _ _ _ _ _ Ec Hk E) as (s1 & v & s2 & E1 & _ & E2 & E3).
    assert (C : call_ok me (k_tab (s_kern s)) v (k_tab (s_kern s2))).
    { apply (call_ok_self me (set_p_tf tf)); [done..|]. intros R1. rewrite <-E1 in R1 |- *.
      destruct (_ && _); [|done].
      eapply syscalls_ok; [exact Hf| |exact R1| |exact Ec|exact E2]; rewrite E1; [|done].
      eapply pstep_inv; [exact I|]. apply step_self; [apply Hr|done]. }
    destruct v as [w| |]; [destruct E3 as (s3 & E3 & Ee); by eapply Hend|..]; destruct E3 as [-> ->]; done.
  - destruct (syscall_unknown _ _ _ _ _ Ec Hk E) as (s3 & E3 & Ee).
    apply (Hend (upd_slot me (set_p_tf tf) (k_tab (s_kern s))) s3 (u64 (-1)) 0); [|by rewrite E3, upd_upd|done].
    apply (call_ok_self me (set_p_tf tf)); [done..|]. apply call_ok_refl.
Qed.
End CallLemmas.


#[local] Existing Instance demo_ops.
Definition demo_sys : sys Z := Sys demo2 7.
Definition demo_tf : trapframe := <[RAX := SYS_getpid]> (fun _ => 0).
Definition demo_widen (v : Z) : Z := u32 v.
Definition demo_after : sys Z :=
  match syscall 5 (fun _ _ => None) demo_widen 2 demo_tf demo_sys with Ok (_, s) => s | _ => demo_sys end.


(** ** Traps *)

(** A trap that no device or timer raised. *)
Definition unexpected (trapno : Z) : bool :=
  negb (existsb (Z.eqb (trapno - T_IRQ0)) [IRQ_TIMER; IRQ_IDE; IRQ_IDE + 1; IRQ_KBD; IRQ_COM1; 7; IRQ_SPURIOUS]).

Section TrapLemmas.
Context {K : Type} `{KernelOps K}.
Variables (tc : Z) (device : Z -> M (kernel K) unit).

Lemma dispatch_unexpected cpu proc no cs :
  unexpected no = true ->
  trap_dispatch tc device cpu proc no cs =
    match proc with
    | None => panic "trap"
    | Some me => if Z.land cs 3 =? 0 then panic "trap" else kern (upd me (set_p_killed true))
    end.
Proof.
  unfold unexpected, trap_dispatch. cbn [existsb]. intros Hu. apply negb_true_iff in Hu.
  repeat match type of Hu with (_ || _) = false => apply orb_false_iff in Hu as [?%Z.eqb_neq Hu] end.
  repeat match goal with |- context [?x =? ?y] =>
    lazymatch x with no => destruct (Z.eqb_spec x y); [exfalso; lia|] end end. done.
Qed.

Lemma dispatch_timer proc cs (s s' : sys K) u :
  trap_dispatch tc device 0 proc (T_IRQ0 + IRQ_TIMER) cs s = Ok (u, s') ->
  s_ticks s' = u32 (s_ticks s + 1) /\ k_tab (s_kern s') = wakeup1 (ChAddr tc) (k_tab (s_kern s)).
Proof. unfold trap_dispatch. rewrite Z.eqb_refl. cbn [Z.eqb]. intros E. calls. done. Qed.

Lemma trap_end_alive me cs (s : sys K) :
  p_killed (slots (k_tab (s_kern s)) me) && from_user cs = false -> trap_end (Some me) cs s = Ok (TReturn, s).
Proof.
  intros Hk. unfold trap_end, bind, kern, the_proc, gets. simpl. rewrite Hk. by destruct s.
Qed.

Lemma trap_end_dead me cs (s s' : sys K) r :
  p_killed (slots (k_tab (s_kern s)) me) && from_user cs = true -> trap_end (Some me) cs s = Ok (r, s') ->
  r = TExit /\ exit me (s_kern s) = Ok (tt, s_kern s').
Proof. intros Hk E. unfold trap_end in E. calls. rewrite Hk in E. calls. by destruct a. Qed.

(** What an interrupted process may rely on: it is still running. *)
Definition keeps_running (t t' : ptable) : Prop :=
  rtc pstep t t' /\ forall me, p_state (slots t me) = RUNNING ->
    p_state (slots t' me) = RUNNING /\ p_is_process (slots t' me) = p_is_process (slots t me).

Lemma dispatch_keeps cpu proc no cs (s s' : sys K) u :
  (forall i k u k', device i k = Ok (u, k') -> keeps_running (k_tab k) (k_tab k')) ->
  (forall me, proc = Some me -> p_state (slots (k_tab (s_kern s)) me) = RUNNING) ->
  trap_dispatch tc device cpu proc no cs s = Ok (u, s') ->
  keeps_running (k_tab (s_kern s)) (k_tab (s_kern s')).
Proof.
  intros Hd Hr E. assert (R : keeps_running (k_tab (s_kern s)) (k_tab (s_kern s))) by (split; [apply rtc_refl|auto]).
  unfold trap_dispatch in E. destruct (_ =? _); [destruct (cpu =? 0); calls; [|done]|].
  { match goal with D : k_tab _ = wakeup1 _ _ |- _ => rewrite D; cbn [s_kern] end.
    split; [apply rtc_once, step_wakeup|]. intros me Hm.
    pose proof (wakeup1_woken (ChAddr tc) (k_tab (s_kern s))) as [_ _ W1 W2].
    split; [|apply W1]. destruct (W2 me) as [->|[? ?]]; congruence. }
  destruct (_ || _ || _); [calls; by eapply Hd|]. destruct (_ || _ || _); [by calls|].
  destruct proc as [me|]; [|done]. destruct (_ =? 0); [done|]. calls.
  match goal with D : k_tab _ = upd_slot _ _ _ |- _ => rewrite D end.
  split; [by apply rtc_once, step_self; [apply Hr|]|]. intros j Hj.
  destruct (decide (me = j)) as [->|]; [by rewrite upd_eq|by rewrite upd_ne].
Qed.

Lemma trap_end_steps proc cs (s s' : sys K) r :
  (forall me, proc = Some me -> p_state (slots (k_tab (s_kern s)) me) = RUNNING /\
     (from_user cs = true -> p_is_process (slots (k_tab (s_kern s)) me) = true)) ->
  trap_end proc cs s = Ok (r, s') ->
  rtc pstep (k_tab (s_kern s)) (k_tab (s_kern s')) /\ (r = TReturn -> s' = s).
Proof.
  intros Hr E. destruct proc as [me|]; [|cbn [trap_end] in E; calls; by split; [apply rtc_refl|]].
  destruct (Hr me eq_refl) as [R1 R2]. destruct (p_killed (slots (k_tab (s_kern s)) me) && from_user cs) eqn:Ek.
  - destruct (trap_end_dead _ _ _ _ _ Ek E) as [-> Ex]. split; [|done].
    apply andb_true_iff in Ek as [_ Eu]. by apply (exit_refines me); [|apply R2|].
  - rewrite trap_end_alive in E by done. injection E as <- <-. by split; [apply rtc_refl|].
Qed.

Lemma trap_steps cpu proc tf (s s' : sys K) r :
  (forall i k u k', device i k = Ok (u, k') -> keeps_running (k_tab k) (k_tab k')) ->
  (forall me, proc = Some me -> p_state (slots (k_tab (s_kern s)) me) = RUNNING /\
     (from_user (tf CS) = true -> p_is_process (slots (k_tab (s_kern s)) me) = true)) ->
  trap tc device cpu proc tf s = Ok (r, s') -> rtc pstep (k_tab (s_kern s)) (k_tab (s_kern s')).
Proof.
  intros Hd Hr E. unfold trap in E. apply bind_Ok_inv in E as (u & s1 & E1 & E).
  assert (Kp : keeps_running (k_tab (s_kern s)) (k_tab (s_kern s1))).
  { eapply dispatch_keeps; [done| |exact E1]. intros me Hm. by apply Hr. }
  destruct Kp as [K1 K2].
  assert (Hr1 : forall me, proc = Some me -> p_state (slots (k_tab (s_kern s1)) me) = RUNNING /\
     (from_user (tf CS) = true -> p_is_process (slots (k_tab (s_kern s1)) me) = true)).
  { intros me Hm. destruct (Hr me Hm) as [R1 R2]. destruct (K2 me R1) as [-> ->]. done. }
  apply bind_Ok_inv in E as (r1 & s2 & E2 & E). destruct (trap_end_steps _ _ _ _ _ Hr1 E2) as [T1 T2].
  etrans; [exact K1|]. etrans; [exact T1|]. destruct r1; [|calls; apply rtc_refl..].
  specialize (T2 eq_refl) as ->. destruct proc as [me|]; [|calls; apply rtc_refl]. calls.
  destruct (_ && _); [|by apply (trap_end_steps _ _ _ _ _ Hr1 E)]. calls.
  match goal with D : k_tab _ = yield_locked _ _ |- _ => rewrite D end.
  by apply rtc_once, step_yield, (Hr1 me).
Qed.

Lemma trap_fault cpu me tf (s s' : sys K) r :
  unexpected (tf TRAPNO) = true -> from_user (tf CS) = true -> trap tc device cpu (Some me) tf s = Ok (r, s') ->
  r = TExit /\ p_state (slots (k_tab (s_kern s')) me) = ZOMBIE /\
  forall j, j <> me -> p_killed (slots (k_tab (s_kern s')) j) = p_killed (slots (k_tab (s_kern s)) j).
Proof.
  intros Hu Hc E. unfold trap in E. rewrite dispatch_unexpected in E by done.
  assert (Hz : Z.land (tf CS) 3 =? 0 = false) by (unfold from_user in Hc; apply Z.eqb_eq in Hc as ->; done).
  rewrite Hz in E. apply bind_Ok_inv in E as (u & s1 & E1 & E). apply kern_upd in E1 as [E1 _].
  apply bind_Ok_inv in E as (r1 & s2 & E2 & E).
  apply trap_end_dead in E2 as [-> Ex]; [|by rewrite E1, upd_eq, Hc]. calls.
  split; [done|]. split; [by eapply exit_state|]. intros j Hj.
  by rewrite (exit_killed me j _ _ Ex), E1, upd_ne.
Qed.

Lemma trap_tick me tf (s s' : sys K) r :
  proc_inv (k_tab (s_kern s)) ->
  tf TRAPNO = T_IRQ0 + IRQ_TIMER -> p_state (slots (k_tab (s_kern s)) me) = RUNNING ->
  p_killed (slots (k_tab (s_kern s)) me) && from_user (tf CS) = false ->
  trap tc device 0 (Some me) tf s = Ok (r, s') ->
  r = TYield /\ p_state (slots (k_tab (s_kern s')) me) = RUNNABLE /\ s_ticks s' = u32 (s_ticks s + 1) /\
  forall j, p_state (slots (k_tab (s_kern s)) j) = SLEEPING -> p_chan (slots (k_tab (s_kern s)) j) = ChAddr tc ->
    p_state (slots (k_tab (s_kern s')) j) = RUNNABLE.
Proof.
  intros I Ht Hr Hk E. unfold trap in E. rewrite Ht in E. apply bind_Ok_inv in E as (u & s1 & E1 & E).
  apply dispatch_timer in E1 as [E1 Et].
  pose proof (wakeup1_woken (ChAddr tc) (k_tab (s_kern s))) as [_ _ _ W].
  assert (R1 : p_state (slots (k_tab (s_kern s1)) me) = RUNNING).
  { rewrite Et. destruct (W me) as [->|[? _]]; congruence. }
  apply bind_Ok_inv in E as (r1 & s2 & E2 & E).
  rewrite trap_end_alive in E2 by (by rewrite Et, wakeup1_killed). injection E2 as <- <-. calls.
  rewrite (proj2 (is_state_true _ _) R1), Z.eqb_refl in E. cbn [andb] in E. calls.
  match goal with D : k_tab _ = yield_locked _ _ |- _ => rewrite D; unfold yield_locked end.
  split; [done|]. split; [by rewrite upd_eq|]. split; [congruence|]. intros j Hj Hc.
  destruct (decide (me = j)) as [<-|]; [congruence|]. rewrite upd_ne, Et by done.
  assert (Hn : (j < NPROC)%nat) by (apply (pi_range _ I); congruence).
  pose proof (wakeup1_awake _ (k_tab (s_kern s)) j Hn Hc). destruct (W j) as [Hw|[_ ?]]; congruence.
Qed.
End TrapLemmas.

(** C21: the handler of traps.  An exception in the kernel, or with no process,
    panics; one in user space ends its process and marks no other as killed; a
    tick of the first CPU counts modulo 2^32, makes runnable every process that
    sleeps on the ticks, and takes the interrupted process off the CPU, still
    runnable.  Every trap keeps the process table well formed if the handlers
    of the devices only wake processes. *)
Theorem trap_correct {K} `{KernelOps K} tc device cpu proc tf (s : sys K) :
  (forall i k u k', device i k = Ok (u, k') -> keeps_running (k_tab k) (k_tab k')) ->
  proc_inv (k_tab (s_kern s)) ->
  (forall me, proc = Some me -> p_state (slots (k_tab (s_kern s)) me) = RUNNING /\
     (from_user (tf CS) = true -> p_is_process (slots (k_tab (s_kern s)) me) = true)) ->
  let out := trap tc device cpu proc tf s in
  (unexpected (tf TRAPNO) = true -> proc = None \/ Z.land (tf CS) 3 = 0 -> out = Panic "trap") /\
  (forall me r s', unexpected (tf TRAPNO) = true -> proc = Some me -> from_user (tf CS) = true -> out = Ok (r, s') ->
     r = TExit /\ p_state (slots (k_tab (s_kern s')) me) = ZOMBIE /\
     forall j, j <> me -> p_killed (slots (k_tab (s_kern s')) j) = p_killed (slots (k_tab (s_kern s)) j)) /\
  (forall me r s', tf TRAPNO = T_IRQ0 + IRQ_TIMER -> cpu = 0 -> proc = Some me ->
     p_killed (slots (k_tab (s_kern s)) me) && from_user (tf CS) = false -> out = Ok (r, s') ->
     r = TYield /\ p_state (slots (k_tab (s_kern s')) me) = RUNNABLE /\
     s_ticks s' = (s_ticks s + 1) mod 2 ^ 32 /\
     forall j, p_state (slots (k_tab (s_kern s)) j) = SLEEPING -> p_chan (slots (k_tab (s_kern s)) j) = ChAddr tc ->
       p_state (slots (k_tab (s_kern s')) j) = RUNNABLE) /\
  (forall r s', out = Ok (r, s') -> rtc pstep (k_tab (s_kern s)) (k_tab (s_kern s')) /\ proc_inv (k_tab (s_kern s'))).
Proof.
  intros Hd I Hr out. unfold out. split; [|split; [|split]].
  - intros Hu Hp. unfold trap. rewrite dispatch_unexpected by done. unfold bind.
    destruct proc; [|done]. destruct Hp as [|Hc]; [done|]. by rewrite Hc.
  - intros me r s' Hu -> Hc E. by eapply trap_fault.
  - intros me r s' Ht -> -> Hk E. destruct (Hr me eq_refl) as [R1 _]. by eapply trap_tick.
  - intros r s' E. assert (St : rtc pstep (k_tab (s_kern s)) (k_tab (s_kern s'))) by (by eapply trap_steps).
    split; [done|]. by eapply rtc_invariant; [|apply pstep_inv|].
Qed.

(** A tick while init runs; the handlers of the devices wake one channel each. *)
Definition tick_tf : trapframe := <[TRAPNO := 32]> (<[CS := 35]> (fun _ => 0)).
Definition wake_dev (i : Z) : M (kernel Z) unit := tab (wakeup1 (ChAddr (1000 + i))).
Definition ticked : sys Z :=
  match trap 5 wake_dev 0 (Some 2%nat) tick_tf demo_sys with Ok (_, s) => s | _ => demo_sys end.

Lemma trap_correct_witness :
  s_ticks ticked = 8 /\ p_state (slots (k_tab (s_kern ticked)) 2) = RUNNABLE /\ proc_inv (k_tab (s_kern ticked)).
Proof.
  assert (E : trap 5 wake_dev 0 (Some 2%nat) tick_tf demo_sys = Ok (TYield, ticked)) by (vm_compute; reflexivity).
  destruct (trap_correct 5 wake_dev 0 (Some 2%nat) tick_tf demo_sys) as (_ & _ & T & P).
  - intros i k u k' D. unfold wake_dev, tab, modify in D. injection D as <- <-. split.
    + apply rtc_once, step_wakeup.
    + intros me Hm. pose proof (wakeup1_woken (ChAddr (1000 + i)) (k_tab k)) as [_ _ W1 W2].
      split; [|apply W1]. destruct (W2 me) as [W|[W _]]; [exact (eq_trans W Hm)|].
      rewrite Hm in W. discriminate W.
  - exact demo2_inv.
  - intros me [= <-]. split; [|intros _]; vm_compute; reflexivity.
  - destruct (T 2%nat TYield ticked eq_refl eq_refl eq_refl eq_refl E) as (_ & R & Et & _).
    split; [exact Et|]. split; [exact R|]. apply (P TYield ticked E).
Defined.
