(* ===== verification/Trapasm.v ===== *)
(** * Entering and leaving the kernel: trapasm.S, vectors.S and usys.S

    The assembly on the way from a user program to [trap] and [syscall] and back,
    as lists of instructions for a machine with registers and 64-bit words of
    memory.  The processor's own part, the delivery of an interrupt, [iretq],
    [syscall] and [sysretq], is that of the architecture's manual.  A call of C code is
    any change of the state that the calling convention allows. *)
From S2P Require Import Prelude Kalloc Proc Syscall.

(** ** The processor *)

(** The registers, the memory by the address of a word, the base of %fs, and what the
    setup of the kernel put into the processor: the stack for a change of privilege
    (tss[1], tss[2]) and the mask and entry of [syscall]. *)
Record machine : Type := Mach {
  rg : reg -> Z;
  mw : Z -> Z;
  fs_base : Z;
  rsp0 : Z;
  sfmask : Z;
}.
Definition set_rg (f : reg -> Z) (s : machine) : machine := Mach f (mw s) (fs_base s) (rsp0 s) (sfmask s).
Definition set_mw (f : Z -> Z) (s : machine) : machine := Mach (rg s) f (fs_base s) (rsp0 s) (sfmask s).
Definition set_reg (r : reg) (v : Z) (s : machine) : machine := set_rg (<[r := v]> (rg s)) s.
Definition store_word (a v : Z) (s : machine) : machine := set_mw (<[a := v]> (mw s)) s.

Definition push (v : Z) (s : machine) : machine :=
  let sp := u64 (rg s RSP - 8) in store_word sp v (set_reg RSP sp s).
Definition pop (r : reg) (s : machine) : machine :=
  let v := mw s (rg s RSP) in set_reg r v (set_reg RSP (u64 (rg s RSP + 8)) s).

Definition FL_IF : Z := 512.
(** What an interrupt gate clears: TF, IF, NT, RF and VM. *)
Definition gate_mask : Z := 213760.
Definition KERNEL_CS : Z := 8.
Definition KERNEL_DS : Z := 16.
Definition USER_CS : Z := 43.
Definition USER_DS : Z := 35.

Inductive instr : Type :=
  | PUSH (r : reg)
  | PUSHI (v : Z)
  | POP (r : reg)
  | MOV (src dst : reg)
  | MOVI (v : Z) (dst : reg)
  | LOADFS (off : Z) (dst : reg)
  | STOREFS (src : reg) (off : Z)
  | LOAD (off : Z) (base dst : reg)
  | STORE (src base : reg)
  | ADDI (v : Z) (dst : reg)
  | CLI
  | SYSCALL
  | IRETQ
  | SYSRETQ.

(** [iretq] pops rip, cs, rflags, rsp and ss; [sysretq] takes rip from %rcx and rflags
    from %r11, of which it keeps the bits 0x3C7FD7, and [syscall] puts them there. *)
Definition exec_instr (i : instr) (s : machine) : machine :=
  match i with
  | PUSH r => push (rg s r) s
  | PUSHI v => push v s
  | POP r => pop r s
  | MOV src dst => set_reg dst (rg s src) s
  | MOVI v dst => set_reg dst v s
  | LOADFS off dst => set_reg dst (mw s (u64 (fs_base s + off))) s
  | STOREFS src off => store_word (u64 (fs_base s + off)) (rg s src) s
  | LOAD off base dst => set_reg dst (mw s (u64 (rg s base + off))) s
  | STORE src base => store_word (rg s base) (rg s src) s
  | ADDI v dst => set_reg dst (u64 (rg s dst + v)) s
  | CLI => set_reg RFLAGS (Z.land (rg s RFLAGS) (Z.lnot FL_IF)) s
  | SYSCALL =>
      set_rg (<[CS := KERNEL_CS]> (<[SS := KERNEL_DS]> (<[RFLAGS := Z.land (rg s RFLAGS) (Z.lnot (sfmask s))]>
        (<[R11 := rg s RFLAGS]> (<[RCX := rg s RIP]> (rg s)))))) s
  | IRETQ =>
      let sp := rg s RSP in
      set_rg (<[RIP := mw s sp]> (<[CS := mw s (u64 (sp + 8))]> (<[RFLAGS := mw s (u64 (sp + 16))]>
        (<[RSP := mw s (u64 (sp + 24))]> (<[SS := mw s (u64 (sp + 32))]> (rg s)))))) s
  | SYSRETQ =>
      set_rg (<[RIP := rg s RCX]> (<[RFLAGS := Z.lor (Z.land (rg s R11) 3964887) 2]>
        (<[CS := USER_CS]> (<[SS := USER_DS]> (rg s))))) s
  end.

Fixpoint run_code (l : list instr) (s : machine) : machine :=
  match l with
  | [] => s
  | i :: l => run_code l (exec_instr i s)
  end.

(** The exceptions for which the processor pushes an error code. *)
Definition error_code (n : Z) : bool := (n =? 8) || ((10 <=? n) && (n <=? 14)) || (n =? 17).

(** Interrupt or exception [n] through an interrupt gate of the kernel: the stack of the kernel
    when it comes from user mode, else the current one, aligned. *)
Definition interrupt (n err : Z) (s : machine) : machine :=
  let sp := if Z.land (rg s CS) 3 =? 0 then Z.land (rg s RSP) (Z.lnot 15) else rsp0 s in
  let ss := if Z.land (rg s CS) 3 =? 0 then rg s SS else 0 in
  let s1 := push (rg s RIP) (push (rg s CS) (push (rg s RFLAGS) (push (rg s RSP) (push (rg s SS) (set_reg RSP sp s))))) in
  let s2 := if error_code n then push err s1 else s1 in
  set_reg CS KERNEL_CS (set_reg SS ss (set_reg RFLAGS (Z.land (rg s RFLAGS) (Z.lnot gate_mask)) s2)).

(** ** The code *)

(** [vector]n of vectors.S, up to the jump to [alltraps]. *)
Definition vector (n : Z) : list instr :=
  (if negb (error_code n) then [PUSHI 0] else []) ++ [PUSHI n].

Definition alltraps : list instr :=
  [PUSH R15; PUSH R14; PUSH R13; PUSH R12; PUSH R11; PUSH R10; PUSH R9; PUSH R8;
   PUSH RDI; PUSH RSI; PUSH RBP; PUSH RDX; PUSH RCX; PUSH RBX; PUSH RAX;
   MOV RSP RDI].                                   (* callq trap *)

Definition trapret : list instr :=
  [POP RAX; POP RBX; POP RCX; POP RDX; POP RBP; POP RSI; POP RDI;
   POP R8; POP R9; POP R10; POP R11; POP R12; POP R13; POP R14; POP R15;
   ADDI 16 RSP; IRETQ].

Definition syscall_entry : list instr :=
  [STOREFS RAX 0; LOADFS (-8) RAX; LOAD 16 RAX RAX; ADDI (4096 - 16) RAX;
   STORE RSP RAX; MOV RAX RSP; LOADFS 0 RAX;
   PUSH R11; PUSHI 0; PUSH RCX; PUSHI 0; PUSHI 0;
   PUSH R15; PUSH R14; PUSH R13; PUSH R12; PUSH R11; PUSH R10; PUSH R9; PUSH R8;
   PUSH RDI; PUSH RSI; PUSH RBP; PUSH RDX; PUSH RCX; PUSH RBX; PUSH RAX;
   MOV RSP RDI].                                   (* callq syscall *)

Definition syscall_trapret : list instr :=
  [POP RAX; POP RBX; POP RCX; POP RDX; POP RBP; POP RSI; POP RDI;
   POP R8; POP R9; POP R10; POP R11; POP R12; POP R13; POP R14; POP R15;
   ADDI 40 RSP; CLI; LOAD 0 RSP RSP; SYSRETQ].

(** The function for system call [k] of the user library, up to its [ret]. *)
Definition usys (k : Z) : list instr := [MOVI k RAX; MOV RCX R10; SYSCALL].

(** ** The trap frame *)

(** The place of a field in [struct trapframe]. *)
Definition tf_index (r : reg) : Z :=
  match r with
  | RAX => 0 | RBX => 1 | RCX => 2 | RDX => 3 | RBP => 4 | RSI => 5 | RDI => 6
  | R8 => 7 | R9 => 8 | R10 => 9 | R11 => 10 | R12 => 11 | R13 => 12 | R14 => 13 | R15 => 14
  | TRAPNO => 15 | ERR => 16 | RIP => 17 | CS => 18 | RFLAGS => 19 | RSP => 20 | SS => 21
  end.
Definition sizeof_tf : Z := 176.
Definition frame_at (f : Z -> Z) (a : Z) : trapframe := fun r => f (a + 8 * tf_index r).

(** ** Pushing and popping *)

(** The memory after [vs] were pushed from [sp] down. *)
Fixpoint push_words (f : Z -> Z) (sp : Z) (vs : list Z) : Z -> Z :=
  match vs with
  | [] => f
  | v :: vs => push_words (<[sp - 8 := v]> f) (sp - 8) vs
  end.

Lemma push_words_out vs : forall f sp a,
  sp <= a \/ a < sp - 8 * Z.of_nat (length vs) -> push_words f sp vs a = f a.
Proof.
  induction vs as [|v vs IH]; intros f sp a Ha; [done|]. cbn [push_words length] in *.
  rewrite IH by lia. apply fn_lookup_insert_ne. lia.
Qed.

Lemma push_words_in vs : forall f sp k v,
  vs !! k = Some v -> push_words f sp vs (sp - 8 * (Z.of_nat k + 1)) = v.
Proof.
  induction vs as [|w vs IH]; intros f sp k v Hk; [done|]. cbn [push_words]. destruct k as [|k]; cbn in Hk.
  - injection Hk as ->. rewrite push_words_out by lia. replace (sp - 8 * (Z.of_nat 0 + 1)) with (sp - 8) by lia.
    apply fn_lookup_insert.
  - replace (sp - 8 * (Z.of_nat (S k) + 1)) with (sp - 8 - 8 * (Z.of_nat k + 1)) by lia. by apply IH.
Qed.

Lemma push_words_app vs ws : forall f sp,
  push_words f sp (vs ++ ws) = push_words (push_words f sp vs) (sp - 8 * Z.of_nat (length vs)) ws.
Proof.
  induction vs as [|v vs IH]; intros f sp; cbn [app push_words length].
  - f_equal. lia.
  - rewrite IH. f_equal. lia.
Qed.

Definition pushed (vs : list Z) (s : machine) : machine :=
  Mach (<[RSP := rg s RSP - 8 * Z.of_nat (length vs)]> (rg s)) (push_words (mw s) (rg s RSP) vs) (fs_base s) (rsp0 s) (sfmask s).

Lemma pushed_nil s : pushed [] s = s.
Proof.
  destruct s. unfold pushed. simpl. f_equal. apply functional_extensionality. intros r.
  destruct (decide (r = RSP)) as [->|N]; [rewrite fn_lookup_insert; lia|by rewrite fn_lookup_insert_ne].
Qed.

Lemma pushed_reg vs s r : r <> RSP -> rg (pushed vs s) r = rg s r.
Proof. intros Hr. unfold pushed. cbn [rg]. by rewrite fn_lookup_insert_ne. Qed.

Lemma push_pushed vs s v :
  8 * (Z.of_nat (length vs) + 1) <= rg s RSP < 2 ^ 64 -> push v (pushed vs s) = pushed (vs ++ [v]) s.
Proof.
  intros H. unfold push, pushed, set_reg, store_word, set_rg, set_mw. cbn [rg mw fs_base rsp0 sfmask].
  rewrite fn_lookup_insert, u64_small by lia. rewrite push_words_app, length_app. cbn [length push_words]. f_equal.
  apply functional_extensionality. intros r.
  destruct (decide (r = RSP)) as [->|N]; [rewrite !fn_lookup_insert; lia|by rewrite !fn_lookup_insert_ne].
Qed.

Lemma run_app l1 l2 s : run_code (l1 ++ l2) s = run_code l2 (run_code l1 s).
Proof. revert s. induction l1 as [|i l1 IH]; intros s; [done|]. apply IH. Qed.

Lemma run_push l : forall vs s,
  RSP ∉ l -> 8 * (Z.of_nat (length vs) + Z.of_nat (length l)) <= rg s RSP < 2 ^ 64 ->
  run_code (PUSH <$> l) (pushed vs s) = pushed (vs ++ (rg s <$> l)) s.
Proof.
  induction l as [|r l IH]; intros vs s Hn H; cbn [fmap list_fmap run_code exec_instr length] in *; [by rewrite app_nil_r|].
  apply not_elem_of_cons in Hn as [Hr Hn]. rewrite pushed_reg, push_pushed by (done || lia).
  rewrite IH; [|done|rewrite length_app; cbn [length]; lia]. by rewrite <-app_assoc.
Qed.

(** The registers after those of [l] were popped. *)
Lemma run_pop l : forall s,
  RSP ∉ l -> NoDup l -> 0 <= rg s RSP -> rg s RSP + 8 * Z.of_nat (length l) < 2 ^ 64 ->
  let s' := run_code (POP <$> l) s in
  mw s' = mw s /\ rg s' RSP = rg s RSP + 8 * Z.of_nat (length l) /\
  (forall r, r ∉ l -> r <> RSP -> rg s' r = rg s r) /\
  (forall k r, l !! k = Some r -> rg s' r = mw s (rg s RSP + 8 * Z.of_nat k)) /\
  fs_base s' = fs_base s /\ rsp0 s' = rsp0 s /\ sfmask s' = sfmask s.
Proof.
  induction l as [|r l IH]; intros s Hn Hd H0 Hb; cbv zeta; cbn [fmap list_fmap run_code exec_instr length] in *.
  { split; [done|]. split; [lia|]. done. }
  apply not_elem_of_cons in Hn as [Hr Hn]. apply NoDup_cons in Hd as [Hrl Hd].
  set (s1 := pop r s). assert (E1 : rg s1 RSP = rg s RSP + 8).
  { unfold s1, pop, set_reg. cbn [rg set_rg]. rewrite fn_lookup_insert_ne, fn_lookup_insert by congruence. by apply u64_small; lia. }
  destruct (IH s1 Hn Hd) as (Em & Es & Ho & Hi & Hx); [lia|lia|]. cbv zeta in *. rewrite E1 in Es, Hi.
  split; [rewrite Em; done|]. split; [lia|]. split; [|split; [|done]].
  - intros q Hq Hq'. apply not_elem_of_cons in Hq as [Hqr Hq]. rewrite Ho by done.
    unfold s1, pop, set_reg. cbn [rg set_rg]. by rewrite !fn_lookup_insert_ne by congruence.
  - intros [|k] q Hk; cbn in Hk.
    + injection Hk as <-. rewrite Ho by done. unfold s1, pop, set_reg. cbn [rg set_rg]. rewrite fn_lookup_insert.
      f_equal. lia.
    + rewrite (Hi k q Hk). change (mw s1) with (mw s). f_equal. lia.
Qed.
(** ** Building and restoring the frame *)

Lemma set_pushed r v vs s : r <> RSP -> set_reg r v (pushed vs s) = pushed vs (set_reg r v s).
Proof.
  intros Hr. unfold set_reg, pushed, set_rg. cbn [rg mw fs_base rsp0 sfmask]. rewrite (fn_lookup_insert_ne (rg s) r) by done.
  f_equal. apply functional_extensionality. intros q. destruct (decide (q = RSP)) as [->|Hq].
  - by rewrite fn_lookup_insert_ne, !fn_lookup_insert by done.
  - rewrite (fn_lookup_insert_ne _ RSP) by done. destruct (decide (q = r)) as [->|Hqr]; [by rewrite !fn_lookup_insert|].
    by rewrite !fn_lookup_insert_ne by done.
Qed.

Definition gprs : list reg := [RAX; RBX; RCX; RDX; RBP; RSI; RDI; R8; R9; R10; R11; R12; R13; R14; R15].
Definition is_gpr (r : reg) : bool := match r with TRAPNO | ERR | RIP | CS | RFLAGS | RSP | SS => false | _ => true end.

Ltac decide_mem := apply (bool_decide_unpack _); vm_compute; exact I.

Lemma not_gpr r : is_gpr r = false -> r ∉ gprs.
Proof. intros H. destruct r; try discriminate H; decide_mem. Qed.
Lemma gprs_distinct : NoDup gprs.
Proof. decide_mem. Qed.

(** The frame from its end down. *)
Definition frame_values (tf : trapframe) : list Z :=
  tf <$> [SS; RSP; RFLAGS; CS; RIP; ERR; TRAPNO; R15; R14; R13; R12; R11; R10; R9; R8; RDI; RSI; RBP; RDX; RCX; RBX; RAX].

Lemma frame_pushed f sp tf r : frame_at (push_words f sp (frame_values tf)) (sp - sizeof_tf) r = tf r.
Proof.
  unfold frame_at, sizeof_tf.
  replace (sp - 176 + 8 * tf_index r) with (sp - 8 * (Z.of_nat (Z.to_nat (21 - tf_index r)) + 1))
    by (destruct r; cbn [tf_index]; lia).
  apply push_words_in. by destruct r.
Qed.

(** Popping a frame restores the general registers. *)
Lemma pop_frame s :
  0 <= rg s RSP -> rg s RSP + sizeof_tf <= 2 ^ 64 ->
  let s' := run_code (POP <$> gprs) s in
  mw s' = mw s /\ rg s' RSP = rg s RSP + 120 /\ (forall r, is_gpr r = true -> rg s' r = frame_at (mw s) (rg s RSP) r) /\
  (forall r, is_gpr r = false -> r <> RSP -> rg s' r = rg s r).
Proof.
  intros H0 Hb s'. unfold sizeof_tf in Hb.
  destruct (run_pop gprs s) as (Em & Es & Ho & Hi & _); [by apply not_gpr|apply gprs_distinct|done|cbn [length gprs]; lia|].
  split; [done|]. split; [done|]. split; [|intros r Hr; apply Ho; by apply not_gpr].
  intros r Hr. unfold frame_at. replace (8 * tf_index r) with (8 * Z.of_nat (Z.to_nat (tf_index r))) by (destruct r; cbn [tf_index]; lia).
  apply Hi. by destruct r.
Qed.

(** Where the processor starts to push: the aligned stack, or that of the kernel. *)
Definition entry_sp (s : machine) : Z :=
  if Z.land (rg s CS) 3 =? 0 then Z.land (rg s RSP) (Z.lnot 15) else rsp0 s.

(** The frame that [trap] is to see. *)
Definition trap_frame (n err : Z) (s : machine) : trapframe := fun r =>
  match r with
  | TRAPNO => n
  | ERR => if error_code n then err else 0
  | _ => rg s r
  end.

Lemma trap_entry n err s :
  sizeof_tf <= entry_sp s < 2 ^ 64 ->
  exists s0, run_code (vector n ++ alltraps) (interrupt n err s) =
      set_reg RDI (entry_sp s - sizeof_tf) (pushed (frame_values (trap_frame n err s)) s0) /\
    mw s0 = mw s /\ rg s0 RSP = entry_sp s /\ rg s0 RFLAGS = Z.land (rg s RFLAGS) (Z.lnot gate_mask) /\ rg s0 CS = KERNEL_CS.
Proof.
  intros Hsp. unfold sizeof_tf in Hsp.
  set (b := set_reg RSP (entry_sp s) s). assert (Eb : rg b RSP = entry_sp s) by (unfold b, set_reg; cbn; by rewrite fn_lookup_insert).
  assert (Hi : exists ss, interrupt n err s =
    set_reg CS KERNEL_CS (set_reg SS ss (set_reg RFLAGS (Z.land (rg s RFLAGS) (Z.lnot gate_mask))
      (pushed ([rg s SS; rg s RSP; rg s RFLAGS; rg s CS; rg s RIP] ++ if error_code n then [err] else []) b)))).
  { eexists. unfold interrupt. fold (entry_sp s). fold b. 
    assert (E5 : push (rg s RIP) (push (rg s CS) (push (rg s RFLAGS) (push (rg s RSP) (push (rg s SS) b)))) =
      pushed [rg s SS; rg s RSP; rg s RFLAGS; rg s CS; rg s RIP] b).
    { rewrite <-(pushed_nil b) at 1. by rewrite !push_pushed by (rewrite Eb; cbn [length app]; lia). }
    rewrite E5. destruct (error_code n); [rewrite push_pushed by (rewrite Eb; cbn [length app]; lia)|]; reflexivity. }
  destruct Hi as [ss ->]. rewrite !set_pushed by done.
  set (s0 := set_reg CS KERNEL_CS _). exists s0.
  assert (E0 : rg s0 RSP = entry_sp s) by (rewrite <-Eb; unfold s0, set_reg; cbn [rg set_rg]; by rewrite !fn_lookup_insert_ne).
  split; [|split; [done|]; split; [done|]; split;
    unfold s0, set_reg; cbn [rg set_rg]; rewrite ?fn_lookup_insert_ne by done; by rewrite fn_lookup_insert].
  assert (Ev : run_code (vector n) (pushed ([rg s SS; rg s RSP; rg s RFLAGS; rg s CS; rg s RIP] ++ if error_code n then [err] else []) s0) =
    pushed [rg s SS; rg s RSP; rg s RFLAGS; rg s CS; rg s RIP; if error_code n then err else 0; n] s0).
  { unfold vector. destruct (error_code n); cbn [negb app run_code exec_instr];
      rewrite !push_pushed by (rewrite E0; cbn [length app]; lia); reflexivity. }
  rewrite run_app, Ev. unfold alltraps.
  change [PUSH R15; PUSH R14; PUSH R13; PUSH R12; PUSH R11; PUSH R10; PUSH R9; PUSH R8;
   PUSH RDI; PUSH RSI; PUSH RBP; PUSH RDX; PUSH RCX; PUSH RBX; PUSH RAX; MOV RSP RDI] with ((PUSH <$> reverse gprs) ++ [MOV RSP RDI]).
  rewrite run_app, run_push; [|decide_mem|rewrite E0; change (length (reverse gprs)) with 15%nat; cbn [length]; lia].
  reflexivity.
Qed.

Lemma trapret_spec s :
  0 <= rg s RSP -> rg s RSP + sizeof_tf <= 2 ^ 64 ->
  forall r, r <> TRAPNO -> r <> ERR -> rg (run_code trapret s) r = frame_at (mw s) (rg s RSP) r.
Proof.
  intros H0 Hb r H1 H2. destruct (pop_frame s H0 Hb) as (Em & Es & Hg & _). unfold sizeof_tf in Hb.
  change trapret with ((POP <$> gprs) ++ [ADDI 16 RSP; IRETQ]). rewrite run_app.
  set (s1 := run_code (POP <$> gprs) s) in *. cbn [run_code exec_instr].
  assert (E : rg (set_reg RSP (u64 (rg s1 RSP + 16)) s1) RSP = rg s RSP + 136).
  { unfold set_reg. cbn [rg set_rg]. rewrite fn_lookup_insert, Es. rewrite u64_small by lia. lia. }
  rewrite E. unfold set_reg. cbn [rg mw set_rg]. rewrite Em. unfold frame_at in *.
  destruct (is_gpr r) eqn:Eg.
  - rewrite !fn_lookup_insert_ne by (by intros <-). by apply Hg.
  - rewrite !(u64_small (rg s RSP + 136 + _)) by lia. destruct r; try discriminate Eg; try done;
      repeat first [rewrite fn_lookup_insert | rewrite fn_lookup_insert_ne by done]; f_equal; cbn [tf_index]; lia.
Qed.

(** C11: A trap leaves no trace.  Whatever the interrupt or exception and wherever it
    comes from, [trap] is called with a pointer to a [struct trapframe] that holds all
    registers of the interrupted code, the number of the trap and the error code of the processor (0
    where it gives none), below the kernel stack's top; no other word of memory
    is changed and interrupts are off.  When [trap] returns, [trapret] loads every register from the
    frame as it then is, so that code whose frame was left alone goes on as if nothing had
    happened. *)
Theorem trap_roundtrip n err s :
  sizeof_tf <= entry_sp s < 2 ^ 64 ->
  let s1 := run_code (vector n ++ alltraps) (interrupt n err s) in
  let tf := rg s1 RDI in
  tf = entry_sp s - sizeof_tf /\ rg s1 RSP = tf /\ Z.land (rg s1 RFLAGS) FL_IF = 0 /\
  (forall r, frame_at (mw s1) tf r = trap_frame n err s r) /\
  (forall a, a < tf \/ tf + sizeof_tf <= a -> mw s1 a = mw s a) /\
  forall s2, rg s2 RSP = rg s1 RSP ->
    forall r, r <> TRAPNO -> r <> ERR -> rg (run_code trapret s2) r = frame_at (mw s2) tf r.
Proof.
  intros Hsp. destruct (trap_entry n err s Hsp) as (s0 & -> & Em & Es & Ef & _). cbv zeta. unfold sizeof_tf in *.
  set (s1 := set_reg RDI _ _). assert (Et : rg s1 RDI = entry_sp s - 176) by (unfold s1, set_reg; cbn [rg set_rg]; apply fn_lookup_insert).
  assert (Er : rg s1 RSP = entry_sp s - 176).
  { unfold s1, set_reg, pushed. cbn [rg set_rg]. by rewrite fn_lookup_insert_ne, fn_lookup_insert, Es. }
  assert (Ew : mw s1 = push_words (mw s) (entry_sp s) (frame_values (trap_frame n err s))) by (by rewrite <-Em, <-Es).
  rewrite Et, Er, Ew. split; [done|]. split; [done|]. split.
  { unfold s1, set_reg, pushed. cbn [rg set_rg]. rewrite !fn_lookup_insert_ne, Ef by done.
    rewrite <-Z.land_assoc. change (Z.land (Z.lnot gate_mask) FL_IF) with 0. apply Z.land_0_r. }
  split; [intros r; apply frame_pushed|]. split.
  - intros a Ha. apply push_words_out. change (length (frame_values (trap_frame n err s))) with 22%nat. lia.
  - intros s2 E2 r H1 H2. rewrite <-E2. apply trapret_spec; [lia|unfold sizeof_tf; lia|done|done].
Qed.

(** ** System calls *)

(** The frame that [syscall] is to see, for call [k]; [ss] is what was there. *)
Definition call_frame (k ss : Z) (s : machine) : trapframe := fun r =>
  match r with
  | RAX => k
  | R10 => rg s RCX
  | RCX | RIP => rg s RIP
  | R11 | RFLAGS => rg s RFLAGS
  | CS | ERR | TRAPNO => 0
  | SS => ss
  | _ => rg s r
  end.

(** The arguments of a call, in the order of the calling convention. *)
Definition call_args (s : machine) : list Z := rg s <$> [RDI; RSI; RDX; RCX; R8; R9].

Lemma syscall_trapret_spec s :
  0 <= rg s RSP -> rg s RSP + sizeof_tf <= 2 ^ 64 ->
  let tf := frame_at (mw s) (rg s RSP) in
  let s' := run_code syscall_trapret s in
  (forall r, is_gpr r = true -> rg s' r = tf r) /\ rg s' RSP = tf RSP /\ rg s' RIP = tf RCX /\
  rg s' RFLAGS = Z.lor (Z.land (tf R11) 3964887) 2 /\ rg s' CS = USER_CS /\ rg s' SS = USER_DS /\ mw s' = mw s.
Proof.
  intros H0 Hb tf s'. destruct (pop_frame s H0 Hb) as (Em & Es & Hg & _). unfold sizeof_tf in Hb.
  unfold s'. change syscall_trapret with ((POP <$> gprs) ++ [ADDI 40 RSP; CLI; LOAD 0 RSP RSP; SYSRETQ]). rewrite run_app.
  set (s1 := run_code (POP <$> gprs) s) in *. cbn [run_code exec_instr].
  set (s2 := set_reg RSP (u64 (rg s1 RSP + 40)) s1).
  assert (E2 : rg s2 RSP = rg s RSP + 160).
  { unfold s2, set_reg. cbn [rg set_rg]. rewrite fn_lookup_insert, Es. rewrite u64_small by lia. lia. }
  set (s3 := set_reg RFLAGS _ s2). assert (E3 : rg s3 RSP = rg s RSP + 160).
  { rewrite <-E2. unfold s3, set_reg. cbn [rg set_rg]. by rewrite fn_lookup_insert_ne. }
  rewrite E3. rewrite u64_small by lia. replace (mw s3 (rg s RSP + 160 + 0)) with (tf RSP)
    by (unfold tf, frame_at; change (mw s3) with (mw s1); rewrite Em; f_equal; cbn [tf_index]; lia).
  assert (Hg' : forall r, is_gpr r = true -> rg (set_reg RSP (tf RSP) s3) r = tf r).
  { intros r Hr. unfold s3, s2, set_reg. cbn [rg set_rg]. rewrite !fn_lookup_insert_ne by (by intros <-). by apply Hg. }
  set (s4 := set_reg RSP (tf RSP) s3) in *. assert (E4 : rg s4 RSP = tf RSP) by (unfold s4, set_reg; cbn [rg set_rg]; apply fn_lookup_insert).
  cbn [rg mw set_rg]. rewrite (Hg' RCX), (Hg' R11) by done. split.
  { intros r Hr. rewrite !fn_lookup_insert_ne by (by intros <-). by apply Hg'. }
  split_and!; try done; rewrite ?fn_lookup_insert_ne by done; done.
Qed.


(** Process [p] runs, with its kernel stack: its address is in the CPU's local storage, which is
    apart from the process's slot and from the stack. *)
Record kernel_ready (s : machine) (p kstack : Z) : Prop := {
  kr_proc : mw s (fs_base s - 8) = p;
  kr_kstack : mw s (p + 16) = kstack;
  kr_fs : 8 <= fs_base s < 2 ^ 64;
  kr_p : 0 <= p /\ p + 16 < 2 ^ 64 /\ p + 16 <> fs_base s;
  kr_k : 0 <= kstack /\ kstack + 4096 < 2 ^ 64;
  kr_apart : fs_base s < kstack \/ kstack + 4096 <= fs_base s;
}.

(** [syscall] and the change to the kernel's stack. *)
Definition switch_stack : list instr :=
  [STOREFS RAX 0; LOADFS (-8) RAX; LOAD 16 RAX RAX; ADDI (4096 - 16) RAX; STORE RSP RAX; MOV RAX RSP; LOADFS 0 RAX].

Lemma on_kernel_stack s p kstack k :
  kernel_ready s p kstack ->
  exists b, run_code (usys k ++ switch_stack) s = b /\
    mw b = <[kstack + 4080 := rg s RSP]> (<[fs_base s := k]> (mw s)) /\
    rg b RSP = kstack + 4080 /\ forall r, is_gpr r = true -> rg b r = call_frame k 0 s r.
Proof.
  intros [Hp Hs Hf (Hp0 & Hp1 & Hp2) Hk Ha].
  set (s0 := store_word (fs_base s) k (run_code (usys k) s)).
  assert (E0 : run_code (usys k ++ [STOREFS RAX 0]) s = s0).
  { rewrite run_app. cbn [run_code exec_instr]. unfold s0. f_equal. cbn [fs_base usys run_code exec_instr set_reg set_rg].
    rewrite Z.add_0_r. apply u64_small. lia. }
  assert (M0 : mw s0 = <[fs_base s := k]> (mw s)) by done.
  assert (F0 : fs_base s0 = fs_base s) by done.
  assert (R0 : forall r, is_gpr r = true -> rg s0 r = call_frame k 0 s r).
  { intros r Hr. destruct r; try discriminate Hr; reflexivity. }
  assert (S0 : rg s0 RSP = rg s RSP) by reflexivity.
  change (usys k ++ switch_stack) with ((usys k ++ [STOREFS RAX 0]) ++ [LOADFS (-8) RAX; LOAD 16 RAX RAX; ADDI (4096 - 16) RAX; STORE RSP RAX; MOV RAX RSP; LOADFS 0 RAX]).
  rewrite run_app, E0. clearbody s0. clear E0. cbn [run_code exec_instr]. change (4096 - 16) with 4080.
  set (s1 := set_reg RAX (mw s0 (u64 (fs_base s0 + -8))) s0).
  assert (E1 : rg s1 RAX = p).
  { unfold s1, set_reg. cbn [rg set_rg]. rewrite fn_lookup_insert, F0, M0, u64_small by lia.
    rewrite fn_lookup_insert_ne by lia. exact Hp. }
  set (s2 := set_reg RAX (mw s1 (u64 (rg s1 RAX + 16))) s1). assert (E2 : rg s2 RAX = kstack).
  { unfold s2, set_reg. cbn [rg set_rg]. rewrite fn_lookup_insert, E1. change (mw s1) with (mw s0).
    rewrite M0, u64_small, fn_lookup_insert_ne by lia. exact Hs. }
  set (s3 := set_reg RAX (u64 (rg s2 RAX + 4080)) s2).
  assert (E3 : rg s3 RAX = kstack + 4080).
  { unfold s3, set_reg. cbn [rg set_rg]. rewrite fn_lookup_insert, E2. apply u64_small. lia. }
  assert (S3 : rg s3 RSP = rg s RSP) by (rewrite <-S0; unfold s3, s2, s1, set_reg; cbn [rg set_rg]; by rewrite !fn_lookup_insert_ne).
  rewrite E3, S3. eexists. split; [reflexivity|]. split; [cbn; change (mw s3) with (mw s0); by rewrite M0|]. split.
  - unfold set_reg, store_word. cbn [rg set_rg set_mw]. by rewrite fn_lookup_insert_ne, fn_lookup_insert by done.
  - intros r Hr. unfold set_reg at 1. cbn [rg set_rg]. destruct (decide (r = RAX)) as [->|N].
    + rewrite fn_lookup_insert. cbn [mw set_reg set_rg store_word set_mw fs_base]. change (mw s3) with (mw s0).
      change (fs_base s3) with (fs_base s0). rewrite F0, Z.add_0_r, u64_small by lia.
      rewrite fn_lookup_insert_ne by lia. by rewrite M0, fn_lookup_insert.
    + rewrite fn_lookup_insert_ne by done. unfold s3, s2, s1, set_reg, store_word. cbn [rg set_rg set_mw].
      rewrite !fn_lookup_insert_ne by (by intros <-). by apply R0.
Qed.

Lemma syscall_entry_parts k :
  usys k ++ syscall_entry = (usys k ++ switch_stack) ++ [PUSH R11; PUSHI 0; PUSH RCX; PUSHI 0; PUSHI 0] ++
    (PUSH <$> reverse gprs) ++ [MOV RSP RDI].
Proof. reflexivity. Qed.
Lemma reverse_gprs : reverse gprs = [R15; R14; R13; R12; R11; R10; R9; R8; RDI; RSI; RBP; RDX; RCX; RBX; RAX].
Proof. reflexivity. Qed.

Lemma syscall_enter s p kstack k :
  kernel_ready s p kstack ->
  let s1 := run_code (usys k ++ syscall_entry) s in
  let tf := kstack + 4096 - sizeof_tf in
  rg s1 RDI = tf /\ rg s1 RSP = tf /\
  (forall r, frame_at (mw s1) tf r = call_frame k (mw s (kstack + 4088)) s r) /\
  (forall a, a <> fs_base s -> a < tf \/ tf + sizeof_tf <= a -> mw s1 a = mw s a).
Proof.
  intros K. pose proof (kr_k _ _ _ K) as Hk. pose proof (kr_apart _ _ _ K) as Ha. cbv zeta. unfold sizeof_tf.
  destruct (on_kernel_stack s p kstack k K) as (b & E & Em & Es & Hg).
  rewrite syscall_entry_parts, run_app, E, run_app, run_app. clear E.
  assert (E1 : run_code [PUSH R11; PUSHI 0; PUSH RCX; PUSHI 0; PUSHI 0] b = pushed [rg b R11; 0; rg b RCX; 0; 0] b).
  { rewrite <-(pushed_nil b) at 1. cbn [run_code exec_instr].
    repeat first [rewrite pushed_reg by done | rewrite push_pushed by (rewrite Es; cbn [length app]; lia)]. done. }
  rewrite E1, run_push; [|decide_mem|rewrite Es; rewrite reverse_gprs; cbn [length]; lia].
  rewrite reverse_gprs. cbn [fmap list_fmap app].
  assert (Hvs : exists vs, [rg b R11; 0; rg b RCX; 0; 0; rg b R15; rg b R14; rg b R13; rg b R12; rg b R11; rg b R10; rg b R9; rg b R8;
      rg b RDI; rg b RSI; rg b RBP; rg b RDX; rg b RCX; rg b RBX; rg b RAX] = vs /\ length vs = 20%nat /\
    forall r, r <> SS -> r <> RSP -> vs !! Z.to_nat (19 - tf_index r) = Some (call_frame k 0 s r)).
  { eexists. split; [reflexivity|]. split; [done|]. intros r N1 N2. rewrite !Hg by done. by destruct r. }
  destruct Hvs as (vs & -> & Hv & Hvs).
  assert (HX : exists X, pushed vs b = X /\ rg X RSP = kstack + 3920 /\ mw X = push_words (mw b) (kstack + 4080) vs).
  { eexists. split; [reflexivity|]. unfold pushed. cbn [rg mw]. rewrite fn_lookup_insert, Es, Hv. split; [lia|done]. }
  destruct HX as (X & -> & EX & MX). cbn [run_code exec_instr]. unfold set_reg. cbn [rg mw set_rg].
  rewrite EX, MX, fn_lookup_insert, fn_lookup_insert_ne, EX by done. split; [lia|]. split; [lia|]. split.
  - intros r. unfold frame_at.
    destruct (decide (r = SS)) as [->|N1]; [|destruct (decide (r = RSP)) as [->|N2]].
    + rewrite push_words_out by (cbn [tf_index]; lia). rewrite Em. cbn [tf_index]. rewrite !fn_lookup_insert_ne by lia.
      cbn [call_frame]. f_equal. lia.
    + rewrite push_words_out by (cbn [tf_index]; lia). rewrite Em. cbn [tf_index].
      replace (kstack + 4096 - 176 + 8 * 20) with (kstack + 4080) by lia. by rewrite fn_lookup_insert.
    + replace (kstack + 4096 - 176 + 8 * tf_index r) with (kstack + 4080 - 8 * (Z.of_nat (Z.to_nat (19 - tf_index r)) + 1))
        by (destruct r; try done; cbn [tf_index]; lia).
      apply push_words_in. rewrite Hvs by done. by destruct r.
  - intros a Hfs Hout. rewrite push_words_out by lia. rewrite Em. by rewrite !fn_lookup_insert_ne by lia.
Qed.

(** C26: A system call, from the user's call to its return.  The function of the user library for call [k] reaches
    [syscall] with a trap frame at the end of the process's kernel stack, where
    [allocproc] puts [p->tf], that has [k] in rax and the six arguments
    of the call where [fetcharg] looks for them, and the rest of the user's registers; nothing else
    of memory is changed but the word above the CPU's variables.  When [syscall]
    returns, the user's code goes on with the general registers and the stack
    of the frame, at the address in the frame's rcx, in user mode: after
    the call, with rax the result, when only rax was changed, and at the start of a
    new program after [exec]. *)
Theorem syscall_roundtrip s p kstack k :
  kernel_ready s p kstack ->
  let s1 := run_code (usys k ++ syscall_entry) s in
  let a := kstack + 4096 - sizeof_tf in
  let tf := frame_at (mw s1) a in
  rg s1 RDI = a /\ rg s1 RSP = a /\
  tf RAX = k /\ (forall i v, call_args s !! i = Some v -> fetcharg tf (Z.of_nat i) = Ok v) /\
  (forall r, r ∈ [RBX; RBP; R12; R13; R14; R15; RSP] -> tf r = rg s r) /\ tf RCX = rg s RIP /\ tf R11 = rg s RFLAGS /\
  (forall x, x <> fs_base s -> x < a \/ a + sizeof_tf <= x -> mw s1 x = mw s x) /\
  forall s2, rg s2 RSP = rg s1 RSP ->
    let tf' := frame_at (mw s2) a in
    let s3 := run_code syscall_trapret s2 in
    (forall r, is_gpr r = true \/ r = RSP -> rg s3 r = tf' r) /\ rg s3 RIP = tf' RCX /\
    rg s3 RFLAGS = Z.lor (Z.land (tf' R11) 3964887) 2 /\ rg s3 CS = USER_CS /\ rg s3 SS = USER_DS.
Proof.
  intros K. pose proof (kr_k _ _ _ K) as Hk. destruct (syscall_enter s p kstack k K) as (E1 & E2 & Hf & Ho). cbv zeta.
  set (s1 := run_code (usys k ++ syscall_entry) s) in *. clearbody s1.
  split; [exact E1|]. split; [exact E2|]. split; [by rewrite Hf|]. split.
  { intros i v Hi. unfold fetcharg. rewrite !Hf. unfold call_args in Hi. do 6 (destruct i as [|i]; [injection Hi as <-; reflexivity|]). discriminate Hi. }
  split.
  { intros r Hr. rewrite Hf. repeat (apply elem_of_cons in Hr as [->|Hr]; [done|]). by apply elem_of_nil in Hr. }
  split; [by rewrite Hf|]. split; [by rewrite Hf|]. split; [exact Ho|].
  intros s2 Es. rewrite E2 in Es. unfold sizeof_tf in *.
  destruct (syscall_trapret_spec s2) as (Hg & Hr & Hi & Hfl & Hc & Hss & _); [lia|unfold sizeof_tf; lia|]. rewrite Es in *.
  split; [intros r [Hr'| ->]; [by apply Hg|exact Hr]|]. split; [exact Hi|]. split; [exact Hfl|]. split; [exact Hc|exact Hss].
Qed.

(** A user program with its registers numbered, and its process. *)
Definition demo : machine :=
  Mach (fun r => match r with CS => USER_CS | RSP => 30000 | RFLAGS => 514 | RIP => 4096 | _ => 100 + tf_index r end)
    (fun a => if a =? 8184 then 16384 else if a =? 16400 then 65536 else 0) 8192 69632 FL_IF.

Lemma trap_roundtrip_witness :
  let s1 := run_code (vector 14 ++ alltraps) (interrupt 14 6 demo) in
  rg s1 RDI = 69456 /\ frame_at (mw s1) 69456 ERR = 6 /\ frame_at (mw s1) 69456 R15 = 114 /\
  forall r, r <> TRAPNO -> r <> ERR -> rg (run_code trapret s1) r = rg demo r.
Proof.
  destruct (trap_roundtrip 14 6 demo) as (E & Er & _ & Hf & _ & Hr); [unfold sizeof_tf; by vm_compute|].
  cbv zeta. change (entry_sp demo - sizeof_tf) with 69456 in E. rewrite E in *. split; [done|]. rewrite !Hf.
  split; [reflexivity|]. split; [reflexivity|]. intros r H1 H2. rewrite (Hr _ eq_refl r H1 H2), Hf. by destruct r.
Defined.

Lemma syscall_roundtrip_witness :
  let s1 := run_code (usys 5 ++ syscall_entry) demo in
  let tf := frame_at (mw s1) 69456 in
  fetcharg tf 3 = Ok 102 /\ tf RAX = 5 /\
  rg (run_code syscall_trapret s1) RIP = 4096 /\ rg (run_code syscall_trapret s1) RSP = 30000.
Proof.
  destruct (syscall_roundtrip demo 16384 65536 5) as (_ & E & Ek & Ha & Hs & Hc & _ & _ & Hr); [by split; vm_compute; auto; split|].
  change (65536 + 4096 - sizeof_tf) with 69456 in *. cbv zeta. destruct (Hr _ eq_refl) as (Hg & Hi & _).
  split; [exact (Ha 3%nat 102 eq_refl)|]. split; [exact Ek|]. split; [rewrite Hi; exact Hc|].
  rewrite (Hg RSP) by (by right). apply (Hs RSP). decide_mem.
Defined.
