(* ===== verification/Setup.v ===== *)
(** * Setting up a processor: the kernel's mapping, segments and gates

    The parts of vm.c and trap.c that write tables for the processor to read:
    [kvmalloc] and the kernel's half of every page table, [seginit] and
    [syscallinit], [mkgate] and [tvinit].  What a table means is the processor's
    reading of it, from the architecture's manual, so that each is a round trip. *)
From S2P Require Import Prelude Memory Strings Kalloc Vm Uvm Space Trapasm.

(** ** The kernel's mapping *)

Definition PTE_PWT : Z := 8.
Definition PTE_PCD : Z := 16.
Definition PTE_PS : Z := 128.

(** The statics [kpml4] and [kpdpt]. *)
Definition kvmalloc : M kmem (Z * Z) :=
  let! kpml4 := kalloc in
  do! kmemset kpml4 0 PGSIZE in
  let! kpdpt := kalloc in
  do! kmemset kpdpt 0 PGSIZE in
  do! kstore (entry kpml4 (PMX KERNBASE)) (Z.lor (Z.lor (V2P kpdpt) PTE_P) PTE_W) in
  do! kstore (entry kpdpt 0) (Z.lor (Z.lor (Z.lor 0 PTE_PS) PTE_P) PTE_W) in
  do! kstore (entry kpdpt 3) (Z.lor (Z.lor (Z.lor (Z.lor (Z.lor 3221225472 PTE_PS) PTE_P) PTE_W) PTE_PWT) PTE_PCD) in
  ret (kpml4, kpdpt).

(** The processor's walk: the physical address of [va] and whether user mode may use it.
    An entry with PS in the second or third level maps 1 GB or 2 MB. *)
Fixpoint mmu (lv : nat) (m : mem) (t va : Z) : option (Z * bool) :=
  let e := ent m t (pfx lv va mod 512) in
  let span := 2 ^ (12 + 9 * Z.of_nat lv) in
  let u := negb (Z.land e PTE_U =? 0) in
  let page := Some (e mod 2 ^ 52 / span * span + va mod span, u) in
  if negb (present e) then None
  else
    match lv with
    | O => page
    | S lv' =>
        if (lv <=? 2)%nat && negb (Z.land e PTE_PS =? 0) then page
        else
          match mmu lv' m (P2V (e mod 2 ^ 52 / 4096 * 4096)) va with
          | Some (pa, u') => Some (pa, u && u')
          | None => None
          end
    end.

(** What the kernel maps [KERNBASE + x] to: the first gigabyte of physical memory, and the fourth for
    the devices. *)
Definition kmap (x : Z) : option (Z * bool) :=
  if (x <? 1073741824) || ((3221225472 <=? x) && (x <? 4294967296)) then Some (x, false) else None.

(** The entries of [kpdpt], and that of the table [t] for it. *)
Record kernel_half (kend : Z) (m : mem) (kpdpt t : Z) : Prop := {
  kh_page : page_ok kend kpdpt;
  kh_top : ent m t 256 = V2P kpdpt + 3;
  kh_low : ent m kpdpt 0 = 131;
  kh_io : ent m kpdpt 3 = 3221225627;
  kh_none : forall i, 0 <= i < 512 -> i <> 0 -> i <> 3 -> ent m kpdpt i = 0;
}.

(** ** Interrupt gates *)

(** An array of [uint]. *)
Definition mkgate (n kva pl : Z) (idt : Z -> Z) : Z -> Z :=
  let addr := kva in
  let n := u32 (n * 4) in
  <[n + 3 := 0]> (<[n + 2 := u32 (Z.shiftr addr 32)]>
    (<[n + 1 := u32 (Z.lor (Z.lor (Z.land addr 4294901760) 36352) (Z.shiftl (Z.land pl 3) 13))]>
      (<[n := u32 (Z.lor (Z.land addr 65535) (Z.shiftl KERNEL_CS 16))]> idt))).

Fixpoint mkgates (k : nat) (n : Z) (vectors : Z -> Z) (idt : Z -> Z) : Z -> Z :=
  match k with
  | O => idt
  | S k => mkgates k (n + 1) vectors (mkgate n (vectors n) 0 idt)
  end.
(** The page of [idt] after [memset]. *)
Definition tvinit (vectors : Z -> Z) : Z -> Z := mkgates 256 0 vectors (fun _ => 0).

(** Gate [n] as the processor reads it: 16 bytes with the offset in three parts. *)
Record gate : Type := Gate {
  g_offset : Z;
  g_selector : Z;
  g_ist : Z;
  g_type : Z;
  g_dpl : Z;
  g_present : bool;
}.
Definition gate_at (idt : Z -> Z) (n : Z) : gate :=
  let w0 := idt (4 * n) in let w1 := idt (4 * n + 1) in let w2 := idt (4 * n + 2) in
  Gate (w0 mod 65536 + 65536 * (w1 / 65536) + 4294967296 * w2) (w0 / 65536) (w1 mod 8) (w1 / 256 mod 16)
    (w1 / 8192 mod 4) (Z.testbit w1 15).

(** ** Segments *)

(** [struct segdesc]: each field has its width. *)
Record segdesc : Type := Segdesc {
  lim_15_0 : Z; base_15_0 : Z; base_23_16 : Z; sd_type : Z; sd_s : Z; sd_dpl : Z; sd_p : Z;
  lim_19_16 : Z; sd_avl : Z; sd_rsv1 : Z; sd_db : Z; sd_g : Z; base_31_24 : Z;
}.
Definition bits (w v : Z) : Z := v mod 2 ^ w.
(** The macro SEG. *)
Definition SEG (type lim base sys dpl rsv : Z) : segdesc :=
  Segdesc (bits 16 (Z.land lim 65535)) (bits 16 (Z.land (u32 base) 65535)) (bits 8 (Z.land (Z.shiftr base 16) 255))
    (bits 4 type) (bits 1 sys) (bits 2 dpl) 1 (bits 4 (Z.shiftr lim 60)) 0 (bits 1 rsv) 0 1 (bits 8 (Z.shiftr base 24)).
Definition null_seg : segdesc := Segdesc 0 0 0 0 0 0 0 0 0 0 0 0 0.

Definition DPL_USER : Z := 3.
Definition APP_SEG : Z := 1.
Definition STA_X : Z := 8.
Definition STA_W : Z := 2.
Definition STA_R : Z := 2.
Definition STS_T64A : Z := 9.
Definition NSEGS : Z := 8.

(** What [seginit] loads: the table with its limit, the selector of the TSS, and the base of %fs. *)
Record segregs : Type := Segregs { gdt : list segdesc; gdt_limit : Z; tr : Z; fsbase : Z }.
Definition seginit (local : Z) : segregs :=
  let tss := local + 1024 in
  Segregs
    [null_seg;
     SEG (Z.lor STA_X STA_R) 0 0 APP_SEG 0 1;
     SEG STA_W 0 0 APP_SEG 0 0;
     null_seg;
     SEG STA_W 0 0 APP_SEG DPL_USER 0;
     SEG (Z.lor STA_X STA_R) 0 0 APP_SEG DPL_USER 1;
     null_seg;
     SEG STS_T64A 11 tss 0 DPL_USER 0;
     SEG 0 (Z.shiftr tss 32) (Z.shiftr tss 48) 0 0 0]
    ((NSEGS + 1) * 8 - 1) (Z.shiftl 7 3) (local + 2048).

(** [syscallinit]: MSR_STAR and MSR_SFMASK. *)
Definition USER32_CS : Z := Z.lor (Z.shiftl 3 3) DPL_USER.
Definition msr_star : Z := Z.lor (Z.shiftl USER32_CS 48) (Z.shiftl KERNEL_CS 32).
Definition msr_sfmask : Z := Z.lor (Z.lor (Z.lor (Z.lor (Z.lor 256 1024) 512) 12288) 262144) 16384.

(** How the processor reads the table: the descriptor of a selector, its base, and the base of a
    system segment, which takes two entries. *)
Definition descriptor (s : segregs) (sel : Z) : option segdesc :=
  if gdt_limit s <? sel / 8 * 8 + 7 then None else gdt s !! Z.to_nat (sel / 8).
Definition seg_base (d : segdesc) : Z := base_15_0 d + 65536 * base_23_16 d + 16777216 * base_31_24 d.
Definition system_base (s : segregs) (sel : Z) : option Z :=
  match descriptor s sel, descriptor s (sel + 8) with
  | Some d, Some d' => Some (seg_base d + 4294967296 * (lim_15_0 d' + 65536 * base_15_0 d'))
  | _, _ => None
  end.
(** A present segment of 64-bit code, or of data, for a privilege level. *)
Definition code64 (dpl : Z) (d : segdesc) : bool :=
  (sd_p d =? 1) && (sd_s d =? 1) && Z.testbit (sd_type d) 3 && (sd_rsv1 d =? 1) && (sd_dpl d =? dpl).
Definition data_seg (dpl : Z) (d : segdesc) : bool :=
  (sd_p d =? 1) && (sd_s d =? 1) && negb (Z.testbit (sd_type d) 3) && Z.testbit (sd_type d) 1 && (sd_dpl d =? dpl).

(** ** The kernel's half *)

Lemma kernel_half_maps kend m kpdpt t x :
  kernel_half kend m kpdpt t -> 0 <= x < 549755813888 -> mmu 3 m t (KERNBASE + x) = kmap x.
Proof.
  intros [Hp Ht H0 H3 Hn] Hx.
  assert (E3 : pfx 3 (KERNBASE + x) mod 512 = 256).
  { unfold pfx, KERNBASE. change (2 ^ (12 + 9 * Z.of_nat 3)) with 549755813888. Z.to_euclidean_division_equations. lia. }
  assert (E2 : pfx 2 (KERNBASE + x) mod 512 = x / 1073741824).
  { unfold pfx, KERNBASE. change (2 ^ (12 + 9 * Z.of_nat 2)) with 1073741824. Z.to_euclidean_division_equations. lia. }
  pose proof (page_ok_V2P kend _ Hp) as Ev. pose proof Hp as (Ha & _ & Hr). unfold PGSIZE, KERNBASE, PHYSTOP in Ha, Hr, Ev.
  assert (Hodd : present (V2P kpdpt + 3) = true).
  { rewrite present_odd, Z.odd_add. replace (V2P kpdpt) with (2 * (V2P kpdpt / 2)); [by rewrite Z.odd_mul|].
    rewrite Ev. Z.to_euclidean_division_equations. lia. }
  assert (Enext : P2V ((V2P kpdpt + 3) mod 2 ^ 52 / 4096 * 4096) = kpdpt).
  { transitivity (P2V (PTE_ADDR (V2P kpdpt + 3))); [|by apply (pte_target kend)]. f_equal. rewrite PTE_ADDR_eq.
    rewrite (Z.mod_small (V2P kpdpt + 3) (2 ^ 52)) by (rewrite Ev; lia). Z.to_euclidean_division_equations. lia. }
  cbn [mmu]. rewrite E3, Ht, Hodd, E2. cbn [negb Nat.leb andb]. rewrite Enext. unfold kmap.
  assert (Hi : 0 <= x / 1073741824 < 512) by (Z.to_euclidean_division_equations; lia).
  change (2 ^ (12 + 9 * Z.of_nat 2)) with 1073741824.
  destruct (Z.eq_dec (x / 1073741824) 0) as [E|N0]; [|destruct (Z.eq_dec (x / 1073741824) 3) as [E|N3]].
  - rewrite E, H0. change (negb (present 131)) with false. change (negb (Z.land 131 PTE_PS =? 0)) with true. cbv iota.
    rewrite (proj2 (Z.ltb_lt x 1073741824)) by (Z.to_euclidean_division_equations; lia). cbn [orb]. rewrite andb_false_r.
    do 2 f_equal. unfold KERNBASE. change (131 mod 2 ^ 52 / 1073741824) with 0. Z.to_euclidean_division_equations. lia.
  - rewrite E, H3. change (negb (present 3221225627)) with false. change (negb (Z.land 3221225627 PTE_PS =? 0)) with true. cbv iota.
    rewrite (proj2 (Z.ltb_ge x 1073741824)), (proj2 (Z.leb_le 3221225472 x)), (proj2 (Z.ltb_lt x 4294967296))
      by (Z.to_euclidean_division_equations; lia). cbn [orb andb]. rewrite andb_false_r.
    do 2 f_equal. unfold KERNBASE. change (3221225627 mod 2 ^ 52 / 1073741824) with 3. Z.to_euclidean_division_equations. lia.
  - rewrite Hn by done. change (negb (present 0)) with true. cbv iota.
    destruct (Z.ltb_spec x 1073741824), (Z.leb_spec 3221225472 x), (Z.ltb_spec x 4294967296); cbn [orb andb]; try done;
      Z.to_euclidean_division_equations; lia.
Qed.

Lemma ent_cleared m t i : 0 <= i < 512 -> ent (memset m t 0 PGSIZE) t i = 0.
Proof.
  intros Hi. unfold ent, entry. apply load64_zero. intros x Hx. rewrite rd_memset by (unfold PGSIZE; lia).
  destruct (in_range_spec t PGSIZE x); [done|unfold PGSIZE in *; lia].
Qed.
Lemma ent_cleared_ne m t t' i : 0 <= i < 512 -> t + PGSIZE <= t' \/ t' + PGSIZE <= t -> ent (memset m t 0 PGSIZE) t' i = ent m t' i.
Proof.
  intros Hi Hd. unfold ent, entry. apply load64_ext. intros x Hx. rewrite rd_memset by (unfold PGSIZE; lia).
  destruct (in_range_spec t PGSIZE x); [unfold PGSIZE in *; lia|done].
Qed.
Lemma ent_store m t i v : 0 <= v < 2 ^ 64 -> ent (store64 m (entry t i) v) t i = v.
Proof. intros Hv. unfold ent. rewrite load64_store64_eq. by apply u64_small. Qed.
Lemma ent_store_other m t i v t' j :
  0 <= i < 512 -> 0 <= j < 512 -> (t = t' /\ i <> j) \/ t + PGSIZE <= t' \/ t' + PGSIZE <= t ->
  ent (store64 m (entry t i) v) t' j = ent m t' j.
Proof. intros Hi Hj Hd. unfold ent. apply load64_store64_ne. unfold entry, PGSIZE in *. lia. Qed.

(** The entry for the kernel's half. *)
Lemma top_entry kend p : page_ok kend p -> Z.lor (Z.lor (V2P p) PTE_P) PTE_W = V2P p + 3 /\ 0 <= V2P p + 3 < 2 ^ 64.
Proof.
  intros Hp. split.
  - rewrite <-!Z.lor_assoc. change (Z.lor PTE_P PTE_W) with 3. apply lor_aligned; [by eapply V2P_aligned|lia].
  - rewrite (page_ok_V2P kend) by done. destruct Hp as (_ & _ & Hr). unfold KERNBASE, PHYSTOP in *. lia.
Qed.

(** The kernel's half does not depend on other memory. *)
Lemma kernel_half_ext kend m m' kpdpt t :
  kernel_half kend m kpdpt t -> (forall i, 0 <= i < 512 -> ent m' kpdpt i = ent m kpdpt i) -> ent m' t 256 = ent m t 256 ->
  kernel_half kend m' kpdpt t.
Proof. intros [H1 H2 H3 H4 H5] Hi Ht. split; [done|by rewrite Ht|by rewrite Hi|by rewrite Hi|]. intros i Hr N0 N3. rewrite Hi; auto. Qed.

Lemma kvmalloc_spec kend k c1 c2 l :
  kalloc_inv kend k (c1 :: c2 :: l) ->
  exists k', kvmalloc k = Ok ((c1, c2), k') /\ kalloc_inv kend k' l /\ kernel_half kend (km_mem k') c2 c1 /\
    (forall i, 0 <= i < 256 -> ent (km_mem k') c1 i = 0).
Proof.
  intros Ik. destruct (kalloc_cons _ _ _ _ Ik) as (k1 & E1 & Ik1 & M1 & _).
  pose proof (ki_pages _ _ _ Ik) as [Hc1 [Hc2 Hl]%Forall_cons_1]%Forall_cons_1.
  pose proof (ki_nodup _ _ _ Ik) as [Hn1 [Hn2 _]%NoDup_cons]%NoDup_cons. apply not_elem_of_cons in Hn1 as [Hne Hn1].
  assert (Hd : c1 + PGSIZE <= c2 \/ c2 + PGSIZE <= c1) by (by eapply page_ok_disj).
  pose proof (page_ok_nonzero _ _ Hc1) as Hz1. pose proof (page_ok_nonzero _ _ Hc2) as Hz2.
  unfold kvmalloc. rewrite (bind_Ok _ _ _ _ _ E1), (bind_Ok _ _ _ _ _ (kmemset_ok c1 0 PGSIZE k1 Hz1)).
  set (k2 := set_mem _ k1). assert (Ik2 : kalloc_inv kend k2 (c2 :: l)).
  { eapply (writes_in_kalloc kend k1); [done|done| |by apply not_elem_of_cons|apply writes_in_memset]; done. }
  destruct (kalloc_cons _ _ _ _ Ik2) as (k3 & E3 & Ik3 & M3 & _).
  rewrite (bind_Ok _ _ _ _ _ E3), (bind_Ok _ _ _ _ _ (kmemset_ok c2 0 PGSIZE k3 Hz2)).
  unfold kstore. rewrite !(bind_Ok _ _ _ tt _ (eq_refl _)). eexists. split; [reflexivity|].
  cbn [km_mem set_mem]. destruct (top_entry kend c2 Hc2) as [Et Hb]. rewrite Et. change (PMX KERNBASE) with 256.
  set (ma := memset (km_mem k3) c2 0 PGSIZE).
  split; [|split; [split|]].
  - eapply (kalloc_inv_frame kend k3); [exact Ik3|done|].
    intros p x Hp Hx. cbn [km_mem set_mem]. pose proof (proj1 (Forall_forall (page_ok kend) l) Hl p Hp) as Hpp.
    assert (p <> c1) by (by intros ->). assert (p <> c2) by (by intros ->).
    pose proof (page_ok_disj kend p c1 Hpp Hc1). pose proof (page_ok_disj kend p c2 Hpp Hc2).
    rewrite !rd_store64_out by (unfold entry, PGSIZE in *; lia). apply writes_in_memset. unfold PGSIZE in *. lia.
  - exact Hc2.
  - rewrite !(ent_store_other _ c2 _ _ c1) by (lia || tauto). by apply ent_store.
  - rewrite ent_store_other by (try lia; left; done). rewrite ent_store by (vm_compute; split; congruence). reflexivity.
  - rewrite ent_store by (vm_compute; split; congruence). reflexivity.
  - intros i Hi N0 N3. rewrite !ent_store_other by (try lia; first [left; split; [done|lia]|tauto]). by apply ent_cleared.
  - intros i Hi. rewrite !ent_store_other by (try lia; first [left; split; [done|lia]|tauto]).
    unfold ma. rewrite ent_cleared_ne by (lia || tauto). rewrite M3. apply ent_cleared. lia.
Qed.

Lemma setupkvm_half kend kpml4 kpdpt k d l :
  kalloc_inv kend k (d :: l) -> kernel_half kend (km_mem k) kpdpt kpml4 -> d <> kpdpt -> d <> kpml4 -> page_ok kend kpml4 ->
  exists k', setupkvm kpdpt k = Ok (d, k') /\ kernel_half kend (km_mem k') kpdpt d /\ kernel_half kend (km_mem k') kpdpt kpml4 /\
    (forall i, 0 <= i < 256 -> ent (km_mem k') d i = 0).
Proof.
  intros Ik H Hd1 Hd2 Hp4. destruct (kalloc_cons _ _ _ _ Ik) as (k1 & E1 & Ik1 & M1 & _).
  pose proof (ki_pages _ _ _ Ik) as [Hd _]%Forall_cons_1. pose proof (kh_page _ _ _ _ H) as Hp.
  assert (Hj : d + PGSIZE <= kpdpt \/ kpdpt + PGSIZE <= d) by (by eapply page_ok_disj).
  assert (Hj4 : d + PGSIZE <= kpml4 \/ kpml4 + PGSIZE <= d) by (by eapply page_ok_disj).
  unfold setupkvm. rewrite (bind_Ok _ _ _ _ _ E1), (bind_Ok _ _ _ _ _ (kmemset_ok d 0 PGSIZE k1 (page_ok_nonzero _ _ Hd))).
  unfold kstore. rewrite (bind_Ok _ _ _ tt _ (eq_refl _)). eexists. split; [reflexivity|]. cbn [km_mem set_mem].
  destruct (top_entry kend kpdpt Hp) as [Et Hb]. rewrite Et, M1.
  assert (Hx : forall t i, t = kpdpt \/ t = kpml4 -> 0 <= i < 512 ->
    ent (store64 (memset (km_mem k) d 0 PGSIZE) (entry d 256) (V2P kpdpt + 3)) t i = ent (km_mem k) t i).
  { intros t i Ht Hi. assert (d + PGSIZE <= t \/ t + PGSIZE <= d) by (destruct Ht as [->| ->]; done).
    rewrite ent_store_other by (lia || tauto). by apply ent_cleared_ne. }
  split; [|split].
  - destruct H as [H1 H2 H3 H4 H5]. split; [done|by apply ent_store|..].
    + rewrite Hx by (lia || tauto). done.
    + rewrite Hx by (lia || tauto). done.
    + intros i Hi N0 N3. rewrite Hx by (lia || tauto). by apply H5.
  - eapply kernel_half_ext; [done|..]; intros; apply Hx; (lia || tauto).
  - intros i Hi. rewrite ent_store_other by lia. apply ent_cleared. lia.
Qed.

Lemma unmapped_none m t va : user_va va -> (forall i, 0 <= i < 256 -> ent m t i = 0) -> mmu 3 m t va = None.
Proof. intros Hv H. cbn [mmu]. rewrite H; [done|by apply pfx_3_user]. Qed.



(** ** Gates *)

Lemma lor_low w x y : 0 <= w -> 0 <= x < 2 ^ w -> Z.lor x (y * 2 ^ w) = x + y * 2 ^ w.
Proof.
  intros Hw Hx. symmetry. apply Z.add_nocarry_lor. apply Z.bits_inj'. intros n Hn. rewrite Z.land_spec, Z.bits_0.
  destruct (Z.lt_ge_cases n w) as [H|H].
  - by rewrite (Z.mul_pow2_bits_low y w n), andb_false_r.
  - rewrite <-(Z.mod_small x (2 ^ w)) by done. by rewrite Z.mod_pow2_bits_high by lia.
Qed.

Lemma mod4_cases pl : pl mod 4 = 0 \/ pl mod 4 = 1 \/ pl mod 4 = 2 \/ pl mod 4 = 3.
Proof. pose proof (Z.mod_pos_bound pl 4). lia. Qed.

Lemma mkgate_words n kva pl idt :
  0 <= n < 256 -> 0 <= kva < 2 ^ 64 ->
  let t := mkgate n kva pl idt in
  t (4 * n) = kva mod 65536 + 524288 /\
  t (4 * n + 1) = kva / 65536 mod 65536 * 65536 + 36352 + 8192 * (pl mod 4) /\
  t (4 * n + 2) = kva / 4294967296 /\ t (4 * n + 3) = 0 /\
  forall i, i < 4 * n \/ 4 * n + 4 <= i -> t i = idt i.
Proof.
  intros Hn Ha t. unfold t, mkgate. rewrite (u32_small (n * 4)) by lia. rewrite (Z.mul_comm n 4).
  assert (E0 : Z.lor (Z.land kva 65535) (Z.shiftl KERNEL_CS 16) = kva mod 65536 + 524288).
  { change 65535 with (Z.ones 16). rewrite Z.land_ones by lia. change (Z.shiftl KERNEL_CS 16) with (8 * 2 ^ 16).
    apply (lor_low 16); [lia|]. apply Z.mod_pos_bound. lia. }
  assert (E1 : Z.lor (Z.lor (Z.land kva 4294901760) 36352) (Z.shiftl (Z.land pl 3) 13) =
    kva / 65536 mod 65536 * 65536 + 36352 + 8192 * (pl mod 4)).
  { assert (Eh : Z.land kva 4294901760 = kva / 65536 mod 65536 * 2 ^ 16).
    { change 4294901760 with (Z.shiftl (Z.ones 16) 16). change 65536 with (2 ^ 16).
      apply Z.bits_inj'. intros i Hi. rewrite Z.land_spec, Z.shiftl_spec by lia.
      destruct (Z.lt_ge_cases i 16) as [H|H].
      - rewrite (Z.testbit_neg_r (Z.ones 16)), Z.mul_pow2_bits_low by lia. apply andb_false_r.
      - rewrite (Z.mul_pow2_bits _ 16 i) by lia. destruct (Z.lt_ge_cases (i - 16) 16) as [H'|H'].
        + rewrite Z.ones_spec_low, Z.mod_pow2_bits_low, Z.div_pow2_bits by lia. rewrite andb_true_r. f_equal. lia.
        + rewrite Z.ones_spec_high, Z.mod_pow2_bits_high by lia. apply andb_false_r. }
    rewrite Eh, <-Z.lor_assoc, Z.lor_comm. change 3 with (Z.ones 2). rewrite Z.land_ones by lia. change (2 ^ 2) with 4.
    rewrite (lor_low 16); [|lia|destruct (mod4_cases pl) as [->|[->|[->| ->]]]; vm_compute; split; congruence].
    replace (Z.lor 36352 (Z.shiftl (pl mod 4) 13)) with (36352 + 8192 * (pl mod 4))
      by (destruct (mod4_cases pl) as [->|[->|[->| ->]]]; reflexivity). change (2 ^ 16) with 65536. lia. }
  rewrite E0, E1. clear E0 E1. pose proof (Z.mod_pos_bound kva 65536 ltac:(lia)).
  pose proof (Z.mod_pos_bound (kva / 65536) 65536 ltac:(lia)). pose proof (Z.mod_pos_bound pl 4 ltac:(lia)).
  rewrite Z.shiftr_div_pow2 by lia. change (2 ^ 32) with 4294967296.
  assert (0 <= kva / 4294967296 < 4294967296) by (Z.to_euclidean_division_equations; lia).
  rewrite !u32_small by lia.
  repeat split; repeat first [rewrite fn_lookup_insert_ne by lia | rewrite fn_lookup_insert]; try done.
  intros i Hi. by rewrite !fn_lookup_insert_ne by lia.
Qed.

Lemma mkgate_at n kva pl idt :
  0 <= n < 256 -> 0 <= kva < 2 ^ 64 -> gate_at (mkgate n kva pl idt) n = Gate kva KERNEL_CS 0 14 (pl mod 4) true.
Proof.
  intros Hn Ha. destruct (mkgate_words n kva pl idt Hn Ha) as (E0 & E1 & E2 & _ & _). unfold gate_at. rewrite E0, E1, E2.
  set (h := kva / 65536 mod 65536). pose proof (Z.mod_pos_bound pl 4 ltac:(lia)) as Hp. set (q := pl mod 4) in *. clearbody q.
  assert (Et : Z.testbit (h * 65536 + 36352 + 8192 * q) 15 = true).
  { rewrite Z.testbit_odd, Z.shiftr_div_pow2 by lia. change (2 ^ 15) with 32768.
    replace ((h * 65536 + 36352 + 8192 * q) / 32768) with (2 * h + 1) by (Z.to_euclidean_division_equations; lia).
    by rewrite Z.odd_add, Z.odd_mul. }
  rewrite Et. f_equal; subst h; clear Et; unfold KERNEL_CS; Z.to_euclidean_division_equations; lia.
Qed.

Lemma mkgates_at k : forall n vectors idt i,
  0 <= n -> n + Z.of_nat k <= 256 -> (forall j, n <= j < n + Z.of_nat k -> 0 <= vectors j < 2 ^ 64) ->
  gate_at (mkgates k n vectors idt) i =
  if (n <=? i) && (i <? n + Z.of_nat k) then Gate (vectors i) KERNEL_CS 0 14 0 true else gate_at idt i.
Proof.
  induction k as [|k IH]; intros n vectors idt i Hn Hk Hv; cbn [mkgates].
  - destruct (Z.leb_spec n i), (Z.ltb_spec i (n + Z.of_nat 0)); cbn [andb]; try done. lia.
  - rewrite IH; [|lia|lia|intros j Hj; apply Hv; lia].
    destruct (Z.eq_dec i n) as [->|N].
    + rewrite (proj2 (Z.leb_gt (n + 1) n)), (proj2 (Z.leb_le n n)), (proj2 (Z.ltb_lt n (n + Z.of_nat (S k)))) by lia.
      cbn [andb]. by rewrite mkgate_at by (lia || (apply Hv; lia)).
    + destruct (mkgate_words n (vectors n) 0 idt) as (_ & _ & _ & _ & Ho); [lia|apply Hv; lia|].
      assert (E : gate_at (mkgate n (vectors n) 0 idt) i = gate_at idt i) by (unfold gate_at; by rewrite !Ho by lia).
      rewrite E. destruct (Z.leb_spec (n + 1) i), (Z.leb_spec n i), (Z.ltb_spec i (n + 1 + Z.of_nat k)),
        (Z.ltb_spec i (n + Z.of_nat (S k))); cbn [andb]; try done; lia.
Qed.

(** ** Segments *)

Lemma land_mod w x : 0 <= w -> Z.land x (2 ^ w - 1) = x mod 2 ^ w.
Proof. intros Hw. rewrite <-Z.land_ones by done. by rewrite Z.ones_equiv, Z.sub_1_r. Qed.

Lemma tss_base local : 0 <= local -> local + 4096 <= 2 ^ 64 -> system_base (seginit local) (tr (seginit local)) = Some (local + 1024).
Proof.
  intros H0 H1. unfold system_base, descriptor, seginit. cbn [gdt gdt_limit tr]. change (Z.shiftl 7 3) with 56.
  change ((NSEGS + 1) * 8 - 1 <? 56 / 8 * 8 + 7) with false. change ((NSEGS + 1) * 8 - 1 <? (56 + 8) / 8 * 8 + 7) with false.
  change (Z.to_nat (56 / 8)) with 7%nat. change (Z.to_nat ((56 + 8) / 8)) with 8%nat. cbn [lookup list_lookup]. f_equal.
  set (t := local + 1024). assert (Ht : 0 <= t < 2 ^ 64) by lia. clearbody t.
  unfold seg_base, SEG, bits. cbn [base_15_0 base_23_16 base_31_24 lim_15_0].
  change 65535 with (2 ^ 16 - 1). change 255 with (2 ^ 8 - 1). rewrite !land_mod, !Z.shiftr_div_pow2 by lia. unfold u32.
  change (2 ^ 16) with 65536. change (2 ^ 8) with 256. change (2 ^ 24) with 16777216. change (2 ^ 32) with 4294967296.
  change (2 ^ 48) with 281474976710656. Z.to_euclidean_division_equations. lia.
Qed.

(** C31: The tables the processor reads say what the assembly relies on.  After [tvinit] each of the 256
    gates is a present interrupt gate of the kernel's code segment, which user code cannot
    call, for the vector of that number; after [seginit] the task segment
    is the one in the CPU's local page, from which an interrupt takes its stack; the
    selectors that [syscall] and [sysretq] derive from the register [syscallinit] writes are those of
    64-bit code and of data of the kernel and of the user; and [syscall] turns interrupts off. *)
Theorem processor_tables vectors local :
  (forall n, 0 <= n < 256 -> 0 <= vectors n < 2 ^ 64) -> 0 <= local -> local + 4096 <= 2 ^ 64 ->
  let s := seginit local in
  (forall n, 0 <= n < 256 -> gate_at (tvinit vectors) n = Gate (vectors n) KERNEL_CS 0 14 0 true) /\
  system_base s (tr s) = Some (local + 1024) /\
  msr_star / 2 ^ 32 mod 2 ^ 16 = KERNEL_CS /\ KERNEL_CS + 8 = KERNEL_DS /\
  msr_star / 2 ^ 48 + 16 = USER_CS /\ msr_star / 2 ^ 48 + 8 = USER_DS /\
  (exists c d, descriptor s KERNEL_CS = Some c /\ code64 0 c = true /\ descriptor s KERNEL_DS = Some d /\ data_seg 0 d = true) /\
  (exists c d, descriptor s USER_CS = Some c /\ code64 3 c = true /\ descriptor s USER_DS = Some d /\ data_seg 3 d = true) /\
  Z.land msr_sfmask FL_IF = FL_IF.
Proof.
  intros Hv H0 H1 s. split.
  - intros n Hn. unfold tvinit. rewrite mkgates_at; [|lia|done|intros j Hj; apply Hv; lia].
    rewrite (proj2 (Z.leb_le 0 n)), (proj2 (Z.ltb_lt n _)) by lia. done.
  - split; [by apply tss_base|]. do 4 (split; [reflexivity|]). split; [|split; [|reflexivity]]; do 2 eexists; repeat split.
Qed.

Lemma processor_tables_witness :
  gate_at (tvinit (fun n => 18446603336222248960 + 16 * n)) 32 = Gate (18446603336222248960 + 512) KERNEL_CS 0 14 0 true /\
  system_base (seginit 18446603336222244864) 56 = Some 18446603336222245888.
Proof.
  destruct (processor_tables (fun n => 18446603336222248960 + 16 * n) 18446603336222244864) as (H & Ht & _);
    [intros n Hn; lia|lia|lia|].
  split; [exact (H 32 ltac:(lia))|exact Ht].
Defined.
