(* ===== verification/Startup.v ===== *)
(** * The start of the machine: bootasm.S, entry.S, entryother.S, asm.h and [startothers] of main.c

    The first processor comes from the BIOS in real mode, switches to protected mode for the boot loader
    ([Bootmain]), and from there to the kernel, which switches to long mode and calls [main].  The
    others are started by [startothers], one after the other, at a copy of entryother.S; they come through the same
    code of entry.S to [mpenter], each on a stack of its own.  Physical memory is seen at [P2V] as in the other files. *)
From S2P Require Import Prelude Memory Strings Kalloc Vm Uvm Space Mp Apic Trapasm Setup.

(** ** The processor *)

Inductive mode : Type := Real16 | Prot32 | Long64.

(** [b_segs] are DS, ES, SS, FS and GS; [b_if] is whether interrupts are on. *)
Record bcpu : Type := Bcpu {
  b_mode : mode;
  b_cr0 : Z;
  b_cr3 : Z;
  b_cr4 : Z;
  b_efer : Z;
  b_gdt : list Z;
  b_segs : list Z;
  b_ebx : Z;
  b_rsp : Z;
  b_if : bool;
}.
Record boot : Type := Booting { bt_mem : mem; bt_cpu : bcpu }.

Definition CR0_PE : Z := 1.
Definition CR0_MP : Z := 2.
Definition CR0_WP : Z := 65536.
Definition CR0_PG : Z := 2147483648.

Definition cpu_step (f : bcpu -> bcpu) : M boot unit := modify (fun s => Booting (bt_mem s) (f (bt_cpu s))).
Definition mem_step (f : mem -> mem) : M boot unit := modify (fun s => Booting (f (bt_mem s)) (bt_cpu s)).

Definition set_mode (v : mode) (c : bcpu) : bcpu :=
  Bcpu v (b_cr0 c) (b_cr3 c) (b_cr4 c) (b_efer c) (b_gdt c) (b_segs c) (b_ebx c) (b_rsp c) (b_if c).
Definition set_cr0 (v : Z) (c : bcpu) : bcpu :=
  Bcpu (b_mode c) v (b_cr3 c) (b_cr4 c) (b_efer c) (b_gdt c) (b_segs c) (b_ebx c) (b_rsp c) (b_if c).
Definition set_cr3 (v : Z) (c : bcpu) : bcpu :=
  Bcpu (b_mode c) (b_cr0 c) v (b_cr4 c) (b_efer c) (b_gdt c) (b_segs c) (b_ebx c) (b_rsp c) (b_if c).
Definition set_cr4 (v : Z) (c : bcpu) : bcpu :=
  Bcpu (b_mode c) (b_cr0 c) (b_cr3 c) v (b_efer c) (b_gdt c) (b_segs c) (b_ebx c) (b_rsp c) (b_if c).
Definition set_efer (v : Z) (c : bcpu) : bcpu :=
  Bcpu (b_mode c) (b_cr0 c) (b_cr3 c) (b_cr4 c) v (b_gdt c) (b_segs c) (b_ebx c) (b_rsp c) (b_if c).
Definition set_gdt (v : list Z) (c : bcpu) : bcpu :=
  Bcpu (b_mode c) (b_cr0 c) (b_cr3 c) (b_cr4 c) (b_efer c) v (b_segs c) (b_ebx c) (b_rsp c) (b_if c).
Definition set_segs (v : list Z) (c : bcpu) : bcpu :=
  Bcpu (b_mode c) (b_cr0 c) (b_cr3 c) (b_cr4 c) (b_efer c) (b_gdt c) v (b_ebx c) (b_rsp c) (b_if c).
Definition set_ebx (v : Z) (c : bcpu) : bcpu :=
  Bcpu (b_mode c) (b_cr0 c) (b_cr3 c) (b_cr4 c) (b_efer c) (b_gdt c) (b_segs c) v (b_rsp c) (b_if c).
Definition set_rsp (v : Z) (c : bcpu) : bcpu :=
  Bcpu (b_mode c) (b_cr0 c) (b_cr3 c) (b_cr4 c) (b_efer c) (b_gdt c) (b_segs c) (b_ebx c) v (b_if c).
Definition set_if (v : bool) (c : bcpu) : bcpu :=
  Bcpu (b_mode c) (b_cr0 c) (b_cr3 c) (b_cr4 c) (b_efer c) (b_gdt c) (b_segs c) (b_ebx c) (b_rsp c) v.

(** A write of CR0: paging needs protection, and in long mode PAE. *)
Definition mov_cr0 (f : Z -> Z) : M boot unit :=
  let! s := get in
  let v := f (b_cr0 (bt_cpu s)) in
  if Z.testbit v 31 && (negb (Z.testbit v 0) || (Z.testbit (b_efer (bt_cpu s)) 8 && negb (Z.testbit (b_cr4 (bt_cpu s)) 5)))
  then panic "general protection"
  else cpu_step (set_cr0 v).

Definition long_active (c : bcpu) : bool := Z.testbit (b_cr0 c) 31 && Z.testbit (b_cr4 c) 5 && Z.testbit (b_efer c) 8.
Definition seg_at (c : bcpu) (sel : Z) : Z := default 0 (b_gdt c !! Z.to_nat (sel / 8)).

(** The far jump: the selector is that of a present code segment, whose bits L and D give the mode. *)
Definition ljmp (sel : Z) : M boot unit :=
  let! s := get in
  let c := bt_cpu s in
  let d := seg_at c sel in
  if negb (Z.testbit d 47 && Z.testbit d 44 && Z.testbit d 43) then panic "triple fault"
  else if long_active c && Z.testbit d 53 then cpu_step (set_mode Long64)
  else if Z.testbit (b_cr0 c) 0 && Z.testbit d 54 then cpu_step (set_mode Prot32)
  else panic "triple fault".

(** The loads of DS, ES, SS with [sel] and of FS and GS with [sel2].  In protected mode SS needs a writable data segment. *)
Definition mov_segs (sel sel2 : Z) : M boot unit :=
  let! s := get in
  let d := seg_at (bt_cpu s) sel in
  match b_mode (bt_cpu s) with
  | Prot32 =>
      if Z.testbit d 47 && Z.testbit d 44 && negb (Z.testbit d 43) && Z.testbit d 41
      then cpu_step (set_segs [sel; sel; sel; sel2; sel2])
      else panic "triple fault"
  | _ => cpu_step (set_segs [sel; sel; sel; sel2; sel2])
  end.

(** Where control goes. *)
Inductive target : Type := To_bootmain | To_main | To_mpenter.

(** [call] in 32-bit code, with the return address [ra]. *)
Definition call32 (ra : Z) : M boot unit :=
  let! s := get in
  let sp := u32 (b_rsp (bt_cpu s) - 4) in
  do! cpu_step (set_rsp sp) in
  mem_step (fun m => store32 m (P2V sp) ra).

(** ** asm.h *)

Definition SEG_NULLASM : Z := 0.
Definition SEG_ASM (type base lim : Z) : Z :=
  Z.land (Z.shiftr lim 12) 65535 + 65536 * Z.land base 65535 + 2 ^ 32 * Z.land (Z.shiftr base 16) 255 +
  2 ^ 40 * Z.lor 144 type + 2 ^ 48 * Z.lor 192 (Z.land (Z.shiftr lim 28) 15) + 2 ^ 56 * Z.land (Z.shiftr base 24) 255.
Definition gdt32 : list Z := [SEG_NULLASM; SEG_ASM (Z.lor STA_X STA_R) 0 4294967295; SEG_ASM STA_W 0 4294967295].
Definition SEG_KCODE : Z := 1.
Definition SEG_KDATA : Z := 2.

(** ** bootasm.S *)

(** The keyboard controller, which has the gate of address line 20: how many more reads of its status show it busy,
    whether the next byte is for its output port, and the gate.  A write while it is busy is lost. *)
Record kbc : Type := Kbc { kb_busy : nat; kb_port : bool; kb_a20 : bool }.

Section Bootasm.
Variable delay : nat.

Definition kb_status : M kbc Z :=
  let! s := get in
  match kb_busy s with
  | O => ret 0
  | S n => do! put (Kbc n (kb_port s) (kb_a20 s)) in ret 2
  end.
Definition kb_command (v : Z) : M kbc unit :=
  modify (fun s => match kb_busy s with O => Kbc delay (v =? 209) (kb_a20 s) | S _ => s end).
Definition kb_data (v : Z) : M kbc unit :=
  modify (fun s => match kb_busy s with O => Kbc delay false (if kb_port s then Z.testbit v 1 else kb_a20 s) | S _ => s end).

Fixpoint kb_wait (fuel : nat) : M kbc unit :=
  match fuel with
  | O => out_of_fuel
  | S fuel =>
      let! al := kb_status in
      if negb (Z.land al 2 =? 0) then kb_wait fuel else ret tt
  end.
Definition seta20 (fuel : nat) : M kbc unit :=
  do! kb_wait fuel in
  do! kb_command 209 in
  do! kb_wait fuel in
  kb_data 223.
End Bootasm.

(** From real to 32-bit protected mode, with flat segments; in bootasm.S and entryother.S alike. *)
Definition protect : M boot unit :=
  do! cpu_step (set_gdt gdt32) in
  do! mov_cr0 (fun v => Z.lor v CR0_PE) in
  do! ljmp (Z.shiftl SEG_KCODE 3) in
  mov_segs (Z.shiftl SEG_KDATA 3) 0.

(** The first instructions.  FS and GS are as they were. *)
Definition real_start : M boot unit :=
  do! cpu_step (set_if false) in
  cpu_step (fun c => set_segs ([0; 0; 0] ++ drop 3 (b_segs c)) c).

(** [ra] is the return address of the call. *)
Definition bootasm (delay fuel : nat) (ra : Z) : M (kbc * boot) target := fun s =>
  match real_start s.2 with
  | Ok (_, b) =>
      match seta20 delay fuel s.1 with
      | Ok (_, kb) =>
          match (do! protect in do! cpu_step (set_rsp 31744) in do! call32 ra in ret To_bootmain) b with
          | Ok (t, b') => Ok (t, (kb, b'))
          | Panic msg => Panic msg
          | Block => Block
          | Fuel => Fuel
          end
      | Panic msg => Panic msg
      | Block => Block
      | Fuel => Fuel
      end
  | Panic msg => Panic msg
  | Block => Block
  | Fuel => Fuel
  end.

(** ** entry.S *)

Definition gdt64 : list Z := [0; 2 ^ 32 * 2136064; 2 ^ 32 * 36864].   (* 0x00209800, 0x00009000 *)

(** A load through the page table. *)
Definition vload64 (va : Z) : M boot Z :=
  let! s := get in
  match mmu 3 (bt_mem s) (P2V (b_cr3 (bt_cpu s))) va with
  | Some (pa, _) => ret (load64 (bt_mem s) (P2V pa))
  | None => panic "page fault"
  end.

Definition entry64high : M boot target :=
  do! mov_segs 0 0 in
  let! s := get in
  if Z.land (b_ebx (bt_cpu s)) (b_ebx (bt_cpu s)) =? 0 then
    do! cpu_step (set_rsp 18446603336221261824) in     (* 0xFFFF800000010000 *)
    ret To_main
  else
    let rax := 28672 in
    let! v := vload64 (rax - 16) in
    do! cpu_step (set_rsp v) in
    ret To_mpenter.

Definition entry32mp : M boot target :=
  do! cpu_step (set_cr3 4096) in
  do! cpu_step (set_gdt gdt64) in
  do! cpu_step (fun c => set_cr4 (Z.setbit (b_cr4 c) 5) c) in
  do! cpu_step (fun c => set_efer (Z.setbit (Z.setbit (b_efer c) 0) 8) c) in
  do! mov_cr0 (fun v => Z.lor v (Z.lor (Z.lor CR0_PG CR0_WP) CR0_MP)) in
  do! ljmp 8 in
  entry64high.

(** The stores are of 32 bits. *)
Definition mboot_entry : M boot target :=
  do! mem_step (fun m => stosb m (P2V 4096) 0 (Z.to_nat 8192)) in
  do! mem_step (fun m => store32 m (P2V 4096) (Z.lor (Z.lor 8192 PTE_P) PTE_W)) in
  do! mem_step (fun m => store32 m (P2V 6144) (Z.lor (Z.lor 8192 PTE_P) PTE_W)) in
  do! mem_step (fun m => store32 m (P2V 8192) (Z.lor (Z.lor (Z.lor 0 PTE_P) PTE_PS) PTE_W)) in
  do! cpu_step (set_ebx 0) in
  entry32mp.

(** ** entryother.S *)

(** [pa32] is the physical address of [entry32mp]; [ra] the return address of the call. *)
Section Others.
Variables pa32 ra : Z.
Variable image : list Z.

Definition entryother : M boot target :=
  do! real_start in
  do! protect in
  do! cpu_step (set_ebx 1) in
  let! s := get in
  do! cpu_step (set_rsp (load32 (bt_mem s) (P2V (28672 - 4)))) in
  let t := load32 (bt_mem s) (P2V (28672 - 8)) in
  do! call32 ra in
  if t =? pa32 then entry32mp else panic "jump to no code".

(** A processor that gets a startup interrupt runs what is at the page of the vector, in real mode. *)
Definition reset_cpu : bcpu := Bcpu Real16 16 0 0 0 [] [0; 0; 0; 0; 0] 0 0 false.
Definition ap_runs (m : mem) (vector : Z) : res (target * boot) :=
  if bool_decide (rd_bytes (length image) m (P2V (4096 * vector)) = image) && (4096 * vector =? 28672)
  then entryother (Booting m reset_cpu)
  else Panic "no code".

(** ** startothers *)

(** The memory allocator with all memory, the local APIC of this processor, and the other processors that run, with
    where they are. *)
Record ssys : Type := Ssys { st_km : kmem; st_la : lapicst; st_up : list (Z * target * bcpu) }.
Variable adelay : nat -> nat.
Variables src id_reg : Z.
Variable cpus : mpstate.

Definition st_kmem {A} (c : M kmem A) : M ssys A := fun s =>
  match c (st_km s) with
  | Ok (a, k) => Ok (a, Ssys k (st_la s) (st_up s))
  | Panic msg => Panic msg
  | Block => Block
  | Fuel => Fuel
  end.
Definition st_lapic {A} (c : M lapicst A) : M ssys A := fun s =>
  match c (st_la s) with
  | Ok (a, la) => Ok (a, Ssys (st_km s) la (st_up s))
  | Panic msg => Panic msg
  | Block => Block
  | Fuel => Fuel
  end.

(** The processor that the last command was for starts, and sets [started] in the end; the loop waits for it, for ever if the
    command does not start it. *)
Definition wait_started (id : Z) : M ssys unit :=
  let! s := get in
  match command_of <$> last (la_sent (st_la s)) with
  | Some c =>
      if (c_kind c =? 6) && (c_dest c =? id) then
        match ap_runs (km_mem (st_km s)) (c_vector c) with
        | Ok (t, b) => put (Ssys (set_mem (bt_mem b) (st_km s)) (st_la s) (st_up s ++ [(id, t, bt_cpu b)]))
        | _ => fun _ => Block
        end
      else fun _ => Block
  | None => fun _ => Block
  end.

Definition code : Z := P2V 28672.
Definition start_one (i : Z) : M ssys unit :=
  let! stack := st_kmem kalloc in
  do! st_kmem (modify (fun k => set_mem (store32 (km_mem k) (code - 4) 32768) k)) in
  do! st_kmem (modify (fun k => set_mem (store32 (km_mem k) (code - 8) pa32) k)) in
  do! st_kmem (modify (fun k => set_mem (store64 (km_mem k) (code - 16) (u64 (stack + 4096))) k)) in
  do! st_lapic (lapicstartap adelay (apicid cpus i) (V2P code)) in
  wait_started (apicid cpus i).

(** [cpunum()]; [id_reg] is what the ID register reads on this processor. *)
Definition here : M ssys Z := fun s =>
  match cpunum id_reg cpus with
  | Ok v => Ok (v, s)
  | Panic msg => Panic msg
  | Block => Block
  | Fuel => Fuel
  end.
Fixpoint startothers_loop (n : nat) (i : Z) : M ssys unit :=
  match n with
  | O => ret tt
  | S n =>
      let! me := here in
      do! (if i =? me then ret tt else start_one i) in
      startothers_loop n (i + 1)
  end.

Definition startothers : M ssys unit :=
  do! st_kmem (modify (fun k => set_mem (memmove (km_mem k) code src (Z.of_nat (length image))) k)) in
  startothers_loop (Z.to_nat (ncpu cpus)) 0.
End Others.

(** ** The bootstrap page table *)

(** PML4[0] and PML4[256] lead to one table, whose first entry maps a gigabyte. *)
Record boot_tables (m : mem) : Prop := {
  bt_low : ent m (P2V 4096) 0 = 8195;
  bt_high : ent m (P2V 4096) 256 = 8195;
  bt_giga : ent m (P2V 8192) 0 = 131;
  bt_none : forall i, 0 <= i < 512 -> i <> 0 -> i <> 256 -> ent m (P2V 4096) i = 0;
  bt_none2 : forall i, 0 <= i < 512 -> i <> 0 -> ent m (P2V 8192) i = 0;
}.

Lemma P2V_low x : 0 <= x < 2 ^ 40 -> P2V x = KERNBASE + x.
Proof. intros H. unfold P2V, KERNBASE. rewrite u64_small; lia. Qed.

Lemma load_add n k m : forall a, load (n + k) m a = load n m a + 256 ^ Z.of_nat n * load k m (a + Z.of_nat n).
Proof.
  induction n as [|n IH]; intros a; cbn [load Nat.add].
  - rewrite Z.add_0_r. lia.
  - rewrite IH. replace (a + Z.of_nat (S n)) with (a + 1 + Z.of_nat n) by lia.
    replace (256 ^ Z.of_nat (S n)) with (256 * 256 ^ Z.of_nat n) by (rewrite Nat2Z.inj_succ, Z.pow_succ_r; lia). ring.
Qed.
Lemma load64_store32 m a v : 0 <= v < 2 ^ 32 -> (forall i, a + 4 <= i < a + 8 -> rd m i = 0) -> load64 (store32 m a v) a = v.
Proof.
  intros Hv Hz. unfold load64, store32. change 8%nat with (4 + 4)%nat. rewrite load_add, load_store_eq.
  rewrite load_store_ne by lia. rewrite Z.mod_small by (change (256 ^ Z.of_nat 4) with (2 ^ 32); lia).
  assert (E : load 4 m (a + Z.of_nat 4) = 0) by (cbn [load]; rewrite !Hz by lia; done). rewrite E. lia.
Qed.

Lemma boot_tables_made m0 : (forall x, KERNBASE + 4096 <= x < KERNBASE + 12288 -> rd m0 x = 0) ->
  boot_tables (store32 (store32 (store32 m0 (P2V 4096) 8195) (P2V 6144) 8195) (P2V 8192) 131).
Proof.
  intros Hz. rewrite !P2V_low by lia.
  split; try rewrite !P2V_low by lia; unfold ent, entry.
  - change (8 * 0) with 0. rewrite Z.add_0_r. unfold load64, store32. rewrite !(load_store_ne 8 4) by lia.
    apply (load64_store32 m0); [lia|]. intros i Hi. apply Hz. lia.
  - change (8 * 256) with 2048. replace (KERNBASE + 4096 + 2048) with (KERNBASE + 6144) by lia. unfold load64, store32. rewrite (load_store_ne 8 4) by lia.
    apply (load64_store32 (store 4 m0 _ _)); [lia|]. intros i Hi. rewrite rd_store_out by lia. apply Hz. lia.
  - change (8 * 0) with 0. rewrite Z.add_0_r. apply (load64_store32 (store32 (store32 m0 _ _) _ _)); [lia|].
    intros i Hi. unfold store32. rewrite !rd_store_out by lia. apply Hz. lia.
  - intros i Hi H0 H1. apply load64_zero. intros x Hx. unfold store32. rewrite !rd_store_out by lia. apply Hz. lia.
  - intros i Hi H0. apply load64_zero. intros x Hx. unfold store32. rewrite !rd_store_out by lia. apply Hz. lia.
Qed.
Lemma cleared_low m n : n = Z.to_nat 8192 -> forall x, KERNBASE + 4096 <= x < KERNBASE + 12288 -> rd (stosb m (P2V 4096) 0 n) x = 0.
Proof.
  intros Hn x Hx. rewrite rd_stosb, P2V_low by lia. destruct (in_range_spec (KERNBASE + 4096) (Z.of_nat n) x); [done|lia].
Qed.

Lemma boot_tables_ext m m' : (forall x, KERNBASE + 4096 <= x < KERNBASE + 12288 -> rd m' x = rd m x) -> boot_tables m -> boot_tables m'.
Proof.
  intros Hx [H1 H2 H3 H4 H5].
  assert (E : forall t i, t = P2V 4096 \/ t = P2V 8192 -> 0 <= i < 512 -> ent m' t i = ent m t i).
  { intros t i Ht Hi. apply load64_ext. intros x Hr. apply Hx. rewrite !P2V_low in Ht by lia. unfold entry in Hr. lia. }
  split; intros; rewrite E by (auto || lia); auto.
Qed.

(** The first gigabyte, at 0 and at KERNBASE. *)
Lemma boot_maps m x : boot_tables m -> 0 <= x < 1073741824 ->
  mmu 3 m (P2V 4096) x = Some (x, false) /\ mmu 3 m (P2V 4096) (KERNBASE + x) = Some (x, false).
Proof.
  intros [H1 H2 H3 _ _] Hx.
  assert (E : forall va, (va = x \/ va = KERNBASE + x) -> (pfx 3 va mod 512 = 0 \/ pfx 3 va mod 512 = 256) /\ pfx 2 va mod 512 = 0 /\ va mod 1073741824 = x).
  { intros va Hva. unfold pfx, KERNBASE in *. change (2 ^ (12 + 9 * Z.of_nat 3)) with 549755813888. change (2 ^ (12 + 9 * Z.of_nat 2)) with 1073741824.
    destruct Hva as [->| ->]; Z.to_euclidean_division_equations; lia. }
  assert (G : forall va, va = x \/ va = KERNBASE + x -> mmu 3 m (P2V 4096) va = Some (x, false)).
  { intros va Hva. destruct (E va Hva) as (E3 & E2 & Em). cbn [mmu]. change (2 ^ (12 + 9 * Z.of_nat 2)) with 1073741824. rewrite Em, E2.
    assert (Ht : ent m (P2V 4096) (pfx 3 va mod 512) = 8195) by (destruct E3 as [->| ->]; done). rewrite Ht.
    change (P2V (8195 mod 2 ^ 52 / 4096 * 4096)) with (P2V 8192). rewrite H3. reflexivity. }
  split; apply G; auto.
Qed.

(** ** The switches of mode *)

Record in_prot_mode (c : bcpu) : Prop := {
  ip_mode : b_mode c = Prot32;
  ip_pe : Z.testbit (b_cr0 c) 0 = true;
  ip_pg : Z.testbit (b_cr0 c) 31 = false;
  ip_segs : b_segs c = [16; 16; 16; 0; 0];
  ip_gdt : b_gdt c = gdt32;
  ip_if : b_if c = false;
}.
Record in_long_mode (c : bcpu) : Prop := {
  il_mode : b_mode c = Long64;
  il_active : long_active c = true;
  il_wp : Z.testbit (b_cr0 c) 16 = true;
  il_cr3 : b_cr3 c = 4096;
  il_segs : b_segs c = [0; 0; 0; 0; 0];
  il_if : b_if c = false;
}.

Lemma code32 : Z.testbit (SEG_ASM (Z.lor STA_X STA_R) 0 4294967295) 47 && Z.testbit (SEG_ASM (Z.lor STA_X STA_R) 0 4294967295) 44 &&
  Z.testbit (SEG_ASM (Z.lor STA_X STA_R) 0 4294967295) 43 = true /\ Z.testbit (SEG_ASM (Z.lor STA_X STA_R) 0 4294967295) 54 = true.
Proof. by vm_compute. Qed.
Lemma data32 : Z.testbit (SEG_ASM STA_W 0 4294967295) 47 && Z.testbit (SEG_ASM STA_W 0 4294967295) 44 &&
  negb (Z.testbit (SEG_ASM STA_W 0 4294967295) 43) && Z.testbit (SEG_ASM STA_W 0 4294967295) 41 = true.
Proof. by vm_compute. Qed.

(** One instruction at a time. *)
Lemma cpu_step_Ok f m c : cpu_step f (Booting m c) = Ok (tt, Booting m (f c)).
Proof. reflexivity. Qed.
Lemma mov_cr0_Ok f m c v : f (b_cr0 c) = v ->
  Z.testbit v 31 && (negb (Z.testbit v 0) || (Z.testbit (b_efer c) 8 && negb (Z.testbit (b_cr4 c) 5))) = false ->
  mov_cr0 f (Booting m c) = Ok (tt, Booting m (set_cr0 v c)).
Proof. intros <- H. unfold mov_cr0, bind, get. cbn [bt_cpu]. by rewrite H. Qed.
Lemma ljmp_Ok sel m c d md : seg_at c sel = d -> Z.testbit d 47 && Z.testbit d 44 && Z.testbit d 43 = true ->
  (if long_active c && Z.testbit d 53 then Some Long64 else if Z.testbit (b_cr0 c) 0 && Z.testbit d 54 then Some Prot32 else None) = Some md ->
  ljmp sel (Booting m c) = Ok (tt, Booting m (set_mode md c)).
Proof.
  intros <- H1 H2. unfold ljmp, bind, get. cbn [bt_cpu]. rewrite H1. cbn [negb].
  destruct (long_active c && _); [by injection H2 as <-|]. destruct (Z.testbit (b_cr0 c) 0 && _); [by injection H2 as <-|done].
Qed.
Lemma mov_segs_Ok sel sel2 m c d : seg_at c sel = d ->
  b_mode c <> Prot32 \/ Z.testbit d 47 && Z.testbit d 44 && negb (Z.testbit d 43) && Z.testbit d 41 = true ->
  mov_segs sel sel2 (Booting m c) = Ok (tt, Booting m (set_segs [sel; sel; sel; sel2; sel2] c)).
Proof.
  intros <- H. unfold mov_segs, bind, get. cbn [bt_cpu]. destruct (b_mode c); [done| |done]. destruct H as [|H]; [done|]. by rewrite H.
Qed.

Lemma protect_spec m c : Z.testbit (b_cr0 c) 31 = false -> b_if c = false ->
  exists c', protect (Booting m c) = Ok (tt, Booting m c') /\ in_prot_mode c' /\ b_cr4 c' = b_cr4 c /\ b_efer c' = b_efer c.
Proof.
  intros Hpg Hif. set (v := Z.lor (b_cr0 c) CR0_PE).
  assert (H0 : Z.testbit v 0 = true) by (unfold v; rewrite Z.lor_spec, orb_comm; done).
  assert (H31 : Z.testbit v 31 = false) by (unfold v; rewrite Z.lor_spec, Hpg; done).
  destruct code32 as [Hc1 Hc2]. unfold protect. rewrite (bind_Ok _ _ _ _ _ (cpu_step_Ok _ _ _)).
  rewrite (bind_Ok _ _ _ _ _ (mov_cr0_Ok _ m (set_gdt gdt32 c) v eq_refl ltac:(by rewrite H31))).
  set (c1 := set_cr0 v (set_gdt gdt32 c)).
  assert (Hmd : (if long_active c1 && Z.testbit (SEG_ASM (Z.lor STA_X STA_R) 0 4294967295) 53 then Some Long64
    else if Z.testbit (b_cr0 c1) 0 && Z.testbit (SEG_ASM (Z.lor STA_X STA_R) 0 4294967295) 54 then Some Prot32 else None) = Some Prot32).
  { unfold long_active. change (b_cr0 c1) with v. by rewrite H31, H0, Hc2. }
  rewrite (bind_Ok _ _ _ _ _ (ljmp_Ok (Z.shiftl SEG_KCODE 3) m c1 _ Prot32 eq_refl Hc1 Hmd)).
  rewrite (mov_segs_Ok (Z.shiftl SEG_KDATA 3) 0 m (set_mode Prot32 c1) (SEG_ASM STA_W 0 4294967295) eq_refl (or_intror data32)).
  eexists. split; [reflexivity|]. split; [by split|done].
Qed.

Lemma code64_bits : let d := 2 ^ 32 * 2136064 in Z.testbit d 47 && Z.testbit d 44 && Z.testbit d 43 = true /\ Z.testbit d 53 = true.
Proof. by vm_compute. Qed.

(** The common path of entry.S, for the first processor and for the others. *)
Lemma entry32mp_spec m c : in_prot_mode c -> boot_tables m -> b_ebx c = 0 \/ b_ebx c = 1 ->
  exists c', entry32mp (Booting m c) = Ok (if b_ebx c =? 0 then To_main else To_mpenter, Booting m c') /\ in_long_mode c' /\
    b_rsp c' = if b_ebx c =? 0 then KERNBASE + 65536 else load64 m (P2V (28672 - 16)).
Proof.
  intros [Hm H0 H31 _ _ Hif] Hb Hx. set (v := Z.lor (b_cr0 c) (Z.lor (Z.lor CR0_PG CR0_WP) CR0_MP)).
  assert (V0 : Z.testbit v 0 = true) by (unfold v; by rewrite Z.lor_spec, H0).
  assert (V31 : Z.testbit v 31 = true) by (unfold v; by rewrite Z.lor_spec, orb_comm).
  assert (V16 : Z.testbit v 16 = true) by (unfold v; by rewrite Z.lor_spec, orb_comm).
  assert (P5 : Z.testbit (Z.setbit (b_cr4 c) 5) 5 = true) by (by apply Z.setbit_eq).
  assert (L8 : Z.testbit (Z.setbit (Z.setbit (b_efer c) 0) 8) 8 = true) by (by apply Z.setbit_eq).
  destruct code64_bits as [Hc1 Hc2]. destruct (boot_maps m (28672 - 16) Hb ltac:(lia)) as [Hmap _].
  unfold entry32mp. do 4 rewrite (bind_Ok _ _ _ _ _ (cpu_step_Ok _ _ _)).
  set (c1 := set_efer _ _).
  assert (G : Z.testbit v 31 && (negb (Z.testbit v 0) || (Z.testbit (b_efer c1) 8 && negb (Z.testbit (b_cr4 c1) 5))) = false).
  { change (b_efer c1) with (Z.setbit (Z.setbit (b_efer c) 0) 8). change (b_cr4 c1) with (Z.setbit (b_cr4 c) 5). by rewrite V31, V0, L8, P5. }
  rewrite (bind_Ok _ _ _ _ _ (mov_cr0_Ok _ m c1 v eq_refl G)). set (c2 := set_cr0 v c1).
  assert (Ha : long_active c2 = true).
  { unfold long_active. change (b_cr0 c2) with v. change (b_cr4 c2) with (Z.setbit (b_cr4 c) 5).
    change (b_efer c2) with (Z.setbit (Z.setbit (b_efer c) 0) 8). by rewrite V31, P5, L8. }
  rewrite (bind_Ok _ _ _ _ _ (ljmp_Ok 8 m c2 (2 ^ 32 * 2136064) Long64 eq_refl Hc1 ltac:(by rewrite Ha, Hc2))).
  set (c3 := set_mode Long64 c2). assert (H64 : b_mode c3 <> Prot32) by done. unfold entry64high. rewrite (bind_Ok _ _ _ _ _ (mov_segs_Ok 0 0 m c3 _ eq_refl (or_introl H64))).
  set (c4 := set_segs _ c3). unfold bind at 1, get. cbn [bt_cpu]. change (b_ebx c4) with (b_ebx c).
  assert (Hlong : forall s, in_long_mode (set_rsp s c4)) by (intros s; split; try done; exact Ha || exact Hif).
  destruct Hx as [E|E]; rewrite E.
  - change (Z.land 0 0 =? 0) with true. cbv iota. rewrite (bind_Ok _ _ _ _ _ (cpu_step_Ok _ _ _)). eexists. split; [reflexivity|]. split; [apply Hlong|reflexivity].
  - assert (El : vload64 (28672 - 16) (Booting m c4) = Ok (load64 m (P2V (28672 - 16)), Booting m c4)).
    { unfold vload64, bind, get. cbn [bt_mem bt_cpu]. change (b_cr3 c4) with 4096. by rewrite Hmap. }
    change (Z.land 1 1 =? 0) with false. cbv iota zeta. rewrite (bind_Ok _ _ _ _ _ El), (bind_Ok _ _ _ _ _ (cpu_step_Ok _ _ _)).
    eexists. split; [reflexivity|]. split; [apply Hlong|reflexivity].
Qed.

(** ** The paths of the processors *)

Lemma kb_wait_spec fuel : forall s, (kb_busy s < fuel)%nat -> kb_wait fuel s = Ok (tt, Kbc 0 (kb_port s) (kb_a20 s)).
Proof.
  induction fuel as [|fuel IH]; intros [b p a] Hf; cbn [kb_busy kb_port kb_a20] in *; [lia|]. cbn [kb_wait].
  destruct b as [|b]; [reflexivity|].
  rewrite (bind_Ok kb_status _ _ 2 (Kbc b p a)) by reflexivity. change (negb (Z.land 2 2 =? 0)) with true. cbv iota. rewrite IH; [done|cbn; lia].
Qed.
Lemma seta20_spec delay fuel s : (kb_busy s < fuel)%nat -> (delay < fuel)%nat -> exists s', seta20 delay fuel s = Ok (tt, s') /\ kb_a20 s' = true.
Proof.
  intros H1 H2. unfold seta20. rewrite (bind_Ok _ _ _ _ _ (kb_wait_spec fuel s H1)).
  rewrite (bind_Ok _ _ _ tt (Kbc delay true (kb_a20 s))) by reflexivity.
  rewrite (bind_Ok _ _ _ _ _ (kb_wait_spec fuel (Kbc delay true (kb_a20 s)) H2)). eexists. split; reflexivity.
Qed.

Lemma real_start_Ok m c : real_start (Booting m c) = Ok (tt, Booting m (set_segs ([0; 0; 0] ++ drop 3 (b_segs c)) (set_if false c))).
Proof. reflexivity. Qed.

Lemma bootasm_spec delay fuel ra kb m c : Z.testbit (b_cr0 c) 31 = false -> (kb_busy kb < fuel)%nat -> (delay < fuel)%nat ->
  exists kb' c', bootasm delay fuel ra (kb, Booting m c) = Ok (To_bootmain, (kb', Booting (store32 m (P2V 31740) ra) c')) /\
    kb_a20 kb' = true /\ in_prot_mode c' /\ b_rsp c' = 31740.
Proof.
  intros Hpg H1 H2. unfold bootasm. cbn [fst snd]. rewrite real_start_Ok. destruct (seta20_spec delay fuel kb H1 H2) as (kb' & Ek & Ha). rewrite Ek.
  destruct (protect_spec m (set_segs ([0; 0; 0] ++ drop 3 (b_segs c)) (set_if false c)) Hpg eq_refl) as (c1 & E1 & I1 & _).
  rewrite (bind_Ok _ _ _ _ _ E1), (bind_Ok _ _ _ _ _ (cpu_step_Ok _ _ _)).
  exists kb', (set_rsp 31740 (set_rsp 31744 c1)). split; [reflexivity|]. split; [done|]. split; [|done]. destruct I1. by split.
Qed.

Lemma mboot_entry_spec m c : in_prot_mode c ->
  exists m' c', mboot_entry (Booting m c) = Ok (To_main, Booting m' c') /\ in_long_mode c' /\ b_rsp c' = KERNBASE + 65536 /\ boot_tables m' /\
    forall x, x < KERNBASE + 4096 \/ KERNBASE + 12288 <= x -> rd m' x = rd m x.
Proof.
  intros I. remember (Z.to_nat 8192) as n eqn:Hn. pose proof (cleared_low m n Hn) as Hz.
  set (m0 := stosb m (P2V 4096) 0 n) in *.
  set (m' := store32 (store32 (store32 m0 (P2V 4096) 8195) (P2V 6144) 8195) (P2V 8192) 131).
  pose proof (boot_tables_made m0 Hz) as Hb. fold m' in Hb.
  assert (E : mboot_entry (Booting m c) = entry32mp (Booting m' (set_ebx 0 c))) by (unfold mboot_entry, m', m0; rewrite Hn; reflexivity).
  destruct (entry32mp_spec m' (set_ebx 0 c)) as (c' & E' & Il & Hr); [destruct I; by split|done|by left|].
  exists m', c'. split; [rewrite E; exact E'|]. split; [done|]. split; [done|]. split; [done|].
  intros x Hx. unfold m', store32. rewrite !P2V_low by lia. rewrite !rd_store_out by lia. unfold m0. rewrite P2V_low, rd_stosb by lia.
  destruct (in_range_spec (KERNBASE + 4096) (Z.of_nat n) x); [lia|done].
Qed.

Section OthersProofs.
Variables pa32 ra : Z.

Lemma entryother_spec m : boot_tables m -> load32 m (P2V (28672 - 4)) = 32768 -> load32 m (P2V (28672 - 8)) = pa32 ->
  exists c', entryother pa32 ra (Booting m reset_cpu) = Ok (To_mpenter, Booting (store32 m (P2V 32764) ra) c') /\ in_long_mode c' /\
    b_rsp c' = load64 m (P2V (28672 - 16)).
Proof.
  intros Hb H4 H8. unfold entryother. rewrite (bind_Ok _ _ _ _ _ (real_start_Ok _ _)).
  destruct (protect_spec m (set_segs ([0; 0; 0] ++ drop 3 (b_segs reset_cpu)) (set_if false reset_cpu)) eq_refl eq_refl) as (c1 & E1 & I1 & _).
  rewrite (bind_Ok _ _ _ _ _ E1), (bind_Ok _ _ _ _ _ (cpu_step_Ok _ _ _)). unfold bind at 1, get. cbn [bt_mem]. rewrite H4, H8.
  rewrite (bind_Ok _ _ _ _ _ (cpu_step_Ok _ _ _)). cbv zeta.
  rewrite (bind_Ok _ _ _ tt (Booting (store32 m (P2V 32764) ra) (set_rsp 32764 (set_rsp 32768 (set_ebx 1 c1))))) by reflexivity.
  rewrite Z.eqb_refl. set (m' := store32 m (P2V 32764) ra).
  assert (Hm : forall x, x < KERNBASE + 32764 \/ KERNBASE + 32768 <= x -> rd m' x = rd m x).
  { intros x Hx. unfold m', store32. rewrite P2V_low by lia. apply rd_store_out. lia. }
  destruct (entry32mp_spec m' (set_rsp 32764 (set_rsp 32768 (set_ebx 1 c1)))) as (c' & E' & Il & Hr); [destruct I1; by split| |by right|].
  - apply (boot_tables_ext m); [|done]. intros x Hx. apply Hm. lia.
  - exists c'. split; [exact E'|]. split; [done|]. rewrite Hr. change (b_ebx _ =? 0) with false. cbv iota. apply load64_ext.
    intros x Hx. rewrite P2V_low in Hx by lia. apply Hm. lia.
Qed.
End OthersProofs.

(** ** The other processors *)

Lemma kalloc_inv_low kend k l m' : kalloc_inv kend k l -> (forall x, kend <= x -> rd m' x = rd (km_mem k) x) -> kalloc_inv kend (set_mem m' k) l.
Proof.
  intros [H1 H2 H3] Hx. split; [|done|done]. eapply is_list_ext; [|exact H1]. intros p i Hp Hi. symmetry. apply Hx.
  eapply Forall_forall in H3; [|exact Hp]. destruct H3 as (_ & H3 & _). lia.
Qed.

Section StartProofs.
Variables kend pa32 ra : Z.
Variable image : list Z.
Variable adelay : nat -> nat.
Variables src id_reg : Z.
Variable cpus : mpstate.
Hypothesis Hend : KERNBASE + 32768 <= kend.
Hypothesis Hpa : 0 <= pa32 < 2 ^ 32.
Hypothesis Himg : Z.of_nat (length image) <= 4092.
Abbreviation start_one := (start_one pa32 ra image adelay cpus).

Record ready (s : ssys) (l : list Z) : Prop := {
  rs_kalloc : kalloc_inv kend (st_km s) l;
  rs_tables : boot_tables (km_mem (st_km s));
  rs_image : rd_bytes (length image) (km_mem (st_km s)) code = image;
}.

Lemma code_at : code = KERNBASE + 28672.
Proof. reflexivity. Qed.

(** Writes to the words below the copied code, and at the end of its page. *)
Lemma ready_words_ext s s' l : ready s l -> freelist (st_km s') = freelist (st_km s) ->
  (forall x, KERNBASE + 4096 <= x < KERNBASE + 28656 \/ KERNBASE + 28672 <= x < KERNBASE + 32764 \/ KERNBASE + 32768 <= x ->
    rd (km_mem (st_km s')) x = rd (km_mem (st_km s)) x) -> ready s' l.
Proof.
  intros [[H1 H2 H3] Hb Hi] Hf Hx. split.
  - split; [|done|done]. rewrite Hf. eapply is_list_ext; [|exact H1]. intros p i Hp Hr. symmetry. apply Hx.
    eapply Forall_forall in H3; [|exact Hp]. destruct H3 as (_ & H3 & _). lia.
  - apply (boot_tables_ext (km_mem (st_km s))); [|done]. intros x Hr. apply Hx. lia.
  - rewrite <-Hi at 2. apply rd_bytes_ext. intros i Hr. rewrite code_at in Hr. apply Hx. lia.
Qed.

(** The words for the new processor. *)
Definition words_for (p : Z) (m : mem) : mem := store64 (store32 (store32 m (code - 4) 32768) (code - 8) pa32) (code - 16) (u64 (p + 4096)).
Lemma words_read p m : 0 <= p -> p + 4096 < 18446744073709551616 ->
  load32 (words_for p m) (P2V (28672 - 4)) = 32768 /\ load32 (words_for p m) (P2V (28672 - 8)) = pa32 /\ load64 (words_for p m) (P2V (28672 - 16)) = p + 4096.
Proof.
  intros H0 H1. unfold words_for. rewrite code_at, !P2V_low by lia.
  replace (KERNBASE + 28672 - 4) with (KERNBASE + (28672 - 4)) by lia. replace (KERNBASE + 28672 - 8) with (KERNBASE + (28672 - 8)) by lia.
  replace (KERNBASE + 28672 - 16) with (KERNBASE + (28672 - 16)) by lia. unfold load32, store32, load64, store64. repeat split.
  - rewrite !load_store_ne by lia. rewrite load_store_eq. reflexivity.
  - rewrite load_store_ne by lia. rewrite load_store_eq. apply Z.mod_small. exact Hpa.
  - rewrite load_store_eq. unfold u64. change (256 ^ Z.of_nat 8) with 18446744073709551616. rewrite Z.mod_mod by lia. apply Z.mod_small. lia.
Qed.
Lemma words_out p m x : x < KERNBASE + 28656 \/ KERNBASE + 28672 <= x -> rd (words_for p m) x = rd m x.
Proof. intros Hx. unfold words_for, store64, store32. rewrite code_at, !rd_store_out by lia. done. Qed.

(** One processor, on the page [p]. *)
Lemma start_one_spec i s p l : ready s (p :: l) -> 0 <= apicid cpus i < 256 ->
  exists s' c', start_one i s = Ok (tt, s') /\ ready s' l /\ st_up s' = st_up s ++ [(apicid cpus i, To_mpenter, c')] /\
    in_long_mode c' /\ b_rsp c' = p + 4096.
Proof.
  intros R Ha. destruct s as [k la up]. destruct (kalloc_cons kend k p l (rs_kalloc _ _ R)) as (k1 & E1 & I1 & M1 & _).
  pose proof (ki_pages _ _ _ (rs_kalloc _ _ R)) as Hpg. apply Forall_cons_1 in Hpg as [(_ & _ & Hp) _]. unfold KERNBASE, PHYSTOP in Hp.
  assert (R1 : ready (Ssys k1 la up) l). { destruct R as [_ H2 H3]. split; cbn [st_km] in *; [done|by rewrite M1|by rewrite M1]. }
  unfold Startup.start_one. rewrite (bind_Ok _ _ _ p (Ssys k1 la up)) by (unfold st_kmem; cbn [st_km]; by rewrite E1).
  do 3 rewrite (bind_Ok (st_kmem (modify _)) _ _ _ _ eq_refl). cbn [st_km st_la st_up set_mem km_mem freelist use_lock]. fold (words_for p (km_mem k1)).
  set (m2 := words_for p (km_mem k1)). set (k2 := Kmem m2 (freelist k1) (use_lock k1)).
  destruct (lapicstartap_correct adelay la (apicid cpus i) (V2P code)) as (la' & E2 & Hs & _); [done|by vm_compute|reflexivity|].
  rewrite (bind_Ok _ _ _ tt (Ssys k2 la' up)) by (unfold st_lapic; cbn [st_la st_km st_up]; by rewrite E2).
  assert (Hl : command_of <$> last (la_sent la') = Some (Command (apicid cpus i) 6 false false true 7)).
  { rewrite <-fmap_last. change (command_of <$> la_sent la') with (map command_of (la_sent la')). rewrite Hs, last_app. reflexivity. }
  unfold wait_started, bind at 1, get. cbn [st_la]. rewrite Hl. cbn [c_kind c_dest c_vector]. rewrite !Z.eqb_refl. cbn [andb st_km km_mem k2].
  assert (R2 : ready (Ssys k2 la' up) l) by (eapply (ready_words_ext _ _ l R1); [done|]; intros x Hx; apply words_out; lia).
  unfold ap_runs. change (4096 * 7) with 28672. fold code. rewrite (bool_decide_eq_true_2 _ (rs_image _ _ R2)). cbn [andb]. rewrite Z.eqb_refl.
  destruct (words_read p (km_mem k1)) as (W4 & W8 & W16); [lia|lia|].
  destruct (entryother_spec pa32 ra m2 (rs_tables _ _ R2) W4 W8) as (c' & E3 & Il & Hr). rewrite E3. cbn [bt_mem bt_cpu].
  eexists _, c'. split; [reflexivity|]. split; [|split; [done|split; [done|by rewrite Hr]]].
  apply (ready_words_ext (Ssys k2 la' up)); [done|done|]. intros x Hx. cbn [st_km set_mem km_mem k2]. unfold store32. rewrite P2V_low by lia. apply rd_store_out. lia.
Qed.

(** The processor [j] runs [mpenter] on the stack [p]. *)
Definition started_on (jp : Z * Z) (e : Z * target * bcpu) : Prop :=
  e.1.1 = apicid cpus jp.1 /\ e.1.2 = To_mpenter /\ in_long_mode e.2 /\ b_rsp e.2 = jp.2 + 4096.
Definition others (me : Z) (n : nat) (i : Z) : list Z := filter (fun j => j <> me) (seqZ i (Z.of_nat n)).

Lemma startothers_loop_spec me l n : forall i stacks s, cpunum id_reg cpus = Ok me -> ready s (stacks ++ l) ->
  length stacks = length (others me n i) -> (forall j, i <= j < i + Z.of_nat n -> 0 <= apicid cpus j < 256) ->
  exists s' up, startothers_loop pa32 ra image adelay id_reg cpus n i s = Ok (tt, s') /\ ready s' l /\ st_up s' = st_up s ++ up /\
    Forall2 started_on (zip (others me n i) stacks) up.
Proof.
  induction n as [|n IH]; intros i stacks s Hme R Hlen Hid.
  { destruct stacks; [|done]. exists s, []. split; [reflexivity|]. split; [done|]. split; [by rewrite app_nil_r|constructor]. }
  cbn [startothers_loop]. rewrite (bind_Ok _ _ _ me s) by (unfold here; by rewrite Hme).
  assert (Hs : seqZ i (Z.of_nat (S n)) = i :: seqZ (i + 1) (Z.of_nat n)).
  { rewrite seqZ_cons by lia. by replace (Z.pred (Z.of_nat (S n))) with (Z.of_nat n) by lia. }
  destruct (Z.eqb_spec i me) as [->|Hne].
  - assert (Ho : others me (S n) me = others me n (me + 1)) by (unfold others; rewrite Hs; apply filter_cons_False; intros H; by apply H).
    rewrite Ho in *. rewrite (bind_Ok _ _ _ _ _ eq_refl). apply IH; try done. intros j Hj. apply Hid. lia.
  - assert (Ho : others me (S n) i = i :: others me n (i + 1)) by (unfold others; rewrite Hs; by apply filter_cons_True).
    rewrite Ho in *. destruct stacks as [|p stacks]; [done|]. cbn [length] in Hlen. injection Hlen as Hlen.
    destruct (start_one_spec i s p (stacks ++ l) R) as (s1 & c1 & E1 & R1 & U1 & Il & Hr); [apply Hid; lia|].
    rewrite (bind_Ok _ _ _ _ _ E1). destruct (IH (i + 1) stacks s1 Hme R1 Hlen) as (s' & up & E & R' & U & Hf); [intros j Hj; apply Hid; lia|].
    exists s', ((apicid cpus i, To_mpenter, c1) :: up). split; [done|]. split; [done|]. split; [by rewrite U, U1, <-app_assoc|].
    cbn [zip zip_with]. by constructor.
Qed.
End StartProofs.

(** ** Theorems *)

(** C35: the first processor.  From real mode bootasm.S reaches [bootmain] in protected mode with flat segments, address line 20 on,
    interrupts off and the stack below the boot sector.  The kernel's entry, in that mode, reaches [main]
    in long mode on the first stack; the page table in use maps the first gigabyte of memory at 0 and at KERNBASE, not for
    users, and no memory other than that of the table was written. *)
Theorem first_processor delay fuel ra kb m c :
  Z.testbit (b_cr0 c) 31 = false -> (kb_busy kb < fuel)%nat -> (delay < fuel)%nat ->
  (exists kb' c', bootasm delay fuel ra (kb, Booting m c) = Ok (To_bootmain, (kb', Booting (store32 m (P2V 31740) ra) c')) /\
    kb_a20 kb' = true /\ in_prot_mode c' /\ b_rsp c' = 31744 - 4) /\
  forall m1 c1, in_prot_mode c1 ->
    exists m2 c2, mboot_entry (Booting m1 c1) = Ok (To_main, Booting m2 c2) /\ in_long_mode c2 /\ b_rsp c2 = KERNBASE + 65536 /\
      (forall x, 0 <= x < 1073741824 ->
        mmu 3 m2 (P2V (b_cr3 c2)) x = Some (x, false) /\ mmu 3 m2 (P2V (b_cr3 c2)) (KERNBASE + x) = Some (x, false)) /\
      forall x, x < KERNBASE + 4096 \/ KERNBASE + 12288 <= x -> rd m2 x = rd m1 x.
Proof.
  intros Hpg H1 H2. split; [by apply bootasm_spec|]. intros m1 c1 I1.
  destruct (mboot_entry_spec m1 c1 I1) as (m2 & c2 & E & Il & Hr & Hb & Hm). exists m2, c2. do 3 (split; [done|]). split; [|done].
  intros x Hx. rewrite (il_cr3 _ Il). by apply boot_maps.
Qed.

(** C23: the other processors.  With a page for each of them, [startothers] returns; every processor of the table but
    this one has been started once, in the order of the table, and has reached [mpenter] in long mode on a page of its
    own, which is no longer free; and the bootstrap page table is intact. *)
Theorem startothers_correct kend pa32 ra image adelay src id_reg cpus me k la stacks l :
  KERNBASE + 32768 <= kend -> 0 <= pa32 < 2 ^ 32 -> Z.of_nat (length image) <= 4092 -> kalloc_inv kend k (stacks ++ l) ->
  boot_tables (km_mem k) -> rd_bytes (length image) (km_mem k) src = image -> cpunum id_reg cpus = Ok me ->
  (forall j, 0 <= j < ncpu cpus -> 0 <= apicid cpus j < 256) ->
  length stacks = length (others me (Z.to_nat (ncpu cpus)) 0) ->
  exists k' la' up, startothers pa32 ra image adelay src id_reg cpus (Ssys k la []) = Ok (tt, Ssys k' la' up) /\
    kalloc_inv kend k' l /\ NoDup stacks /\ (forall p, p ∈ stacks -> p ∉ l) /\
    Forall2 (started_on cpus) (zip (others me (Z.to_nat (ncpu cpus)) 0) stacks) up /\ boot_tables (km_mem k').
Proof.
  intros Hend Hpa Himg I Hb Hi Hme Hid Hlen. unfold startothers. rewrite (bind_Ok (st_kmem (modify _)) _ _ _ _ eq_refl). cbn [st_km st_la st_up].
  pose proof (memmove_correct (km_mem k) code src (length image)) as [Hc Ho]. set (m' := memmove _ _ _ _) in *.
  pose proof code_at as Ec.
  assert (R : ready kend image (Ssys (set_mem m' k) la []) (stacks ++ l)).
  { split; cbn [st_km set_mem km_mem].
    - apply (kalloc_inv_low kend k); [done|]. intros x Hx. apply Ho. lia.
    - apply (boot_tables_ext (km_mem k)); [|done]. intros x Hx. apply Ho. lia.
    - by rewrite Hc. }
  destruct (startothers_loop_spec kend pa32 ra image adelay id_reg cpus Hend Hpa Himg me l (Z.to_nat (ncpu cpus)) 0 stacks _ Hme R Hlen)
    as ([k' la' up'] & up & E & R' & U & Hf); [intros j Hj; apply Hid; lia|].
  cbn [st_up app] in U. subst up'. exists k', la', up. split; [exact E|]. split; [apply R'|].
  pose proof (ki_nodup _ _ _ I) as Hnd. apply NoDup_app in Hnd as (H1 & H2 & _). split; [done|]. split; [done|]. split; [done|apply R'].
Qed.

(** ** Instances *)

Lemma first_processor_witness :
  exists kb' c' m2 c2, bootasm 3 10 31800 (Kbc 5 false false, Booting ∅ reset_cpu) = Ok (To_bootmain, (kb', Booting (store32 ∅ (P2V 31740) 31800) c')) /\
    kb_a20 kb' = true /\ mboot_entry (Booting (store32 ∅ (P2V 31740) 31800) c') = Ok (To_main, Booting m2 c2) /\ b_rsp c2 = KERNBASE + 65536 /\
    mmu 3 m2 (P2V (b_cr3 c2)) (KERNBASE + 1048576) = Some (1048576, false).
Proof.
  destruct (first_processor 3 10 31800 (Kbc 5 false false) ∅ reset_cpu) as [(kb' & c' & E & Ha & I & _) H]; [reflexivity|cbn; lia|lia|].
  destruct (H (store32 ∅ (P2V 31740) 31800) c' I) as (m2 & c2 & E2 & _ & Hr & Hm & _).
  exists kb', c', m2, c2. split; [exact E|]. split; [exact Ha|]. split; [exact E2|]. split; [exact Hr|]. apply Hm. lia.
Defined.

(** Two processors, with the ids 0 and 1; the code of the second lies at 640 KB. *)
Definition image3 : list Z := [250; 49; 192].
Definition two_cpus : mpstate := MpState (fun i => i) 2 0 4276092928 [].
Lemma two_memory : exists m, boot_tables m /\ rd_bytes 3 m (KERNBASE + 655360) = image3 /\ kalloc_inv kend0 (set_mem m (kmem_n 1)) [page_at 1].
Proof.
  destruct (kmem_n_pt 1) as [I _]; [lia|lia|vm_compute; reflexivity|]. apply pi_kalloc in I.
  set (m0 := wr_bytes (mem_n 1) (KERNBASE + 655360) image3).
  assert (H0 : forall x, kend0 <= x -> rd m0 x = rd (mem_n 1) x).
  { intros x Hx. unfold m0. apply rd_wr_bytes_out. unfold kend0 in Hx. cbn. lia. }
  assert (Hi : rd_bytes 3 m0 (KERNBASE + 655360) = image3) by (vm_compute; reflexivity). clearbody m0.
  assert (I1 : in_prot_mode (Bcpu Prot32 1 0 0 0 gdt32 [16; 16; 16; 0; 0] 0 0 false)) by (by split).
  destruct (mboot_entry_spec m0 _ I1) as (m & c & _ & _ & _ & Hb & Hm). exists m. split; [exact Hb|]. split.
  - rewrite <-Hi. apply rd_bytes_ext. intros x Hx. apply Hm. lia.
  - apply (kalloc_inv_low kend0 (kmem_n 1)); [exact I|]. intros x Hx. rewrite Hm by (unfold kend0 in Hx; lia). apply H0. exact Hx.
Qed.

Lemma startothers_correct_witness :
  exists m k' la' c, startothers 1048700 28750 image3 (fun _ => O) (KERNBASE + 655360) 0 two_cpus (Ssys (set_mem m (kmem_n 1)) (Lapic true (fun _ => 0) 0 [] []) [])
      = Ok (tt, Ssys k' la' [(1, To_mpenter, c)]) /\
    in_long_mode c /\ b_rsp c = page_at 1 + 4096 /\ kalloc_inv kend0 k' [].
Proof.
  destruct two_memory as (m & Hb & Hi & I).
  destruct (startothers_correct kend0 1048700 28750 image3 (fun _ => O) (KERNBASE + 655360) 0 two_cpus 0 (set_mem m (kmem_n 1))
    (Lapic true (fun _ => 0) 0 [] []) [page_at 1] []) as (k' & la' & up & E & Ik & _ & _ & Hf & _).
  - unfold kend0. lia.
  - lia.
  - cbn. lia.
  - exact I.
  - exact Hb.
  - exact Hi.
  - reflexivity.
  - intros j Hj. cbn in Hj |- *. lia.
  - reflexivity.
  - change (zip _ _) with [(1, page_at 1)] in Hf. inversion Hf as [|x e l1 l2 He Hl]; subst. inversion Hl; subst.
    destruct e as [[id t] c], He as (H1 & H2 & H3 & H4). cbn in H1, H2. subst id t.
    exists m, k', la', c. split; [exact E|]. split; [exact H3|]. split; [exact H4|exact Ik].
Defined.
