(* ===== verification/Sysfile.v ===== *)
(** * Open files and the calls on them: file.c, pipealloc of pipe.c, sysfile.c

    The table of open files, the descriptors of the processes, and the system
    calls of sysfile.c over the file system and pipes.  [world] is what these
    calls work on.  The file system runs over any instance of the block
    interface; page allocation and the wakeups of pipes belong to other parts of
    the kernel and are operations of the state [w_host]; [exec] is a parameter. *)
From S2P Require Import Prelude Memory Sleeplock Ide Bytes Log Tx Fs FsInv Inodes Files Pipe Proc Syscall.

Definition NFILE : nat := 100.
Definition O_RDONLY : Z := 0.
Definition O_WRONLY : Z := 1.
Definition O_RDWR : Z := 2.
Definition O_CREATE : Z := 512.
Definition MAXARG : nat := 32.

Inductive fdtype : Type := FD_NONE | FD_PIPE | FD_INODE.

Record file : Type := MkFile {
  f_type : fdtype;
  f_ref : Z;
  f_readable : bool;
  f_writable : bool;
  f_pipe : Z;
  f_ip : nat;
  f_off : Z;
}.

Definition set_f_type (v : fdtype) (f : file) : file :=
  MkFile v (f_ref f) (f_readable f) (f_writable f) (f_pipe f) (f_ip f) (f_off f).
Definition set_f_ref (v : Z) (f : file) : file :=
  MkFile (f_type f) v (f_readable f) (f_writable f) (f_pipe f) (f_ip f) (f_off f).
Definition set_f_off (v : Z) (f : file) : file :=
  MkFile (f_type f) (f_ref f) (f_readable f) (f_writable f) (f_pipe f) (f_ip f) v.

(** The assignments of [pipealloc] and of [sys_open] to a new file. *)
Definition mk_pipe_end (writable : bool) (p : Z) (f : file) : file :=
  MkFile FD_PIPE (f_ref f) (negb writable) writable p (f_ip f) (f_off f).
Definition mk_inode_file (ip : nat) (omode : Z) (f : file) : file :=
  MkFile FD_INODE (f_ref f) (Z.land omode O_WRONLY =? 0)
    (negb (Z.land omode O_WRONLY =? 0) || negb (Z.land omode O_RDWR =? 0)) (f_pipe f) ip 0.

(** What the calls use of a process. *)
Record uproc : Type := UProc {
  u_pid : Z;
  u_sz : Z;
  u_mem : mem;
  u_tf : trapframe;
  u_killed : bool;
  u_cwd : nat;
  u_ofile : nat -> option nat;
}.

Definition set_u_mem (v : mem) (u : uproc) : uproc :=
  UProc (u_pid u) (u_sz u) v (u_tf u) (u_killed u) (u_cwd u) (u_ofile u).
Definition set_u_cwd (v : nat) (u : uproc) : uproc :=
  UProc (u_pid u) (u_sz u) (u_mem u) (u_tf u) (u_killed u) v (u_ofile u).
Definition set_u_ofile (v : nat -> option nat) (u : uproc) : uproc :=
  UProc (u_pid u) (u_sz u) (u_mem u) (u_tf u) (u_killed u) (u_cwd u) v.

(** Transactions: [begin_op] and [end_op] over the blocks [T]. *)
Class OpOps (T : Type) : Type := {
  op_begin : M T unit;
  op_end : M T unit;
}.

(** The channels of a pipe: [&p->nread] and [&p->nwrite]. *)
Inductive pchan : Type := ChNread (p : Z) | ChNwrite (p : Z).

Class HostOps (K : Type) : Type := {
  h_kalloc : M K Z;
  h_kfree : Z -> M K unit;
  h_wakeup : pchan -> M K unit;
}.

Record world (T K : Type) : Type := World {
  w_fs : fs T;
  w_host : K;
  w_file : nat -> file;       (* ftable.file *)
  w_pipe : Z -> pipe;         (* the pipe in the page at an address *)
  w_proc : nat -> uproc;
}.
Arguments World {T K}.
Arguments w_fs {T K}.
Arguments w_host {T K}.
Arguments w_file {T K}.
Arguments w_pipe {T K}.
Arguments w_proc {T K}.

(** The result of a call, or where it sleeps; [rest] are the bytes to write. *)
Inductive fres : Type :=
  | FRet (r : Z)
  | FSleepRead
  | FSleepWrite (rest : list Z).

(** The first index from [i] on, of [n], that satisfies a test. *)
Fixpoint first_index (test : nat -> bool) (i n : nat) : option nat :=
  match n with
  | O => None
  | S n => if test i then Some i else first_index test (S i) n
  end.

Section Files.
Context {T K : Type} {ops : TxOps T} {txn : OpOps T} {host : HostOps K}.
Variable devsw : Z -> option (devops T).
Variable exec : nat -> list Z -> list Z -> M (world T K) Z.   (* the process, path and argv *)

Definition on_fs {A} (c : M (fs T) A) : M (world T K) A := fun w =>
  match c (w_fs w) with
  | Ok (a, s) => Ok (a, World s (w_host w) (w_file w) (w_pipe w) (w_proc w))
  | Panic msg => Panic msg
  | Block => Block
  | Fuel => Fuel
  end.
Definition on_host {A} (c : M K A) : M (world T K) A := fun w =>
  match c (w_host w) with
  | Ok (a, k) => Ok (a, World (w_fs w) k (w_file w) (w_pipe w) (w_proc w))
  | Panic msg => Panic msg
  | Block => Block
  | Fuel => Fuel
  end.
Definition the_file (f : nat) : M (world T K) file := gets (fun w => w_file w f).
Definition upd_file (f : nat) (g : file -> file) : M (world T K) unit :=
  modify (fun w => World (w_fs w) (w_host w) (<[f := g (w_file w f)]> (w_file w)) (w_pipe w) (w_proc w)).
Definition put_pipe (p : Z) (v : pipe) : M (world T K) unit :=
  modify (fun w => World (w_fs w) (w_host w) (w_file w) (<[p := v]> (w_pipe w)) (w_proc w)).
Definition the_uproc (me : nat) : M (world T K) uproc := gets (fun w => w_proc w me).
Definition upd_uproc (me : nat) (g : uproc -> uproc) : M (world T K) unit :=
  modify (fun w => World (w_fs w) (w_host w) (w_file w) (w_pipe w) (<[me := g (w_proc w me)]> (w_proc w))).
Definition begin_op : M (world T K) unit := on_fs (on_tx op_begin).
Definition end_op : M (world T K) unit := on_fs (on_tx op_end).

(** ** file.c *)

Definition filealloc : M (world T K) (option nat) :=
  let! w := get in
  match first_index (fun f => f_ref (w_file w f) =? 0) 0 NFILE with
  | Some f => do! upd_file f (set_f_ref 1) in ret (Some f)
  | None => ret None
  end.

Definition filedup (f : nat) : M (world T K) nat :=
  let! x := the_file f in
  if f_ref x <? 1 then panic "filedup"
  else do! upd_file f (fun x => set_f_ref (f_ref x + 1) x) in ret f.

(** [pipeclose] on the page [p]. *)
Definition close_pipe (p : Z) (writable : bool) : M (world T K) unit :=
  let! w := get in
  let (v, freed) := pipeclose (w_pipe w p) writable in
  do! put_pipe p v in
  do! on_host (h_wakeup (if writable then ChNread p else ChNwrite p)) in
  if freed then on_host (h_kfree p) else ret tt.

(** [fileclose] up to the release of the lock; the copy [ff] if it was the last reference. *)
Definition drop_ref (f : nat) : M (world T K) (option file) :=
  let! x := the_file f in
  if f_ref x <? 1 then panic "fileclose"
  else
    do! upd_file f (set_f_ref (f_ref x - 1)) in
    if 0 <? f_ref x - 1 then ret None
    else
      let! ff := the_file f in
      do! upd_file f (fun x => set_f_type FD_NONE (set_f_ref 0 x)) in
      ret (Some ff).

Definition fileclose (f : nat) : M (world T K) unit :=
  let! ff := drop_ref f in
  match ff with
  | None => ret tt
  | Some ff =>
      match f_type ff with
      | FD_PIPE => close_pipe (f_pipe ff) (f_writable ff)
      | FD_INODE =>
          do! begin_op in
          do! on_fs (iput (f_ip ff)) in
          end_op
      | FD_NONE => ret tt
      end
  end.

(** [None] is -1. *)
Definition filestat (me f : nat) : M (world T K) (option stat) :=
  let! x := the_file f in
  let! u := the_uproc me in
  match f_type x with
  | FD_INODE =>
      do! on_fs (ilock (u_pid u) (f_ip x)) in
      let! st := on_fs (stati (f_ip x)) in
      do! on_fs (iunlock (f_ip x)) in
      ret (Some st)
  | _ => ret None
  end.

(** [piperead] and [pipewrite] on the page [p], with their wakeups. *)
Definition read_pipe (me : nat) (p addr n : Z) : M (world T K) fres :=
  let! w := get in
  let (v, r) := piperead (w_pipe w p) (u_killed (w_proc w me)) n in
  do! put_pipe p v in
  match r with
  | RDone l =>
      do! upd_uproc me (fun u => set_u_mem (wr_bytes (u_mem u) addr l) u) in
      do! on_host (h_wakeup (ChNwrite p)) in
      ret (FRet (Z.of_nat (length l)))
  | RFail => ret (FRet (-1))
  | RSleep => ret FSleepRead
  end.
Definition write_pipe (me : nat) (p n : Z) (bytes : list Z) : M (world T K) fres :=
  let! w := get in
  let (v, r) := pipewrite (w_pipe w p) (u_killed (w_proc w me)) bytes in
  do! put_pipe p v in
  match r with
  | WDone => do! on_host (h_wakeup (ChNread p)) in ret (FRet n)
  | WFail => ret (FRet (-1))
  | WSleep rest => do! on_host (h_wakeup (ChNread p)) in ret (FSleepWrite rest)
  end.

Definition fileread (me f : nat) (addr n : Z) : M (world T K) fres :=
  let! x := the_file f in
  let! u := the_uproc me in
  if negb (f_readable x) then ret (FRet (-1))
  else
    match f_type x with
    | FD_PIPE => read_pipe me (f_pipe x) addr n
    | FD_INODE =>
        do! on_fs (ilock (u_pid u) (f_ip x)) in
        let! r := on_fs (readi devsw (f_ip x) (f_off x) n) in
        do! match r with
            | Some l =>
                do! upd_uproc me (fun u => set_u_mem (wr_bytes (u_mem u) addr l) u) in
                upd_file f (fun x => set_f_off (u32 (f_off x + Z.of_nat (length l))) x)
            | None => ret tt
            end in
        do! on_fs (iunlock (f_ip x)) in
        ret (FRet (match r with Some l => Z.of_nat (length l) | None => -1 end))
    | FD_NONE => panic "fileread"
    end.

(** [max] of [filewrite]: bytes per transaction. *)
Definition max_write : Z := (LOGSIZE - 1 - 1 - 2) / 2 * 512.

(** One transaction of the loop of [filewrite]. *)
Definition write_chunk (me f : nat) (bytes : list Z) : M (world T K) (option Z) :=
  let! x := the_file f in
  let! u := the_uproc me in
  do! begin_op in
  do! on_fs (ilock (u_pid u) (f_ip x)) in
  let! r := on_fs (writei devsw (f_ip x) bytes (f_off x)) in
  do! match r with
      | Some k => if 0 <? k then upd_file f (fun x => set_f_off (u32 (f_off x + k)) x) else ret tt
      | None => ret tt
      end in
  do! on_fs (iunlock (f_ip x)) in
  do! end_op in
  ret r.

(** The loop from [i] on; whether [i == n] at its end. *)
Fixpoint write_loop (fuel : nat) (me f : nat) (addr i n : Z) : M (world T K) bool :=
  match fuel with
  | O => out_of_fuel
  | S fuel =>
      if i <? n then
        let n1 := Z.min (n - i) max_write in
        let! u := the_uproc me in
        let! r := write_chunk me f (rd_bytes (Z.to_nat n1) (u_mem u) (addr + i)) in
        match r with
        | None => ret false
        | Some k => if negb (k =? n1) then panic "short filewrite" else write_loop fuel me f addr (i + k) n
        end
      else ret (i =? n)
  end.

Definition filewrite (me f : nat) (addr n : Z) : M (world T K) fres :=
  let! x := the_file f in
  if negb (f_writable x) then ret (FRet (-1))
  else
    match f_type x with
    | FD_PIPE =>
        let! u := the_uproc me in
        write_pipe me (f_pipe x) n (rd_bytes (Z.to_nat n) (u_mem u) addr)
    | FD_INODE =>
        let! ok := write_loop (Z.to_nat (n / max_write + 2)) me f addr 0 n in
        ret (FRet (if ok then n else -1))
    | FD_NONE => panic "filewrite"
    end.

(** ** sysfile.c *)

(** Arguments of the call that process [me] makes. *)
Definition with_args {A} (me : nat) (g : mem -> Z -> trapframe -> res A) : M (world T K) A := fun w =>
  let u := w_proc w me in
  match g (u_mem u) (u_sz u) (u_tf u) with
  | Ok a => Ok (a, w)
  | Panic msg => Panic msg
  | Block => Block
  | Fuel => Fuel
  end.
Definition arg_int (me : nat) (n : Z) : M (world T K) Z := with_args me (fun _ _ tf => argint tf n).
Definition arg_addr (me : nat) (n : Z) : M (world T K) Z := with_args me (fun _ _ tf => argaddr tf n).
Definition arg_ptr (me : nat) (n size : Z) : M (world T K) (option Z) :=
  with_args me (fun _ sz tf => argptr sz tf n size).
(** The bytes of the string that [argstr] finds. *)
Definition arg_str (me : nat) (n : Z) : M (world T K) (option (list Z)) :=
  with_args me (fun m sz tf =>
    match argstr m sz tf n with
    | Ok (Some (p, len)) => Ok (Some (rd_bytes (Z.to_nat len) m p))
    | Ok None => Ok None
    | Panic msg => Panic msg
    | Block => Block
    | Fuel => Fuel
    end).

(** The descriptor and its file; [None] is -1. *)
Definition argfd (me : nat) (n : Z) : M (world T K) (option (nat * nat)) :=
  let! fd := arg_int me n in
  let! u := the_uproc me in
  ret (if (fd <? 0) || (Z.of_nat NOFILE <=? fd) then None
       else match u_ofile u (Z.to_nat fd) with
            | Some f => Some (Z.to_nat fd, f)
            | None => None
            end).

Definition set_fd (me fd : nat) (v : option nat) : M (world T K) unit :=
  upd_uproc me (fun u => set_u_ofile (<[fd := v]> (u_ofile u)) u).

Definition fdalloc (me f : nat) : M (world T K) (option nat) :=
  let! u := the_uproc me in
  match first_index (fun fd => bool_decide (u_ofile u fd = None)) 0 NOFILE with
  | Some fd => do! set_fd me fd (Some f) in ret (Some fd)
  | None => ret None
  end.

Definition fail : M (world T K) fres := ret (FRet (-1)).

Definition sys_dup (me : nat) : M (world T K) fres :=
  let! a := argfd me 0 in
  match a with
  | None => fail
  | Some (_, f) =>
      let! fd := fdalloc me f in
      match fd with
      | None => fail
      | Some fd => do! filedup f in ret (FRet (Z.of_nat fd))
      end
  end.

(** The arguments of [sys_read] and [sys_write]: file, pointer and count. *)
Definition rw_args (me : nat) : M (world T K) (option (nat * Z * Z)) :=
  let! a := argfd me 0 in
  match a with
  | None => ret None
  | Some (_, f) =>
      let! n := arg_int me 2 in
      let! p := arg_ptr me 1 n in
      ret (match p with Some p => Some (f, p, n) | None => None end)
  end.

Definition sys_read (me : nat) : M (world T K) fres :=
  let! a := rw_args me in
  match a with
  | None => fail
  | Some (f, p, n) => fileread me f p n
  end.

Definition sys_write (me : nat) : M (world T K) fres :=
  let! a := rw_args me in
  match a with
  | None => fail
  | Some (f, p, n) => filewrite me f p n
  end.

Definition sys_close (me : nat) : M (world T K) fres :=
  let! a := argfd me 0 in
  match a with
  | None => fail
  | Some (fd, f) =>
      do! set_fd me fd None in
      do! fileclose f in
      ret (FRet 0)
  end.

(** [struct stat] in memory: type, dev, ino, nlink, size with their padding. *)
Definition store_stat (m : mem) (a : Z) (st : stat) : mem :=
  let m := store 2 m a (st_type st) in
  let m := store32 m (a + 4) (st_dev st) in
  let m := store32 m (a + 8) (st_ino st) in
  let m := store 2 m (a + 12) (st_nlink st) in
  store32 m (a + 16) (st_size st).

Definition sys_fstat (me : nat) : M (world T K) fres :=
  let! a := argfd me 0 in
  match a with
  | None => fail
  | Some (_, f) =>
      let! p := arg_ptr me 1 20 in
      match p with
      | None => fail
      | Some p =>
          let! st := filestat me f in
          match st with
          | None => fail
          | Some st =>
              do! upd_uproc me (fun u => set_u_mem (store_stat (u_mem u) p st) u) in
              ret (FRet 0)
          end
      end
  end.

(** The loop of [isdirempty]. *)
Fixpoint isdirempty_loop (n : nat) (dp : nat) (off : Z) : M (fs T) bool :=
  match n with
  | O => out_of_fuel
  | S n =>
      let! i := the_inode dp in
      if off <? i_size i then
        let! r := readi devsw dp off 16 in
        match r with
        | Some de =>
            if negb (Z.of_nat (length de) =? 16) then panic "isdirempty: readi"
            else if negb (de_inum de =? 0) then ret false
            else isdirempty_loop n dp (off + 16)
        | None => panic "isdirempty: readi"
        end
      else ret true
  end.

Definition isdirempty (dp : nat) : M (fs T) bool :=
  let! i := the_inode dp in
  isdirempty_loop (dir_fuel (i_size i)) dp 32.

Definition name_i (me : nat) (path : list Z) : M (world T K) (option nat) :=
  let! u := the_uproc me in on_fs (namei devsw (u_pid u) (u_cwd u) path).
Definition name_iparent (me : nat) (path : list Z) : M (world T K) (option (nat * list Z)) :=
  let! u := the_uproc me in on_fs (nameiparent devsw (u_pid u) (u_cwd u) path).
Definition i_lock_by (me ip : nat) : M (world T K) unit :=
  let! u := the_uproc me in on_fs (ilock (u_pid u) ip).
Definition iun_lockput (ip : nat) : M (world T K) unit := on_fs (iunlockput ip).
Definition inode_of (ip : nat) : M (world T K) inode := on_fs (the_inode ip).
(** [ip->nlink += d] of a [short], and [iupdate]. *)
Definition add_nlink (ip : nat) (d : Z) : M (world T K) unit :=
  do! on_fs (upd_inode ip (fun i => set_i_nlink (s16 (i_nlink i + d)) i)) in
  on_fs (iupdate ip).

(** The label [bad] of [sys_link]. *)
Definition link_bad (me ip : nat) : M (world T K) fres :=
  do! i_lock_by me ip in
  do! add_nlink ip (-1) in
  do! iun_lockput ip in
  do! end_op in
  fail.

Definition sys_link (me : nat) : M (world T K) fres :=
  let! old := arg_str me 0 in
  match old with
  | None => fail
  | Some old =>
  let! new := arg_str me 1 in
  match new with
  | None => fail
  | Some new =>
      do! begin_op in
      let! r := name_i me old in
      match r with
      | None => do! end_op in fail
      | Some ip =>
          do! i_lock_by me ip in
          let! i := inode_of ip in
          if i_type i =? T_DIR then
            do! iun_lockput ip in
            do! end_op in
            fail
          else
            do! add_nlink ip 1 in
            do! on_fs (iunlock ip) in
            let! r := name_iparent me new in
            match r with
            | None => link_bad me ip
            | Some (dp, name) =>
                do! i_lock_by me dp in
                let! d := inode_of dp in
                let! i := inode_of ip in
                let! failed :=
                  (if negb (i_dev d =? i_dev i) then ret true
                   else let! x := on_fs (dirlink devsw dp name (i_inum i)) in ret (x <? 0)) in
                if failed then
                  do! iun_lockput dp in
                  link_bad me ip
                else
                  do! iun_lockput dp in
                  do! on_fs (iput ip) in
                  do! end_op in
                  ret (FRet 0)
            end
      end
  end
  end.

Definition DOT : list Z := [46].
Definition DOTDOT : list Z := [46; 46].

(** The label [bad] of [sys_unlink]. *)
Definition unlink_bad (dp : nat) : M (world T K) fres :=
  do! iun_lockput dp in
  do! end_op in
  fail.

Definition sys_unlink (me : nat) : M (world T K) fres :=
  let! path := arg_str me 0 in
  match path with
  | None => fail
  | Some path =>
      do! begin_op in
      let! r := name_iparent me path in
      match r with
      | None => do! end_op in fail
      | Some (dp, name) =>
          do! i_lock_by me dp in
          if (namecmp name DOT =? 0) || (namecmp name DOTDOT =? 0) then unlink_bad dp
          else
            let! r := on_fs (dirlookup devsw dp name) in
            match r with
            | None => unlink_bad dp
            | Some (ip, off) =>
                do! i_lock_by me ip in
                let! i := inode_of ip in
                if i_nlink i <? 1 then panic "unlink: nlink < 1"
                else
                  let! full := (if i_type i =? T_DIR then let! e := on_fs (isdirempty ip) in ret (negb e) else ret false) in
                  if full then
                    do! iun_lockput ip in
                    unlink_bad dp
                  else
                    let! x := on_fs (writei devsw dp (replicate 16 0) off) in
                    if bool_decide (x = Some 16) then
                      do! (if i_type i =? T_DIR then add_nlink dp (-1) else ret tt) in
                      do! iun_lockput dp in
                      do! add_nlink ip (-1) in
                      do! iun_lockput ip in
                      do! end_op in
                      ret (FRet 0)
                    else panic "unlink: writei"
            end
      end
  end.

Definition create (me : nat) (path : list Z) (type major minor : Z) : M (world T K) (option nat) :=
  let! r := name_iparent me path in
  match r with
  | None => ret None
  | Some (dp, name) =>
      do! i_lock_by me dp in
      let! r := on_fs (dirlookup devsw dp name) in
      match r with
      | Some (ip, _) =>
          do! iun_lockput dp in
          do! i_lock_by me ip in
          let! i := inode_of ip in
          if (type =? T_FILE) && (i_type i =? T_FILE) then ret (Some ip)
          else
            do! iun_lockput ip in
            ret None
      | None =>
          let! ip := on_fs (ialloc type) in
          do! i_lock_by me ip in
          do! on_fs (upd_inode ip (fun i => set_i_nlink 1 (set_i_minor minor (set_i_major major i)))) in
          do! on_fs (iupdate ip) in
          let! i := inode_of ip in
          let! d := inode_of dp in
          do! (if type =? T_DIR then
                 do! add_nlink dp 1 in
                 let! a := on_fs (dirlink devsw ip DOT (i_inum i)) in
                 if a <? 0 then panic "create dots"
                 else
                   let! b := on_fs (dirlink devsw ip DOTDOT (i_inum d)) in
                   if b <? 0 then panic "create dots" else ret tt
               else ret tt) in
          let! c := on_fs (dirlink devsw dp name (i_inum i)) in
          if c <? 0 then panic "create: dirlink"
          else
            do! iun_lockput dp in
            ret (Some ip)
      end
  end.

(** The inode that [sys_open] opens, locked; the transaction is still open. *)
Definition open_inode (me : nat) (path : list Z) (omode : Z) : M (world T K) (option nat) :=
  if negb (Z.land omode O_CREATE =? 0) then create me path T_FILE 0 0
  else
    let! r := name_i me path in
    match r with
    | None => ret None
    | Some ip =>
        do! i_lock_by me ip in
        let! i := inode_of ip in
        if (i_type i =? T_DIR) && negb (omode =? O_RDONLY) then
          do! iun_lockput ip in
          ret None
        else ret (Some ip)
    end.

Definition sys_open (me : nat) : M (world T K) fres :=
  let! path := arg_str me 0 in
  match path with
  | None => fail
  | Some path =>
      let! omode := arg_int me 1 in
      do! begin_op in
      let! r := open_inode me path omode in
      match r with
      | None => do! end_op in fail
      | Some ip =>
          let! f := filealloc in
          match f with
          | None =>
              do! iun_lockput ip in
              do! end_op in
              fail
          | Some f =>
              let! fd := fdalloc me f in
              match fd with
              | None =>
                  do! fileclose f in
                  do! iun_lockput ip in
                  do! end_op in
                  fail
              | Some fd =>
                  do! on_fs (iunlock ip) in
                  do! end_op in
                  do! upd_file f (mk_inode_file ip omode) in
                  ret (FRet (Z.of_nat fd))
              end
          end
      end
  end.

(** The common end of [sys_mkdir] and [sys_mknod]. *)
Definition created (r : option nat) : M (world T K) fres :=
  match r with
  | None => do! end_op in fail
  | Some ip =>
      do! iun_lockput ip in
      do! end_op in
      ret (FRet 0)
  end.

Definition sys_mkdir (me : nat) : M (world T K) fres :=
  do! begin_op in
  let! path := arg_str me 0 in
  let! r := match path with Some path => create me path T_DIR 0 0 | None => ret None end in
  created r.

Definition sys_mknod (me : nat) : M (world T K) fres :=
  do! begin_op in
  let! path := arg_str me 0 in
  let! r := match path with
            | Some path =>
                let! major := arg_int me 1 in
                let! minor := arg_int me 2 in
                create me path T_DEV (s16 major) (s16 minor)
            | None => ret None
            end in
  created r.

Definition sys_chdir (me : nat) : M (world T K) fres :=
  do! begin_op in
  let! path := arg_str me 0 in
  let! r := match path with Some path => name_i me path | None => ret None end in
  match r with
  | None => do! end_op in fail
  | Some ip =>
      do! i_lock_by me ip in
      let! i := inode_of ip in
      if negb (i_type i =? T_DIR) then
        do! iun_lockput ip in
        do! end_op in
        fail
      else
        do! on_fs (iunlock ip) in
        let! u := the_uproc me in
        do! on_fs (iput (u_cwd u)) in
        do! end_op in
        do! upd_uproc me (set_u_cwd ip) in
        ret (FRet 0)
  end.

(** The loop of [sys_exec] from [i] on, [n] entries of [argv] left. *)
Fixpoint exec_args (n : nat) (m : mem) (sz uargv i : Z) : option (list Z) :=
  match n with
  | O => None
  | S n =>
      match fetchaddr m sz (u64 (uargv + 8 * i)) with
      | None => None
      | Some uarg =>
          if uarg =? 0 then Some []
          else
            match fetchstr m sz uarg with
            | None => None
            | Some (p, _) =>
                match exec_args n m sz uargv (i + 1) with
                | None => None
                | Some l => Some (p :: l)
                end
            end
      end
  end.

Definition sys_exec (me : nat) : M (world T K) fres :=
  let! path := arg_str me 0 in
  match path with
  | None => fail
  | Some path =>
      let! uargv := arg_addr me 1 in
      let! u := the_uproc me in
      match exec_args MAXARG (u_mem u) (u_sz u) uargv 0 with
      | None => fail
      | Some argv => let! r := exec me path argv in ret (FRet r)
      end
  end.

Definition close_if (f : option nat) : M (world T K) unit :=
  match f with Some f => fileclose f | None => ret tt end.

(** The two files, or [None] for -1; at the label [bad] there is no page. *)
Definition pipealloc : M (world T K) (option (nat * nat)) :=
  let! f0 := filealloc in
  let! f1 := match f0 with Some _ => filealloc | None => ret None end in
  match f0, f1 with
  | Some r, Some w =>
      let! p := on_host h_kalloc in
      if p =? 0 then
        do! close_if f0 in
        do! close_if f1 in
        ret None
      else
        let! s := get in
        do! put_pipe p (pipe_init (p_data (w_pipe s p))) in
        do! upd_file r (mk_pipe_end false p) in
        do! upd_file w (mk_pipe_end true p) in
        ret (Some (r, w))
  | _, _ =>
      do! close_if f0 in
      do! close_if f1 in
      ret None
  end.

Definition sys_pipe (me : nat) : M (world T K) fres :=
  let! p := arg_ptr me 0 8 in
  match p with
  | None => fail
  | Some p =>
      let! r := pipealloc in
      match r with
      | None => fail
      | Some (rf, wf) =>
          let! fd0 := fdalloc me rf in
          let! fd1 := match fd0 with Some _ => fdalloc me wf | None => ret None end in
          match fd0, fd1 with
          | Some fd0, Some fd1 =>
              do! upd_uproc me (fun u => set_u_mem (store32 (store32 (u_mem u) p (Z.of_nat fd0)) (p + 4) (Z.of_nat fd1)) u) in
              ret (FRet 0)
          | _, _ =>
              do! match fd0 with Some fd => set_fd me fd None | None => ret tt end in
              do! fileclose rf in
              do! fileclose wf in
              fail
          end
      end
  end.

(** The bodies of the loops of [fork] and of [exit] over the descriptors. *)
Definition fork_fd (me child fd : nat) : M (world T K) unit :=
  let! u := the_uproc me in
  match u_ofile u fd with
  | Some f => let! g := filedup f in set_fd child fd (Some g)
  | None => ret tt
  end.
Definition exit_fd (me fd : nat) : M (world T K) unit :=
  let! u := the_uproc me in
  match u_ofile u fd with
  | Some f => do! fileclose f in set_fd me fd None
  | None => ret tt
  end.

(** The entries of the table [syscalls] for the calls of this file. *)
Definition sysfile_calls (num : Z) (me : nat) : option (M (world T K) fres) :=
  if num =? 4 then Some (sys_pipe me)
  else if num =? 5 then Some (sys_read me)
  else if num =? 7 then Some (sys_exec me)
  else if num =? 8 then Some (sys_fstat me)
  else if num =? 9 then Some (sys_chdir me)
  else if num =? 10 then Some (sys_dup me)
  else if num =? 15 then Some (sys_open me)
  else if num =? 16 then Some (sys_write me)
  else if num =? 17 then Some (sys_mknod me)
  else if num =? 18 then Some (sys_unlink me)
  else if num =? 19 then Some (sys_link me)
  else if num =? 20 then Some (sys_mkdir me)
  else if num =? 21 then Some (sys_close me)
  else None.

(** What the processes do with open files: calls, and the loops of [fork], for a
    child whose descriptor is free, and of [exit]. *)
Inductive file_step (w : world T K) : world T K -> Prop :=
  | step_call num me call a w' :
      (me < NPROC)%nat -> sysfile_calls num me = Some call -> call w = Ok (a, w') -> file_step w w'
  | step_fork me child fd a w' :
      (child < NPROC)%nat -> (fd < NOFILE)%nat -> u_ofile (w_proc w child) fd = None ->
      fork_fd me child fd w = Ok (a, w') -> file_step w w'
  | step_exit_fd me fd a w' :
      exit_fd me fd w = Ok (a, w') -> file_step w w'.
End Files.

(** ** The table of open files as a transition system

    [t_held] counts the references that calls in progress have to a file and
    that are in no descriptor; [t_closing] are the ends of pipes whose file is
    gone and that [pipeclose] has not been run on; [t_pages] are the pages in
    use. *)
Record ftab : Type := FTab {
  t_file : nat -> file;
  t_fd : nat -> nat -> option nat;
  t_pipe : Z -> pipe;
  t_pages : gset Z;
  t_held : nat -> nat;
  t_closing : gset (Z * bool);
}.

Definition upd_fd (me fd : nat) (v : option nat) (t : nat -> nat -> option nat) : nat -> nat -> option nat :=
  <[me := <[fd := v]> (t me)]> t.
Definition hold (f : nat) (h : nat -> nat) : nat -> nat := <[f := S (h f)]> h.
Definition unhold (f : nat) (h : nat -> nat) : nat -> nat := <[f := Nat.pred (h f)]> h.
Definition open_end (p : pipe) (writable : bool) : bool := if writable then writeopen p else readopen p.
Definition is_pipe (f : file) : bool := match f_type f with FD_PIPE => true | _ => false end.

(** The locked sections of the calls, of any number of processes, in any order. *)
Inductive fstep : ftab -> ftab -> Prop :=
  | fs_alloc F D P G h c f :
      first_index (fun f => f_ref (F f) =? 0) 0 NFILE = Some f ->
      fstep (FTab F D P G h c) (FTab (<[f := set_f_ref 1 (F f)]> F) D P G (hold f h) c)
  | fs_give F D P G h c me fd f :
      (0 < h f)%nat -> D me fd = None -> (me < NPROC)%nat -> (fd < NOFILE)%nat ->
      fstep (FTab F D P G h c) (FTab F (upd_fd me fd (Some f) D) P G (unhold f h) c)
  | fs_take F D P G h c me fd f :
      D me fd = Some f ->
      fstep (FTab F D P G h c) (FTab F (upd_fd me fd None D) P G (hold f h) c)
  | fs_dup F D P G h c me fd me' fd' f :
      D me fd = Some f -> D me' fd' = None -> (me' < NPROC)%nat -> (fd' < NOFILE)%nat ->
      fstep (FTab F D P G h c)
        (FTab (<[f := set_f_ref (f_ref (F f) + 1) (F f)]> F) (upd_fd me' fd' (Some f) D) P G h c)
  | fs_drop F D P G h c f :
      (0 < h f)%nat -> 1 < f_ref (F f) ->
      fstep (FTab F D P G h c) (FTab (<[f := set_f_ref (f_ref (F f) - 1) (F f)]> F) D P G (unhold f h) c)
  | fs_last F D P G h c f :
      (0 < h f)%nat -> f_ref (F f) = 1 ->
      fstep (FTab F D P G h c)
        (FTab (<[f := set_f_type FD_NONE (set_f_ref 0 (F f))]> F) D P G (unhold f h)
           (if is_pipe (F f) then {[(f_pipe (F f), f_writable (F f))]} ∪ c else c))
  | fs_pipeclose F D P G h c p wr :
      (p, wr) ∈ c ->
      fstep (FTab F D P G h c)
        (FTab F D (<[p := (pipeclose (P p) wr).1]> P)
           (if (pipeclose (P p) wr).2 then G ∖ {[p]} else G) h (c ∖ {[(p, wr)]}))
  | fs_newpipe F D P G h c r w p :
      (0 < h r)%nat -> (0 < h w)%nat -> r <> w -> f_type (F r) = FD_NONE -> f_type (F w) = FD_NONE -> p ∉ G ->
      fstep (FTab F D P G h c)
        (FTab (<[w := mk_pipe_end true p (F w)]> (<[r := mk_pipe_end false p (F r)]> F)) D
           (<[p := pipe_init (p_data (P p))]> P) ({[p]} ∪ G) h c)
  | fs_open F D P G h c me fd f ip omode :
      D me fd = Some f -> f_type (F f) = FD_NONE ->
      fstep (FTab F D P G h c) (FTab (<[f := mk_inode_file ip omode (F f)]> F) D P G h c)
  | fs_off F D P G h c f off :
      fstep (FTab F D P G h c) (FTab (<[f := set_f_off off (F f)]> F) D P G h c)
  | fs_data F D P G h c p v :
      readopen v = readopen (P p) -> writeopen v = writeopen (P p) ->
      fstep (FTab F D P G h c) (FTab F D (<[p := v]> P) G h c)
  | fs_kalloc F D P G h c p :
      fstep (FTab F D P G h c) (FTab F D P ({[p]} ∪ G) h c)
  | fs_kfree F D P G h c p :
      (* a page that is not a pipe's *)
      (forall f, f_type (F f) = FD_PIPE -> f_pipe (F f) <> p) -> (forall wr, (p, wr) ∉ c) ->
      fstep (FTab F D P G h c) (FTab F D P (G ∖ {[p]}) h c).

(** The descriptors of all processes that refer to a file. *)
Definition fds (D : nat -> nat -> option nat) (f : nat) : nat :=
  sum_list_with (fun p => sum_list_with (fun fd => if decide (D p fd = Some f) then 1%nat else 0%nat) (seq 0 NOFILE))
    (seq 0 NPROC).

Record ft_inv (t : ftab) : Prop := {
  (** a reference count counts the references *)
  fi_ref : forall f, (f < NFILE)%nat -> f_ref (t_file t f) = Z.of_nat (fds (t_fd t) f + t_held t f);
  fi_fd : forall p fd f, t_fd t p fd = Some f -> (p < NPROC)%nat /\ (fd < NOFILE)%nat /\ (f < NFILE)%nat;
  fi_held : forall f, (0 < t_held t f)%nat -> (f < NFILE)%nat;
  fi_none : forall f, f_type (t_file t f) <> FD_NONE -> (f < NFILE)%nat /\ f_ref (t_file t f) <> 0;
  (** an end of a pipe that is a file is open, and its page is in use *)
  fi_pipe : forall f, f_type (t_file t f) = FD_PIPE ->
    f_pipe (t_file t f) ∈ t_pages t /\
    open_end (t_pipe t (f_pipe (t_file t f))) (f_writable (t_file t f)) = true /\
    (f_pipe (t_file t f), f_writable (t_file t f)) ∉ t_closing t;
  fi_ends : forall f g, f_type (t_file t f) = FD_PIPE -> f_type (t_file t g) = FD_PIPE ->
    f_pipe (t_file t f) = f_pipe (t_file t g) -> f_writable (t_file t f) = f_writable (t_file t g) -> f = g;
  fi_closing : forall p wr, (p, wr) ∈ t_closing t -> p ∈ t_pages t /\ open_end (t_pipe t p) wr = true;
}.

(** *** Counting *)

Lemma sum_change (g g' : nat -> nat) k n : forall i,
  (i <= k < i + n)%nat -> (forall j, j <> k -> g' j = g j) ->
  (sum_list_with g' (seq i n) + g k = sum_list_with g (seq i n) + g' k)%nat.
Proof.
  assert (Same : forall n i, (forall j, (i <= j < i + n)%nat -> g' j = g j) ->
    sum_list_with g' (seq i n) = sum_list_with g (seq i n)).
  { clear. intros n. induction n as [|n IH]; intros i He; simpl; [done|].
    rewrite (He i) by lia. f_equal. apply IH. intros j Hj. apply He. lia. }
  induction n as [|n IH]; intros i Hk He; [lia|]. simpl. destruct (decide (i = k)) as [->|Hne].
  - rewrite (Same n (S k)); [lia|]. intros j Hj. apply He. lia.
  - rewrite (He i Hne). pose proof (IH (S i) ltac:(lia) He). lia.
Qed.

Lemma fds_upd D me fd v f :
  (me < NPROC)%nat -> (fd < NOFILE)%nat ->
  (fds (upd_fd me fd v D) f + (if decide (D me fd = Some f) then 1 else 0) =
   fds D f + (if decide (v = Some f) then 1 else 0))%nat.
Proof.
  intros Hm Hf. unfold fds.
  set (inner (D : nat -> nat -> option nat) (p : nat) := sum_list_with (fun fd => if decide (D p fd = Some f) then 1%nat else 0%nat) (seq 0 NOFILE)).
  change (sum_list_with (inner (upd_fd me fd v D)) (seq 0 NPROC) + (if decide (D me fd = Some f) then 1 else 0) =
    sum_list_with (inner D) (seq 0 NPROC) + (if decide (v = Some f) then 1 else 0))%nat.
  pose proof (sum_change (inner D) (inner (upd_fd me fd v D)) me NPROC 0 ltac:(lia)) as H1.
  assert (Hi : (inner (upd_fd me fd v D) me + (if decide (D me fd = Some f) then 1 else 0) =
    inner D me + (if decide (v = Some f) then 1 else 0))%nat).
  { unfold inner. pose proof (sum_change (fun x => if decide (D me x = Some f) then 1 else 0)%nat
      (fun x => if decide (upd_fd me fd v D me x = Some f) then 1 else 0)%nat fd NOFILE 0 ltac:(lia)) as H2.
    unfold upd_fd in *. rewrite !fn_lookup_insert in *. apply H2. intros j Hj. by rewrite fn_lookup_insert_ne. }
  specialize (H1 ltac:(intros j Hj; unfold inner, upd_fd; by rewrite fn_lookup_insert_ne by congruence)). lia.
Qed.

Lemma fds_pos D me fd f : (me < NPROC)%nat -> (fd < NOFILE)%nat -> D me fd = Some f -> (0 < fds D f)%nat.
Proof.
  intros Hm Hf E. pose proof (fds_upd D me fd None f Hm Hf) as H.
  rewrite decide_True in H by done. rewrite (decide_False (P := None = Some f)) in H by done. lia.
Qed.

(** *** The invariant is kept *)

(** An update of one file that keeps its count and, if it is a pipe's, its end. *)
Lemma keep_file F D P G h c f x :
  ft_inv (FTab F D P G h c) -> f_ref x = f_ref (F f) ->
  (f_type x <> FD_NONE -> f_type (F f) <> FD_NONE \/ (f < NFILE)%nat /\ f_ref x <> 0) ->
  (f_type x = FD_PIPE -> f_type (F f) = FD_PIPE /\ f_pipe x = f_pipe (F f) /\ f_writable x = f_writable (F f)) ->
  ft_inv (FTab (<[f := x]> F) D P G h c).
Proof.
  intros I Er Ht Hp. destruct I as [I1 I2 I3 I4 I5 I6 I7]; simpl in *. split; simpl; try done.
  - intros g Hg. fn_case; [rewrite Er|]; by apply I1.
  - intros g. fn_case; [|apply I4]. intros Hx. destruct (Ht Hx) as [H|H]; [|done]. rewrite Er. by apply I4.
  - intros g. fn_case; [|apply I5]. intros (H1 & -> & ->)%Hp. by apply I5.
  - intros f1 f2. repeat fn_case; auto.
    + intros (H1 & -> & ->)%Hp. intros. by apply I6.
    + intros H1 (H2 & -> & ->)%Hp. intros. by apply I6.
Qed.

(** A change of the number of references to one file. *)
Lemma count_file F D D' P G h h' c f x :
  ft_inv (FTab F D P G h c) ->
  (f < NFILE)%nat -> f_ref x = Z.of_nat (fds D' f + h' f) ->
  (forall g, g <> f -> (fds D' g + h' g = fds D g + h g)%nat) ->
  (forall p fd g, D' p fd = Some g -> (p < NPROC)%nat /\ (fd < NOFILE)%nat /\ (g < NFILE)%nat) ->
  (forall g, (0 < h' g)%nat -> (0 < h g)%nat \/ g = f) ->
  f_ref x <> 0 -> f_type x = f_type (F f) -> f_pipe x = f_pipe (F f) -> f_writable x = f_writable (F f) ->
  ft_inv (FTab (<[f := x]> F) D' P G h' c).
Proof.
  intros I Hf Er Hg Hd Hh Hx Et Ep Ew. destruct I as [I1 I2 I3 I4 I5 I6 I7]; simpl in *. split; simpl; try done.
  - intros g Hgn. fn_case; [done|]. rewrite I1 by done. by rewrite Hg.
  - intros g Hpos. destruct (Hh g Hpos) as [?| ->]; auto.
  - intros g. fn_case; [done|apply I4].
  - intros g. fn_case; [|apply I5]. rewrite Et, Ep, Ew. apply I5.
  - intros f1 f2. repeat fn_case; rewrite ?Et, ?Ep, ?Ew; auto.
Qed.

Lemma hold_ne f g h : g <> f -> hold f h g = h g.
Proof. intros. unfold hold. by rewrite fn_lookup_insert_ne. Qed.
Lemma unhold_ne f g h : g <> f -> unhold f h g = h g.
Proof. intros. unfold unhold. by rewrite fn_lookup_insert_ne. Qed.
Lemma hold_eq f h : hold f h f = S (h f).
Proof. unfold hold. by rewrite fn_lookup_insert. Qed.
Lemma unhold_eq f h : unhold f h f = Nat.pred (h f).
Proof. unfold unhold. by rewrite fn_lookup_insert. Qed.
Lemma unhold_pos f g h : (0 < unhold f h g)%nat -> (0 < h g)%nat.
Proof. unfold unhold. fn_case; lia. Qed.

Lemma fds_upd_ne D me fd v f :
  (me < NPROC)%nat -> (fd < NOFILE)%nat -> D me fd <> Some f -> v <> Some f -> fds (upd_fd me fd v D) f = fds D f.
Proof. intros Hm Hf H1 H2. pose proof (fds_upd D me fd v f Hm Hf). rewrite !decide_False in * by done. lia. Qed.

Lemma upd_fd_range (P : nat -> nat -> nat -> Prop) D me fd v :
  (forall p x g, D p x = Some g -> P p x g) -> (forall g, v = Some g -> P me fd g) ->
  forall p x g, upd_fd me fd v D p x = Some g -> P p x g.
Proof. intros H1 H2 p x g. unfold upd_fd. repeat fn_case; auto. Qed.

Lemma first_index_Some test n : forall i k,
  first_index test i n = Some k -> (i <= k < i + n)%nat /\ test k = true /\ forall j, (i <= j < k)%nat -> test j = false.
Proof.
  induction n as [|n IH]; intros i k; cbn [first_index]; [done|].
  destruct (test i) eqn:E; [intros [= <-]; split; [lia|]; split; [done|lia]|].
  intros (H1 & H2 & H3)%IH. split; [lia|]. split; [done|]. intros j Hj.
  destruct (decide (j = i)) as [->|]; [done|]. apply H3. lia.
Qed.

Lemma give_inv F D P G h c me fd f :
  ft_inv (FTab F D P G h c) -> (0 < h f)%nat -> D me fd = None -> (me < NPROC)%nat -> (fd < NOFILE)%nat ->
  ft_inv (FTab F (upd_fd me fd (Some f) D) P G (unhold f h) c).
Proof.
  intros I Hh Hd Hm Hfd. pose proof (fi_held _ I f Hh) as Hf.
  pose proof (fds_upd D me fd (Some f) f Hm Hfd) as Hc. rewrite Hd in Hc.
  rewrite decide_False, decide_True in Hc by done.
  destruct I as [I1 I2 I3 I4 I5 I6 I7]; simpl in *. split; simpl; try done.
  - intros g Hg. rewrite I1 by done. destruct (decide (g = f)) as [->|Hne].
    + rewrite unhold_eq. lia.
    + rewrite unhold_ne, fds_upd_ne by congruence. done.
  - apply upd_fd_range; [done|]. by intros g [= <-].
  - intros g H%unhold_pos. auto.
Qed.

Lemma take_inv F D P G h c me fd f :
  ft_inv (FTab F D P G h c) -> D me fd = Some f -> ft_inv (FTab F (upd_fd me fd None D) P G (hold f h) c).
Proof.
  intros I Hd. destruct (fi_fd _ I me fd f Hd) as (Hm & Hfd & Hf).
  pose proof (fds_upd D me fd None f Hm Hfd) as Hc.
  rewrite decide_True, decide_False in Hc by done.
  destruct I as [I1 I2 I3 I4 I5 I6 I7]; simpl in *. split; simpl; try done.
  - intros g Hg. rewrite I1 by done. destruct (decide (g = f)) as [->|Hne].
    + rewrite hold_eq. lia.
    + rewrite hold_ne, fds_upd_ne by congruence. done.
  - apply upd_fd_range; [done|done].
  - intros g. unfold hold. fn_case; auto.
Qed.

Lemma alloc_file_inv F D P G h c f :
  ft_inv (FTab F D P G h c) -> first_index (fun f => f_ref (F f) =? 0) 0 NFILE = Some f ->
  ft_inv (FTab (<[f := set_f_ref 1 (F f)]> F) D P G (hold f h) c).
Proof.
  intros I (Hf & Hz & _)%first_index_Some. apply Z.eqb_eq in Hz.
  pose proof (fi_ref _ I f ltac:(lia)) as Hr. simpl in Hr.
  apply (count_file F D D _ _ h); [done|lia| | |apply (fi_fd _ I)| |done..].
  - rewrite hold_eq. simpl. lia.
  - intros g Hg. by rewrite hold_ne.
  - intros g. destruct (decide (g = f)); [auto|]. rewrite hold_ne by done. auto.
Qed.

Lemma dup_inv F D P G h c me fd me' fd' f :
  ft_inv (FTab F D P G h c) -> D me fd = Some f -> D me' fd' = None -> (me' < NPROC)%nat -> (fd' < NOFILE)%nat ->
  ft_inv (FTab (<[f := set_f_ref (f_ref (F f) + 1) (F f)]> F) (upd_fd me' fd' (Some f) D) P G h c).
Proof.
  intros I Hd Hn Hm Hfd. destruct (fi_fd _ I me fd f Hd) as (_ & _ & Hf). simpl in *.
  pose proof (fds_upd D me' fd' (Some f) f Hm Hfd) as Hc. rewrite Hn in Hc.
  rewrite decide_False, decide_True in Hc by done. pose proof (fi_ref _ I f Hf) as Hr. simpl in Hr.
  apply (count_file F D _ _ _ h); [done|done|simpl; lia| | |auto|simpl; lia|done..].
  - intros g Hg. rewrite fds_upd_ne by congruence. done.
  - apply upd_fd_range; [apply (fi_fd _ I)|]. by intros g [= <-].
Qed.

Lemma drop_inv F D P G h c f :
  ft_inv (FTab F D P G h c) -> (0 < h f)%nat -> 1 < f_ref (F f) ->
  ft_inv (FTab (<[f := set_f_ref (f_ref (F f) - 1) (F f)]> F) D P G (unhold f h) c).
Proof.
  intros I Hh Hr. pose proof (fi_held _ I f Hh) as Hf. pose proof (fi_ref _ I f Hf) as Hc. simpl in Hc.
  apply (count_file F D D _ _ h); [done|done| | |apply (fi_fd _ I)| |simpl; lia|done..].
  - rewrite unhold_eq. simpl. lia.
  - intros g Hg. by rewrite unhold_ne.
  - intros g H%unhold_pos. auto.
Qed.

Lemma is_pipe_true f : is_pipe f = true <-> f_type f = FD_PIPE.
Proof. unfold is_pipe. by destruct (f_type f). Qed.

Lemma last_inv F D P G h c f :
  ft_inv (FTab F D P G h c) -> (0 < h f)%nat -> f_ref (F f) = 1 ->
  ft_inv (FTab (<[f := set_f_type FD_NONE (set_f_ref 0 (F f))]> F) D P G (unhold f h)
    (if is_pipe (F f) then {[(f_pipe (F f), f_writable (F f))]} ∪ c else c)).
Proof.
  intros I Hh Hr. pose proof (fi_held _ I f Hh) as Hf. pose proof (fi_ref _ I f Hf) as Hc. simpl in Hc.
  destruct I as [I1 I2 I3 I4 I5 I6 I7]; simpl in *. split; simpl.
  - intros g Hg. fn_case; simpl; [rewrite unhold_eq; lia|]. rewrite unhold_ne by done. auto.
  - done.
  - intros g H%unhold_pos. auto.
  - intros g. fn_case; [done|apply I4].
  - intros g. fn_case; [done|]. intros Hg. destruct (I5 g Hg) as (H1 & H2 & H3). split; [done|]. split; [done|].
    destruct (is_pipe (F f)) eqn:Ep; [|done]. apply is_pipe_true in Ep.
    rewrite not_elem_of_union, not_elem_of_singleton. split; [|done]. intros [= E1 E2].
    by pose proof (I6 g f Hg Ep E1 E2).
  - intros f1 f2. repeat fn_case; auto; done.
  - intros p wr. destruct (is_pipe (F f)) eqn:Ep; [|apply I7]. apply is_pipe_true in Ep.
    rewrite elem_of_union, elem_of_singleton. intros [[= -> ->]|]; [|by apply I7].
    destruct (I5 f Ep) as (? & ? & _). done.
Qed.

Lemma pipeclose_end p wr x :
  open_end (pipeclose p wr).1 x = if Bool.eqb x wr then false else open_end p x.
Proof. by destruct wr, x. Qed.

Lemma pipeclose_freed p wr x : (pipeclose p wr).2 = true -> open_end (pipeclose p wr).1 x = false.
Proof. unfold pipeclose. cbn [fst snd]. intros [H1%negb_true_iff H2%negb_true_iff]%andb_true_iff. by destruct x. Qed.

(** Closing one end keeps the other one, and frees the page only if that is closed. *)
Lemma other_end p wr (G : gset Z) (P : Z -> pipe) q x :
  q ∈ G -> open_end (P q) x = true -> (q, x) <> (p, wr) ->
  q ∈ (if (pipeclose (P p) wr).2 then G ∖ {[p]} else G) /\
  open_end ((<[p := (pipeclose (P p) wr).1]> P) q) x = true.
Proof.
  intros Hq Ho Hne. assert (E : open_end ((<[p := (pipeclose (P p) wr).1]> P) q) x = true).
  { fn_case; [|done]. rewrite pipeclose_end. destruct (Bool.eqb x wr) eqn:Eb; [|done].
    apply eqb_prop in Eb. congruence. }
  split; [|done]. destruct (pipeclose (P p) wr).2 eqn:Ef; [|done].
  apply elem_of_difference. split; [done|]. rewrite elem_of_singleton. intros ->.
  rewrite fn_lookup_insert, pipeclose_freed in E by done. done.
Qed.

Lemma pipeclose_inv F D P G h c p wr :
  ft_inv (FTab F D P G h c) -> (p, wr) ∈ c ->
  ft_inv (FTab F D (<[p := (pipeclose (P p) wr).1]> P)
    (if (pipeclose (P p) wr).2 then G ∖ {[p]} else G) h (c ∖ {[(p, wr)]})).
Proof.
  intros [I1 I2 I3 I4 I5 I6 I7] Hc; simpl in *. split; simpl; try done.
  - intros f Hf. destruct (I5 f Hf) as (H1 & H2 & H3).
    destruct (other_end p wr G P _ _ H1 H2) as [E1 E2]; [intros E; by rewrite E in H3|]. split; [done|]. split; [done|]. set_solver.
  - intros q x [Hq Hne]%elem_of_difference. destruct (I7 q x Hq) as [H1 H2].
    apply other_end; [done..|]. set_solver.
Qed.

Lemma newpipe_inv F D P G h c r w p :
  ft_inv (FTab F D P G h c) -> (0 < h r)%nat -> (0 < h w)%nat -> r <> w ->
  f_type (F r) = FD_NONE -> f_type (F w) = FD_NONE -> p ∉ G ->
  ft_inv (FTab (<[w := mk_pipe_end true p (F w)]> (<[r := mk_pipe_end false p (F r)]> F)) D
    (<[p := pipe_init (p_data (P p))]> P) ({[p]} ∪ G) h c).
Proof.
  intros I Hr Hw Hne Tr Tw Hp. pose proof (fi_held _ I r Hr) as Nr. pose proof (fi_held _ I w Hw) as Nw.
  pose proof (fi_ref _ I r Nr) as Rr. pose proof (fi_ref _ I w Nw) as Rw.
  destruct I as [I1 I2 I3 I4 I5 I6 I7]; simpl in *.
  assert (Old : forall q x, q ∈ G -> open_end (P q) x = true ->
    q ∈ ({[p]} ∪ G : gset Z) /\ open_end ((<[p := pipe_init (p_data (P p))]> P) q) x = true).
  { intros q x Hq Ho. split; [set_solver|]. by fn_case. }
  assert (Nc : forall x, (p, x) ∉ c) by (intros x Hx; by destruct (I7 p x Hx)).
  split; simpl; try done.
  - intros f Hf. repeat fn_case; simpl; auto.
  - intros f. repeat fn_case; simpl; try (intros _; split; [done|lia]). apply I4.
  - intros f. destruct (decide (w = f)) as [<-|Hwf]; [|destruct (decide (r = f)) as [<-|Hrf]].
    + rewrite !fn_lookup_insert. simpl. rewrite ?fn_lookup_insert. intros _. split; [set_solver|]. by split.
    + rewrite fn_lookup_insert_ne, fn_lookup_insert by done. simpl. rewrite ?fn_lookup_insert. intros _.
      split; [set_solver|]. by split.
    + rewrite !(fn_lookup_insert_ne _ _ f) by done. intros Hf. destruct (I5 f Hf) as (H1 & H2 & H3).
      destruct (Old _ _ H1 H2). done.
  - assert (N : forall f, f_type (F f) = FD_PIPE -> f_pipe (F f) <> p) by (intros f Hf E; destruct (I5 f Hf); congruence).
    intros f1 f2. repeat fn_case; simpl; try done; intros H1 H2 H3 H4; try done; try (by destruct (N _ H1));
      try (by destruct (N _ H2)). by apply I6.
  - intros q x Hq. destruct (I7 q x Hq) as [H1 H2]. auto.
Qed.

Lemma fstep_inv t t' : ft_inv t -> fstep t t' -> ft_inv t'.
Proof.
  intros I St. destruct St as [F D P G h c f Ha|F D P G h c me fd f Hh Hd Hm Hfd|F D P G h c me fd f Hd
    |F D P G h c me fd me' fd' f Hd Hn Hm Hfd|F D P G h c f Hh Hr|F D P G h c f Hh Hr|F D P G h c p wr Hc
    |F D P G h c r w p Hr Hw Hne Tr Tw Hp|F D P G h c me fd f ip om Hd Ht|F D P G h c f off|F D P G h c p v H1 H2
    |F D P G h c p|F D P G h c p Hf Hc].
  - by apply alloc_file_inv.
  - by apply give_inv.
  - by apply take_inv.
  - by eapply dup_inv.
  - by apply drop_inv.
  - by apply last_inv.
  - by apply pipeclose_inv.
  - by apply newpipe_inv.
  - destruct (fi_fd _ I me fd f Hd) as (Hm & Hfd & Hf). pose proof (fds_pos D me fd f Hm Hfd Hd).
    pose proof (fi_ref _ I f Hf) as Hr. simpl in Hr. apply keep_file; simpl; [done..| |done].
    intros _. right. split; [done|lia].
  - apply keep_file; simpl; auto.
  - destruct I as [I1 I2 I3 I4 I5 I6 I7]; simpl in *.
    assert (E : forall q x, open_end ((<[p := v]> P) q) x = open_end (P q) x).
    { intros q x. fn_case; [|done]. by destruct x. }
    split; simpl; try done; intros; rewrite E; auto.
  - destruct I as [I1 I2 I3 I4 I5 I6 I7]; simpl in *. split; simpl; try done.
    + intros f Hf. destruct (I5 f Hf) as (? & ? & ?). set_solver.
    + intros q x Hq. destruct (I7 q x Hq). set_solver.
  - destruct I as [I1 I2 I3 I4 I5 I6 I7]; simpl in *. split; simpl; try done.
    + intros f Ht. destruct (I5 f Ht) as (? & ? & ?). pose proof (Hf f Ht). set_solver.
    + intros q x Hq. destruct (I7 q x Hq). assert (q <> p) by (intros ->; by eapply Hc). set_solver.
Qed.

Lemma piperead_open p killed n :
  readopen (piperead p killed n).1 = readopen p /\ writeopen (piperead p killed n).1 = writeopen p.
Proof.
  assert (C : forall n p, readopen (piperead_copy n p).1 = readopen p /\ writeopen (piperead_copy n p).1 = writeopen p).
  { clear. intros n. induction n as [|n IH]; intros p; cbn [piperead_copy]; [done|].
    destruct (pipe_empty p); [done|]. unfold get_byte. specialize (IH (Pipe (p_data p) (u32 (nread p + 1)) (nwrite p) (readopen p) (writeopen p))).
    by destruct (piperead_copy n _). }
  unfold piperead. destruct (_ && _); [by destruct killed|]. specialize (C (Z.to_nat n) p).
  by destruct (piperead_copy _ p).
Qed.

Lemma pipewrite_open killed bytes : forall p,
  readopen (pipewrite p killed bytes).1 = readopen p /\ writeopen (pipewrite p killed bytes).1 = writeopen p.
Proof.
  induction bytes as [|b bytes IH]; intros p; cbn [pipewrite]; [done|].
  destruct (pipe_full p); [by destruct (_ || _)|]. apply (IH (put_byte b p)).
Qed.

(** *** The calls make these steps *)

Class HostLaws (K : Type) {host : HostOps K} (pages : K -> gset Z) : Prop := {
  kalloc_law k p k' : h_kalloc k = Ok (p, k') ->
    p = 0 /\ pages k' = pages k \/ p <> 0 /\ p ∉ pages k /\ pages k' = {[p]} ∪ pages k;
  kfree_law k p u k' : h_kfree p k = Ok (u, k') -> pages k' = pages k ∖ {[p]};
  wakeup_law k c u k' : h_wakeup c k = Ok (u, k') -> pages k' = pages k;
}.

(** The head of an application. *)
Ltac head_of c := lazymatch c with ?f _ => head_of f | _ => c end.

Section CallSteps.
Context {T K : Type} {ops : TxOps T} {txn : OpOps T} {host : HostOps K}.
Context {pages : K -> gset Z} {laws : HostLaws K pages}.
Variable devsw : Z -> option (devops T).
Variable exec : nat -> list Z -> list Z -> M (world T K) Z.

Definition abs (w : world T K) (h : nat -> nat) (c : gset (Z * bool)) : ftab :=
  FTab (w_file w) (fun p fd => u_ofile (w_proc w p) fd) (w_pipe w) (pages (w_host w)) h c.

(** The tables are the same. *)
Definition same (w w' : world T K) : Prop := forall h c, abs w' h c = abs w h c.

Definition moved (w : world T K) (h : nat -> nat) (w' : world T K) (h' : nat -> nat) : Prop :=
  rtc fstep (abs w h ∅) (abs w' h' ∅).

Lemma moved_inv w h w' h' : ft_inv (abs w h ∅) -> moved w h w' h' -> ft_inv (abs w' h' ∅).
Proof. intros I R. by eapply rtc_invariant; [|apply fstep_inv|]. Qed.

Lemma moved_trans w1 h1 w2 h2 w3 h3 : moved w1 h1 w2 h2 -> moved w2 h2 w3 h3 -> moved w1 h1 w3 h3.
Proof. unfold moved. by etrans. Qed.

Lemma moved_same w w' h : same w w' -> moved w h w' h.
Proof. intros S. unfold moved. rewrite S. apply rtc_refl. Qed.

Lemma same_moved w w1 w' h h' : same w w1 -> moved w1 h w' h' -> moved w h w' h'.
Proof. intros S. unfold moved. by rewrite S. Qed.

Lemma moved_once w h w' h' : fstep (abs w h ∅) (abs w' h' ∅) -> moved w h w' h'.
Proof. apply rtc_once. Qed.

Lemma on_fs_same {A} (c : M (fs T) A) w a w' : on_fs c w = Ok (a, w') -> same w w'.
Proof. unfold on_fs. by destruct (c (w_fs w)) as [[b s]|?| |]; intros [= <- <-]. Qed.

Lemma on_host_pages {A} (c : M K A) (w : world T K) a w' :
  on_host c w = Ok (a, w') ->
  c (w_host w) = Ok (a, w_host w') /\ w' = World (w_fs w) (w_host w') (w_file w) (w_pipe w) (w_proc w).
Proof. unfold on_host. by destruct (c (w_host w)) as [[b s]|?| |]; intros [= <- <-]. Qed.

Lemma host_wakeup_same c (w : world T K) a w' : on_host (h_wakeup c) w = Ok (a, w') -> same w w'.
Proof. intros [E ->]%on_host_pages h cl. apply wakeup_law in E. unfold abs; simpl in *. by rewrite E. Qed.

Lemma with_args_same {A} me (g : mem -> Z -> trapframe -> res A) (w : world T K) a w' :
  with_args me g w = Ok (a, w') -> w' = w.
Proof. unfold with_args. by destruct (g _ _ _); intros [= <- <-]. Qed.

Lemma upd_uproc_same me g (w : world T K) a w' :
  (forall u, u_ofile (g u) = u_ofile u) -> upd_uproc me g w = Ok (a, w') -> same w w'.
Proof.
  intros Hg. unfold upd_uproc, modify. intros [= <- <-] h c. unfold abs; simpl. f_equal.
  extensionality p. fn_case; [by rewrite Hg|done].
Qed.

Lemma set_fd_abs me fd v (w : world T K) a w' :
  set_fd me fd v w = Ok (a, w') ->
  forall h c, abs w' h c = FTab (w_file w) (upd_fd me fd v (fun p fd => u_ofile (w_proc w p) fd)) (w_pipe w)
    (pages (w_host w)) h c.
Proof.
  unfold set_fd, upd_uproc, modify. intros [= <- <-] h c. unfold abs; simpl. f_equal.
  extensionality p. unfold upd_fd. fn_case; [done|]. by rewrite fn_lookup_insert_ne.
Qed.

Lemma upd_file_abs f g (w : world T K) a w' :
  upd_file f g w = Ok (a, w') ->
  forall h c, abs w' h c = FTab (<[f := g (w_file w f)]> (w_file w)) (fun p fd => u_ofile (w_proc w p) fd) (w_pipe w)
    (pages (w_host w)) h c.
Proof. unfold upd_file, modify. by intros [= <- <-] h c. Qed.

Lemma put_pipe_abs p v (w : world T K) a w' :
  put_pipe p v w = Ok (a, w') ->
  forall h c, abs w' h c = FTab (w_file w) (fun p fd => u_ofile (w_proc w p) fd) (<[p := v]> (w_pipe w))
    (pages (w_host w)) h c.
Proof. unfold put_pipe, modify. by intros [= <- <-] h c. Qed.

Lemma get_Ok {A} (k : world T K -> M (world T K) A) w r : bind get k w = r -> k w w = r.
Proof. done. Qed.

(** References taken, given and dropped. *)

Lemma filealloc_moved h (w : world T K) o w' :
  filealloc w = Ok (o, w') ->
  match o with
  | Some f => moved w h w' (hold f h) /\ f_ref (w_file w f) = 0 /\
      w_file w' = <[f := set_f_ref 1 (w_file w f)]> (w_file w) /\ w_proc w' = w_proc w
  | None => w' = w
  end.
Proof.
  unfold filealloc. intros E. minv. destruct (first_index _ 0 NFILE) as [f|] eqn:Ef; minv; [|done].
  pose proof (first_index_Some _ _ _ _ Ef) as (_ & Hz%Z.eqb_eq & _).
  split; [|split; [done|]].
  - apply moved_once. match goal with D : upd_file _ _ _ = _ |- _ => rewrite (upd_file_abs _ _ _ _ _ D) end. by apply fs_alloc.
  - match goal with D : upd_file _ _ _ = _ |- _ => unfold upd_file, modify in D; injection D as <- <- end. done.
Qed.

Lemma fdalloc_spec me f (w : world T K) o w' :
  fdalloc me f w = Ok (o, w') ->
  match o with
  | Some fd => (fd < NOFILE)%nat /\ u_ofile (w_proc w me) fd = None /\ set_fd me fd (Some f) w = Ok (tt, w')
  | None => w' = w
  end.
Proof.
  unfold fdalloc, the_uproc. intros E. minv. destruct (first_index _ 0 NOFILE) as [fd|] eqn:Ef; minv; [|done].
  apply first_index_Some in Ef as (H1 & H2%bool_decide_eq_true & _). split; [lia|]. split; [done|].
  match goal with D : set_fd _ _ _ _ = Ok (?x, _) |- _ => by destruct x end.
Qed.

Lemma give_moved me fd f h (w w' : world T K) :
  (me < NPROC)%nat -> (fd < NOFILE)%nat -> (0 < h f)%nat -> u_ofile (w_proc w me) fd = None ->
  set_fd me fd (Some f) w = Ok (tt, w') -> moved w h w' (unhold f h).
Proof. intros Hm Hfd Hh Hd E. apply moved_once. rewrite (set_fd_abs _ _ _ _ _ _ E). by apply fs_give. Qed.

Lemma take_moved me fd f h (w w' : world T K) :
  u_ofile (w_proc w me) fd = Some f -> set_fd me fd None w = Ok (tt, w') -> moved w h w' (hold f h).
Proof. intros Hd E. apply moved_once. rewrite (set_fd_abs _ _ _ _ _ _ E). by apply fs_take. Qed.

Lemma close_pipe_steps p wr h (w : world T K) a w' :
  close_pipe p wr w = Ok (a, w') -> rtc fstep (abs w h {[(p, wr)]}) (abs w' h ∅).
Proof.
  unfold close_pipe. intros E. apply get_Ok in E. destruct (pipeclose (w_pipe w p) wr) as [v freed] eqn:Ep. minv.
  apply rtc_once. pose proof (fs_pipeclose (w_file w) (fun p fd => u_ofile (w_proc w p) fd) (w_pipe w)
    (pages (w_host w)) h {[(p, wr)]} p wr ltac:(set_solver)) as St.
  rewrite Ep in St. cbn [fst snd] in St. rewrite difference_diag_L in St.
  match goal with D : on_host (h_wakeup _) ?x = Ok (_, ?y), D1 : put_pipe _ _ _ = Ok (_, ?x) |- _ =>
    pose proof (host_wakeup_same _ _ _ _ D) as S1; pose proof (put_pipe_abs _ _ _ _ _ D1) as S2 end.
  destruct freed; minv; [|by rewrite S1, S2].
  apply on_host_pages in E as [E ->]. apply kfree_law in E. specialize (S1 h ∅). rewrite S2 in S1.
  unfold abs in S1 |- *; simpl in *. injection S1 as A1 A2 A3 A4. rewrite E, A1, A2, A3, A4. done.
Qed.

Lemma drop_ref_spec f (w : world T K) o w' :
  drop_ref f w = Ok (o, w') ->
  match o with
  | None => 1 < f_ref (w_file w f) /\
      w' = World (w_fs w) (w_host w) (<[f := set_f_ref (f_ref (w_file w f) - 1) (w_file w f)]> (w_file w)) (w_pipe w) (w_proc w)
  | Some ff => f_ref (w_file w f) = 1 /\ ff = set_f_ref 0 (w_file w f) /\
      w' = World (w_fs w) (w_host w) (<[f := set_f_type FD_NONE (set_f_ref 0 (w_file w f))]> (w_file w)) (w_pipe w) (w_proc w)
  end.
Proof.
  unfold drop_ref, the_file, upd_file, bind, gets, modify, ret, panic. cbn [w_file].
  destruct (Z.ltb_spec (f_ref (w_file w f)) 1); [done|].
  destruct (Z.ltb_spec 0 (f_ref (w_file w f) - 1)); intros [= <- <-]; [split; [lia|done]|].
  cbn [w_fs w_host w_file w_pipe w_proc]. rewrite fn_lookup_insert, fn_insert_insert.
  assert (E1 : f_ref (w_file w f) = 1) by lia. by rewrite E1.
Qed.

Lemma fileclose_moved f h (w : world T K) a w' :
  (0 < h f)%nat -> fileclose f w = Ok (a, w') -> moved w h w' (unhold f h).
Proof.
  intros Hh E. unfold fileclose in E. apply bind_Ok_inv in E as (o & w1 & E1 & E). apply drop_ref_spec in E1.
  destruct o as [ff|]; [|minv; destruct E1 as [E1 ->]; apply moved_once; by apply fs_drop].
  destruct E1 as (E1 & -> & Ew). cbn [set_f_ref f_type f_pipe f_writable f_ip] in E.
  pose proof (fs_last (w_file w) (fun p fd => u_ofile (w_proc w p) fd) (w_pipe w) (pages (w_host w)) h ∅ f Hh E1) as St.
  unfold is_pipe in St. unfold moved. eapply rtc_l; [exact St|]. clear St.
  destruct (f_type (w_file w f)).
  - minv. apply rtc_refl.
  - rewrite union_empty_r_L. apply close_pipe_steps with (h := unhold f h) in E. by rewrite Ew in E.
  - minv. unfold begin_op, end_op in *. repeat match goal with D : on_fs _ _ = _ |- _ => apply on_fs_same in D end.
    repeat match goal with S : same _ ?y |- context [abs ?y] => rewrite S; clear S end. rewrite Ew. apply rtc_refl.
Qed.

(** Computations that leave the tables alone. *)
Definition quiet {A} (c : M (world T K) A) : Prop := forall w a w', c w = Ok (a, w') -> same w w'.

Lemma quiet_ret {A} (a : A) : quiet (ret a).
Proof. by intros w b w' [= <- <-]. Qed.
Lemma quiet_panic {A} msg : quiet (A := A) (panic msg).
Proof. done. Qed.
Lemma quiet_bind {A B} (c : M (world T K) A) (k : A -> M (world T K) B) :
  quiet c -> (forall a, quiet (k a)) -> quiet (bind c k).
Proof.
  intros Q1 Q2 w b w' E. apply bind_Ok_inv in E as (a & w1 & E1 & E2).
  intros h cl. rewrite (Q2 _ _ _ _ E2). apply (Q1 _ _ _ E1).
Qed.
Lemma quiet_fs {A} (c : M (fs T) A) : quiet (on_fs c).
Proof. intros w a w'. apply on_fs_same. Qed.
Lemma quiet_wakeup c : quiet (on_host (h_wakeup c)).
Proof. intros w a w'. apply host_wakeup_same. Qed.
Lemma quiet_args {A} me (g : mem -> Z -> trapframe -> res A) : quiet (with_args me g).
Proof. by intros w a w' ->%with_args_same. Qed.
Lemma quiet_gets {A} (g : world T K -> A) : quiet (gets g).
Proof. by intros w a w' [= <- <-]. Qed.
Lemma quiet_uproc me g : (forall u, u_ofile (g u) = u_ofile u) -> quiet (upd_uproc me g).
Proof. intros Hg w a w'. by apply upd_uproc_same. Qed.

Ltac quiets :=
  repeat match goal with
  | |- forall _, _ => intros ?
  | |- quiet (ret _) => apply quiet_ret
  | |- quiet fail => apply quiet_ret
  | |- quiet (panic _) => apply quiet_panic
  | |- quiet (on_fs _) => apply quiet_fs
  | |- quiet (on_host (h_wakeup _)) => apply quiet_wakeup
  | |- quiet (with_args _ _) => apply quiet_args
  | |- quiet (gets _) => apply quiet_gets
  | |- quiet (upd_uproc _ _) => apply quiet_uproc; intros; reflexivity
  | |- quiet (bind _ _) => apply quiet_bind
  | |- quiet (match ?x with _ => _ end) => destruct x
  | |- quiet ?c => let f := head_of c in progress unfold f
  end.

Lemma quiet_stat me : quiet (sys_fstat me).
Proof. quiets. Qed.
Lemma quiet_link me : quiet (sys_link devsw me).
Proof. quiets. Qed.
Lemma quiet_unlink me : quiet (sys_unlink devsw me).
Proof. quiets. Qed.
Lemma quiet_mkdir me : quiet (sys_mkdir devsw me).
Proof. quiets. Qed.
Lemma quiet_mknod me : quiet (sys_mknod devsw me).
Proof. quiets. Qed.
Lemma quiet_chdir me : quiet (sys_chdir devsw me).
Proof. quiets. Qed.
Lemma quiet_open_inode me path omode : quiet (open_inode devsw me path omode).
Proof. quiets. Qed.

(** Computations that end with the references they started with. *)
Definition moves {A} (c : M (world T K) A) : Prop := forall w a w' h, c w = Ok (a, w') -> moved w h w' h.

Lemma quiet_moves {A} (c : M (world T K) A) : quiet c -> moves c.
Proof. intros Q w a w' h E. apply moved_same. by eapply Q. Qed.
Lemma moves_bind {A B} (c : M (world T K) A) (k : A -> M (world T K) B) :
  moves c -> (forall a, moves (k a)) -> moves (bind c k).
Proof.
  intros Q1 Q2 w b w' h E. apply bind_Ok_inv in E as (a & w1 & E1 & E2).
  eapply moved_trans; [by eapply Q1|by eapply Q2].
Qed.
Lemma moves_off f (o : file -> Z) : moves (upd_file f (fun x => set_f_off (o x) x)).
Proof. intros w a w' h E. apply moved_once. rewrite (upd_file_abs _ _ _ _ _ E). apply fs_off. Qed.

Lemma moves_data {A} p v (k : M (world T K) A) w a w' h :
  readopen v = readopen (w_pipe w p) -> writeopen v = writeopen (w_pipe w p) -> moves k ->
  (do! put_pipe p v in k) w = Ok (a, w') -> moved w h w' h.
Proof.
  intros H1 H2 Q E. apply bind_Ok_inv in E as (u & w1 & E1 & E). eapply moved_trans; [|by eapply Q].
  apply moved_once. rewrite (put_pipe_abs _ _ _ _ _ E1). by apply fs_data.
Qed.

Lemma moves_read_pipe me p addr n : moves (read_pipe me p addr n).
Proof.
  intros w a w' h E. unfold read_pipe in E. apply get_Ok in E.
  destruct (piperead _ _ n) as [v r] eqn:Ep.
  pose proof (piperead_open (w_pipe w p) (u_killed (w_proc w me)) n) as [H1 H2]. rewrite Ep in H1, H2.
  eapply moves_data; [exact H1|exact H2| |exact E]. apply quiet_moves. quiets.
Qed.
Lemma moves_write_pipe me p n bytes : moves (write_pipe me p n bytes).
Proof.
  intros w a w' h E. unfold write_pipe in E. apply get_Ok in E.
  destruct (pipewrite _ _ bytes) as [v r] eqn:Ep.
  pose proof (pipewrite_open (u_killed (w_proc w me)) bytes (w_pipe w p)) as [H1 H2]. rewrite Ep in H1, H2.
  eapply moves_data; [exact H1|exact H2| |exact E]. apply quiet_moves. quiets.
Qed.

Ltac movess :=
  repeat match goal with
  | |- forall _, _ => intros ?
  | |- moves (upd_file _ (fun x => set_f_off _ x)) => apply moves_off
  | |- moves (read_pipe _ _ _ _) => apply moves_read_pipe
  | |- moves (write_pipe _ _ _ _) => apply moves_write_pipe
  | |- moves (bind _ _) => apply moves_bind
  | |- moves (match ?x with _ => _ end) => destruct x
  | |- moves _ => apply quiet_moves; solve [quiets]
  end.

Lemma moves_fileread me f addr n : moves (fileread devsw me f addr n).
Proof. unfold fileread. movess. Qed.

Lemma moves_write_loop fuel me f addr n : forall i, moves (write_loop devsw fuel me f addr i n).
Proof.
  induction fuel as [|fuel IH]; intros i; cbn [write_loop]; [by intros w a w' h|].
  destruct (i <? n); [|movess]. apply moves_bind; [movess|]. intros u. apply moves_bind; [unfold write_chunk; movess|].
  intros [k|]; [|movess]. destruct (negb _); [by intros w a w' h|apply IH].
Qed.

Lemma moves_filewrite me f addr n : moves (filewrite devsw me f addr n).
Proof.
  unfold filewrite. apply moves_bind; [movess|]. intros x. destruct (negb _); [movess|].
  destruct (f_type x); [by intros w a w' h|movess|].
  apply moves_bind; [apply moves_write_loop|movess].
Qed.

Lemma moves_rw me : moves (sys_read devsw me) /\ moves (sys_write devsw me).
Proof.
  split; (apply moves_bind; [movess|]); intros [[[f p] n]|]; [apply moves_fileread|movess|apply moves_filewrite|movess].
Qed.


Lemma argfd_Some me n (w : world T K) fd f w' :
  argfd me n w = Ok (Some (fd, f), w') -> w' = w /\ u_ofile (w_proc w me) fd = Some f.
Proof.
  unfold argfd, arg_int. intros E. apply bind_Ok_inv in E as (x & w1 & E1 & E). apply with_args_same in E1 as ->.
  apply bind_Ok_inv in E as (u & w1 & E1 & E). unfold the_uproc, gets in E1. injection E1 as <- <-.
  unfold ret in E. destruct (_ || _); [done|]. destruct (u_ofile _ _) as [g|] eqn:Eg; [|done].
  by injection E as <- <- <-.
Qed.
Lemma argfd_None me n (w : world T K) w' : argfd me n w = Ok (None, w') -> w' = w.
Proof.
  unfold argfd, arg_int. intros E. apply bind_Ok_inv in E as (x & w1 & E1 & E). apply with_args_same in E1 as ->.
  by apply bind_Ok_inv in E as (u & w1 & [= <- <-] & [= _ <-]).
Qed.

Lemma fail_moved (w : world T K) a w' h : fail w = Ok (a, w') -> moved w h w' h.
Proof. intros E. by apply (quiet_moves fail ltac:(quiets) _ _ _ _ E). Qed.

Lemma moves_dup me : (me < NPROC)%nat -> moves (sys_dup me).
Proof.
  intros Hm w a w' h E. unfold sys_dup in E. apply bind_Ok_inv in E as ([[fd f]|] & w1 & E1 & E);
    [|apply argfd_None in E1 as ->; by eapply fail_moved].
  apply argfd_Some in E1 as [-> Hd]. apply bind_Ok_inv in E as (o & w1 & E1 & E). apply fdalloc_spec in E1.
  destruct o as [fd'|]; [|rewrite E1 in E; by eapply fail_moved]. destruct E1 as (Hfd & Hn & E1).
  apply bind_Ok_inv in E as (g & w2 & E2 & [= _ <-]). unfold filedup, the_file in E2.
  apply bind_Ok_inv in E2 as (x & w3 & [= <- <-] & E2). destruct (_ <? 1); [done|].
  apply bind_Ok_inv in E2 as (u & w3 & E2 & [= _ <-]). apply moved_once.
  rewrite (upd_file_abs _ _ _ _ _ E2). pose proof (set_fd_abs _ _ _ _ _ _ E1 h ∅) as Ea.
  unfold abs in Ea at 1. injection Ea as -> -> -> ->. by eapply fs_dup.
Qed.

Lemma unhold_hold f h : unhold f (hold f h) = h.
Proof.
  unfold unhold, hold. rewrite fn_lookup_insert, fn_insert_insert. extensionality g. by fn_case.
Qed.

Lemma hold_pos f h : (0 < hold f h f)%nat.
Proof. rewrite hold_eq. lia. Qed.

Lemma moves_close me : moves (sys_close me).
Proof.
  intros w a w' h E. unfold sys_close in E. apply bind_Ok_inv in E as ([[fd f]|] & w1 & E1 & E);
    [|apply argfd_None in E1 as ->; by eapply fail_moved].
  apply argfd_Some in E1 as [-> Hd]. apply bind_Ok_inv in E as ([] & w1 & E1 & E).
  apply bind_Ok_inv in E as (u & w2 & E2 & [= _ <-]).
  eapply moved_trans; [by eapply take_moved|]. rewrite <-(unhold_hold f h) at 2.
  eapply fileclose_moved; [apply hold_pos|exact E2].
Qed.

(** A file that was just allocated has no type. *)
Lemma fresh_none (w : world T K) h f : ft_inv (abs w h ∅) -> f_ref (w_file w f) = 0 -> f_type (w_file w f) = FD_NONE.
Proof.
  intros I Hr. destruct (f_type (w_file w f)) eqn:Et; [done|..];
    destruct (fi_none _ I f) as [_ Hn]; simpl; rewrite ?Et; done.
Qed.

Lemma same_file w w' : same w w' -> w_file w' = w_file w /\ (forall p, u_ofile (w_proc w' p) = u_ofile (w_proc w p)).
Proof.
  intros S. specialize (S (fun _ => O) ∅). unfold abs in S. injection S as E1 E2 _ _. split; [done|].
  intros p. exact (f_equal (fun g => g p) E2).
Qed.

Lemma set_fd_file me fd v (w : world T K) u w' :
  set_fd me fd v w = Ok (u, w') -> w_file w' = w_file w /\ u_ofile (w_proc w' me) fd = v.
Proof. unfold set_fd, upd_uproc, modify. intros [= <- <-]. simpl. by rewrite !fn_lookup_insert; simpl; rewrite fn_lookup_insert. Qed.

Lemma quiet_then {A B} (c : M (world T K) A) (k : A -> M (world T K) B) w b w' :
  quiet c -> bind c k w = Ok (b, w') -> exists a w1, same w w1 /\ k a w1 = Ok (b, w').
Proof. intros Q E. apply bind_Ok_inv in E as (a & w1 & E1 & E). exists a, w1. split; [by eapply Q|done]. Qed.

Lemma quiet_rest {A} (c : M (world T K) A) w a w' h : quiet c -> c w = Ok (a, w') -> moved w h w' h.
Proof. intros Q E. by eapply quiet_moves. Qed.

(** [sys_open] from the new file on. *)
Lemma open_fd_moved me f ip omode (w : world T K) a w' h :
  (me < NPROC)%nat -> f_type (w_file w f) = FD_NONE ->
  (let! fd := fdalloc me f in
   match fd with
   | None => do! fileclose f in do! iun_lockput ip in do! end_op in fail
   | Some fd =>
       do! on_fs (iunlock ip) in
       do! end_op in
       do! upd_file f (mk_inode_file ip omode) in
       ret (FRet (Z.of_nat fd))
   end) w = Ok (a, w') -> moved w (hold f h) w' h.
Proof.
  intros Hm Ht E. apply bind_Ok_inv in E as (o & w1 & E1 & E). apply fdalloc_spec in E1.
  destruct o as [fd|].
  - destruct E1 as (Hfd & Hn & E1). pose proof (set_fd_file _ _ _ _ _ _ E1) as [F1 D1].
    eapply moved_trans; [eapply give_moved; [done|done|apply hold_pos|done|exact E1]|]. rewrite unhold_hold.
    apply quiet_then in E as (u1 & w2 & S1 & E); [|quiets]. apply quiet_then in E as (u2 & w3 & S2 & E); [|quiets].
    destruct (same_file _ _ S1) as [F2 D2]. destruct (same_file _ _ S2) as [F3 D3].
    apply bind_Ok_inv in E as (u & w4 & E4 & [= _ <-]).
    eapply same_moved; [exact S1|]. eapply same_moved; [exact S2|]. apply moved_once.
    rewrite (upd_file_abs _ _ _ _ _ E4). apply (fs_open _ _ _ _ _ _ me fd); [by rewrite D3, D2|by rewrite F3, F2, F1].
  - subst w1. apply bind_Ok_inv in E as (u & w2 & E2 & E).
    eapply moved_trans; [eapply fileclose_moved; [apply hold_pos|exact E2]|]. rewrite unhold_hold.
    eapply quiet_rest; [|exact E]. quiets.
Qed.

Lemma open_moved me (w : world T K) a w' h :
  (me < NPROC)%nat -> ft_inv (abs w h ∅) -> sys_open devsw me w = Ok (a, w') -> moved w h w' h.
Proof.
  intros Hm I E. unfold sys_open in E. apply quiet_then in E as (path & w1 & S1 & E); [|quiets].
  eapply same_moved; [exact S1|]. rewrite <-(S1 h ∅) in I. clear w S1.
  destruct path as [path|]; [|by eapply fail_moved].
  apply quiet_then in E as (om & w2 & S2 & E); [|quiets]. apply quiet_then in E as (u & w3 & S3 & E); [|quiets].
  apply quiet_then in E as (r & w4 & S4 & E); [|apply quiet_open_inode].
  eapply same_moved; [exact S2|]. eapply same_moved; [exact S3|]. eapply same_moved; [exact S4|].
  rewrite <-(S2 h ∅), <-(S3 h ∅), <-(S4 h ∅) in I. clear w1 w2 w3 S2 S3 S4.
  destruct r as [ip|]; [|eapply quiet_rest; [|exact E]; quiets].
  apply bind_Ok_inv in E as (o & w5 & E5 & E). apply filealloc_moved with (h := h) in E5. destruct o as [f|].
  - destruct E5 as (M5 & Hr & F5 & _). eapply moved_trans; [exact M5|]. eapply open_fd_moved; [done| |exact E].
    rewrite F5, fn_lookup_insert. by apply (fresh_none w4 h).
  - subst w5. eapply quiet_rest; [|exact E]. quiets.
Qed.

Lemma hold_hold_pos f g h : (0 < hold f (hold g h) g)%nat.
Proof. unfold hold. fn_case; [lia|]. rewrite fn_lookup_insert. lia. Qed.

Lemma hold_comm f g h : hold f (hold g h) = hold g (hold f h).
Proof. unfold hold. extensionality x. fn_cases. Qed.

Lemma unhold_hold_hold f g h : unhold f (hold g (hold f h)) = hold g h.
Proof.
  unfold unhold, hold. extensionality x. fn_cases.
Qed.

(** [pipealloc] without and with a page. *)
Lemma close_both_moved r w (s : world T K) a s' h :
  (do! close_if (Some r) in do! close_if (Some w) in ret (A := option (nat * nat)) None) s = Ok (a, s') ->
  moved s (hold w (hold r h)) s' h /\ a = None.
Proof.
  intros E. cbn [close_if] in E. apply bind_Ok_inv in E as (u1 & s1 & E1 & E).
  apply bind_Ok_inv in E as (u2 & s2 & E2 & [= <- <-]). split; [|done].
  eapply moved_trans; [eapply fileclose_moved; [apply hold_hold_pos|exact E1]|]. rewrite unhold_hold_hold.
  rewrite <-(unhold_hold w h) at 2. eapply fileclose_moved; [apply hold_pos|exact E2].
Qed.

Lemma newpipe_moved r w p (s s1 : world T K) a s' h :
  r <> w -> f_type (w_file s r) = FD_NONE -> f_type (w_file s w) = FD_NONE ->
  (0 < h r)%nat -> (0 < h w)%nat -> p ∉ pages (w_host s) -> pages (w_host s1) = {[p]} ∪ pages (w_host s) ->
  s1 = World (w_fs s) (w_host s1) (w_file s) (w_pipe s) (w_proc s) ->
  (let! x := get in
   do! put_pipe p (pipe_init (p_data (w_pipe x p))) in
   do! upd_file r (mk_pipe_end false p) in
   do! upd_file w (mk_pipe_end true p) in
   ret (Some (r, w))) s1 = Ok (a, s') -> moved s h s' h /\ a = Some (r, w).
Proof.
  intros Hne Tr Tw Hr Hw Hp Hg Es E. unfold put_pipe, upd_file, bind, get, modify, ret in E. injection E as <- <-.
  split; [|done]. apply moved_once. unfold abs. cbn [w_fs w_host w_file w_pipe w_proc]. rewrite Hg.
  rewrite Es. cbn [w_fs w_host w_file w_pipe w_proc]. rewrite fn_lookup_insert_ne by done.
  by apply fs_newpipe.
Qed.

Lemma pipealloc_moved (s : world T K) o s' h :
  ft_inv (abs s h ∅) -> pipealloc s = Ok (o, s') ->
  moved s h s' (match o with Some (r, w) => hold w (hold r h) | None => h end).
Proof.
  intros I E. unfold pipealloc in E. apply bind_Ok_inv in E as (o0 & s1 & E1 & E).
  apply filealloc_moved with (h := h) in E1. destruct o0 as [r|].
  2: { subst s1. apply bind_Ok_inv in E as (o1 & s2 & [= <- <-] & E). cbn [close_if] in E.
       apply bind_Ok_inv in E as (u & s2 & [= _ <-] & E). apply bind_Ok_inv in E as (u2 & s2 & [= _ <-] & [= <- <-]).
       by apply moved_same. }
  destruct E1 as (M1 & Hr & F1 & _). pose proof (moved_inv _ _ _ _ I M1) as I1.
  eapply moved_trans; [exact M1|]. pose proof (fresh_none _ _ _ I Hr) as Tr.
  apply bind_Ok_inv in E as (o1 & s2 & E2 & E). apply filealloc_moved with (h := hold r h) in E2.
  destruct o1 as [w|].
  2: { subst s2. cbn [close_if] in E. apply bind_Ok_inv in E as (u & s2 & E2 & E).
       apply bind_Ok_inv in E as (u2 & s3 & [= _ <-] & [= <- <-]).
       eapply fileclose_moved in E2; [|apply hold_pos]. by rewrite unhold_hold in E2. }
  destruct E2 as (M2 & Hw & F2 & _). eapply moved_trans; [exact M2|]. pose proof (fresh_none _ _ _ I1 Hw) as Tw.
  assert (Hne : r <> w) by (intros ->; rewrite F1, fn_lookup_insert in Hw; done).
  apply bind_Ok_inv in E as (p & s3 & E3 & E). apply on_host_pages in E3 as [E3 Es3].
  apply kalloc_law in E3. destruct (Z.eqb_spec p 0) as [->|Hp].
  - apply close_both_moved with (h := h) in E as [E ->]. eapply same_moved; [|exact E].
    destruct E3 as [[_ E3]|[? _]]; [|done]. intros h0 c0. unfold abs. rewrite Es3. simpl. by rewrite E3.
  - destruct E3 as [[? _]|(_ & E3 & E4)]; [done|].
    assert (Ts : f_type (w_file s2 r) = FD_NONE /\ f_type (w_file s2 w) = FD_NONE).
    { rewrite F2. split; [rewrite fn_lookup_insert_ne, F1 by done|]; by rewrite fn_lookup_insert. }
    eapply newpipe_moved in E as [E ->]; [exact E|done|apply Ts|apply Ts|apply hold_hold_pos|apply hold_pos|done..].
Qed.

Lemma close_ends_moved me fd0 r w (s : world T K) a s' h :
  match fd0 with Some fd => u_ofile (w_proc s me) fd = Some r | None => True end ->
  (do! match fd0 with Some fd => set_fd me fd None | None => ret tt end in
   do! fileclose r in
   do! fileclose w in
   fail) s = Ok (a, s') ->
  moved s (match fd0 with Some _ => hold w h | None => hold w (hold r h) end) s' h.
Proof.
  intros Hd E. apply bind_Ok_inv in E as (u0 & s1 & E1 & E). apply bind_Ok_inv in E as (u1 & s2 & E2 & E).
  apply bind_Ok_inv in E as (u2 & s3 & E3 & [= _ <-]).
  assert (M1 : moved s (match fd0 with Some _ => hold w h | None => hold w (hold r h) end) s1 (hold w (hold r h))).
  { destruct fd0 as [fd|]; [|injection E1 as _ <-; by apply moved_same]. destruct u0.
    rewrite hold_comm. by eapply take_moved. }
  eapply moved_trans; [exact M1|].
  eapply moved_trans; [eapply fileclose_moved; [apply hold_hold_pos|exact E2]|]. rewrite unhold_hold_hold.
  rewrite <-(unhold_hold w h) at 2. eapply fileclose_moved; [apply hold_pos|exact E3].
Qed.

Lemma pipe_moved me (s : world T K) a s' h :
  (me < NPROC)%nat -> ft_inv (abs s h ∅) -> sys_pipe me s = Ok (a, s') -> moved s h s' h.
Proof.
  intros Hm I E. unfold sys_pipe in E. apply quiet_then in E as (p & s1 & S1 & E); [|quiets].
  eapply same_moved; [exact S1|]. rewrite <-(S1 h ∅) in I. clear s S1.
  destruct p as [p|]; [|by eapply fail_moved]. apply bind_Ok_inv in E as (o & s2 & E2 & E).
  apply pipealloc_moved with (h := h) in E2; [|done]. destruct o as [[r w]|];
    [|eapply moved_trans; [exact E2|by eapply fail_moved]].
  eapply moved_trans; [exact E2|]. clear E2 I s1.
  apply bind_Ok_inv in E as (o0 & s3 & E3 & E). apply fdalloc_spec in E3. destruct o0 as [fd0|].
  2: { subst s3. apply bind_Ok_inv in E as (o1 & s4 & [= <- <-] & E).
       by apply (close_ends_moved me None r w _ _ _ h) in E. }
  destruct E3 as (Hf0 & Hn0 & E3). apply set_fd_file in E3 as X3. destruct X3 as [_ D3].
  eapply moved_trans; [eapply give_moved; [done|done|apply hold_hold_pos|done|exact E3]|]. rewrite unhold_hold_hold.
  apply bind_Ok_inv in E as (o1 & s4 & E4 & E). apply fdalloc_spec in E4. destruct o1 as [fd1|].
  - destruct E4 as (Hf1 & Hn1 & E4).
    eapply moved_trans; [eapply give_moved; [done|done|apply hold_pos|done|exact E4]|]. rewrite unhold_hold.
    eapply quiet_rest; [|exact E]. quiets.
  - subst s4. by apply (close_ends_moved me (Some fd0) r w _ _ _ h) in E.
Qed.

Lemma sysfile_moved num me call (w : world T K) a w' h :
  (forall path argv (w : world T K) a w', exec me path argv w = Ok (a, w') -> same w w') ->
  (me < NPROC)%nat -> ft_inv (abs w h ∅) -> sysfile_calls devsw exec num me = Some call -> call w = Ok (a, w') ->
  moved w h w' h.
Proof.
  intros Hx Hm I Ec E. unfold sysfile_calls in Ec.
  repeat match type of Ec with (if ?b then _ else _) = _ => destruct b; [injection Ec as <-|] end; [..|done];
    try (eapply quiet_rest; [|exact E];
         first [apply quiet_stat|apply quiet_chdir|apply quiet_mknod|apply quiet_unlink|apply quiet_link|apply quiet_mkdir]).
  - by eapply pipe_moved.
  - by eapply (proj1 (moves_rw me)).
  - eapply quiet_rest; [|exact E]. unfold sys_exec. quiets. intros x y z D. by eapply Hx.
  - by eapply moves_dup.
  - by eapply open_moved.
  - by eapply (proj2 (moves_rw me)).
  - by eapply moves_close.
Qed.

(** [fileclose] does not look at the descriptors. *)
Definition with_proc (P : nat -> uproc) (w : world T K) : world T K :=
  World (w_fs w) (w_host w) (w_file w) (w_pipe w) P.

Definition procless {A} (c : M (world T K) A) : Prop := forall P w a w',
  c w = Ok (a, w') -> c (with_proc P w) = Ok (a, with_proc P w') /\ w_proc w' = w_proc w.

Lemma procless_bind {A B} (c : M (world T K) A) (k : A -> M (world T K) B) :
  procless c -> (forall a, procless (k a)) -> procless (bind c k).
Proof.
  intros Q1 Q2 P w b w' E. apply bind_Ok_inv in E as (a & w1 & E1 & E2).
  destruct (Q1 P _ _ _ E1) as [E3 E4]. destruct (Q2 a P _ _ _ E2) as [E5 E6].
  split; [by rewrite (bind_Ok _ _ _ _ _ E3)|congruence].
Qed.
Lemma procless_fs {A} (c : M (fs T) A) : procless (on_fs c).
Proof. intros P w a w'. unfold on_fs, with_proc; simpl. by destruct (c (w_fs w)) as [[b s]|?| |]; intros [= <- <-]. Qed.
Lemma procless_host {A} (c : M K A) : procless (on_host c).
Proof. intros P w a w'. unfold on_host, with_proc; simpl. by destruct (c (w_host w)) as [[b s]|?| |]; intros [= <- <-]. Qed.

Lemma procless_fileclose f : procless (fileclose f).
Proof.
  unfold fileclose. apply procless_bind.
  - unfold drop_ref. apply procless_bind; [by intros P w a w' [= <- <-]|]. intros x.
    destruct (_ <? 1); [done|]. apply procless_bind; [by intros P w a w' [= <- <-]|]. intros _.
    destruct (0 <? _); [by intros P w a w' [= <- <-]|].
    apply procless_bind; [by intros P w a w' [= <- <-]|]. intros y.
    apply procless_bind; [by intros P w a w' [= <- <-]|]. intros _. by intros P w a w' [= <- <-].
  - intros [ff|]; [|by intros P w a w' [= <- <-]]. destruct (f_type ff); [by intros P w a w' [= <- <-]| |].
    + intros P w a w' E. unfold close_pipe in E |- *. apply get_Ok in E. unfold bind at 1, get.
      change (w_pipe (with_proc P w)) with (w_pipe w). destruct (pipeclose _ _) as [v freed].
      revert P w a w' E. apply procless_bind; [by intros P w a w' [= <- <-]|]. intros _.
      apply procless_bind; [apply procless_host|]. intros _.
      destruct freed; [apply procless_host|by intros P w a w' [= <- <-]].
    + repeat (apply procless_bind; [apply procless_fs|intros _]). apply procless_fs.
Qed.

Lemma exit_fd_moved me fd (w : world T K) a w' h : exit_fd me fd w = Ok (a, w') -> moved w h w' h.
Proof.
  intros E. unfold exit_fd, the_uproc in E. apply bind_Ok_inv in E as (u & w1 & [= <- <-] & E).
  destruct (u_ofile (w_proc w me) fd) as [f|] eqn:Hd; [|injection E as _ <-; by apply moved_same].
  apply bind_Ok_inv in E as (u & w1 & E1 & E2).
  destruct (set_fd me fd None w) as [[[] w2]|?| |] eqn:E3; [|done..].
  assert (Ew : w2 = with_proc (w_proc w2) w) by (unfold set_fd, upd_uproc, modify in E3; by injection E3 as <-).
  destruct (procless_fileclose f (w_proc w2) _ _ _ E1) as [E4 E5]. rewrite <-Ew in E4.
  assert (Ew' : w' = with_proc (w_proc w2) w1).
  { unfold set_fd, upd_uproc, modify in E2, E3. injection E2 as _ <-. injection E3 as <-. by rewrite E5. }
  rewrite Ew'. eapply moved_trans; [by eapply take_moved|]. rewrite <-(unhold_hold f h) at 2.
  eapply fileclose_moved; [apply hold_pos|exact E4].
Qed.

Lemma fork_fd_moved me child fd (w : world T K) a w' h :
  (child < NPROC)%nat -> (fd < NOFILE)%nat -> u_ofile (w_proc w child) fd = None ->
  fork_fd me child fd w = Ok (a, w') -> moved w h w' h.
Proof.
  intros Hc Hfd Hn E. unfold fork_fd, the_uproc in E. apply bind_Ok_inv in E as (u & w1 & [= <- <-] & E).
  destruct (u_ofile (w_proc w me) fd) as [f|] eqn:Hd; [|injection E as _ <-; by apply moved_same].
  apply bind_Ok_inv in E as (g & w1 & E1 & E2). unfold filedup, the_file in E1.
  apply bind_Ok_inv in E1 as (x & w3 & [= <- <-] & E1). destruct (_ <? 1); [done|].
  apply bind_Ok_inv in E1 as (u & w3 & E1 & [= <- <-]). apply moved_once.
  rewrite (set_fd_abs _ _ _ _ _ _ E2). pose proof (upd_file_abs _ _ _ _ _ E1 h ∅) as Ea.
  unfold abs in Ea at 1. injection Ea as -> -> -> ->. by eapply fs_dup.
Qed.

Lemma file_step_moved (w w' : world T K) h :
  (forall me path argv (w : world T K) a w', exec me path argv w = Ok (a, w') -> same w w') ->
  ft_inv (abs w h ∅) -> file_step devsw exec w w' -> moved w h w' h.
Proof.
  intros Hx I [num me call a w1 Hm Ec E|me child fd a w1 Hc Hfd Hn E|me fd a w1 E].
  - by eapply sysfile_moved; [apply Hx|..].
  - by eapply fork_fd_moved.
  - by eapply exit_fd_moved.
Qed.
End CallSteps.

(** The table at boot. *)
Definition boot_ftab (P : Z -> pipe) (G : gset Z) : ftab :=
  FTab (fun _ => MkFile FD_NONE 0 false false 0 0 0) (fun _ _ => None) P G (fun _ => O) ∅.

Lemma boot_ftab_inv P G : ft_inv (boot_ftab P G).
Proof. split; simpl; try done. lia. Qed.

(** C14: open files are counted right in every history of the calls, forks and
    exits of all processes.  The count of a file that a descriptor refers to is
    the number of the descriptors, at least 1, so that [filedup] and
    [fileclose] do not panic on it; if it is an end of a pipe, this end is open
    and the pipe's page is in use, and no other file is the same end. *)
Theorem file_table_safe {T K} {ops : TxOps T} {txn : OpOps T} {host : HostOps K}
    {pages : K -> gset Z} {laws : HostLaws K pages} devsw exec (w0 w : world T K) :
  (forall me path argv (w : world T K) a w', exec me path argv w = Ok (a, w') -> same (pages := pages) w w') ->
  (forall f, w_file w0 f = MkFile FD_NONE 0 false false 0 0 0) -> (forall p fd, u_ofile (w_proc w0 p) fd = None) ->
  rtc (file_step devsw exec) w0 w ->
  let D := fun p fd => u_ofile (w_proc w p) fd in
  forall me fd f, D me fd = Some f ->
    let x := w_file w f in
    f_ref x = Z.of_nat (fds D f) /\ 1 <= f_ref x /\
    (f_type x = FD_PIPE ->
       f_pipe x ∈ pages (w_host w) /\ open_end (w_pipe w (f_pipe x)) (f_writable x) = true /\
       forall g, f_type (w_file w g) = FD_PIPE -> f_pipe (w_file w g) = f_pipe x ->
         f_writable (w_file w g) = f_writable x -> g = f).
Proof.
  intros Hx H1 H2 R D me fd f Hd.
  assert (I : ft_inv (abs (pages := pages) w (fun _ => O) ∅)).
  { refine (rtc_invariant _ (fun w => ft_inv (abs (pages := pages) w (fun _ => O) ∅)) _ _ _ _ R).
    - pose proof (boot_ftab_inv (w_pipe w0) (pages (w_host w0))) as I0. unfold boot_ftab in I0. unfold abs.
      replace (w_file w0) with (fun _ : nat => MkFile FD_NONE 0 false false 0 0 0) by (by extensionality y).
      replace (fun p fd : nat => u_ofile (w_proc w0 p) fd) with (fun _ _ : nat => @None nat); [done|].
      extensionality p. extensionality y. done.
    - intros a b Ia St. eapply moved_inv; [exact Ia|]. by eapply file_step_moved. }
  destruct (fi_fd _ I me fd f Hd) as (Hm & Hfd & Hf). pose proof (fds_pos _ _ _ _ Hm Hfd Hd).
  pose proof (fi_ref _ I f Hf) as Hr. simpl in Hr. rewrite Nat.add_0_r in Hr. fold D in Hr. cbv zeta.
  split; [done|]. split; [lia|]. intros Ht. destruct (fi_pipe _ I f Ht) as (? & ? & _). split; [done|]. split; [done|].
  intros g Hg E1 E2. by apply (fi_ends _ I g f).
Qed.

(** C22: the system calls of sysfile.c, [pipealloc] and file.c change the tables
    by the steps of this transition system and keep its invariant: a call ends
    with as many references in its hands as it began with. *)
Theorem file_calls_refine {T K} {ops : TxOps T} {txn : OpOps T} {host : HostOps K}
    {pages : K -> gset Z} {laws : HostLaws K pages} devsw exec num me call (w w' : world T K) a h :
  (forall path argv (w : world T K) a w', exec me path argv w = Ok (a, w') -> same (pages := pages) w w') ->
  (me < NPROC)%nat -> ft_inv (abs (pages := pages) w h ∅) ->
  sysfile_calls devsw exec num me = Some call -> call w = Ok (a, w') ->
  rtc fstep (abs (pages := pages) w h ∅) (abs (pages := pages) w' h ∅) /\ ft_inv (abs (pages := pages) w' h ∅).
Proof.
  intros Hx Hm I Ec E. pose proof (sysfile_moved devsw exec num me call w a w' h Hx Hm I Ec E) as R.
  split; [exact R|]. by eapply moved_inv.
Qed.

(** A kernel with two pages, where [4096] is in use, and no file system. *)
Module FDemo.
#[local] Instance no_tx : TxOps unit := { tx_read b := block; tx_update b f := block }.
#[local] Instance no_op : OpOps unit := { op_begin := ret tt; op_end := ret tt }.
#[local] Instance page_host : HostOps (gset Z) := {
  h_kalloc := fun k => if decide (8192 ∈ k) then Ok (0, k) else Ok (8192, {[8192]} ∪ k);
  h_kfree := fun p => modify (fun k => k ∖ {[p]});
  h_wakeup := fun _ => ret tt;
}.
#[local] Instance page_laws : HostLaws (gset Z) (fun k => k).
Proof.
  split.
  - intros k p k'. cbn. destruct (decide (8192 ∈ k)); intros [= <- <-]; [by left|]. right. done.
  - by intros k p u k' [= _ <-].
  - by intros k c u k' [= _ <-].
Qed.

Definition u0 : uproc := UProc 1 8192 ∅ (fun _ => 64) false 0 (fun _ => None).
Definition w0 : world unit (gset Z) :=
  World (FS tt (Superblock 0 0 0 0 0 0 0) (fun _ => inode0)) {[4096]}
    (fun _ => MkFile FD_NONE 0 false false 0 0 0) (fun _ => pipe_init (fun _ => 0)) (fun _ => u0).
Definition no_exec (me : nat) (path argv : list Z) : M (world unit (gset Z)) Z := ret (-1).
Definition w1 : world unit (gset Z) := match sys_pipe 3 w0 with Ok (_, w) => w | _ => w0 end.
Lemma pipe_runs : sys_pipe 3 w0 = Ok (FRet 0, w1).
Proof. vm_compute. reflexivity. Qed.
End FDemo.
#[local] Existing Instances FDemo.no_tx FDemo.no_op FDemo.page_host FDemo.page_laws.

Lemma file_calls_refine_witness :
  ft_inv (abs (pages := fun k => k) FDemo.w1 (fun _ => O) ∅) /\
  u_ofile (w_proc FDemo.w1 3) 0 = Some 0%nat /\ u_ofile (w_proc FDemo.w1 3) 1 = Some 1%nat.
Proof.
  split; [|split; reflexivity].
  refine (proj2 (file_calls_refine (fun _ => None) FDemo.no_exec 4 3 _ FDemo.w0 FDemo.w1 (FRet 0) (fun _ => O) _ _ _ eq_refl FDemo.pipe_runs)).
  - intros path argv w a w' [= _ <-] h c. reflexivity.
  - apply Nat.ltb_lt. reflexivity.
  - exact (boot_ftab_inv (fun _ => pipe_init (fun _ => 0)) {[4096]}).
Defined.

Lemma file_table_safe_witness : 1 <= f_ref (w_file FDemo.w1 0).
Proof.
  refine (proj1 (proj2 (file_table_safe (fun _ => None) FDemo.no_exec FDemo.w0 FDemo.w1 _ _ _ _ 3%nat 0%nat 0%nat eq_refl))).
  - intros me path argv w a w' [= _ <-] h c. reflexivity.
  - intros f. reflexivity.
  - intros p fd. reflexivity.
  - apply rtc_once. apply (step_call _ _ _ 4 3 (sys_pipe 3) (FRet 0)).
    + apply Nat.ltb_lt. reflexivity.
    + reflexivity.
    + exact FDemo.pipe_runs.
Defined.

Lemma fresh_write p killed l :
  pipe_ok p -> Pipe.contents p = [] -> Z.of_nat (length l) <= PIPESIZE ->
  exists p', pipewrite p killed l = (p', WDone) /\ pipe_ok p' /\ Pipe.contents p' = l.
Proof.
  intros I Hc Hl. destruct (pipewrite p killed l) as [p' r] eqn:E.
  destruct (pipewrite_spec _ _ _ _ _ I E) as (a & rest & -> & I' & Ec & _ & _ & _ & Hr). rewrite Hc in Ec. simpl in Ec.
  assert (Hfull : rest <> [] -> pipe_full p' <> true).
  { intros Hne Hf. apply full_count in Hf; [|done]. rewrite <-Pipe.length_contents, Ec in Hf.
    rewrite length_app in Hl. destruct rest; [done|]. simpl in Hl. lia. }
  exists p'. destruct r; [subst rest; rewrite app_nil_r; done|exfalso; apply Hfull; tauto..].
Qed.

Lemma full_read p killed n l :
  pipe_ok p -> Pipe.contents p = l -> Z.of_nat (length l) = n -> 0 < n ->
  exists p', piperead p killed n = (p', RDone l).
Proof.
  intros I Hc Hl Hn. unfold piperead.
  assert (He : pipe_empty p = false).
  { apply not_true_iff_false. rewrite empty_count, <-Pipe.length_contents, Hc by done. lia. }
  rewrite He. cbn [andb]. destruct (piperead_copy (Z.to_nat n) p) as [p' l'] eqn:E.
  destruct (piperead_copy_spec _ _ _ _ I E) as (_ & Ec & Hl' & _). exists p'. rewrite Hc in Ec, Hl'.
  assert (length l' = length l) by lia. rewrite Ec, length_app in *.
  destruct (Pipe.contents p'); [by rewrite app_nil_r|simpl in *; lia].
Qed.

Lemma rd_bytes_rewritten n m a m' a' : rd_bytes n (wr_bytes m' a' (rd_bytes n m a)) a' = rd_bytes n m a.
Proof.
  apply list_eq. intros i. destruct (decide (i < n)%nat) as [Hi|Hi].
  - rewrite !rd_bytes_lookup by done. f_equal. rewrite rd_wr_bytes, length_rd_bytes.
    destruct (in_range_spec a' (Z.of_nat n) (a' + Z.of_nat i)); [|lia].
    replace (Z.to_nat (a' + Z.of_nat i - a')) with i by lia. rewrite rd_bytes_lookup by done. simpl.
    unfold rd, u8. apply Z.mod_mod. lia.
  - rewrite !lookup_ge_None_2; [done|rewrite length_rd_bytes; lia..].
Qed.

(** What one process writes to a pipe, another one reads from it: for an
    empty pipe, open for writing, a write of [n] bytes, at most the size of the
    pipe, through a descriptor's file takes them all, and a read of [n] through
    the other end's file then returns them. *)
Theorem pipe_files_roundtrip {T K} {ops : TxOps T} {txn : OpOps T} {host : HostOps K} devsw
    (w : world T K) me me' f g addr addr' n p :
  (forall c k, exists k', h_wakeup c k = Ok (tt, k')) ->
  w_file w f = MkFile FD_PIPE (f_ref (w_file w f)) false true p (f_ip (w_file w f)) (f_off (w_file w f)) ->
  w_file w g = MkFile FD_PIPE (f_ref (w_file w g)) true false p (f_ip (w_file w g)) (f_off (w_file w g)) ->
  pipe_ok (w_pipe w p) -> Pipe.contents (w_pipe w p) = [] -> 0 < n <= PIPESIZE ->
  exists w', (let! a := filewrite devsw me f addr n in let! b := fileread devsw me' g addr' n in ret (a, b)) w =
      Ok ((FRet n, FRet n), w') /\
    rd_bytes (Z.to_nat n) (u_mem (w_proc w' me')) addr' = rd_bytes (Z.to_nat n) (u_mem (w_proc w me)) addr.
Proof.
  intros Hwk Hf Hg I Hc Hn. set (l := rd_bytes (Z.to_nat n) (u_mem (w_proc w me)) addr).
  assert (Hl : length l = Z.to_nat n) by apply length_rd_bytes.
  destruct (fresh_write (w_pipe w p) (u_killed (w_proc w me)) l I Hc) as (v & Ev & Iv & Cv); [lia|].
  destruct (full_read v (u_killed (w_proc w me')) n l Iv Cv) as (v' & Ev'); [lia|lia|].
  destruct (Hwk (ChNread p) (w_host w)) as (k1 & E1). destruct (Hwk (ChNwrite p) k1) as (k2 & E2).
  eexists. split.
  - unfold filewrite, fileread, the_file, the_uproc, write_pipe, read_pipe, put_pipe, upd_uproc, on_host, bind, gets, get, modify, ret.
    rewrite Hf. cbn [f_writable f_type f_pipe negb]. fold l. rewrite Ev. cbn [w_host w_file w_fs w_pipe w_proc]. rewrite E1.
    cbn [w_host w_file w_fs w_pipe w_proc]. rewrite Hg. cbn [f_readable f_type f_pipe negb w_host w_file w_fs w_pipe w_proc].
    rewrite fn_lookup_insert, Ev'. cbn [w_host w_file w_fs w_pipe w_proc]. rewrite E2, Hl, Z2Nat.id by lia. reflexivity.
  - cbn [w_proc]. rewrite fn_lookup_insert. cbn [u_mem set_u_mem]. apply rd_bytes_rewritten.
Qed.

(** Process 3 writes to the pipe it made, and reads from it. *)
Lemma pipe_files_roundtrip_witness :
  exists w', (let! a := filewrite (fun _ => None) 3 1 64 8 in
              let! b := fileread (fun _ => None) 3 0 128 8 in ret (a, b)) FDemo.w1 =
      Ok ((FRet 8, FRet 8), w') /\
    rd_bytes 8 (u_mem (w_proc w' 3)) 128 = [0; 0; 0; 0; 1; 0; 0; 0].
Proof.
  destruct (pipe_files_roundtrip (fun _ => None) FDemo.w1 3 3 1 0 64 128 8 8192) as (w' & E & R).
  - intros c k. exists k. reflexivity.
  - vm_compute. reflexivity.
  - vm_compute. reflexivity.
  - split; vm_compute; intuition congruence.
  - vm_compute. reflexivity.
  - split; vm_compute; congruence.
  - exists w'. split; [exact E|]. refine (eq_trans R _). vm_compute. reflexivity.
Defined.

(** ** The reservation of [filewrite]

    Blocks in memory, with the blocks that each transaction changes. *)
Module Trace.
Record traced : Type := Traced { tr_disk : Z -> blk; tr_now : list Z; tr_done : list (list Z) }.

#[local] Instance traced_tx : TxOps traced := {
  tx_read b := gets (fun t => tr_disk t b);
  tx_update b f := modify (fun t =>
    Traced (<[b := f (tr_disk t b)]> (tr_disk t))
      (if bool_decide (b ∈ tr_now t) then tr_now t else b :: tr_now t) (tr_done t));
}.
#[local] Instance traced_op : OpOps traced := {
  op_begin := modify (fun t => Traced (tr_disk t) [] (tr_done t));
  op_end := modify (fun t => Traced (tr_disk t) [] (tr_now t :: tr_done t));
}.

(** Process 0 has the empty file of [Demo] open. *)
Definition w0 : world traced (gset Z) :=
  World (FS (Traced Demo.disk [] []) Demo.sb Demo.icache) ∅
    (fun _ => MkFile FD_INODE 1 true true 0 0 0) (fun _ => pipe_init (fun _ => 0))
    (fun _ => UProc 1 16384 ∅ (fun _ => 0) false 0 (fun _ => Some 0%nat)).
Definition written_blocks : option (Z * list nat) :=
  match filewrite (fun _ => None) 0 0 0 max_write w0 with
  | Ok (FRet r, w) => Some (r, length <$> tr_done (f_tx (w_fs w)))
  | _ => None
  end.
End Trace.

(** [begin_op] reserves [MAXOPBLOCKS] blocks of the log for an operation,
    but [filewrite] sizes its transactions by [LOGSIZE]: a write of [max] bytes
    to an empty file succeeds as one transaction that changes 16 blocks. *)
Theorem filewrite_exceeds_reservation :
  Trace.written_blocks = Some (max_write, [16%nat]) /\ MAXOPBLOCKS < 16.
Proof. split; [vm_compute|]; reflexivity. Qed.
