(* ===== verification/Aread.v ===== *)
(** * Asynchronous read: proc.c, from [struct aio_task] on

    [sys_aread] puts a request into the array [aio_tasks]; the kernel thread
    [aread_kth] takes the requests out one by one, reads the file into the static
    buffer [tmp] and copies it out through the page table of the process that asked.
    [tmp] is a place in the kernel's memory, so that what [copyout] finds behind
    its 4096 bytes is there. *)
From S2P Require Import Prelude Memory Bytes Strings Sleeplock Kalloc Vm Uvm Pipe Ide Tx Fs FsInv Inodes Files Proc Syscall Sysfile.

Record aio_task : Type := Task {
  t_status : Z;
  t_pgdir : Z;
  t_ip : nat;
  t_buffer : Z;
  t_offset : Z;
  t_nbytes : Z;
}.

Definition NTASK : Z := 64.

(** [aio_tasks] and [num_tasks]. *)
Record aio : Type := Aio { aio_tasks : Z -> aio_task; num_tasks : Z }.

(** The assignments to [aio_tasks[num_tasks]] and the increment. *)
Definition aio_push (t : aio_task) (q : aio) : aio := Aio (<[num_tasks q := t]> (aio_tasks q)) (num_tasks q + 1).

(** The [memmove] over the first task and the decrement. *)
Definition aio_pop (q : aio) : aio :=
  Aio (fun i => if (0 <=? i) && (i <? num_tasks q - 1) then aio_tasks q (i + 1) else aio_tasks q i)
    (num_tasks q - 1).

(** ** The kernel thread *)

Section Consume.
Context {T : Type} {ops : TxOps T}.
Variable devsw : Z -> option (devops T).
Variable tmp : Z.                 (* the address of [tmp] *)

(** The inodes, and the memory with the page tables and the user's pages. *)
Record asys : Type := ASys { a_fs : fs T; a_km : kmem }.

Definition on_inodes {A} (c : M (fs T) A) : M asys A := fun s =>
  match c (a_fs s) with
  | Ok (a, f) => Ok (a, ASys f (a_km s))
  | Panic msg => Panic msg
  | Block => Block
  | Fuel => Fuel
  end.
Definition on_memory {A} (c : M kmem A) : M asys A := fun s =>
  match c (a_km s) with
  | Ok (a, k) => Ok (a, ASys (a_fs s) k)
  | Panic msg => Panic msg
  | Block => Block
  | Fuel => Fuel
  end.

(** [readi(t->ip, tmp, t->offset, n)]; its result is not used. *)
Definition read_tmp (t : aio_task) (n : Z) : M asys unit :=
  let! r := on_inodes (readi devsw (t_ip t) (u32 (t_offset t)) (u32 n)) in
  match r with
  | Some l => on_memory (modify (fun k => set_mem (wr_bytes (km_mem k) tmp l) k))
  | None => ret tt
  end.

(** [copyout(pgdir, va, src, n)] from kernel memory. *)
Definition copyout_from (pgdir va src n : Z) : M asys Z :=
  on_memory (let! k := get in copyout pgdir va (rd_bytes (Z.to_nat n) (km_mem k) src)).

(** The bytes of an [int]. *)
Definition int_bytes (v : Z) : list Z := put32 (replicate 4 0) 0 v.

(** The [while] loop; [rest] is [sizeofinput]. *)
Fixpoint consume_loop (fuel : nat) (t : aio_task) (rest : Z) : M asys unit :=
  if 0 <? rest then
    match fuel with
    | O => out_of_fuel
    | S fuel =>
        let! i := on_inodes (the_inode (t_ip t)) in
        let! rest :=
          (if PGSIZE <? i_size i then do! read_tmp t PGSIZE in ret (rest - PGSIZE)
           else do! read_tmp t rest in ret 0) in
        let! r := copyout_from (t_pgdir t) (t_buffer t) tmp (t_nbytes t) in
        if r =? -1 then ret tt else consume_loop fuel t rest
    end
  else ret tt.

Definition aread_consume_one_task (t : aio_task) : M asys unit :=
  let! i := on_inodes (the_inode (t_ip t)) in
  do! consume_loop (Z.to_nat (i_size i / PGSIZE + 2)) t (s32 (i_size i)) in
  let! _ := on_memory (copyout (t_pgdir t) (t_status t) (int_bytes (t_nbytes t))) in
  on_memory (modify (fun k => set_mem (memset (km_mem k) tmp 0 PGSIZE) k)).

(** The inner loop of [aread_kth], when nobody appends meanwhile; the queue
    that is left. *)
Fixpoint aread_kth (fuel : nat) (q : aio) : M asys aio :=
  if num_tasks q =? 0 then ret q
  else
    match fuel with
    | O => out_of_fuel
    | S fuel =>
        do! aread_consume_one_task (aio_tasks q 0) in
        aread_kth fuel (aio_pop q)
    end.
End Consume.
Arguments asys : clear implicits.
Arguments ASys {T}.
Arguments a_fs {T}.
Arguments a_km {T}.

(** ** The system call *)

Section Call.
Context {T K : Type} {ops : TxOps T} {txn : OpOps T} {host : HostOps K}.
Variable pgdir : nat -> Z.        (* proc->pgdir *)

Record aworld : Type := AWorld { aw_world : world T K; aw_queue : aio }.

Definition on_world {A} (c : M (world T K) A) : M aworld A := fun s =>
  match c (aw_world s) with
  | Ok (a, w) => Ok (a, AWorld w (aw_queue s))
  | Panic msg => Panic msg
  | Block => Block
  | Fuel => Fuel
  end.

(** The append, under [aio_lock]; outside the array of 64 the assignments are
    undefined. *)
Definition aio_append (t : aio_task) : M aworld unit :=
  let! q := gets aw_queue in
  if (num_tasks q <? 0) || (NTASK <=? num_tasks q) then panic "out of bounds"
  else modify (fun s => AWorld (aw_world s) (aio_push t (aw_queue s))).

Definition sys_aread (me : nat) : M aworld Z :=
  let! offset := on_world (arg_int me 2) in
  let! nbytes := on_world (arg_int me 3) in
  if nbytes <=? 0 then ret (-1)
  else
    let! a := on_world (argfd me 0) in
    match a with
    | None => ret (-1)
    | Some (_, f) =>
        let! p := on_world (arg_ptr me 1 nbytes) in
        match p with
        | None => ret (-1)
        | Some buffer =>
            let! p := on_world (arg_ptr me 4 4) in
            match p with
            | None => ret (-1)
            | Some status =>
                do! on_world (upd_uproc me (fun u => set_u_mem (store32 (u_mem u) status 0) u)) in
                let! x := on_world (the_file f) in
                let! i := on_world (on_fs (the_inode (f_ip x))) in
                if i_size i <=? u32 offset then ret 0
                else
                  let nbytes := if i_size i <? u32 (offset + nbytes) then s32 (u32 (i_size i - offset)) else nbytes in
                  do! aio_append (Task status (pgdir me) (f_ip x) buffer offset nbytes) in
                  ret nbytes
            end
        end
    end.
End Call.
Arguments aworld : clear implicits.
Arguments AWorld {T K}.
Arguments aw_world {T K}.
Arguments aw_queue {T K}.

(** ** What a task delivers *)

(** An address space [u] after [n] bytes [src] are put at [a]. *)
Definition put_user (a n : Z) (src : Z -> Z) (u : Z -> option (Z * Z)) : Z -> option (Z * Z) := fun va =>
  if in_range a n va then (fun p => (u8 (src (va - a)), p.2)) <$> u va else u va.

(** The bytes of the file that [readi] puts into [tmp]. *)
Definition tmp_bytes (V : Z -> blk) (i : inode) (off : Z) : list Z :=
  contents V (i_addrs i) off (Z.to_nat (Z.min PGSIZE (i_size i - off))).

(** Byte [k] from [tmp] on while the task is done, in a kernel with memory [m]. *)
Definition tmp_src (tmp : Z) (m : mem) (V : Z -> blk) (i : inode) (off k : Z) : Z :=
  rd (wr_bytes m tmp (tmp_bytes V i off)) (tmp + k).

(** Byte [k] of what a task delivers: the file's up to a page, then whatever
    follows [tmp] in the kernel. *)
Definition aread_byte (tmp : Z) (m : mem) (V : Z -> blk) (i : inode) (off k : Z) : Z :=
  if k <? PGSIZE then fbyte V (i_addrs i) (off + k) else rd m (tmp + k).

(** The address space after the task, from the kernel memory and the file. *)
Definition served (tmp : Z) (m : mem) (V : Z -> blk) (c : nat -> inode) (t : aio_task)
    (u : Z -> option (Z * Z)) : Z -> option (Z * Z) :=
  put_user (t_status t) 4 (fun k => u8 (Z.shiftr (t_nbytes t) (8 * k)))
    (put_user (t_buffer t) (t_nbytes t) (aread_byte tmp m V (c (t_ip t)) (t_offset t)) u).

Lemma put_user_src a n s1 s2 u va :
  (forall k, 0 <= k < n -> u8 (s1 k) = u8 (s2 k)) -> put_user a n s1 u va = put_user a n s2 u va.
Proof.
  intros H. unfold put_user. destruct (in_range_spec a n va); [|done].
  destruct (u va); [|done]. simpl. by rewrite H by lia.
Qed.

Lemma put_user_ext a n s u1 u2 va : u1 va = u2 va -> put_user a n s u1 va = put_user a n s u2 va.
Proof. unfold put_user. by intros ->. Qed.

Lemma put_user_idem a n s u va : put_user a n s (put_user a n s u) va = put_user a n s u va.
Proof. unfold put_user. destruct (in_range a n va); [|done]. by destruct (u va). Qed.

Section Memory.
Context (kend root : Z).

(** Writes below [kend] are not seen by the allocator, the page tables and the user. *)
Lemma low_write k l own m' :
  pt_inv kend root k l own -> (forall x, kend <= x -> rd m' x = rd (km_mem k) x) ->
  pt_inv kend root (set_mem m' k) l own /\
  forall va, user_va va -> pteval root m' va = pteval root (km_mem k) va /\ uspace root m' va = uspace root (km_mem k) va.
Proof.
  intros I Hm.
  assert (Hs : same_tables own (km_mem k) m').
  { intros t lv p x Ht Hx. destruct (pi_page _ _ _ _ _ I _ _ _ Ht) as ((_ & ? & _) & _). apply Hm. lia. }
  assert (Hp : forall va, user_va va -> pteval root m' va = pteval root (km_mem k) va)
    by (intros va Hv; by eapply pteval_frame).
  split.
  - eapply pt_inv_frame; [done| |done]. destruct (pi_kalloc _ _ _ _ _ I) as [K1 K2 K3]. split; [|done..].
    eapply is_list_ext; [|exact K1]. intros p x Hin Hx. rewrite Forall_forall in K3.
    destruct (K3 p Hin) as (_ & ? & _). simpl. rewrite Hm; [done|lia].
  - intros va Hv. split; [by apply Hp|]. eapply uspace_keep; [done|done|by apply Hp|].
    intros d x Hd Hx. destruct (pi_page _ _ _ _ _ I _ _ _ Hd) as ((_ & ? & _) & _). apply Hm. lia.
Qed.

Lemma user_range_same m m' va n :
  (forall x, user_va x -> pteval root m' x = pteval root m x) ->
  user_range root m va n -> user_range root m' va n.
Proof.
  intros Hp (H1 & H2 & H3). split; [done|]. split; [done|]. intros x Hx. unfold user_page.
  rewrite Hp by (unfold user_va; lia). by apply H3.
Qed.

(** [copyout], with the result in terms of [put_user]. *)
Lemma copyout_put k l own va buf src :
  pt_inv kend root k l own -> user_range root (km_mem k) va (Z.of_nat (length buf)) ->
  (forall j, 0 <= j < Z.of_nat (length buf) -> default 0 (buf !! Z.to_nat j) = src j) ->
  exists k', copyout root va buf k = Ok (0, k') /\ pt_inv kend root k' l own /\
    (forall va', user_va va' -> pteval root (km_mem k') va' = pteval root (km_mem k) va' /\
      uspace root (km_mem k') va' = put_user va (Z.of_nat (length buf)) src (uspace root (km_mem k)) va') /\
    forall x, x < kend -> rd (km_mem k') x = rd (km_mem k) x.
Proof.
  intros I Hr Hs.
  destruct (copyout_loop_spec kend root (S (length buf)) k l own va buf I Hr) as (k' & E & I' & U & P & L); [lia|].
  exists k'. split; [done|]. split; [done|]. split.
  2:{ intros x Hx. apply L. intros t [y Hy]%elem_of_dom. destruct y as [lv p].
      destruct (pi_page _ _ _ _ _ I _ _ _ Hy) as ((_ & ? & _) & _). lia. }
  intros va' Hv. split; [by apply P|].
  rewrite U by done. unfold put_user. destruct (in_range_spec va (Z.of_nat (length buf)) va') as [R|R]; [|done].
  destruct Hr as (_ & _ & Hu). specialize (Hu va' R). apply andb_true_iff in Hu as [Hp _].
  unfold uspace. rewrite Hp. simpl. by rewrite Hs by lia.
Qed.
End Memory.

(** ** One task *)

Section OneTask.
Context {T : Type} {ops : TxOps T} {ok : T -> nat -> (Z -> blk) -> Prop} {data : Z -> Prop}
  {laws : TxLaws T ok data}.
Context (sb : superblock).
Hypothesis L : layout sb data.
Variable devsw : Z -> option (devops T).
Context (kend root tmp : Z).

(** What [sys_aread] checked before it queued the task, for a file [i]: the range is
    in the file, and the addresses are the user's. *)
Record task_ok (m : mem) (i : inode) (t : aio_task) : Prop := {
  tk_pgdir : t_pgdir t = root;
  tk_type : i_type i <> T_DEV;
  tk_off : 0 <= t_offset t < i_size i;
  tk_nbytes : 0 < t_nbytes t <= i_size i - t_offset t;
  tk_buffer : user_range root m (t_buffer t) (t_nbytes t);
  tk_status : user_range root m (t_status t) 4;
}.

Context (V : Z -> blk) (c : nat -> inode) (t : aio_task) (l : list Z) (own : gmap Z (nat * Z)) (m0 : mem) (n : nat).
Hypothesis D : disk_ok sb V.
Hypothesis I : inode_ok sb V (c (t_ip t)).
Hypothesis Tk : task_ok m0 (c (t_ip t)) t.
Hypothesis Htmp : tmp + PGSIZE <= kend.

Notation i := (c (t_ip t)).
Notation src := (tmp_src tmp m0 V i (t_offset t)).
Notation bytes := (tmp_bytes V i (t_offset t)).
Notation put := (put_user (t_buffer t) (t_nbytes t) src).

(** The state in the loop: before the first turn, and after one. *)
Definition sound (s : asys T) : Prop :=
  (exists tx, a_fs s = FS tx sb c /\ ok tx n V) /\ pt_inv kend root (a_km s) l own /\
  forall va, user_va va -> pteval root (km_mem (a_km s)) va = pteval root m0 va.
Definition before (s : asys T) : Prop :=
  sound s /\ (forall x, x < kend -> rd (wr_bytes (km_mem (a_km s)) tmp bytes) x = rd (wr_bytes m0 tmp bytes) x) /\
  forall va, user_va va -> put (uspace root (km_mem (a_km s))) va = put (uspace root m0) va.
Definition after (s : asys T) : Prop :=
  sound s /\ (forall x, x < kend -> rd (km_mem (a_km s)) x = rd (wr_bytes m0 tmp bytes) x) /\
  forall va, user_va va -> uspace root (km_mem (a_km s)) va = put (uspace root m0) va.

Lemma after_before s : after s -> before s.
Proof.
  intros (S & Hl & Hu). split; [done|]. split.
  - intros x Hx. rewrite !rd_wr_bytes, Hl by done. rewrite rd_wr_bytes.
    by destruct (in_range tmp (Z.of_nat (length bytes)) x).
  - intros va Hv. rewrite <-(put_user_idem _ _ _ (uspace root m0)). apply put_user_ext. by apply Hu.
Qed.

Lemma length_bytes : Z.of_nat (length bytes) = Z.min PGSIZE (i_size i - t_offset t).
Proof.
  unfold tmp_bytes, contents. rewrite length_fmap, length_seq. pose proof (tk_off _ _ _ Tk).
  unfold PGSIZE. lia.
Qed.

(** The file's size fits the conversions. *)
Lemma asize_small : 0 < i_size i <= 71680.
Proof. pose proof (io_size _ _ _ I). pose proof (tk_off _ _ _ Tk). unfold MAXFILE, Bz, BSIZE in *. lia. Qed.

(** [readi] puts the same bytes into [tmp] in every turn. *)
Lemma read_tmp_spec s z :
  before s -> z = PGSIZE /\ PGSIZE < i_size i \/ z = i_size i /\ i_size i <= PGSIZE ->
  exists s', read_tmp devsw tmp t z s = Ok (tt, s') /\ sound s' /\
    (forall x, x < kend -> rd (km_mem (a_km s')) x = rd (wr_bytes m0 tmp bytes) x) /\
    forall va, user_va va -> uspace root (km_mem (a_km s')) va = uspace root (km_mem (a_km s)) va.
Proof.
  intros (((tx & Ef & Ho) & Ip & Hp) & Hl & Hu) Hz. destruct s as [f k]. simpl in *. subst f.
  pose proof asize_small as Hs. pose proof (tk_off _ _ _ Tk) as Hoff. unfold PGSIZE in *.
  assert (Ez : u32 z = z) by (apply u32_small; lia). assert (Eo : u32 (t_offset t) = t_offset t) by (apply u32_small; lia).
  destruct (readi_run sb L devsw tx n V c (t_ip t) (t_offset t) z Ho D I (tk_type _ _ _ Tk)) as (tx' & E & Ho'); [lia..|].
  assert (Er : read_spec V i (t_offset t) z = Some bytes).
  { unfold read_spec. rewrite (proj2 (Z.ltb_ge _ _)) by lia. unfold tmp_bytes, PGSIZE.
    destruct Hz as [[-> ?]|[-> ?]]; [done|]. do 3 f_equal. lia. }
  pose proof length_bytes as Hb. unfold PGSIZE in Hb.
  destruct (low_write kend root k l own (wr_bytes (km_mem k) tmp bytes) Ip) as [Ip' Hk].
  { intros x Hx. apply rd_wr_bytes_out. lia. }
  exists (ASys (FS tx' sb c) (set_mem (wr_bytes (km_mem k) tmp bytes) k)). split.
  - unfold read_tmp. rewrite Ez, Eo. erewrite bind_Ok by (unfold on_inodes; cbn [a_fs a_km]; by rewrite E).
    by rewrite Er.
  - split; [split; [by exists tx'|]; split; [done|]|split; [done|]].
    + intros va Hv. simpl. destruct (Hk va Hv) as [-> _]. by apply Hp.
    + intros va Hv. by apply Hk.
Qed.

(** [copyout] of [tmp] and what follows it. *)
Lemma copy_tmp_spec s s' :
  before s -> sound s' ->
  (forall x, x < kend -> rd (km_mem (a_km s')) x = rd (wr_bytes m0 tmp bytes) x) ->
  (forall va, user_va va -> uspace root (km_mem (a_km s')) va = uspace root (km_mem (a_km s)) va) ->
  tmp + t_nbytes t <= kend ->
  exists s2, copyout_from (t_pgdir t) (t_buffer t) tmp (t_nbytes t) s' = Ok (0, s2) /\ after s2.
Proof.
  intros (_ & _ & Hu) ((tx & Ef & Ho) & Ip & Hp) Hl Hus Hk. destruct s' as [f k]. simpl in *. subst f.
  pose proof (tk_nbytes _ _ _ Tk) as Hn. pose proof (tk_off _ _ _ Tk) as Hoff.
  set (buf := rd_bytes (Z.to_nat (t_nbytes t)) (km_mem k) tmp).
  assert (El : Z.of_nat (length buf) = t_nbytes t) by (unfold buf; rewrite length_rd_bytes; lia).
  destruct (copyout_put kend root k l own (t_buffer t) buf src Ip) as (k2 & E2 & Ip2 & H2 & L2).
  { rewrite El. eapply user_range_same; [exact Hp|apply Tk]. }
  { intros j Hj. unfold buf. rewrite rd_bytes_lookup by lia. simpl.
    unfold tmp_src. rewrite <-Hl by lia. f_equal; lia. }
  exists (ASys (FS tx sb c) k2). split.
  - unfold copyout_from, on_memory. erewrite bind_Ok by reflexivity. cbn [a_km]. fold buf.
    rewrite (tk_pgdir _ _ _ Tk). by rewrite E2.
  - rewrite El in H2. split; [split; [by exists tx|]; split; [done|]|split].
    + intros va Hv. simpl. rewrite (proj1 (H2 va Hv)). by apply Hp.
    + intros x Hx. simpl. by rewrite L2, Hl.
    + intros va Hv. simpl. rewrite (proj2 (H2 va Hv)). rewrite <-(Hu va Hv). apply put_user_ext. by apply Hus.
Qed.

Lemma consume_loop_spec fuel : forall s rest,
  tmp + t_nbytes t <= kend ->
  rest <= i_size i -> rest <= Z.of_nat fuel * PGSIZE ->
  before s /\ 0 < rest /\ (rest = i_size i \/ PGSIZE < i_size i) \/
  after s /\ (0 < rest -> rest = i_size i \/ PGSIZE < i_size i) ->
  exists s', consume_loop devsw tmp fuel t rest s = Ok (tt, s') /\ after s'.
Proof.
  induction fuel as [|fuel IH]; intros s rest Hk Hle Hf Hs; unfold PGSIZE in *.
  { destruct Hs as [(_ & ? & _)|[Ha _]]; [lia|]. exists s. simpl. rewrite (proj2 (Z.ltb_ge 0 rest)) by lia. done. }
  cbn [consume_loop]. destruct (Z.ltb_spec 0 rest) as [Hpos|Hneg].
  2:{ destruct Hs as [(_ & ? & _)|[Ha _]]; [lia|]. by exists s. }
  assert (Hb : before s) by (destruct Hs as [(? & _)|[? _]]; [done|by apply after_before]).
  assert (Hr : rest = i_size i \/ 4096 < i_size i) by (destruct Hs as [(_ & _ & ?)|[_ ?]]; auto). clear Hs.
  destruct (proj1 (proj1 Hb)) as (tx & Ef & _).
  rewrite (bind_Ok _ _ _ i s) by (unfold on_inodes; rewrite Ef; by destruct s; simpl in *; subst).
  assert (Hturn : exists s1, (if PGSIZE <? i_size i then do! read_tmp devsw tmp t PGSIZE in ret (rest - PGSIZE)
      else do! read_tmp devsw tmp t rest in ret 0) s =
      Ok (if PGSIZE <? i_size i then rest - PGSIZE else 0, s1) /\ sound s1 /\
    (forall x, x < kend -> rd (km_mem (a_km s1)) x = rd (wr_bytes m0 tmp bytes) x) /\
    forall va, user_va va -> uspace root (km_mem (a_km s1)) va = uspace root (km_mem (a_km s)) va).
  { unfold PGSIZE. destruct (Z.ltb_spec 4096 (i_size i)).
    - destruct (read_tmp_spec s 4096 Hb) as (s1 & E & H1); [left; unfold PGSIZE; lia|].
      exists s1. by rewrite (bind_Ok _ _ _ _ _ E).
    - destruct (read_tmp_spec s rest Hb) as (s1 & E & H1); [right; unfold PGSIZE; lia|].
      exists s1. by rewrite (bind_Ok _ _ _ _ _ E). }
  destruct Hturn as (s1 & E1 & S1 & L1 & U1). unfold PGSIZE in *. rewrite (bind_Ok _ _ _ _ _ E1).
  destruct (copy_tmp_spec s s1 Hb S1 L1 U1 Hk) as (s2 & E2 & A2). rewrite (bind_Ok _ _ _ _ _ E2). cbn.
  apply IH; [done|destruct (Z.ltb_spec 4096 (i_size i)); lia..|]. right. split; [done|].
  destruct (Z.ltb_spec 4096 (i_size i)); lia.
Qed.

Lemma length_int_bytes v : length (int_bytes v) = 4%nat.
Proof. done. Qed.

Lemma lookup_int_bytes v j : 0 <= j < 4 -> default 0 (int_bytes v !! Z.to_nat j) = u8 (Z.shiftr v (8 * j)).
Proof.
  intros Hj. assert (j = 0 \/ j = 1 \/ j = 2 \/ j = 3) as [-> | [-> | [-> | ->]]] by lia; cbn -[Z.shiftr];
    rewrite Z.shiftr_div_pow2 by lia; unfold u8; simpl; rewrite ?Zdiv.Zdiv_Zdiv by lia; by rewrite ?Z.div_1_r.
Qed.

Lemma tmp_src_byte k :
  0 <= k < t_nbytes t -> u8 (src k) = u8 (aread_byte tmp m0 V i (t_offset t) k).
Proof.
  intros Hk. unfold tmp_src, aread_byte. pose proof length_bytes as Hb. pose proof (tk_nbytes _ _ _ Tk).
  rewrite rd_wr_bytes. unfold PGSIZE in *.
  destruct (in_range_spec tmp (Z.of_nat (length bytes)) (tmp + k)), (Z.ltb_spec k 4096); try lia.
  replace (tmp + k - tmp) with k by lia. unfold tmp_bytes, contents.
  rewrite list_lookup_fmap, lookup_seq_lt by (unfold PGSIZE; lia). simpl.
  rewrite (u8_small (u8 _)) by apply u8_bound. by replace (t_offset t + Z.of_nat (Z.to_nat k)) with (t_offset t + k) by lia.
Qed.

(** The whole task: the user's memory is as [served] says, and [tmp] is empty. *)
Lemma consume_spec s :
  sound s -> km_mem (a_km s) = m0 -> tmp + t_nbytes t <= kend ->
  exists s', aread_consume_one_task devsw tmp t s = Ok (tt, s') /\ sound s' /\
    (forall va, user_va va -> uspace root (km_mem (a_km s')) va = served tmp m0 V c t (uspace root m0) va) /\
    forall x, x < kend -> rd (km_mem (a_km s')) x = if in_range tmp PGSIZE x then 0 else rd m0 x.
Proof.
  intros S Em Hk. pose proof asize_small as Hs. pose proof length_bytes as Hb.
  assert (Hbef : before s) by (split; [done|]; by rewrite Em).
  destruct (proj1 S) as (tx & Ef & _). unfold aread_consume_one_task.
  rewrite (bind_Ok _ _ _ i s) by (unfold on_inodes; rewrite Ef; by destruct s; simpl in *; subst).
  destruct (consume_loop_spec (Z.to_nat (i_size i / PGSIZE + 2)) s (i_size i) Hk) as (s1 & E1 & A1);
    [lia|unfold PGSIZE; Z.to_euclidean_division_equations; lia|left; split; [done|]; lia|].
  replace (s32 (i_size i)) with (i_size i) by (symmetry; apply s32_small; lia).
  rewrite (bind_Ok _ _ _ _ _ E1). destruct A1 as (((tx1 & Ef1 & Ho1) & Ip1 & Hp1) & Hl1 & Hu1).
  destruct s1 as [f1 k1]. simpl in *. subst f1.
  destruct (copyout_put kend root k1 l own (t_status t) (int_bytes (t_nbytes t))
    (fun k => u8 (Z.shiftr (t_nbytes t) (8 * k))) Ip1) as (k2 & E2 & Ip2 & H2 & L2).
  { rewrite length_int_bytes. eapply user_range_same; [exact Hp1|apply Tk]. }
  { rewrite length_int_bytes. intros j Hj. by apply lookup_int_bytes. }
  rewrite length_int_bytes in H2.
  rewrite (bind_Ok _ _ _ 0 (ASys (FS tx1 sb c) k2))
    by (unfold on_memory; cbn [a_km]; rewrite (tk_pgdir _ _ _ Tk); by rewrite E2).
  destruct (low_write kend root k2 l own (memset (km_mem k2) tmp 0 PGSIZE) Ip2) as [Ip3 H3].
  { intros x Hx. rewrite rd_memset by (unfold PGSIZE; lia). destruct (in_range_spec tmp PGSIZE x); [lia|done]. }
  eexists. split; [reflexivity|]. cbn [a_fs a_km]. split; [split; [by exists tx1|]; split; [done|]|split].
  - intros va Hv. simpl. rewrite (proj1 (H3 va Hv)), (proj1 (H2 va Hv)). by apply Hp1.
  - intros va Hv. simpl. rewrite (proj2 (H3 va Hv)), (proj2 (H2 va Hv)). apply put_user_ext. rewrite Hu1 by done.
    apply put_user_src, tmp_src_byte.
  - intros x Hx. simpl. rewrite rd_memset by (unfold PGSIZE; lia).
    destruct (in_range_spec tmp PGSIZE x) as [|R]; [done|]. rewrite L2, Hl1 by done. apply rd_wr_bytes_out. lia.
Qed.
End OneTask.

(** ** The queue *)

Definition aio_list (q : aio) : list aio_task := (fun k => aio_tasks q (Z.of_nat k)) <$> seq 0 (Z.to_nat (num_tasks q)).

Lemma aio_list_pop q : 0 < num_tasks q -> aio_list q = aio_tasks q 0 :: aio_list (aio_pop q).
Proof.
  intros Hn. unfold aio_list. replace (Z.to_nat (num_tasks q)) with (S (Z.to_nat (num_tasks q - 1))) by lia.
  cbn [seq fmap list_fmap]. f_equal. apply list_eq. intros k. rewrite <-fmap_S_seq, !list_lookup_fmap.
  cbn [num_tasks aio_pop]. destruct (decide (k < Z.to_nat (num_tasks q - 1))%nat) as [Hk|Hk].
  - rewrite !lookup_seq_lt by done. cbn [fmap option_fmap option_map aio_tasks aio_pop]. f_equal.
    rewrite (proj2 (Z.leb_le _ _)), (proj2 (Z.ltb_lt _ _)) by lia. cbn [andb]. f_equal. lia.
  - by rewrite !lookup_seq_ge by lia.
Qed.

Lemma aio_list_push t q : 0 <= num_tasks q -> aio_list (aio_push t q) = aio_list q ++ [t].
Proof.
  intros Hn. unfold aio_list, aio_push. cbn [num_tasks aio_tasks].
  replace (Z.to_nat (num_tasks q + 1)) with (Z.to_nat (num_tasks q) + 1)%nat by lia.
  rewrite seq_app, fmap_app. f_equal.
  - apply list_fmap_ext. intros k x Hk. apply lookup_seq in Hk as [-> Hk]. rewrite fn_lookup_insert_ne by lia. done.
  - simpl. f_equal. replace (Z.of_nat (Z.to_nat (num_tasks q))) with (num_tasks q) by lia. apply fn_lookup_insert.
Qed.

Lemma served_low tmp m m' V c t u va :
  (forall k, PGSIZE <= k < t_nbytes t -> rd m' (tmp + k) = rd m (tmp + k)) ->
  served tmp m' V c t u va = served tmp m V c t u va.
Proof.
  intros H. unfold served. apply put_user_ext, put_user_src. intros k Hk. unfold aread_byte.
  destruct (Z.ltb_spec k PGSIZE); [done|]. by rewrite H by lia.
Qed.

Lemma served_ext tmp m V c t u1 u2 va : u1 va = u2 va -> served tmp m V c t u1 va = served tmp m V c t u2 va.
Proof. intros H. by apply put_user_ext, put_user_ext. Qed.

Lemma served_all_ext tmp m V c ts : forall u1 u2 va, u1 va = u2 va ->
  foldl (fun u t => served tmp m V c t u) u1 ts va = foldl (fun u t => served tmp m V c t u) u2 ts va.
Proof. induction ts as [|t ts IH]; intros u1 u2 va E; [done|]. simpl. by apply IH, served_ext. Qed.

Lemma served_all_low tmp m m' V c ts : forall u va,
  Forall (fun t => forall k, PGSIZE <= k < t_nbytes t -> rd m' (tmp + k) = rd m (tmp + k)) ts ->
  foldl (fun u t => served tmp m' V c t u) u ts va = foldl (fun u t => served tmp m V c t u) u ts va.
Proof.
  induction ts as [|t ts IH]; intros u va Hf; [done|]. apply Forall_cons in Hf as [H1 H2]. simpl.
  rewrite IH by done. by apply served_all_ext, served_low.
Qed.

Lemma task_ok_same root m m' i t :
  (forall va, user_va va -> pteval root m' va = pteval root m va) -> task_ok root m i t -> task_ok root m' i t.
Proof. intros Hp K. split; try apply K; (eapply user_range_same; [exact Hp|apply K]). Qed.


(** [tmp] has 4096 bytes, but [copyout] takes [nbytes] from it.  For a request of
    more than a page, on any file, the task returns with the user's buffer
    holding, from byte 4096 on, the kernel's memory behind [tmp] and not the file. *)
Theorem aread_leaks_kernel_memory {T} {ops : TxOps T} {ok : T -> nat -> (Z -> blk) -> Prop} {data}
    {laws : TxLaws T ok data} (sb : superblock) devsw (kend root tmp : Z) V c l own (n : nat)
    (t : aio_task) (s : asys T) (k : Z) :
  let m0 := km_mem (a_km s) in
  layout sb data -> disk_ok sb V -> inode_ok sb V (c (t_ip t)) -> task_ok root m0 (c (t_ip t)) t ->
  tmp + t_nbytes t <= kend ->
  (exists tx, a_fs s = FS tx sb c /\ ok tx n V) -> pt_inv kend root (a_km s) l own ->
  PGSIZE <= k < t_nbytes t -> in_range (t_status t) 4 (t_buffer t + k) = false ->
  exists s' flags, aread_consume_one_task devsw tmp t s = Ok (tt, s') /\
    uspace root (km_mem (a_km s')) (t_buffer t + k) = Some (rd m0 (tmp + k), flags).
Proof.
  intros m0 L D It Kt Htmp Hfs Ip Hk Hst.
  destruct (consume_spec sb L devsw kend root tmp V c t l own m0 n D It Kt ltac:(unfold PGSIZE in *; lia) s)
    as (s' & E & _ & U & _); try done.
  destruct (tk_buffer _ _ _ _ Kt) as (B0 & B1 & B2). pose proof (B2 (t_buffer t + k) ltac:(unfold PGSIZE in *; lia)) as Hp.
  apply andb_true_iff in Hp as [Hp _].
  exists s', (PTE_FLAGS (pteval root m0 (t_buffer t + k))). split; [done|].
  rewrite U by (unfold user_va, PGSIZE in *; lia). unfold served, put_user at 1. rewrite Hst. unfold put_user, uspace.
  destruct (in_range_spec (t_buffer t) (t_nbytes t) (t_buffer t + k)); [|unfold PGSIZE in *; lia].
  rewrite Hp. simpl. unfold aread_byte. rewrite (proj2 (Z.ltb_ge _ _)) by lia.
  replace (t_buffer t + k - t_buffer t) with k by lia. rewrite u8_small by apply rd_bound. done.
Qed.

(** ** [sys_aread] *)

Section CallSpec.
Context {T K : Type} {ops : TxOps T} {txn : OpOps T} {host : HostOps K}.
Variable pgdir : nat -> Z.

(** The arguments of the call, from the registers. *)
Definition arg_offset (u : uproc) : Z := s32 (u_tf u RDX).
Definition arg_nbytes (u : uproc) : Z := s32 (u_tf u R10).
Definition arg_file (u : uproc) : option nat :=
  let fd := s32 (u_tf u RDI) in
  if (fd <? 0) || (Z.of_nat NOFILE <=? fd) then None else u_ofile u (Z.to_nat fd).
Definition ptr_checked (u : uproc) (p n : Z) : bool :=
  negb ((n <? 0) || (u_sz u <=? u32 p) || (u_sz u <? u32 (u32 p + n))).

(** The file of a call whose arguments are accepted. *)
Definition accepted (u : uproc) : option nat :=
  if 0 <? arg_nbytes u then
    match arg_file u with
    | Some f => if ptr_checked u (u_tf u RSI) (arg_nbytes u) && ptr_checked u (u_tf u R8) 4 then Some f else None
    | None => None
    end
  else None.

(** The world with [*status = 0]. *)
Definition status_cleared (me : nat) (w : world T K) : world T K :=
  World (w_fs w) (w_host w) (w_file w) (w_pipe w)
    (<[me := set_u_mem (store32 (u_mem (w_proc w me)) (u_tf (w_proc w me) R8) 0) (w_proc w me)]> (w_proc w)).

Definition asked_task (me : nat) (w : world T K) (f : nat) : aio_task :=
  let u := w_proc w me in
  let i := f_icache (w_fs w) (f_ip (w_file w f)) in
  Task (u_tf u R8) (pgdir me) (f_ip (w_file w f)) (u_tf u RSI) (arg_offset u)
    (if i_size i <? u32 (arg_offset u + arg_nbytes u) then s32 (u32 (i_size i - arg_offset u)) else arg_nbytes u).

Lemma sys_aread_run me w q :
  sys_aread pgdir me (AWorld w q) =
  match accepted (w_proc w me) with
  | None => Ok (-1, AWorld w q)
  | Some f =>
      if i_size (f_icache (w_fs w) (f_ip (w_file w f))) <=? u32 (arg_offset (w_proc w me))
      then Ok (0, AWorld (status_cleared me w) q)
      else (do! aio_append (asked_task me w f) in ret (t_nbytes (asked_task me w f))) (AWorld (status_cleared me w) q)
  end.
Proof.
  unfold sys_aread, accepted, arg_file, argfd, arg_ptr, arg_int, with_args, argint, argptr, argaddr, fetcharg, ptr_checked,
    arg_nbytes, the_uproc, upd_uproc, on_world, gets, modify, bind, ret. cbn.
  set (u := w_proc w me). rewrite (Z.ltb_antisym (s32 (u_tf u R10)) 0). destruct (s32 (u_tf u R10) <=? 0); [done|]. cbn. fold u.
  destruct ((s32 (u_tf u RDI) <? 0) || (Z.of_nat NOFILE <=? s32 (u_tf u RDI))); [done|]. cbn. fold u.
  destruct (u_ofile u (Z.to_nat (s32 (u_tf u RDI)))) as [f|]; [|done]. cbn. fold u.
  destruct ((s32 (u_tf u R10) <? 0) || (u_sz u <=? u32 (u_tf u RSI)) || (u_sz u <? u32 (u32 (u_tf u RSI) + s32 (u_tf u R10)))); [done|].
  cbn. fold u. destruct ((u_sz u <=? u32 (u_tf u R8)) || (u_sz u <? u32 (u32 (u_tf u R8) + 4))); [done|].
  unfold the_file, the_inode, on_fs, gets. cbn. fold u. unfold arg_offset.
  by destruct (i_size (f_icache (w_fs w) (f_ip (w_file w f))) <=? u32 (s32 (u_tf u RDX))).
Qed.

(** The task in terms of the file, when the conversions do not wrap. *)
Lemma asked_task_eq me w f :
  let u := w_proc w me in let i := f_icache (w_fs w) (f_ip (w_file w f)) in
  0 <= i_size i <= MAXFILE * Bz -> 0 < arg_nbytes u -> u32 (arg_offset u) < i_size i ->
  0 <= arg_offset u < i_size i /\
  t_nbytes (asked_task me w f) = Z.min (arg_nbytes u) (i_size i - arg_offset u).
Proof.
  intros u i Hs Hn Hlt. unfold MAXFILE, Bz, BSIZE in Hs.
  pose proof (s32_bound (u_tf u RDX)) as B1. pose proof (s32_bound (u_tf u R10)) as B2.
  fold (arg_offset u) in B1. fold (arg_nbytes u) in B2.
  assert (Ho : 0 <= arg_offset u < i_size i).
  { unfold u32 in Hlt. destruct (Z.lt_ge_cases (arg_offset u) 0); Z.to_euclidean_division_equations; lia. }
  split; [done|]. unfold asked_task. cbn [t_nbytes]. fold u i.
  rewrite (u32_small (arg_offset u + arg_nbytes u)) by lia.
  destruct (Z.ltb_spec (i_size i) (arg_offset u + arg_nbytes u)); [|lia].
  rewrite u32_small, s32_small by lia. lia.
Qed.

(** Calls that are made again and again. *)
Fixpoint ask_times (n : nat) (me : nat) : M (aworld T K) unit :=
  match n with
  | O => ret tt
  | S n => do! sys_aread pgdir me in ask_times n me
  end.

Lemma accepted_cleared me w : accepted (w_proc (status_cleared me w) me) = accepted (w_proc w me).
Proof. unfold status_cleared. cbn. by rewrite fn_lookup_insert. Qed.
Lemma offset_cleared me w : arg_offset (w_proc (status_cleared me w) me) = arg_offset (w_proc w me).
Proof. unfold status_cleared. cbn. by rewrite fn_lookup_insert. Qed.

Lemma ask_times_run n : forall me w q f,
  accepted (w_proc w me) = Some f ->
  u32 (arg_offset (w_proc w me)) < i_size (f_icache (w_fs w) (f_ip (w_file w f))) ->
  0 <= num_tasks q -> num_tasks q + Z.of_nat n <= NTASK ->
  exists w' q', ask_times n me (AWorld w q) = Ok (tt, AWorld w' q') /\ num_tasks q' = num_tasks q + Z.of_nat n /\
    sys_aread pgdir me (AWorld w' q') =
      (do! aio_append (asked_task me w' f) in ret (t_nbytes (asked_task me w' f))) (AWorld (status_cleared me w') q').
Proof.
  induction n as [|n IH]; intros me w q f Ha Hs H0 Hn.
  - exists w, q. split; [done|]. split; [lia|]. by rewrite sys_aread_run, Ha, (proj2 (Z.leb_gt _ _) Hs).
  - cbn [ask_times]. unfold bind at 1. rewrite sys_aread_run, Ha, (proj2 (Z.leb_gt _ _) Hs).
    unfold aio_append, bind, gets, modify, ret. cbn [aw_queue aw_world].
    rewrite (proj2 (Z.ltb_ge _ _)), (proj2 (Z.leb_gt _ _)) by lia. cbn [orb aw_queue aw_world].
    destruct (IH me (status_cleared me w) (aio_push (asked_task me w f) q) f) as (w' & q' & E & En & Ea).
    + by rewrite accepted_cleared.
    + by rewrite offset_cleared.
    + simpl. lia.
    + simpl. lia.
    + exists w', q'. split; [exact E|]. split; [simpl in En; lia|exact Ea].
Qed.
End CallSpec.

(** [sys_aread] on every branch.  It refuses a count that is not positive, a bad
    descriptor or a bad pointer and then changes nothing; it clears the status word and
    returns 0 at or past the end of the file; otherwise it queues a
    request for what is left of the file, at most [nbytes], within the file, and returns
    that number. *)
Theorem sys_aread_correct {T K} {ops : TxOps T} {txn : OpOps T} {host : HostOps K} pgdir me (w : world T K) q :
  (forall ip, 0 <= i_size (f_icache (w_fs w) ip) <= MAXFILE * Bz) -> 0 <= num_tasks q < NTASK ->
  let u := w_proc w me in
  match accepted u with
  | None => sys_aread pgdir me (AWorld w q) = Ok (-1, AWorld w q)
  | Some f =>
      let ip := f_ip (w_file w f) in
      let size := i_size (f_icache (w_fs w) ip) in
      if size <=? u32 (arg_offset u)
      then sys_aread pgdir me (AWorld w q) = Ok (0, AWorld (status_cleared me w) q)
      else 0 <= arg_offset u < size /\
        let n := Z.min (arg_nbytes u) (size - arg_offset u) in
        sys_aread pgdir me (AWorld w q) = Ok (n, AWorld (status_cleared me w)
          (aio_push (Task (u_tf u R8) (pgdir me) ip (u_tf u RSI) (arg_offset u) n) q))
  end.
Proof.
  intros Hs Hq u. rewrite sys_aread_run. fold u. destruct (accepted u) as [f|] eqn:Ha; [|done]. cbv zeta.
  destruct (Z.leb_spec (i_size (f_icache (w_fs w) (f_ip (w_file w f)))) (u32 (arg_offset u))) as [|Hlt]; [done|].
  assert (Hn : 0 < arg_nbytes u) by (unfold accepted in Ha; destruct (Z.ltb_spec 0 (arg_nbytes u)); [lia|discriminate Ha]).
  destruct (asked_task_eq pgdir me w f (Hs _) Hn Hlt) as [Ho En]. fold u in Ho, En. split; [done|]. cbv zeta.
  unfold aio_append, bind, gets, modify, ret. cbn [aw_queue aw_world].
  rewrite (proj2 (Z.ltb_ge _ _)), (proj2 (Z.leb_gt _ _)) by lia. cbn [orb]. rewrite <-En. done.
Qed.

(** The array has room for 64 requests and [sys_aread] does not look.  A process
    whose call is accepted may make it 64 times while the kernel thread does not run;
    the 65th call writes outside [aio_tasks]. *)
Theorem aread_queue_overflows {T K} {ops : TxOps T} {txn : OpOps T} {host : HostOps K} pgdir me (w : world T K) tasks f :
  accepted (w_proc w me) = Some f ->
  u32 (arg_offset (w_proc w me)) < i_size (f_icache (w_fs w) (f_ip (w_file w f))) ->
  exists w' q', ask_times pgdir 64 me (AWorld w (Aio tasks 0)) = Ok (tt, AWorld w' q') /\ num_tasks q' = NTASK /\
    sys_aread pgdir me (AWorld w' q') = Panic "out of bounds".
Proof.
  intros Ha Hs. destruct (ask_times_run pgdir 64 me w (Aio tasks 0) f Ha Hs) as (w' & q' & E & En & Ea); [done|done|].
  exists w', q'. split; [exact E|]. split; [exact En|]. rewrite Ea. unfold aio_append, bind, gets. cbn [aw_queue].
  by rewrite En.
Qed.

(** ** Requests while the thread works

    [aread_kth] looks at [num_tasks] and at the first task without the lock; the
    appends and the removals are under it.  [KConsume t] carries the task as it was
    when the thread began with it. *)

Inductive kpc : Type := KTest | KConsume (t : aio_task) | KRemove | KSleep.

Record kst : Type := KSt {
  ks_queue : aio;
  ks_pc : kpc;
  ks_done : list aio_task;      (* tasks consumed so far *)
  ks_asked : list aio_task;     (* tasks appended so far *)
}.

Inductive kth_step : kst -> kst -> Prop :=
  | kth_begin q d a : num_tasks q <> 0 -> kth_step (KSt q KTest d a) (KSt q (KConsume (aio_tasks q 0)) d a)
  | kth_end q t d a : kth_step (KSt q (KConsume t) d a) (KSt q KRemove (d ++ [aio_tasks q 0]) a)
  | kth_remove q d a : kth_step (KSt q KRemove d a) (KSt (aio_pop q) KTest d a)
  | kth_idle q d a : num_tasks q = 0 -> kth_step (KSt q KTest d a) (KSt q KSleep d a)
  | kth_tick q d a : kth_step (KSt q KSleep d a) (KSt q KTest d a).

(** A step of the thread, or a process that appends within the array. *)
Inductive aio_step : kst -> kst -> Prop :=
  | aio_kth s s' : kth_step s s' -> aio_step s s'
  | aio_ask q pc d a t :
      num_tasks q < NTASK -> aio_step (KSt q pc d a) (KSt (aio_push t q) pc d (a ++ [t])).

Definition ks_pending (s : kst) : list aio_task :=
  match ks_pc s with KRemove => tail (aio_list (ks_queue s)) | _ => aio_list (ks_queue s) end.

Record kst_inv (s : kst) : Prop := {
  kv_num : 0 <= num_tasks (ks_queue s) <= NTASK;
  kv_order : ks_asked s = ks_done s ++ ks_pending s;
  kv_first : forall t, ks_pc s = KConsume t -> aio_tasks (ks_queue s) 0 = t /\ 0 < num_tasks (ks_queue s);
  kv_remove : ks_pc s = KRemove -> 0 < num_tasks (ks_queue s);
}.

Lemma kth_step_inv s s' : kst_inv s -> kth_step s s' -> kst_inv s' /\ ks_asked s' = ks_asked s.
Proof.
  intros [Hn Ho Hf Hr] Hs. destruct Hs as [q d a H|q t d a|q d a|q d a H|q d a]; simpl in *;
    unfold ks_pending in *; simpl in *; (split; [|done]).
  - split; simpl; try done. intros t [= <-]. split; [done|lia].
  - destruct (Hf t eq_refl) as [Et Hp]. split; simpl; try done. unfold ks_pending. simpl.
    rewrite Ho, aio_list_pop by done. simpl. by rewrite <-app_assoc.
  - specialize (Hr eq_refl). split; simpl; try done; [lia|]. unfold ks_pending. simpl.
    by rewrite Ho, aio_list_pop by done.
  - by split.
  - by split.
Qed.

Lemma aio_step_inv s s' : kst_inv s -> aio_step s s' -> kst_inv s'.
Proof.
  intros I Hs. destruct Hs as [s s' Hs|q pc d a t Hlt]; [by eapply kth_step_inv|].
  destruct I as [Hn Ho Hf Hr]. unfold ks_pending in *. simpl in *. split; simpl.
  - lia.
  - rewrite Ho. unfold ks_pending. simpl. rewrite aio_list_push by lia.
    destruct pc; rewrite <-app_assoc; try done. specialize (Hr eq_refl). f_equal.
    rewrite aio_list_pop by done. done.
  - intros t' E. destruct (Hf t' E) as [Et Hp]. split; [|lia]. by rewrite fn_lookup_insert_ne by lia.
  - intros E. specialize (Hr E). lia.
Qed.

(** Alone, the thread empties the queue. *)
Lemma kth_drains s : kst_inv s -> exists s', rtc kth_step s s' /\ num_tasks (ks_queue s') = 0 /\ ks_done s' = ks_asked s.
Proof.
  assert (Htest : forall n q d a, kst_inv (KSt q KTest d a) -> n = Z.to_nat (num_tasks q) ->
    exists s', rtc kth_step (KSt q KTest d a) s' /\ num_tasks (ks_queue s') = 0 /\ ks_done s' = a).
  { induction n as [|n IH]; intros q d a I En; pose proof (kv_num _ I) as Hn; simpl in Hn.
    - exists (KSt q KTest d a). split; [done|]. split; [simpl; lia|]. pose proof (kv_order _ I) as Ho.
      unfold ks_pending, aio_list in Ho. simpl in Ho. by rewrite <-En, app_nil_r in Ho.
    - assert (S1 : kth_step (KSt q KTest d a) (KSt q (KConsume (aio_tasks q 0)) d a)) by (constructor; lia).
      pose proof (proj1 (kth_step_inv _ _ I S1)) as I1.
      pose proof (kth_end q (aio_tasks q 0) d a) as S2. pose proof (proj1 (kth_step_inv _ _ I1 S2)) as I2.
      pose proof (kth_remove q (d ++ [aio_tasks q 0]) a) as S3. pose proof (proj1 (kth_step_inv _ _ I2 S3)) as I3.
      destruct (IH (aio_pop q) _ a I3) as (s' & Hr & H'); [simpl; lia|].
      exists s'. split; [|done]. by do 3 (eapply rtc_l; [eassumption|]). }
  destruct s as [q pc d a]. intros I. cbn [ks_asked]. destruct pc as [|t| |].
  - by eapply Htest.
  - pose proof (kth_end q t d a) as S2. pose proof (proj1 (kth_step_inv _ _ I S2)) as I2.
    pose proof (kth_remove q (d ++ [aio_tasks q 0]) a) as S3. pose proof (proj1 (kth_step_inv _ _ I2 S3)) as I3.
    destruct (Htest _ _ _ a I3 eq_refl) as (s' & Hr & H'). exists s'. split; [|done]. by do 2 (eapply rtc_l; [eassumption|]).
  - pose proof (kth_remove q d a) as S3. pose proof (proj1 (kth_step_inv _ _ I S3)) as I3.
    destruct (Htest _ _ _ a I3 eq_refl) as (s' & Hr & H'). exists s'. split; [|done]. by eapply rtc_l.
  - pose proof (kth_tick q d a) as S3. pose proof (proj1 (kth_step_inv _ _ I S3)) as I3.
    destruct (Htest _ _ _ a I3 eq_refl) as (s' & Hr & H'). exists s'. split; [|done]. by eapply rtc_l.
Qed.


(** ** Witnesses

    A file of 4600 bytes, and two pages of user memory. *)

Module ADemo.
#[local] Existing Instances Demo.mem_tx Demo.mem_laws.

Definition big_file : inode :=
  Inode FSDEV 2 1 initsleeplock true T_FILE 0 0 1 4600 [7; 8; 9; 10; 11; 12; 13; 14; 15; 0; 0; 0; 0].
Definition full_block : blk := replicate (Z.to_nat BSIZE) 9.
Definition disk : Z -> blk := <[6 := <[1%nat := 255]> (<[0%nat := 255]> Demo.zeros)]> (fun _ => full_block).

Lemma disk_sound : disk_ok Demo.sb disk.
Proof.
  split.
  - intros b. unfold disk. fn_cases; unfold Demo.zeros, full_block; by rewrite ?length_insert, length_replicate.
  - intros b Hb Hu. change (first_data Demo.sb) with 7. destruct (Z.lt_ge_cases b 7) as [Hlt|]; [|done].
    assert (Hall : forallb (used Demo.sb disk) (seqZ 0 7) = true) by (vm_compute; reflexivity).
    rewrite forallb_forall in Hall. rewrite Hall in Hu; [done|]. apply list_elem_of_In, elem_of_seqZ. lia.
Qed.

Lemma big_slot k : slot disk (i_addrs big_file) k = if (k <? 9)%nat then Z.of_nat k + 7 else 0.
Proof. do 13 (destruct k as [|k]; [reflexivity|]). done. Qed.

Lemma big_file_ok : inode_ok Demo.sb disk big_file.
Proof.
  split; [split; [done| |]|done|].
  - intros k _. rewrite big_slot. destruct (Nat.ltb_spec k 9) as [Hk|]; [|done]. intros _.
    change (first_data Demo.sb) with 7. change (sb_size Demo.sb) with 100. split; [lia|].
    assert (Hall : forallb (used Demo.sb disk) (seqZ 7 9) = true) by (vm_compute; reflexivity).
    rewrite forallb_forall in Hall. apply Hall, list_elem_of_In, elem_of_seqZ. lia.
  - intros j k _ _. rewrite !big_slot. destruct (Nat.ltb_spec j 9), (Nat.ltb_spec k 9); lia.
  - intros x Hx. cbn in Hx. assert (0 <= x / Bz < 9) by (unfold Bz, BSIZE; Z.to_euclidean_division_equations; lia).
    rewrite slot_of_direct by (unfold NDIRECT; lia). rewrite big_slot. destruct (Nat.ltb_spec (Z.to_nat (x / Bz)) 9); lia.
Qed.

Definition start (k : kmem) : asys (Z -> blk) := ASys (FS disk Demo.sb (fun _ => big_file)) k.
Definition tmp : Z := kend0 - 8192.
Definition page_task : aio_task := Task 8000 root0 0 64 100 4500.

Lemma page_task_ok m :
  (forall a n, 0 <= a -> a + n <= 8192 -> user_range root0 m a n) -> task_ok root0 m big_file page_task.
Proof. intros H. split; try done; apply H; simpl; lia. Qed.
End ADemo.

#[local] Existing Instances Demo.mem_tx Demo.mem_laws.

Lemma aread_leaks_kernel_memory_witness :
  exists k s' flags, aread_consume_one_task (fun _ => None) ADemo.tmp ADemo.page_task (ADemo.start k) = Ok (tt, s') /\
    uspace root0 (km_mem (a_km s')) (64 + 4200) = Some (rd (km_mem k) (ADemo.tmp + 4200), flags).
Proof.
  destruct grown6_image as (k & l & own & _ & I & Hr). exists k.
  apply (aread_leaks_kernel_memory (ok := Demo.mem_ok) Demo.sb (fun _ => None) kend0 root0 ADemo.tmp ADemo.disk
    (fun _ => ADemo.big_file) l own 0 ADemo.page_task (ADemo.start k) 4200 Demo.sb_layout ADemo.disk_sound
    ADemo.big_file_ok (ADemo.page_task_ok _ Hr)).
  - unfold ADemo.tmp, ADemo.page_task. simpl. lia.
  - by exists ADemo.disk.
  - exact I.
  - unfold PGSIZE. simpl. lia.
  - reflexivity.
Defined.



(** A process with the file open as descriptor 0. *)
Module CallDemo.
#[local] Existing Instances FDemo.no_tx FDemo.no_op FDemo.page_host.
Definition regs : trapframe := fun r =>
  match r with RSI => 64 | RDX => 100 | R10 => 4500 | R8 => 8000 | _ => 0 end.
Definition caller : uproc := UProc 1 8192 ∅ regs false 0 (fun fd => if decide (fd = O) then Some O else None).
Definition w0 : world unit (gset Z) :=
  World (FS tt Demo.sb (fun _ => ADemo.big_file)) ∅ (fun _ => MkFile FD_INODE 1 true false 0 0 0)
    (fun _ => pipe_init (fun _ => 0)) (fun _ => caller).
End CallDemo.
#[local] Existing Instances FDemo.no_tx FDemo.no_op FDemo.page_host.

Lemma sys_aread_correct_witness :
  sys_aread (fun _ => root0) 3 (AWorld CallDemo.w0 (Aio (fun _ => ADemo.page_task) 0)) =
  Ok (4500, AWorld (status_cleared 3 CallDemo.w0)
    (aio_push (Task 8000 root0 0 64 100 4500) (Aio (fun _ => ADemo.page_task) 0))).
Proof.
  refine (proj2 (sys_aread_correct (fun _ => root0) 3 CallDemo.w0 (Aio (fun _ => ADemo.page_task) 0) _ _)).
  - intros ip. vm_compute. split; congruence.
  - vm_compute. split; congruence || reflexivity.
Defined.

Lemma aread_queue_overflows_witness :
  exists w' q', ask_times (fun _ => root0) 64 3 (AWorld CallDemo.w0 (Aio (fun _ => ADemo.page_task) 0)) =
      Ok (tt, AWorld w' q') /\ num_tasks q' = NTASK /\
    sys_aread (fun _ => root0) 3 (AWorld w' q') = Panic "out of bounds".
Proof.
  apply (aread_queue_overflows (fun _ => root0) 3 CallDemo.w0 (fun _ => ADemo.page_task) 0).
  - vm_compute. reflexivity.
  - vm_compute. reflexivity.
Defined.
