(* ===== verification/Exec.v ===== *)
(** * exec: exec.c, elf.h, [loaduvm] of vm.c

    The new program is read from a file into a new page table, its stack gets
    the arguments, and the process changes over to it.  [exec] runs over the inodes, the
    memory with all the page tables, and the fields of the process it changes. *)
From S2P Require Import Prelude Memory Bytes Strings Sleeplock Kalloc Vm Uvm Space Pipe Ide Tx Fs FsInv Inodes Files Proc Syscall Sysfile Aread.

(** ** elf.h *)

Definition ELF_MAGIC : Z := 1179403647.      (* 0x464C457F *)
Definition ELF_PROG_LOAD : Z := 1.

Record elfhdr : Type := Elfhdr {
  e_magic : Z;
  e_elf : list Z;
  e_type : Z;
  e_machine : Z;
  e_version : Z;
  e_entry : Z;
  e_phoff : Z;
  e_shoff : Z;
  e_flags : Z;
  e_ehsize : Z;
  e_phentsize : Z;
  e_phnum : Z;
  e_shentsize : Z;
  e_shnum : Z;
  e_shstrndx : Z;
}.
Definition sizeof_elfhdr : Z := 64.

Record proghdr : Type := Proghdr {
  ph_type : Z;
  ph_flags : Z;
  ph_off : Z;
  ph_vaddr : Z;
  ph_paddr : Z;
  ph_filesz : Z;
  ph_memsz : Z;
  ph_align : Z;
}.
Definition sizeof_proghdr : Z := 56.

Definition get64 (d : list Z) (off : nat) : Z := get_le 8 d off.

(** The structures that lie in the bytes read. *)
Definition get_elfhdr (d : list Z) : elfhdr :=
  Elfhdr (get32 d 0) (take 12 (drop 4 d)) (get16 d 16) (get16 d 18) (get32 d 20) (get64 d 24) (get64 d 32)
    (get64 d 40) (get32 d 48) (get16 d 52) (get16 d 54) (get16 d 56) (get16 d 58) (get16 d 60) (get16 d 62).
Definition get_proghdr (d : list Z) : proghdr :=
  Proghdr (get32 d 0) (get32 d 4) (get64 d 8) (get64 d 16) (get64 d 24) (get64 d 32) (get64 d 40) (get64 d 48).

(** ** Loading *)

Section Load.
Context {T : Type} {ops : TxOps T}.
Variable devsw : Z -> option (devops T).
Variable kend : Z.

(** [readi(ip, dst, off, n)], with [dst] in kernel memory. *)
Definition read_into (ip : nat) (dst off n : Z) : M (asys T) Z :=
  let! r := on_inodes (readi devsw ip (u32 off) (u32 n)) in
  match r with
  | Some l =>
      do! on_memory (modify (fun k => set_mem (wr_bytes (km_mem k) dst l) k)) in
      ret (Z.of_nat (length l))
  | None => ret (-1)
  end.

Fixpoint loaduvm_loop (fuel : nat) (pgdir addr : Z) (ip : nat) (offset i sz : Z) : M (asys T) Z :=
  if i <? sz then
    match fuel with
    | O => out_of_fuel
    | S fuel =>
        let! pte := on_memory (walkpgdir pgdir (u64 (addr + i)) false) in
        if pte =? 0 then panic "loaduvm: address should exist"
        else
          let! v := on_memory (kload pte) in
          let pa := PTE_ADDR v in
          let n := if u32 (sz - i) <? PGSIZE then u32 (sz - i) else PGSIZE in
          let! r := read_into ip (P2V pa) (offset + i) n in
          if negb (u32 r =? n) then ret (-1)
          else loaduvm_loop fuel pgdir addr ip offset (u32 (i + PGSIZE)) sz
    end
  else ret 0.

(** [offset] and [sz] are [uint]. *)
Definition loaduvm (pgdir addr : Z) (ip : nat) (offset sz : Z) : M (asys T) Z :=
  if negb (addr mod PGSIZE =? 0) then panic "loaduvm: addr must be page aligned"
  else loaduvm_loop (Z.to_nat (u32 sz / PGSIZE + 1)) pgdir addr ip (u32 offset) 0 (u32 sz).

(** [readi(ip, &x, off, sizeof(x)) != sizeof(x)] into a local structure;
    [None] is [goto bad]. *)
Definition read_struct (ip : nat) (off n : Z) : M (asys T) (option (list Z)) :=
  let! r := on_inodes (readi devsw ip (u32 off) n) in
  ret (match r with
       | Some d => if Z.of_nat (length d) =? n then Some d else None
       | None => None
       end).

(** The body of the loop over the program headers; [None] is [goto bad]. *)
Definition load_segment (ip : nat) (pgdir sz : Z) (ph : proghdr) : M (asys T) (option Z) :=
  if negb (ph_type ph =? ELF_PROG_LOAD) then ret (Some sz)
  else if ph_memsz ph <? ph_filesz ph then ret None
  else if u64 (ph_vaddr ph + ph_memsz ph) <? ph_vaddr ph then ret None
  else
    let! sz := on_memory (allocuvm kend pgdir sz (u64 (ph_vaddr ph + ph_memsz ph))) in
    if sz =? 0 then ret None
    else if negb (ph_vaddr ph mod PGSIZE =? 0) then ret None
    else
      let! r := loaduvm pgdir (ph_vaddr ph) ip (ph_off ph) (ph_filesz ph) in
      if r <? 0 then ret None else ret (Some sz).

(** The loop, with [n] headers left; [off] is an [int]. *)
Fixpoint load_program (n : nat) (ip : nat) (pgdir off sz : Z) : M (asys T) (option Z) :=
  match n with
  | O => ret (Some sz)
  | S n =>
      let! d := read_struct ip off sizeof_proghdr in
      match d with
      | None => ret None
      | Some d =>
          let! r := load_segment ip pgdir sz (get_proghdr d) in
          match r with
          | None => ret None
          | Some sz => load_program n ip pgdir (s32 (off + sizeof_proghdr)) sz
          end
      end
  end.
End Load.

(** ** The stack of the new program *)

(** The bytes of an [addr_t]. *)
Definition addr_bytes (v : Z) : list Z := put_le 8 (replicate 8 0) 0 v.

(** The loop that pushes the argument strings; the rest of [argv] is given by
    the strings it points to, which are in the old address space.  The
    results are [sp] and the pointers for [ustack], [None] is [goto bad]. *)
Fixpoint push_args (argv : list (list Z)) (pgdir sp : Z) (ptrs : list Z) : M kmem (option (Z * list Z)) :=
  match argv with
  | [] => ret (Some (sp, ptrs))
  | s :: argv =>
      if (MAXARG <=? length ptrs)%nat then ret None
      else
        let sp := Z.land (u64 (sp - (Z.of_nat (length s) + 1))) (Z.lnot 7) in
        let! r := copyout pgdir sp (s ++ [0]) in
        if r <? 0 then ret None
        else push_args argv pgdir sp (ptrs ++ [sp])
  end.

(** [ustack], up to the null pointer after the arguments. *)
Definition ustack (sp : Z) (ptrs : list Z) : list Z :=
  let argc := Z.of_nat (length ptrs) in
  [4294967295; argc; u64 (sp - (argc + 1) * 8)] ++ ptrs ++ [0].

(** The loop for the program name: what follows the last slash. *)
Fixpoint last_name (last s : list Z) : list Z :=
  match s with
  | [] => last
  | c :: s => last_name (if c =? 47 then s else last) s
  end.

(** ** exec *)

(** The kernel as [exec] sees it: [x_rsp0] and [x_cr3] are the stack in the task
    state segment and the page table register of the processor. *)
Record xsys (T : Type) : Type := XSys {
  x_sys : asys T;
  x_proc : proc;
  x_rsp0 : Z;
  x_cr3 : Z;
}.
Arguments XSys {T}.
Arguments x_sys {T}.
Arguments x_proc {T}.
Arguments x_rsp0 {T}.
Arguments x_cr3 {T}.

Definition KSTACKSIZE : Z := 4096.

Section Exec.
Context {T : Type} {ops : TxOps T} {txn : OpOps T}.
Variable devsw : Z -> option (devops T).
Variables (kend kpdpt : Z).
Variable cwd : nat.                (* the inode of proc->cwd *)

Definition on_sys {A} (c : M (asys T) A) : M (xsys T) A := fun s =>
  match c (x_sys s) with
  | Ok (a, y) => Ok (a, XSys y (x_proc s) (x_rsp0 s) (x_cr3 s))
  | Panic msg => Panic msg
  | Block => Block
  | Fuel => Fuel
  end.
Definition on_xfs {A} (c : M (fs T) A) : M (xsys T) A := on_sys (on_inodes c).
Definition on_xkm {A} (c : M kmem A) : M (xsys T) A := on_sys (on_memory c).
Definition xproc : M (xsys T) proc := gets x_proc.
Definition upd_xproc (f : proc -> proc) : M (xsys T) unit :=
  modify (fun s => XSys (x_sys s) (f (x_proc s)) (x_rsp0 s) (x_cr3 s)).

(** [switchuvm(proc)]; the two halves of [stktop] are one word here. *)
Definition switchuvm : M (xsys T) unit :=
  let! p := xproc in
  if p_pgdir p =? 0 then panic "switchuvm: no pgdir"
  else modify (fun s => XSys (x_sys s) (x_proc s) (u64 (p_kstack p + KSTACKSIZE)) (V2P (p_pgdir p))).

(** The label [bad]. *)
Definition exec_bad (pgdir : Z) (ip : option nat) : M (xsys T) Z :=
  do! (if pgdir =? 0 then ret tt else on_xkm (freevm kend pgdir)) in
  do! (match ip with
       | Some ip => do! on_xfs (iunlockput ip) in on_xfs (on_tx op_end)
       | None => ret tt
       end) in
  ret (-1).

(** From [ustack] on, with the strings pushed down to [sp]. *)
Definition exec_commit (path : list Z) (oldpgdir pgdir sz entry sp : Z) (ptrs : list Z) : M (xsys T) Z :=
  let argc := Z.of_nat (length ptrs) in
  do! upd_xproc (fun p => set_p_tf (<[RDI := argc]> (p_tf p)) p) in
  do! upd_xproc (fun p => set_p_tf (<[RSI := u64 (sp - (argc + 1) * 8)]> (p_tf p)) p) in
  let us := ustack sp ptrs in
  let sp := u64 (sp - (3 + argc + 1) * 8) in
  let! r := on_xkm (copyout pgdir sp (us ≫= addr_bytes)) in
  if r <? 0 then exec_bad pgdir None
  else
    do! upd_xproc (fun p => set_p_name (put_name (last_name path path) (p_name p)) p) in
    do! upd_xproc (set_p_pgdir pgdir) in
    do! upd_xproc (set_p_sz sz) in
    do! upd_xproc (fun p => set_p_tf (<[RIP := entry]> (p_tf p)) p) in
    do! upd_xproc (fun p => set_p_tf (<[RCX := entry]> (p_tf p)) p) in
    do! upd_xproc (fun p => set_p_tf (<[RSP := sp]> (p_tf p)) p) in
    do! switchuvm in
    do! on_xkm (freevm kend oldpgdir) in
    ret 0.

(** From the stack on, with the program loaded up to [sz]. *)
Definition exec_stack (path : list Z) (argv : list (list Z)) (oldpgdir pgdir sz entry : Z) : M (xsys T) Z :=
  let sz := PGROUNDUP sz in
  let! sz := on_xkm (allocuvm kend pgdir sz (u64 (sz + 2 * PGSIZE))) in
  if sz =? 0 then exec_bad pgdir None
  else
    do! on_xkm (clearpteu pgdir (u64 (sz - 2 * PGSIZE))) in
    let! a := on_xkm (push_args argv pgdir sz []) in
    match a with
    | None => exec_bad pgdir None
    | Some (sp, ptrs) => exec_commit path oldpgdir pgdir sz entry sp ptrs
    end.

(** From the ELF header on, with the inode [ip] locked. *)
Definition exec_file (path : list Z) (argv : list (list Z)) (oldpgdir : Z) (ip : nat) : M (xsys T) Z :=
  let! d := on_sys (read_struct devsw ip 0 sizeof_elfhdr) in
  match d with
  | None => exec_bad 0 (Some ip)
  | Some d =>
      let elf := get_elfhdr d in
      if negb (e_magic elf =? ELF_MAGIC) then exec_bad 0 (Some ip)
      else
        let! pgdir := on_xkm (setupkvm kpdpt) in
        if pgdir =? 0 then exec_bad 0 (Some ip)
        else
          let! r := on_sys (load_program devsw kend (Z.to_nat (e_phnum elf)) ip pgdir (s32 (e_phoff elf)) PGSIZE) in
          match r with
          | None => exec_bad pgdir (Some ip)
          | Some sz =>
              do! on_xfs (iunlockput ip) in
              do! on_xfs (on_tx op_end) in
              exec_stack path argv oldpgdir pgdir sz (e_entry elf)
          end
  end.

Definition exec (path : list Z) (argv : list (list Z)) : M (xsys T) Z :=
  let! p := xproc in
  let oldpgdir := p_pgdir p in
  do! on_xfs (on_tx op_begin) in
  let! o := on_xfs (namei devsw (p_pid p) cwd path) in
  match o with
  | None => do! on_xfs (on_tx op_end) in ret (-1)
  | Some ip =>
      do! on_xfs (ilock (p_pid p) ip) in
      exec_file path argv oldpgdir ip
  end.
End Exec.

(** ** The image under construction

    The pages from [PGSIZE] up to [top] are mapped, with the bytes [f] and the
    flags [fl].  The page table and its pages come from the set [P] of pages that were
    free, and nothing else is written: [m0] is the memory before. *)

Definition image (d : Z) (m : mem) (top : Z) (f fl : Z -> Z) : Prop :=
  forall va, user_va va -> uspace d m va = if (PGSIZE <=? va) && (va <? top) then Some (f va, fl va) else None.

Definition built (kend : Z) (P : gset Z) (m0 : mem) (d : Z) (k : kmem) : Prop :=
  exists l own, pt_inv kend d k l own /\ pages_of l own = P /\ keeps P m0 (km_mem k).

Definition USERTOP : Z := 140737488355328.

Section Image.
Variable kend : Z.
Hypothesis Hend : KERNBASE < kend.
Context (P : gset Z) (m0 : mem) (d : Z).
Abbreviation built := (built kend P m0 d).

Lemma image_some m top f fl va :
  image d m top f fl -> PGSIZE <= va < top -> top <= USERTOP -> uspace d m va = Some (f va, fl va).
Proof.
  intros H Hva Ht. rewrite H by (unfold user_va, PGSIZE, USERTOP in *; lia).
  by rewrite (proj2 (Z.leb_le _ _)), (proj2 (Z.ltb_lt _ _)) by lia.
Qed.

Lemma image_ext m top f f' fl fl' :
  (forall va, PGSIZE <= va < top -> f va = f' va /\ fl va = fl' va) -> image d m top f fl -> image d m top f' fl'.
Proof.
  intros E H va Hv. rewrite H by done.
  destruct (Z.leb_spec PGSIZE va), (Z.ltb_spec va top); cbn [andb]; try done. by destruct (E va) as [-> ->].
Qed.

Lemma mapped_pte m top f fl va :
  image d m top f fl -> PGSIZE <= va < top -> top <= USERTOP ->
  present (pteval d m va) = true /\ PTE_FLAGS (pteval d m va) = fl va.
Proof.
  intros H Hva Ht. pose proof (image_some _ _ _ _ _ H Hva Ht) as E. unfold uspace in E.
  destruct (present (pteval d m va)); [|done]. by injection E.
Qed.

Lemma overwrite_u8 f a bs x :
  overwrite f a (u8 <$> bs) x =
  if in_range a (Z.of_nat (length bs)) x then u8 (default 0 (bs !! Z.to_nat (x - a))) else f x.
Proof.
  unfold overwrite, in_range. rewrite length_fmap, list_lookup_fmap.
  destruct ((a <=? x) && (x <? a + Z.of_nat (length bs))); [|done]. by destruct (bs !! Z.to_nat (x - a)).
Qed.

(** Bytes written into the frame of one page. *)
Lemma image_write k top f fl va bs :
  built k -> image d (km_mem k) top f fl -> PGSIZE <= va < top -> top <= USERTOP ->
  va mod 4096 + Z.of_nat (length bs) <= 4096 -> va + Z.of_nat (length bs) <= top ->
  let m' := wr_bytes (km_mem k) (frame d (km_mem k) va + va mod 4096) bs in
  built (set_mem m' k) /\ image d m' top (overwrite f va (u8 <$> bs)) fl.
Proof.
  intros (l & own & I & Cp & Kp) H Hva Ht Hb Hl m'.
  destruct (mapped_pte _ _ _ _ _ H Hva Ht) as [Hp Hf].
  assert (Hv : user_va va) by (unfold user_va, PGSIZE, USERTOP in *; lia).
  destruct (write_frame kend d k l own va bs I Hv Hp Hb) as (I' & P' & U' & K'). fold m' in I', P', U', K'. split.
  - exists l, own. split; [done|]. split; [done|]. eapply keeps_trans; [exact Kp|]. eapply keeps_mono; [|exact K'].
    rewrite <-Cp. unfold pages_of. clear. set_solver.
  - intros va' Hv'. rewrite U' by done. rewrite overwrite_u8.
    destruct (in_range_spec va (Z.of_nat (length bs)) va') as [R|R]; [|by apply H].
    rewrite (proj2 (Z.leb_le _ _)), (proj2 (Z.ltb_lt _ _)) by lia. cbn [andb].
    rewrite Hf. do 2 f_equal. destruct (mapped_pte _ _ _ _ va' H) as [_ Hf']; [lia|done|]. rewrite <-Hf, <-Hf'. f_equal. symmetry.
    eapply (pteval_page kend); eauto. Z.to_euclidean_division_equations. lia.
Qed.

(** [copyout] to pages of the user. *)
Lemma image_copyout k top f fl va bs :
  built k -> image d (km_mem k) top f fl -> PGSIZE <= va -> va + Z.of_nat (length bs) <= top ->
  top <= USERTOP - 4096 -> (forall x, va <= x < va + Z.of_nat (length bs) -> fl x = 7) ->
  exists k', copyout d va bs k = Ok (0, k') /\ built k' /\ image d (km_mem k') top (overwrite f va (u8 <$> bs)) fl.
Proof.
  intros (l & own & I & Cp & Kp) H Hva Hl Ht Hfl. unfold USERTOP in *.
  assert (Hu : forall x, va <= x < va + Z.of_nat (length bs) -> user_page d (km_mem k) x = true).
  { intros x Hx. destruct (mapped_pte _ _ _ _ x H) as [Hp Hf]; [lia|unfold USERTOP; lia|].
    rewrite Hfl in Hf by done. unfold user_page. rewrite Hp. cbn [andb]. apply negb_true_iff, Z.eqb_neq. intros E0.
    assert (E : Z.land (PTE_FLAGS (pteval d (km_mem k) x)) PTE_U = 0).
    { unfold PTE_FLAGS. rewrite <-Z.land_assoc, (Z.land_comm 4095), Z.land_assoc, E0. done. }
    by rewrite Hf in E. }
  destruct (copyout_loop_spec kend d (S (length bs)) k l own va bs I) as (k' & E & I' & U' & P' & K');
    [split; [unfold PGSIZE in *; lia|]; split; [lia|done]|lia|].
  exists k'. split; [done|]. split.
  - exists l, own. split; [done|]. split; [done|]. eapply keeps_trans; [exact Kp|]. eapply keeps_mono; [|exact K'].
    rewrite <-Cp. unfold pages_of. clear. set_solver.
  - intros va' Hv'. rewrite U' by done. rewrite overwrite_u8.
    destruct (in_range_spec va (Z.of_nat (length bs)) va') as [R|R]; [|by apply H].
    rewrite (proj2 (Z.leb_le _ _)), (proj2 (Z.ltb_lt _ _)) by lia. cbn [andb]. do 2 f_equal.
    apply (mapped_pte _ _ _ _ va' H); [lia|unfold USERTOP; lia].
Qed.

(** [copyout] that starts in a page without the flag for the user. *)
Lemma image_copyout_guard k top f fl va bs :
  built k -> image d (km_mem k) top f fl -> PGSIZE <= va < top -> top <= USERTOP -> bs <> [] ->
  fl (va / 4096 * 4096) = 3 -> copyout d va bs k = Ok (-1, k).
Proof.
  intros (l & own & I & Cp & Kp) H Hva Ht Hn Hfl. destruct bs as [|b bs]; [done|]. unfold copyout. cbn [copyout_loop].
  assert (E0 : PGROUNDDOWN va = va / 4096 * 4096) by (rewrite PGROUNDDOWN_eq; Z.to_euclidean_division_equations; lia).
  destruct (mapped_pte _ _ _ _ (va / 4096 * 4096) H) as [Hp Hf]; [unfold PGSIZE in *; Z.to_euclidean_division_equations; lia|done|].
  rewrite E0, (bind_Ok _ _ _ _ _ (uva2ka_spec kend d k l own (va / 4096 * 4096) I
    ltac:(unfold user_va, USERTOP, PGSIZE in *; Z.to_euclidean_division_equations; lia) (present_walk d _ _ Hp))).
  replace (user_page d (km_mem k) (va / 4096 * 4096)) with false; [done|].
  symmetry. unfold user_page. rewrite Hp. cbn [andb]. apply negb_false_iff, Z.eqb_eq.
  change PTE_U with (Z.land 4095 PTE_U). rewrite Z.land_assoc. fold (PTE_FLAGS (pteval d (km_mem k) (va / 4096 * 4096))).
  by rewrite Hf, Hfl.
Qed.
(** [allocuvm]: zeroed pages above, or as it was. *)
Lemma image_alloc k sz newsz f :
  built k -> image d (km_mem k) (PGROUNDUP sz) f (fun _ => 7) ->
  PGSIZE <= sz <= USERTOP - 8192 -> 0 <= newsz <= USERTOP - 8192 ->
  (forall x, PGROUNDUP sz <= x -> f x = 0) ->
  exists r k', allocuvm kend d sz newsz k = Ok (r, k') /\ built k' /\
    (r = 0 /\ image d (km_mem k') (PGROUNDUP sz) f (fun _ => 7) \/
     r = Z.max sz newsz /\ image d (km_mem k') (PGROUNDUP (Z.max sz newsz)) f (fun _ => 7)).
Proof.
  intros B H Hs Hn Hz. unfold USERTOP, PGSIZE in *.
  destruct (PGROUNDUP_user sz) as [A1 A2]; [unfold user_va; lia|].
  destruct (Z.lt_ge_cases newsz sz) as [Hlt|Hge].
  { exists sz, k. split; [|split; [done|right]].
    - unfold allocuvm. rewrite (proj2 (Z.leb_gt _ _)) by (unfold KERNBASE; lia). by rewrite (proj2 (Z.ltb_lt _ _)).
    - by rewrite Z.max_l by lia. }
  destruct B as (l & own & I & Cp & Kp).
  destruct (allocuvm_spec kend d Hend k l own sz newsz I) as (r & k' & l' & o' & E & I' & C' & U' & K').
  - unfold user_va; lia.
  - lia.
  - intros va Hv Hin. rewrite H by done. unfold page_in in Hin.
    rewrite (proj2 (Z.ltb_ge va _)); [by rewrite andb_false_r|]. Z.to_euclidean_division_equations; lia.
  - exists r, k'. split; [done|]. split.
    { exists l', o'. split; [done|]. split; [congruence|]. eapply keeps_trans; [exact Kp|]. by rewrite <-Cp. }
    destruct U' as [[-> U']|[-> U']].
    { left. split; [done|]. intros va Hv. rewrite U' by done. by apply H. }
    right. rewrite Z.max_r by lia. split; [done|]. intros va Hv. rewrite U' by done.
    destruct (PGROUNDUP_user newsz) as [B1 B2]; [unfold user_va; lia|].
    unfold page_in. case_decide as D.
    + rewrite Hz by (Z.to_euclidean_division_equations; lia).
      rewrite (proj2 (Z.leb_le _ _)), (proj2 (Z.ltb_lt _ _)); [done|..]; unfold PGSIZE; Z.to_euclidean_division_equations; lia.
    + rewrite H by done. unfold PGSIZE. destruct (Z.leb_spec 4096 va); [|done].
      destruct (Z.ltb_spec va (PGROUNDUP sz)), (Z.ltb_spec va (PGROUNDUP newsz)); cbn [andb]; try done;
        exfalso; Z.to_euclidean_division_equations; lia.
Qed.
End Image.

(** ** Loading the file *)

Section LoadOk.
Context {T : Type} {ops : TxOps T} {ok : T -> nat -> (Z -> blk) -> Prop} {data : Z -> Prop}
  {laws : TxLaws T ok data}.
Context (sb : superblock).
Hypothesis L : layout sb data.
Variable devsw : Z -> option (devops T).
Variable kend : Z.
Hypothesis Hend : KERNBASE < kend.
Context (P : gset Z) (m0 : mem) (d : Z).
Abbreviation built := (built kend P m0 d).
Context (V : Z -> blk) (c : nat -> inode) (ip : nat) (n : nat).
Hypothesis D : disk_ok sb V.
Hypothesis I : inode_ok sb V (c ip).
Hypothesis Hty : i_type (c ip) <> T_DEV.
Notation size := (i_size (c ip)).
Notation file := (fbyte V (i_addrs (c ip))).

(** The inodes are as they were, and the image is [f] up to [top]. *)
Definition ready (s : asys T) (top : Z) (f : Z -> Z) : Prop :=
  (exists t, a_fs s = FS t sb c /\ ok t n V) /\ built (a_km s) /\ image d (km_mem (a_km s)) top f (fun _ => 7).

Lemma read_any s off len k :
  (exists t, a_fs s = FS t sb c /\ ok t n V) -> a_km s = k -> 0 <= off < 4294967296 -> 0 <= len <= 4096 ->
  exists t', on_inodes (readi devsw ip off len) s = Ok (read_spec V (c ip) off len, ASys (FS t' sb c) k) /\ ok t' n V.
Proof.
  intros (t & E & Ho) <- Hoff Hlen. pose proof (io_size _ _ _ I) as Hs. unfold MAXFILE, Bz, BSIZE in Hs.
  unfold on_inodes. rewrite E. destruct (Z.le_gt_cases off size) as [Hle|Hgt].
  - destruct (readi_run sb L devsw t n V c ip off len Ho D I Hty) as (t' & E' & Ho'); [lia..|].
    exists t'. by rewrite E'.
  - exists t. split; [|done]. unfold readi, the_inode, gets. erewrite bind_Ok by reflexivity. cbn [f_icache].
    destruct (Z.eqb_spec (i_type (c ip)) T_DEV); [done|]. unfold read_spec.
    by rewrite (proj2 (Z.ltb_lt _ _) Hgt).
Qed.

Lemma read_spec_full off len :
  0 <= off -> 0 <= len -> off + len <= size ->
  read_spec V (c ip) off len = Some (contents V (i_addrs (c ip)) off (Z.to_nat len)).
Proof.
  intros. unfold read_spec. rewrite (proj2 (Z.ltb_ge _ _)) by lia. do 3 f_equal. lia.
Qed.

Lemma read_spec_short off len :
  0 <= off -> 0 <= len -> size < off + len ->
  match read_spec V (c ip) off len with Some b => Z.of_nat (length b) < len | None => True end.
Proof.
  intros. unfold read_spec. destruct (Z.ltb_spec size off); [done|]. rewrite length_file_bytes. lia.
Qed.

(** The file's bytes from [off] on put at [a .. a + len). *)
Definition fill (f : Z -> Z) (a len off : Z) : Z -> Z := fun x =>
  if in_range a len x then u8 (file (off + (x - a))) else f x.

Lemma fill_contents f a len off x :
  0 <= len -> overwrite f a (u8 <$> contents V (i_addrs (c ip)) off (Z.to_nat len)) x = fill f a len off x.
Proof.
  intros Hl. rewrite overwrite_u8, length_file_bytes, Z2Nat.id by done. unfold fill.
  destruct (in_range_spec a len x); [|done]. f_equal. unfold contents.
  rewrite list_lookup_fmap, lookup_seq_lt by lia. simpl. f_equal. lia.
Qed.

(** One page of [loaduvm]: the file's bytes, or what there is of them. *)
Lemma load_page s top f va off len :
  ready s top f -> PGSIZE <= va < top -> top <= USERTOP -> va mod 4096 = 0 ->
  0 <= off < 4294967296 -> 0 < len <= 4096 -> va + len <= top ->
  exists r s', read_into devsw ip (frame d (km_mem (a_km s)) va) off len s = Ok (r, s') /\
    ((off + len <= size /\ r = len /\ ready s' top (fill f va len off)) \/
     (size < off + len /\ u32 r <> len /\ exists f', ready s' top f' /\ forall x, ~ va <= x < va + len -> f' x = f x)).
Proof.
  intros (Hf & B & Im) Hva Ht Ha Hoff Hlen Hl. unfold read_into. rewrite !u32_small by lia.
  destruct (read_any s off len (a_km s) Hf eq_refl Hoff) as (t' & E & Ho); [lia|]. rewrite (bind_Ok _ _ _ _ _ E).
  pose proof (image_write kend P m0 d (a_km s) top f (fun _ => 7) va) as Hw. rewrite Ha, Z.add_0_r in Hw.
  destruct (Z.le_gt_cases (off + len) size) as [Hfull|Hshort].
  - rewrite read_spec_full by lia. set (bs := contents _ _ _ _) in *.
    assert (Hb : Z.of_nat (length bs) = len) by (unfold bs; rewrite length_file_bytes; lia).
    eexists len, (ASys (FS t' sb c) _). split; [unfold on_memory; cbn; by rewrite Hb|]. left. split; [done|]. split; [done|].
    destruct (Hw bs B Im Hva Ht) as [B' Im']; [lia..|]. split; [by exists t'|]. split; [exact B'|].
    eapply image_ext; [|exact Im']. intros x _. split; [|done]. apply fill_contents. lia.
  - pose proof (read_spec_short off len ltac:(lia) ltac:(lia) Hshort) as Hr.
    destruct (read_spec V (c ip) off len) as [bs|].
    + eexists (Z.of_nat (length bs)), (ASys (FS t' sb c) _). split; [done|]. right. split; [done|].
      split; [rewrite u32_small; lia|]. destruct (Hw bs B Im Hva Ht) as [B' Im']; [lia..|].
      eexists. split; [split; [by exists t'|]; split; [exact B'|exact Im']|].
      intros x Hx. rewrite overwrite_u8. destruct (in_range_spec va (Z.of_nat (length bs)) x); [lia|done].
    + exists (-1), (ASys (FS t' sb c) (a_km s)). split; [done|]. right. split; [done|].
      split; [change (u32 (-1)) with 4294967295; lia|]. exists f. split; [|done]. split; [by exists t'|done].
Qed.
Lemma ready_ext s top f f' : (forall x, f x = f' x) -> ready s top f -> ready s top f'.
Proof. intros E (F & B & Im). split; [done|]. split; [done|]. eapply image_ext; [|exact Im]. by intros. Qed.

Lemma fill_fill f a l1 l2 off x :
  0 <= l1 -> 0 <= l2 -> fill (fill f a l1 off) (a + l1) l2 (off + l1) x = fill f a (l1 + l2) off x.
Proof.
  intros H1 H2. unfold fill.
  destruct (in_range_spec (a + l1) l2 x), (in_range_spec a l1 x), (in_range_spec a (l1 + l2) x); try lia; try done.
  do 2 f_equal. lia.
Qed.

Lemma fill_none f a len off x : len <= 0 -> f x = fill f a len off x.
Proof. intros H. unfold fill. destruct (in_range_spec a len x); [lia|done]. Qed.

Lemma loaduvm_loop_spec top addr off sz fuel : forall i s f,
  ready s top f -> PGSIZE <= addr -> addr mod 4096 = 0 -> addr + sz <= top -> top <= USERTOP ->
  0 <= off < 4294967296 -> 0 <= sz < 4294967296 -> 0 <= i -> i mod 4096 = 0 -> sz <= i + Z.of_nat fuel * 4096 ->
  (i < sz -> off + i < 4294967296) ->
  exists r s', loaduvm_loop devsw fuel d addr ip off i sz s = Ok (r, s') /\
    ((r = 0 /\ (i < sz -> off + sz <= size) /\ ready s' top (fill f (addr + i) (sz - i) (off + i))) \/
     (r = -1 /\ i < sz /\ size < off + sz /\
      exists f', ready s' top f' /\ forall x, ~ addr + i <= x < addr + sz -> f' x = f x)).
Proof.
  pose proof (io_size _ _ _ I) as Hs. unfold MAXFILE, Bz, BSIZE in Hs.
  induction fuel as [|fuel IH]; intros i s f R Ha1 Ha2 Ha3 Ht Hoff Hsz Hi0 Hi Hf Ho; cbn [loaduvm_loop];
    destruct (Z.ltb_spec i sz) as [Hlt|Hge]; try lia.
  1,3: exists 0, s; split; [done|]; left; split; [done|]; split; [lia|];
    eapply ready_ext; [intros x; by apply fill_none; lia|done].
  specialize (Ho Hlt). unfold PGSIZE, USERTOP in *. rewrite (u64_small (addr + i)) by lia.
  pose proof R as (F & (l & own & Ip & Cp & Kp) & Im).
  assert (Hv : user_va (addr + i)) by (unfold user_va; lia).
  destruct (mapped_pte d _ _ _ _ (addr + i) Im) as [Hp _]; [unfold PGSIZE; lia|unfold USERTOP; lia|].
  destruct (read_pte kend d (a_km s) l own (addr + i) Ip Hv Hp) as (pte & E1 & N1 & L1).
  rewrite (bind_Ok _ _ _ pte s) by (unfold on_memory; rewrite E1; by destruct s).
  destruct (Z.eqb_spec pte 0); [done|].
  rewrite (bind_Ok _ _ _ (pteval d (km_mem (a_km s)) (addr + i)) s)
    by (unfold on_memory, kload, gets; rewrite <-L1; by destruct s).
  cbv zeta. fold (frame d (km_mem (a_km s)) (addr + i)). rewrite (u32_small (sz - i)) by lia.
  set (len := if sz - i <? 4096 then sz - i else 4096).
  assert (Hlen : len = Z.min (sz - i) 4096) by (unfold len; destruct (Z.ltb_spec (sz - i) 4096); lia).
  clearbody len.
  destruct (load_page s top f (addr + i) (off + i) len) as (r & s1 & E2 & R1);
    [done|unfold PGSIZE; lia|unfold USERTOP; lia| |lia|lia|lia|].
  { rewrite Z.add_mod, Ha2, Hi by lia. done. }
  rewrite (bind_Ok _ _ _ _ _ E2). destruct R1 as [(Hfull & -> & R1)|(Hshort & Hr & f' & R1 & Hf')].
  - rewrite (u32_small len), Z.eqb_refl by lia. cbn [negb]. rewrite (u32_small (i + 4096)) by lia.
    destruct (IH (i + 4096) s1 _ R1) as (r & s' & E & [(-> & Hsize & R')|(-> & Hi' & Hsize & f' & R' & Hf')]); try lia.
    + rewrite Z.add_mod, Hi by lia. done.
    + exists 0, s'. split; [done|]. left. split; [done|]. split; [lia|].
      eapply ready_ext; [|exact R']. intros x. destruct (Z.le_gt_cases (sz - i) 4096).
      * rewrite <-fill_none by lia. f_equal; lia.
      * replace len with 4096 by lia. rewrite !Z.add_assoc. rewrite fill_fill by lia. f_equal. lia.
    + exists (-1), s'. split; [done|]. right. split; [done|]. split; [done|]. split; [done|]. exists f'. split; [done|].
      intros x Hx. rewrite Hf' by lia. unfold fill. destruct (in_range_spec (addr + i) len x); [lia|done].
  - rewrite (proj2 (Z.eqb_neq _ _) Hr). cbn [negb]. exists (-1), s1. split; [done|]. right. split; [done|]. split; [done|].
    split; [lia|]. exists f'. split; [done|]. intros x Hx. apply Hf'. lia.
Qed.
(** *** What the program headers ask for *)

(** One header: the size and the bytes after it, when the file has what it names. *)
Definition seg_spec (ph : proghdr) (sz : Z) (f : Z -> Z) : option (Z * (Z -> Z)) :=
  let n := u32 (ph_filesz ph) in
  let off := u32 (ph_off ph) in
  if negb (ph_type ph =? ELF_PROG_LOAD) then Some (sz, f)
  else if (ph_memsz ph <? ph_filesz ph) || (u64 (ph_vaddr ph + ph_memsz ph) <? ph_vaddr ph)
       || negb (ph_vaddr ph mod PGSIZE =? 0) || ((0 <? n) && (size <? off + n)) then None
  else Some (Z.max sz (ph_vaddr ph + ph_memsz ph), fill f (ph_vaddr ph) n off).

Definition ph_at (off : Z) : proghdr := get_proghdr (contents V (i_addrs (c ip)) off 56).

Fixpoint load_spec (k : nat) (off sz : Z) (f : Z -> Z) : option (Z * (Z -> Z)) :=
  match k with
  | O => Some (sz, f)
  | S k =>
      if size <? u32 off + 56 then None
      else
        match seg_spec (ph_at (u32 off)) sz f with
        | None => None
        | Some (sz, f) => load_spec k (s32 (off + 56)) sz f
        end
  end.

(** A segment in the memory for users, and not in the first page. *)
Definition seg_ok (ph : proghdr) : Prop :=
  ph_type ph = ELF_PROG_LOAD ->
  0 <= ph_vaddr ph /\ 0 <= ph_filesz ph /\ ph_vaddr ph + ph_memsz ph <= USERTOP - 32768 /\
  (0 < u32 (ph_filesz ph) -> PGSIZE <= ph_vaddr ph).
Fixpoint segs_ok (k : nat) (off : Z) : Prop :=
  match k with
  | O => True
  | S k => seg_ok (ph_at (u32 off)) /\ segs_ok k (s32 (off + 56))
  end.

(** The program up to [sz]. *)
Definition loaded_to (s : asys T) (sz : Z) (f : Z -> Z) : Prop :=
  ready s (PGROUNDUP sz) f /\ PGSIZE <= sz <= USERTOP - 32768 /\ forall x, PGROUNDUP sz <= x -> f x = 0.

Lemma PGROUNDUP_mono a b : 0 <= a <= b -> b <= USERTOP -> PGROUNDUP a <= PGROUNDUP b.
Proof.
  intros H Hb. unfold USERTOP in *. rewrite !PGROUNDUP_eq by (unfold PGSIZE; lia). unfold PGSIZE.
  Z.to_euclidean_division_equations. lia.
Qed.

Lemma load_segment_spec s sz f ph :
  loaded_to s sz f -> seg_ok ph ->
  exists r s', load_segment devsw kend ip d sz ph s = Ok (r, s') /\
    match r with
    | Some sz' => exists f', seg_spec ph sz f = Some (sz', f') /\ loaded_to s' sz' f'
    | None => exists top f', ready s' top f'
    end.
Proof.
  intros (R & Hsz & Hz) Hseg. unfold load_segment, seg_spec. destruct (Z.eqb_spec (ph_type ph) ELF_PROG_LOAD) as [Et|Nt].
  2:{ exists (Some sz), s. split; [done|]. exists f. done. }
  cbn [negb]. destruct (Hseg Et) as (Hv & Hfs & Htop & Hpg). unfold PGSIZE, USERTOP in *.
  destruct (Z.ltb_spec (ph_memsz ph) (ph_filesz ph)); [by exists None, s; eauto|].
  rewrite u64_small by lia. destruct (Z.ltb_spec (ph_vaddr ph + ph_memsz ph) (ph_vaddr ph)); [by exists None, s; eauto|].
  cbn [orb]. pose proof R as (F & B & Im).
  destruct (image_alloc kend Hend P m0 d (a_km s) sz (ph_vaddr ph + ph_memsz ph) f B Im)
    as (r & k' & E & B' & H'); [unfold PGSIZE, USERTOP; lia|unfold USERTOP; lia|done|].
  set (s1 := ASys (a_fs s) k').
  rewrite (bind_Ok _ _ _ r s1) by (unfold on_memory; by rewrite E).
  destruct H' as [[-> Im']|[-> Im']].
  { rewrite Z.eqb_refl. exists None, s1. split; [done|]. exists (PGROUNDUP sz), f. done. }
  set (sz1 := Z.max sz (ph_vaddr ph + ph_memsz ph)) in *.
  assert (Hsz1 : 4096 <= sz1 <= 140737488355328 - 32768 /\ sz <= sz1 /\ ph_vaddr ph + ph_memsz ph <= sz1) by lia.
  destruct (Z.eqb_spec sz1 0); [lia|].
  assert (R1 : ready s1 (PGROUNDUP sz1) f) by done.
  destruct (Z.eqb_spec (ph_vaddr ph mod 4096) 0) as [Hal|Hal]; cbn [negb orb]; [|exists None, s1; split; [done|]; by eexists _, f].
  unfold loaduvm, PGSIZE. rewrite Hal. cbn [Z.eqb negb].
  pose proof (u32_bound (ph_filesz ph)) as B1. pose proof (u32_bound (ph_off ph)) as B2.
  assert (B3 : u32 (ph_filesz ph) <= ph_filesz ph) by (apply Z.mod_le; lia).
  destruct (PGROUNDUP_user sz1) as [A1 A2]; [unfold user_va; lia|].
  destruct (Z.lt_ge_cases 0 (u32 (ph_filesz ph))) as [Hpos|Hzero].
  - destruct (loaduvm_loop_spec (PGROUNDUP sz1) (ph_vaddr ph) (u32 (ph_off ph)) (u32 (ph_filesz ph))
      (Z.to_nat (u32 (ph_filesz ph) / 4096 + 1)) 0 s1 f R1) as (r & s' & E' & H'); try done; try (unfold PGSIZE, USERTOP; lia).
    { rewrite Z2Nat.id; Z.to_euclidean_division_equations; lia. }
    rewrite (bind_Ok _ _ _ _ _ E'). rewrite !Z.add_0_r, !Z.sub_0_r in H'. specialize (Hpg Hpos).
    rewrite (proj2 (Z.ltb_lt _ _) Hpos). cbn [andb].
    destruct H' as [(-> & Hs & R')|(-> & _ & Hs & f' & R' & Hf')].
    + exists (Some sz1), s'. split; [done|]. rewrite (proj2 (Z.ltb_ge _ _)) by (apply Hs; lia).
      eexists. split; [reflexivity|]. split; [done|]. split; [unfold PGSIZE, USERTOP; lia|].
      intros x Hx. unfold fill. destruct (in_range_spec (ph_vaddr ph) (u32 (ph_filesz ph)) x); [lia|].
      apply Hz. pose proof (PGROUNDUP_mono sz sz1). unfold USERTOP in *. lia.
    + exists None, s'. split; [done|]. eauto.
  - assert (E0 : u32 (ph_filesz ph) = 0) by lia. rewrite E0. change (Z.to_nat (0 / 4096 + 1)) with 1%nat. cbn [loaduvm_loop].
    rewrite (proj2 (Z.ltb_ge 0 0)) by lia. erewrite bind_Ok by reflexivity.
    exists (Some sz1), s1. split; [done|]. eexists. split; [reflexivity|].
    split; [eapply ready_ext; [|exact R1]; intros x; by apply fill_none|]. split; [unfold PGSIZE, USERTOP; lia|].
    intros x Hx. rewrite <-fill_none by lia. apply Hz. pose proof (PGROUNDUP_mono sz sz1). unfold USERTOP in *. lia.
Qed.
Lemma read_struct_spec s off len :
  (exists t, a_fs s = FS t sb c /\ ok t n V) -> 0 < len <= 4096 ->
  exists t', read_struct devsw ip off len s =
      Ok (if size <? u32 off + len then None else Some (contents V (i_addrs (c ip)) (u32 off) (Z.to_nat len)),
          ASys (FS t' sb c) (a_km s)) /\ ok t' n V.
Proof.
  intros F Hlen. unfold read_struct. pose proof (u32_bound off) as Hoff.
  destruct (read_any s (u32 off) len (a_km s) F eq_refl) as (t' & E & Ho); [lia|lia|].
  rewrite (bind_Ok _ _ _ _ _ E). exists t'. split; [|done]. unfold ret. do 2 f_equal.
  destruct (Z.ltb_spec size (u32 off + len)) as [Hs|Hs].
  - pose proof (read_spec_short (u32 off) len ltac:(lia) ltac:(lia) Hs) as Hr.
    destruct (read_spec V (c ip) (u32 off) len) as [b|]; [|done]. by rewrite (proj2 (Z.eqb_neq _ _)) by lia.
  - rewrite read_spec_full by lia. rewrite length_file_bytes. by rewrite Z2Nat.id, Z.eqb_refl by lia.
Qed.

Lemma load_program_spec k : forall s off sz f,
  loaded_to s sz f -> segs_ok k off ->
  exists r s', load_program devsw kend k ip d off sz s = Ok (r, s') /\
    match r with
    | Some sz' => exists f', load_spec k off sz f = Some (sz', f') /\ loaded_to s' sz' f'
    | None => exists top f', ready s' top f'
    end.
Proof.
  induction k as [|k IH]; intros s off sz f Hl Hs; cbn [load_program load_spec].
  { exists (Some sz), s. eauto. }
  destruct Hs as [H1 Hs]. pose proof Hl as (R & Hsz & Hz).
  destruct (read_struct_spec s off sizeof_proghdr (proj1 R)) as (t1 & E1 & Ho1); [by unfold sizeof_proghdr|].
  rewrite (bind_Ok _ _ _ _ _ E1). unfold sizeof_proghdr. set (s1 := ASys _ _).
  assert (R1 : ready s1 (PGROUNDUP sz) f) by (split; [by exists t1|apply R]).
  destruct (size <? u32 off + 56); [exists None, s1; eauto|].
  change (Z.to_nat 56) with 56%nat. fold (ph_at (u32 off)).
  destruct (load_segment_spec s1 sz f (ph_at (u32 off))) as (r & s2 & E2 & H2); [done|done|].
  rewrite (bind_Ok _ _ _ _ _ E2). destruct r as [sz2|]; [|by exists None, s2].
  destruct H2 as (f2 & -> & R2). by apply IH.
Qed.
End LoadOk.

(** ** The arguments on the stack *)

(** The stack pointer below a string of [n] bytes. *)
Definition below_string (sp n : Z) : Z := Z.land (u64 (sp - (n + 1))) (Z.lnot 7).

(** The addresses of the strings, from the stack pointer [sp] on. *)
Fixpoint arg_ptrs (sp : Z) (argv : list (list Z)) : list Z :=
  match argv with
  | [] => []
  | s :: argv => below_string sp (Z.of_nat (length s)) :: arg_ptrs (below_string sp (Z.of_nat (length s))) argv
  end.

(** The memory with the strings in it. *)
Fixpoint arg_bytes (sp : Z) (argv : list (list Z)) (f : Z -> Z) : Z -> Z :=
  match argv with
  | [] => f
  | s :: argv =>
      let sp := below_string sp (Z.of_nat (length s)) in
      arg_bytes sp argv (overwrite f sp (u8 <$> s ++ [0]))
  end.

(** At most so much of the stack is used for the strings. *)
Fixpoint arg_room (argv : list (list Z)) : Z :=
  match argv with
  | [] => 0
  | s :: argv => Z.of_nat (length s) + 8 + arg_room argv
  end.

Lemma arg_room_pos argv : 0 <= arg_room argv.
Proof. induction argv as [|s argv IH]; simpl; lia. Qed.

Lemma below_string_eq sp n :
  0 <= n -> n + 1 <= sp < 18446744073709551616 ->
  below_string sp n mod 8 = 0 /\ sp - (n + 8) <= below_string sp n <= sp - (n + 1).
Proof.
  intros Hn Hs. unfold below_string. rewrite u64_small by lia.
  change 7 with (Z.ones 3). rewrite land_lnot_ones by lia. change (2 ^ 3) with 8.
  Z.to_euclidean_division_equations. lia.
Qed.

Fixpoint arg_sp (sp : Z) (argv : list (list Z)) : Z :=
  match argv with
  | [] => sp
  | s :: argv => arg_sp (below_string sp (Z.of_nat (length s))) argv
  end.

Lemma length_arg_ptrs sp argv : length (arg_ptrs sp argv) = length argv.
Proof. revert sp. induction argv as [|s argv IH]; intros sp; simpl; [done|]. by rewrite IH. Qed.

Lemma arg_sp_bounds argv : forall sp,
  arg_room argv <= sp < 18446744073709551616 -> sp - arg_room argv <= arg_sp sp argv <= sp.
Proof.
  induction argv as [|s argv IH]; intros sp Hs; simpl in *; [lia|]. pose proof (arg_room_pos argv).
  destruct (below_string_eq sp (Z.of_nat (length s))) as [_ B]; [lia|lia|]. specialize (IH (below_string sp (Z.of_nat (length s)))). lia.
Qed.

(** The flags after [clearpteu]: the page at [g] is not for the user. *)
Definition guard (g x : Z) : Z := if in_range g 4096 x then 3 else 7.

Section Stack.
Variable kend : Z.
Hypothesis Hend : KERNBASE < kend.
Context (P : gset Z) (m0 : mem) (d g : Z).
Abbreviation built := (built kend P m0 d).
Hypothesis Hg : PGSIZE <= g <= USERTOP - 12288.
Hypothesis Hga : g mod 4096 = 0.
Notation top := (g + 8192).

(** [copyout] into the two pages: it fails when it starts in the lower one. *)
Lemma stack_copyout k f va bs :
  built k -> image d (km_mem k) top f (guard g) -> g <= va -> va + Z.of_nat (length bs) <= top -> bs <> [] ->
  exists r k', copyout d va bs k = Ok (r, k') /\ built k' /\
    ((r = 0 /\ g + 4096 <= va /\ image d (km_mem k') top (overwrite f va (u8 <$> bs)) (guard g)) \/
     (r = -1 /\ va < g + 4096 /\ image d (km_mem k') top f (guard g))).
Proof.
  intros B Im Hva Hl Hn. unfold USERTOP, PGSIZE in *. destruct (Z.lt_ge_cases va (g + 4096)) as [Hlow|Hhigh].
  - exists (-1), k. split; [|split; [done|by right]].
    assert (0 < Z.of_nat (length bs)) by (destruct bs; [done|simpl; lia]).
    eapply image_copyout_guard; [exact B|exact Im|unfold PGSIZE; lia|unfold USERTOP; lia|done|].
    replace (va / 4096 * 4096) with g by (Z.to_euclidean_division_equations; lia).
    unfold guard. by destruct (in_range_spec g 4096 g); [|lia].
  - destruct (image_copyout kend P m0 d k top f (guard g) va bs B Im) as (k' & E & B' & Im');
      [unfold PGSIZE; lia|lia|unfold USERTOP; lia| |].
    + intros x Hx. unfold guard. by destruct (in_range_spec g 4096 x); [lia|].
    + exists 0, k'. split; [done|]. split; [done|]. by left.
Qed.

Lemma push_args_spec argv : forall sp ptrs k f,
  built k -> image d (km_mem k) top f (guard g) -> g + arg_room argv <= sp <= top -> (length ptrs <= 32)%nat ->
  exists o k', push_args argv d sp ptrs k = Ok (o, k') /\ built k' /\
    match o with
    | Some (sp', ptrs') => sp' = arg_sp sp argv /\ ptrs' = ptrs ++ arg_ptrs sp argv /\
        (length ptrs' <= 32)%nat /\ (argv <> [] -> g + 4096 <= sp') /\
        image d (km_mem k') top (arg_bytes sp argv f) (guard g)
    | None => exists f', image d (km_mem k') top f' (guard g)
    end.
Proof.
  induction argv as [|s argv IH]; intros sp ptrs k f B Im Hsp Hp; cbn [push_args arg_sp arg_ptrs arg_bytes].
  { exists (Some (sp, ptrs)), k. rewrite app_nil_r. done. }
  cbn [arg_room] in Hsp. pose proof (arg_room_pos argv) as Hr. unfold MAXARG, USERTOP, PGSIZE in *.
  destruct (Nat.leb_spec 32 (length ptrs)); [exists None, k; eauto|].
  fold (below_string sp (Z.of_nat (length s))). cbv zeta.
  destruct (below_string_eq sp (Z.of_nat (length s))) as [Ba Bb]; [lia|lia|].
  set (sp1 := below_string sp (Z.of_nat (length s))) in *.
  assert (Hlen : Z.of_nat (length (s ++ [0])) = Z.of_nat (length s) + 1) by (rewrite length_app; simpl; lia).
  destruct (stack_copyout k f sp1 (s ++ [0]) B Im) as (r & k1 & E1 & B1 & H1); [lia|lia|by destruct s|].
  rewrite (bind_Ok _ _ _ _ _ E1). destruct H1 as [(-> & Hh & Im1)|(-> & Hlow & Im1)].
  2:{ exists None, k1. eauto. }
  cbn [Z.ltb Z.compare]. destruct (IH sp1 (ptrs ++ [sp1]) k1 _ B1 Im1) as (o & k' & E & B' & H'); [lia|rewrite length_app; simpl; lia|].
  exists o, k'. split; [exact E|]. split; [done|]. destruct o as [[sp' ptrs']|]; [|done].
  destruct H' as (-> & -> & H2 & H3 & H4). split; [done|]. rewrite <-app_assoc. split; [done|].
  rewrite <-app_assoc in H2. split; [done|]. split; [|done]. intros _. destruct argv; [done|by apply H3].
Qed.
Lemma image_guard k f :
  built k -> image d (km_mem k) top f (fun _ => 7) ->
  exists k', clearpteu d g k = Ok (tt, k') /\ built k' /\ image d (km_mem k') top f (guard g).
Proof.
  intros (l & own & I & Cp & Kp) Im. unfold USERTOP, PGSIZE in *.
  destruct (clearpteu_spec kend d k l own g I) as (k' & E & I' & U' & K').
  - unfold user_va. lia.
  - rewrite (image_some d _ _ _ _ g Im); [done|unfold PGSIZE; lia|unfold USERTOP; lia].
  - exists k'. split; [done|]. split.
    { exists l, own. split; [done|]. split; [done|]. eapply keeps_trans; [exact Kp|]. eapply keeps_mono; [|exact K'].
      rewrite <-Cp. unfold pages_of. clear. set_solver. }
    intros va Hv. rewrite U', Im by done. unfold guard.
    destruct (Z.eqb_spec (va / 4096) (g / 4096)), (in_range_spec g 4096 va);
      try (exfalso; Z.to_euclidean_division_equations; lia); [|done].
    unfold PGSIZE. rewrite (proj2 (Z.leb_le _ _)), (proj2 (Z.ltb_lt _ _)) by lia. done.
Qed.
End Stack.

(** *** What the program finds *)

(** A word and a string with its NUL in the bytes [B]. *)
Definition word_at (B : Z -> Z) (a : Z) : Z := get64 ((fun j => B (a + Z.of_nat j)) <$> seq 0 8) 0.
Definition string_at (B : Z -> Z) (p : Z) (s : list Z) : Prop :=
  forall j, (j <= length s)%nat -> B (p + Z.of_nat j) = u8 (default 0 (s !! j)).

(** The vector at [rsi]: pointers to the arguments and a null pointer. *)
Definition args_at (B : Z -> Z) (rsi : Z) (argv : list (list Z)) : Prop :=
  (forall k s, argv !! k = Some s -> string_at B (word_at B (rsi + 8 * Z.of_nat k)) s) /\
  word_at B (rsi + 8 * Z.of_nat (length argv)) = 0.

Lemma arg_bytes_outside argv : forall sp f x,
  arg_room argv <= sp < 18446744073709551616 -> sp <= x \/ x < arg_sp sp argv -> arg_bytes sp argv f x = f x.
Proof.
  induction argv as [|s argv IH]; intros sp f x Hs Hx; cbn [arg_bytes arg_room arg_sp] in *; [done|]. cbv zeta.
  pose proof (arg_room_pos argv). destruct (below_string_eq sp (Z.of_nat (length s))) as [_ B]; [lia|lia|].
  set (sp1 := below_string sp (Z.of_nat (length s))) in *. pose proof (arg_sp_bounds argv sp1 ltac:(lia)).
  rewrite IH by lia. rewrite overwrite_u8, length_app. simpl length.
  destruct (in_range_spec sp1 (Z.of_nat (length s + 1)) x); [lia|done].
Qed.

Lemma arg_strings argv : forall sp f k s,
  arg_room argv <= sp < 18446744073709551616 -> argv !! k = Some s ->
  exists p, arg_ptrs sp argv !! k = Some p /\ arg_sp sp argv <= p /\ p + Z.of_nat (length s) + 1 <= sp /\
    string_at (arg_bytes sp argv f) p s.
Proof.
  induction argv as [|s0 argv IH]; intros sp f k s Hs Hk; [done|]. cbn [arg_ptrs arg_room arg_sp arg_bytes] in *.
  pose proof (arg_room_pos argv). destruct (below_string_eq sp (Z.of_nat (length s0))) as [_ B]; [lia|lia|].
  set (sp1 := below_string sp (Z.of_nat (length s0))) in *. pose proof (arg_sp_bounds argv sp1 ltac:(lia)).
  destruct k as [|k]; simpl in Hk.
  - injection Hk as <-. exists sp1. split; [done|]. split; [lia|]. split; [lia|]. intros j Hj. cbv zeta.
    rewrite arg_bytes_outside by lia. rewrite overwrite_u8, length_app. simpl length.
    destruct (in_range_spec sp1 (Z.of_nat (length s0 + 1)) (sp1 + Z.of_nat j)); [|lia].
    replace (Z.to_nat (sp1 + Z.of_nat j - sp1)) with j by lia. f_equal.
    destruct (decide (j = length s0)) as [->|]; [by rewrite list_lookup_middle, lookup_ge_None_2 by lia|].
    by rewrite lookup_app_l by lia.
  - destruct (IH sp1 (overwrite f sp1 (u8 <$> s0 ++ [0])) k s) as (p & H1 & H2 & H3 & H4); [lia|done|].
    exists p. split; [done|]. split; [done|]. split; [lia|done].
Qed.

Lemma length_addr_bytes v : length (addr_bytes v) = 8%nat.
Proof. apply length_put_le. Qed.

Lemma addr_bytes_byte v j b : addr_bytes v !! j = Some b -> u8 b = b.
Proof.
  unfold addr_bytes. cbn [put_le]. intros Hb. apply list_elem_of_lookup_2 in Hb. cbn in Hb.
  set_unfold. destruct_or?; subst; try done; apply u8_small; apply Z.mod_pos_bound; lia.
Qed.

Lemma lookup_words ws i j w :
  ws !! i = Some w -> (j < 8)%nat -> (ws ≫= addr_bytes) !! (8 * i + j)%nat = addr_bytes w !! j.
Proof.
  revert i. induction ws as [|w0 ws IH]; intros i Hi Hj; [done|].
  change ((w0 :: ws) ≫= addr_bytes) with (addr_bytes w0 ++ (ws ≫= addr_bytes)). destruct i as [|i]; simpl in Hi.
  - injection Hi as ->. rewrite lookup_app_l; [by f_equal|rewrite length_addr_bytes; lia].
  - rewrite lookup_app_r; rewrite length_addr_bytes; [|lia].
    replace (8 * S i + j - 8)%nat with (8 * i + j)%nat by lia. by apply IH.
Qed.

Lemma length_words ws : length (ws ≫= addr_bytes) = (8 * length ws)%nat.
Proof.
  induction ws as [|w ws IH]; [done|]. change ((w :: ws) ≫= addr_bytes) with (addr_bytes w ++ (ws ≫= addr_bytes)).
  rewrite length_app, length_addr_bytes, IH. simpl. lia.
Qed.

Lemma word_at_words f a ws i w :
  ws !! i = Some w -> 0 <= w < 18446744073709551616 ->
  word_at (overwrite f a (u8 <$> ws ≫= addr_bytes)) (a + 8 * Z.of_nat i) = w.
Proof.
  intros Hi Hw. pose proof (lookup_lt_Some _ _ _ Hi) as Hl. unfold word_at.
  replace ((fun j => _) <$> seq 0 8) with (addr_bytes w).
  - unfold get64, addr_bytes. rewrite get_put_eq by (rewrite length_replicate; lia). by apply Z.mod_small.
  - apply list_eq. intros j. rewrite list_lookup_fmap. destruct (decide (j < 8)%nat) as [Hj|Hj].
    + rewrite lookup_seq_lt by done. cbn [fmap option_fmap option_map].
      rewrite overwrite_u8, length_words.
      destruct (in_range_spec a (Z.of_nat (8 * length ws)) (a + 8 * Z.of_nat i + Z.of_nat (0 + j))); [|lia].
      replace (Z.to_nat _) with (8 * i + j)%nat by lia. rewrite (lookup_words ws i j w) by done.
      destruct (lookup_lt_is_Some_2 (addr_bytes w) j) as [b Hb]; [by rewrite length_addr_bytes|].
      rewrite Hb. simpl. by rewrite (addr_bytes_byte w j b).
    + rewrite !lookup_ge_None_2; [done|rewrite length_seq; lia|rewrite length_addr_bytes; lia].
Qed.

Lemma args_round_trip top argv f :
  arg_room argv + 288 <= top < 18446744073709551616 -> (length argv <= 32)%nat ->
  let sp := arg_sp top argv in
  let argc := Z.of_nat (length argv) in
  let sp2 := sp - (3 + argc + 1) * 8 in
  let B := overwrite (arg_bytes top argv f) sp2 (u8 <$> ustack sp (arg_ptrs top argv) ≫= addr_bytes) in
  args_at B (sp - (argc + 1) * 8) argv /\ length (ustack sp (arg_ptrs top argv) ≫= addr_bytes) = Z.to_nat ((3 + argc + 1) * 8).
Proof.
  intros Ht Hn sp argc sp2 B. pose proof (arg_sp_bounds argv top ltac:(lia)) as Hsp. fold sp in Hsp.
  assert (El : length (ustack sp (arg_ptrs top argv)) = (4 + length argv)%nat).
  { unfold ustack. rewrite !length_app, length_arg_ptrs. simpl. lia. }
  assert (Hw : length (ustack sp (arg_ptrs top argv) ≫= addr_bytes) = Z.to_nat ((3 + argc + 1) * 8))
    by (rewrite length_words, El; unfold argc; lia).
  split; [|done].
  assert (Hb : forall x, sp <= x -> B x = arg_bytes top argv f x).
  { intros x Hx. unfold B. rewrite overwrite_u8, Hw.
    destruct (in_range_spec sp2 (Z.of_nat (Z.to_nat ((3 + argc + 1) * 8))) x); [unfold sp2 in *; lia|done]. }
  assert (Hp : forall k p, arg_ptrs top argv !! k = Some p -> 0 <= p < 18446744073709551616 ->
    word_at B (sp - (argc + 1) * 8 + 8 * Z.of_nat k) = p).
  { intros k p Hk Hpb. replace (sp - (argc + 1) * 8 + 8 * Z.of_nat k) with (sp2 + 8 * Z.of_nat (3 + k)) by (unfold sp2; lia).
    apply word_at_words; [|done]. unfold ustack. rewrite lookup_app_r by (simpl; lia). simpl.
    rewrite Nat.sub_0_r. rewrite lookup_app_l; [done|]. by eapply lookup_lt_Some. }
  split.
  - intros k s Hk. destruct (arg_strings argv top f k s ltac:(lia) Hk) as (p & Hpk & H1 & H2 & H3). fold sp in H1.
    rewrite (Hp k p Hpk) by lia. intros j Hj. rewrite Hb by lia. by apply H3.
  - replace (sp - (argc + 1) * 8 + 8 * Z.of_nat (length argv)) with (sp2 + 8 * Z.of_nat (3 + length argv)) by (unfold sp2, argc; lia).
    apply word_at_words; [|done]. unfold ustack. rewrite lookup_app_r by (simpl; lia). simpl. rewrite Nat.sub_0_r.
    rewrite lookup_app_r by (by rewrite length_arg_ptrs). by rewrite length_arg_ptrs, Nat.sub_diag.
Qed.

(** ** The old image and the new *)

Section Change.
Variable kend : Z.
Hypothesis Hend : KERNBASE < kend.
Context (k0 : kmem) (old : Z) (l0 : list Z) (own0 : gmap Z (nat * Z)).
Hypothesis I0 : pt_inv kend old k0 l0 own0.
Notation m0 := (km_mem k0).
Notation free0 := (list_to_set l0 : gset Z).

(** The old image is there, and the same pages are free as before. *)
Definition unchanged (k : kmem) : Prop :=
  exists l, pt_inv kend old k l own0 /\ list_to_set l = free0 /\
    forall va, user_va va -> uspace old (km_mem k) va = uspace old m0 va.

Lemma free_apart : dom own0 ## free0.
Proof.
  intros c Hc Hl. apply elem_of_list_to_set in Hl. apply elem_of_dom in Hc as [[lv p] Hc].
  by destruct (pi_page _ _ _ _ _ I0 _ _ _ Hc) as (_ & ? & _).
Qed.

Lemma old_kept k l :
  kalloc_inv kend k l -> list_to_set l ⊆ free0 -> keeps free0 m0 (km_mem k) ->
  pt_inv kend old k l own0 /\ forall va, user_va va -> uspace old (km_mem k) va = uspace old m0 va.
Proof.
  intros Ik Hl Hk. destruct (other_space kend old k0 l0 own0 free0 k l) as (I & _ & U); try done.
  - apply free_apart.
  - intros c Hc. eapply pages_ok; [exact I0|]. unfold pages_of. apply elem_of_union. by left.
Qed.

Lemma drop_image d k :
  built kend free0 m0 d k -> exists k', freevm kend d k = Ok (tt, k') /\ unchanged k'.
Proof.
  intros (l & own & I & Cp & Kp). destruct (freevm_spec kend d k l own) as (k' & l' & E & Ik & El & Kf); [lia|done|].
  exists k'. split; [done|]. exists l'. destruct (old_kept k' l' Ik) as [I' U'].
  - by rewrite El, Cp.
  - eapply keeps_trans; [exact Kp|]. eapply keeps_mono; [|exact Kf]. rewrite <-Cp. unfold pages_of. clear. set_solver.
  - split; [done|]. split; [by rewrite El|done].
Qed.

Lemma change_image d k top f fl :
  built kend free0 m0 d k -> image d (km_mem k) top f fl ->
  exists k' l' own', freevm kend old k = Ok (tt, k') /\ pt_inv kend d k' l' own' /\
    pages_of l' own' = pages_of l0 own0 /\ image d (km_mem k') top f fl.
Proof.
  intros (l & own & I & Cp & Kp) Im.
  assert (Hsub : list_to_set l ⊆ free0) by (rewrite <-Cp; apply pages_l_sub).
  destruct (old_kept k l (pi_kalloc _ _ _ _ _ I) Hsub Kp) as [Io _].
  assert (Hap : dom own ## dom own0).
  { pose proof free_apart as H. rewrite <-Cp in H. unfold pages_of in H. clear -H. set_solver. }
  destruct (freevm_spec kend old k l own0) as (k' & l' & E & Ik & El & Kf); [lia|done|].
  destruct (other_space kend d k l own (pages_of l own0) k' l') as (I' & _ & U'); try done.
  - by eapply apart_pages.
  - intros c Hc. by eapply pages_ok.
  - by rewrite El.
  - eapply keeps_mono; [|exact Kf]. unfold pages_of. clear. set_solver.
  - exists k', l', own. split; [done|]. split; [done|]. split; [|intros va Hv; rewrite U' by done; by apply Im].
    unfold pages_of in *. rewrite El, <-Cp. clear. set_solver.
Qed.
End Change.

(** ** From the stack on *)

(** The process after a failure: only two registers may differ. *)
Definition same_proc (p p' : proc) : Prop :=
  exists tf, p' = set_p_tf tf p /\ forall r, r <> RDI -> r <> RSI -> tf r = p_tf p r.

(** The process after [exec]. *)
Definition new_proc (path : list Z) (d top entry argc rsi rsp : Z) (p : proc) : proc :=
  set_p_tf (<[RSP := rsp]> (<[RCX := entry]> (<[RIP := entry]> (<[RSI := rsi]> (<[RDI := argc]> (p_tf p))))))
    (set_p_sz top (set_p_pgdir d (set_p_name (put_name (last_name path path) (p_name p)) p))).

Section StackOk.
Context {T : Type} {ops : TxOps T} {txn : OpOps T}.
Variables (kend : Z).
Hypothesis Hend : KERNBASE < kend.
Context (k0 : kmem) (old : Z) (l0 : list Z) (own0 : gmap Z (nat * Z)).
Hypothesis I0 : pt_inv kend old k0 l0 own0.
Notation m0 := (km_mem k0).
Notation free0 := (list_to_set l0 : gset Z).

(** What a failed and a successful [exec] leave; [f] are the bytes of the program below [g]. *)
Definition exec_failed (p : proc) (rsp0 cr3 : Z) (s : xsys T) : Prop :=
  unchanged kend k0 old l0 own0 (a_km (x_sys s)) /\ same_proc p (x_proc s) /\ x_rsp0 s = rsp0 /\ x_cr3 s = cr3.

Definition exec_started (path : list Z) (argv : list (list Z)) (d g entry : Z) (f : Z -> Z) (p : proc) (s : xsys T) : Prop :=
  exists l own B rsi rsp, pt_inv kend d (a_km (x_sys s)) l own /\ pages_of l own = pages_of l0 own0 /\
    image d (km_mem (a_km (x_sys s))) (g + 8192) B (guard g) /\
    (forall x, x < g -> B x = f x) /\ args_at B rsi argv /\ g + 4096 <= rsp <= rsi /\ (length argv <= MAXARG)%nat /\
    x_proc s = new_proc path d (g + 8192) entry (Z.of_nat (length argv)) rsi rsp p /\
    x_rsp0 s = u64 (p_kstack p + KSTACKSIZE) /\ x_cr3 s = V2P d.

Lemma on_xkm_Ok {A} (m : M kmem A) F k p r c a k' :
  m k = Ok (a, k') -> on_xkm m (XSys (T := T) (ASys F k) p r c) = Ok (a, XSys (ASys F k') p r c).
Proof. intros E. unfold on_xkm, on_sys, on_memory. simpl. by rewrite E. Qed.

Lemma exec_bad_Ok d F k p p' rsp0 cr3 :
  d <> 0 -> built kend free0 m0 d k -> same_proc p p' ->
  exists s', exec_bad kend d None (XSys (ASys F k) p' rsp0 cr3) = Ok (-1, s') /\ a_fs (x_sys s') = F /\
    exec_failed p rsp0 cr3 s'.
Proof.
  intros Hd B Hp. destruct (drop_image kend Hend k0 old l0 own0 I0 d k B) as (k' & E & U).
  exists (XSys (ASys F k') p' rsp0 cr3). split; [|done]. unfold exec_bad. destruct (Z.eqb_spec d 0); [done|].
  rewrite (bind_Ok _ _ _ _ _ (on_xkm_Ok _ F k p' rsp0 cr3 _ _ E)). done.
Qed.

Lemma same_proc_refl p : same_proc p p.
Proof. exists (p_tf p). by destruct p. Qed.

Lemma exec_commit_spec path argv d g entry f F k p rsp0 cr3 :
  d <> 0 -> built kend free0 m0 d k -> PGSIZE <= g <= USERTOP - 12288 -> g mod 4096 = 0 ->
  image d (km_mem k) (g + 8192) (arg_bytes (g + 8192) argv f) (guard g) ->
  arg_room argv + 288 <= 8192 -> (length argv <= MAXARG)%nat ->
  exists r s', exec_commit kend path old d (g + 8192) entry (arg_sp (g + 8192) argv) (arg_ptrs (g + 8192) argv)
      (XSys (ASys F k) p rsp0 cr3) = Ok (r, s') /\ a_fs (x_sys s') = F /\
    (r = -1 /\ exec_failed p rsp0 cr3 s' \/ r = 0 /\ exec_started path argv d g entry f p s').
Proof.
  intros Hd B Hg Ga Im Hroom Hn. unfold exec_commit. cbv zeta. rewrite length_arg_ptrs.
  do 2 erewrite bind_Ok by reflexivity. cbn [x_sys x_proc x_rsp0 x_cr3 upd_xproc modify].
  pose proof (arg_room_pos argv) as Hr0. unfold USERTOP, PGSIZE, MAXARG in *.
  destruct (args_round_trip (g + 8192) argv f) as [Ha Hl]; [lia|lia|].
  pose proof (arg_sp_bounds argv (g + 8192) ltac:(lia)) as Hsp.
  set (sp := arg_sp (g + 8192) argv) in *. set (us := ustack sp (arg_ptrs (g + 8192) argv) ≫= addr_bytes) in *.
  set (argc := Z.of_nat (length argv)) in *. rewrite !u64_small by lia.
  set (p1 := set_p_tf _ (set_p_tf _ p)).
  assert (Hp1 : same_proc p p1).
  { exists (<[RSI := sp - (argc + 1) * 8]> (<[RDI := argc]> (p_tf p))). split; [by destruct p|].
    intros r N1 N2. fn_cases; congruence. }
  destruct (stack_copyout kend free0 m0 d g ltac:(unfold PGSIZE, USERTOP; lia) Ga k _ (sp - (3 + argc + 1) * 8) us B Im)
    as (r & k1 & E1 & B1 & H1); [lia|lia|intros E; rewrite E in Hl; simpl in Hl; lia|].
  rewrite (bind_Ok _ _ _ _ _ (on_xkm_Ok _ F k p1 rsp0 cr3 _ _ E1)). destruct H1 as [(-> & Hh & Im1)|(-> & Hlow & Im1)].
  2:{ destruct (exec_bad_Ok d F k1 p p1 rsp0 cr3 Hd B1 Hp1) as (s' & E & EF & Hs).
      exists (-1), s'. split; [done|]. split; [done|by left]. }
  cbn [Z.ltb Z.compare]. do 6 erewrite bind_Ok by reflexivity. cbn [x_sys x_proc x_rsp0 x_cr3 upd_xproc modify].
  unfold switchuvm, xproc. rewrite bind_assoc. erewrite bind_Ok by reflexivity. cbn [x_proc p_pgdir set_p_pgdir set_p_sz set_p_tf].
  destruct (Z.eqb_spec d 0); [done|]. erewrite bind_Ok by reflexivity. cbn [x_sys x_proc x_rsp0 x_cr3 modify].
  destruct (change_image kend Hend k0 old l0 own0 I0 d k1 _ _ _ B1 Im1) as (k' & l' & own' & E & I' & C' & Im').
  rewrite (bind_Ok _ _ _ _ _ (on_xkm_Ok _ F k1 _ _ _ _ _ E)). eexists 0, _. split; [reflexivity|]. split; [done|]. right.
  split; [done|]. eexists l', own', _, _, (sp - (3 + argc + 1) * 8). cbn [x_sys a_km x_proc x_rsp0 x_cr3].
  do 3 (split; [done|]). split; [|split; [exact Ha|]; split; [lia|]; split; [done|]; split; [by destruct p|done]].
  intros x Hx. rewrite overwrite_u8, Hl.
  destruct (in_range_spec (sp - (3 + argc + 1) * 8) (Z.of_nat (Z.to_nat ((3 + argc + 1) * 8))) x); [lia|].
  apply arg_bytes_outside; [lia|]. right. fold sp. lia.
Qed.

Lemma exec_stack_spec path argv d sz entry f F k p rsp0 cr3 :
  d <> 0 -> built kend free0 m0 d k -> image d (km_mem k) (PGROUNDUP sz) f (fun _ => 7) ->
  PGSIZE <= sz <= USERTOP - 32768 -> (forall x, PGROUNDUP sz <= x -> f x = 0) -> arg_room argv + 288 <= 8192 ->
  exists r s', exec_stack kend path argv old d sz entry (XSys (ASys F k) p rsp0 cr3) = Ok (r, s') /\
    a_fs (x_sys s') = F /\
    (r = -1 /\ exec_failed p rsp0 cr3 s' \/ r = 0 /\ exec_started path argv d (PGROUNDUP sz) entry f p s').
Proof.
  intros Hd B Im Hsz Hz Hroom. unfold exec_stack. cbv zeta. unfold PGSIZE, USERTOP in *.
  destruct (PGROUNDUP_user sz) as [Ga Gb]; [unfold user_va; lia|]. set (g := PGROUNDUP sz) in *.
  assert (Eg : PGROUNDUP g = g).
  { rewrite PGROUNDUP_eq by (unfold PGSIZE; lia). unfold PGSIZE. Z.to_euclidean_division_equations. lia. }
  rewrite (u64_small (g + 2 * 4096)) by lia. pose proof (arg_room_pos argv) as Hr0.
  destruct (image_alloc kend Hend free0 m0 d k g (g + 2 * 4096) f B) as (r & k1 & E1 & B1 & H1);
    [by rewrite Eg|unfold PGSIZE, USERTOP; lia|unfold USERTOP; lia|by rewrite Eg|].
  rewrite (bind_Ok _ _ _ _ _ (on_xkm_Ok _ F k p rsp0 cr3 _ _ E1)). destruct H1 as [[-> Im1]|[-> Im1]].
  { rewrite Z.eqb_refl. destruct (exec_bad_Ok d F k1 p p rsp0 cr3 Hd B1 (same_proc_refl p)) as (s' & E & EF & Hs).
    exists (-1), s'. split; [done|]. split; [done|by left]. }
  rewrite Z.max_r in * by lia. change (g + 2 * 4096) with (g + 8192) in *.
  destruct (Z.eqb_spec (g + 8192) 0); [lia|]. 
  assert (Eg2 : PGROUNDUP (g + 8192) = g + 8192).
  { rewrite PGROUNDUP_eq by (unfold PGSIZE; lia). unfold PGSIZE. Z.to_euclidean_division_equations. lia. }
  rewrite Eg2 in Im1. change (2 * 4096) with 8192. rewrite Z.add_simpl_r, (u64_small g) by lia.
  assert (Hg : PGSIZE <= g <= USERTOP - 12288) by (unfold PGSIZE, USERTOP; lia).
  destruct (image_guard kend free0 m0 d g Hg Ga k1 f B1 Im1) as (k2 & E2 & B2 & Im2).
  rewrite (bind_Ok _ _ _ _ _ (on_xkm_Ok _ F k1 p rsp0 cr3 _ _ E2)).
  destruct (push_args_spec kend free0 m0 d g Hg Ga argv (g + 8192) [] k2 f B2 Im2) as (o & k3 & E3 & B3 & H3); [lia|simpl; lia|].
  rewrite (bind_Ok _ _ _ _ _ (on_xkm_Ok _ F k2 p rsp0 cr3 _ _ E3)). destruct o as [[sp ptrs]|].
  - destruct H3 as (-> & -> & Hn & _ & Im3). rewrite length_app, length_arg_ptrs in Hn. simpl in Hn.
    by apply exec_commit_spec.
  - destruct (exec_bad_Ok d F k3 p p rsp0 cr3 Hd B3 (same_proc_refl p)) as (s' & E & EF & Hs).
    exists (-1), s'. split; [done|]. split; [done|by left].
Qed.
End StackOk.

(** ** The whole call *)

(** The calls up to [ilock], and the header of the file. *)
Definition open_path {T} {ops : TxOps T} {txn : OpOps T} (devsw : Z -> option (devops T)) (pid : Z) (cwd : nat)
    (path : list Z) : M (fs T) (option nat) :=
  do! on_tx op_begin in
  let! o := namei devsw pid cwd path in
  match o with
  | Some ip => do! ilock pid ip in ret (Some ip)
  | None => ret None
  end.
Definition elf_of (V : Z -> blk) (i : inode) : elfhdr := get_elfhdr (contents V (i_addrs i) 0 64).

(** The inode after [iunlockput], when it is not the last use of a removed file. *)
Definition released (i : inode) : inode := set_i_ref (i_ref i - 1) (set_i_lock (Sleeplk false 0) i).

Section ExecOk.
Context {T : Type} {ops : TxOps T} {txn : OpOps T}.
Variable devsw : Z -> option (devops T).
Variables (kend kpdpt : Z).

Lemma on_xfs_Ok {A} (m : M (fs T) A) F k p r c a F' :
  m F = Ok (a, F') -> on_xfs m (XSys (ASys F k) p r c) = Ok (a, XSys (ASys F' k) p r c).
Proof. intros E. unfold on_xfs, on_sys, on_inodes. simpl. by rewrite E. Qed.

Lemma on_sys_Ok {A} (m : M (asys T) A) s p r c a s' :
  m s = Ok (a, s') -> on_sys m (XSys s p r c) = Ok (a, XSys s' p r c).
Proof. intros E. unfold on_sys. simpl. by rewrite E. Qed.

Lemma iunlockput_released ip t sb c :
  sl_locked (i_lock (c ip)) = true -> 1 <= i_ref (c ip) -> 2 <= i_ref (c ip) \/ i_nlink (c ip) <> 0 ->
  iunlockput ip (FS t sb c) = Ok (tt, FS t sb (<[ip := released (c ip)]> c)).
Proof.
  intros Hl Hr Hn. unfold iunlockput, iunlock, iput, the_inode. rewrite bind_assoc. erewrite bind_Ok by reflexivity.
  cbn [f_icache]. unfold holdingsleep. rewrite Hl, (proj2 (Z.ltb_ge _ _)) by lia. cbn [negb orb].
  erewrite bind_Ok by reflexivity. cbn [f_tx f_sb f_icache]. erewrite bind_Ok by reflexivity. cbn [f_icache].
  rewrite fn_lookup_insert. cbn [i_ref i_valid i_nlink set_i_lock releasesleep].
  replace ((i_ref (c ip) =? 1) && i_valid (c ip) && (i_nlink (c ip) =? 0)) with false.
  - erewrite bind_Ok by reflexivity. unfold upd_inode, modify. cbn [f_tx f_sb f_icache]. rewrite fn_lookup_insert, fn_insert_insert. done.
  - symmetry. destruct (Z.eqb_spec (i_ref (c ip)) 1), (Z.eqb_spec (i_nlink (c ip)) 0); rewrite ?andb_false_r; try done. lia.
Qed.

Lemma exec_opens cwd path argv F ip F' k p rsp0 cr3 :
  open_path devsw (p_pid p) cwd path F = Ok (Some ip, F') ->
  exec devsw kend kpdpt cwd path argv (XSys (ASys F k) p rsp0 cr3) =
  exec_file devsw kend kpdpt path argv (p_pgdir p) ip (XSys (ASys F' k) p rsp0 cr3).
Proof.
  unfold open_path. intros H. apply bind_Ok_inv in H as ([] & F1 & E1 & H).
  apply bind_Ok_inv in H as (o & F2 & E2 & H). destruct o as [jp|]; [|unfold ret in H; simplify_eq].
  apply bind_Ok_inv in H as ([] & F3 & E3 & H). unfold ret in H. injection H as <- <-.
  unfold exec. erewrite bind_Ok by reflexivity. cbv zeta. cbn [x_proc].
  by rewrite (bind_Ok _ _ _ _ _ (on_xfs_Ok _ F k p rsp0 cr3 _ _ E1)), (bind_Ok _ _ _ _ _ (on_xfs_Ok _ F1 k p rsp0 cr3 _ _ E2)),
    (bind_Ok _ _ _ _ _ (on_xfs_Ok _ F2 k p rsp0 cr3 _ _ E3)).
Qed.
End ExecOk.

(** What [exec] of the file [ip] leaves: the inode is given back; and the process is as it was, or runs the program. *)
Definition exec_outcome {T} kend k p rsp0 cr3 d l own V (c : nat -> inode) ip path argv (r : Z) (s : xsys T) : Prop :=
  let elf := elf_of V (c ip) in
  f_icache (a_fs (x_sys s)) = <[ip := released (c ip)]> c /\
  (r = -1 /\ exec_failed kend k (p_pgdir p) (d :: l) own p rsp0 cr3 s \/
   r = 0 /\ e_magic elf = ELF_MAGIC /\
     exists sz f, load_spec V c ip (Z.to_nat (e_phnum elf)) (s32 (e_phoff elf)) PGSIZE (fun _ => 0) = Some (sz, f) /\
       exec_started kend (d :: l) own path argv d (PGROUNDUP sz) (e_entry elf) f p s).

Section Whole.
Context {T : Type} {ops : TxOps T} {ok : T -> nat -> (Z -> blk) -> Prop} {data : Z -> Prop}
  {laws : TxLaws T ok data} {txn : OpOps T}.
Context (sb : superblock) (devsw : Z -> option (devops T)) (kend kpdpt : Z).
Hypothesis L : layout sb data.
Hypothesis Hend : KERNBASE < kend.
Context (k : kmem) (p : proc) (rsp0 cr3 d : Z) (l : list Z) (own : gmap Z (nat * Z)).
Hypothesis I0 : pt_inv kend (p_pgdir p) k (d :: l) own.
Context (V : Z -> blk) (c : nat -> inode) (ip n : nat).
Hypothesis D : disk_ok sb V.
Hypothesis I : inode_ok sb V (c ip).
Hypothesis Hty : i_type (c ip) <> T_DEV.
Hypothesis Hlk : sl_locked (i_lock (c ip)) = true.
Hypothesis Hr : 1 <= i_ref (c ip).
Hypothesis Hnl : 2 <= i_ref (c ip) \/ i_nlink (c ip) <> 0.
Hypothesis Hop : forall t', ok t' n V -> exists t'', op_end t' = Ok (tt, t'').
Notation old := (p_pgdir p).
Notation failed := (exec_failed (T := T) kend k old (d :: l) own p rsp0 cr3).

Lemma put_and_end t k1 p1 a b :
  ok t n V -> exists t', op_end t = Ok (tt, t') /\
    on_xfs (iunlockput ip) (XSys (ASys (FS t sb c) k1) p1 a b) =
      Ok (tt, XSys (ASys (FS t sb (<[ip := released (c ip)]> c)) k1) p1 a b) /\
    on_xfs (on_tx op_end) (XSys (ASys (FS t sb (<[ip := released (c ip)]> c)) k1) p1 a b) =
      Ok (tt, XSys (ASys (FS t' sb (<[ip := released (c ip)]> c)) k1) p1 a b).
Proof.
  intros Ho. destruct (Hop t Ho) as (t' & E). exists t'. split; [done|]. split.
  - by apply on_xfs_Ok, iunlockput_released.
  - apply on_xfs_Ok. unfold on_tx. simpl. by rewrite E.
Qed.

Lemma unchanged_refl : unchanged kend k old (d :: l) own k.
Proof. by exists (d :: l). Qed.

(** The label [bad] with the file open. *)
Lemma bad_file t k1 e :
  ok t n V -> e = 0 /\ k1 = k \/ e = d /\ d <> 0 /\ built kend (list_to_set (d :: l)) (km_mem k) d k1 ->
  exists s', exec_bad kend e (Some ip) (XSys (ASys (FS t sb c) k1) p rsp0 cr3) = Ok (-1, s') /\
    f_icache (a_fs (x_sys s')) = <[ip := released (c ip)]> c /\ failed s'.
Proof.
  intros Ho He. unfold exec_bad.
  assert (H1 : exists k2, (if e =? 0 then ret tt else on_xkm (freevm kend e)) (XSys (ASys (FS t sb c) k1) p rsp0 cr3) =
    Ok (tt, XSys (ASys (FS t sb c) k2) p rsp0 cr3) /\ unchanged kend k old (d :: l) own k2).
  { destruct He as [[-> ->]|(-> & Hd & B)]; [exists k; split; [done|apply unchanged_refl]|].
    destruct (drop_image kend Hend k old (d :: l) own I0 d k1 B) as (k2 & E & U). exists k2. split; [|done].
    destruct (Z.eqb_spec d 0); [done|]. by apply on_xkm_Ok. }
  destruct H1 as (k2 & E1 & U). rewrite (bind_Ok _ _ _ _ _ E1).
  destruct (put_and_end t k2 p rsp0 cr3 Ho) as (t' & _ & E2 & E3). rewrite bind_assoc, (bind_Ok _ _ _ _ _ E2), (bind_Ok _ _ _ _ _ E3).
  eexists. split; [reflexivity|]. split; [done|]. split; [done|]. split; [apply same_proc_refl|done].
Qed.

Lemma built_start k1 :
  pt_inv kend d k1 l {[d := (4%nat, 0)]} -> keeps (list_to_set (d :: l)) (km_mem k) (km_mem k1) ->
  built kend (list_to_set (d :: l)) (km_mem k) d k1.
Proof.
  intros Id K. exists l, {[d := (4%nat, 0)]}. split; [done|]. split; [|done].
  unfold pages_of. rewrite dom_singleton_L. clear. set_solver.
Qed.
End Whole.

(** ** Theorems *)


(** A segment in the first page, while the page table is empty. *)
Lemma load_first_page_panics {T} {ops : TxOps T} devsw kend ip d sz (s : asys T) l ph :
  pt_inv kend d (a_km s) l {[d := (4%nat, 0)]} -> ph_type ph = ELF_PROG_LOAD -> ph_vaddr ph = 0 ->
  0 < ph_filesz ph <= ph_memsz ph -> ph_memsz ph <= PGSIZE -> sz = PGSIZE ->
  load_segment devsw kend ip d sz ph s = Panic "loaduvm: address should exist".
Proof.
  intros Id Hpt Hva Hfs Hms ->. unfold load_segment. rewrite Hpt, Hva, Z.eqb_refl. cbn [negb]. unfold PGSIZE in Hms.
  rewrite (proj2 (Z.ltb_ge _ _)), Z.add_0_l, u64_small, (proj2 (Z.ltb_ge _ 0)) by lia.
  assert (Ea : allocuvm kend d PGSIZE (ph_memsz ph) (a_km s) = Ok (PGSIZE, a_km s)).
  { unfold allocuvm. rewrite (proj2 (Z.leb_gt _ _)) by (unfold KERNBASE; lia).
    destruct (Z.ltb_spec (ph_memsz ph) PGSIZE); [done|]. assert (ph_memsz ph = PGSIZE) as -> by (unfold PGSIZE in *; lia). done. }
  rewrite (bind_Ok _ _ _ PGSIZE s) by (unfold on_memory; rewrite Ea; by destruct s).
  assert (B : 0 < u32 (ph_filesz ph)) by (rewrite u32_small; lia).
  change (PGSIZE =? 0) with false. change (0 mod PGSIZE =? 0) with true. cbv iota. cbn [negb].
  unfold loaduvm. change (0 mod PGSIZE =? 0) with true. cbn [negb].
  destruct (Z.to_nat (u32 (ph_filesz ph) / PGSIZE + 1)) as [|fuel] eqn:Ef.
  { unfold PGSIZE in Ef. pose proof (Z.div_pos (u32 (ph_filesz ph)) 4096). lia. }
  cbn [loaduvm_loop]. rewrite (proj2 (Z.ltb_lt _ _) B). change (u64 (0 + 0)) with 0.
  assert (Hv : user_va 0) by (by unfold user_va).
  assert (W : walk 3 (km_mem (a_km s)) d 0 = None).
  { destruct (walk 3 (km_mem (a_km s)) d 0) as [x|] eqn:W; [|done]. exfalso.
    eapply walk_Some in W as (t & Ht & _); [|done|done|lia|by eapply root_at].
    by apply lookup_singleton_Some in Ht as [_ ?]. }
  unfold bind, on_memory. rewrite (walkpgdir_noalloc kend d _ l _ 0 Id Hv), W. done.
Qed.

(** An executable file can stop the kernel.  When the first program
    header is a segment at address 0 of at most a page, [exec] does not refuse the file: the
    image starts at [PGSIZE], [allocuvm] has nothing to do, and [loaduvm] panics because there is no
    page table for the address. *)
Theorem exec_vaddr0_panics {T} {ops : TxOps T} {ok : T -> nat -> (Z -> blk) -> Prop} {data : Z -> Prop}
    {laws : TxLaws T ok data} {txn : OpOps T} sb devsw kend kpdpt cwd path argv (F : fs T) k p rsp0 cr3
    d l own ip t n V c :
  layout sb data -> pt_inv kend (p_pgdir p) k (d :: l) own ->
  open_path devsw (p_pid p) cwd path F = Ok (Some ip, FS t sb c) -> ok t n V -> disk_ok sb V ->
  inode_ok sb V (c ip) -> i_type (c ip) <> T_DEV ->
  let elf := elf_of V (c ip) in
  let off := u32 (s32 (e_phoff elf)) in
  let ph := ph_at V c ip off in
  64 <= i_size (c ip) -> off + 56 <= i_size (c ip) -> e_magic elf = ELF_MAGIC -> 0 < e_phnum elf ->
  ph_type ph = ELF_PROG_LOAD -> ph_vaddr ph = 0 -> 0 < ph_filesz ph <= ph_memsz ph -> ph_memsz ph <= PGSIZE ->
  exec devsw kend kpdpt cwd path argv (XSys (ASys F k) p rsp0 cr3) = Panic "loaduvm: address should exist".
Proof.
  intros L I0 Hpath Ho D I Hty elf off ph Hs1 Hs2 Hm Hn Hpt Hva Hfs Hms.
  rewrite (exec_opens devsw kend kpdpt cwd path argv F ip _ k p rsp0 cr3 Hpath). unfold exec_file.
  destruct (read_struct_spec sb L devsw V c ip n D I Hty (ASys (FS t sb c) k) 0 sizeof_elfhdr)
    as (t1 & E4 & Ho1); [by exists t|by unfold sizeof_elfhdr|].
  rewrite (bind_Ok _ _ _ _ _ (on_sys_Ok _ (ASys (FS t sb c) k) p rsp0 cr3 _ _ E4)). cbn [a_km]. change (u32 0) with 0.
  rewrite (proj2 (Z.ltb_ge _ _)) by (unfold sizeof_elfhdr; lia).
  change (Z.to_nat sizeof_elfhdr) with 64%nat. cbv zeta. fold (elf_of V (c ip)). fold elf. rewrite Hm, Z.eqb_refl. cbn [negb].
  destruct (setup_beside kend (p_pgdir p) kpdpt k d l own I0) as (k1 & E5 & Hd & Id & Ud & _).
  rewrite (bind_Ok _ _ _ _ _ (on_xkm_Ok _ (FS t1 sb c) k p rsp0 cr3 _ _ E5)). destruct (Z.eqb_spec d 0); [done|].
  destruct (Z.to_nat (e_phnum elf)) as [|m] eqn:Em; [lia|]. cbn [load_program].
  destruct (read_struct_spec sb L devsw V c ip n D I Hty (ASys (FS t1 sb c) k1) (s32 (e_phoff elf)) sizeof_proghdr)
    as (t2 & E6 & Ho2); [by exists t1|by unfold sizeof_proghdr|].
  assert (Ep : (let! dd := read_struct devsw ip (s32 (e_phoff elf)) sizeof_proghdr in
    match dd with
    | Some dd =>
        let! r := load_segment devsw kend ip d PGSIZE (get_proghdr dd) in
        match r with
        | Some sz => load_program devsw kend m ip d (s32 (s32 (e_phoff elf) + sizeof_proghdr)) sz
        | None => ret None
        end
    | None => ret None
    end) (ASys (FS t1 sb c) k1) = Panic "loaduvm: address should exist").
  { rewrite (bind_Ok _ _ _ _ _ E6). fold off. rewrite (proj2 (Z.ltb_ge _ _)) by (unfold sizeof_proghdr; lia).
    change (Z.to_nat sizeof_proghdr) with 56%nat. fold (ph_at V c ip off). fold ph. cbn [a_km].
    unfold bind. by rewrite (load_first_page_panics devsw kend ip d PGSIZE (ASys (FS t2 sb c) k1) l ph). }
  unfold bind at 1. unfold on_sys. cbn [x_sys]. by rewrite Ep.
Qed.

(** A long argument stops the kernel.  When a string is longer than the whole new image,
    the stack pointer wraps around below 0, to an address whose table is
    missing, and [uva2ka] in [copyout] follows the null pointer of [walkpgdir].  Nothing bounds
    the strings but the size of the calling process. *)
Theorem exec_long_argument_faults (d sp : Z) (s : list Z) (argv : list (list Z)) (ptrs : list Z) (k : kmem) :
  (length ptrs < MAXARG)%nat -> 0 <= sp -> sp < Z.of_nat (length s) + 1 <= sp + 549755813888 ->
  present (ent (km_mem k) d 511) = false ->
  push_args (s :: argv) d sp ptrs k = Panic "trap".
Proof.
  intros Hp Hsp Hs Hn. cbn [push_args]. unfold MAXARG in *. rewrite (proj2 (Nat.leb_gt _ _)) by lia. cbv zeta.
  set (n := Z.of_nat (length s)) in *. fold (below_string sp n).
  assert (Hb : 18446744073709551616 - 549755813888 <= below_string sp n < 18446744073709551616).
  { unfold below_string. change 7 with (Z.ones 3). rewrite land_lnot_ones by lia. change (2 ^ 3) with 8.
    replace (u64 (sp - (n + 1))) with (sp - (n + 1) + 18446744073709551616) by (unfold u64; apply (Z.mod_unique _ _ (-1)); lia).
    Z.to_euclidean_division_equations. lia. }
  set (va := below_string sp n) in *. unfold bind, copyout. destruct (s ++ [0]) as [|b bs] eqn:E; [by destruct s|]. cbn [copyout_loop].
  assert (Hm : PMX (PGROUNDDOWN va) = 511).
  { rewrite PMX_eq, PGROUNDDOWN_eq. unfold pfx. change (2 ^ (12 + 9 * Z.of_nat 3)) with 549755813888.
    Z.to_euclidean_division_equations. lia. }
  unfold bind, uva2ka, walkpgdir, walk_level. rewrite Hm. unfold kload, bind, gets, ret. fold (ent (km_mem k) d 511).
  rewrite Hn. done.
Qed.

(** ** An instance *)

Module ExecDemo.
(** 100 blocks: 16 inodes from block 2 on, the bitmap in block 6, the root directory with the
    file [a] in block 7, and the file in block 8: four bytes to be loaded at [va]. *)
Definition sb : superblock := Superblock 100 93 16 0 2 2 6.
Definition zeros : blk := replicate (Z.to_nat BSIZE) 0.
Definition root_inode : inode := Inode FSDEV 1 1 initsleeplock true T_DIR 0 0 1 16 (7 :: replicate 12 0).
Definition prog_inode : inode := Inode FSDEV 2 1 (Sleeplk true 3) true T_FILE 0 0 1 124 (8 :: replicate 12 0).
Definition prog (va : Z) : list Z :=
  put_le 2 (put_le 8 (put_le 8 (put32 (replicate 64 0) 0 ELF_MAGIC) 24 4096) 32 64) 56 1 ++
  put_le 8 (put_le 8 (put_le 8 (put_le 8 (put32 (replicate 56 0) 0 1) 8 120) 16 va) 32 4) 40 8 ++
  [1; 2; 3; 4].
Definition disk (va b : Z) : blk :=
  if b =? 2 then write_dinode prog_inode 128 (write_dinode root_inode 64 zeros)
  else if b =? 6 then <[0%nat := 255]> (<[1%nat := 1]> zeros)
  else if b =? 7 then <[2%nat := 97]> (put_le 2 zeros 0 2)
  else if b =? 8 then prog va ++ replicate 388 0
  else zeros.

(** The disk is only read. *)
Definition ro_tx (va : Z) : TxOps unit := {|
  tx_read b := ret (disk va b);
  tx_update b f := panic "read only";
|}.
Definition ro_op : OpOps unit := {| op_begin := ret tt; op_end := ret tt |}.
Definition ro_ok (va : Z) (t : unit) (n : nat) (V : Z -> blk) : Prop := n = O /\ V = disk va.
Lemma ro_laws va : TxLaws (ops := ro_tx va) unit (ro_ok va) (fun _ => True).
Proof.
  split.
  - intros t n V b [-> ->] _. by exists t.
  - by intros t n V b f [? _].
  - by intros t n V [? _].
Qed.

Definition path : list Z := [47; 97].             (* /a *)
Definition argv : list (list Z) := [[97]; [104; 105]].
Definition me : proc := set_p_pgdir root0 (set_p_pid 3 proc0).
Definition fs0 : fs unit := FS tt sb (fun _ => inode0).
Definition none : Z -> option (devops unit) := fun _ => None.

Definition opened_inode (va : Z) : option (nat * superblock * inode) :=
  match open_path (ops := ro_tx va) (txn := ro_op) none 3 0 path fs0 with
  | Ok (Some ip, FS _ sb c) => Some (ip, sb, c ip)
  | _ => None
  end.

Lemma opened va :
  opened_inode va = Some (1%nat, sb, prog_inode) ->
  exists c, open_path (ops := ro_tx va) (txn := ro_op) none 3 0 path fs0 = Ok (Some 1%nat, FS tt sb c) /\ c 1%nat = prog_inode.
Proof.
  unfold opened_inode. destruct (open_path _ _ _ _ _) as [[[ip|] [[] sb' c]]| | |]; try done.
  intros [= -> -> H]. by exists c.
Qed.

Lemma exec_sb_layout : layout sb (fun _ => True).
Proof. by split; repeat split. Qed.

Lemma exec_disk_ok va : disk_ok sb (disk va).
Proof.
  split.
  - intros b. unfold disk. repeat case_match; done.
  - intros b Hb Hu. change (first_data sb) with 7. destruct (Z.lt_ge_cases b 7) as [Hlt|]; [|done].
    exfalso. change (sb_size sb) with 100 in Hb.
    assert (b = 0 \/ b = 1 \/ b = 2 \/ b = 3 \/ b = 4 \/ b = 5 \/ b = 6)
      as [->|[->|[->|[->|[->|[->| ->]]]]]] by lia; vm_compute in Hu; discriminate.
Qed.

Lemma prog_slot va k : slot (disk va) (i_addrs prog_inode) k = if decide (k = O) then 8 else 0.
Proof.
  unfold slot. destruct (Nat.leb_spec k NDIRECT) as [Hk|Hk]; [|case_decide; [unfold NDIRECT in Hk; lia|done]].
  destruct k as [|k]; [done|]. case_decide; [done|]. cbn [i_addrs prog_inode lookup list_lookup]. apply default_replicate0.
Qed.

Lemma prog_is_ok va : inode_ok sb (disk va) prog_inode.
Proof.
  split.
  - split; [done|..].
    + intros k _. rewrite prog_slot. case_decide; [|done]. intros _. split; [done|]. vm_compute. reflexivity.
    + intros j k _ _. rewrite !prog_slot. repeat case_decide; congruence.
  - done.
  - intros x Hx. rewrite prog_slot. change (i_size prog_inode) with 124 in Hx.
    rewrite Z.div_small by (unfold Bz, BSIZE; lia). done.
Qed.

(** [exec] in the process of 5000 bytes, in memory [k0]. *)
Definition run (va : Z) (k : kmem) : res (Z * xsys unit) :=
  exec (ops := ro_tx va) (txn := ro_op) none kend0 root0 0 path argv (XSys (ASys fs0 k) me 0 0).
Definition run_ok (k0 : kmem) : bool :=
  match allocuvm kend0 root0 0 5000 k0 with
  | Ok (_, k) => if run 4096 k is Ok (r, _) then r =? 0 else false
  | _ => false
  end.

Lemma run_case k0 k r s :
  run_ok k0 = true -> allocuvm kend0 root0 0 5000 k0 = Ok (5000, k) -> run 4096 k = Ok (r, s) -> r = 0.
Proof. unfold run_ok. intros H E E'. rewrite E, E' in H. by apply Z.eqb_eq. Qed.

Lemma run12 : run_ok (kmem_n 12) = true.
Proof. vm_compute. reflexivity. Qed.
End ExecDemo.


Lemma exec_vaddr0_panics_witness :
  exists k, allocuvm kend0 root0 0 5000 (kmem_n 12) = Ok (5000, k) /\
    ExecDemo.run 0 k = Panic "loaduvm: address should exist".
Proof.
  destruct grown12 as (k & l & own & E & I & _ & Hl). destruct l as [|d l]; [discriminate Hl|].
  destruct (ExecDemo.opened 0 eq_refl) as (c & Eo & Ec). exists k. split; [exact E|].
  apply (exec_vaddr0_panics (ops := ExecDemo.ro_tx 0) (laws := ExecDemo.ro_laws 0) (txn := ExecDemo.ro_op)
    ExecDemo.sb ExecDemo.none kend0 root0 0 ExecDemo.path ExecDemo.argv ExecDemo.fs0 k ExecDemo.me 0 0 d l own 1 tt 0
    (ExecDemo.disk 0) c ExecDemo.exec_sb_layout I Eo).
  - split; reflexivity.
  - apply ExecDemo.exec_disk_ok.
  - rewrite Ec. apply ExecDemo.prog_is_ok.
  - rewrite Ec. discriminate.
  - rewrite Ec. discriminate.
  - unfold elf_of. rewrite Ec. vm_compute. discriminate.
  - unfold elf_of. rewrite Ec. vm_compute. reflexivity.
  - unfold elf_of. rewrite Ec. vm_compute. reflexivity.
  - unfold ph_at, elf_of. rewrite Ec. vm_compute. reflexivity.
  - unfold ph_at, elf_of. rewrite Ec. vm_compute. reflexivity.
  - unfold ph_at, elf_of. rewrite Ec. split; vm_compute; reflexivity || discriminate.
  - unfold ph_at, elf_of. rewrite Ec. vm_compute. discriminate.
Defined.

Lemma exec_long_argument_faults_witness :
  push_args [replicate (Z.to_nat 20000) 97] root0 12288 [] (kmem_n 12) = Panic "trap".
Proof.
  apply (exec_long_argument_faults root0 12288 (replicate (Z.to_nat 20000) 97) [] [] (kmem_n 12)).
  - unfold MAXARG. simpl. lia.
  - discriminate.
  - rewrite length_replicate, Z2Nat.id; lia.
  - vm_compute. reflexivity.
Defined.
