(* ===== verification/Sh.v ===== *)
(** * The shell: sh.c

    The parser of command lines as functions on the characters that are left,
    with the recursion of the source under a fuel that is shown to be enough;
    the commands it builds, whose strings are pairs of positions in the line
    buffer; [nulterminate], which writes into that buffer; and [runcmd] as the
    tree of system calls of the processes it forks. *)
From S2P Require Import Prelude.

(** Characters. *)
Definition is_whitespace (c : Z) : bool :=   (* space \t \r \n \v *)
  (c =? 32) || (c =? 9) || (c =? 13) || (c =? 10) || (c =? 11).
Definition LT : Z := 60.
Definition BAR : Z := 124.
Definition GT : Z := 62.
Definition AMP : Z := 38.
Definition SEMI : Z := 59.
Definition LPAR : Z := 40.
Definition RPAR : Z := 41.
Definition PLUS : Z := 43.
Definition CHAR_a : Z := 97.
Definition is_symbol (c : Z) : bool :=
  existsb (Z.eqb c) [LT; BAR; GT; AMP; SEMI; LPAR; RPAR].
(** The characters of the default case of [gettoken]. *)
Definition is_word (c : Z) : bool := negb (is_whitespace c) && negb (is_symbol c).

Definition MAXARGS : nat := 10.
Definition O_RDONLY : Z := 0.
Definition O_WRONLY : Z := 1.
Definition O_CREATE : Z := 512.   (* 0x200 *)

(** A string in the line buffer: positions [q] and [eq]. *)
Definition token : Type := nat * nat.

(** [struct cmd] and its variants, with strings of any type. *)
Inductive cmd (W : Type) : Type :=
  | EXEC (argv : list W)
  | REDIR (c : cmd W) (file : W) (mode fd : Z)
  | PIPE (left right : cmd W)
  | LIST (left right : cmd W)
  | BACK (c : cmd W).
Arguments EXEC {W}.
Arguments REDIR {W}.
Arguments PIPE {W}.
Arguments LIST {W}.
Arguments BACK {W}.

(** ** The parser *)

Fixpoint skip (f : Z -> bool) (s : list Z) : list Z :=
  match s with
  | c :: s' => if f c then skip f s' else s
  | [] => []
  end.

(** [*s], the terminating 0 at the end. *)
Definition cur (s : list Z) : Z := match s with c :: _ => c | [] => 0 end.

Section Parser.
Variable len : nat.   (* strlen of the line *)

(** The pointer at which the characters [s] are left. *)
Definition pos (s : list Z) : nat := (len - length s)%nat.

(** The token, the string [q, eq] and the characters left. *)
Definition gettoken (s : list Z) : Z * token * list Z :=
  let s := skip is_whitespace s in
  let q := pos s in
  let '(ret, s) :=
    match s with
    | [] => (0, s)
    | c :: s' =>
        if existsb (Z.eqb c) [BAR; LPAR; RPAR; SEMI; AMP; LT] then (c, s')
        else if c =? GT then
          if cur s' =? GT then (PLUS, tail s') else (c, s')
        else (CHAR_a, skip is_word s)
    end in
  let eq := pos s in
  (ret, (q, eq), skip is_whitespace s).

(** The characters left are the state of the parser. *)
Definition P (A : Type) : Type := M (list Z) A.

Definition next : P (Z * token) := fun s =>
  let '(tok, w, s') := gettoken s in Ok ((tok, w), s').

Definition peek (toks : list Z) : P bool := fun s =>
  let s := skip is_whitespace s in
  Ok (negb (cur s =? 0) && existsb (Z.eqb (cur s)) toks, s).

(** One redirection: the arguments of [redircmd] but the command. *)
Definition redir : Type := token * Z * Z.
Definition redircmd {W} (c : cmd W) (r : W * Z * Z) : cmd W :=
  let '(file, mode, fd) := r in REDIR c file mode fd.

(** The loop of [parseredirs]: the redirections, in order; the source wraps the
    command in each of them at once. *)
Fixpoint parseredirs (fuel : nat) : P (list redir) :=
  match fuel with
  | O => out_of_fuel
  | S fuel =>
      let! b := peek [LT; GT] in
      if b then
        let! (tok, _) := next in
        let! (tok', w) := next in
        if negb (tok' =? CHAR_a) then panic "missing file for redirection"
        else
          let! rs := parseredirs fuel in
          if tok =? LT then ret ((w, O_RDONLY, 0) :: rs)
          else if tok =? GT then ret ((w, Z.lor O_WRONLY O_CREATE, 1) :: rs)
          else if tok =? PLUS then ret ((w, Z.lor O_WRONLY O_CREATE, 1) :: rs)
          else ret rs
      else ret []
  end.

(** The loop of [parseexec].  The source fills [argv] through a pointer to the
    [execcmd] that the redirections are wrapped around. *)
Fixpoint parseargs (fuel : nat) (argc : nat) : P (list token * list redir) :=
  match fuel with
  | O => out_of_fuel
  | S fuel =>
      let! b := peek [BAR; RPAR; AMP; SEMI] in
      if b then ret ([], [])
      else
        let! (tok, w) := next in
        if tok =? 0 then ret ([], [])
        else if negb (tok =? CHAR_a) then panic "syntax"
        else if (MAXARGS <=? S argc)%nat then panic "too many args"
        else
          let! rs := parseredirs fuel in
          let! (ws, rs') := parseargs fuel (S argc) in
          ret (w :: ws, rs ++ rs')
  end.

(** The loop over [&] of [parseline]. *)
Fixpoint parseback (fuel : nat) (c : cmd token) : P (cmd token) :=
  match fuel with
  | O => out_of_fuel
  | S fuel =>
      let! b := peek [AMP] in
      if b then do! next in parseback fuel (BACK c) else ret c
  end.

Fixpoint parseline (fuel : nat) : P (cmd token) :=
  match fuel with
  | O => out_of_fuel
  | S fuel =>
      let! c := parsepipe fuel in
      let! c := parseback fuel c in
      let! b := peek [SEMI] in
      if b then
        do! next in
        let! c' := parseline fuel in
        ret (LIST c c')
      else ret c
  end
with parsepipe (fuel : nat) : P (cmd token) :=
  match fuel with
  | O => out_of_fuel
  | S fuel =>
      let! c := parseexec fuel in
      let! b := peek [BAR] in
      if b then
        do! next in
        let! c' := parsepipe fuel in
        ret (PIPE c c')
      else ret c
  end
with parseexec (fuel : nat) : P (cmd token) :=
  match fuel with
  | O => out_of_fuel
  | S fuel =>
      let! b := peek [LPAR] in
      if b then parseblock fuel
      else
        let! rs := parseredirs fuel in
        let! (ws, rs') := parseargs fuel 0 in
        ret (foldl redircmd (EXEC ws) (rs ++ rs'))
  end
with parseblock (fuel : nat) : P (cmd token) :=
  match fuel with
  | O => out_of_fuel
  | S fuel =>
      let! b := peek [LPAR] in
      if negb b then panic "parseblock"
      else
        do! next in
        let! c := parseline fuel in
        let! b := peek [RPAR] in
        if negb b then panic "syntax - missing )"
        else
          do! next in
          let! rs := parseredirs fuel in
          ret (foldl redircmd c rs)
  end.
End Parser.

(** [parsecmd] up to [nulterminate], on the characters before the terminator. *)
Definition parse_fuel (s : list Z) : nat := (4 * length s + 5)%nat.
Definition parse (line : list Z) : res (cmd token) :=
  match parseline (length line) (parse_fuel line) line with
  | Ok (c, s) => if bool_decide (skip is_whitespace s = []) then Ok c else Panic "syntax"
  | Panic m => Panic m
  | Block => Block
  | Fuel => Fuel
  end.

(** [nulterminate] on the buffer, with the writes in the order of the source. *)
Fixpoint nulterminate (c : cmd token) (buf : list Z) : list Z :=
  match c with
  | EXEC argv => foldl (fun b (w : token) => <[w.2 := 0]> b) buf argv
  | REDIR c file _ _ => <[file.2 := 0]> (nulterminate c buf)
  | PIPE l r => nulterminate r (nulterminate l buf)
  | LIST l r => nulterminate r (nulterminate l buf)
  | BACK c => nulterminate c buf
  end.

(** [parsecmd]: the command and the buffer with the terminated strings. *)
Definition parsecmd (line : list Z) : res (cmd token * list Z) :=
  match parse line with
  | Ok c => Ok (c, nulterminate c (line ++ [0]))
  | Panic m => Panic m
  | Block => Block
  | Fuel => Fuel
  end.

(** ** The string a token stands for *)

Definition word_at (buf : list Z) (w : token) : list Z := take (w.2 - w.1) (drop w.1 buf).

(** A string of the parser: word characters, ended by another character. *)
Definition wf_token (buf : list Z) (w : token) : Prop :=
  (w.1 < w.2 <= length buf)%nat /\ Forall (fun c => is_word c = true) (word_at buf w) /\
  (forall c, buf !! w.2 = Some c -> is_word c = false).

Fixpoint tokens {W} (c : cmd W) : list W :=
  match c with
  | EXEC argv => argv
  | REDIR c file _ _ => tokens c ++ [file]
  | PIPE l r | LIST l r => tokens l ++ tokens r
  | BACK c => tokens c
  end.

Lemma skip_suffix f s : skip f s `suffix_of` s.
Proof.
  induction s as [|c s IH]; simpl; [done|]. destruct (f c); [|done]. by apply suffix_cons_r.
Qed.

Lemma skip_length f s : (length (skip f s) <= length s)%nat.
Proof. by apply suffix_length, skip_suffix. Qed.

Lemma skip_head f s : match skip f s with c :: _ => f c = false | [] => True end.
Proof. induction s as [|c s IH]; simpl; [done|]. by destruct (f c) eqn:E. Qed.

Lemma skip_taken f s : Forall (fun c => f c = true) (take (length s - length (skip f s)) s).
Proof.
  induction s as [|c s IH]; simpl; [constructor|]. destruct (f c) eqn:E.
  - pose proof (skip_length f s). rewrite Nat.sub_succ_l by done. simpl. by constructor.
  - simpl. rewrite Nat.sub_diag. constructor.
Qed.

Lemma skip_id f s : match s with c :: _ => f c = false | [] => True end -> skip f s = s.
Proof. destruct s; simpl; [done|]. by intros ->. Qed.

Lemma drop_suffix (s buf : list Z) : s `suffix_of` buf -> drop (length buf - length s) buf = s.
Proof.
  intros [k ->]. rewrite length_app.
  replace (length k + length s - length s)%nat with (length k) by lia. apply drop_app_length.
Qed.

Lemma word_at_suffix buf s s' :
  s `suffix_of` buf -> s' `suffix_of` s ->
  word_at buf (pos (length buf) s, pos (length buf) s') = take (length s - length s') s.
Proof.
  intros H1 H2. unfold word_at, pos. simpl. rewrite drop_suffix by done.
  apply suffix_length in H1, H2. f_equal. lia.
Qed.

Lemma is_word_symbol c : is_word c = true -> is_whitespace c = false /\ is_symbol c = false.
Proof. unfold is_word. intros [?%negb_true_iff ?%negb_true_iff]%andb_true_iff. done. Qed.

Lemma gettoken_spec buf s tok w s' :
  s `suffix_of` buf -> gettoken (length buf) s = (tok, w, s') ->
  s' `suffix_of` s /\ (tok <> 0 \/ skip is_whitespace s <> [] -> (length s' < length s)%nat) /\
  (tok = CHAR_a -> wf_token buf w).
Proof.
  intros Hs. unfold gettoken. pose proof (skip_suffix is_whitespace s) as Hk.
  pose proof (skip_head is_whitespace s) as Hh. set (s1 := skip is_whitespace s) in *.
  assert (Hs1 : s1 `suffix_of` buf) by by etrans.
  destruct s1 as [|c s2] eqn:E1.
  - intros [= <- <- <-]. split; [by destruct s|]. naive_solver.
  - assert (Hc2 : s2 `suffix_of` s) by (etrans; [|exact Hk]; by apply suffix_cons_r).
    assert (Hl : (length s2 < length s)%nat) by (apply suffix_length in Hk; simpl in Hk; lia).
    assert (Hsk : forall s3, s3 `suffix_of` s2 -> skip is_whitespace s3 `suffix_of` s /\
      (length (skip is_whitespace s3) < length s)%nat).
    { intros s3 H3. split; [etrans; [apply skip_suffix|]; by etrans|].
      pose proof (skip_length is_whitespace s3). apply suffix_length in H3. lia. }
    destruct (existsb _ _) eqn:Ex.
    { intros [= <- <- <-]. destruct (Hsk s2) as [? ?]; [done|]. split; [done|]. split; [auto|].
      intros ->. done. }
    destruct (Z.eqb_spec c GT) as [->|Hgt].
    { destruct (cur s2 =? GT); intros [= <- <- <-].
      - assert (tail s2 `suffix_of` s2) by (destruct s2; [done|by apply suffix_cons_r]).
        destruct (Hsk (tail s2)) as [? ?]; [done|]. split; [done|]. split; done.
      - destruct (Hsk s2) as [? ?]; [done|]. split; [done|]. split; done. }
    assert (Hw : is_word c = true).
    { unfold is_word. rewrite Hh. simpl. apply negb_true_iff. unfold is_symbol.
      simpl in Ex |- *. apply Z.eqb_neq in Hgt. rewrite Hgt.
      repeat (apply orb_false_iff in Ex as [? Ex]). repeat (apply orb_false_iff; split; [done|]). done. }
    cbn [skip]. rewrite Hw. intros [= <- <- <-]. pose proof (skip_suffix is_word s2) as Hk2.
    destruct (Hsk (skip is_word s2)) as [? ?]; [done|]. split; [done|]. split; [done|]. intros _.
    assert (Hsf : skip is_word s2 `suffix_of` c :: s2) by by apply suffix_cons_r.
    pose proof (suffix_length _ _ Hs1) as Hb1. simpl in Hb1. pose proof (skip_length is_word s2) as Hb2.
    split; [unfold pos; simpl; lia|]. split.
    + rewrite word_at_suffix by done. pose proof (skip_taken is_word (c :: s2)) as Ht.
      cbn [skip] in Ht. by rewrite Hw in Ht.
    + intros d Hd. unfold pos in Hd. simpl in Hd.
      assert (Hsb : skip is_word s2 `suffix_of` buf) by by etrans.
      pose proof (drop_suffix _ _ Hsb) as Ed. pose proof (skip_head is_word s2) as Hh2.
      rewrite <-(Nat.add_0_r (length buf - _)), <-lookup_drop, Ed in Hd.
      destruct (skip is_word s2); [done|]. by injection Hd as ->.
Qed.

(** ** Runs of the parser *)

(** A run returns or panics; it leaves a part of what it was given, and result
    and rest satisfy [Q]. *)
Definition runs {A} (c : P A) (s : list Z) (Q : A -> list Z -> Prop) : Prop :=
  match c s with
  | Ok (a, s') => s' `suffix_of` s /\ Q a s'
  | Panic _ => True
  | _ => False
  end.

Lemma runs_ret {A} (a : A) s (Q : A -> list Z -> Prop) : Q a s -> runs (ret a) s Q.
Proof. by split. Qed.

Lemma runs_mono {A} (c : P A) s (Q R : A -> list Z -> Prop) :
  runs c s Q -> (forall a s', s' `suffix_of` s -> Q a s' -> R a s') -> runs c s R.
Proof. unfold runs. destruct (c s) as [[a s']| | |]; naive_solver. Qed.

Lemma runs_bind {A B} (c : P A) (k : A -> P B) s Q R :
  runs c s Q -> (forall a s', s' `suffix_of` s -> Q a s' -> runs (k a) s' R) ->
  runs (bind c k) s R.
Proof.
  unfold runs, bind. destruct (c s) as [[a s']| | |]; try done. intros (H1 & H2) Hk.
  specialize (Hk a s' H1 H2). destruct (k a s') as [[r s2]| | |]; try done.
  destruct Hk as (K1 & K2). split; [by etrans|done].
Qed.

(** Skipping spaces is the only effect of [peek]. *)
Lemma runs_peek {A} toks (k : bool -> P A) s R :
  (forall s', s' `suffix_of` s -> skip is_whitespace s' = s' ->
     runs (k (negb (cur s' =? 0) && existsb (Z.eqb (cur s')) toks)) s' R) ->
  runs (bind (peek toks) k) s R.
Proof.
  intros Hk. specialize (Hk (skip is_whitespace s) (skip_suffix _ _)). unfold runs, bind, peek.
  rewrite skip_id in Hk by apply skip_head. specialize (Hk eq_refl).
  unfold runs in Hk. destruct (k _ _) as [[a s2]| | |]; try done.
  destruct Hk as (K1 & K2). split; [|done]. etrans; [done|apply skip_suffix].
Qed.

Section Line.
Variable buf : list Z.

Lemma runs_next s :
  s `suffix_of` buf ->
  runs (next (length buf)) s (fun r s' =>
    (r.1 <> 0 \/ skip is_whitespace s <> [] -> (length s' < length s)%nat) /\
    (r.1 = CHAR_a -> wf_token buf r.2)).
Proof.
  intros Hs. unfold runs, next. destruct (gettoken (length buf) s) as [[tok w] s'] eqn:E.
  by destruct (gettoken_spec _ _ _ _ _ Hs E) as (H1 & H2 & H3).
Qed.

(** A character was seen: the token takes it. *)
Lemma runs_next_seen s c :
  s `suffix_of` buf -> skip is_whitespace s = s -> negb (cur s =? 0) && c = true ->
  runs (next (length buf)) s (fun r s' => (length s' < length s)%nat).
Proof.
  intros Hs Hk Hc. eapply runs_mono; [by apply runs_next|]. intros r s' _ [Hl _]. apply Hl. right.
  rewrite Hk. intros ->. done.
Qed.

Definition redir_ok (r : redir) : Prop := wf_token buf r.1.1.

Lemma parseredirs_runs fuel : forall s,
  s `suffix_of` buf -> (length s < fuel)%nat ->
  runs (parseredirs (length buf) fuel) s (fun rs _ => Forall redir_ok rs).
Proof.
  induction fuel as [|fuel IH]; intros s Hs Hf; [lia|]. cbn [parseredirs].
  apply runs_peek. intros s1 H1 K1. destruct (_ && _) eqn:Eb; [|apply runs_ret; constructor].
  pose proof (suffix_length _ _ H1) as QH1.
  eapply runs_bind; [eapply runs_next_seen; [by etrans|done|exact Eb]|].
  intros [tok w] s2 H2 L2. simpl in L2.
  eapply runs_bind; [apply runs_next; by repeat (etrans; [eassumption|])|].
  intros [tok' w'] s3 H3 [_ Hw]. simpl in Hw. destruct (Z.eqb_spec tok' CHAR_a) as [->|]; [|done].
  cbn [negb]. pose proof (suffix_length _ _ H3) as QH3.
  eapply runs_bind; [apply IH; [by repeat (etrans; [eassumption|])|lia]|].
  intros rs s4 _ Hrs. specialize (Hw eq_refl).
  repeat (case_match; [apply runs_ret; constructor; [exact Hw|done]|]). by apply runs_ret.
Qed.

Ltac suf := by repeat (etrans; [eassumption|]).

Lemma parseargs_runs fuel : forall s argc,
  s `suffix_of` buf -> (length s < fuel)%nat ->
  runs (parseargs (length buf) fuel argc) s (fun r _ => Forall (wf_token buf) r.1 /\ Forall redir_ok r.2).
Proof.
  induction fuel as [|fuel IH]; intros s argc Hs Hf; [lia|]. cbn [parseargs].
  apply runs_peek. intros s1 H1 K1. destruct (_ && _); [by apply runs_ret|].
  pose proof (suffix_length _ _ H1) as QH1.
  eapply runs_bind; [apply runs_next; suf|]. intros [tok w] s2 H2 [L2 Hw]. simpl in L2, Hw.
  destruct (Z.eqb_spec tok 0) as [->|Hne]; [by apply runs_ret|].
  destruct (Z.eqb_spec tok CHAR_a) as [->|]; [|done]. cbn [negb].
  destruct (_ <=? _)%nat; [done|]. specialize (L2 (or_introl Hne)).
  eapply runs_bind; [apply parseredirs_runs; [suf|lia]|]. intros rs s3 H3 Hrs.
  pose proof (suffix_length _ _ H3) as QH3.
  eapply runs_bind; [apply IH; [suf|lia]|]. intros [ws rs'] s4 H4 [Hws Hrs'].
  apply runs_ret. simpl in *. split; [constructor; auto|by apply Forall_app].
Qed.

Definition cmd_ok (c : cmd token) : Prop := Forall (wf_token buf) (tokens c).

Lemma parseback_runs fuel : forall s c,
  s `suffix_of` buf -> (length s < fuel)%nat -> cmd_ok c ->
  runs (parseback (length buf) fuel c) s (fun c _ => cmd_ok c).
Proof.
  induction fuel as [|fuel IH]; intros s c Hs Hf Hc; [lia|]. cbn [parseback].
  apply runs_peek. intros s1 H1 K1. destruct (_ && _) eqn:Eb; [|by apply runs_ret].
  pose proof (suffix_length _ _ H1) as QH1.
  eapply runs_bind; [eapply runs_next_seen; [suf|done|exact Eb]|]. intros r s2 H2 L2. cbv beta in L2.
  apply IH; [suf|lia|done].
Qed.

Lemma redircmds_ok rs : forall c, cmd_ok c -> Forall redir_ok rs -> cmd_ok (foldl redircmd c rs).
Proof.
  induction rs as [|[[w m] fd] rs IH]; intros c Hc Hrs; [done|].
  apply Forall_cons in Hrs as [Hr Hrs]. apply IH; [|done].
  unfold cmd_ok. cbn [redircmd tokens]. apply Forall_app. split; [done|by constructor].
Qed.

Lemma parser_runs n : forall s fuel, s `suffix_of` buf -> length s = n ->
  ((4 * n + 4 <= fuel)%nat -> runs (parseline (length buf) fuel) s (fun c _ => cmd_ok c)) /\
  ((4 * n + 3 <= fuel)%nat -> runs (parsepipe (length buf) fuel) s (fun c _ => cmd_ok c)) /\
  ((4 * n + 2 <= fuel)%nat -> runs (parseexec (length buf) fuel) s (fun c _ => cmd_ok c)) /\
  ((4 * n + 1 <= fuel)%nat -> runs (parseblock (length buf) fuel) s (fun c _ => cmd_ok c)).
Proof.
  induction n as [n IH] using lt_wf_ind.
  assert (Hb : forall s fuel, s `suffix_of` buf -> (length s <= n)%nat -> (4 * length s + 1 <= fuel)%nat ->
    runs (parseblock (length buf) fuel) s (fun c _ => cmd_ok c)).
  { intros s [|fuel] Hs Hn Hf; [lia|]. cbn [parseblock].
    apply runs_peek. intros s1 H1 K1. destruct (_ && _) eqn:Eb; [|done]. cbn [negb].
    pose proof (suffix_length _ _ H1) as QH1.
    eapply runs_bind; [eapply runs_next_seen; [suf|done|exact Eb]|]. intros r s2 H2 L2. cbv beta in L2. clear Eb.
    eapply runs_bind; [apply (IH (length s2)); [lia|suf|done|lia]|]. intros c s3 H3 Hc.
    apply runs_peek. intros s4 H4 K4. destruct (_ && _) eqn:Eb2; [|done]. cbn [negb].
    pose proof (suffix_length _ _ H3) as QH3. pose proof (suffix_length _ _ H4) as QH4.
    eapply runs_bind; [eapply runs_next_seen; [suf|done|exact Eb2]|]. intros r5 s5 H6 L5. cbv beta in L5.
    eapply runs_bind; [apply parseredirs_runs; [suf|lia]|]. intros rs s6 _ Hrs.
    apply runs_ret. by apply redircmds_ok. }
  assert (He : forall s fuel, s `suffix_of` buf -> (length s <= n)%nat -> (4 * length s + 2 <= fuel)%nat ->
    runs (parseexec (length buf) fuel) s (fun c _ => cmd_ok c)).
  { intros s [|fuel] Hs Hn Hf; [lia|]. cbn [parseexec].
    apply runs_peek. intros s1 H1 K1. pose proof (suffix_length _ _ H1) as QH1.
    destruct (_ && _); [apply Hb; [suf|lia..]|].
    eapply runs_bind; [apply parseredirs_runs; [suf|lia]|]. intros rs s2 H2 Hrs.
    pose proof (suffix_length _ _ H2) as QH2.
    eapply runs_bind; [apply parseargs_runs; [suf|lia]|]. intros [ws rs'] s3 H3 [Hws Hrs'].
    apply runs_ret. apply redircmds_ok; [done|by apply Forall_app]. }
  assert (Hp : forall s fuel, s `suffix_of` buf -> (length s <= n)%nat -> (4 * length s + 3 <= fuel)%nat ->
    runs (parsepipe (length buf) fuel) s (fun c _ => cmd_ok c)).
  { intros s [|fuel] Hs Hn Hf; [lia|]. cbn [parsepipe].
    eapply runs_bind; [apply He; [done|lia..]|]. intros c s1 H1 Hc.
    apply runs_peek. intros s2 H2 K2. destruct (_ && _) eqn:Eb; [|by apply runs_ret].
    pose proof (suffix_length _ _ H1) as QH1. pose proof (suffix_length _ _ H2) as QH2.
    eapply runs_bind; [eapply runs_next_seen; [suf|done|exact Eb]|]. intros r s3 H3 L3. cbv beta in L3.
    eapply runs_bind; [apply (IH (length s3)); [lia|suf|done|lia]|]. intros c' s4 _ Hc'.
    apply runs_ret. unfold cmd_ok. simpl. by apply Forall_app. }
  intros s fuel Hs Hn. split; [|split; [|split]]; [|intros; by apply Hp; rewrite ?Hn..|intros; by apply He; rewrite ?Hn|intros; by apply Hb; rewrite ?Hn].
  intros Hf. destruct fuel as [|fuel]; [lia|]. cbn [parseline].
  eapply runs_bind; [apply Hp; [done|lia..]|]. intros c s1 H1 Hc. pose proof (suffix_length _ _ H1) as QH1.
  eapply runs_bind; [apply parseback_runs; [suf|lia|done]|]. intros c1 s2 H2 Hc1.
  apply runs_peek. intros s3 H3 K3. destruct (_ && _) eqn:Eb; [|by apply runs_ret].
  pose proof (suffix_length _ _ H2) as QH2. pose proof (suffix_length _ _ H3) as QH3.
  eapply runs_bind; [eapply runs_next_seen; [suf|done|exact Eb]|]. intros r s4 H4 L4. cbv beta in L4.
  eapply runs_bind; [apply (IH (length s4)); [lia|suf|done|lia]|]. intros c' s5 _ Hc'.
  apply runs_ret. unfold cmd_ok. simpl. by apply Forall_app.
Qed.
End Line.

Lemma parse_runs line :
  match parse line with
  | Ok c => cmd_ok line c
  | Panic _ => True
  | _ => False
  end.
Proof.
  destruct (parser_runs line (length line) line (parse_fuel line)) as [H _]; [done..|].
  specialize (H ltac:(unfold parse_fuel; lia)). unfold runs in H. unfold parse.
  destruct (parseline _ _ _) as [[c s]| | |]; try done. case_bool_decide; [|done]. apply H.
Qed.

(** ** nulterminate *)

(** The bytes from a position to the next 0. *)
Fixpoint cstr (l : list Z) : list Z :=
  match l with
  | [] => []
  | c :: l => if c =? 0 then [] else c :: cstr l
  end.

(** The positions it writes. *)
Lemma nulterminate_lookup c : forall buf i,
  nulterminate c buf !! i =
  if decide (Exists (fun w : token => w.2 = i) (tokens c)) then (fun _ => 0) <$> (buf !! i) else buf !! i.
Proof.
  assert (Hset : forall (buf : list Z) i j, <[j := 0]> buf !! i =
    if decide (j = i) then (fun _ => 0) <$> (buf !! i) else buf !! i).
  { intros buf i j. case_decide as D; [subst|by rewrite list_lookup_insert_ne].
    destruct (buf !! i) eqn:E; simpl.
    - apply list_lookup_insert_eq. by apply lookup_lt_Some in E.
    - apply lookup_ge_None in E. by rewrite list_insert_ge, lookup_ge_None_2. }
  assert (Hexec : forall ws (buf : list Z) i, foldl (fun b (w : token) => <[w.2 := 0]> b) buf ws !! i =
    if decide (Exists (fun w : token => w.2 = i) ws) then (fun _ => 0) <$> (buf !! i) else buf !! i).
  { induction ws as [|w ws IH]; intros buf i; cbn [foldl].
    - rewrite decide_False; [done|]. by intros ?%Exists_nil.
    - rewrite IH, Hset. repeat case_decide; rewrite ?Exists_cons in *; try tauto; by destruct (buf !! i). }
  induction c as [ws|c IH w m fd|l IHl r IHr|l IHl r IHr|c IH]; intros buf i; cbn [nulterminate tokens].
  - apply Hexec.
  - rewrite Hset, IH. repeat case_decide; rewrite ?Exists_app, ?Exists_cons, ?Exists_nil in *;
      try tauto; by destruct (buf !! i).
  - rewrite IHr, IHl. repeat case_decide; rewrite ?Exists_app in *; try tauto; by destruct (buf !! i).
  - rewrite IHr, IHl. repeat case_decide; rewrite ?Exists_app in *; try tauto; by destruct (buf !! i).
  - apply IH.
Qed.

Lemma cstr_word (l rest : list Z) :
  Forall (fun c => c <> 0) l -> cur rest = 0 -> cstr (l ++ rest) = l.
Proof.
  intros Hl Hr. induction Hl as [|c l Hc _ IH]; simpl.
  - destruct rest as [|r rest]; [done|]. simpl in Hr. by subst.
  - destruct (Z.eqb_spec c 0); [done|]. by rewrite IH.
Qed.

Lemma cur_drop (l : list Z) i : cur (drop i l) = default 0 (l !! i).
Proof. rewrite <-(Nat.add_0_r i) at 2. rewrite <-lookup_drop. by destruct (drop i l). Qed.

(** Parsing a line, the strings of the command are what [gettoken] saw:
    after [nulterminate] has overwritten the byte behind every string, the C
    string at the start of each is the word of the line, and no terminator
    falls into another word. *)
Theorem parsecmd_strings (line : list Z) c buf :
  Forall (fun x => x <> 0) line -> parsecmd line = Ok (c, buf) ->
  Forall (fun w => cstr (drop w.1 buf) = word_at line w /\ word_at line w <> []) (tokens c).
Proof.
  intros Hnz. unfold parsecmd. pose proof (parse_runs line) as Hp.
  destruct (parse line) as [c'| | |]; try done. intros [= -> <-].
  unfold cmd_ok in Hp. rewrite Forall_forall in Hp |- *. intros w Hw.
  destruct (Hp w Hw) as (Hr & Hword & Hend).
  set (buf := nulterminate c (line ++ [0])).
  assert (Hin : forall i x, line !! i = Some x -> is_word x = true -> buf !! i = Some x).
  { intros i x Hi Hx. unfold buf. rewrite nulterminate_lookup, lookup_app_l by (by eapply lookup_lt_Some).
    case_decide as D; [|done]. apply Exists_exists in D as (v & Hv & <-).
    destruct (Hp v Hv) as (_ & _ & He). rewrite (He x Hi) in Hx. done. }
  assert (Hz : cur (drop w.2 buf) = 0).
  { rewrite cur_drop. unfold buf. rewrite nulterminate_lookup, decide_True.
    - by destruct ((line ++ [0]) !! w.2).
    - apply Exists_exists. by exists w. }
  assert (Hl : length (word_at line w) = (w.2 - w.1)%nat).
  { unfold word_at. rewrite length_take, length_drop. lia. }
  assert (Hsame : drop w.1 buf = word_at line w ++ drop w.2 buf).
  { rewrite <-(take_drop (w.2 - w.1) (drop w.1 buf)), drop_drop.
    replace (w.1 + (w.2 - w.1))%nat with w.2 by lia. f_equal. apply list_eq. intros i.
    destruct (decide (i < w.2 - w.1)%nat) as [Hi|Hi].
    - unfold word_at. rewrite !lookup_take_lt, !lookup_drop by done.
      destruct (lookup_lt_is_Some_2 line (w.1 + i)) as [x Hx]; [lia|]. rewrite Hx. apply Hin; [done|].
      rewrite Forall_forall in Hword. apply Hword. apply list_elem_of_lookup_2 with i.
      unfold word_at. by rewrite lookup_take_lt, lookup_drop by done.
    - rewrite !lookup_ge_None_2; [done|lia|]. rewrite length_take. lia. }
  split; [|intros E; rewrite E in Hl; simpl in Hl; lia].
  rewrite Hsame. apply cstr_word; [|done].
  unfold word_at. by apply Forall_take, Forall_drop.
Qed.

(** C40: [parsecmd] terminates: on every line the recursion and the loops of the
    parser end, with a command or with a syntax error; the fuel of the model is
    never the reason to stop. *)
Theorem parsecmd_terminates (line : list Z) :
  (exists c buf, parsecmd line = Ok (c, buf)) \/ (exists m, parsecmd line = Panic m).
Proof.
  unfold parsecmd. pose proof (parse_runs line). destruct (parse line); try done; eauto.
Qed.

(** ** Printing commands *)

(** The grammar of command lines. *)
Inductive line : Type :=
  | LEnd (p : pipeline) (amps : nat)
  | LSeq (p : pipeline) (amps : nat) (l : line)
with pipeline : Type :=
  | POne (e : simple)
  | PBar (e : simple) (p : pipeline)
with simple : Type :=
  | SCmd (rs : list (Z * list Z)) (args : list (list Z * list (Z * list Z)))
  | SBlock (l : line) (rs : list (Z * list Z)).

Scheme line_ind' := Induction for line Sort Prop
  with pipeline_ind' := Induction for pipeline Sort Prop
  with simple_ind' := Induction for simple Sort Prop.
Combined Scheme line_mutind from line_ind', pipeline_ind', simple_ind'.

(** Text, every token followed by a space. *)
Definition print_redir (r : Z * list Z) : list Z :=
  (if r.1 =? PLUS then [GT; GT] else [r.1]) ++ [32] ++ r.2 ++ [32].
Definition print_arg (a : list Z * list (Z * list Z)) : list Z :=
  a.1 ++ [32] ++ concat (map print_redir a.2).

Fixpoint print_line (l : line) : list Z :=
  match l with
  | LEnd p n => print_pipe p ++ concat (replicate n [AMP; 32])
  | LSeq p n l => print_pipe p ++ concat (replicate n [AMP; 32]) ++ [SEMI; 32] ++ print_line l
  end
with print_pipe (p : pipeline) : list Z :=
  match p with
  | POne e => print_simple e
  | PBar e p => print_simple e ++ [BAR; 32] ++ print_pipe p
  end
with print_simple (e : simple) : list Z :=
  match e with
  | SCmd rs args => concat (map print_redir rs) ++ concat (map print_arg args)
  | SBlock l rs => [LPAR; 32] ++ print_line l ++ [RPAR; 32] ++ concat (map print_redir rs)
  end.

(** The command a line means. *)
Definition den_redir (r : Z * list Z) : list Z * Z * Z :=
  if r.1 =? LT then (r.2, O_RDONLY, 0) else (r.2, Z.lor O_WRONLY O_CREATE, 1).

Fixpoint den_line (l : line) : cmd (list Z) :=
  match l with
  | LEnd p n => Nat.iter n BACK (den_pipe p)
  | LSeq p n l => LIST (Nat.iter n BACK (den_pipe p)) (den_line l)
  end
with den_pipe (p : pipeline) : cmd (list Z) :=
  match p with
  | POne e => den_simple e
  | PBar e p => PIPE (den_simple e) (den_pipe p)
  end
with den_simple (e : simple) : cmd (list Z) :=
  match e with
  | SCmd rs args =>
      foldl redircmd (EXEC (map fst args)) (map den_redir rs ++ concat (map (fun a => map den_redir a.2) args))
  | SBlock l rs => foldl redircmd (den_line l) (map den_redir rs)
  end.

Definition word_ok (w : list Z) : Prop := w <> [] /\ Forall (fun c => is_word c = true) w.
Definition redir_wf (r : Z * list Z) : Prop := (r.1 = LT \/ r.1 = GT \/ r.1 = PLUS) /\ word_ok r.2.
Definition arg_wf (a : list Z * list (Z * list Z)) : Prop := word_ok a.1 /\ Forall redir_wf a.2.

(** Fewer than [MAXARGS] arguments, and words of word characters. *)
Fixpoint line_wf (l : line) : Prop :=
  match l with
  | LEnd p _ => pipe_wf p
  | LSeq p _ l => pipe_wf p /\ line_wf l
  end
with pipe_wf (p : pipeline) : Prop :=
  match p with
  | POne e => simple_wf e
  | PBar e p => simple_wf e /\ pipe_wf p
  end
with simple_wf (e : simple) : Prop :=
  match e with
  | SCmd rs args => Forall redir_wf rs /\ Forall arg_wf args /\ (length args < MAXARGS)%nat
  | SBlock l rs => line_wf l /\ Forall redir_wf rs
  end.

Fixpoint cmd_map {V W} (f : V -> W) (c : cmd V) : cmd W :=
  match c with
  | EXEC argv => EXEC (map f argv)
  | REDIR c file mode fd => REDIR (cmd_map f c) (f file) mode fd
  | PIPE l r => PIPE (cmd_map f l) (cmd_map f r)
  | LIST l r => LIST (cmd_map f l) (cmd_map f r)
  | BACK c => BACK (cmd_map f c)
  end.

Lemma cmd_map_redirs {V W} (f : V -> W) rs : forall c : cmd V,
  cmd_map f (foldl redircmd c rs) = foldl redircmd (cmd_map f c) (map (fun r => (f r.1.1, r.1.2, r.2)) rs).
Proof. induction rs as [|[[w m] fd] rs IH]; intros c; [done|]. simpl. by rewrite IH. Qed.

(** What follows: the end or one of some characters. *)
Definition ends (toks : list Z) (s : list Z) : Prop := s = [] \/ exists c p, s = c :: p /\ c ∈ toks.

Lemma ends_clean toks s :
  forallb (fun c => negb (is_whitespace c)) toks = true -> ends toks s -> skip is_whitespace s = s.
Proof.
  rewrite forallb_forall. intros Ht [->|(c & p & -> & Hc)]; [done|].
  apply list_elem_of_In, Ht, negb_true_iff in Hc. simpl. by rewrite Hc.
Qed.

Lemma peek_no toks all s :
  forallb (fun c => negb (is_whitespace c) && negb (existsb (Z.eqb c) toks)) all = true ->
  ends all s -> peek toks s = Ok (false, s).
Proof.
  rewrite forallb_forall. intros Ha [->|(c & p & -> & Hc)]; [done|].
  apply list_elem_of_In, Ha in Hc. apply andb_true_iff in Hc as [Hw%negb_true_iff Hc%negb_true_iff].
  unfold peek. simpl. rewrite Hw. simpl. by rewrite Hc, andb_false_r.
Qed.

Lemma peek_yes toks c p :
  is_whitespace c = false -> c <> 0 -> existsb (Z.eqb c) toks = true ->
  peek toks (c :: p) = Ok (true, c :: p).
Proof.
  intros Hw Hz Hc. unfold peek. simpl. rewrite Hw. simpl. apply Z.eqb_neq in Hz as ->. by rewrite Hc.
Qed.

Lemma peek_word toks w s :
  forallb is_symbol toks = true -> word_ok w -> peek toks (w ++ s) = Ok (false, w ++ s).
Proof.
  rewrite forallb_forall. intros Ht [Hn Hw]. destruct w as [|c w]; [done|].
  apply Forall_cons in Hw as [[Hc Hs]%is_word_symbol _]. unfold peek. simpl. rewrite Hc. simpl.
  assert (existsb (Z.eqb c) toks = false) as ->; [|by rewrite andb_false_r].
  apply not_true_iff_false. intros (x & Hx & ->%Z.eqb_eq)%existsb_exists. by rewrite Ht in Hs.
Qed.

Section RoundTrip.
Variable buf : list Z.
Notation len := (length buf).

Lemma skip_space s : skip is_whitespace s = s -> skip is_whitespace (32 :: s) = s.
Proof. done. Qed.

Lemma word_nonws w s : word_ok w -> skip is_whitespace (w ++ s) = w ++ s.
Proof.
  intros [Hn Hw]. destruct w as [|c w]; [done|]. apply Forall_cons in Hw as [Hc _].
  apply is_word_symbol in Hc as [Hc _]. simpl. by rewrite Hc.
Qed.

Lemma skip_word w s : Forall (fun c => is_word c = true) w -> skip is_word (w ++ 32 :: s) = 32 :: s.
Proof. intros Hw. induction Hw as [|c w Hc _ IH]; [done|]. simpl. by rewrite Hc. Qed.

Lemma next_word w s :
  word_ok w -> (w ++ 32 :: s) `suffix_of` buf -> skip is_whitespace s = s ->
  exists t, next len (w ++ 32 :: s) = Ok ((CHAR_a, t), s) /\ word_at buf t = w.
Proof.
  intros Hw Hs Hk. pose proof (word_nonws w (32 :: s) Hw) as Hn. destruct Hw as [Hne Hw].
  unfold next, gettoken. rewrite Hn. destruct w as [|c w]; [done|].
  pose proof Hw as Hw'. apply Forall_cons in Hw' as [Hc _]. pose proof (is_word_symbol _ Hc) as [_ Hsy].
  cbn [app]. assert (existsb (Z.eqb c) [BAR; LPAR; RPAR; SEMI; AMP; LT] = false /\ c <> GT) as [-> Hg].
  { unfold is_symbol in Hsy. simpl in Hsy |- *. repeat (apply orb_false_iff in Hsy as [? Hsy]).
    split; [|by apply Z.eqb_neq]. repeat (apply orb_false_iff; split; [done|]). done. }
  apply Z.eqb_neq in Hg as ->. change (c :: w ++ 32 :: s) with ((c :: w) ++ 32 :: s).
  rewrite (skip_word (c :: w) s Hw). rewrite skip_space by done. eexists. split; [reflexivity|].
  rewrite word_at_suffix; [|done|by apply suffix_app_r].
  rewrite length_app. replace (_ - _)%nat with (length (c :: w)) by lia. by rewrite take_app_length.
Qed.

Lemma next_symbol c s :
  c ∈ [BAR; LPAR; RPAR; SEMI; AMP; LT] -> skip is_whitespace s = s ->
  exists t, next len (c :: 32 :: s) = Ok ((c, t), s).
Proof.
  intros Hc Hk. unfold next, gettoken.
  assert (is_whitespace c = false /\ existsb (Z.eqb c) [BAR; LPAR; RPAR; SEMI; AMP; LT] = true) as [Hw He].
  { repeat (apply elem_of_cons in Hc as [->|Hc]; [done|]). by apply elem_of_nil in Hc. }
  cbn [skip]. rewrite Hw, He. rewrite skip_space by done. by eexists.
Qed.

Lemma next_redir op s :
  op = LT \/ op = GT \/ op = PLUS -> skip is_whitespace s = s ->
  exists t, next len ((if op =? PLUS then [GT; GT] else [op]) ++ 32 :: s) = Ok ((op, t), s).
Proof.
  intros Hop Hk. destruct Hop as [->|[->| ->]]; unfold next, gettoken; simpl; rewrite Hk; by eexists.
Qed.

(** Resolve the strings of redirections. *)
Definition res_redirs (rs : list redir) : list (list Z * Z * Z) :=
  map (fun r => (word_at buf r.1.1, r.1.2, r.2)) rs.

Lemma res_redirs_app a b : res_redirs (a ++ b) = res_redirs a ++ res_redirs b.
Proof. apply map_app. Qed.

Lemma print_redir_cons r s :
  print_redir r ++ s = (if r.1 =? PLUS then [GT; GT] else [r.1]) ++ 32 :: (r.2 ++ 32 :: s).
Proof. unfold print_redir. by rewrite <-!app_assoc. Qed.

Lemma peek_redir r s : redir_wf r -> peek [LT; GT] (print_redir r ++ s) = Ok (true, print_redir r ++ s).
Proof.
  intros [Hop _]. rewrite print_redir_cons.
  destruct Hop as [->|[->| ->]]; simpl; by apply peek_yes.
Qed.

Lemma parseredirs_print rs : forall fuel post,
  Forall redir_wf rs -> (length (concat (map print_redir rs) ++ post) < fuel)%nat ->
  (concat (map print_redir rs) ++ post) `suffix_of` buf ->
  skip is_whitespace post = post -> peek [LT; GT] post = Ok (false, post) ->
  exists rs', parseredirs len fuel (concat (map print_redir rs) ++ post) = Ok (rs', post) /\
    res_redirs rs' = map den_redir rs.
Proof.
  induction rs as [|r rs IH]; intros fuel post Hrs Hf Hs Hk Hp;
    (destruct fuel as [|fuel]; [lia|]); cbn [map concat parseredirs].
  - exists []. rewrite app_nil_l. by rewrite (bind_Ok _ _ _ _ _ Hp).
  - apply Forall_cons in Hrs as [Hr Hrs]. cbn [map concat] in Hf, Hs. rewrite <-app_assoc in Hf, Hs |- *.
    set (tl := concat (map print_redir rs) ++ post) in *.
    assert (Htl : skip is_whitespace tl = tl).
    { unfold tl. destruct rs as [|r' rs']; [done|]. apply Forall_cons in Hrs as [[Hop _] _].
      cbn [map concat]. rewrite <-app_assoc, print_redir_cons. by destruct Hop as [->|[->| ->]]. }
    rewrite (bind_Ok _ _ _ _ _ (peek_redir r tl Hr)). rewrite print_redir_cons in Hf, Hs |- *.
    destruct Hr as [Hop Hw]. destruct (next_redir r.1 (r.2 ++ 32 :: tl) Hop) as [t Et]; [by apply word_nonws|].
    rewrite (bind_Ok _ _ _ _ _ Et).
    destruct (next_word r.2 tl Hw) as (t' & Et' & Ew); [|done|].
    { etrans; [|exact Hs]. apply suffix_app_r. by apply suffix_cons_r. }
    rewrite (bind_Ok _ _ _ _ _ Et'). cbn [negb]. change (CHAR_a =? CHAR_a) with true. cbn [negb].
    rewrite !length_app in Hf. cbn [length] in Hf. rewrite length_app in Hf. cbn [length] in Hf.
    destruct (IH fuel post Hrs) as (rs' & Er & Em); [fold tl; lia| |done..|].
    { etrans; [|exact Hs]. fold tl. apply suffix_app_r, suffix_cons_r, suffix_app_r. by apply suffix_cons_r. }
    fold tl in Er. rewrite (bind_Ok _ _ _ _ _ Er).
    destruct Hop as [Eo|[Eo|Eo]]; rewrite Eo; simpl; (eexists; split; [reflexivity|]);
      unfold den_redir; simpl; rewrite Em, Eo, Ew; done.
Qed.

Definition after_exec : list Z := [BAR; RPAR; AMP; SEMI].

Lemma ends_mono l1 l2 s : (forall c, c ∈ l1 -> c ∈ l2) -> ends l1 s -> ends l2 s.
Proof. intros Hl [->|(c & p & -> & Hc)]; [by left|]. right. eauto. Qed.

Lemma arg_cons a s :
  print_arg a ++ s = a.1 ++ 32 :: (concat (map print_redir a.2) ++ s).
Proof. unfold print_arg. by rewrite <-!app_assoc. Qed.

(** The text of further arguments does not look like a redirection. *)
Lemma args_next args post :
  Forall arg_wf args -> ends after_exec post ->
  let s := concat (map print_arg args) ++ post in
  skip is_whitespace s = s /\ peek [LT; GT] s = Ok (false, s) /\ peek [LPAR] s = Ok (false, s).
Proof.
  intros Ha Hp. destruct args as [|a args]; simpl.
  - split; [by apply (ends_clean after_exec)|]. split; by apply (peek_no _ after_exec).
  - apply Forall_cons in Ha as [[Hw _] _]. rewrite <-app_assoc, arg_cons.
    split; [by apply word_nonws|]. split; by apply peek_word.
Qed.

Lemma parseargs_print args : forall fuel argc post,
  Forall arg_wf args -> (argc + length args < MAXARGS)%nat ->
  (length (concat (map print_arg args) ++ post) < fuel)%nat ->
  (concat (map print_arg args) ++ post) `suffix_of` buf -> ends after_exec post ->
  exists ws rs, parseargs len fuel argc (concat (map print_arg args) ++ post) = Ok ((ws, rs), post) /\
    map (word_at buf) ws = map fst args /\
    res_redirs rs = concat (map (fun a => map den_redir a.2) args).
Proof.
  induction args as [|a args IH]; intros fuel argc post Ha Hc Hf Hs Hp;
    (destruct fuel as [|fuel]; [lia|]); cbn [map concat parseargs].
  - exists [], []. rewrite app_nil_l. destruct Hp as [->|(c & p & -> & Hin)].
    + done.
    + rewrite (bind_Ok (peek _) _ _ true (c :: p)); [done|].
      repeat (apply elem_of_cons in Hin as [->|Hin]; [done|]). by apply elem_of_nil in Hin.
  - apply Forall_cons in Ha as [[Hw Hrs] Ha]. cbn [map concat] in Hf, Hs.
    rewrite <-app_assoc, arg_cons in Hf, Hs |- *.
    set (tl := concat (map print_arg args) ++ post) in *.
    destruct (args_next args post Ha Hp) as (Hk & Hpk & _). fold tl in Hk, Hpk.
    set (rtl := concat (map print_redir a.2) ++ tl) in *.
    rewrite (bind_Ok _ _ _ _ _ (peek_word [BAR; RPAR; AMP; SEMI] a.1 _ eq_refl Hw)).
    assert (Hkr : skip is_whitespace rtl = rtl).
    { unfold rtl. destruct a.2 as [|r rs]; [done|]. apply Forall_cons in Hrs as [[Hop _] _].
      cbn [map concat]. rewrite <-app_assoc, print_redir_cons. by destruct Hop as [->|[->| ->]]. }
    destruct (next_word a.1 rtl Hw Hs Hkr) as (t & Et & Ew). rewrite (bind_Ok _ _ _ _ _ Et).
    change (CHAR_a =? 0) with false. change (CHAR_a =? CHAR_a) with true. cbn [negb].
    cbn [length] in Hc. destruct (Nat.leb_spec MAXARGS (S argc)); [lia|].
    rewrite length_app in Hf. cbn [length] in Hf.
    assert (Hs' : rtl `suffix_of` buf).
    { etrans; [|exact Hs]. apply suffix_app_r. by apply suffix_cons_r. }
    assert (Hl : (length rtl < fuel)%nat) by lia.
    destruct (parseredirs_print a.2 fuel tl Hrs Hl Hs' Hk Hpk) as (rs' & Er & Em). fold rtl in Er.
    rewrite (bind_Ok _ _ _ _ _ Er).
    destruct (IH fuel (S argc) post Ha) as (ws & rs & Ea & Ews & Ers); [lia| | |done|].
    { fold tl. unfold rtl in Hl. rewrite length_app in Hl. lia. }
    { etrans; [|exact Hs']. by apply suffix_app_r. }
    fold tl in Ea. rewrite (bind_Ok _ _ _ _ _ Ea).
    exists (t :: ws), (rs' ++ rs). split; [done|]. split; [by simpl; rewrite Ew, Ews|].
    by rewrite res_redirs_app, Em, Ers.
Qed.

Lemma parseback_print n : forall fuel c post,
  (n < fuel)%nat -> ends [RPAR; SEMI] post ->
  parseback len fuel c (concat (replicate n [AMP; 32]) ++ post) = Ok (Nat.iter n BACK c, post).
Proof.
  induction n as [|n IH]; intros fuel c post Hf Hp; (destruct fuel as [|fuel]; [lia|]); cbn [parseback].
  - simpl. by rewrite (bind_Ok _ _ _ _ _ (peek_no [AMP] [RPAR; SEMI] post eq_refl Hp)).
  - cbn [replicate concat app]. rewrite (bind_Ok (peek _) _ _ true (AMP :: 32 :: concat (replicate n [AMP; 32]) ++ post))
      by by apply peek_yes.
    destruct (next_symbol AMP (concat (replicate n [AMP; 32]) ++ post)) as [t Et]; [set_solver| |].
    { destruct n; [by apply (ends_clean [RPAR; SEMI])|done]. }
    rewrite (bind_Ok _ _ _ _ _ Et), IH by (done || lia). by rewrite Nat.iter_succ_r.
Qed.

(** A part of a line that parses back to a command, for all fuel that is enough
    and before all that may follow. *)
Definition parses_back (parser : nat -> P (cmd token)) (k : nat) (follow text : list Z)
    (c : cmd (list Z)) : Prop :=
  forall fuel post, ends follow post -> (text ++ post) `suffix_of` buf ->
    (4 * length (text ++ post) + k <= fuel)%nat ->
    exists c', parser fuel (text ++ post) = Ok (c', post) /\ cmd_map (word_at buf) c' = c.

Lemma simple_print rs args :
  simple_wf (SCmd rs args) ->
  parses_back (parseexec len) 2 after_exec (print_simple (SCmd rs args)) (den_simple (SCmd rs args)).
Proof.
  intros (Hrs & Ha & Hm) fuel post Hp Hs Hf. destruct fuel as [|fuel]; [lia|].
  cbn [print_simple parseexec den_simple] in *. rewrite <-app_assoc in Hf, Hs |- *.
  destruct (args_next args post Ha Hp) as (Hk & Hpk & Hpl).
  set (tl := concat (map print_arg args) ++ post) in *.
  assert (Hpeek : peek [LPAR] (concat (map print_redir rs) ++ tl) = Ok (false, concat (map print_redir rs) ++ tl)).
  { destruct rs as [|r rs']; [done|]. apply Forall_cons in Hrs as [[Hop _] _]. cbn [map concat].
    rewrite <-app_assoc, print_redir_cons. by destruct Hop as [->|[->| ->]]. }
  rewrite (bind_Ok _ _ _ _ _ Hpeek).
  assert (Hl : (length (concat (map print_redir rs) ++ tl) < fuel)%nat) by lia.
  destruct (parseredirs_print rs fuel tl Hrs Hl Hs Hk Hpk) as (rs1 & Er & Em).
  rewrite (bind_Ok _ _ _ _ _ Er).
  destruct (parseargs_print args fuel 0 post Ha) as (ws & rs2 & Ea & Ews & Ers); [lia| | |done|].
  { fold tl. rewrite length_app in Hl. lia. }
  { etrans; [|exact Hs]. by apply suffix_app_r. }
  fold tl in Ea. rewrite (bind_Ok _ _ _ _ _ Ea). eexists. split; [reflexivity|].
  rewrite cmd_map_redirs. cbn [cmd_map]. rewrite Ews. f_equal.
  change (res_redirs (rs1 ++ rs2) = map den_redir rs ++ concat (map (fun a => map den_redir a.2) args)).
  by rewrite res_redirs_app, Em, Ers.
Qed.

Lemma block_print l rs :
  parses_back (parseline len) 4 [RPAR] (print_line l) (den_line l) -> Forall redir_wf rs ->
  (forall s, skip is_whitespace (print_line l ++ RPAR :: s) = print_line l ++ RPAR :: s) ->
  parses_back (parseexec len) 2 after_exec (print_simple (SBlock l rs)) (den_simple (SBlock l rs)).
Proof.
  intros IH Hrs Hsk fuel post Hp Hs Hf. destruct fuel as [|[|fuel]]; [lia..|].
  cbn [print_simple den_simple] in *.
  set (rtl := concat (map print_redir rs) ++ post).
  assert (Etext : ([LPAR; 32] ++ print_line l ++ [RPAR; 32] ++ concat (map print_redir rs)) ++ post =
    LPAR :: 32 :: (print_line l ++ RPAR :: 32 :: rtl)).
  { simpl. unfold rtl. by rewrite <-app_assoc. }
  rewrite Etext in Hs, Hf |- *. clear Etext. cbn [parseexec].
  rewrite (bind_Ok (peek _) _ _ true (LPAR :: 32 :: (print_line l ++ RPAR :: 32 :: rtl))) by by apply peek_yes.
  cbn [parseblock].
  rewrite (bind_Ok (peek _) _ _ true (LPAR :: 32 :: (print_line l ++ RPAR :: 32 :: rtl))) by by apply peek_yes.
  cbn [negb]. destruct (next_symbol LPAR (print_line l ++ RPAR :: 32 :: rtl)) as [t Et]; [set_solver|apply Hsk|].
  rewrite (bind_Ok _ _ _ _ _ Et). cbn [length] in Hf.
  destruct (IH fuel (RPAR :: 32 :: rtl)) as (c & Ec & Em).
  { right. eexists _, _. split; [done|]. by left. }
  { etrans; [|exact Hs]. by apply suffix_cons_r, suffix_cons_r. }
  { lia. }
  rewrite (bind_Ok _ _ _ _ _ Ec).
  rewrite (bind_Ok (peek _) _ _ true (RPAR :: 32 :: rtl)) by by apply peek_yes. cbn [negb].
  assert (Hkp : skip is_whitespace post = post) by by apply (ends_clean after_exec).
  assert (Hkr : skip is_whitespace rtl = rtl).
  { unfold rtl. destruct rs as [|r rs']; [done|]. apply Forall_cons in Hrs as [[Hop _] _].
    cbn [map concat]. rewrite <-app_assoc, print_redir_cons. by destruct Hop as [->|[->| ->]]. }
  destruct (next_symbol RPAR rtl) as [t2 Et2]; [set_solver|done|].
  rewrite (bind_Ok _ _ _ _ _ Et2). rewrite length_app in Hf. cbn [length] in Hf.
  destruct (parseredirs_print rs fuel post Hrs) as (rs' & Er & Emr); [fold rtl; lia| |done|by apply (peek_no _ after_exec)|].
  { etrans; [|exact Hs]. fold rtl. apply suffix_cons_r, suffix_cons_r, suffix_app_r. by apply suffix_cons_r, suffix_cons_r. }
  fold rtl in Er. rewrite (bind_Ok _ _ _ _ _ Er). eexists. split; [reflexivity|].
  rewrite cmd_map_redirs, Em. f_equal. exact Emr.
Qed.

Lemma print_clean :
  (forall l, line_wf l -> forall s, skip is_whitespace s = s ->
     skip is_whitespace (print_line l ++ s) = print_line l ++ s) /\
  (forall p, pipe_wf p -> forall s, skip is_whitespace s = s ->
     skip is_whitespace (print_pipe p ++ s) = print_pipe p ++ s) /\
  (forall e, simple_wf e -> forall s, skip is_whitespace s = s ->
     skip is_whitespace (print_simple e ++ s) = print_simple e ++ s).
Proof.
  assert (Hb : forall n s, skip is_whitespace s = s ->
    skip is_whitespace (concat (replicate n [AMP; 32]) ++ s) = concat (replicate n [AMP; 32]) ++ s).
  { by intros [|n] s. }
  apply line_mutind; cbn [line_wf pipe_wf simple_wf print_line print_pipe print_simple].
  - intros p IH n Hw s Hs. rewrite <-app_assoc. auto.
  - intros p IH n l IHl [Hw Hl] s Hs. rewrite <-!app_assoc. apply IH; [done|]. by apply Hb.
  - auto.
  - intros e IH p IHp [Hw Hp] s Hs. rewrite <-!app_assoc. by apply IH.
  - intros rs args (Hrs & Ha & _) s Hs. rewrite <-app_assoc. destruct rs as [|r rs].
    + simpl. destruct args as [|a args]; [done|]. apply Forall_cons in Ha as [[Hw _] _].
      cbn [map concat]. rewrite <-app_assoc, arg_cons. by apply word_nonws.
    + apply Forall_cons in Hrs as [[Hop _] _]. cbn [map concat].
      rewrite <-app_assoc, print_redir_cons. by destruct Hop as [->|[->| ->]].
  - done.
Qed.

Lemma suffix_app_skip (a b s : list Z) : (a ++ b) `suffix_of` s -> b `suffix_of` s.
Proof. intros H. etrans; [|exact H]. by apply suffix_app_r. Qed.

Lemma pipe_bar_print e p :
  parses_back (parseexec len) 2 after_exec (print_simple e) (den_simple e) ->
  parses_back (parsepipe len) 3 [RPAR; AMP; SEMI] (print_pipe p) (den_pipe p) -> pipe_wf p ->
  parses_back (parsepipe len) 3 [RPAR; AMP; SEMI] (print_pipe (PBar e p)) (den_pipe (PBar e p)).
Proof.
  intros IHe IHp Hw fuel post Hp Hs Hf. destruct fuel as [|fuel]; [lia|].
  cbn [print_pipe den_pipe] in *. rewrite <-!app_assoc in Hs, Hf |- *. cbn [app] in Hs, Hf |- *.
  pose proof (length_app (print_simple e) (BAR :: 32 :: print_pipe p ++ post)) as Hl. cbn [length] in Hl.
  destruct (IHe fuel (BAR :: 32 :: (print_pipe p ++ post))) as (c & Ec & Em);
    [right; eexists _, _; split; [done|by left]|done|lia|].
  cbn [parsepipe]. rewrite (bind_Ok _ _ _ _ _ Ec).
  rewrite (bind_Ok (peek _) _ _ true (BAR :: 32 :: (print_pipe p ++ post))) by by apply peek_yes.
  destruct (next_symbol BAR (print_pipe p ++ post)) as [t Et]; [by left| |].
  { apply (proj1 (proj2 print_clean)); [done|by apply (ends_clean [RPAR; AMP; SEMI])]. }
  rewrite (bind_Ok _ _ _ _ _ Et). apply suffix_app_skip in Hs.
  destruct (IHp fuel post Hp) as (c' & Ec' & Em'); [|lia|].
  { etrans; [|exact Hs]. by apply suffix_cons_r, suffix_cons_r. }
  rewrite (bind_Ok _ _ _ _ _ Ec'). eexists. split; [reflexivity|]. simpl. by rewrite Em, Em'.
Qed.

Lemma pipe_one_print e :
  parses_back (parseexec len) 2 after_exec (print_simple e) (den_simple e) ->
  parses_back (parsepipe len) 3 [RPAR; AMP; SEMI] (print_pipe (POne e)) (den_pipe (POne e)).
Proof.
  intros IHe fuel post Hp Hs Hf. destruct fuel as [|fuel]; [lia|]. cbn [print_pipe den_pipe parsepipe] in *.
  destruct (IHe fuel post) as (c & Ec & Em); [|done|lia|].
  { eapply ends_mono; [|exact Hp]. intros c. unfold after_exec. set_solver. }
  rewrite (bind_Ok _ _ _ _ _ Ec). rewrite (bind_Ok _ _ _ _ _ (peek_no [BAR] [RPAR; AMP; SEMI] post eq_refl Hp)).
  by exists c.
Qed.

Lemma iter_back_map n c : cmd_map (word_at buf) (Nat.iter n BACK c) = Nat.iter n BACK (cmd_map (word_at buf) c).
Proof. induction n; simpl; congruence. Qed.

Lemma amps_ends n post toks :
  AMP ∈ toks -> ends toks post -> ends toks (concat (replicate n [AMP; 32]) ++ post).
Proof. intros Ha Hp. destruct n; [done|]. right. eexists _, _. split; [done|done]. Qed.

Lemma line_end_print p n :
  parses_back (parsepipe len) 3 [RPAR; AMP; SEMI] (print_pipe p) (den_pipe p) ->
  parses_back (parseline len) 4 [RPAR] (print_line (LEnd p n)) (den_line (LEnd p n)).
Proof.
  intros IHp fuel post Hp Hs Hf. destruct fuel as [|fuel]; [lia|]. cbn [print_line den_line parseline] in *.
  rewrite <-app_assoc in Hs, Hf |- *. set (tl := concat _ ++ post) in *.
  destruct (IHp fuel tl) as (c & Ec & Em); [|done|lia|].
  { apply amps_ends; [set_solver|]. eapply ends_mono; [|exact Hp]. set_solver. }
  rewrite (bind_Ok _ _ _ _ _ Ec). unfold tl.
  assert (Hn : (n < fuel)%nat).
  { rewrite length_app in Hf. unfold tl in Hf. rewrite length_app, length_concat in Hf.
    rewrite fmap_replicate, sum_list_replicate in Hf. simpl in Hf. lia. }
  rewrite (bind_Ok _ _ _ _ _ (parseback_print n fuel c post Hn ltac:(eapply ends_mono; [|exact Hp]; set_solver))).
  rewrite (bind_Ok _ _ _ _ _ (peek_no [SEMI] [RPAR] post eq_refl Hp)).
  eexists. split; [reflexivity|]. by rewrite iter_back_map, Em.
Qed.

Lemma line_seq_print p n l :
  parses_back (parsepipe len) 3 [RPAR; AMP; SEMI] (print_pipe p) (den_pipe p) ->
  parses_back (parseline len) 4 [RPAR] (print_line l) (den_line l) -> line_wf l ->
  parses_back (parseline len) 4 [RPAR] (print_line (LSeq p n l)) (den_line (LSeq p n l)).
Proof.
  intros IHp IHl Hw fuel post Hp Hs Hf. destruct fuel as [|fuel]; [lia|]. cbn [print_line den_line parseline] in *.
  rewrite <-!app_assoc in Hs, Hf |- *. cbn [app] in Hs, Hf |- *.
  set (stl := SEMI :: 32 :: (print_line l ++ post)) in *. set (tl := concat _ ++ stl) in *.
  destruct (IHp fuel tl) as (c & Ec & Em); [|done|lia|].
  { apply amps_ends; [set_solver|]. right. eexists _, _. split; [done|set_solver]. }
  rewrite (bind_Ok _ _ _ _ _ Ec). unfold tl. rewrite length_app in Hf. unfold tl in Hf.
  rewrite length_app, length_concat, fmap_replicate, sum_list_replicate in Hf. unfold stl in Hf. simpl in Hf.
  assert (Hn : (n < fuel)%nat) by lia.
  rewrite (bind_Ok _ _ _ _ _ (parseback_print n fuel c stl Hn
    ltac:(right; eexists _, _; split; [done|set_solver]))).
  rewrite (bind_Ok (peek _) _ _ true stl) by by apply peek_yes. unfold stl.
  destruct (next_symbol SEMI (print_line l ++ post)) as [t Et]; [set_solver| |].
  { apply (proj1 print_clean); [done|by apply (ends_clean [RPAR])]. }
  rewrite (bind_Ok _ _ _ _ _ Et). unfold tl, stl in Hs. do 2 apply suffix_app_skip in Hs.
  destruct (IHl fuel post Hp) as (c' & Ec' & Em'); [|lia|].
  { etrans; [|exact Hs]. by apply suffix_cons_r, suffix_cons_r. }
  rewrite (bind_Ok _ _ _ _ _ Ec'). eexists. split; [reflexivity|]. simpl. by rewrite iter_back_map, Em, Em'.
Qed.

Lemma all_print :
  (forall l, line_wf l -> parses_back (parseline len) 4 [RPAR] (print_line l) (den_line l)) /\
  (forall p, pipe_wf p -> parses_back (parsepipe len) 3 [RPAR; AMP; SEMI] (print_pipe p) (den_pipe p)) /\
  (forall e, simple_wf e -> parses_back (parseexec len) 2 after_exec (print_simple e) (den_simple e)).
Proof.
  apply line_mutind.
  - intros p IH n Hw. by apply line_end_print, IH.
  - intros p IH n l IHl [Hw Hl]. by apply line_seq_print; [apply IH|apply IHl|].
  - intros e IH Hw. by apply pipe_one_print, IH.
  - intros e IH p IHp [Hw Hp]. by apply pipe_bar_print; [apply IH|apply IHp|].
  - intros rs args Hw. by apply simple_print.
  - intros l IH rs [Hl Hrs]. apply block_print; [by apply IH|done|].
    intros s. by apply (proj1 print_clean).
Qed.
End RoundTrip.

(** C16: the parser inverts printing: a command line written out, with lists,
    background commands, pipelines, blocks, arguments and redirections, parses
    to the command it means. *)
Theorem parse_print (l : line) :
  line_wf l -> exists c, parse (print_line l) = Ok c /\ cmd_map (word_at (print_line l)) c = den_line l.
Proof.
  intros Hw. destruct (proj1 (all_print (print_line l)) l Hw (parse_fuel (print_line l)) []) as (c & Ec & Em).
  - by left.
  - by rewrite app_nil_r.
  - rewrite app_nil_r. unfold parse_fuel. lia.
  - rewrite app_nil_r in Ec. exists c. split; [|done]. unfold parse. by rewrite Ec.
Qed.

(** (ls > o | w x &) ; c < i *)
Definition line_ex : line :=
  LSeq (POne (SBlock (LEnd (PBar (SCmd [] [([108; 115], [(GT, [111])])]) (POne (SCmd [] [([119], []); ([120], [])]))) 1) [])) 0
    (LEnd (POne (SCmd [] [([99], [(LT, [105])])])) 0).

Lemma line_ex_wf : line_wf line_ex.
Proof.
  unfold line_ex. cbn [line_wf pipe_wf simple_wf]. unfold MAXARGS.
  repeat match goal with
  | |- _ /\ _ => split
  | |- Forall _ _ => constructor
  | |- arg_wf _ => split
  | |- redir_wf _ => split
  | |- word_ok _ => split
  end; cbn [fst snd length]; auto; try lia; done.
Qed.

Lemma parse_print_witness :
  exists c, parse (print_line line_ex) = Ok c /\ cmd_map (word_at (print_line line_ex)) c = den_line line_ex.
Proof. exact (parse_print line_ex line_ex_wf). Defined.

Definition ls_line : list Z := [108; 115; 62; 111; 124; 119; 10].   (* ls>o|w *)

Lemma parsecmd_strings_witness :
  Forall (fun w => cstr (drop w.1 [108; 115; 0; 111; 0; 119; 0; 0]) = word_at ls_line w /\ word_at ls_line w <> [])
    (tokens (PIPE (REDIR (EXEC [(0, 2)%nat]) (3, 4)%nat 513 1) (EXEC [(5, 6)%nat]))).
Proof.
  refine (parsecmd_strings ls_line _ _ _ _).
  - repeat constructor; done.
  - vm_compute. reflexivity.
Defined.

(** ** Running commands *)

(** The system calls of a process and what it does with their results. *)
Inductive prog (W : Type) : Type :=
  | SExit
  | SPrint (msg : string) (k : prog W)
  | SExec (argv : list W) (k : prog W)            (* goes on when exec fails *)
  | SClose (fd : Z) (k : prog W)
  | SOpen (file : W) (mode : Z) (k : Z -> prog W)
  | SDup (fd : Z) (k : prog W)
  | SPipe (k : Z -> Z -> Z -> prog W)             (* the result, p[0] and p[1] *)
  | SFork (k : Z -> prog W)
  | SWait (k : prog W).
Arguments SExit {W}.
Arguments SPrint {W}.
Arguments SExec {W}.
Arguments SClose {W}.
Arguments SOpen {W}.
Arguments SDup {W}.
Arguments SPipe {W}.
Arguments SFork {W}.
Arguments SWait {W}.

Definition sh_panic {W} (msg : string) : prog W := SPrint msg SExit.

Definition fork1 {W} (k : Z -> prog W) : prog W :=
  SFork (fun pid => if pid =? -1 then sh_panic "fork" else k pid).

Fixpoint runcmd {W} (c : cmd W) : prog W :=
  match c with
  | EXEC argv =>
      match argv with
      | [] => SExit
      | _ => SExec argv (SPrint "exec failed" SExit)
      end
  | REDIR c file mode fd =>
      SClose fd (SOpen file mode (fun r =>
        if r <? 0 then SPrint "open failed" SExit else runcmd c))
  | LIST l r =>
      fork1 (fun pid => if pid =? 0 then runcmd l else SWait (runcmd r))
  | PIPE l r =>
      SPipe (fun res p0 p1 =>
        if res <? 0 then sh_panic "pipe"
        else
          fork1 (fun pid =>
            if pid =? 0 then SClose 1 (SDup p1 (SClose p0 (SClose p1 (runcmd l))))
            else
              fork1 (fun pid =>
                if pid =? 0 then SClose 0 (SDup p0 (SClose p0 (SClose p1 (runcmd r))))
                else SClose p0 (SClose p1 (SWait (SWait SExit))))))
  | BACK c => fork1 (fun pid => if pid =? 0 then runcmd c else SExit)
  end.

(** ** What the executed programs are connected to *)

(** An open file of a process; a pipe is named by the forks on the way to it. *)
Inductive desc (W : Type) : Type :=
  | Std (n : Z)
  | Opened (file : W) (mode : Z)
  | PipeRead (id : list bool)
  | PipeWrite (id : list bool).
Arguments Std {W}.
Arguments Opened {W}.
Arguments PipeRead {W}.
Arguments PipeWrite {W}.

Definition fds (W : Type) : Type := list (option (desc W)).

(** The lowest free descriptor gets the file, as [fdalloc] does it. *)
Fixpoint fd_alloc {W} (d : desc W) (t : fds W) : Z * fds W :=
  match t with
  | [] => (0, [Some d])
  | None :: t => (0, Some d :: t)
  | Some e :: t => let (n, t') := fd_alloc d t in (n + 1, Some e :: t')
  end.

(** The programs executed by the processes of a run in which every call
    succeeds, with the descriptors they start with. *)
Fixpoint execs {W} (p : prog W) (id : list bool) (t : fds W) : list (list W * fds W) :=
  match p with
  | SExit => []
  | SPrint _ k => execs k id t
  | SExec argv _ => [(argv, t)]
  | SClose fd k => execs k id (<[Z.to_nat fd := None]> t)
  | SOpen file mode k => let (n, t') := fd_alloc (Opened file mode) t in execs (k n) id t'
  | SDup fd k =>
      match t !! Z.to_nat fd with
      | Some (Some d) => execs k id (fd_alloc d t).2
      | _ => []
      end
  | SPipe k =>
      let (n0, t0) := fd_alloc (PipeRead id) t in
      let (n1, t1) := fd_alloc (PipeWrite id) t0 in
      execs (k 0 n0 n1) (true :: id) t1
  | SFork k => execs (k 0) (false :: id) t ++ execs (k 1) (true :: id) t
  | SWait k => execs k id t
  end.

(** A pipeline of programs. *)
Fixpoint pipeline_cmd {W} (a : list W) (as_ : list (list W)) : cmd W :=
  match as_ with
  | [] => EXEC a
  | b :: bs => PIPE (EXEC a) (pipeline_cmd b bs)
  end.

(** How it should be connected: each program reads from the pipe of the one
    before, the first from [i]; each writes to its own pipe, the last to [o]. *)
Fixpoint plumbed {W} (id : list bool) (i o e : desc W) (a : list W) (as_ : list (list W)) :
    list (list W * fds W) :=
  match as_ with
  | [] => [(a, [Some i; Some o; Some e; None; None])]
  | b :: bs =>
      (a, [Some i; Some (PipeWrite id); Some e; None; None]) ::
      plumbed (false :: true :: true :: id) (PipeRead id) o e b bs
  end.

Lemma pipeline_execs {W} (as_ : list (list W)) : forall a id (i o e : desc W),
  Forall (fun a => a <> []) (a :: as_) ->
  execs (runcmd (pipeline_cmd a as_)) id [Some i; Some o; Some e; None; None] =
  plumbed id i o e a as_.
Proof.
  induction as_ as [|b bs IH]; intros a id i o e Ha; apply Forall_cons in Ha as [Ha Hb].
  - by destruct a.
  - destruct a as [|x a]; [done|]. cbn [pipeline_cmd plumbed runcmd execs fd_alloc]. simpl.
    rewrite app_nil_r. f_equal. by apply IH.
Qed.

(** [runcmd] connects a pipeline of any length as it should be: every
    program runs with its standard input and output on the pipes to its
    neighbours (the ends on the shell's own input and output), standard error
    unchanged, and no other pipe end open, which would keep a reader from
    seeing the end of its input. *)
Theorem pipeline_plumbing {W} (a : list W) (as_ : list (list W)) :
  Forall (fun a => a <> []) (a :: as_) ->
  execs (runcmd (pipeline_cmd a as_)) [] [Some (Std 0); Some (Std 1); Some (Std 2); None; None] =
  plumbed [] (Std 0) (Std 1) (Std 2) a as_.
Proof. apply pipeline_execs. Qed.

Lemma pipeline_plumbing_witness :
  execs (runcmd (PIPE (EXEC [1]) (PIPE (EXEC [2]) (EXEC [3; 4])))) []
    [Some (Std 0); Some (Std 1); Some (Std 2); None; None] =
  [([1], [Some (Std 0); Some (PipeWrite []); Some (Std 2); None; None]);
   ([2], [Some (PipeRead []); Some (PipeWrite [false; true; true]); Some (Std 2); None; None]);
   ([3; 4], [Some (PipeRead [false; true; true]); Some (Std 1); Some (Std 2); None; None])].
Proof. apply (pipeline_plumbing [1] [[2]; [3; 4]]). repeat constructor; done. Defined.
