(* ===== verification/Grep.v ===== *)
(** * grep.c and wc.c

    The regular-expression matcher, with strings as the characters before the
    terminator, against a specification by languages; the line buffer of
    [grep] as a function of the chunks that [read] returns; the counters of
    [wc]. *)
From S2P Require Import Prelude.

Definition CARET : Z := 94.
Definition DOT : Z := 46.
Definition STAR : Z := 42.
Definition DOLLAR : Z := 36.
Definition NEWLINE : Z := 10.

(** [matchstar(c, re, text)], with [matchhere] of the rest of the pattern. *)
Fixpoint matchstar (here : list Z -> bool) (c : Z) (text : list Z) : bool :=
  if here text then true
  else
    match text with
    | [] => false
    | t :: text => if (t =? c) || (c =? DOT) then matchstar here c text else false
    end.

Fixpoint matchhere (re text : list Z) : bool :=
  match re with
  | [] => true
  | c :: re1 =>
      let plain :=
        match text with
        | [] => false
        | t :: text1 => if (c =? DOT) || (c =? t) then matchhere re1 text1 else false
        end in
      match re1 with
      | [] => if c =? DOLLAR then bool_decide (text = []) else plain
      | d :: re2 => if d =? STAR then matchstar (matchhere re2) c text else plain
      end
  end.

(** The loop of [match] that looks for a place to match. *)
Fixpoint match_anywhere (re text : list Z) : bool :=
  if matchhere re text then true
  else match text with [] => false | _ :: text => match_anywhere re text end.

Definition re_match (re text : list Z) : bool :=
  match re with
  | c :: re1 => if c =? CARET then matchhere re1 text else match_anywhere re text
  | [] => match_anywhere re text
  end.

(** ** The specification: languages *)

(** An item of a pattern: a character or any, once or repeated. *)
Record atom : Type := Atom { a_char : Z; a_star : bool }.

(** The items of a pattern and whether it is anchored at the end. *)
Fixpoint items (re : list Z) : list atom * bool :=
  match re with
  | [] => ([], false)
  | c :: re1 =>
      match re1 with
      | [] => if c =? DOLLAR then ([], true) else ([Atom c false], false)
      | d :: re2 =>
          if d =? STAR then let (l, e) := items re2 in (Atom c true :: l, e)
          else let (l, e) := items re1 in (Atom c false :: l, e)
      end
  end.

Definition char_ok (c t : Z) : Prop := c = DOT \/ c = t.

(** The texts of an item, and of a sequence of items. *)
Definition lang1 (a : atom) (w : list Z) : Prop :=
  if a_star a then Forall (char_ok (a_char a)) w
  else exists t, w = [t] /\ char_ok (a_char a) t.
Inductive lang : list atom -> list Z -> Prop :=
  | lang_nil : lang [] []
  | lang_cons a l w1 w2 : lang1 a w1 -> lang l w2 -> lang (a :: l) (w1 ++ w2).

(** A place in the text that matches; the anchors fix its ends. *)
Definition matches (re text : list Z) : Prop :=
  let (start, re') := match re with c :: re1 => if c =? CARET then (true, re1) else (false, re)
                                  | [] => (false, re) end in
  exists pre mid post, text = pre ++ mid ++ post /\ lang (items re').1 mid /\
    (start = true -> pre = []) /\ ((items re').2 = true -> post = []).

(** ** The line buffer of grep *)

(** The loop over the lines in [buf]: the lines that match, with their newline,
    and the characters from [p] on. *)
Fixpoint grep_lines (re line rest : list Z) : list (list Z) * list Z :=
  match rest with
  | [] => ([], line)
  | c :: rest =>
      if c =? NEWLINE then
        let (out, left) := grep_lines re [] rest in
        (if re_match re line then (line ++ [NEWLINE]) :: out else out, left)
      else grep_lines re (line ++ [c]) rest
  end.

(** One turn of the read loop: [kept] is [buf[0..m)], [chunk] what [read]
    returned; a buffer without a newline is dropped ([p == buf]). *)
Definition grep_chunk (re kept chunk : list Z) : list (list Z) * list Z :=
  let buf := kept ++ chunk in
  let (out, left) := grep_lines re [] buf in
  if bool_decide (length left = length buf) then (out, []) else (out, left).

Fixpoint grep (re kept : list Z) (chunks : list (list Z)) : list (list Z) :=
  match chunks with
  | [] => []
  | chunk :: chunks =>
      let (out, kept') := grep_chunk re kept chunk in
      out ++ grep re kept' chunks
  end.

(** The lines of a text that end in a newline. *)
Definition complete_lines (text : list Z) : list (list Z) := (grep_lines [] [] text).1.

(** ** wc *)

Definition wc_space (c : Z) : bool :=   (* space \r \t \n \v *)
  (c =? 32) || (c =? 13) || (c =? 9) || (c =? 10) || (c =? 11).

Record counts : Type := Counts { wc_l : Z; wc_w : Z; wc_c : Z; wc_in : bool }.

(** The body of the loop; the counters are [int]s. *)
Definition wc_char (k : counts) (x : Z) : counts :=
  let c := s32 (wc_c k + 1) in
  let l := if x =? NEWLINE then s32 (wc_l k + 1) else wc_l k in
  if wc_space x then Counts l (wc_w k) c false
  else if wc_in k then Counts l (wc_w k) c true
  else Counts l (s32 (wc_w k + 1)) c true.

Definition wc (chunks : list (list Z)) : counts :=
  foldl (fun k chunk => foldl wc_char k chunk) (Counts 0 0 0 false) chunks.

(** ** Theorems *)

Lemma matchstar_spec here c text :
  matchstar here c text = true <->
  exists w rest, text = w ++ rest /\ Forall (char_ok c) w /\ here rest = true.
Proof.
  induction text as [|t text IH]; cbn [matchstar].
  - destruct (here []) eqn:E.
    + split; [|done]. intros _. by exists [], [].
    + split; [done|]. intros (w & rest & Hw & _ & Hh). symmetry in Hw. apply app_eq_nil in Hw as [_ ->].
      congruence.
  - destruct (here (t :: text)) eqn:E.
    + split; [|done]. intros _. by exists [], (t :: text).
    + destruct ((t =? c) || (c =? DOT)) eqn:Et.
      * rewrite IH. split.
        -- intros (w & rest & -> & Hw & Hh). exists (t :: w), rest. split; [done|]. split; [|done].
           constructor; [|done]. apply orb_true_iff in Et as [->%Z.eqb_eq| ->%Z.eqb_eq]; unfold char_ok; auto.
        -- intros (w & rest & Hw & Hf & Hh). destruct w as [|x w]; simpl in Hw; [congruence|].
           injection Hw as -> ->. apply Forall_cons in Hf as [_ Hf]. eauto.
      * split; [done|]. intros (w & rest & Hw & Hf & Hh). destruct w as [|x w]; simpl in Hw; [congruence|].
        injection Hw as -> ->. apply Forall_cons in Hf as [Hx _].
        apply orb_false_iff in Et as [H1%Z.eqb_neq H2%Z.eqb_neq]. destruct Hx; congruence.
Qed.

(** One character and the rest of the pattern. *)
Lemma plain_spec c l (e : bool) text :
  (exists mid post, text = mid ++ post /\ lang (Atom c false :: l) mid /\ (e = true -> post = [])) <->
  match text with
  | [] => False
  | t :: text => char_ok c t /\ exists mid post, text = mid ++ post /\ lang l mid /\ (e = true -> post = [])
  end.
Proof.
  split.
  - intros (mid & post & -> & Hl & He). inversion Hl as [|a l' w1 w2 H1 H2]; subst.
    destruct H1 as (t & -> & Ht). simpl. eauto 10.
  - destruct text as [|t text]; [done|]. intros [Ht (mid & post & -> & Hl & He)].
    exists (t :: mid), post. split; [done|]. split; [|done].
    apply (lang_cons (Atom c false) l [t] mid); [|done]. by exists t.
Qed.

Lemma matchhere_spec re : forall text,
  matchhere re text = true <->
  exists mid post, text = mid ++ post /\ lang (items re).1 mid /\ ((items re).2 = true -> post = []).
Proof.
  induction re as [re IH] using (induction_ltof1 _ (@length Z)). unfold ltof in IH.
  assert (Hplain : forall c re1 text, (length re1 < length re)%nat ->
    match text with
    | [] => false
    | t :: text1 => if (c =? DOT) || (c =? t) then matchhere re1 text1 else false
    end = true <->
    exists mid post, text = mid ++ post /\ lang (Atom c false :: (items re1).1) mid /\
      ((items re1).2 = true -> post = [])).
  { intros c re1 text Hl. rewrite plain_spec. destruct text as [|t text]; [done|].
    destruct ((c =? DOT) || (c =? t)) eqn:E.
    - rewrite (IH re1 Hl). assert (char_ok c t); [|tauto].
      apply orb_true_iff in E as [?%Z.eqb_eq|?%Z.eqb_eq]; unfold char_ok; auto.
    - apply orb_false_iff in E as [?%Z.eqb_neq ?%Z.eqb_neq]. unfold char_ok. naive_solver. }
  intros text. destruct re as [|c [|d re2]].
  - simpl. split; [|done]. intros _. exists [], text. split; [done|]. split; [constructor|done].
  - cbn [matchhere items]. destruct (c =? DOLLAR).
    + rewrite bool_decide_eq_true. simpl. split.
      * intros ->. exists [], []. split; [done|]. split; [constructor|done].
      * intros (mid & post & -> & Hl & He). inversion Hl; subst. by rewrite He.
    + apply (Hplain c []). simpl. lia.
  - cbn [matchhere]. destruct (d =? STAR) eqn:Ed.
    + cbn [items]. rewrite Ed. rewrite matchstar_spec. destruct (items re2) as [l e] eqn:Ei. simpl. split.
      * intros (w & rest & -> & Hw & Hh). rewrite IH in Hh by (simpl; lia). rewrite Ei in Hh. simpl in Hh.
        destruct Hh as (mid & post & -> & Hl & He). exists (w ++ mid), post. rewrite app_assoc.
        split; [done|]. split; [|done]. by apply lang_cons.
      * intros (mid & post & -> & Hl & He). inversion Hl as [|a l' w1 w2 H1 H2]; subst.
        exists w1, (w2 ++ post). split; [by rewrite app_assoc|]. split; [done|].
        rewrite IH by (simpl; lia). rewrite Ei. eauto.
    + change (items (c :: d :: re2)) with (if d =? STAR then let (l, e) := items re2 in (Atom c true :: l, e)
        else let (l, e) := items (d :: re2) in (Atom c false :: l, e)). rewrite Ed.
      specialize (Hplain c (d :: re2) text ltac:(simpl; lia)).
      destruct (items (d :: re2)) as [l e]. exact Hplain.
Qed.

Lemma match_anywhere_spec re text :
  match_anywhere re text = true <-> exists pre rest, text = pre ++ rest /\ matchhere re rest = true.
Proof.
  induction text as [|t text IH]; cbn [match_anywhere]; destruct (matchhere re _) eqn:E.
  - split; [|done]. intros _. by exists [], [].
  - split; [done|]. intros (pre & rest & Hw & Hh). symmetry in Hw. apply app_eq_nil in Hw as [_ ->]. congruence.
  - split; [|done]. intros _. by exists [], (t :: text).
  - rewrite IH. split.
    + intros (pre & rest & -> & Hh). by exists (t :: pre), rest.
    + intros ([|x pre] & rest & Hw & Hh); simpl in Hw; [congruence|]. injection Hw as -> ->. eauto.
Qed.

(** C27: the matcher of grep decides the language of the pattern: [match] finds
    a match exactly if some stretch of the text is in the concatenation of the
    languages of the pattern's items, at the start after a caret and up to
    the end before a dollar. *)
Theorem re_match_correct re text : re_match re text = true <-> matches re text.
Proof.
  unfold re_match, matches.
  assert (Hany : forall re, match_anywhere re text = true <-> exists pre mid post,
    text = pre ++ mid ++ post /\ lang (items re).1 mid /\ (false = true -> pre = []) /\
    ((items re).2 = true -> post = [])).
  { intros r. rewrite match_anywhere_spec. setoid_rewrite matchhere_spec. split.
    - intros (pre & rest & -> & mid & post & -> & ? & ?). by exists pre, mid, post.
    - intros (pre & mid & post & -> & ? & _ & ?). exists pre, (mid ++ post). split; [done|]. by exists mid, post. }
  destruct re as [|c re1]; [apply Hany|]. destruct (c =? CARET); [|apply Hany].
  rewrite matchhere_spec. split.
  - intros (mid & post & -> & ? & ?). by exists [], mid, post.
  - intros (pre & mid & post & -> & ? & Hp & ?). rewrite Hp by done. by exists mid, post.
Qed.

Lemma grep_lines_app re a : forall line b,
  grep_lines re line (a ++ b) =
  let (out, left) := grep_lines re line a in
  let (out', left') := grep_lines re left b in (out ++ out', left').
Proof.
  induction a as [|c a IH]; intros line b; cbn [grep_lines app].
  - by destruct (grep_lines re line b).
  - destruct (c =? NEWLINE); [|apply IH]. rewrite IH.
    destruct (grep_lines re [] a) as [out left]. destruct (grep_lines re left b) as [out' left'].
    by destruct (re_match re line).
Qed.

(** The characters kept are a partial line. *)
Lemma grep_lines_left re a : forall line,
  Forall (fun c => c <> NEWLINE) line ->
  Forall (fun c => c <> NEWLINE) (grep_lines re line a).2 /\
  forall b, grep_lines re [] ((grep_lines re line a).2 ++ b) = grep_lines re (grep_lines re line a).2 b.
Proof.
  assert (Hp : forall line b pre, Forall (fun c => c <> NEWLINE) line ->
    grep_lines re pre (line ++ b) = grep_lines re (pre ++ line) b).
  { induction line as [|c line IH]; intros b pre Hl; [by rewrite app_nil_r|].
    apply Forall_cons in Hl as [Hc Hl]. cbn [app grep_lines]. apply Z.eqb_neq in Hc as ->.
    rewrite IH by done. by rewrite <-app_assoc. }
  induction a as [|c a IH]; intros line Hl; cbn [grep_lines].
  - split; [done|]. intros b. by apply Hp.
  - destruct (Z.eqb_spec c NEWLINE) as [->|Hc].
    + specialize (IH [] (Forall_nil_2 _)). by destruct (grep_lines re [] a).
    + apply IH. apply Forall_app. split; [done|]. by constructor.
Qed.

(** The reads that grep relies on: every buffer has the end of a line in it. *)
Fixpoint reads_ok (kept : list Z) (chunks : list (list Z)) : Prop :=
  match chunks with
  | [] => True
  | chunk :: chunks =>
      NEWLINE ∈ chunk /\ reads_ok (grep_lines [] [] (kept ++ chunk)).2 chunks
  end.

Lemma grep_left_indep re re' a : forall line, (grep_lines re line a).2 = (grep_lines re' line a).2.
Proof.
  induction a as [|c a IH]; intros line; cbn [grep_lines]; [done|].
  destruct (c =? NEWLINE); [|apply IH]. specialize (IH []).
  by destruct (grep_lines re [] a), (grep_lines re' [] a).
Qed.

Lemma grep_left_short re a : forall line,
  NEWLINE ∈ a -> (length (grep_lines re line a).2 < length line + length a)%nat.
Proof.
  assert (Hle : forall a line, (length (grep_lines re line a).2 <= length line + length a)%nat).
  { clear a. induction a as [|c a IH]; intros line; cbn [grep_lines]; [simpl; lia|].
    destruct (c =? NEWLINE).
    - specialize (IH []). destruct (grep_lines re [] a). simpl in *. lia.
    - specialize (IH (line ++ [c])). rewrite length_app in IH. simpl in *. lia. }
  induction a as [|c a IH]; intros line Hin; [by apply elem_of_nil in Hin|]. cbn [grep_lines].
  destruct (Z.eqb_spec c NEWLINE) as [->|Hc].
  - specialize (Hle a []). destruct (grep_lines re [] a). simpl in *. lia.
  - apply elem_of_cons in Hin as [?|Hin]; [done|]. specialize (IH (line ++ [c]) Hin).
    rewrite length_app in IH. simpl in *. lia.
Qed.

Lemma grep_spec re chunks : forall kept,
  Forall (fun c => c <> NEWLINE) kept -> reads_ok kept chunks ->
  grep re kept chunks = (grep_lines re kept (concat chunks)).1.
Proof.
  induction chunks as [|chunk chunks IH]; intros kept Hk Hr; cbn [grep concat]; [done|].
  destruct Hr as [Hin Hr]. unfold grep_chunk.
  assert (Hstart : forall b, grep_lines re [] (kept ++ b) = grep_lines re kept b).
  { intros b. by destruct (grep_lines_left re [] kept Hk) as [_ H]. }
  rewrite (grep_left_indep [] re) in Hr. rewrite Hstart in Hr |- *.
  pose proof (grep_left_short re chunk kept Hin) as Hs.
  destruct (grep_lines_left re chunk kept Hk) as [Hl _].
  rewrite grep_lines_app. destruct (grep_lines re kept chunk) as [out left] eqn:E. simpl in *.
  rewrite bool_decide_eq_false_2 by (rewrite length_app; lia).
  rewrite IH by done. by destruct (grep_lines re left (concat chunks)).
Qed.

Lemma grep_lines_filter re a : forall line,
  (grep_lines re line a).1 =
  filter (fun l => re_match re (take (length l - 1) l) = true) (grep_lines [] line a).1.
Proof.
  induction a as [|c a IH]; intros line; cbn [grep_lines]; [done|].
  destruct (c =? NEWLINE); [|apply IH]. specialize (IH []).
  destruct (grep_lines re [] a) as [out left], (grep_lines [] [] a) as [out' left']. simpl in *.
  replace (match_anywhere [] line) with true by by destruct line.
  rewrite filter_cons, length_app. cbn [length].
  replace (length line + 1 - 1)%nat with (length line) by lia. rewrite take_app_length, IH.
  destruct (re_match re line); case_decide; done.
Qed.

(** [grep] prints the lines of its input that match, in order, whatever the
    boundaries of the reads, if every read brings the end of a line. *)
Theorem grep_correct re chunks :
  reads_ok [] chunks ->
  grep re [] chunks =
  filter (fun l => re_match re (take (length l - 1) l) = true) (complete_lines (concat chunks)).
Proof.
  intros Hr. rewrite grep_spec by done. apply grep_lines_filter.
Qed.

Lemma grep_correct_witness :
  grep [98] [] [[97; 10; 98]; [99; 10; 98; 10]] =
  filter (fun l => re_match [98] (take (length l - 1) l) = true) [[97; 10]; [98; 99; 10]; [98; 10]].
Proof.
  apply (grep_correct [98] [[97; 10; 98]; [99; 10; 98; 10]]). simpl.
  split; [right; left|]. split; [right; left|done].
Defined.

(** A read that ends inside a line makes [grep] forget the start of that
    line when no line ended in the buffer: the line "ab", read as "a" and "b\n",
    is not found by the pattern "a". *)
Theorem grep_forgets_partial_line :
  grep [97] [] [[97; 98; 10]] = [[97; 98; 10]] /\ grep [97] [] [[97]; [98; 10]] = [].
Proof. by split. Qed.

(** The words of a text: its maximal stretches without a space. *)
Fixpoint words (cur text : list Z) : list (list Z) :=
  match text with
  | [] => match cur with [] => [] | _ => [cur] end
  | x :: text =>
      if wc_space x then match cur with [] => words [] text | _ => cur :: words [] text end
      else words (cur ++ [x]) text
  end.

Definition newlines (text : list Z) : Z := Z.of_nat (length (filter (fun x => x = NEWLINE) text)).

Lemma words_cur text : forall cur cur', cur <> [] -> cur' <> [] ->
  length (words cur text) = length (words cur' text).
Proof.
  induction text as [|x text IH]; intros cur cur' H1 H2; simpl.
  - by destruct cur, cur'.
  - destruct (wc_space x); [by destruct cur, cur'|]. apply IH; by destruct cur, cur'.
Qed.

Lemma words_pos text cur : cur <> [] -> (1 <= length (words cur text))%nat.
Proof.
  revert cur. induction text as [|x text IH]; intros cur Hc; simpl; [by destruct cur; simpl; [|lia]|].
  destruct (wc_space x); [destruct cur; simpl; [done|lia]|]. apply IH. by destruct cur.
Qed.

Lemma wc_chars text : forall k cur,
  wc_in k = negb (bool_decide (cur = [])) ->
  0 <= wc_l k -> 0 <= wc_w k -> 0 <= wc_c k ->
  wc_l k + Z.of_nat (length text) < 2147483648 -> wc_w k + Z.of_nat (length text) < 2147483648 ->
  wc_c k + Z.of_nat (length text) < 2147483648 ->
  let k' := foldl wc_char k text in
  wc_l k' = wc_l k + newlines text /\ wc_c k' = wc_c k + Z.of_nat (length text) /\
  wc_w k' = wc_w k + Z.of_nat (length (words cur text)) - (if wc_in k then 1 else 0).
Proof.
  induction text as [|x text IH]; intros k cur Hin Hl Hw Hc Bl Bw Bc; cbn [foldl].
  - unfold newlines. simpl. split; [lia|]. split; [lia|]. rewrite Hin.
    destruct cur; simpl; lia.
  - cbn [length] in Bl, Bw, Bc. rewrite Nat2Z.inj_succ in Bl, Bw, Bc.
    assert (Hnl : newlines (x :: text) = (if x =? NEWLINE then 1 else 0) + newlines text).
    { unfold newlines. rewrite filter_cons. destruct (Z.eqb_spec x NEWLINE); case_decide; try done; simpl length; lia. }
    rewrite Hnl. cbn [length words]. rewrite Nat2Z.inj_succ.
    set (cur' := if wc_space x then [] else cur ++ [x]).
    destruct (IH (wc_char k x) cur') as (I1 & I2 & I3); unfold wc_char in *; cbv zeta in *;
      rewrite !s32_small in * by lia; unfold cur'.
    + destruct (wc_space x); [done|]. destruct (wc_in k); simpl;
        rewrite bool_decide_eq_false_2; try done; by destruct cur.
    + destruct (wc_space x), (wc_in k), (x =? NEWLINE); simpl; lia.
    + destruct (wc_space x), (wc_in k), (x =? NEWLINE); simpl; lia.
    + destruct (wc_space x), (wc_in k), (x =? NEWLINE); simpl; lia.
    + destruct (wc_space x), (wc_in k), (x =? NEWLINE); simpl; lia.
    + destruct (wc_space x), (wc_in k), (x =? NEWLINE); simpl; lia.
    + destruct (wc_space x), (wc_in k), (x =? NEWLINE); simpl; lia.
    + rewrite I1, I2, I3. unfold cur'. rewrite Hin. clear.
      destruct (wc_space x), cur as [|y cur], (x =? NEWLINE); simpl;
        rewrite ?bool_decide_eq_true_2, ?bool_decide_eq_false_2 by done; simpl; lia.
Qed.

(** [wc] counts the newlines, the words and the characters of its input,
    whatever the boundaries of the reads, up to the range of [int]. *)
Theorem wc_correct chunks :
  Z.of_nat (length (concat chunks)) < 2147483648 ->
  wc_l (wc chunks) = newlines (concat chunks) /\
  wc_w (wc chunks) = Z.of_nat (length (words [] (concat chunks))) /\
  wc_c (wc chunks) = Z.of_nat (length (concat chunks)).
Proof.
  intros Hb. assert (E : forall k, foldl (fun k chunk => foldl wc_char k chunk) k chunks =
    foldl wc_char k (concat chunks)).
  { induction chunks as [|c chunks IH]; intros k; [done|]. cbn [foldl concat]. rewrite foldl_app. apply IH.
    cbn [concat] in Hb. rewrite length_app in Hb. lia. }
  unfold wc. rewrite E. destruct (wc_chars (concat chunks) (Counts 0 0 0 false) []) as (H1 & H2 & H3);
    simpl in *; [done|lia..|]. rewrite H1, H2, H3. lia.
Qed.

Lemma wc_correct_witness : wc_w (wc [[97; 32]; [98; 99; 10]]) = 2.
Proof. apply (wc_correct [[97; 32]; [98; 99; 10]]). apply Z.ltb_lt. reflexivity. Defined.
