(* ===== verification/Printf.v ===== *)
(** * Formatted output: printf.c and the same functions of console.c

    The functions as the characters that they put, in order.  The static
    functions [print_x64], [print_x32] and [print_d] are the same in both
    files; [printf] and [cprintf] differ in the conversion [%c]. *)
From S2P Require Import Prelude.

(** [digits[i]] *)
Definition digits (i : Z) : Z := if i <? 10 then 48 + i else 97 + (i - 10).

(** The loop of [print_x64] and [print_x32] over [n] digits of a [w]-bit number. *)
Fixpoint print_x (w : Z) (n : nat) (x : Z) : list Z :=
  match n with
  | O => []
  | S n => digits (Z.shiftr x (w - 4)) :: print_x w n (Z.land (Z.shiftl x 4) (Z.ones w))
  end.

Definition print_x64 (x : Z) : list Z := print_x 64 16 x.
Definition print_x32 (x : Z) : list Z := print_x 32 8 x.

(** The do-while loop of [print_d]: the digits in [buf], lowest first. *)
Fixpoint dec_digits (fuel : nat) (x : Z) : option (list Z) :=
  match fuel with
  | O => None
  | S fuel =>
      let d := digits (x mod 10) in
      let x := x / 10 in
      if x =? 0 then Some [d]
      else match dec_digits fuel x with Some l => Some (d :: l) | None => None end
  end.

(** [buf] has 16 bytes: the fuel is one more than the digits that fit with a
    sign. *)
Definition print_d (v : Z) : option (list Z) :=
  let x := if v <? 0 then - v else v in
  match dec_digits 16 x with
  | None => None
  | Some l =>
      let buf := if v <? 0 then l ++ [45] else l in
      if (length buf <=? 16)%nat then Some (rev buf) else None
  end.

(** The arguments; [AStr None] is a null pointer. *)
Inductive arg : Type :=
  | AInt (v : Z)
  | AStr (s : option (list Z)).

Definition null_text : list Z := [40; 110; 117; 108; 108; 41].   (* (null) *)

(** [va_arg(ap, int)], [va_arg(ap, uint)] and [va_arg(ap, char* )]; an argument
    that is missing or of another type is undefined behaviour. *)
Definition arg_int (args : list arg) : option (Z * list arg) :=
  match args with AInt v :: args => Some (s32 v, args) | _ => None end.
Definition arg_uint (args : list arg) : option (Z * list arg) :=
  match args with AInt v :: args => Some (u32 v, args) | _ => None end.
Definition arg_addr (args : list arg) : option (Z * list arg) :=
  match args with AInt v :: args => Some (u64 v, args) | _ => None end.
Definition arg_str (args : list arg) : option (list Z * list arg) :=
  match args with
  | AStr o :: args => Some (match o with Some s => s | None => null_text end, args)
  | _ => None
  end.

Definition then_put {A} (o : option (A * list arg)) (text : A -> option (list Z))
    (k : list arg -> option (list Z)) : option (list Z) :=
  match o with
  | None => None
  | Some (a, args) =>
      match text a, k args with
      | Some t, Some rest => Some (t ++ rest)
      | _, _ => None
      end
  end.

(** The loop over the format, the characters before its terminator; [None] is
    undefined behaviour.  [with_c] tells [printf] from [cprintf]. *)
Fixpoint format (with_c : bool) (fmt : list Z) (args : list arg) : option (list Z) :=
  match fmt with
  | [] => Some []
  | c :: fmt1 =>
      if negb (c =? 37) then (fun rest => c :: rest) <$> format with_c fmt1 args
      else
        match fmt1 with
        | [] => Some []
        | c :: fmt2 =>
            let k := format with_c fmt2 in
            if with_c && (c =? 99) then then_put (arg_int args) (fun v => Some [u8 v]) k
            else if c =? 100 then then_put (arg_int args) print_d k
            else if c =? 120 then then_put (arg_uint args) (fun v => Some (print_x32 v)) k
            else if c =? 112 then then_put (arg_addr args) (fun v => Some (print_x64 v)) k
            else if c =? 115 then then_put (arg_str args) (fun s => Some s) k
            else if c =? 37 then (fun rest => 37 :: rest) <$> k args
            else (fun rest => 37 :: c :: rest) <$> k args
        end
  end.

Definition printf (fmt : list Z) (args : list arg) : option (list Z) := format true fmt args.
Definition cprintf (fmt : list Z) (args : list arg) : option (list Z) := format false fmt args.

(** ** The numbers that a text denotes *)

Definition digit_val (c : Z) : Z := if c <? 58 then c - 48 else c - 97 + 10.
Definition value (b : Z) (l : list Z) : Z := foldl (fun n c => b * n + digit_val c) 0 l.

Lemma digit_val_digits i : 0 <= i < 16 -> digit_val (digits i) = i.
Proof. intros Hi. unfold digits, digit_val. repeat btest; lia. Qed.

Lemma value_snoc b l c : value b (l ++ [c]) = b * value b l + digit_val c.
Proof. unfold value. by rewrite foldl_app. Qed.

Lemma foldl_value b l : forall n,
  foldl (fun n c => b * n + digit_val c) n l = b ^ Z.of_nat (length l) * n + value b l.
Proof.
  induction l as [|c l IH]; intros n.
  - unfold value. simpl. lia.
  - unfold value. cbn [foldl length]. rewrite (IH (b * n + _)), (IH (b * 0 + _)).
    rewrite Nat2Z.inj_succ, Z.pow_succ_r by lia. lia.
Qed.

Lemma value_cons b c l : value b (c :: l) = digit_val c * b ^ Z.of_nat (length l) + value b l.
Proof. unfold value at 1. cbn [foldl]. rewrite foldl_value. lia. Qed.

Lemma length_print_x w n : forall x, length (print_x w n x) = n.
Proof. induction n; intros x; simpl; [done|]. by rewrite IHn. Qed.

(** The top four bits come first. *)
Lemma print_x_value w n : forall x,
  4 <= w -> (Z.of_nat n * 4 <= w) -> 0 <= x < 2 ^ w ->
  value 16 (print_x w n x) = x / 2 ^ (w - 4 * Z.of_nat n).
Proof.
  induction n as [|n IH]; intros x Hw Hn Hx.
  - simpl. rewrite Z.sub_0_r, Z.div_small; [done|lia].
  - cbn [print_x]. rewrite value_cons, length_print_x.
    assert (Ew : 2 ^ w = 2 ^ (w - 4) * 16).
    { replace w with (w - 4 + 4) at 1 by lia. rewrite Z.pow_add_r by lia. done. }
    assert (Hp : 0 < 2 ^ (w - 4)) by (apply Z.pow_pos_nonneg; lia).
    rewrite Z.shiftr_div_pow2 by lia. set (h := x / 2 ^ (w - 4)).
    assert (Hh : 0 <= h < 16).
    { unfold h. split; [apply Z.div_pos; lia|]. apply Z.div_lt_upper_bound; lia. }
    rewrite digit_val_digits by done. rewrite Z.land_ones, Z.shiftl_mul_pow2 by lia. change (2 ^ 4) with 16.
    assert (Hm : (x * 16) mod 2 ^ w = (x mod 2 ^ (w - 4)) * 16).
    { rewrite Ew. by rewrite Z.mul_mod_distr_r by lia. }
    rewrite Hm. set (lo := x mod 2 ^ (w - 4)) in *.
    assert (Hlo : 0 <= lo < 2 ^ (w - 4)) by (apply Z.mod_pos_bound; lia).
    rewrite IH by lia.
    rewrite Nat2Z.inj_succ. set (k := w - 4 * Z.succ (Z.of_nat n)).
    replace (w - 4 * Z.of_nat n) with (k + 4) by lia.
    assert (Hk : 0 < 2 ^ k) by (apply Z.pow_pos_nonneg; lia).
    rewrite Z.pow_add_r by lia. change (2 ^ 4) with 16.
    rewrite Z.div_mul_cancel_r by lia.
    assert (Hx' : x = h * 2 ^ (w - 4) + lo).
    { unfold h, lo. rewrite Z.mul_comm. apply Z.div_mod. lia. }
    assert (E4 : 2 ^ (w - 4) = 16 ^ Z.of_nat n * 2 ^ k).
    { replace (w - 4) with (4 * Z.of_nat n + k) by lia.
      rewrite Z.pow_add_r, Z.pow_mul_r by lia. done. }
    replace (x / 2 ^ k) with ((h * 2 ^ (w - 4) + lo) / 2 ^ k) by by rewrite <-Hx'.
    rewrite E4, Z.mul_assoc, Z.div_add_l by lia. done.
Qed.

Lemma dec_digits_spec n : forall x,
  0 <= x < 10 ^ Z.of_nat n -> (0 < n)%nat ->
  exists l, dec_digits n x = Some l /\ value 10 (rev l) = x /\ (1 <= length l <= n)%nat /\
    Forall (fun c => 48 <= c <= 57) l /\ ((1 < length l)%nat -> last l <> Some 48).
Proof.
  induction n as [|n IH]; intros x Hx Hn; [lia|]. cbn [dec_digits].
  rewrite Nat2Z.inj_succ, Z.pow_succ_r in Hx by lia.
  pose proof (Z.mod_pos_bound x 10 ltac:(lia)) as Hm.
  pose proof (Z.div_mod x 10 ltac:(lia)) as Hdm.
  assert (Hd : digits (x mod 10) = 48 + x mod 10) by (unfold digits; btest; lia).
  assert (Hdv : digit_val (digits (x mod 10)) = x mod 10) by (apply digit_val_digits; lia).
  destruct (Z.eqb_spec (x / 10) 0) as [Hz|Hz].
  - exists [digits (x mod 10)]. split; [done|]. split; [unfold value; simpl; lia|]. split; [simpl; lia|].
    split; [constructor; [lia|constructor]|simpl; lia].
  - assert (Hq : 0 <= x / 10 < 10 ^ Z.of_nat n).
    { split; [apply Z.div_pos; lia|]. apply Z.div_lt_upper_bound; lia. }
    destruct n as [|n]; [change (10 ^ Z.of_nat 0) with 1 in Hq; lia|].
    destruct (IH (x / 10) Hq) as (l & -> & Hv & Hl & Hf & Hlast); [lia|].
    exists (digits (x mod 10) :: l). split; [done|]. cbn [rev]. split; [rewrite value_snoc; lia|].
    split; [simpl; lia|]. split; [constructor; [lia|done]|]. intros _.
    destruct l as [|c [|c' l]]; [simpl in Hl; lia| |apply Hlast; simpl; lia].
    simpl. intros [= ->]. unfold value in Hv. simpl in Hv. unfold digit_val in Hv. simpl in Hv. lia.
Qed.

(** [print_d] writes an [int] in decimal, the smallest one included: at
    most 11 characters (its buffer has 16), a minus sign exactly for negative
    numbers, digits without leading zeros whose value is the number. *)
Theorem print_d_correct v :
  -2147483648 <= v < 2147483648 ->
  exists ds, print_d v = Some (if v <? 0 then 45 :: ds else ds) /\
    (if v <? 0 then - value 10 ds else value 10 ds) = v /\
    Forall (fun c => 48 <= c <= 57) ds /\ (1 <= length ds <= 10)%nat /\
    ((1 < length ds)%nat -> hd_error ds <> Some 48).
Proof.
  intros Hv. unfold print_d. set (x := if v <? 0 then - v else v).
  assert (Hx : 0 <= x < 10 ^ Z.of_nat 10) by (unfold x; btest; simpl; lia).
  destruct (dec_digits_spec 10 x Hx) as (l & El & Hval & Hl & Hf & Hlast); [lia|].
  assert (Emono : forall n m x l, dec_digits n x = Some l -> dec_digits (n + m) x = Some l).
  { clear. induction n as [|n IH]; intros m x l; [done|]. cbn [dec_digits Nat.add].
    destruct (x / 10 =? 0); [done|]. destruct (dec_digits n (x / 10)) as [l'|] eqn:E; [|done].
    by rewrite (IH m _ _ E). }
  rewrite (Emono 10%nat 6%nat x l El : dec_digits 16 x = Some l). exists (rev l).
  assert (Hhd : (1 < length (rev l))%nat -> hd_error (rev l) <> Some 48).
  { rewrite length_rev. intros H1. specialize (Hlast H1). clear -Hlast.
    destruct l as [|c l _] using rev_ind; [done|]. rewrite rev_unit. rewrite last_snoc in Hlast. done. }
  assert (Hf' : Forall (fun c => 48 <= c <= 57) (rev l)) by by apply Forall_rev.
  unfold x in *. destruct (v <? 0) eqn:Es.
  - rewrite (proj2 (Nat.leb_le _ _)) by (rewrite length_app; simpl; lia).
    rewrite rev_unit, length_rev in *. split; [done|]. split; [lia|]. done.
  - rewrite (proj2 (Nat.leb_le _ _)) by lia. rewrite length_rev in *. split; [done|]. split; [lia|]. done.
Qed.

Lemma print_d_correct_witness :
  print_d (-2147483648) = Some [45; 50; 49; 52; 55; 52; 56; 51; 54; 52; 56] /\
  exists ds, print_d (-2147483648) = Some (45 :: ds) /\ - value 10 ds = -2147483648.
Proof.
  split; [vm_compute; reflexivity|].
  destruct (print_d_correct (-2147483648)) as (ds & H1 & H2 & _); [lia|].
  exists ds. split; [exact H1|exact H2].
Defined.

(** [print_x32] and [print_x64] write all hexadecimal digits of the number,
    the highest first: 8 or 16 digits whose value is the number. *)
Theorem print_x_correct x :
  (0 <= x < 4294967296 -> length (print_x32 x) = 8%nat /\ value 16 (print_x32 x) = x) /\
  (0 <= x < 18446744073709551616 -> length (print_x64 x) = 16%nat /\ value 16 (print_x64 x) = x).
Proof.
  split; intros Hx; (split; [apply length_print_x|]).
  - unfold print_x32. rewrite print_x_value; [|lia..|done]. change (32 - 4 * Z.of_nat 8) with 0. apply Z.div_1_r.
  - unfold print_x64. rewrite print_x_value; [|lia..|done]. change (64 - 4 * Z.of_nat 16) with 0. apply Z.div_1_r.
Qed.

Lemma print_x_correct_witness :
  length (print_x32 3735928559) = 8%nat /\ value 16 (print_x32 3735928559) = 3735928559.
Proof. apply (proj1 (print_x_correct 3735928559)). lia. Defined.

(** ** Formats *)

(** The pieces of a message. *)
Inductive piece : Type :=
  | Text (c : Z)
  | Percent
  | Dec (v : Z)
  | Hex (v : Z)
  | Ptr (v : Z)
  | Str (s : option (list Z)).

Definition piece_fmt (p : piece) : list Z :=
  match p with
  | Text c => [c]
  | Percent => [37; 37]
  | Dec _ => [37; 100]
  | Hex _ => [37; 120]
  | Ptr _ => [37; 112]
  | Str _ => [37; 115]
  end.
Definition piece_arg (p : piece) : list arg :=
  match p with
  | Dec v | Hex v | Ptr v => [AInt v]
  | Str s => [AStr s]
  | _ => []
  end.
Definition piece_text (p : piece) : option (list Z) :=
  match p with
  | Text c => Some [c]
  | Percent => Some [37]
  | Dec v => print_d (s32 v)
  | Hex v => Some (print_x32 (u32 v))
  | Ptr v => Some (print_x64 (u64 v))
  | Str (Some s) => Some s
  | Str None => Some null_text
  end.

Fixpoint message (ps : list piece) : option (list Z) :=
  match ps with
  | [] => Some []
  | p :: ps => match piece_text p, message ps with Some t, Some r => Some (t ++ r) | _, _ => None end
  end.

(** [printf] and [cprintf] put the message that the format and the arguments
    describe: text as it is, percent signs, numbers and strings at their
    places, each conversion with its own argument. *)
Theorem printf_message ps :
  Forall (fun p => match p with Text c => c <> 37 | _ => True end) ps ->
  printf (concat (map piece_fmt ps)) (concat (map piece_arg ps)) = message ps /\
  cprintf (concat (map piece_fmt ps)) (concat (map piece_arg ps)) = message ps.
Proof.
  intros Hp. assert (H : forall b, format b (concat (map piece_fmt ps)) (concat (map piece_arg ps)) = message ps);
    [|split; apply H].
  intros b. induction Hp as [|p ps Hc _ IH]; [done|]. cbn [map concat message].
  destruct p as [c| |v|v|v|[s|]]; cbn [piece_fmt piece_arg piece_text app]; cbn [format];
    rewrite ?(proj2 (Z.eqb_neq c 37) Hc); cbn -[print_d print_x32 print_x64 format];
    rewrite ?andb_false_r; cbn -[print_d print_x32 print_x64 format]; rewrite ?IH; try done.
  all: destruct (message ps); done.
Qed.

Lemma printf_message_witness :
  printf [37; 100; 32; 37; 115; 37; 37] [AInt 4294967295; AStr None] =
  Some [45; 49; 32; 40; 110; 117; 108; 108; 41; 37].
Proof. exact (proj1 (printf_message [Dec 4294967295; Text 32; Str None; Percent] ltac:(repeat constructor; done))). Defined.
