(* ===== verification/Console.v ===== *)
(** * The console: console.c

    The line discipline of the input ([consoleintr], [consoleread]) on its ring
    buffer, and the screen ([cgaputc]) with the cursor registers of the CGA
    controller.  The formatted output of console.c is in the file on printf. *)
From S2P Require Import Prelude Ring.

Definition INPUT_BUF : Z := 128.
Definition BACKSPACE : Z := 256.
Definition CTRL_D : Z := 4.
Definition CTRL_H : Z := 8.
Definition CTRL_P : Z := 16.
Definition CTRL_U : Z := 21.
Definition CTRL_Z : Z := 26.
Definition DEL : Z := 127.
Definition NL : Z := 10.
Definition CR : Z := 13.

Record input : Type := Input {
  i_buf : Z -> Z;
  i_r : Z;
  i_w : Z;
  i_e : Z;
}.

(** What the handler of a character does besides: the characters it echoes,
    whether it wakes the readers, restarts the machine or lists processes. *)
Record effects : Type := Effects {
  ef_echo : list Z;
  ef_wakeup : bool;
  ef_reboot : bool;
  ef_procdump : bool;
}.
Definition no_effect : effects := Effects [] false false false.

(** The loop of ^U; [n] is [input.e - input.w] and so ends it at the latest. *)
Fixpoint kill_line (n : nat) (s : input) : input * list Z :=
  match n with
  | O => (s, [])
  | S n =>
      if negb (i_e s =? i_w s) && negb (i_buf s (u32 (i_e s - 1) mod INPUT_BUF) =? NL) then
        let (s', echo) := kill_line n (Input (i_buf s) (i_r s) (i_w s) (u32 (i_e s - 1))) in
        (s', BACKSPACE :: echo)
      else (s, [])
  end.

(** The body of the loop of [consoleintr], for a character that [getc] returned. *)
Definition consoleintr_char (c : Z) (s : input) : input * effects :=
  if c =? CTRL_Z then (s, Effects [] false true false)
  else if c =? CTRL_P then (s, Effects [] false false true)
  else if c =? CTRL_U then
    let (s', echo) := kill_line (Z.to_nat (u32 (i_e s - i_w s))) s in
    (s', Effects echo false false false)
  else if (c =? CTRL_H) || (c =? DEL) then
    if negb (i_e s =? i_w s) then
      (Input (i_buf s) (i_r s) (i_w s) (u32 (i_e s - 1)), Effects [BACKSPACE] false false false)
    else (s, no_effect)
  else if negb (c =? 0) && (u32 (i_e s - i_r s) <? INPUT_BUF) then
    let c := if c =? CR then NL else c in
    let buf := <[i_e s mod INPUT_BUF := s8 c]> (i_buf s) in
    let e := u32 (i_e s + 1) in
    if (c =? NL) || (c =? CTRL_D) || (e =? u32 (i_r s + INPUT_BUF)) then
      (Input buf (i_r s) e e, Effects [c] true false false)
    else (Input buf (i_r s) (i_w s) e, Effects [c] false false false)
  else (s, no_effect).

Definition consoleintr (cs : list Z) (s : input) : input :=
  foldl (fun s c => (consoleintr_char c s).1) s cs.

Inductive read_result : Type :=
  | CDone (bytes : list Z)               (** returned, with the bytes in [dst] *)
  | CFail
  | CSleep (bytes : list Z) (n : nat).   (** asleep, [n] bytes still wanted *)

(** The loop of [consoleread], with [got] already in [dst]. *)
Fixpoint consoleread (killed : bool) (n : nat) (got : list Z) (s : input) : input * read_result :=
  match n with
  | O => (s, CDone got)
  | S n' =>
      if i_r s =? i_w s then
        if killed then (s, CFail) else (s, CSleep got n)
      else
        let c := i_buf s (i_r s mod INPUT_BUF) in
        let s' := Input (i_buf s) (u32 (i_r s + 1)) (i_w s) (i_e s) in
        if c =? CTRL_D then
          match got with
          | [] => (s', CDone got)
          | _ => (Input (i_buf s) (u32 (i_r s' - 1)) (i_w s) (i_e s), CDone got)
          end
        else if c =? NL then (s', CDone (got ++ [c]))
        else consoleread killed n' (got ++ [c]) s'
  end.

(** ** The screen *)

(** CGA memory, 25 rows of 80 cells, and the cursor registers 14 and 15. *)
Record screen : Type := Screen {
  crt : Z -> Z;
  cur_hi : Z;
  cur_lo : Z;
}.

Definition CELLS : Z := 2000.

(** [None] is an access outside the memory. *)
Definition crt_set (i v : Z) (m : Z -> Z) : option (Z -> Z) :=
  if (0 <=? i) && (i <? CELLS) then Some (<[i := v]> m) else None.
Definition crt_move (dst src n : Z) (m : Z -> Z) : option (Z -> Z) :=
  if (0 <=? dst) && (0 <=? src) && (dst + n <=? CELLS) && (src + n <=? CELLS) then
    Some (fun i => if (dst <=? i) && (i <? dst + n) then m (i - dst + src) else m i)
  else None.
Definition crt_clear (i n : Z) (m : Z -> Z) : option (Z -> Z) :=
  if (0 <=? i) && (0 <=? n) && (i + n <=? CELLS) then
    Some (fun j => if (i <=? j) && (j <? i + n) then 0 else m j)
  else None.

(** [inb] of the two registers; [pos] after the character; the scroll. *)
Definition cursor (s : screen) : Z := Z.lor (Z.shiftl (cur_hi s) 8) (cur_lo s).

Definition cga_char (c pos : Z) (m : Z -> Z) : option (Z * (Z -> Z)) :=
  if c =? NL then Some (pos + (80 - pos mod 80), m)
  else if c =? BACKSPACE then Some (if 0 <? pos then pos - 1 else pos, m)
  else
    match crt_set pos (Z.lor (Z.land c 255) 1792) m with   (* 0x0700 *)
    | Some m => Some (pos + 1, m)
    | None => None
    end.

Definition cga_scroll (pos : Z) (m : Z -> Z) : option (Z * (Z -> Z)) :=
  if 24 <=? pos / 80 then
    match crt_move 0 80 (23 * 80) m with
    | None => None
    | Some m =>
        let pos := pos - 80 in
        match crt_clear pos (24 * 80 - pos) m with
        | Some m => Some (pos, m)
        | None => None
        end
    end
  else Some (pos, m).

Definition cgaputc (c : Z) (s : screen) : option screen :=
  match cga_char c (cursor s) (crt s) with
  | None => None
  | Some (pos, m) =>
      match cga_scroll pos m with
      | None => None
      | Some (pos, m) =>
          match crt_set pos (Z.lor 32 1792) m with
          | Some m => Some (Screen m (u8 (Z.shiftr pos 8)) (u8 pos))
          | None => None
          end
      end
  end.

(** ** The specification of the input: lists *)

(** The characters that readers can have, and the line being edited. *)
Record editor : Type := Editor { ready : list Z; line : list Z }.

Definition type_char (c : Z) (a : editor) : editor :=
  if (c =? CTRL_Z) || (c =? CTRL_P) then a
  else if c =? CTRL_U then Editor (ready a) []
  else if (c =? CTRL_H) || (c =? DEL) then Editor (ready a) (removelast (line a))
  else if negb (c =? 0) && (Z.of_nat (length (ready a ++ line a)) <? INPUT_BUF) then
    let c := if c =? CR then NL else c in
    let l := line a ++ [s8 c] in
    if (c =? NL) || (c =? CTRL_D) || (Z.of_nat (length (ready a ++ l)) =? INPUT_BUF)
    then Editor (ready a ++ l) [] else Editor (ready a) l
  else a.

(** A read takes what is ready, up to and with a newline, up to a ^D, which it
    takes only if it is the first. *)
Fixpoint take_line (killed : bool) (n : nat) (got : list Z) (l : list Z) : list Z * read_result :=
  match n, l with
  | O, _ => (l, CDone got)
  | S _, [] => (l, if killed then CFail else CSleep got n)
  | S n', c :: l' =>
      if c =? CTRL_D then (match got with [] => l' | _ => l end, CDone got)
      else if c =? NL then (l', CDone (got ++ [c]))
      else take_line killed n' (got ++ [c]) l'
  end.

Definition abs (s : input) : editor :=
  Editor (slice INPUT_BUF (i_buf s) (i_r s) (i_w s)) (slice INPUT_BUF (i_buf s) (i_w s) (i_e s)).

Record input_ok (s : input) : Prop := {
  io_r : 0 <= i_r s < 4294967296;
  io_w : 0 <= i_w s < 4294967296;
  io_e : 0 <= i_e s < 4294967296;
  io_order : u32 (i_e s - i_r s) = u32 (i_w s - i_r s) + u32 (i_e s - i_w s);
  io_size : u32 (i_e s - i_r s) <= INPUT_BUF;
  io_line : Forall (fun c => c <> NL) (line (abs s));
}.

(** ** The ring implements the lists *)

Lemma buf_pos : 0 < INPUT_BUF.
Proof. done. Qed.
Lemma buf_div : 4294967296 mod INPUT_BUF = 0.
Proof. done. Qed.
#[local] Hint Resolve buf_pos buf_div : core.

(** The characters in the ring. *)
Lemma abs_lengths s :
  input_ok s ->
  Z.of_nat (length (ready (abs s))) = u32 (i_w s - i_r s) /\
  Z.of_nat (length (line (abs s))) = u32 (i_e s - i_w s) /\
  Z.of_nat (length (ready (abs s) ++ line (abs s))) = u32 (i_e s - i_r s).
Proof.
  intros I. unfold abs; simpl. rewrite length_app, Nat2Z.inj_add, !length_slice, (io_order _ I). done.
Qed.

Lemma line_empty s : input_ok s -> (i_e s =? i_w s) = bool_decide (line (abs s) = []).
Proof.
  intros I. destruct (abs_lengths s I) as (_ & Hl & _). destruct I as [_ Hw He _ _ _].
  destruct (Z.eqb_spec (i_e s) (i_w s)) as [E|E].
  - rewrite E, Z.sub_diag in Hl. change (u32 0) with 0 in Hl.
    rewrite bool_decide_eq_true_2; [done|]. destruct (line (abs s)); [done|simpl in Hl; lia].
  - rewrite bool_decide_eq_false_2; [done|]. intros Hn. rewrite Hn in Hl. simpl in Hl. word_lia.
Qed.

Lemma ready_empty s : input_ok s -> (i_r s =? i_w s) = bool_decide (ready (abs s) = []).
Proof.
  intros I. destruct (abs_lengths s I) as (Hl & _). destruct I as [Hr Hw _ _ _ _].
  destruct (Z.eqb_spec (i_r s) (i_w s)) as [E|E].
  - rewrite E, Z.sub_diag in Hl. change (u32 0) with 0 in Hl.
    rewrite bool_decide_eq_true_2; [done|]. destruct (ready (abs s)); [done|simpl in Hl; lia].
  - rewrite bool_decide_eq_false_2; [done|]. intros Hn. rewrite Hn in Hl. simpl in Hl. word_lia.
Qed.

(** Taking back the last character of the line. *)
Lemma unput s :
  input_ok s -> line (abs s) <> [] ->
  let s' := Input (i_buf s) (i_r s) (i_w s) (u32 (i_e s - 1)) in
  line (abs s) = line (abs s') ++ [i_buf s (u32 (i_e s - 1) mod INPUT_BUF)] /\
  ready (abs s') = ready (abs s) /\ input_ok s' /\ u32 (i_e s' - i_w s') = u32 (i_e s - i_w s) - 1.
Proof.
  intros I Hne s'. destruct (abs_lengths s I) as (_ & Hl & _).
  assert (Hpos : u32 (i_e s - i_w s) <> 0).
  { rewrite <-Hl. destruct (line (abs s)); [done|simpl; lia]. }
  destruct I as [Hr Hw He Ho Hs Hn].
  assert (Hline : line (abs s) = line (abs s') ++ [i_buf s (u32 (i_e s - 1) mod INPUT_BUF)]).
  { unfold abs, s'; simpl. by apply slice_pop_back. }
  assert (Hd : u32 (i_e s' - i_w s') = u32 (i_e s - i_w s) - 1) by (unfold s'; simpl; word_lia).
  split; [done|]. split; [done|]. split; [|done].
  split; simpl; try done; try apply u32_bound.
  - unfold INPUT_BUF in *. word_lia.
  - unfold INPUT_BUF in *. word_lia.
  - rewrite Hline in Hn. by apply Forall_app in Hn as [Hn _].
Qed.

Lemma kill_line_spec n : forall s,
  input_ok s -> Z.of_nat n = u32 (i_e s - i_w s) ->
  input_ok (kill_line n s).1 /\ abs (kill_line n s).1 = Editor (ready (abs s)) [].
Proof.
  induction n as [|n IH]; intros s I Hn; cbn [kill_line].
  - split; [done|]. destruct (abs_lengths s I) as (_ & Hl & _).
    destruct (abs s) as [rd [|c l]] eqn:E; [done|]. simpl in Hl. lia.
  - rewrite line_empty by done. destruct (abs_lengths s I) as (_ & Hl & _).
    rewrite bool_decide_eq_false_2; [|intros E; rewrite E in Hl; simpl in Hl; lia].
    destruct (unput s I) as (H1 & H2 & H3 & H4); [intros E; rewrite E in Hl; simpl in Hl; lia|].
    assert (Hb : i_buf s (u32 (i_e s - 1) mod INPUT_BUF) <> NL).
    { pose proof (io_line _ I) as Hf. rewrite H1 in Hf. apply Forall_app in Hf as [_ Hf].
      by apply Forall_cons in Hf as [Hf _]. }
    apply Z.eqb_neq in Hb. rewrite Hb. cbn [negb andb].
    destruct (IH _ H3) as [K1 K2]; [lia|].
    destruct (kill_line n _) as [s' echo]. simpl in *. split; [done|]. by rewrite K2.
Qed.

(** A character at the end of the line. *)
Lemma put_char s x :
  input_ok s -> u32 (i_e s - i_r s) < INPUT_BUF -> x <> NL ->
  let s' := Input (<[i_e s mod INPUT_BUF := x]> (i_buf s)) (i_r s) (i_w s) (u32 (i_e s + 1)) in
  input_ok s' /\ abs s' = Editor (ready (abs s)) (line (abs s) ++ [x]).
Proof.
  intros [Hr Hw He Ho Hs Hn] Hlt Hx s'.
  assert (Habs : abs s' = Editor (ready (abs s)) (line (abs s) ++ [x])).
  { unfold abs, s'; simpl. pose proof (u32_bound (i_w s - i_r s)). pose proof (u32_bound (i_e s - i_w s)).
    f_equal; [apply slice_write|apply slice_push]; auto; unfold INPUT_BUF in *; lia. }
  split; [|done]. split; simpl; try done; try apply u32_bound.
  - unfold INPUT_BUF in *. word_lia.
  - unfold INPUT_BUF in *. word_lia.
  - change (Forall (fun c => c <> NL) (line (abs s'))). rewrite Habs. simpl.
    apply Forall_app. split; [done|]. by constructor.
Qed.

(** A character that ends the line. *)
Lemma put_commit s x :
  input_ok s -> u32 (i_e s - i_r s) < INPUT_BUF ->
  let e := u32 (i_e s + 1) in
  let s' := Input (<[i_e s mod INPUT_BUF := x]> (i_buf s)) (i_r s) e e in
  input_ok s' /\ abs s' = Editor (ready (abs s) ++ line (abs s) ++ [x]) [].
Proof.
  intros [Hr Hw He Ho Hs Hn] Hlt e s'.
  assert (Habs : abs s' = Editor (ready (abs s) ++ line (abs s) ++ [x]) []).
  { unfold abs, s', e; simpl. rewrite slice_nil, slice_push by (auto || unfold INPUT_BUF in *; lia).
    rewrite (slice_app INPUT_BUF _ (i_r s) (i_w s)) by (auto; lia). by rewrite app_assoc. }
  split; [|done]. split; simpl; try done; try apply u32_bound.
  - rewrite Z.sub_diag. change (u32 0) with 0. lia.
  - unfold e, INPUT_BUF in *. word_lia.
  - change (Forall (fun c => c <> NL) (line (abs s'))). by rewrite Habs.
Qed.

Lemma s8_NL c : 0 <= c < 256 -> c <> NL -> s8 c <> NL.
Proof. unfold NL, s8, u8. intros. rewrite Z.mod_small by lia. btest; lia. Qed.

Lemma consoleintr_char_spec c s :
  input_ok s -> 0 <= c < 256 ->
  input_ok (consoleintr_char c s).1 /\ abs (consoleintr_char c s).1 = type_char c (abs s).
Proof.
  intros I Hc. unfold consoleintr_char, type_char.
  destruct (abs_lengths s I) as (Hl1 & Hl2 & Hl3).
  destruct (c =? CTRL_Z); [done|]. destruct (c =? CTRL_P); [done|]. cbn [orb].
  destruct (c =? CTRL_U).
  { pose proof (u32_bound (i_e s - i_w s)).
    destruct (kill_line_spec (Z.to_nat (u32 (i_e s - i_w s))) s I) as [K1 K2]; [lia|].
    by destruct (kill_line _ s). }
  destruct ((c =? CTRL_H) || (c =? DEL)).
  { rewrite line_empty by done. case_bool_decide as Hn; cbn [negb fst].
    - split; [done|]. rewrite Hn. destruct (abs s) as [rd l]. simpl in *. by subst.
    - destruct (unput s I Hn) as (H1 & H2 & H3 & _). split; [done|].
      rewrite H1, removelast_last, <-H2. done. }
  rewrite Hl3. destruct (negb (c =? 0)); [|done]. cbn [andb].
  destruct (Z.ltb_spec (u32 (i_e s - i_r s)) INPUT_BUF) as [Hlt|]; [|done].
  set (c' := if c =? CR then NL else c). cbv zeta.
  assert (Hfull : (u32 (i_e s + 1) =? u32 (i_r s + INPUT_BUF)) =
    (Z.of_nat (length (ready (abs s) ++ line (abs s) ++ [s8 c'])) =? INPUT_BUF)).
  { rewrite app_assoc, length_app, Nat2Z.inj_add, Hl3. cbn [length]. destruct I as [Hr Hw He _ _ _].
    unfold INPUT_BUF in *. repeat btest; try done; word_lia. }
  rewrite Hfull. destruct ((c' =? NL) || (c' =? CTRL_D) || _) eqn:Eb; cbn [fst].
  - apply (put_commit s (s8 c') I Hlt).
  - apply (put_char s (s8 c') I Hlt). apply orb_false_iff in Eb as [[Hnl%Z.eqb_neq _]%orb_false_iff _].
    apply s8_NL; [|done]. unfold c', CR, NL. btest; lia.
Qed.

(** A character taken from the front. *)
Lemma take_char s c l :
  input_ok s -> ready (abs s) = c :: l ->
  let s' := Input (i_buf s) (u32 (i_r s + 1)) (i_w s) (i_e s) in
  i_buf s (i_r s mod INPUT_BUF) = c /\ input_ok s' /\ abs s' = Editor l (line (abs s)).
Proof.
  intros I Hc s'. destruct (abs_lengths s I) as (Hl & _). rewrite Hc in Hl. simpl in Hl.
  assert (Hp : slice INPUT_BUF (i_buf s) (i_r s) (i_w s) =
    i_buf s (i_r s mod INPUT_BUF) :: slice INPUT_BUF (i_buf s) (u32 (i_r s + 1)) (i_w s)).
  { apply slice_pop; auto. lia. }
  unfold abs in Hc. simpl in Hc. rewrite Hp in Hc. injection Hc as H1 H2. split; [done|].
  assert (Habs : abs s' = Editor l (line (abs s))) by (unfold abs, s'; simpl; by rewrite H2).
  destruct I as [Hr Hw He Ho Hs Hn]. split; [|done].
  split; simpl; try done; try apply u32_bound.
  - unfold INPUT_BUF in *. word_lia.
  - unfold INPUT_BUF in *. word_lia.
Qed.

Lemma consoleread_spec killed n : forall got s,
  input_ok s ->
  let '(s', r) := consoleread killed n got s in
  let '(l, r') := take_line killed n got (ready (abs s)) in
  input_ok s' /\ r = r' /\ abs s' = Editor l (line (abs s)).
Proof.
  induction n as [|n IH]; intros got s I; cbn [consoleread take_line].
  - by destruct (abs s).
  - rewrite ready_empty by done. destruct (ready (abs s)) as [|c l] eqn:Er.
    + rewrite bool_decide_eq_true_2 by done. destruct killed; (split; [done|split; [done|]]);
        destruct (abs s); simpl in *; by subst.
    + rewrite bool_decide_eq_false_2 by done. destruct (take_char s c l I Er) as (-> & I' & Ha).
      set (s' := Input _ (u32 (i_r s + 1)) _ _) in *. cbn [i_r]. destruct (c =? CTRL_D).
      * destruct got; [done|].
        assert (Es : Input (i_buf s) (u32 (i_r s' - 1)) (i_w s) (i_e s) = s).
        { destruct s as [b r w e]. simpl. f_equal. destruct I as [Hr _ _ _ _ _]. simpl in Hr. word_lia. }
        rewrite Es. split; [done|]. split; [done|]. rewrite <-Er. by destruct (abs s).
      * destruct (c =? NL); [done|]. specialize (IH (got ++ [c]) s' I'). rewrite Ha in IH. simpl in IH. done.
Qed.

(** The console's line discipline: on a ring whose counters wrap, the
    interrupt handler edits lines as the list specification says (echoed
    characters, backspace, kill line, at most 128 characters, a line given to
    the readers when it is ended or the ring is full), and a read takes
    exactly the characters of finished lines, in order, with its treatment of
    newline and ^D. *)
Theorem console_line_discipline :
  (forall c s, input_ok s -> 0 <= c < 256 ->
     input_ok (consoleintr_char c s).1 /\ abs (consoleintr_char c s).1 = type_char c (abs s)) /\
  (forall killed n got s, input_ok s ->
     input_ok (consoleread killed n got s).1 /\
     (consoleread killed n got s).2 = (take_line killed n got (ready (abs s))).2 /\
     abs (consoleread killed n got s).1 =
       Editor (take_line killed n got (ready (abs s))).1 (line (abs s))).
Proof.
  split.
  - intros c s. apply consoleintr_char_spec.
  - intros killed n got s I. pose proof (consoleread_spec killed n got s I) as H.
    destruct (consoleread killed n got s), (take_line killed n got _). done.
Qed.

Definition input0 : input := Input (fun _ => 0) 4294967290 4294967290 4294967290.

(** Typing a, x, backspace, b, return across the wrap-around of the counters. *)
Lemma console_line_discipline_witness :
  input_ok input0 /\ input_ok (consoleintr_char 97 input0).1 /\
  (consoleread false 10 [] (consoleintr [97; 120; 8; 98; 13] input0)).2 = CDone [97; 98; 10].
Proof.
  assert (I : input_ok input0).
  { split; simpl; try lia; try done; vm_compute; try done; constructor. }
  split; [exact I|]. split; [|vm_compute; reflexivity].
  apply (proj1 console_line_discipline); [exact I|lia].
Defined.

(** ** The screen stays in its memory *)

Lemma lor_bytes h l : 0 <= l < 256 -> Z.lor (Z.shiftl h 8) l = h * 256 + l.
Proof.
  intros Hl. assert (Hz : Z.land (Z.shiftl h 8) l = 0).
  { apply Z.bits_inj'. intros n Hn. rewrite Z.land_spec, Z.bits_0.
    destruct (Z.lt_ge_cases n 8) as [H8|H8]; [by rewrite Z.shiftl_spec_low|].
    rewrite <-(Z.mod_small l (2 ^ 8)) by lia. rewrite (Z.mod_pow2_bits_high l 8 n) by lia. apply andb_false_r. }
  rewrite <-Z.lxor_lor, <-Z.add_nocarry_lxor by done. by rewrite Z.shiftl_mul_pow2 by lia.
Qed.

Lemma cursor_set m pos :
  0 <= pos < 65536 -> cursor (Screen m (u8 (Z.shiftr pos 8)) (u8 pos)) = pos.
Proof.
  intros Hp. unfold cursor. simpl. unfold u8 at 2. rewrite lor_bytes by (apply Z.mod_pos_bound; lia).
  unfold u8. rewrite Z.shiftr_div_pow2 by lia. change (2 ^ 8) with 256.
  rewrite (Z.mod_small (pos / 256)) by (split; [apply Z.div_pos; lia|apply Z.div_lt_upper_bound; lia]).
  pose proof (Z.div_mod pos 256). lia.
Qed.

Definition cell (c : Z) : Z := Z.lor (Z.land c 255) 1792.

(** The screen: with the cursor in the first 24 rows, [cgaputc] never
    writes outside the 25 rows of the CGA memory, leaves the cursor in the
    first 24 rows again, and the character it was given is on the screen left
    of the cursor, also when it made the screen scroll. *)
Theorem cgaputc_in_bounds c s :
  0 <= cursor s < 1920 ->
  exists s', cgaputc c s = Some s' /\ 0 <= cursor s' < 1920 /\
    (c <> NL -> c <> BACKSPACE ->
       crt s' (cursor s' - 1) = cell c /\
       cursor s' = if cursor s =? 1919 then 1840 else cursor s + 1).
Proof.
  intros Hp. unfold cgaputc, cga_char, cell. set (p := cursor s) in *. clearbody p.
  pose proof (Z.mod_pos_bound p 80 ltac:(lia)) as Hm. pose proof (Z.div_mod p 80 ltac:(lia)) as Hdm.
  assert (Hscroll : forall q m, 0 <= q <= 1920 -> exists m' q',
    cga_scroll q m = Some (q', m') /\ q' = (if q =? 1920 then 1840 else q) /\
    (0 < q -> q <= 1920 -> m' (q' - 1) = m (q - 1))).
  { intros q m Hq. unfold cga_scroll. destruct (Z.leb_spec 24 (q / 80)) as [H24|H24].
    - assert (q = 1920) as -> by (Z.to_euclidean_division_equations; lia).
      eexists _, _. split; [vm_compute; reflexivity|]. split; [done|]. intros _ _. reflexivity.
    - assert (q <> 1920) by (intros ->; by vm_compute in H24).
      exists m, q. split; [done|]. split; [|done]. btest; lia. }
  assert (Hset : forall q v m, 0 <= q < 1920 -> crt_set q v m = Some (<[q := v]> m)).
  { intros q v m Hq. unfold crt_set, CELLS. by rewrite (proj2 (Z.leb_le 0 q)), (proj2 (Z.ltb_lt q 2000)) by lia. }
  assert (Hend : forall q m, 0 <= q <= 1920 -> exists s', match cga_scroll q m with
      | None => None
      | Some (pos, m) => match crt_set pos (Z.lor 32 1792) m with
        | Some m => Some (Screen m (u8 (Z.shiftr pos 8)) (u8 pos)) | None => None end
      end = Some s' /\ cursor s' = (if q =? 1920 then 1840 else q) /\ (0 < q -> crt s' (cursor s' - 1) = m (q - 1))).
  { intros q m Hq. destruct (Hscroll q m Hq) as (m' & q' & -> & Eq & Hcell).
    assert (Hq' : 0 <= q' < 1920) by (rewrite Eq; btest; lia).
    rewrite Hset by done. eexists. split; [reflexivity|]. rewrite cursor_set by lia. split; [done|].
    simpl. intros H0. rewrite fn_lookup_insert_ne by lia. apply Hcell; lia. }
  destruct (Z.eqb_spec c NL) as [->|Hnl].
  { destruct (Hend (p + (80 - p mod 80)) (crt s)) as (s' & -> & Hc & _); [Z.to_euclidean_division_equations; lia|].
    exists s'. split; [done|]. split; [|done]. rewrite Hc. btest; Z.to_euclidean_division_equations; lia. }
  destruct (Z.eqb_spec c BACKSPACE) as [->|Hbs].
  { destruct (Hend (if 0 <? p then p - 1 else p) (crt s)) as (s' & -> & Hc & _); [btest; lia|].
    exists s'. split; [done|]. split; [|done]. rewrite Hc. repeat btest; lia. }
  rewrite Hset by done.
  destruct (Hend (p + 1) (<[p := Z.lor (Z.land c 255) 1792]> (crt s))) as (s' & -> & Hc & Hcell); [lia|].
  exists s'. split; [done|]. rewrite Hc. split; [repeat btest; lia|]. intros _ _. split.
  - rewrite <-Hc, Hcell by lia. replace (p + 1 - 1) with p by lia. by rewrite fn_lookup_insert.
  - repeat btest; lia.
Qed.

Lemma cgaputc_in_bounds_witness :
  exists s', cgaputc 65 (Screen (fun _ => 0) 7 127) = Some s' /\ 0 <= cursor s' < 1920.
Proof.
  destruct (cgaputc_in_bounds 65 (Screen (fun _ => 0) 7 127)) as (s' & H1 & H2 & _).
  - vm_compute; split; [discriminate|reflexivity].
  - exists s'. split; [exact H1|exact H2].
Defined.
