(* ===== verification/Kbd.v ===== *)
(** * The keyboard: kbd.c, kbd.h

    [kbdgetc] turns the scan codes of the keyboard controller into characters.
    It keeps the state of the modifier keys, of the locks and of the escape
    prefix in the bits of the static variable [shift].  The controller is given
    by what its two ports read. *)
From S2P Require Import Prelude.
From Stdlib Require Import Ascii.

Definition KBS_DIB : Z := 1.
Definition NO : Z := 0.
Definition SHIFT : Z := 1.
Definition CTL : Z := 2.
Definition ALT : Z := 4.
Definition CAPSLOCK : Z := 8.
Definition NUMLOCK : Z := 16.
Definition SCROLLLOCK : Z := 32.
Definition E0ESC : Z := 64.

Definition KEY_HOME : Z := 224.
Definition KEY_END : Z := 225.
Definition KEY_UP : Z := 226.
Definition KEY_DN : Z := 227.
Definition KEY_LF : Z := 228.
Definition KEY_RT : Z := 229.
Definition KEY_PGUP : Z := 230.
Definition KEY_PGDN : Z := 231.
Definition KEY_INS : Z := 232.
Definition KEY_DEL : Z := 233.

Definition chr (a : ascii) : Z := Z.of_N (N_of_ascii a).
Definition str (s : string) : list Z := chr <$> String.list_ascii_of_string s.
(** [C(x)], stored in a [uchar] *)
Definition C (x : Z) : Z := u8 (x - 64).

(** An array of 256 bytes with an initializer: the first values, then the values
    with a designated index; the rest is 0. *)
Definition table (first : list Z) (designated : list (Z * Z)) (i : Z) : Z :=
  match list_find (fun p => fst p = i) designated with
  | Some (_, (_, v)) => v
  | None => default 0 (first !! Z.to_nat i)
  end.

Definition shiftcode : Z -> Z :=
  table [] [(29, CTL); (42, SHIFT); (54, SHIFT); (56, ALT); (157, CTL); (184, ALT)].

Definition togglecode : Z -> Z := table [] [(58, CAPSLOCK); (69, NUMLOCK); (70, SCROLLLOCK)].

(** The keys with an escape code that [normalmap] and [shiftmap] share, given
    what the key pad's Enter and slash produce. *)
Definition extended (enter slash : Z) : list (Z * Z) :=
  [(156, enter); (181, slash); (200, KEY_UP); (208, KEY_DN); (201, KEY_PGUP); (209, KEY_PGDN);
   (203, KEY_LF); (205, KEY_RT); (151, KEY_HOME); (207, KEY_END); (210, KEY_INS); (211, KEY_DEL)].

Definition normalmap : Z -> Z := table
  ([NO; 27] ++ str "123456"
   ++ str "7890-=" ++ [8; 9]
   ++ str "qwertyui"
   ++ str "op[]" ++ [10; NO] ++ str "as"
   ++ str "dfghjkl;"
   ++ str "'`" ++ [NO] ++ str "\zxcv"
   ++ str "bnm,./" ++ [NO] ++ str "*"
   ++ [NO] ++ str " " ++ [NO; NO; NO; NO; NO; NO]
   ++ [NO; NO; NO; NO; NO; NO; NO] ++ str "7"
   ++ str "89-456+1"
   ++ str "230." ++ [NO; NO; NO; NO])
  (extended 10 47).

Definition shiftmap : Z -> Z := table
  ([NO; 27] ++ str "!@#$%^"
   ++ str "&*()_+" ++ [8; 9]
   ++ str "QWERTYUI"
   ++ str "OP{}" ++ [10; NO] ++ str "AS"
   ++ str "DFGHJKL:"
   ++ [34] ++ str "~" ++ [NO] ++ str "|ZXCV"
   ++ str "BNM<>?" ++ [NO] ++ str "*"
   ++ [NO] ++ str " " ++ [NO; NO; NO; NO; NO; NO]
   ++ [NO; NO; NO; NO; NO; NO; NO] ++ str "7"
   ++ str "89-456+1"
   ++ str "230." ++ [NO; NO; NO; NO])
  (extended 10 47).

Definition ctlmap : Z -> Z := table
  ([NO; NO; NO; NO; NO; NO; NO; NO]
   ++ [NO; NO; NO; NO; NO; NO; NO; NO]
   ++ (C <$> str "QWERTYUI")
   ++ (C <$> str "OP") ++ [NO; NO; 13; NO] ++ (C <$> str "AS")
   ++ (C <$> str "DFGHJKL") ++ [NO]
   ++ [NO; NO; NO] ++ (C <$> str "\ZXCV")
   ++ (C <$> str "BNM") ++ [NO; NO] ++ (C <$> str "/") ++ [NO; NO])
  (extended 13 (C 47)).

(** [charcode] *)
Definition charcode (i : Z) : Z -> Z :=
  if i =? 0 then normalmap else if i =? 1 then shiftmap else ctlmap.

Definition is_set (bits x : Z) : bool := negb (Z.land x bits =? 0).
Definition lower (c : Z) : bool := (97 <=? c) && (c <=? 122).
Definition upper (c : Z) : bool := (65 <=? c) && (c <=? 90).

(** The result and [shift] afterwards, from what the status port and the data
    port read. *)
Definition kbdgetc (st data shift : Z) : Z * Z :=
  if Z.land st KBS_DIB =? 0 then (-1, shift)
  else if data =? 224 then (0, Z.lor shift E0ESC)
  else if is_set 128 data then
    let data := if is_set E0ESC shift then data else Z.land data 127 in
    (0, Z.ldiff shift (Z.lor (shiftcode data) E0ESC))
  else
    let '(data, shift) :=
      if is_set E0ESC shift then (Z.lor data 128, Z.ldiff shift E0ESC) else (data, shift) in
    let shift := Z.lor shift (shiftcode data) in
    let shift := Z.lxor shift (togglecode data) in
    let c := charcode (Z.land shift (Z.lor CTL SHIFT)) data in
    let c :=
      if is_set CAPSLOCK shift then
        if lower c then c + (65 - 97) else if upper c then c + (97 - 65) else c
      else c in
    (c, shift).

(** The characters for a sequence of scan codes, each there to be read. *)
Fixpoint kbd_codes (codes : list Z) (shift : Z) : list Z * Z :=
  match codes with
  | [] => ([], shift)
  | d :: codes =>
      let (c, shift) := kbdgetc KBS_DIB d shift in
      let (cs, shift) := kbd_codes codes shift in
      (c :: cs, shift)
  end.

(** ** What the keys mean *)

(** The scan codes of the letters. *)
Definition letters : list (Z * ascii) :=
  [(16, "q"); (17, "w"); (18, "e"); (19, "r"); (20, "t"); (21, "y"); (22, "u"); (23, "i"); (24, "o"); (25, "p");
   (30, "a"); (31, "s"); (32, "d"); (33, "f"); (34, "g"); (35, "h"); (36, "j"); (37, "k"); (38, "l");
   (44, "z"); (45, "x"); (46, "c"); (47, "v"); (48, "b"); (49, "n"); (50, "m")]%char.

(** What a letter key types with the modifiers and the lock of [shift]. *)
Definition typed (l : ascii) (shift : Z) : Z :=
  if is_set CTL shift then chr l - 96
  else if xorb (is_set SHIFT shift) (is_set CAPSLOCK shift) then chr l - 32
  else chr l.

(** A property of the 128 values of [shift] and of 256 scan codes is decided by
    evaluation. *)
Definition upto (n : nat) : list Z := Z.of_nat <$> seq 0 n.

Lemma upto_all n (P : Z -> bool) : forallb P (upto n) = true -> forall x, 0 <= x < Z.of_nat n -> P x = true.
Proof.
  rewrite forallb_forall. intros H x Hx. apply H. unfold upto. apply list_elem_of_In, list_elem_of_fmap.
  exists (Z.to_nat x). split; [lia|]. apply elem_of_seq. lia.
Qed.

Lemma upto_all2 m n (P : Z -> Z -> bool) :
  forallb (fun x => forallb (P x) (upto n)) (upto m) = true ->
  forall x y, 0 <= x < Z.of_nat m -> 0 <= y < Z.of_nat n -> P x y = true.
Proof.
  intros H x y Hx Hy. apply (upto_all n); [|done].
  exact (upto_all m (fun x => forallb (P x) (upto n)) H x Hx).
Qed.

(** The state stays a 7-bit value, and the character is a byte. *)
Definition in_range (d s : Z) : bool :=
  let (c, s') := kbdgetc KBS_DIB d s in (0 <=? c) && (c <? 256) && (0 <=? s') && (s' <? 128).

Lemma kbdgetc_range d s : 0 <= d < 256 -> 0 <= s < 128 -> in_range d s = true.
Proof. revert d s. apply (upto_all2 256 128 in_range). vm_compute. reflexivity. Qed.

(** Pressing and releasing the key [d]. *)
Definition press_release_ok (d s : Z) : bool :=
  let (cs, s') := kbd_codes [d; d + 128] s in
  (s' =? Z.ldiff (Z.lxor s (togglecode d)) (shiftcode d)).
Lemma press_release d s : 0 <= d < 96 -> 0 <= s < 64 -> press_release_ok d s = true.
Proof. revert d s. apply (upto_all2 96 64 press_release_ok). vm_compute. reflexivity. Qed.

Definition letter_ok (s : Z) : bool :=
  forallb (fun p => let (c, s') := kbdgetc KBS_DIB (fst p) s in (c =? typed (snd p) s) && (s' =? s)) letters.
Lemma letters_ok s : 0 <= s < 64 -> letter_ok s = true.
Proof. revert s. apply (upto_all 64 letter_ok). vm_compute. reflexivity. Qed.

Lemma codes_range codes : forall s cs s',
  Forall (fun d => 0 <= d < 256) codes -> 0 <= s < 128 -> kbd_codes codes s = (cs, s') ->
  length cs = length codes /\ Forall (fun c => 0 <= c < 256) cs /\ 0 <= s' < 128.
Proof.
  induction codes as [|d codes IH]; intros s cs s' Hd Hs; cbn [kbd_codes].
  - intros [= <- <-]. split; [done|]. by split; [constructor|].
  - apply Forall_cons in Hd as [Hd Hds]. pose proof (kbdgetc_range d s Hd Hs) as R. unfold in_range in R.
    destruct (kbdgetc KBS_DIB d s) as [c s1]. destruct (kbd_codes codes s1) as [cs1 s2] eqn:E. intros [= <- <-].
    rewrite !andb_true_iff, !Z.leb_le, !Z.ltb_lt in R. destruct (IH s1 cs1 s2 Hds ltac:(lia) E) as (Hl & Hc & Hs2). split; [simpl; by rewrite Hl|].
    split; [|done]. constructor; [lia|done].
Qed.

(** Whatever bytes the keyboard sends, every character is a byte, the
    modifier state is a 7-bit value, and so every table is read inside its 256
    entries; a letter key types the letter in the case that Shift and Caps Lock
    together ask for, or its control character, and does not change the
    modifiers; pressing and releasing any key leaves the modifiers as they were
    but for the key's own. *)
Theorem kbd_correct (codes : list Z) (s : Z) :
  Forall (fun d => 0 <= d < 256) codes -> 0 <= s < 64 ->
  let (cs, s') := kbd_codes codes s in
  length cs = length codes /\ Forall (fun c => 0 <= c < 256) cs /\ 0 <= s' < 128 /\
  (s' < 64 ->
    (forall d l, (d, l) ∈ letters -> kbdgetc KBS_DIB d s' = (typed l s', s')) /\
    (forall d, 0 <= d < 96 ->
      (kbd_codes [d; d + 128] s').2 = Z.ldiff (Z.lxor s' (togglecode d)) (shiftcode d))).
Proof.
  intros Hd Hs. destruct (kbd_codes codes s) as [cs s'] eqn:E.
  destruct (codes_range codes s cs s' Hd ltac:(lia) E) as (Hl & Hc & Hs').
  split; [done|]. split; [done|]. split; [done|]. intros Hlt. split.
  - intros d l Hin. pose proof (letters_ok s' ltac:(lia)) as H. unfold letter_ok in H.
    rewrite forallb_forall in H. specialize (H (d, l) ltac:(by apply list_elem_of_In)). cbn [fst snd] in H.
    destruct (kbdgetc KBS_DIB d s') as [c s1]. apply andb_true_iff in H as [H1 H2].
    apply Z.eqb_eq in H1, H2. by subst.
  - intros d Hdr. pose proof (press_release d s' Hdr ltac:(lia)) as H. unfold press_release_ok in H.
    destruct (kbd_codes [d; d + 128] s') as [cs1 s1]. by apply Z.eqb_eq in H.
Qed.

(** Shift down, [a] pressed and released, Shift up. *)
Lemma kbd_correct_witness :
  kbd_codes [42; 30; 158; 170] 0 = ([0; 65; 0; 0], 0) /\ Forall (fun c => 0 <= c < 256) [0; 65; 0; 0].
Proof.
  split; [reflexivity|].
  assert (H : Forall (fun d => 0 <= d < 256) [42; 30; 158; 170]) by (repeat constructor; lia).
  pose proof (kbd_correct [42; 30; 158; 170] 0 H ltac:(lia)) as K.
  change (kbd_codes [42; 30; 158; 170] 0) with ([0; 65; 0; 0], 0) in K. exact (proj1 (proj2 K)).
Defined.
