(* ===== verification/Conout.v ===== *)
(** * The console as a device: the rest of console.c, the interrupt handlers of the keyboard and the serial
    port, and the listing of processes

    Characters go to the serial port ([Uart]) and to the screen ([Console]) through [consputc]; [cprintf], [panic],
    [consolewrite] and [procdump] print with it.  Characters come from the serial port or the keyboard
    ([Kbd]) through [consoleintr] to the line editor of [Console].  The two locks are those of [Spinlock], as the CPU
    [me] takes them. *)
From S2P Require Import Prelude Proc Printf Console Kbd Apic Uart Spinlock.

(** [panicked] and [cons.locking]; all locks; the devices; [input]; and how often readers were woken up and the
    machine was restarted. *)
Record console : Type := Con {
  panicked : bool;
  locking : bool;
  k_locks : Spinlock.machine;
  k_uart : uartst;
  k_screen : screen;
  k_input : input;
  k_codes : list Z;   (* scan codes that wait in the keyboard *)
  k_shift : Z;        (* [shift] of [kbdgetc] *)
  k_wakeups : nat;
  k_reboots : nat;
}.

Section Setters.
Variable s : console.
Definition set_panicked (b : bool) : console :=
  Con b (locking s) (k_locks s) (k_uart s) (k_screen s) (k_input s) (k_codes s) (k_shift s) (k_wakeups s) (k_reboots s).
Definition set_locking (b : bool) : console :=
  Con (panicked s) b (k_locks s) (k_uart s) (k_screen s) (k_input s) (k_codes s) (k_shift s) (k_wakeups s) (k_reboots s).
Definition set_locks (l : Spinlock.machine) : console :=
  Con (panicked s) (locking s) l (k_uart s) (k_screen s) (k_input s) (k_codes s) (k_shift s) (k_wakeups s) (k_reboots s).
Definition set_out (u : uartst) (c : screen) : console :=
  Con (panicked s) (locking s) (k_locks s) u c (k_input s) (k_codes s) (k_shift s) (k_wakeups s) (k_reboots s).
Definition set_input (i : input) (wakeups reboots : nat) : console :=
  Con (panicked s) (locking s) (k_locks s) (k_uart s) (k_screen s) i (k_codes s) (k_shift s) wakeups reboots.
Definition set_kbd (codes : list Z) (shift : Z) : console :=
  Con (panicked s) (locking s) (k_locks s) (k_uart s) (k_screen s) (k_input s) codes shift (k_wakeups s) (k_reboots s).
End Setters.

Definition on_locks (c : M Spinlock.machine unit) : M console unit := fun s =>
  match c (k_locks s) with
  | Ok (_, l) => Ok (tt, set_locks s l)
  | Panic msg => Panic msg
  | Block => Block
  | Fuel => Fuel
  end.
Definition on_uart {A} (c : M uartst A) : M console A := fun s =>
  match c (k_uart s) with
  | Ok (a, u) => Ok (a, set_out s u (k_screen s))
  | Panic msg => Panic msg
  | Block => Block
  | Fuel => Fuel
  end.

(** [cons.lock] and [input.lock]. *)
Definition cons_lock : nat := 0.
Definition input_lock : nat := 1.

Definition KERNBASE : Z := 18446603336221196288.

Section Console.
Variable delay : Z -> nat.   (* of the serial port *)
Variable me : nat.           (* the CPU *)
Variable fuel : nat.         (* for the spin locks *)

(** ** Characters *)

(** A write outside the memory of the screen is an error of the model, which [cgaputc_in_bounds] excludes. *)
Definition put_screen (c : Z) : M console unit := fun s =>
  match cgaputc c (k_screen s) with
  | Some sc => Ok (tt, set_out s (k_uart s) sc)
  | None => Panic "crt"
  end.
(** With [panicked] set the CPU halts for good. *)
Definition consputc (c : Z) : M console unit :=
  let! p := gets panicked in
  if p then block else
  do! (if c =? BACKSPACE then
         do! on_uart (uartputc delay 8) in do! on_uart (uartputc delay 32) in on_uart (uartputc delay 8)
       else on_uart (uartputc delay c)) in
  put_screen c.
Fixpoint consputs (l : list Z) : M console unit :=
  match l with [] => ret tt | c :: l => do! consputc c in consputs l end.

(** ** cprintf and panic *)

(** The characters of the text in order; a conversion without its argument is undefined behaviour. *)
Definition cprintf (fmt : list Z) (args : list arg) : M console unit :=
  let! locked := gets locking in
  do! (if locked then on_locks (acquire fuel me cons_lock) else ret tt) in
  do! (match Printf.cprintf fmt args with Some text => consputs text | None => panic "va_arg" end) in
  if locked then on_locks (release me cons_lock) else ret tt.

(** The loop of [getstackpcs] with [n] entries left; [mem] is what a word of the stack holds. *)
Fixpoint stack_pcs (mem : Z -> Z) (n : nat) (rbp : Z) : list Z :=
  match n with
  | O => []
  | S n =>
      if (rbp =? 0) || (rbp <? KERNBASE) || (rbp =? 4294967295) then repeat 0 (S n)
      else mem (u64 (rbp + 8)) :: stack_pcs mem n (mem rbp)
  end.
Definition getstackpcs (mem : Z -> Z) (rbp : Z) : list Z := stack_pcs mem 10 rbp.

Definition cli : M Spinlock.machine unit :=
  modify (fun m => set_cpu me (Cpu (ncli (cpus m me)) (intena (cpus m me)) false) m).

Definition fmt_panic : list Z := Eval vm_compute in str "cpu%d: panic: ".
Definition fmt_pc : list Z := Eval vm_compute in str " %p" ++ [10].
Fixpoint print_pcs (pcs : list Z) : M console unit :=
  match pcs with [] => ret tt | pc :: pcs => do! cprintf fmt_pc [AInt pc] in print_pcs pcs end.

(** Up to the loop in which the CPU halts for good; [rbp] is the frame of [panic]. *)
Definition panic (mem : Z -> Z) (rbp : Z) (s : list Z) : M console unit :=
  do! on_locks cli in
  do! modify (fun st => set_locking st false) in
  do! cprintf fmt_panic [AInt (Z.of_nat me)] in
  do! cprintf s [] in
  do! cprintf [10] [] in
  do! print_pcs (getstackpcs mem rbp) in
  modify (fun st => set_panicked st true).

(** ** procdump *)

Definition state_name (st : procstate) : list Z :=
  str match st with
      | UNUSED => "unused" | EMBRYO => "embryo" | SLEEPING => "sleep " | RUNNABLE => "runble"
      | RUNNING => "run   " | ZOMBIE => "zombie" | KZOMBIE => "kzombie"
      end.
Fixpoint cstring (l : list Z) : list Z :=
  match l with [] => [] | c :: l => if c =? 0 then [] else c :: cstring l end.

Definition fmt_proc : list Z := Eval vm_compute in str "%d %s %s".
Definition fmt_addr : list Z := Eval vm_compute in str " %p".
Fixpoint dump_pcs (pcs : list Z) : M console unit :=
  match pcs with
  | [] => ret tt
  | pc :: pcs => if pc =? 0 then ret tt else do! cprintf fmt_addr [AInt pc] in dump_pcs pcs
  end.
(** The processes of the table; [rbp] of the [i]th is [p->context->rbp]. *)
Fixpoint procdump (mem : Z -> Z) (rbp : nat -> Z) (i : nat) (ps : list proc) : M console unit :=
  match ps with
  | [] => ret tt
  | p :: ps =>
      if decide (p_state p = UNUSED) then procdump mem rbp (S i) ps else
      do! cprintf fmt_proc [AInt (p_pid p); AStr (Some (state_name (p_state p))); AStr (Some (cstring (p_name p)))] in
      do! (if decide (p_state p = SLEEPING) then dump_pcs (getstackpcs mem (u64 (rbp i + 16))) else ret tt) in
      do! cprintf [10] [] in
      procdump mem rbp (S i) ps
  end.

(** ** Input *)

Section Intr.
(** What ^P runs. *)
Variable listing : M console unit.

(** What the body of the loop does beside the editor. *)
Definition do_effects (e : effects) : M console unit :=
  do! consputs (ef_echo e) in
  if ef_procdump e then listing else ret tt.
Definition wakes (b : bool) (n : nat) : nat := if b then S n else n.
Definition one_char (c : Z) : M console unit :=
  let! s := get in
  let (i, e) := consoleintr_char c (k_input s) in
  do! put (set_input s i (wakes (ef_wakeup e) (k_wakeups s)) (wakes (ef_reboot e) (k_reboots s))) in
  do_effects e.
Fixpoint intr_loop (n : nat) (getc : M console Z) : M console unit :=
  match n with
  | O => out_of_fuel
  | S n =>
      let! c := getc in
      if 0 <=? c then do! one_char c in intr_loop n getc else ret tt
  end.
Definition consoleintr (n : nat) (getc : M console Z) : M console unit :=
  do! on_locks (acquire fuel me input_lock) in
  do! intr_loop n getc in
  on_locks (release me input_lock).

Definition uartintr (n : nat) : M console unit := consoleintr n (on_uart uartgetc).

(** [kbdgetc] with the status and data ports of the keyboard. *)
Definition kbd_getc : M console Z :=
  let! s := get in
  match k_codes s with
  | [] => let (c, shift) := kbdgetc 0 0 (k_shift s) in do! put (set_kbd s [] shift) in ret c
  | d :: ds => let (c, shift) := kbdgetc KBS_DIB d (k_shift s) in do! put (set_kbd s ds shift) in ret c
  end.
Definition kbdintr (n : nat) : M console unit := consoleintr n kbd_getc.
End Intr.

(** ** consolewrite and consoleinit *)

(** [iunlock] and [ilock] of the inode are the caller's. *)
Definition consolewrite (iunlock ilock : M console unit) (buf : list Z) : M console Z :=
  do! iunlock in
  do! on_locks (acquire fuel me cons_lock) in
  do! consputs (map (fun c => Z.land c 255) buf) in
  do! on_locks (release me cons_lock) in
  do! ilock in
  ret (Z.of_nat (length buf)).

Definition IRQ_KBD : Z := 1.
(** The two entries of [devsw] are constants of the model of files. *)
Definition consoleinit : M console unit :=
  do! on_locks (modify (set_lock cons_lock initlock)) in
  do! on_locks (modify (set_lock input_lock initlock)) in
  do! modify (fun s => set_locking s true) in
  on_uart (with_ioapic (ioapicenable IRQ_KBD 0)).
End Console.

(** ** Proofs: the devices *)

(** What a character puts on the serial line. *)
Definition serial (c : Z) : list Z := if c =? BACKSPACE then [8; 32; 8] else [u8 c].
Definition serials (l : list Z) : list Z := concat (map serial l).
Fixpoint screen_puts (l : list Z) (sc : screen) : option screen :=
  match l with
  | [] => Some sc
  | c :: l => match cgaputc c sc with Some sc => screen_puts l sc | None => None end
  end.

(** Nobody panicked, the cursor is on the screen, and the serial port, if there is one, works. *)
Record con_ok (s : console) : Prop := {
  co_panicked : panicked s = false;
  co_cursor : 0 <= cursor (k_screen s) < 1920;
  co_uart : u_uart (k_uart s) = true -> uart_ok (k_uart s);
}.

(** From [s] to [s'] the characters [l] went to both devices, and nothing else changed. *)
Record prints (l : list Z) (s s' : console) : Prop := {
  pr_rest : s' = set_out s (k_uart s') (k_screen s');
  pr_ok : con_ok s';
  pr_uart : u_uart (k_uart s') = u_uart (k_uart s) /\ settings (k_uart s') = settings (k_uart s);
  pr_serial : sent (k_uart s') = if u_uart (k_uart s) then sent (k_uart s) ++ serials l else sent (k_uart s);
  pr_screen : screen_puts l (k_screen s) = Some (k_screen s');
}.

Lemma screen_puts_app l1 l2 sc : screen_puts (l1 ++ l2) sc = match screen_puts l1 sc with Some sc => screen_puts l2 sc | None => None end.
Proof. revert sc. induction l1 as [|c l1 IH]; intros sc; [done|]. simpl. by destruct (cgaputc c sc). Qed.
Lemma serials_app l1 l2 : serials (l1 ++ l2) = serials l1 ++ serials l2.
Proof. unfold serials. by rewrite map_app, concat_app. Qed.

Lemma prints_nil s : con_ok s -> prints [] s s.
Proof. intros Hs. split; [by destruct s|done|done|by rewrite app_nil_r; destruct (u_uart _)|done]. Qed.
Lemma prints_app l1 l2 s1 s2 s3 : prints l1 s1 s2 -> prints l2 s2 s3 -> prints (l1 ++ l2) s1 s3.
Proof.
  intros [R1 O1 [U1 S1] L1 C1] [R2 O2 [U2 S2] L2 C2]. split; [|done|split; congruence| |].
  - rewrite R2, R1. done.
  - rewrite L2, L1, U1, serials_app. destruct (u_uart (k_uart s1)); [by rewrite (assoc_L (++))|done].
  - by rewrite screen_puts_app, C1.
Qed.

Section ConsoleProofs.
Variable delay : Z -> nat.
Variable me fuel : nat.
Hypothesis Hdelay : forall c, (delay c <= 128)%nat.

Lemma uart_char c s : con_ok s ->
  exists u, on_uart (uartputc delay c) s = Ok (tt, set_out s u (k_screen s)) /\
    (u_uart u = true -> uart_ok u) /\ u_uart u = u_uart (k_uart s) /\ settings u = settings (k_uart s) /\
    sent u = if u_uart (k_uart s) then sent (k_uart s) ++ [u8 c] else sent (k_uart s).
Proof.
  intros Hs. destruct (u_uart (k_uart s)) eqn:Hu.
  - destruct (uartputc_spec delay Hdelay c (k_uart s) (co_uart s Hs Hu)) as (u & Hr & Hok & Hse & Hset).
    exists u. unfold on_uart. rewrite Hr. split; [done|]. split; [done|]. by rewrite (uo_uart u Hok).
  - exists (k_uart s). unfold on_uart, uartputc, bind, gets. rewrite Hu. by destruct s.
Qed.

Lemma consputc_spec c s : con_ok s -> exists s', consputc delay c s = Ok (tt, s') /\ prints [c] s s'.
Proof.
  intros Hs. assert (Hser : exists u, (if c =? BACKSPACE then
      bind (on_uart (uartputc delay 8)) (fun _ => bind (on_uart (uartputc delay 32)) (fun _ => on_uart (uartputc delay 8)))
      else on_uart (uartputc delay c)) s = Ok (tt, set_out s u (k_screen s)) /\
    (u_uart u = true -> uart_ok u) /\ u_uart u = u_uart (k_uart s) /\ settings u = settings (k_uart s) /\
    sent u = if u_uart (k_uart s) then sent (k_uart s) ++ serial c else sent (k_uart s)).
  { unfold serial. destruct (c =? BACKSPACE); [|by apply uart_char].
    destruct (uart_char 8 s Hs) as (u1 & R1 & K1 & U1 & S1 & L1).
    destruct (uart_char 32 (set_out s u1 (k_screen s))) as (u2 & R2 & K2 & U2 & S2 & L2); [by destruct Hs|].
    destruct (uart_char 8 (set_out s u2 (k_screen s))) as (u3 & R3 & K3 & U3 & S3 & L3); [by destruct Hs|].
    exists u3. unfold bind. rewrite R1, R2. split; [done|]. simpl in *. split; [done|]. split; [congruence|]. split; [congruence|].
    rewrite L3, L2, L1, U2, U1. destruct (u_uart (k_uart s)); [by rewrite <-!(assoc_L (++))|done]. }
  destruct Hser as (u & Hr & Hok & Hu & Hset & Hse).
  destruct (cgaputc_in_bounds c (k_screen s) (co_cursor s Hs)) as (sc & Hsc & Hcur & _).
  exists (set_out s u sc). split.
  - unfold consputc. unfold bind at 1, gets. rewrite (co_panicked s Hs). unfold bind at 1. rewrite Hr. unfold put_screen. simpl. by rewrite Hsc.
  - split; simpl; [done|split; simpl; [apply Hs|done|done]|done| |by rewrite Hsc].
    rewrite Hse. unfold serials. simpl. by rewrite app_nil_r.
Qed.

Lemma consputs_spec l : forall s, con_ok s -> exists s', consputs delay l s = Ok (tt, s') /\ prints l s s'.
Proof.
  induction l as [|c l IH]; intros s Hs; [exists s; split; [done|by apply prints_nil]|].
  destruct (consputc_spec c s Hs) as (s1 & R1 & P1). destruct (IH s1 (pr_ok _ _ _ P1)) as (s2 & R2 & P2).
  exists s2. simpl. unfold bind. rewrite R1. split; [done|]. exact (prints_app [c] l s s1 s2 P1 P2).
Qed.

(** ** Proofs: the locks *)

Definition held_by (l : nat) (m : Spinlock.machine) : Spinlock.machine :=
  Machine (<[me := pushcli_cpu (cpus m me)]> (cpus m)) (<[l := Spinlock 1 (Some me)]> (locks m)).
(** The CPU after [acquire] and [release]. *)
Definition left_cpu (x : cpu) : cpu := Cpu (ncli x) (if ncli x =? 0 then eflags_IF x else intena x) (eflags_IF x).
Definition left_by (m : Spinlock.machine) : Spinlock.machine := Machine (<[me := left_cpu (cpus m me)]> (cpus m)) (locks m).

Record free (l : nat) (m : Spinlock.machine) : Prop := {
  fr_lock : locks m l = initlock;
  fr_ncli : 0 <= ncli (cpus m me);
  fr_if : 0 < ncli (cpus m me) -> eflags_IF (cpus m me) = false;
}.

Lemma acquire_free l m : free l m -> acquire (S fuel) me l m = Ok (tt, held_by l m).
Proof.
  intros [Hl Hn Hi]. unfold acquire, bind, pushcli, modify, get, holding. simpl. rewrite Hl. simpl. unfold bind, xchg. simpl. rewrite Hl. simpl.
  unfold set_lk_cpu, modify, ret. simpl. rewrite fn_lookup_insert. simpl. unfold held_by, set_lock. simpl. do 3 f_equal.
  apply functional_extensionality. intros k. fn_cases.
Qed.
Lemma release_held l m : free l m -> release me l (held_by l m) = Ok (tt, left_by m).
Proof.
  intros [Hl Hn Hi]. unfold release, bind, get, holding. simpl. rewrite fn_lookup_insert. simpl. rewrite bool_decide_true by done. simpl.
  rewrite !fn_lookup_insert. unfold popcli. simpl. rewrite !fn_lookup_insert.
  rewrite popcli_pushcli_cpu by done. unfold left_by, set_cpu, set_lock. simpl. do 3 f_equal.
  - apply functional_extensionality. intros k. fn_cases. 
  - apply functional_extensionality. intros k. fn_cases.
Qed.
End ConsoleProofs.

Section PrintProofs.
Variable delay : Z -> nat.
Variable me fuel : nat.
Hypothesis Hdelay : forall c, (delay c <= 128)%nat.

(** [l] was printed, with [cons.lock] taken and given back. *)
Definition says (l : list Z) (s s' : console) : Prop :=
  prints l s (set_locks s' (k_locks s)) /\ k_locks s' = if locking s then left_by me (k_locks s) else k_locks s.

Lemma con_ok_locks s m : con_ok s -> con_ok (set_locks s m).
Proof. by intros []. Qed.
Lemma prints_locks l s s' m : prints l s s' -> prints l (set_locks s m) (set_locks s' m).
Proof. intros [R O U L C]. split; [by rewrite R|by apply con_ok_locks|done|done|done]. Qed.
Lemma prints_k_locks l s s' : prints l s s' -> k_locks s' = k_locks s.
Proof. intros [R _ _ _ _]. by rewrite R. Qed.

Lemma locked_puts l s : con_ok s -> free me cons_lock (k_locks s) ->
  exists s', bind (on_locks (acquire (S fuel) me cons_lock)) (fun _ => bind (consputs delay l) (fun _ => on_locks (release me cons_lock))) s = Ok (tt, s') /\
    prints l s (set_locks s' (k_locks s)) /\ k_locks s' = left_by me (k_locks s).
Proof.
  intros Hs Hf. destruct (consputs_spec delay Hdelay l (set_locks s (held_by me cons_lock (k_locks s)))) as (s1 & R1 & P1); [by apply con_ok_locks|].
  exists (set_locks s1 (left_by me (k_locks s))). split.
  - unfold bind at 1, on_locks at 1. rewrite acquire_free by done. unfold bind. rewrite R1. unfold on_locks.
    rewrite (prints_k_locks _ _ _ P1). simpl. by rewrite release_held.
  - split; [|done]. apply (prints_locks _ _ _ (k_locks s)) in P1. by destruct s.
Qed.

Lemma cprintf_spec fmt args text s : Printf.cprintf fmt args = Some text -> con_ok s ->
  (locking s = true -> free me cons_lock (k_locks s)) ->
  exists s', cprintf delay me (S fuel) fmt args s = Ok (tt, s') /\ says text s s'.
Proof.
  intros Ht Hs Hf. unfold cprintf. rewrite Ht. unfold bind at 1, gets. unfold says. destruct (locking s).
  - by apply locked_puts; [|apply Hf].
  - destruct (consputs_spec delay Hdelay text s Hs) as (s1 & R1 & P1). exists s1. unfold bind, ret. rewrite R1. split; [done|].
    rewrite <-(prints_k_locks _ _ _ P1). split; [|done]. by destruct s1.
Qed.

(** Without the lock nothing but the devices changes; nor with interrupts off already. *)
Definition steady (s : console) : Prop :=
  locking s = true -> free me cons_lock (k_locks s) /\ 0 < ncli (cpus (k_locks s) me).
Lemma left_same m : 0 < ncli (cpus m me) -> left_by me m = m.
Proof.
  intros Hn. destruct m as [cs ls]. unfold left_by, left_cpu. simpl in *. rewrite (proj2 (Z.eqb_neq _ _)) by lia.
  f_equal. apply functional_extensionality. intros k. destruct (decide (k = me)) as [->|]; [rewrite fn_lookup_insert; by destruct (cs me)|by rewrite fn_lookup_insert_ne].
Qed.
Lemma steady_cprintf fmt args text s : Printf.cprintf fmt args = Some text -> con_ok s -> steady s ->
  exists s', cprintf delay me (S fuel) fmt args s = Ok (tt, s') /\ prints text s s' /\ steady s'.
Proof.
  intros Ht Hs Hst. destruct (cprintf_spec fmt args text s Ht Hs) as (s' & R & P & K); [by intros H; apply Hst|].
  exists s'. split; [done|].
  assert (E : k_locks s' = k_locks s). { rewrite K. destruct (locking s) eqn:El; [|done]. apply left_same. by apply Hst. }
  assert (Hp : prints text s s') by (rewrite <-E in P; by destruct s').
  split; [done|]. unfold steady. rewrite E. rewrite (pr_rest _ _ _ Hp). simpl. exact Hst.
Qed.

(** ** Proofs: panic *)

Definition pc_line (pc : Z) : list Z := 32 :: print_x64 (u64 pc) ++ [10].
Lemma pc_text pc : Printf.cprintf fmt_pc [AInt pc] = Some (pc_line pc).
Proof. reflexivity. Qed.
Lemma print_pcs_spec pcs : forall s, con_ok s -> steady s ->
  exists s', print_pcs delay me (S fuel) pcs s = Ok (tt, s') /\ prints (concat (map pc_line pcs)) s s' /\ steady s'.
Proof.
  induction pcs as [|pc pcs IH]; intros s Hs Hst; [exists s; split; [done|]; split; [by apply prints_nil|done]|].
  destruct (steady_cprintf fmt_pc [AInt pc] _ s (pc_text pc) Hs Hst) as (s1 & R1 & P1 & T1).
  destruct (IH s1 (pr_ok _ _ _ P1) T1) as (s2 & R2 & P2 & T2).
  exists s2. cbn [print_pcs]. unfold bind. rewrite R1. split; [done|]. split; [|done]. exact (prints_app _ _ _ _ _ P1 P2).
Qed.

Lemma panic_header : (me < 8)%nat -> Printf.cprintf fmt_panic [AInt (Z.of_nat me)] = Some (str "cpu" ++ [48 + Z.of_nat me] ++ str ": panic: ").
Proof.
  intros Hm. assert (H : forall n, (n < 8)%nat -> Printf.cprintf fmt_panic [AInt (Z.of_nat n)] = Some (str "cpu" ++ [48 + Z.of_nat n] ++ str ": panic: ")); [|by apply H].
  clear. intros n Hn. do 8 (destruct n as [|n]; [reflexivity|]). lia.
Qed.

Definition panic_text (mem : Z -> Z) (rbp : Z) (text : list Z) : list Z :=
  str "cpu" ++ [48 + Z.of_nat me] ++ str ": panic: " ++ text ++ [10] ++ concat (map pc_line (getstackpcs mem rbp)).

(** The locks when interrupts are off. *)
Definition cli_by (m : Spinlock.machine) : Spinlock.machine := set_cpu me (Cpu (ncli (cpus m me)) (intena (cpus m me)) false) m.

Lemma panic_run mem rbp msg text s :
  (me < 8)%nat -> con_ok s -> Printf.cprintf msg [] = Some text ->
  exists s', prints (panic_text mem rbp text) (set_locking (set_locks s (cli_by (k_locks s))) false) s' /\
    panic delay me (S fuel) mem rbp msg s = Ok (tt, set_panicked s' true).
Proof.
  intros Hm Hs Ht. unfold panic.
  assert (Hc : on_locks (cli me) s = Ok (tt, set_locks s (cli_by (k_locks s)))) by done.
  set (s0 := set_locking (set_locks s (cli_by (k_locks s))) false).
  assert (H0 : con_ok s0) by (by destruct Hs). assert (T0 : steady s0) by done.
  destruct (steady_cprintf _ _ _ s0 (panic_header Hm) H0 T0) as (s1 & R1 & P1 & T1).
  destruct (steady_cprintf msg [] text s1 Ht (pr_ok _ _ _ P1) T1) as (s2 & R2 & P2 & T2).
  destruct (steady_cprintf [10] [] [10] s2 eq_refl (pr_ok _ _ _ P2) T2) as (s3 & R3 & P3 & T3).
  destruct (print_pcs_spec (getstackpcs mem rbp) s3 (pr_ok _ _ _ P3) T3) as (s4 & R4 & P4 & T4).
  exists s4. split.
  - pose proof (prints_app _ _ _ _ _ (prints_app _ _ _ _ _ (prints_app _ _ _ _ _ P1 P2) P3) P4) as P. rewrite <-!(assoc_L (++)) in P. exact P.
  - unfold bind at 1. rewrite Hc. unfold bind at 1, modify at 1. fold s0. unfold bind. rewrite R1, R2, R3, R4. done.
Qed.
End PrintProofs.

(** ** What is printed *)

(** The console prints: with [cons.lock] free, [cprintf] puts exactly its text on the screen and on the serial
    line, [consolewrite] exactly the bytes of its buffer, and returns their number; each gives the lock back,
    with the interrupts as they were. *)
Theorem console_output delay me fuel s :
  (forall c, (delay c <= 128)%nat) -> con_ok s -> free me cons_lock (k_locks s) ->
  (forall fmt args text, Printf.cprintf fmt args = Some text ->
     exists s', cprintf delay me (S fuel) fmt args s = Ok (tt, s') /\ says me text s s') /\
  (forall buf, exists s', consolewrite delay me (S fuel) (ret tt) (ret tt) buf s = Ok (Z.of_nat (length buf), s') /\
     prints (map (fun c => Z.land c 255) buf) s (set_locks s' (k_locks s)) /\ k_locks s' = left_by me (k_locks s)).
Proof.
  intros Hd Hs Hf. split.
  - intros fmt args text Ht. by apply cprintf_spec.
  - intros buf. destruct (locked_puts delay me fuel Hd (map (fun c => Z.land c 255) buf) s Hs Hf) as (s' & R & P).
    exists s'. split; [|done]. unfold consolewrite, ret in *. unfold bind at 1. unfold bind in *.
    destruct (on_locks (acquire (S fuel) me cons_lock) s) as [[? s1]| | |]; [|done..].
    destruct (consputs delay _ s1) as [[? s2]| | |]; [|done..]. by rewrite R.
Qed.


(** ** The listing of processes *)

Section Listing.
Variable delay : Z -> nat.
Variable me fuel : nat.
Hypothesis Hdelay : forall c, (delay c <= 128)%nat.

Fixpoint nonzero (l : list Z) : list Z :=
  match l with [] => [] | x :: l => if x =? 0 then [] else x :: nonzero l end.
Definition addr_text (pc : Z) : list Z := 32 :: print_x64 (u64 pc).
Definition proc_text (mem : Z -> Z) (rbp : Z) (p : proc) : list Z :=
  default [] (print_d (s32 (p_pid p))) ++ [32] ++ state_name (p_state p) ++ [32] ++ cstring (p_name p) ++
  (if decide (p_state p = SLEEPING) then concat (map addr_text (nonzero (getstackpcs mem (u64 (rbp + 16))))) else []) ++ [10].
Fixpoint listing_text (mem : Z -> Z) (rbp : nat -> Z) (i : nat) (ps : list proc) : list Z :=
  match ps with
  | [] => []
  | p :: ps => (if decide (p_state p = UNUSED) then [] else proc_text mem (rbp i) p) ++ listing_text mem rbp (S i) ps
  end.

Lemma fmt_proc_text pid a b :
  Printf.cprintf fmt_proc [AInt pid; AStr (Some a); AStr (Some b)] = Some (default [] (print_d (s32 pid)) ++ [32] ++ a ++ [32] ++ b).
Proof.
  destruct (print_d_correct (s32 pid) (s32_bound pid)) as (ds & Hd & _). unfold Printf.cprintf, fmt_proc. simpl. rewrite Hd. simpl. by rewrite app_nil_r.
Qed.
Lemma fmt_addr_text pc : Printf.cprintf fmt_addr [AInt pc] = Some (addr_text pc).
Proof. unfold Printf.cprintf, fmt_addr. cbn [format Z.eqb negb Pos.eqb andb then_put arg_addr fmap option_fmap option_map]. by rewrite app_nil_r. Qed.

Lemma dump_pcs_spec pcs : forall s, con_ok s -> steady me s ->
  exists s', dump_pcs delay me (S fuel) pcs s = Ok (tt, s') /\ prints (concat (map addr_text (nonzero pcs))) s s' /\ steady me s'.
Proof.
  induction pcs as [|pc pcs IH]; intros s Hs Hst; [exists s; split; [done|]; split; [by apply prints_nil|done]|].
  cbn [dump_pcs nonzero]. destruct (pc =? 0); [exists s; split; [done|]; split; [by apply prints_nil|done]|].
  destruct (steady_cprintf delay me fuel Hdelay fmt_addr [AInt pc] _ s (fmt_addr_text pc) Hs Hst) as (s1 & R1 & P1 & T1).
  destruct (IH s1 (pr_ok _ _ _ P1) T1) as (s2 & R2 & P2 & T2).
  exists s2. unfold bind. rewrite R1. split; [done|]. split; [|done]. exact (prints_app _ _ _ _ _ P1 P2).
Qed.

Lemma procdump_spec mem rbp ps : forall i s, con_ok s -> steady me s ->
  exists s', procdump delay me (S fuel) mem rbp i ps s = Ok (tt, s') /\ prints (listing_text mem rbp i ps) s s' /\ steady me s'.
Proof.
  induction ps as [|p ps IH]; intros i s Hs Hst; [exists s; split; [done|]; split; [by apply prints_nil|done]|].
  cbn [procdump listing_text]. case_decide as Hu; [by apply IH|].
  destruct (steady_cprintf delay me fuel Hdelay _ _ _ s (fmt_proc_text (p_pid p) (state_name (p_state p)) (cstring (p_name p))) Hs Hst) as (s1 & R1 & P1 & T1).
  assert (H2 : exists s2, (if decide (p_state p = SLEEPING) then dump_pcs delay me (S fuel) (getstackpcs mem (u64 (rbp i + 16))) else ret tt) s1 = Ok (tt, s2) /\
    prints (if decide (p_state p = SLEEPING) then concat (map addr_text (nonzero (getstackpcs mem (u64 (rbp i + 16))))) else []) s1 s2 /\ steady me s2).
  { case_decide; [apply dump_pcs_spec; [apply P1|done]|]. exists s1. split; [done|]. split; [apply prints_nil; apply P1|done]. }
  destruct H2 as (s2 & R2 & P2 & T2).
  destruct (steady_cprintf delay me fuel Hdelay [10] [] [10] s2 eq_refl (pr_ok _ _ _ P2) T2) as (s3 & R3 & P3 & T3).
  destruct (IH (S i) s3 (pr_ok _ _ _ P3) T3) as (s4 & R4 & P4 & T4).
  exists s4. unfold bind. rewrite R1, R2, R3. split; [done|]. split; [|done].
  pose proof (prints_app _ _ _ _ _ (prints_app _ _ _ _ _ (prints_app _ _ _ _ _ P1 P2) P3) P4) as P.
  unfold proc_text. rewrite <-!(assoc_L (++)) in P |- *. exact P.
Qed.
End Listing.

(** The listing shows the wrong addresses: [getstackpcs] takes the frame pointer itself, and [procdump] gives it the
    address two words above, as it did when the function subtracted two words.  For a process that
    sleeps in a frame whose return address is there to be read, here the only frame of a stack, it
    prints no address. *)
Definition one_frame (a : Z) : Z := if a =? KERNBASE + 8 then 18446603336222244864 else 0.
Lemma procdump_misses_frame :
  nonzero (getstackpcs one_frame KERNBASE) = [18446603336222244864] /\
  nonzero (getstackpcs one_frame (u64 (KERNBASE + 16))) = [].
Proof. split; vm_compute; reflexivity. Qed.

(** ** What is typed *)

(** A device that characters come from: [pending cs s] if [getc] returns [cs] one by one and then -1, whatever is printed
    and edited between the calls. *)
Class Source (getc : M console Z) := {
  pending : list Z -> console -> Prop;
  next_char : forall c cs s, pending (c :: cs) s -> con_ok s -> 0 <= c < 256 /\
    exists s', getc s = Ok (c, s') /\ pending cs s' /\ con_ok s' /\ k_input s' = k_input s /\ k_locks s' = k_locks s /\ locking s' = locking s;
  no_char : forall s, pending [] s -> con_ok s ->
    exists s', getc s = Ok (-1, s') /\ pending [] s' /\ con_ok s' /\ k_input s' = k_input s /\ k_locks s' = k_locks s /\ locking s' = locking s;
  pending_prints : forall cs l s s', pending cs s -> prints l s s' -> pending cs s';
  pending_input : forall cs s i w r, pending cs s -> pending cs (set_input s i w r);
  pending_locks : forall cs s m, pending cs s -> pending cs (set_locks s m);
}.

(** The characters of the serial port. *)
#[export, refine] Instance uart_source : Source (on_uart uartgetc) :=
  {| pending cs s := u_rx (k_uart s) = cs /\ uart_ok (k_uart s) |}.
Proof.
  - intros c cs s [Hr Hu] Hs. pose proof (uo_rx _ Hu) as Hb. rewrite Hr in Hb. apply Forall_cons in Hb as [Hc _]. split; [done|].
    destruct (uartgetc_spec (k_uart s) Hu) as (u & Hg & Hok & Ht & _ & _). rewrite Hr in Hg, Ht.
    eexists. unfold on_uart. rewrite Hg. split; [reflexivity|]. split; [done|]. split; [|done]. by destruct Hs.
  - intros s [Hr Hu] Hs. destruct (uartgetc_spec (k_uart s) Hu) as (u & Hg & Hok & Ht & _ & _). rewrite Hr in Hg, Ht.
    eexists. unfold on_uart. rewrite Hg. split; [reflexivity|]. split; [done|]. split; [|done]. by destruct Hs.
  - intros cs l s s' [Hr Hu] [R O [U1 U2] _ _]. split; [|apply (co_uart _ O); rewrite U1; apply Hu].
    unfold settings in U2. congruence.
  - done.
  - done.
Defined.

(** The characters of the keyboard. *)
#[export, refine] Instance kbd_source : Source kbd_getc :=
  {| pending cs s := cs = (kbd_codes (k_codes s) (k_shift s)).1 /\ Forall (fun d => 0 <= d < 256) (k_codes s) /\ 0 <= k_shift s < 128 |}.
Proof.
  - intros c cs s (He & Hd & Hsh) Hs. unfold kbd_getc, bind, get. destruct (k_codes s) as [|d ds]; [done|].
    apply Forall_cons in Hd as [Hd Hds]. pose proof (kbdgetc_range d (k_shift s) Hd Hsh) as Hr. unfold in_range in Hr.
    cbn [kbd_codes] in He. destruct (kbdgetc KBS_DIB d (k_shift s)) as [c' sh]. destruct (kbd_codes ds sh) as [cs' sh'] eqn:E.
    simpl in He. injection He as -> ->. rewrite !andb_true_iff, !Z.leb_le, !Z.ltb_lt in Hr. split; [lia|].
    eexists. unfold put, ret. split; [reflexivity|]. cbn [k_codes k_shift set_kbd]. rewrite E. split; [split; [done|]; split; [done|lia]|].
    split; [by destruct Hs|done].
  - intros s (He & Hd & Hsh) Hs. unfold kbd_getc, bind, get. destruct (k_codes s) as [|d ds].
    + eexists. unfold put, ret. split; [reflexivity|]. split; [done|]. split; [by destruct Hs|done].
    + cbn [kbd_codes] in He. destruct (kbdgetc KBS_DIB d (k_shift s)) as [c' sh]. by destruct (kbd_codes ds sh).
  - intros cs l s s' H [R _ _ _ _]. by rewrite R.
  - done.
  - done.
Defined.

Section Input.
Variable delay : Z -> nat.
Variable me fuel : nat.
Hypothesis Hdelay : forall c, (delay c <= 128)%nat.
(** What ^P prints. *)
Variable mem : Z -> Z.
Variable rbp : nat -> Z.
Variable ps : list proc.
Let listing : M console unit := procdump delay me (S fuel) mem rbp 0 ps.

Lemma prints_input l s s' : prints l s s' -> k_input s' = k_input s.
Proof. intros [R _ _ _ _]. by rewrite R. Qed.

Lemma one_char_spec {getc} {src : Source getc} c cs s :
  pending cs s -> con_ok s -> steady me s ->
  exists s', one_char delay listing c s = Ok (tt, s') /\ pending cs s' /\ con_ok s' /\ steady me s' /\
    k_input s' = (consoleintr_char c (k_input s)).1 /\ k_locks s' = k_locks s.
Proof.
  intros Hp Hs Hst. unfold one_char, bind at 1, get. destruct (consoleintr_char c (k_input s)) as [i e].
  set (s0 := set_input s i (wakes (ef_wakeup e) (k_wakeups s)) (wakes (ef_reboot e) (k_reboots s))).
  assert (H0 : con_ok s0) by (by destruct Hs).
  destruct (consputs_spec delay Hdelay (ef_echo e) s0 H0) as (s1 & R1 & P1).
  assert (T1 : steady me s1) by (unfold steady in *; rewrite (pr_rest _ _ _ P1); exact Hst).
  assert (H2 : exists l s2, (if ef_procdump e then listing else ret tt) s1 = Ok (tt, s2) /\ prints l s1 s2 /\ steady me s2).
  { destruct (ef_procdump e).
    - destruct (procdump_spec delay me fuel Hdelay mem rbp ps 0 s1 (pr_ok _ _ _ P1) T1) as (s2 & R2 & P2 & T2). by eexists _, s2.
    - exists [], s1. split; [done|]. split; [|done]. apply prints_nil. apply P1. }
  destruct H2 as (l & s2 & R2 & P2 & T2). exists s2. unfold bind at 1, put. fold s0. unfold do_effects, bind. rewrite R1.
  split; [done|]. pose proof (prints_app _ _ _ _ _ P1 P2) as P. split.
  - eapply pending_prints; [|exact P]. by apply pending_input.
  - split; [apply P2|]. split; [done|]. rewrite (prints_input _ _ _ P), (prints_k_locks _ _ _ P). done.
Qed.

Lemma intr_loop_spec {getc} {src : Source getc} n : forall cs s,
  (length cs < n)%nat -> pending cs s -> con_ok s -> steady me s ->
  exists s', intr_loop delay listing n getc s = Ok (tt, s') /\ pending [] s' /\ con_ok s' /\
    k_input s' = Console.consoleintr cs (k_input s) /\ k_locks s' = k_locks s /\ Forall (fun c => 0 <= c < 256) cs.
Proof.
  induction n as [|n IH]; intros cs s Hn Hp Hs Hst; [lia|]. cbn [intr_loop]. unfold bind at 1. destruct cs as [|c cs].
  - destruct (no_char s Hp Hs) as (s' & -> & Hp' & Hs' & Hi & Hl & _). by exists s'.
  - destruct (next_char c cs s Hp Hs) as (Hc & s1 & -> & Hp1 & Hs1 & Hi1 & Hl1 & Hk1). rewrite (proj2 (Z.leb_le 0 c)) by lia.
    assert (T1 : steady me s1) by (unfold steady in *; by rewrite Hl1, Hk1).
    destruct (one_char_spec c cs s1 Hp1 Hs1 T1) as (s2 & R2 & Hp2 & Hs2 & T2 & Hi2 & Hl2).
    destruct (IH cs s2 ltac:(simpl in Hn; lia) Hp2 Hs2 T2) as (s3 & R3 & Hp3 & Hs3 & Hi3 & Hl3 & Hc3).
    exists s3. unfold bind. rewrite R2. split; [done|]. split; [done|]. split; [done|].
    split; [|split; [congruence|by constructor]]. rewrite Hi3, Hi2, Hi1. done.
Qed.

Lemma free_other l l' m : l <> l' -> free me l m -> free me l' m -> free me l (held_by me l' m).
Proof.
  intros Hn [F1 F2 F3] [G1 G2 G3]. split; simpl; rewrite ?fn_lookup_insert; simpl; [|lia|done].
  by rewrite fn_lookup_insert_ne.
Qed.

Lemma typed_chars cs : forall i, input_ok i -> Forall (fun c => 0 <= c < 256) cs ->
  input_ok (Console.consoleintr cs i) /\ abs (Console.consoleintr cs i) = foldl (fun a c => type_char c a) (abs i) cs.
Proof.
  induction cs as [|c cs IH]; intros i Hi Hc; [done|]. apply Forall_cons in Hc as [Hc Hcs].
  destruct (consoleintr_char_spec c i Hi Hc) as [H1 H2]. destruct (IH _ H1 Hcs) as [H3 H4].
  split; [done|]. simpl. rewrite <-H2. exact H4.
Qed.

Lemma consoleintr_spec {getc} {src : Source getc} n cs s :
  (length cs < n)%nat -> pending cs s -> con_ok s -> input_ok (k_input s) ->
  free me input_lock (k_locks s) -> free me cons_lock (k_locks s) ->
  exists s', consoleintr delay me (S fuel) listing n getc s = Ok (tt, s') /\ pending [] s' /\ con_ok s' /\
    input_ok (k_input s') /\ abs (k_input s') = foldl (fun a c => type_char c a) (abs (k_input s)) cs /\
    k_locks s' = left_by me (k_locks s).
Proof.
  intros Hn Hp Hs Hi Hf1 Hf2. set (s0 := set_locks s (held_by me input_lock (k_locks s))).
  destruct (intr_loop_spec n cs s0 Hn) as (s1 & R1 & Hp1 & Hs1 & Hi1 & Hl1 & Hc1).
  { by apply pending_locks. } { by apply con_ok_locks. }
  { intros _. split; [by apply free_other|]. simpl. rewrite fn_lookup_insert. simpl. destruct Hf1. lia. }
  exists (set_locks s1 (left_by me (k_locks s))). destruct (typed_chars cs (k_input s) Hi Hc1) as [H1 H2]. split.
  - unfold consoleintr. unfold bind at 1, on_locks at 1. rewrite acquire_free by done. fold s0. unfold bind. rewrite R1.
    unfold on_locks. rewrite Hl1. simpl. by rewrite release_held.
  - split; [by apply pending_locks|]. split; [by apply con_ok_locks|]. cbn [k_input set_locks]. rewrite Hi1. done.
Qed.
End Input.


(** A console whose serial port received "hi", with the key [a] pressed; the CPU holds [cons.lock] in the second. *)
Definition port0 : uartst := Uart true true 3 12 0 1 0 0 None [] [104; 105; 13] (Ioapic 0 (fun _ => 0)).
Definition con0 : console := Con false true boot port0 (Screen (fun _ => 0) 0 0) input0 [30] 0 0 0.
Definition con_held : console := set_locks con0 (held_by 0 cons_lock boot).
Lemma con0_ok : con_ok con0.
Proof. split; [done|vm_compute; done|]. intros _. split; try done. repeat constructor; lia. Qed.


