(* ===== verification/Umalloc.v ===== *)
(** * The user-level allocator: umalloc.c

    [malloc] and [free] of Kernighan and Ritchie: free blocks are in a circular
    list in the order of their addresses, linked through the headers in front
    of the blocks, with the static header [base] in it.  Memory is seen through
    the headers: the two fields of the header at an address.  An address counts
    bytes, a header has 16.

    The heap is described by the list of its blocks, allocated and free, which
    tile it from its start to the break. *)
From S2P Require Import Prelude.

Record heap : Type := Heap {
  h_ptr : Z -> Z;       (* s.ptr of the header at an address *)
  h_size : Z -> Z;      (* s.size *)
  freep : Z;            (* 0: no call yet *)
  h_brk : Z;            (* the break of the process *)
}.

Definition set_ptr (a v : Z) (h : heap) : heap := Heap (<[a := v]> (h_ptr h)) (h_size h) (freep h) (h_brk h).
Definition set_size (a v : Z) (h : heap) : heap := Heap (h_ptr h) (<[a := v]> (h_size h)) (freep h) (h_brk h).
Definition set_freep (v : Z) (h : heap) : heap := Heap (h_ptr h) (h_size h) v (h_brk h).

(** sizeof(Header) *)
Definition HDR : Z := 16.

Section Alloc.
Variable base : Z.                  (* &base *)
Variable grow : Z -> Z -> bool.     (* whether the kernel grows the process by [n] bytes *)

(** [sbrk]: the old break, or -1. *)
Definition sbrk (n : Z) : M heap Z := fun h =>
  if grow (h_brk h) n then Ok (h_brk h, Heap (h_ptr h) (h_size h) (freep h) (h_brk h + n))
  else Ok (-1, h).

(** The loop of [free]: the block after which [bp] goes. *)
Fixpoint free_scan (fuel : nat) (h : heap) (bp p : Z) : option Z :=
  match fuel with
  | O => None
  | S fuel =>
      if (p <? bp) && (bp <? h_ptr h p) then Some p
      else if (h_ptr h p <=? p) && ((p <? bp) || (bp <? h_ptr h p)) then Some p
      else free_scan fuel h bp (h_ptr h p)
  end.

(** Joining [bp] to the block above it, and [p] to [bp]. *)
Definition join_upper (bp p : Z) (h : heap) : heap :=
  if bp + HDR * h_size h bp =? h_ptr h p then
    let h := set_size bp (u32 (h_size h bp + h_size h (h_ptr h p))) h in
    set_ptr bp (h_ptr h (h_ptr h p)) h
  else set_ptr bp (h_ptr h p) h.
Definition join_lower (bp p : Z) (h : heap) : heap :=
  if p + HDR * h_size h p =? bp then
    let h := set_size p (u32 (h_size h p + h_size h bp)) h in
    set_ptr p (h_ptr h bp) h
  else set_ptr p bp h.

Definition free (fuel : nat) (ap : Z) : M heap unit :=
  let! h := get in
  let bp := ap - HDR in
  match free_scan fuel h bp (freep h) with
  | Some p => put (set_freep p (join_lower bp p (join_upper bp p h)))
  | None => out_of_fuel
  end.

Definition morecore (fuel : nat) (nu : Z) : M heap Z :=
  let nu := if nu <? 4096 then 4096 else nu in
  let! p := sbrk (nu * HDR) in
  if p =? -1 then ret 0
  else
    do! modify (set_size p nu) in
    do! free fuel (p + HDR) in
    gets freep.

(** Taking [nunits] from the block [p] after [prevp]. *)
Definition carve (nunits prevp p : Z) : M heap Z :=
  let! h := get in
  if h_size h p =? nunits then
    do! put (set_freep prevp (set_ptr prevp (h_ptr h p) h)) in
    ret (p + HDR)
  else
    let rest := h_size h p - nunits in
    let q := p + HDR * rest in
    do! put (set_freep prevp (set_size q nunits (set_size p rest h))) in
    ret (q + HDR).

Fixpoint malloc_loop (fuel : nat) (nunits prevp p : Z) : M heap Z :=
  match fuel with
  | O => out_of_fuel
  | S fuel =>
      let! h := get in
      if nunits <=? h_size h p then carve nunits prevp p
      else if p =? freep h then
        let! p := morecore fuel nunits in
        if p =? 0 then ret 0
        else
          let! h := get in
          malloc_loop fuel nunits p (h_ptr h p)
      else malloc_loop fuel nunits p (h_ptr h p)
  end.

Definition malloc (fuel : nat) (nbytes : Z) : M heap Z :=
  let nunits := u32 ((nbytes + HDR - 1) / HDR + 1) in
  do! modify (fun h =>
        if freep h =? 0 then set_size base 0 (set_freep base (set_ptr base base h)) else h) in
  let! h := get in
  malloc_loop fuel nunits (freep h) (h_ptr h (freep h)).
End Alloc.

(** ** The blocks of the heap *)

Record block : Type := Blk { b_at : Z; b_n : Z; b_free : bool }.
Definition b_end (x : block) : Z := b_at x + HDR * b_n x.

(** The blocks [bl] lie one after the other from [a] to [e]. *)
Fixpoint tiled (a : Z) (bl : list block) (e : Z) : Prop :=
  match bl with
  | [] => a = e
  | x :: bl => b_at x = a /\ 1 <= b_n x /\ tiled (b_end x) bl e
  end.

(** The free blocks, by address, and the allocated ones. *)
Definition frees (bl : list block) : list Z := b_at <$> filter (fun x => b_free x = true) bl.
Definition allocs (bl : list block) : list block := filter (fun x => b_free x = false) bl.

(** No two free blocks touch. *)
Definition starts_free (bl : list block) : bool := match bl with x :: _ => b_free x | [] => false end.
Fixpoint coalesced (bl : list block) : Prop :=
  match bl with
  | [] => True
  | x :: bl => (b_free x && starts_free bl = false) /\ coalesced bl
  end.

(** The list from [p] over [l] to [q]. *)
Fixpoint linked (ptr : Z -> Z) (p : Z) (l : list Z) (q : Z) : Prop :=
  match l with
  | [] => ptr p = q
  | a :: l => ptr p = a /\ linked ptr a l q
  end.
Fixpoint end_of (p : Z) (l : list Z) : Z :=
  match l with
  | [] => p
  | a :: l => end_of a l
  end.
Fixpoint ascending (p : Z) (l : list Z) : Prop :=
  match l with
  | [] => True
  | a :: l => p < a /\ ascending a l
  end.

(** *** Tilings *)

Lemma tiled_app l1 l2 : forall a e, tiled a (l1 ++ l2) e <-> exists m, tiled a l1 m /\ tiled m l2 e.
Proof.
  induction l1 as [|x l1 IH]; intros a e; simpl.
  - split; [by exists a|]. by intros (m & -> & H).
  - rewrite IH. naive_solver.
Qed.

Lemma tiled_le bl : forall a e, tiled a bl e -> a <= e.
Proof.
  induction bl as [|x bl IH]; intros a e; simpl; [lia|]. intros (<- & Hn & H). apply IH in H.
  unfold b_end, HDR in H. lia.
Qed.

Lemma tiled_in x bl : forall a e, tiled a bl e -> x ∈ bl -> a <= b_at x /\ 1 <= b_n x /\ b_end x <= e.
Proof.
  induction bl as [|y bl IH]; intros a e H Hx; [by apply not_elem_of_nil in Hx|].
  simpl in H. destruct H as (<- & Hn & H). apply elem_of_cons in Hx as [->|Hx].
  - split; [done|]. split; [done|]. by apply tiled_le in H.
  - destruct (IH _ _ H Hx) as (H1 & H2 & H3). unfold b_end, HDR in *. lia.
Qed.

Lemma tiled_split l1 x l2 a e :
  tiled a (l1 ++ x :: l2) e <-> tiled a l1 (b_at x) /\ 1 <= b_n x /\ tiled (b_end x) l2 e.
Proof.
  rewrite tiled_app. simpl. split; [|naive_solver]. intros (m & H1 & <- & H2). done.
Qed.

(** Different blocks do not overlap. *)
Lemma tiled_disjoint x y bl a e :
  tiled a bl e -> x ∈ bl -> y ∈ bl -> x = y \/ b_end x <= b_at y \/ b_end y <= b_at x.
Proof.
  intros H Hx Hy. apply list_elem_of_split in Hx as (l1 & l2 & ->).
  apply tiled_split in H as (H1 & _ & H2). apply elem_of_app in Hy as [Hy|Hy].
  - right. right. by destruct (tiled_in y _ _ _ H1 Hy) as (_ & _ & ?).
  - apply elem_of_cons in Hy as [->|Hy]; [by left|]. right. left. by destruct (tiled_in y _ _ _ H2 Hy) as (? & _ & _).
Qed.

Lemma frees_app l1 l2 : frees (l1 ++ l2) = frees l1 ++ frees l2.
Proof. unfold frees. by rewrite filter_app, fmap_app. Qed.
Lemma frees_cons x l : frees (x :: l) = if b_free x then b_at x :: frees l else frees l.
Proof.
  unfold frees. destruct (b_free x) eqn:E; [by rewrite filter_cons_True|]. rewrite filter_cons_False by congruence. done.
Qed.
Lemma allocs_app l1 l2 : allocs (l1 ++ l2) = allocs l1 ++ allocs l2.
Proof. apply filter_app. Qed.
Lemma allocs_cons x l : allocs (x :: l) = if b_free x then allocs l else x :: allocs l.
Proof.
  unfold allocs. destruct (b_free x) eqn:E; [rewrite filter_cons_False by congruence|by rewrite filter_cons_True]. done.
Qed.

Lemma elem_of_frees p bl : p ∈ frees bl <-> exists x, x ∈ bl /\ b_free x = true /\ b_at x = p.
Proof.
  unfold frees. rewrite list_elem_of_fmap. split.
  - intros (x & -> & [Hf Hx]%list_elem_of_filter). by exists x.
  - intros (x & Hx & Hf & <-). exists x. split; [done|]. by apply list_elem_of_filter.
Qed.

Lemma ascending_frees bl : forall p a e, tiled a bl e -> p < a -> ascending p (frees bl).
Proof.
  induction bl as [|x bl IH]; intros p a e; [done|]. cbn [tiled]. intros (<- & Hn & H) Hp. rewrite frees_cons.
  assert (b_at x < b_end x) by (unfold b_end, HDR; lia).
  destruct (b_free x); [split; [done|]|]; eapply IH; try done; lia.
Qed.

Lemma frees_bounds p bl a e : tiled a bl e -> p ∈ frees bl -> a <= p < e.
Proof.
  intros H (x & Hx & _ & <-)%elem_of_frees. destruct (tiled_in x bl a e H Hx) as (? & ? & ?).
  unfold b_end, HDR in *. lia.
Qed.

(** *** Linked lists *)

Lemma linked_app ptr l1 a l2 q : forall p,
  linked ptr p (l1 ++ a :: l2) q <-> linked ptr p l1 a /\ linked ptr a l2 q.
Proof. induction l1 as [|x l1 IH]; intros p; simpl; [done|]. rewrite IH. tauto. Qed.

Lemma linked_head ptr l1 l2 q p : linked ptr p (l1 ++ l2) q -> linked ptr p l1 (hd q l2).
Proof. destruct l2 as [|a l2]; [by rewrite app_nil_r|]. by intros [H _]%linked_app. Qed.

Lemma linked_ext ptr ptr' l q : forall p,
  (forall x, x ∈ p :: l -> ptr' x = ptr x) -> linked ptr p l q -> linked ptr' p l q.
Proof.
  induction l as [|a l IH]; intros p H; simpl.
  - intros <-. apply H, list_elem_of_here.
  - intros [<- Hl]. split; [apply H, list_elem_of_here|]. apply IH; [|done].
    intros x Hx. apply H. by right.
Qed.

Lemma linked_end ptr l q : forall p, linked ptr p l q -> ptr (end_of p l) = q.
Proof. induction l as [|a l IH]; intros p; simpl; [done|]. intros [_ H]. by apply IH. Qed.

Lemma end_of_app p l a : end_of p (l ++ [a]) = a.
Proof. revert p. induction l as [|x l IH]; intros p; simpl; [done|apply IH]. Qed.

Lemma end_of_in l : forall p, end_of p l ∈ p :: l.
Proof.
  induction l as [|a l IH]; intros p; simpl; [apply list_elem_of_here|]. right. apply IH.
Qed.

(** Redirecting the last pointer. *)
Lemma linked_redirect ptr l q q' : forall p,
  NoDup (p :: l) -> linked ptr p l q -> linked (<[end_of p l := q']> ptr) p l q'.
Proof.
  induction l as [|a l IH]; intros p Hd; simpl.
  - intros _. by rewrite fn_lookup_insert.
  - apply NoDup_cons in Hd as [Hp Hd]. intros [<- Hl]. split; [|by apply IH].
    rewrite fn_lookup_insert_ne; [done|]. intros E. apply Hp. rewrite <-E at 1. apply end_of_in.
Qed.

Lemma ascending_in l : forall p x, ascending p l -> x ∈ l -> p < x.
Proof.
  induction l as [|a l IH]; intros p x; simpl; [by intros _ ?%not_elem_of_nil|].
  intros [Hp Hl] [->|Hx]%elem_of_cons; [done|]. specialize (IH a x Hl Hx). lia.
Qed.
Lemma ascending_nodup l : forall p, ascending p l -> NoDup (p :: l).
Proof.
  induction l as [|a l IH]; intros p H; [repeat constructor; apply not_elem_of_nil|].
  constructor; [|by apply IH; destruct H]. intros Hin. pose proof (ascending_in _ p p H Hin). lia.
Qed.

Lemma ascending_prefix l2 l1 : forall p, ascending p (l1 ++ l2) -> ascending p l1.
Proof. induction l1 as [|a l1 IH]; intros p; simpl; [done|]. intros [? ?]. split; [done|by apply IH]. Qed.
Lemma ascending_suffix a l2 l1 : forall p, ascending p (l1 ++ a :: l2) -> ascending a l2.
Proof. induction l1 as [|b l1 IH]; intros p; simpl; [by intros [_ ?]|]. intros [_ H]. by apply (IH b). Qed.
Lemma end_of_suffix a l2 l1 : forall p, end_of p (l1 ++ a :: l2) = end_of a l2.
Proof. induction l1 as [|b l1 IH]; intros p; [done|]. apply IH. Qed.

(** Every node of a circular list is the start of a round trip. *)
Lemma rotate ptr b l x :
  linked ptr b l b -> x ∈ b :: l -> exists r, x :: r ≡ₚ b :: l /\ linked ptr x r x.
Proof.
  intros H [->|Hx]%elem_of_cons; [by exists l|]. apply list_elem_of_split in Hx as (u & v & ->).
  apply linked_app in H as [H1 H2]. exists (v ++ b :: u). split.
  - rewrite app_comm_cons. rewrite (Permutation_app_comm (x :: v) (b :: u)). done.
  - by apply linked_app.
Qed.

(** In a circular list without repetition, a node has one predecessor. *)
Lemma linked_pred ptr l : forall p q x,
  linked ptr p l q -> x ∈ p :: l -> ptr x ∈ l \/ (ptr x = q /\ x = end_of p l).
Proof.
  induction l as [|a l IH]; intros p q x; simpl.
  - intros <- [->|Hx]%elem_of_cons; [by right|by apply not_elem_of_nil in Hx].
  - intros [<- Hl] [->|Hx]%elem_of_cons; [left; apply list_elem_of_here|].
    destruct (IH _ _ x Hl Hx) as [H|H]; [left; by right|by right].
Qed.

Lemma linked_inj ptr l : forall p q x y,
  NoDup (p :: l) -> q ∉ l -> linked ptr p l q -> x ∈ p :: l -> y ∈ p :: l -> ptr x = ptr y -> x = y.
Proof.
  induction l as [|a l IH]; intros p q x y Hd Hq.
  - intros _ Hx%list_elem_of_singleton Hy%list_elem_of_singleton _. congruence.
  - cbn [linked]. intros [Hp Hl] Hx Hy E. apply NoDup_cons in Hd as [Hpn Hd].
    apply not_elem_of_cons in Hq as [Hqa Hq].
    assert (Hfirst : forall z, z ∈ a :: l -> ptr z <> a).
    { intros z Hz Ez. apply NoDup_cons in Hd as [Ha _].
      destruct (linked_pred ptr l a q z Hl Hz) as [H|[H _]]; congruence. }
    apply elem_of_cons in Hx as [->|Hx], Hy as [->|Hy]; try done.
    + destruct (Hfirst y Hy). congruence.
    + destruct (Hfirst x Hx). congruence.
    + by apply (IH a q).
Qed.

(** *** The scan of [free] *)

Section Scan.
Variables (h : heap) (base bp : Z).
Hypothesis Hbase : base < bp.

(** Above [bp] the scan goes on to [base]. *)
Lemma scan_above l : forall y fuel,
  linked (h_ptr h) y l base -> ascending y l -> bp < y ->
  free_scan (length l + S fuel) h bp y = free_scan fuel h bp base.
Proof.
  induction l as [|a l IH]; intros y fuel; cbn [linked ascending length Nat.add free_scan].
  - intros -> _ Hy. rewrite (proj2 (Z.ltb_ge y bp)), (proj2 (Z.leb_le base y)), (proj2 (Z.ltb_ge bp base)) by lia. done.
  - intros [-> Hl] [Ha Hs] Hy. rewrite (proj2 (Z.ltb_ge y bp)), (proj2 (Z.leb_gt a y)) by lia. cbn [andb].
    apply IH; [done..|lia].
Qed.

(** Below [bp] it goes to the last block below. *)
Lemma scan_below l : forall y q fuel,
  linked (h_ptr h) y l q -> ascending y l -> (forall x, x ∈ y :: l -> base <= x < bp) -> q = base \/ bp < q ->
  free_scan (length l + S fuel) h bp y = Some (end_of y l).
Proof.
  induction l as [|a l IH]; intros y q fuel; cbn [linked ascending length Nat.add free_scan end_of].
  - intros -> _ Hy Hq. specialize (Hy y ltac:(apply list_elem_of_here)).
    rewrite (proj2 (Z.ltb_lt y bp)) by lia. cbn [andb orb]. destruct Hq as [->|Hq].
    + rewrite (proj2 (Z.ltb_ge bp base)), (proj2 (Z.leb_le base y)) by lia. done.
    + by rewrite (proj2 (Z.ltb_lt bp q)) by lia.
  - intros [-> Hl] [Ha Hs] Hy Hq. pose proof (Hy a ltac:(right; apply list_elem_of_here)).
    rewrite (proj2 (Z.ltb_ge bp a)), (proj2 (Z.leb_gt a y)), andb_false_r by lia. cbn [andb].
    apply (IH a q); try done. intros x Hx. apply Hy. by right.
Qed.

Lemma free_scan_spec f1 f2 x fuel :
  linked (h_ptr h) base (f1 ++ f2) base -> ascending base (f1 ++ f2) ->
  (forall a, a ∈ f1 -> a < bp) -> (forall a, a ∈ f2 -> bp < a) -> x ∈ base :: f1 ++ f2 ->
  (2 * length (f1 ++ f2) + 2 <= fuel)%nat ->
  free_scan fuel h bp x = Some (end_of base f1).
Proof.
  intros Hl Hs H1 H2 Hx Hf. rewrite length_app in Hf.
  assert (Hlow : forall fuel, (length f1 < fuel)%nat -> free_scan fuel h bp base = Some (end_of base f1)).
  { intros k Hk. replace k with (length f1 + S (k - S (length f1)))%nat by lia.
    apply (scan_below f1 base (hd base f2)).
    - by apply linked_head.
    - by apply ascending_prefix in Hs.
    - intros y [->|Hy]%elem_of_cons; [lia|]. split; [|by apply H1]. apply Z.lt_le_incl.
      eapply ascending_in; [exact Hs|]. apply elem_of_app. by left.
    - destruct f2 as [|a f2]; [by left|]. right. apply H2, list_elem_of_here. }
  apply elem_of_cons in Hx as [->|Hx]; [apply Hlow; lia|].
  apply elem_of_app in Hx as [Hx|Hx]; apply list_elem_of_split in Hx as (u & v & E).
  - rewrite E in *. rewrite end_of_suffix. rewrite length_app in Hf. cbn [length] in Hf.
    replace fuel with (length v + S (fuel - S (length v)))%nat by lia.
    apply (scan_below v x (hd base f2)).
    + apply linked_head in Hl. by apply linked_app in Hl as [_ Hl].
    + apply ascending_prefix in Hs. by apply ascending_suffix in Hs.
    + intros y Hy. assert (Hin : y ∈ u ++ x :: v) by (apply elem_of_app; by right).
      split; [|by apply H1]. apply Z.lt_le_incl. eapply ascending_in; [exact Hs|]. apply elem_of_app. by left.
    + destruct f2 as [|a f2]; [by left|]. right. apply H2, list_elem_of_here.
  - rewrite E in *. rewrite length_app in Hf. cbn [length] in Hf.
    replace fuel with (length v + S (fuel - S (length v)))%nat by lia.
    rewrite scan_above.
    + apply Hlow. lia.
    + rewrite app_assoc in Hl. by apply linked_app in Hl as [_ Hl].
    + rewrite app_assoc in Hs. by apply ascending_suffix in Hs.
    + apply H2. apply elem_of_app. right. apply list_elem_of_here.
Qed.
End Scan.

(** ** The invariant *)

(** Process memory is below 64 GB, so that sizes in headers fit 32 bits. *)
Definition LIMIT : Z := 2 ^ 36.

Section Invariant.
Variables (base start : Z) (grow : Z -> Z -> bool).
Hypothesis Hbase : 0 < base < start.
Hypothesis grow_limit : forall b n, grow b n = true -> b + n <= LIMIT.

Record heap_inv (h : heap) (bl : list block) : Prop := {
  hi_tiled : tiled start bl (h_brk h);
  hi_coal : coalesced bl;
  hi_size : forall x, x ∈ bl -> h_size h (b_at x) = b_n x;
  hi_base : h_size h base = 0;
  hi_list : linked (h_ptr h) base (frees bl) base;
  hi_freep : freep h ∈ base :: frees bl;
  hi_brk : h_brk h <= LIMIT;
}.

(** The bytes of block [x] behind its header are as before. *)
Definition untouched (h h' : heap) (x : block) : Prop :=
  forall k, b_at x < k < b_end x -> h_ptr h' k = h_ptr h k /\ h_size h' k = h_size h k.

Lemma coalesced_app l1 l2 : coalesced (l1 ++ l2) -> coalesced l1 /\ coalesced l2.
Proof.
  induction l1 as [|x l1 IH]; simpl; [done|]. intros [Hx H]. destruct (IH H) as [H1 H2]. split; [|done].
  split; [|done]. destruct l1; [by destruct (b_free x)|done].
Qed.

(** Joining a free block to coalesced neighbours. *)
Lemma coalesced_join l1 x l2 :
  coalesced l1 -> coalesced l2 -> starts_free l2 = false ->
  (forall l w, l1 = l ++ [w] -> b_free w = false \/ b_free x = false) -> coalesced (l1 ++ x :: l2).
Proof.
  intros H1 H2 Hs. induction l1 as [|y l1 IH]; intros Hw; simpl.
  - split; [by rewrite Hs, andb_false_r|done].
  - destruct H1 as [Hy H1]. split.
    + destruct l1 as [|z l1]; [|done]. cbn [app starts_free].
      destruct (Hw [] y eq_refl) as [E|E]; rewrite E; [done|apply andb_false_r].
    + apply IH; [done|]. intros l w ->. by apply (Hw (y :: l)).
Qed.

Lemma size_small h bl x : heap_inv h bl -> x ∈ bl -> 1 <= b_n x < 4294967296.
Proof.
  intros I Hx. destruct (tiled_in x _ _ _ (hi_tiled _ _ I) Hx) as (H1 & H2 & H3).
  pose proof (hi_brk _ _ I). unfold b_end, HDR, LIMIT in *. lia.
Qed.

Lemma coalesced_last l v w : coalesced ((l ++ [v]) ++ [w]) -> b_free w = true -> b_free v = false.
Proof.
  intros C Hw. rewrite <-app_assoc in C. apply coalesced_app in C as [_ [C _]]. cbn [app starts_free] in C.
  rewrite Hw in C. by destruct (b_free v).
Qed.

Lemma linked_restart ptr ptr' l p p' q :
  linked ptr p l q -> ptr' p' = ptr p -> (forall x, x ∈ l -> ptr' x = ptr x) -> linked ptr' p' l q.
Proof.
  destruct l as [|a l]; simpl; [congruence|]. intros [<- Hl] E H. split; [done|].
  by apply (linked_ext ptr).
Qed.

Lemma in_mid {A} (z y : A) a b : z ∈ a ++ y :: b <-> z = y \/ z ∈ a ++ b.
Proof. rewrite !elem_of_app, elem_of_cons. tauto. Qed.

(** *** [free] *)

(** Joining the block [bp] of [n] units to the free block [w] before it. *)
Lemma join_yes h l1 w bp n l :
  tiled start (l1 ++ w :: Blk bp n true :: l) (h_brk h) -> h_brk h <= LIMIT ->
  (forall z, z ∈ l1 ++ w :: Blk bp n true :: l -> h_size h (b_at z) = b_n z) -> h_size h base = 0 ->
  b_free w = true -> linked (h_ptr h) base (frees l1) (b_at w) -> linked (h_ptr h) bp (frees l) base ->
  coalesced (l1 ++ [w]) -> coalesced l -> starts_free l = false ->
  heap_inv (set_freep (b_at w) (join_lower bp (b_at w) h)) (l1 ++ Blk (b_at w) (b_n w + n) true :: l).
Proof.
  intros T Hbrk Hsz Hb0 Hwf Hl1 Hl C1 C2 Hsf.
  pose proof T as T'. apply tiled_split in T' as (T1 & Hnw & T2). cbn [tiled b_at b_n] in T2. destruct T2 as (Ebw & Hn1 & T2).
  pose proof (tiled_le _ _ _ T1) as Hle1. pose proof (tiled_le _ _ _ T2) as Hle2.
  assert (Hws : h_size h (b_at w) = b_n w) by (apply Hsz, in_mid; by left).
  assert (Hys : h_size h bp = n).
  { apply (Hsz (Blk bp n true)), in_mid. right. apply elem_of_app. right. apply list_elem_of_here. }
  unfold b_end in Ebw, Hle2. cbn [b_at b_n] in Hle2. unfold HDR in Ebw, Hle2.
  unfold join_lower. rewrite Hws. destruct (Z.eqb_spec (b_at w + HDR * b_n w) bp) as [_|E]; [|unfold HDR in E; lia].
  rewrite Hys, u32_small by (unfold LIMIT in Hbrk; lia).
  assert (Hne : forall z, z ∈ l1 ++ l -> b_at z <> b_at w).
  { intros z [Hz|Hz]%elem_of_app Ez.
    - destruct (tiled_in z _ _ _ T1 Hz) as (? & ? & ?). unfold b_end, HDR in *. lia.
    - destruct (tiled_in z _ _ _ T2 Hz) as (Hz1 & ? & ?). unfold b_end, HDR in *. cbn [b_at b_n] in Hz1. lia. }
  split; cbn [set_freep set_ptr set_size h_ptr h_size freep h_brk].
  - apply tiled_split. split; [done|]. split; [cbn [b_n]; lia|].
    revert T2. unfold b_end, HDR. cbn [b_at b_n].
    replace (bp + 16 * n) with (b_at w + 16 * (b_n w + n)) by lia. done.
  - pose proof C1 as C1'. apply coalesced_app in C1' as [C1' _]. apply coalesced_join; try done.
    intros m v ->. left. by apply (coalesced_last m v w).
  - intros z [->|Hz]%in_mid; [cbn [b_at b_n]; by rewrite fn_lookup_insert|].
    rewrite fn_lookup_insert_ne by (symmetry; by apply Hne). apply Hsz, in_mid. right.
    apply elem_of_app in Hz as [Hz|Hz]; apply elem_of_app; [by left|right; by right].
  - rewrite fn_lookup_insert_ne by lia. done.
  - rewrite frees_app, frees_cons. cbn [b_free b_at]. apply linked_app. split.
    + eapply linked_ext; [|exact Hl1]. intros k Hin. rewrite fn_lookup_insert_ne; [done|]. intros <-.
      apply elem_of_cons in Hin as [Hin|Hin]; [lia|]. apply (frees_bounds _ _ _ _ T1) in Hin. lia.
    + eapply linked_restart; [exact Hl|by rewrite fn_lookup_insert|]. intros k Hin.
      rewrite fn_lookup_insert_ne; [done|]. intros <-. apply (frees_bounds _ _ _ _ T2) in Hin.
      unfold b_end, HDR in *. cbn [b_at b_n] in Hin. lia.
  - rewrite frees_app, frees_cons. cbn [b_free b_at]. right. apply elem_of_app. right. apply list_elem_of_here.
  - done.
Qed.

(** Putting the block [bp] after the block it does not touch. *)
Lemma join_no h l1 bp n l :
  let p := end_of base (frees l1) in
  tiled start (l1 ++ Blk bp n true :: l) (h_brk h) -> h_brk h <= LIMIT ->
  (forall z, z ∈ l1 ++ Blk bp n true :: l -> h_size h (b_at z) = b_n z) -> h_size h base = 0 ->
  p + HDR * h_size h p <> bp -> (exists q, linked (h_ptr h) base (frees l1) q) -> linked (h_ptr h) bp (frees l) base ->
  coalesced l1 -> (forall m w, l1 = m ++ [w] -> b_free w = false) -> coalesced l -> starts_free l = false ->
  heap_inv (set_freep p (join_lower bp p h)) (l1 ++ Blk bp n true :: l).
Proof.
  intros p T Hbrk Hsz Hb0 E [q Hl1] Hl C1 Hw C2 Hsf. unfold join_lower.
  destruct (Z.eqb_spec (p + HDR * h_size h p) bp) as [|_]; [done|].
  pose proof T as T'. apply tiled_split in T' as (T1 & Hn1 & T2). cbn [b_at b_n] in *.
  pose proof (ascending_nodup _ _ (ascending_frees l1 base _ _ T1 ltac:(lia))) as Nd.
  assert (Hp : base <= p < bp).
  { pose proof (end_of_in (frees l1) base) as Hin. fold p in Hin. pose proof (tiled_le _ _ _ T1).
    apply elem_of_cons in Hin as [->|Hin]; [lia|]. apply (frees_bounds _ _ _ _ T1) in Hin. lia. }
  split; cbn [set_freep set_ptr h_ptr h_size freep h_brk]; try done.
  - apply coalesced_join; try done. intros m w Em. left. by apply (Hw m).
  - rewrite frees_app, frees_cons. cbn [b_free b_at]. apply linked_app. split; [by eapply linked_redirect|].
    eapply linked_ext; [|exact Hl]. intros k Hin. rewrite fn_lookup_insert_ne; [done|]. intros <-.
    apply elem_of_cons in Hin as [Hin|Hin]; [lia|]. apply (frees_bounds _ _ _ _ T2) in Hin.
    unfold b_end, HDR in Hin. cbn [b_at b_n] in Hin. lia.
  - rewrite frees_app, frees_cons. pose proof (end_of_in (frees l1) base) as Hin. fold p in Hin.
    apply elem_of_cons in Hin as [->|Hin]; [apply list_elem_of_here|]. right. apply elem_of_app. by left.
Qed.

Section Free.
Variables (h : heap) (l1 l2 : list block) (x : block).
Hypothesis I : heap_inv h (l1 ++ x :: l2).
Hypothesis Hx : b_free x = false.

Notation bp := (b_at x).
Notation p := (end_of base (frees l1)).

Lemma fr_tiled : tiled start l1 bp /\ 1 <= b_n x /\ tiled (b_end x) l2 (h_brk h).
Proof. apply tiled_split, I. Qed.

Lemma fr_list : linked (h_ptr h) base (frees l1 ++ frees l2) base.
Proof. pose proof (hi_list _ _ I) as H. by rewrite frees_app, frees_cons, Hx in H. Qed.

Lemma fr_bp : base < bp /\ bp < b_end x.
Proof.
  destruct fr_tiled as (H1 & Hn & _). apply tiled_le in H1. unfold b_end, HDR.  lia.
Qed.

Lemma fr_low a : a ∈ frees l1 -> base < a < bp.
Proof. intros Ha. destruct fr_tiled as (H1 & _). apply (frees_bounds a _ _ _ H1) in Ha. lia. Qed.
Lemma fr_high a : a ∈ frees l2 -> b_end x <= a.
Proof. intros Ha. destruct fr_tiled as (_ & _ & H2). apply (frees_bounds a _ _ _ H2) in Ha. lia. Qed.

Lemma fr_ascending : ascending base (frees l1 ++ frees l2).
Proof.
  pose proof (ascending_frees _ base _ _ (hi_tiled _ _ I)) as H.
  rewrite frees_app, frees_cons, Hx in H. apply H. lia.
Qed.

Lemma fr_p : p ∈ base :: frees l1 /\ base <= p < bp.
Proof.
  pose proof (end_of_in (frees l1) base) as H.  split; [done|].
  apply elem_of_cons in H as [->|H]; [pose proof fr_bp; lia|]. apply fr_low in H. lia.
Qed.

Lemma fr_scan fuel :
  (2 * length (frees l1 ++ frees l2) + 2 <= fuel)%nat -> free_scan fuel h bp (freep h) = Some p.
Proof.
  intros Hf. apply (free_scan_spec h base bp (proj1 fr_bp) (frees l1) (frees l2)); try done.
  - apply fr_list.
  - apply fr_ascending.
  - intros a Ha. apply fr_low in Ha. lia.
  - intros a Ha. apply fr_high in Ha. pose proof fr_bp. lia.
  - pose proof (hi_freep _ _ I) as H. by rewrite frees_app, frees_cons, Hx in H.
Qed.

Lemma fr_next : h_ptr h p = hd base (frees l2).
Proof. apply linked_end. apply linked_head, fr_list. Qed.

(** The heap after the block above is joined. *)
Lemma join_upper_spec :
  exists n l, let y := Blk bp n true in let h1 := join_upper bp p h in
    b_n x <= n /\ allocs l = allocs l2 /\ l `suffix_of` l2 /\ starts_free l = false /\
    tiled start (l1 ++ y :: l) (h_brk h) /\
    (forall z, z ∈ l1 ++ y :: l -> h_size h1 (b_at z) = b_n z) /\
    linked (h_ptr h1) bp (frees l) base /\
    (forall k, k <> bp -> h_ptr h1 k = h_ptr h k /\ h_size h1 k = h_size h k) /\
    freep h1 = freep h /\ h_brk h1 = h_brk h.
Proof.
  destruct fr_tiled as (T1 & Hn & T2). pose proof fr_bp as [Hb1 Hb2].
  pose proof (hi_size _ _ I) as Hsz. pose proof fr_list as Fl. pose proof fr_next as Fn. pose proof fr_high as Fh.
  assert (Ebp : h_size h bp = b_n x) by (apply Hsz, elem_of_app; right; apply list_elem_of_here).
  assert (Hother : forall z, z ∈ l1 ++ l2 -> b_at z <> bp).
  { intros z [Hz|Hz]%elem_of_app E.
    - destruct (tiled_in z _ _ _ T1 Hz) as (? & ? & ?). unfold b_end, HDR in *. lia.
    - destruct (tiled_in z _ _ _ T2 Hz) as (? & ? & ?). lia. }
  unfold join_upper. rewrite Ebp, Fn. change (bp + HDR * b_n x) with (b_end x).
  destruct (starts_free l2) eqn:Es.
  - destruct l2 as [|y l]; [done|]. simpl in Es. cbn [tiled] in T2. destruct T2 as (Ey & Hny & T2).
    rewrite frees_cons, Es. cbn [hd]. rewrite Ey, Z.eqb_refl. cbv zeta.
    assert (Hy : y ∈ l1 ++ x :: y :: l) by (apply elem_of_app; right; right; apply list_elem_of_here).
    assert (Esy : h_size h (b_end x) = b_n y) by (rewrite <-Ey; by apply Hsz). pose proof (size_small _ _ y I Hy) as Hys.
    assert (Hxs : b_n x + b_n y < 4294967296).
    { pose proof (hi_brk _ _ I). apply tiled_le in T1, T2. unfold b_end, HDR, LIMIT in *.  lia. }
    exists (b_n x + b_n y), l. cbv zeta. split; [lia|]. split; [by rewrite allocs_cons, Es|].
    split; [by exists [y]|]. pose proof (hi_coal _ _ I) as C. apply coalesced_app in C as [_ [_ [C _]]].
    rewrite Es in C. split; [done|]. split.
    { apply tiled_split. split; [done|]. split; [simpl; lia|]. revert T2. unfold b_end. simpl. 
      unfold b_end in Ey.  unfold HDR in *. replace (bp + 16 * (b_n x + b_n y)) with (b_at y + 16 * b_n y) by lia. done. }
    cbn [set_ptr set_size h_ptr h_size freep h_brk]. split.
    { intros z Hz. apply elem_of_app in Hz as [Hz|Hz].
      - rewrite fn_lookup_insert_ne by (symmetry; apply Hother, elem_of_app; by left). apply Hsz, elem_of_app. by left.
      - apply elem_of_cons in Hz as [->|Hz].
        { cbn [b_at b_n]. rewrite fn_lookup_insert, Esy, u32_small by lia. done. }
        rewrite fn_lookup_insert_ne by (symmetry; apply Hother, elem_of_app; right; by right).
        apply Hsz, elem_of_app. right. right. by right. }
    split; [|split; [|done]].
    + rewrite frees_cons, Es in Fl. apply linked_app in Fl as [_ Fl].
      assert (Ep : h_ptr h p = b_at y).
      { rewrite Fn, frees_cons, Es. done. }
      rewrite Ep. destruct (frees l) as [|a f] eqn:Ef; cbn [linked] in Fl |- *.
      * by rewrite fn_lookup_insert.
      * rewrite fn_lookup_insert. split; [apply Fl|]. eapply linked_ext; [|apply Fl].
        intros k Hk. rewrite fn_lookup_insert_ne; [done|]. intros <-.
        assert (Hin : bp ∈ frees l) by by rewrite Ef.
        apply (frees_bounds _ _ _ _ T2) in Hin. unfold b_end, HDR in *. lia.
    + intros k Hk. by rewrite !fn_lookup_insert_ne by done.
  - destruct (Z.eqb_spec (b_end x) (hd base (frees l2))) as [E|_].
    { exfalso. destruct (frees l2) as [|a f] eqn:Ef; simpl in E; [lia|].
      destruct l2 as [|y l]; [done|]. simpl in Es. cbn [tiled] in T2. destruct T2 as (Ey & Hny & T2).
      rewrite frees_cons, Es in Ef.
      assert (Hin : a ∈ frees l) by (rewrite Ef; apply list_elem_of_here).
      apply (frees_bounds _ _ _ _ T2) in Hin. unfold b_end, HDR in *. lia. }
    exists (b_n x), l2. split; [done|]. split; [done|]. split; [done|]. split; [done|]. split.
    { apply tiled_split. split; [done|]. split; [done|]. exact T2. }
    cbn [set_ptr h_ptr h_size freep h_brk]. split.
    { intros z Hz. apply elem_of_app in Hz as [Hz|Hz]; [apply Hsz, elem_of_app; by left|].
      apply elem_of_cons in Hz as [->|Hz]; [done|]. apply Hsz, elem_of_app. right. by right. }
    split; [|split; [|done]].
    + destruct (frees l2) as [|a f] eqn:Ef; cbn [linked hd] in Fl |- *.
      * by rewrite fn_lookup_insert.
      * rewrite fn_lookup_insert. split; [done|]. apply linked_app in Fl as [_ Fl].
        eapply linked_ext; [|exact Fl]. intros k Hk. rewrite fn_lookup_insert_ne; [done|]. intros <-.
        apply Fh in Hk. lia.
    + intros k Hk. by rewrite !fn_lookup_insert_ne by done.
Qed.

(** What [free] changes: the headers of the block and of the one before it. *)
Lemma free_untouched h' z :
  (forall k, k <> bp -> k <> p -> h_ptr h' k = h_ptr h k /\ h_size h' k = h_size h k) ->
  z ∈ allocs l1 ++ allocs l2 -> untouched h h' z.
Proof.
  intros Hk Hz k Hin. destruct fr_tiled as (T1 & _ & T2). destruct fr_p as [Hp Hpb]. pose proof fr_bp.
  assert (Hzb : start <= b_at z /\ b_free z = false /\ (z ∈ l1 /\ b_end z <= bp \/ z ∈ l2 /\ b_end x <= b_at z)).
  { apply elem_of_app in Hz as [[Hf Hz]%list_elem_of_filter|[Hf Hz]%list_elem_of_filter].
    - destruct (tiled_in z _ _ _ T1 Hz) as (? & ? & ?). split; [lia|]. split; [done|]. by left.
    - destruct (tiled_in z _ _ _ T2 Hz) as (? & ? & ?). apply tiled_le in T1. split; [lia|].
      split; [done|]. right. split; [done|lia]. }
  destruct Hzb as (Hzs & Hzf & Hzc). apply Hk; [intros ->; lia|]. intros ->.
  apply elem_of_cons in Hp as [Hp|(w & Hw & Hwf & Ew)%elem_of_frees]; [lia|].
  destruct Hzc as [[Hz1 _]|[_ Hz2]]; [|lia].
  destruct (tiled_disjoint w z l1 _ _ T1 Hw Hz1) as [->|[E|E]]; [congruence| |lia].
  destruct (tiled_in w _ _ _ T1 Hw) as (_ & Hn & _). unfold b_end, HDR in *. lia.
Qed.

(** The block before is free exactly when it ends where [bp] starts. *)
Lemma fr_touch :
  p + HDR * h_size h p = bp <-> exists l w, l1 = l ++ [w] /\ b_free w = true /\ p = b_at w.
Proof.
  destruct fr_tiled as (T1 & _ & _). pose proof fr_bp as [Hb _].
  assert (Hsz : forall z, z ∈ l1 -> h_size h (b_at z) = b_n z).
  { intros z Hz. apply (hi_size _ _ I), elem_of_app. by left. }
  pose proof (proj1 fr_p) as Hp. split.
  - intros E. destruct l1 as [|w l] using rev_ind; [cbn [frees] in E|].
    + exfalso. change (end_of base (frees [])) with base in E. rewrite (hi_base _ _ I) in E. lia.
    + exists l, w. split; [done|]. rewrite frees_app, frees_cons in *. destruct (b_free w) eqn:Ew.
      * split; [done|]. apply end_of_app.
      * exfalso. change (frees []) with (@nil Z) in *. rewrite app_nil_r in *.
        apply tiled_split in T1 as (T1 & Hn & Hw). cbn [tiled] in Hw.
        apply elem_of_cons in Hp as [Hp|(v & Hv & _ & Ev)%elem_of_frees].
        -- rewrite Hp, (hi_base _ _ I) in E. lia.
        -- rewrite <-Ev, Hsz in E by (apply elem_of_app; by left).
           destruct (tiled_in v _ _ _ T1 Hv) as (_ & _ & Hve). unfold b_end, HDR in *. lia.
  - intros (l & w & -> & Hw & ->). rewrite Hsz by (apply elem_of_app; right; apply list_elem_of_here).
    apply tiled_split in T1 as (_ & _ & T1). exact T1.
Qed.

Lemma free_spec fuel :
  (2 * length (frees l1 ++ frees l2) + 2 <= fuel)%nat ->
  exists h' bl', free fuel (bp + HDR) h = Ok (tt, h') /\ heap_inv h' bl' /\
    allocs bl' = allocs l1 ++ allocs l2 /\ (forall z, z ∈ allocs bl' -> untouched h h' z) /\
    (exists z, z ∈ bl' /\ b_free z = true /\ b_n x <= b_n z) /\ h_brk h' = h_brk h.
Proof.
  intros Hf. unfold free. unfold get. erewrite bind_Ok by reflexivity. cbv zeta.
  replace (bp + HDR - HDR) with bp by lia. rewrite (fr_scan fuel Hf). unfold put.
  destruct join_upper_spec as (n & l & Hn & Ha & Hsuf & Hsf & T & Hsz & Hl & Hk & Efp & Eb). cbv zeta in *.
  set (h1 := join_upper bp p h) in *. clearbody h1.
  destruct fr_tiled as (T1 & _ & _). destruct fr_p as [Hp Hpb]. pose proof fr_bp as [Hb1 Hb2].
  pose proof fr_list as Fl. apply linked_head in Fl. pose proof (ascending_nodup _ _ fr_ascending) as Nd.
  rewrite app_comm_cons in Nd. apply NoDup_app in Nd as (Nd & _ & _).
  assert (Hpn : p <> bp) by lia. pose proof (hi_coal _ _ I) as C. apply coalesced_app in C as [C1 [_ C2]].
  assert (C2' : coalesced l).
  { destruct Hsuf as [u Eu]. rewrite Eu in C2. by apply coalesced_app in C2 as [_ ?]. }
  assert (Fl1 : linked (h_ptr h1) base (frees l1) (hd base (frees l2))).
  { eapply linked_ext; [|exact Fl]. intros k Hin. apply Hk.
    apply elem_of_cons in Hin as [->|Hin]; [lia|]. apply fr_low in Hin. lia. }
  assert (Hbase1 : h_size h1 base = 0) by (rewrite (proj2 (Hk base ltac:(lia))); apply I).
  assert (Hbrk : h_brk h1 <= LIMIT) by (rewrite Eb; apply I). rewrite <-Eb in T.
  assert (Hut : forall z, z ∈ allocs l1 ++ allocs l2 ->
    untouched h (set_freep p (join_lower bp p h1)) z).
  { intros z Hz. apply free_untouched; [|done]. intros k Hk1 Hk2. rewrite <-(proj1 (Hk k Hk1)), <-(proj2 (Hk k Hk1)).
    unfold join_lower. destruct (_ =? _); cbn; by rewrite !fn_lookup_insert_ne by done. }
  destruct (decide (p + HDR * h_size h p = bp)) as [E|E].
  - destruct (proj1 fr_touch E) as (l1' & w & El & Hwf & Ew).
    assert (J : heap_inv (set_freep (b_at w) (join_lower bp (b_at w) h1)) (l1' ++ Blk (b_at w) (b_n w + n) true :: l)).
    { apply join_yes; try done.
      - by rewrite El, <-app_assoc in T.
      - intros z Hz. apply Hsz. by rewrite El, <-app_assoc.
      - rewrite El, frees_app, frees_cons, Hwf in Fl1. by apply linked_app in Fl1 as [? _].
      - by rewrite <-El. }
    rewrite <-Ew in J. eexists _, _. split; [reflexivity|]. split; [exact J|].
    assert (Eal : allocs (l1' ++ Blk p (b_n w + n) true :: l) = allocs l1 ++ allocs l2).
    { rewrite El, !allocs_app, !allocs_cons, Hwf, Ha. cbn [b_free]. by rewrite app_nil_r. }
    split; [done|]. rewrite Eal. split; [done|]. split.
    + eexists. split; [apply in_mid; by left|]. split; [done|]. cbn [b_n].
      assert (Hw : w ∈ l1) by (rewrite El; apply elem_of_app; right; apply list_elem_of_here).
      destruct (tiled_in w _ _ _ T1 Hw) as (_ & ? & _). lia.
    + cbn [set_freep h_brk]. rewrite <-Eb. unfold join_lower. by destruct (_ =? _).
  - assert (J : heap_inv (set_freep p (join_lower bp p h1)) (l1 ++ Blk bp n true :: l)).
    { apply join_no; try done; [by rewrite (proj2 (Hk p Hpn))| |].
      - by exists (hd base (frees l2)).
      - intros m w Em. destruct (b_free w) eqn:Ew; [|done]. exfalso. apply E, fr_touch. exists m, w. split; [done|].
        split; [done|]. rewrite Em, frees_app, frees_cons, Ew. apply end_of_app. }
    eexists _, _. split; [reflexivity|]. split; [exact J|].
    assert (Eal : allocs (l1 ++ Blk bp n true :: l) = allocs l1 ++ allocs l2).
    { rewrite !allocs_app, !allocs_cons, Ha. done. }
    split; [done|]. rewrite Eal. split; [done|]. split.
    + eexists. split; [apply in_mid; by left|]. by split.
    + cbn [set_freep h_brk]. rewrite <-Eb. unfold join_lower. by destruct (_ =? _).
Qed.
End Free.

(** *** [malloc] *)

(** A new state of the heap in which [x] is allocated besides the old blocks,
    whose contents are as before. *)
Definition allocated_in (h : heap) (bl : list block) (h' : heap) (bl' : list block) (x : block) : Prop :=
  heap_inv h' bl' /\ allocs bl' ≡ₚ x :: allocs bl /\ forall z, z ∈ allocs bl -> untouched h h' z.

Lemma untouched_trans h1 h2 h3 z : untouched h1 h2 z -> untouched h2 h3 z -> untouched h1 h3 z.
Proof.
  intros H1 H2 k Hk. destruct (H1 k Hk) as [<- <-]. by apply H2.
Qed.

(** Writes to headers and inside free blocks leave allocated blocks alone. *)
Lemma untouched_writes h h' bl (z : block) :
  heap_inv h bl -> z ∈ allocs bl ->
  (forall k, k <> base -> (forall y, y ∈ bl -> k <> b_at y) ->
    (forall y, y ∈ bl -> b_free y = true -> ~ (b_at y < k < b_end y)) ->
    h_ptr h' k = h_ptr h k /\ h_size h' k = h_size h k) ->
  untouched h h' z.
Proof.
  intros I [Hzf Hz]%list_elem_of_filter H k Hk. pose proof (hi_tiled _ _ I) as T.
  destruct (tiled_in z _ _ _ T Hz) as (Hs & _ & _). apply H; [lia| |].
  - intros y Hy ->. destruct (tiled_disjoint y z _ _ _ T Hy Hz) as [->|[?|?]]; [lia| |lia].
    destruct (tiled_in y _ _ _ T Hy) as (_ & ? & _). unfold b_end, HDR in *. lia.
  - intros y Hy Hyf Hin. destruct (tiled_disjoint y z _ _ _ T Hy Hz) as [->|[?|?]]; [congruence|lia|lia].
Qed.

Section Carve.
Variables (h : heap) (l1 l2 : list block) (y : block) (prevp nunits : Z).
Hypothesis I : heap_inv h (l1 ++ y :: l2).
Hypothesis Hy : b_free y = true.
Hypothesis Hprev : h_ptr h prevp = b_at y.
Hypothesis Hin : prevp ∈ base :: frees (l1 ++ y :: l2).
Hypothesis Hu : 1 <= nunits <= b_n y.

Lemma cv_size : h_size h (b_at y) = b_n y.
Proof. apply (hi_size _ _ I), in_mid. by left. Qed.

Lemma cv_frees : frees (l1 ++ y :: l2) = frees l1 ++ b_at y :: frees l2.
Proof. by rewrite frees_app, frees_cons, Hy. Qed.

(** [prevp] is the block before [y] in the order of addresses. *)
Lemma cv_prev : prevp = end_of base (frees l1).
Proof.
  pose proof (hi_list _ _ I) as Hl. pose proof (ascending_frees _ base _ _ (hi_tiled _ _ I) ltac:(lia)) as Ha.
  assert (Hbn : base ∉ frees (l1 ++ y :: l2)).
  { intros H%(ascending_in _ base base Ha). lia. }
  eapply (linked_inj (h_ptr h) (frees (l1 ++ y :: l2)) base base); try done.
  - by apply ascending_nodup.
  - rewrite cv_frees. pose proof (end_of_in (frees l1) base) as H.
    apply elem_of_cons in H as [->|H]; [apply list_elem_of_here|]. right. apply elem_of_app. by left.
  - rewrite Hprev. symmetry. rewrite cv_frees in Hl. apply linked_app in Hl as [Hl _]. by apply linked_end in Hl.
Qed.

Lemma cv_prev_lt : base <= prevp < b_at y.
Proof.
  rewrite cv_prev. pose proof (end_of_in (frees l1) base) as H.
  pose proof (hi_tiled _ _ I) as T. apply tiled_split in T as (T1 & _ & _). pose proof (tiled_le _ _ _ T1).
  apply elem_of_cons in H as [->|H]; [lia|]. apply (frees_bounds _ _ _ _ T1) in H. lia.
Qed.

Lemma carve_whole :
  b_n y = nunits ->
  exists h' bl', carve nunits prevp (b_at y) h = Ok (b_at y + HDR, h') /\
    allocated_in h (l1 ++ y :: l2) h' bl' (Blk (b_at y) nunits false).
Proof.
  intros En. unfold carve, get. erewrite bind_Ok by reflexivity. rewrite cv_size, En, Z.eqb_refl.
  unfold put, ret. erewrite bind_Ok by reflexivity.
  eexists _, (l1 ++ Blk (b_at y) nunits false :: l2). split; [reflexivity|]. pose proof cv_prev_lt as Hlt.
  pose proof (hi_tiled _ _ I) as T. pose proof T as T'. apply tiled_split in T' as (T1 & Hn & T2).
  pose proof (hi_list _ _ I) as Hl. rewrite cv_frees in Hl. apply linked_app in Hl as [Hl1 Hl2].
  pose proof (hi_coal _ _ I) as C. apply coalesced_app in C as [C1 [C2 C3]]. rewrite Hy in C2.
  split; [|split].
  - split; cbn [set_freep set_ptr h_ptr h_size freep h_brk].
    + apply tiled_split. split; [done|]. split; [cbn [b_n]; lia|]. unfold b_end in *. cbn [b_at b_n]. by rewrite <-En.
    + apply coalesced_join; try done. intros m w _. by right.
    + intros z [->|Hz]%in_mid; [cbn [b_at b_n]; rewrite cv_size; done|]. apply (hi_size _ _ I), in_mid. by right.
    + apply I.
    + rewrite frees_app, frees_cons. cbn [b_free]. rewrite cv_prev in *.
      pose proof (ascending_nodup _ _ (ascending_frees l1 base _ _ T1 ltac:(lia))) as Nd.
      destruct (frees l2) as [|a f] eqn:Ef; cbn [linked] in Hl2.
      * rewrite app_nil_r, Hl2. by eapply linked_redirect.
      * destruct Hl2 as [Ha Hl2]. apply linked_app. rewrite Ha. split; [by eapply linked_redirect|].
        eapply linked_ext; [|exact Hl2]. intros k Hk. rewrite fn_lookup_insert_ne; [done|]. intros E.
        assert (Hkf : k ∈ frees l2) by (rewrite Ef; exact Hk). apply (frees_bounds _ _ _ _ T2) in Hkf. unfold b_end, HDR in *. lia.
    + rewrite frees_app, frees_cons. cbn [b_free]. rewrite cv_prev. pose proof (end_of_in (frees l1) base) as H.
      apply elem_of_cons in H as [->|H]; [apply list_elem_of_here|]. right. apply elem_of_app. by left.
    + apply I.
  - rewrite !allocs_app, !allocs_cons, Hy. cbn [b_free]. by rewrite Permutation_middle.
  - intros z Hz. eapply untouched_writes; [exact I|done|]. intros k Hk1 Hk2 _. cbn. split; [|done].
    rewrite fn_lookup_insert_ne; [done|]. intros <-.
    apply elem_of_cons in Hin as [->|(v & Hv & _ & Ev)%elem_of_frees]; [done|]. by apply (Hk2 v Hv).
Qed.

Lemma carve_part :
  nunits < b_n y ->
  exists h' bl', carve nunits prevp (b_at y) h = Ok (b_at y + HDR * (b_n y - nunits) + HDR, h') /\
    allocated_in h (l1 ++ y :: l2) h' bl' (Blk (b_at y + HDR * (b_n y - nunits)) nunits false).
Proof.
  intros En. unfold carve, get. erewrite bind_Ok by reflexivity. rewrite cv_size.
  destruct (Z.eqb_spec (b_n y) nunits); [lia|]. unfold put, ret. cbv zeta. erewrite bind_Ok by reflexivity.
  set (q := b_at y + HDR * (b_n y - nunits)).
  eexists _, (l1 ++ Blk (b_at y) (b_n y - nunits) true :: Blk q nunits false :: l2). split; [reflexivity|].
  pose proof (hi_tiled _ _ I) as T. pose proof T as T'. apply tiled_split in T' as (T1 & Hn & T2).
  pose proof (hi_coal _ _ I) as C. apply coalesced_app in C as [C1 [C2 C3]]. rewrite Hy in C2.
  pose proof (tiled_le _ _ _ T1) as Hle.
  assert (Hq : b_at y < q < b_end y) by (unfold q, b_end, HDR; lia).
  assert (Hne : forall z, z ∈ l1 ++ l2 -> b_at z <> b_at y /\ b_at z <> q).
  { intros z [Hz|Hz]%elem_of_app.
    - destruct (tiled_in z _ _ _ T1 Hz) as (? & ? & ?). unfold b_end, HDR in *. lia.
    - destruct (tiled_in z _ _ _ T2 Hz) as (? & ? & ?). lia. }
  split; [|split].
  - split; cbn [set_freep set_size h_ptr h_size freep h_brk].
    + apply tiled_split. split; [done|]. cbn [b_n tiled b_at]. split; [lia|]. unfold b_end in *. cbn [b_at b_n].
      split; [done|]. split; [lia|]. replace (q + HDR * nunits) with (b_at y + HDR * b_n y) by (unfold q, HDR; lia). done.
    + pose proof (hi_coal _ _ I) as C. clear -C Hy. induction l1 as [|v l IH]; cbn [app coalesced] in *.
      * split; [cbn; done|]. split; [cbn; done|]. by destruct C.
      * destruct C as [Cv C]. split; [|by apply IH]. destruct l; cbn in *; [|done]. by rewrite Hy in Cv.
    + intros z Hz. apply in_mid in Hz as [->|Hz].
      { cbn [b_at b_n]. rewrite fn_lookup_insert_ne by lia. by rewrite fn_lookup_insert. }
      apply in_mid in Hz as [->|Hz]; [cbn [b_at b_n]; by rewrite fn_lookup_insert|].
      destruct (Hne z Hz). rewrite !fn_lookup_insert_ne by done. apply (hi_size _ _ I), in_mid. by right.
    + rewrite !fn_lookup_insert_ne by lia. apply I.
    + rewrite frees_app, !frees_cons. cbn [b_free b_at]. rewrite <-cv_frees. apply I.
    + rewrite frees_app, !frees_cons. cbn [b_free b_at]. rewrite <-cv_frees. done.
    + apply I.
  - rewrite !allocs_app, !allocs_cons, Hy. cbn [b_free]. by rewrite Permutation_middle.
  - intros z Hz. eapply untouched_writes; [exact I|done|]. intros k Hk1 Hk2 Hk3. cbn. split; [done|].
    assert (Hyin : y ∈ l1 ++ y :: l2) by (apply in_mid; by left).
    rewrite !fn_lookup_insert_ne; [done|intros <-; by apply (Hk2 y)|intros <-; by apply (Hk3 y)].
Qed.

Lemma carve_spec :
  exists h' bl' x, carve nunits prevp (b_at y) h = Ok (b_at x + HDR, h') /\ b_n x = nunits /\
    allocated_in h (l1 ++ y :: l2) h' bl' x.
Proof.
  destruct (decide (b_n y = nunits)) as [E|E].
  - destruct (carve_whole E) as (h' & bl' & Ec & Ha). by exists h', bl', (Blk (b_at y) nunits false).
  - destruct (carve_part ltac:(lia)) as (h' & bl' & Ec & Ha).
    by exists h', bl', (Blk (b_at y + HDR * (b_n y - nunits)) nunits false).
Qed.
End Carve.

(** *** The free list is short *)

Lemma frees_le bl : coalesced bl ->
  (length (frees bl) <= length (allocs bl) + 1)%nat /\
  (starts_free bl = false -> (length (frees bl) <= length (allocs bl))%nat).
Proof.
  induction bl as [|x bl IH]; cbn [coalesced]; [intros _; split; cbn; lia|]. intros [Cx C]. destruct (IH C) as [H1 H2].
  rewrite frees_cons, allocs_cons. cbn [starts_free]. destruct (b_free x); cbn [length andb] in *.
  - split; [|done]. specialize (H2 Cx). lia.
  - split; [lia|]. intros _. lia.
Qed.

Lemma fuel_enough h bl : heap_inv h bl -> (length (frees bl) <= length (allocs bl) + 1)%nat.
Proof. intros I. apply frees_le, I. Qed.

(** *** [morecore] *)

Lemma morecore_inv h bl nu :
  heap_inv h bl -> 1 <= nu -> grow (h_brk h) (nu * HDR) = true ->
  let h1 := set_size (h_brk h) nu (Heap (h_ptr h) (h_size h) (freep h) (h_brk h + nu * HDR)) in
  heap_inv h1 (bl ++ [Blk (h_brk h) nu false]) /\ forall z, z ∈ bl -> untouched h h1 z.
Proof.
  intros I Hn Hg h1. apply grow_limit in Hg. pose proof (hi_tiled _ _ I) as T. pose proof (tiled_le _ _ _ T) as Hle.
  assert (Hlt : forall z, z ∈ bl -> b_at z < b_end z <= h_brk h).
  { intros z Hz. destruct (tiled_in z _ _ _ T Hz) as (_ & ? & ?). unfold b_end, HDR in *. lia. }
  assert (Hf : frees (bl ++ [Blk (h_brk h) nu false]) = frees bl) by (rewrite frees_app; apply app_nil_r).
  split.
  - split; cbn [h1 set_size h_ptr h_size freep h_brk].
    + apply tiled_split. split; [done|]. split; [done|]. unfold b_end. cbn. lia.
    + apply coalesced_join; [apply I|done|done|]. intros m w _. by right.
    + intros z [Hz|Hz%list_elem_of_singleton]%elem_of_app.
      * specialize (Hlt z Hz). rewrite fn_lookup_insert_ne by lia. by apply I.
      * subst z. cbn [b_at b_n]. by rewrite fn_lookup_insert.
    + rewrite fn_lookup_insert_ne by lia. apply I.
    + rewrite Hf. apply I.
    + rewrite Hf. apply I.
    + done.
  - intros z Hz k Hk. specialize (Hlt z Hz). cbn. split; [done|]. by rewrite fn_lookup_insert_ne by lia.
Qed.

Lemma morecore_spec h bl nu fuel :
  heap_inv h bl -> 1 <= nu -> (2 * length (allocs bl) + 8 <= fuel)%nat ->
  morecore grow fuel nu h = Ok (0, h) \/
  exists h' bl', morecore grow fuel nu h = Ok (freep h', h') /\ freep h' <> 0 /\ heap_inv h' bl' /\
    allocs bl' = allocs bl /\ (forall z, z ∈ allocs bl -> untouched h h' z) /\
    exists z, z ∈ bl' /\ b_free z = true /\ nu <= b_n z.
Proof.
  intros I Hn Hf. unfold morecore. set (nu' := if nu <? 4096 then 4096 else nu).
  assert (Hn' : 1 <= nu' /\ nu <= nu') by (unfold nu'; destruct (Z.ltb_spec nu 4096); lia). clearbody nu'.
  pose proof (tiled_le _ _ _ (hi_tiled _ _ I)) as Hle.
  destruct (grow (h_brk h) (nu' * HDR)) eqn:Eg.
  2:{ left. unfold sbrk. unfold bind. by rewrite Eg. }
  right. unfold sbrk. erewrite bind_Ok by (by rewrite Eg). destruct (Z.eqb_spec (h_brk h) (-1)); [lia|].
  unfold modify. erewrite bind_Ok by reflexivity.
  destruct (morecore_inv h bl nu' I ltac:(lia) Eg) as [I1 U1]. cbv zeta in I1, U1.
  set (h1 := set_size _ _ _) in *. clearbody h1.
  pose proof (fuel_enough _ _ I) as Hfe.
  destruct (free_spec h1 bl [] (Blk (h_brk h) nu' false) I1 eq_refl fuel) as (h' & bl' & E & I' & Ea & U & (z & Hz & Hzf & Hzn) & _).
  { rewrite app_nil_r. lia. }
  cbn [b_at] in E. rewrite (bind_Ok _ _ _ _ _ E). unfold gets.
  change (allocs []) with (@nil block) in Ea. rewrite app_nil_r in Ea.
  exists h', bl'. split; [done|]. split.
  { pose proof (hi_freep _ _ I') as Hp. apply elem_of_cons in Hp as [->|Hp]; [lia|].
    apply (frees_bounds _ _ _ _ (hi_tiled _ _ I')) in Hp. lia. }
  split; [done|]. split; [done|]. split.
  - intros w Hw. eapply untouched_trans; [|by apply U; rewrite Ea]. apply U1. by apply list_elem_of_filter in Hw as [_ ?].
  - exists z. split; [done|]. split; [done|]. cbn [b_n] in Hzn. lia.
Qed.

(** *** The search *)

Lemma malloc_walk h nunits r : forall prevp fuel,
  linked (h_ptr h) prevp r (freep h) -> freep h ∉ r ->
  let loop := malloc_loop grow (length r + S fuel) nunits prevp (h_ptr h prevp) h in
  (exists prev y, prev ∈ prevp :: r /\ y ∈ r ++ [freep h] /\ h_ptr h prev = y /\ nunits <= h_size h y /\
    loop = carve nunits prev y h) \/
  (forall y, y ∈ r ++ [freep h] -> h_size h y < nunits) /\
  loop = (let! p := morecore grow fuel nunits in
          if p =? 0 then ret 0
          else
            let! h := get in
            malloc_loop grow fuel nunits p (h_ptr h p)) h.
Proof.
  induction r as [|a r IH]; intros prevp fuel; cbn [linked length Nat.add malloc_loop app].
  - intros Hp _. unfold get. rewrite Hp. cbv zeta.
    erewrite bind_Ok by reflexivity. destruct (Z.leb_spec nunits (h_size h (freep h))) as [Hs|Hs].
    + left. exists prevp, (freep h). repeat split; try done; apply list_elem_of_here.
    + right. split; [by intros y ->%list_elem_of_singleton|]. by rewrite Z.eqb_refl.
  - intros [Hp Hl] [Hne Hr]%not_elem_of_cons. unfold get. rewrite Hp. cbv zeta.
    erewrite bind_Ok by reflexivity. destruct (Z.leb_spec nunits (h_size h a)) as [Hs|Hs].
    + left. exists prevp, a. repeat split; try done; apply list_elem_of_here.
    + destruct (Z.eqb_spec a (freep h)); [congruence|].
      destruct (IH a fuel Hl Hr) as [(prev & y & H1 & H2 & H3 & H4 & E)|[Hall E]]; cbv zeta in E.
      * left. exists prev, y. split; [by right|]. split; [by right|]. done.
      * right. split; [|done]. intros y [->|Hy]%elem_of_cons; [done|]. by apply Hall.
Qed.

(** A walk round the free list finds a block or ends at [freep]. *)
Lemma malloc_round h bl nunits fuel :
  heap_inv h bl -> 1 <= nunits -> (length (allocs bl) + 2 <= fuel)%nat ->
  exists fuel', (fuel <= fuel' + length (allocs bl) + 2)%nat /\
  let loop := malloc_loop grow fuel nunits (freep h) (h_ptr h (freep h)) h in
  ((exists h' bl' x, loop = Ok (b_at x + HDR, h') /\ b_n x = nunits /\ allocated_in h bl h' bl' x) \/
   (forall y, y ∈ bl -> b_free y = true -> b_n y < nunits) /\
   loop = (let! p := morecore grow fuel' nunits in
           if p =? 0 then ret 0
           else
             let! h := get in
             malloc_loop grow fuel' nunits p (h_ptr h p)) h).
Proof.
  intros I Hn Hf. destruct (rotate _ _ _ _ (hi_list _ _ I) (hi_freep _ _ I)) as (r & Hperm & Hl).
  pose proof (fuel_enough _ _ I) as Hfe.
  pose proof (ascending_nodup _ _ (ascending_frees _ base _ _ (hi_tiled _ _ I) ltac:(lia))) as Nd.
  rewrite <-Hperm in Nd. apply NoDup_cons in Nd as [Hr _].
  assert (Hlen : (length r <= length (allocs bl) + 1)%nat).
  { apply Permutation_length in Hperm. cbn [length] in Hperm. lia. }
  assert (Hnodes : forall y, y ∈ r ++ [freep h] <-> y ∈ base :: frees bl).
  { intros y. rewrite <-Hperm, elem_of_app, list_elem_of_singleton, elem_of_cons. tauto. }
  exists (fuel - S (length r))%nat. split; [lia|].
  destruct (malloc_walk h nunits r (freep h) (fuel - S (length r)) Hl Hr)
    as [(prev & y & Hprev & Hy & Ep & Hs & E)|[Hall E]];
    replace (length r + S (fuel - S (length r)))%nat with fuel in E by lia; cbv zeta in E |- *; rewrite E.
  - left. apply Hnodes in Hy. apply elem_of_cons in Hy as [->|(b & Hb & Hbf & <-)%elem_of_frees].
    { rewrite (hi_base _ _ I) in Hs. lia. }
    rewrite (hi_size _ _ I b Hb) in Hs. apply list_elem_of_split in Hb as (l1 & l2 & ->).
    apply (carve_spec h l1 l2 b prev nunits I Hbf Ep); [|lia].
    rewrite Hperm in Hprev. done.
  - right. split; [|done]. intros y Hy Hyf. rewrite <-(hi_size _ _ I y Hy). apply Hall, Hnodes. right.
    apply elem_of_frees. by exists y.
Qed.

Lemma malloc_loop_spec h bl nunits fuel :
  heap_inv h bl -> 1 <= nunits -> (4 * length (allocs bl) + 12 <= fuel)%nat ->
  let loop := malloc_loop grow fuel nunits (freep h) (h_ptr h (freep h)) h in
  loop = Ok (0, h) \/
  exists h' bl' x, loop = Ok (b_at x + HDR, h') /\ b_n x = nunits /\ allocated_in h bl h' bl' x.
Proof.
  intros I Hn Hf. destruct (malloc_round h bl nunits fuel I Hn) as (f1 & Hf1 & [H|[_ E]]); [lia|by right|].
  cbv zeta in E |- *. rewrite E.
  destruct (morecore_spec h bl nunits f1 I Hn) as [E1|(h1 & bl1 & E1 & Hp & I1 & Ea & U & z & Hz & Hzf & Hzn)]; [lia| |].
  - left. by rewrite (bind_Ok _ _ _ _ _ E1).
  - right. rewrite (bind_Ok _ _ _ _ _ E1). destruct (Z.eqb_spec (freep h1) 0); [done|].
    unfold get. erewrite bind_Ok by reflexivity.
    destruct (malloc_round h1 bl1 nunits f1 I1 Hn) as (f2 & _ & [(h2 & bl2 & x & E2 & Ex & I2 & Ea2 & U2)|[Hsmall _]]).
    + rewrite Ea. lia.
    + exists h2, bl2, x. split; [exact E2|]. split; [done|]. split; [done|]. split; [by rewrite Ea2, Ea|].
      intros w Hw. eapply untouched_trans; [by apply U|]. apply U2. by rewrite Ea.
    + specialize (Hsmall z Hz Hzf). lia.
Qed.

(** ** Histories of calls *)

(** No call yet, or the invariant. *)
Definition heap_ready (h : heap) (bl : list block) : Prop :=
  heap_inv h bl \/ (freep h = 0 /\ h_brk h = start /\ start <= LIMIT /\ bl = []).

(** The units for [nbytes] and a header. *)
Definition units (nbytes : Z) : Z := (nbytes + 15) / 16 + 1.

Lemma malloc_spec h bl nbytes fuel :
  heap_ready h bl -> 0 <= nbytes < 2 ^ 32 -> (4 * length (allocs bl) + 12 <= fuel)%nat ->
  exists r h' bl', malloc base grow fuel nbytes h = Ok (r, h') /\ heap_inv h' bl' /\
    (forall z, z ∈ allocs bl -> untouched h h' z) /\
    (r = 0 /\ allocs bl' = allocs bl \/
     exists x, r = b_at x + HDR /\ b_n x = units nbytes /\ allocs bl' ≡ₚ x :: allocs bl).
Proof.
  intros Hr Hn Hf. unfold malloc, HDR. cbv zeta.
  assert (Eu : u32 ((nbytes + 16 - 1) / 16 + 1) = units nbytes /\ 1 <= units nbytes).
  { unfold units, u32. replace (nbytes + 16 - 1) with (nbytes + 15) by lia. Z.to_euclidean_division_equations. lia. }
  destruct Eu as [-> Hu]. unfold modify. erewrite bind_Ok by reflexivity.
  set (h0 := if freep h =? 0 then _ else h).
  assert (I0 : heap_inv h0 bl /\ forall z, z ∈ allocs bl -> untouched h h0 z).
  { unfold h0. destruct Hr as [I|(Hp & Hb & Hs & ->)].
    - destruct (Z.eqb_spec (freep h) 0) as [E|_]; [exfalso|by split; [|by intros z _ k _]].
      pose proof (hi_freep _ _ I) as Hp. rewrite E in Hp. apply elem_of_cons in Hp as [Hp|Hp]; [lia|].
      apply (frees_bounds _ _ _ _ (hi_tiled _ _ I)) in Hp. lia.
    - rewrite Hp. split; [|by intros z Hz%not_elem_of_nil].
      split; cbn; try done; try by rewrite fn_lookup_insert.
      + by intros x Hx%not_elem_of_nil.
      + apply list_elem_of_here.
      + by rewrite Hb. }
  clearbody h0. destruct I0 as [I0 U0]. unfold get. erewrite bind_Ok by reflexivity.
  destruct (malloc_loop_spec h0 bl (units nbytes) fuel I0 Hu Hf) as [E|(h' & bl' & x & E & Ex & I' & Ea & U)].
  - exists 0, h0, bl. cbv zeta in E. split; [done|]. split; [done|]. split; [done|]. by left.
  - eexists _, h', bl'. split; [exact E|]. split; [done|]. split.
    + intros z Hz. eapply untouched_trans; [by apply U0|by apply U].
    + right. by exists x.
Qed.

(** The user program: calls of [malloc], calls of [free] of blocks it has, and
    stores in its blocks.  [A] are the blocks it has. *)
Inductive um_step : heap * list block -> heap * list block -> Prop :=
  | um_malloc h A nbytes fuel h' r :
      0 <= nbytes < 2 ^ 32 -> malloc base grow fuel nbytes h = Ok (r, h') ->
      (4 * length A + 12 <= fuel)%nat ->
      um_step (h, A) (h', if r =? 0 then A else Blk (r - HDR) (units nbytes) false :: A)
  | um_free h A1 x A2 fuel h' :
      free fuel (b_at x + HDR) h = Ok (tt, h') -> (2 * length (A1 ++ A2) + 8 <= fuel)%nat ->
      um_step (h, A1 ++ x :: A2) (h', A1 ++ A2)
  | um_store h A x h' :
      x ∈ A -> freep h' = freep h -> h_brk h' = h_brk h ->
      (forall k, ~ (b_at x < k < b_end x) -> h_ptr h' k = h_ptr h k /\ h_size h' k = h_size h k) ->
      um_step (h, A) (h', A).

Definition um_ok (s : heap * list block) : Prop :=
  exists bl, heap_ready s.1 bl /\ allocs bl ≡ₚ s.2.

Lemma ready_tiled h bl : heap_ready h bl -> tiled start bl (h_brk h).
Proof. intros [I|(_ & Hb & _ & ->)]; [apply I|done]. Qed.

(** Freeing a block that the program has. *)
Lemma free_ok h bl A1 x A2 fuel :
  heap_ready h bl -> allocs bl ≡ₚ A1 ++ x :: A2 -> (2 * length (A1 ++ A2) + 8 <= fuel)%nat ->
  exists h' bl', free fuel (b_at x + HDR) h = Ok (tt, h') /\ heap_inv h' bl' /\ allocs bl' ≡ₚ A1 ++ A2 /\
    forall z, z ∈ A1 ++ A2 -> untouched h h' z.
Proof.
  intros Hr Hp Hf. assert (Hx : x ∈ allocs bl) by (rewrite Hp; apply in_mid; by left).
  destruct Hr as [I|(_ & _ & _ & ->)]; [|by apply not_elem_of_nil in Hx].
  pose proof Hx as [Hxf Hxb]%list_elem_of_filter. apply list_elem_of_split in Hxb as (l1 & l2 & ->).
  pose proof (fuel_enough _ _ I) as Hfe.
  assert (Hal : allocs l1 ++ allocs l2 ≡ₚ A1 ++ A2).
  { rewrite allocs_app, allocs_cons, Hxf in Hp. rewrite <-!Permutation_middle in Hp. by apply Permutation_cons_inv in Hp. }
  destruct (free_spec h l1 l2 x I Hxf fuel) as (h' & bl' & E & I' & Ea & U & _).
  { rewrite frees_app, frees_cons, Hxf in Hfe. pose proof (Permutation_length Hp) as Hlen.
    rewrite !length_app in Hlen. cbn [length] in Hlen. rewrite !length_app in Hf, Hfe |- *.
    rewrite allocs_app, allocs_cons, Hxf in Hlen. rewrite length_app in Hlen. cbn [length] in Hlen.
    rewrite allocs_app, allocs_cons, Hxf, length_app in Hfe. cbn [length] in Hfe. lia. }
  exists h', bl'. split; [done|]. split; [done|]. split; [by rewrite Ea|].
  intros z Hz. apply U. by rewrite Ea, Hal.
Qed.

Lemma um_step_ok s s' : um_step s s' -> um_ok s -> um_ok s'.
Proof.
  intros St (bl & Hr & Hp). destruct St as [h A nbytes fuel h' r Hn E Hf|h A1 x A2 fuel h' E Hf|h A x h' Hx Efp Ebr Hk];
    cbn [fst snd] in *.
  - destruct (malloc_spec h bl nbytes fuel Hr Hn) as (r' & h1 & bl' & E1 & I' & _ & [[-> Ea]|(x & -> & Ex & Ea)]).
    + by rewrite Hp.
    + rewrite E in E1. injection E1 as -> ->. exists bl'. split; [by left|]. cbn. by rewrite Ea.
    + rewrite E in E1. injection E1 as -> ->. exists bl'. split; [by left|]. cbn [fst snd].
      assert (Hin : x ∈ allocs bl') by (rewrite Ea; apply list_elem_of_here).
      apply list_elem_of_filter in Hin as [Hxf Hxb]. destruct (tiled_in x _ _ _ (hi_tiled _ _ I') Hxb) as (Hs & _).
      destruct (Z.eqb_spec (b_at x + HDR) 0); [unfold HDR in *; lia|].
      rewrite Ea, Hp. f_equiv. replace (b_at x + HDR - HDR) with (b_at x) by lia. rewrite <-Ex, <-Hxf. by destruct x.
  - destruct (free_ok h bl A1 x A2 fuel Hr Hp Hf) as (h1 & bl' & E1 & I' & Ea & _).
    rewrite E in E1. injection E1 as ->. exists bl'. split; [by left|done].
  - exists bl. split; [|done]. cbn [fst]. pose proof (ready_tiled _ _ Hr) as T. rewrite <-Hp in Hx.
    apply list_elem_of_filter in Hx as [Hxf Hx]. destruct (tiled_in x _ _ _ T Hx) as (Hs & _ & _).
    assert (Hb : forall z, z ∈ bl -> ~ (b_at x < b_at z < b_end x)).
    { intros z Hz Hin. destruct (tiled_disjoint z x _ _ _ T Hz Hx) as [->|[?|?]]; [lia| |lia].
      destruct (tiled_in z _ _ _ T Hz) as (_ & ? & _). unfold b_end, HDR in *. lia. }
    destruct Hr as [I|(Hp0 & Hb0 & Hs0 & ->)]; [left|by apply not_elem_of_nil in Hx].
    split; rewrite ?Ebr, ?Efp; try apply I.
    + intros z Hz. rewrite (proj2 (Hk _ (Hb z Hz))). by apply I.
    + rewrite (proj2 (Hk base ltac:(lia))). apply I.
    + eapply linked_ext; [|apply I]. intros k Hin. apply Hk.
      apply elem_of_cons in Hin as [->|(z & Hz & _ & <-)%elem_of_frees]; [lia|by apply Hb].
Qed.

Lemma tiled_nodup bl : forall a e, tiled a bl e -> NoDup bl.
Proof.
  induction bl as [|x bl IH]; intros a e; [constructor|]. cbn [tiled]. intros (_ & Hn & T). constructor; [|by eapply IH].
  intros Hx. destruct (tiled_in x _ _ _ T Hx) as (? & _ & _). unfold b_end, HDR in *. lia.
Qed.

(** Allocated blocks do not overlap. *)
Lemma allocs_disjoint bl A e :
  tiled start bl e -> allocs bl ≡ₚ A ->
  NoDup A /\ (forall x, x ∈ A -> start <= b_at x /\ b_end x <= e) /\
  forall x y, x ∈ A -> y ∈ A -> x = y \/ b_end x <= b_at y \/ b_end y <= b_at x.
Proof.
  intros T Hp. split.
  - rewrite <-Hp. by eapply NoDup_filter, tiled_nodup.
  - assert (Hin : forall x, x ∈ A -> x ∈ bl) by (intros x; rewrite <-Hp; by intros [_ ?]%list_elem_of_filter).
    split.
    + intros x Hx. destruct (tiled_in x _ _ _ T (Hin x Hx)) as (? & _ & ?). done.
    + intros x y Hx Hy. by apply (tiled_disjoint x y bl _ _ T); apply Hin.
Qed.
End Invariant.

(** C13: in every history of [malloc], [free] and stores of the user program in
    its own blocks: the blocks it has lie in its heap and do not overlap;
    [malloc] returns, with 0 or with a new block that is large enough and that
    overlaps none of them; [free] of one of them returns; and neither call
    changes the contents of a block that the program keeps. *)
Theorem malloc_free_safe (base start : Z) (grow : Z -> Z -> bool) (h : heap) (A : list block) :
  0 < base < start -> start <= LIMIT -> (forall b n, grow b n = true -> b + n <= LIMIT) ->
  rtc (um_step base grow) (Heap (fun _ => 0) (fun _ => 0) 0 start, []) (h, A) ->
  NoDup A /\ (forall x, x ∈ A -> start <= b_at x /\ b_end x <= h_brk h) /\
  (forall x y, x ∈ A -> y ∈ A -> x = y \/ b_end x <= b_at y \/ b_end y <= b_at x) /\
  (forall nbytes fuel, 0 <= nbytes < 2 ^ 32 -> (4 * length A + 12 <= fuel)%nat ->
    exists r h', malloc base grow fuel nbytes h = Ok (r, h') /\ (forall z, z ∈ A -> untouched h h' z) /\
      (r <> 0 -> exists x, r = b_at x + HDR /\ nbytes <= b_end x - r /\
        start <= b_at x /\ b_end x <= h_brk h' /\
        forall y, y ∈ A -> b_end x <= b_at y \/ b_end y <= b_at x)) /\
  (forall A1 x A2 fuel, A = A1 ++ x :: A2 -> (2 * length (A1 ++ A2) + 8 <= fuel)%nat ->
    exists h', free fuel (b_at x + HDR) h = Ok (tt, h') /\ forall z, z ∈ A1 ++ A2 -> untouched h h' z).
Proof.
  intros Hb Hs Hg R.
  assert (H : um_ok base start (h, A)).
  { refine (rtc_invariant _ _ _ _ _ (fun a b Ha Hab => um_step_ok base start grow Hb Hg a b Hab Ha) R).
    exists []. split; [by right|done]. }
  destruct H as (bl & Hr & Hp). cbn [fst snd] in *. pose proof (ready_tiled _ _ _ _ Hr) as T.
  destruct (allocs_disjoint start bl A _ T Hp) as (Nd & Hin & Hdis).
  split; [done|]. split; [done|]. split; [done|]. split.
  - intros nbytes fuel Hn Hf.
    destruct (malloc_spec base start grow Hb Hg h bl nbytes fuel Hr Hn) as (r & h' & bl' & E & I' & U & Hres); [by rewrite Hp|].
    exists r, h'. split; [done|]. split; [intros z Hz; apply U; by rewrite Hp|]. intros Hr0.
    destruct Hres as [[? _]|(x & -> & Ex & Ea)]; [done|]. exists x. split; [done|]. split.
    { unfold b_end. rewrite Ex. unfold units, HDR. Z.to_euclidean_division_equations. lia. }
    destruct (allocs_disjoint start bl' (x :: A) _ (hi_tiled _ _ _ _ I')) as (Nd' & Hin' & Hdis'); [by rewrite Ea, Hp|].
    destruct (Hin' x) as [H1 H2]; [apply list_elem_of_here|]. split; [done|]. split; [done|].
    intros y Hy. apply NoDup_cons in Nd' as [Hx _].
    destruct (Hdis' x y) as [->|?]; [apply list_elem_of_here|by right|done|done].
  - intros A1 x A2 fuel -> Hf. destruct (free_ok base start Hb h bl A1 x A2 fuel Hr Hp Hf) as (h' & bl' & E & _ & _ & U).
    by exists h'.
Qed.

(** Two blocks, the first one given back. *)
Definition demo_grow (b n : Z) : bool := b + n <=? LIMIT.
Definition demo_heap (k : nat) : heap :=
  let step c h := match c h with Ok (_, h') => h' | _ => h end in
  let h0 := Heap (fun _ => 0) (fun _ => 0) 0 8192 in
  let h1 := step (malloc 16 demo_grow 20 100) h0 in
  let h2 := step (malloc 16 demo_grow 20 40) h1 in
  let h3 := match free 20 (73600 + HDR) h2 with Ok (_, h') => h' | _ => h2 end in
  match k with O => h0 | 1%nat => h1 | 2%nat => h2 | _ => h3 end.

Lemma demo_history : rtc (um_step 16 demo_grow) (demo_heap 0, []) (demo_heap 3, [Blk 73536 4 false]).
Proof.
  apply (rtc_l _ _ (demo_heap 1, [Blk 73600 8 false])).
  { apply (um_malloc 16 demo_grow (demo_heap 0) [] 100 20 (demo_heap 1) (73600 + HDR)); [lia|reflexivity|simpl; lia]. }
  apply (rtc_l _ _ (demo_heap 2, [Blk 73536 4 false; Blk 73600 8 false])).
  { apply (um_malloc 16 demo_grow (demo_heap 1) [Blk 73600 8 false] 40 20 (demo_heap 2) (73536 + HDR)); [lia|reflexivity|simpl; lia]. }
  apply rtc_once.
  apply (um_free 16 demo_grow (demo_heap 2) [Blk 73536 4 false] (Blk 73600 8 false) [] 20 (demo_heap 3)); [reflexivity|simpl; lia].
Qed.

Lemma malloc_free_safe_witness :
  b_end (Blk 73536 4 false) <= h_brk (demo_heap 3) /\
  exists r h', malloc 16 demo_grow 20 100 (demo_heap 3) = Ok (r, h').
Proof.
  destruct (malloc_free_safe 16 8192 demo_grow (demo_heap 3) [Blk 73536 4 false]) as (_ & Hin & _ & Hm & _).
  - lia.
  - vm_compute. discriminate.
  - intros b n H. apply Z.leb_le in H. exact H.
  - exact demo_history.
  - split; [apply Hin, list_elem_of_here|].
    destruct (Hm 100 20%nat) as (r & h' & E & _); [lia|simpl; lia|]. exists r, h'. exact E.
Defined.
