(* ===== verification/Coroutine.v ===== *)
(** * Coroutines: coroutine.c and swtch.S

    A machine with a stack pointer, the callee-saved registers and memory of 64-bit
    words, on which [swtch] is the instructions of swtch.S and a call of the library
    is one or more steps between two switches.  A word is a number or an address of
    code.  The code of the program is the host, which makes a list of calls, and
    functions of coroutines, which do something, call [co_yield], and so on, and
    return at the end; what they do to the registers is arbitrary. *)
From S2P Require Import Prelude Umalloc.

(** The calls of the host. *)
Inductive call : Type :=
  | CNew (c stack : Z) (id yields : nat)   (* co_new, with what the two [malloc]s return *)
  | CRun
  | CRunAll
  | CYield
  | CExit.

(** Places in the code. *)
Inductive point : Type :=
  | Host (l : list call)                   (* the host, with calls to make *)
  | HostRet (l : list call)                (* where a call of it returns *)
  | Seg (id yields j : nat)                (* a function after [j] yields *)
  | NewLoop (c head : Z)                   (* the walk of co_new *)
  | Run | RunRet                           (* co_run, and after its switch *)
  | All | AllLoop (tmp : Z) | AllNext (tmp : Z)
  | Yield | YieldRet
  | Exit | ExitLoop (tmp prev : Z) | ExitNext (tmp prev : Z).

Inductive word : Type := I (z : Z) | P (p : point).

(** What happens: a part of a coroutine ran; a call of the host returned. *)
Inductive event : Type := Ran (id j : nat) | Returned (v : Z).

Record regs : Type := Regs { rbp : word; rbx : word; r12 : word; r13 : word; r14 : word; r15 : word }.

(** [struct coroutine] at [c]: [context] at [c], [next] at [c + 8], [stack] at [c + 16]. *)
Record machine : Type := Mach {
  mm : Z -> word;
  sp : Z;
  pc : point;
  rg : regs;
  rax : Z;
  host_context : word;
  co_current : Z;
  co_list : Z;
  out : list event;
}.

Definition set_mm v m := Mach v (sp m) (pc m) (rg m) (rax m) (host_context m) (co_current m) (co_list m) (out m).
Definition set_sp v m := Mach (mm m) v (pc m) (rg m) (rax m) (host_context m) (co_current m) (co_list m) (out m).
Definition set_pc v m := Mach (mm m) (sp m) v (rg m) (rax m) (host_context m) (co_current m) (co_list m) (out m).
Definition set_rg v m := Mach (mm m) (sp m) (pc m) v (rax m) (host_context m) (co_current m) (co_list m) (out m).
Definition set_rax v m := Mach (mm m) (sp m) (pc m) (rg m) v (host_context m) (co_current m) (co_list m) (out m).
Definition set_host_context v m := Mach (mm m) (sp m) (pc m) (rg m) (rax m) v (co_current m) (co_list m) (out m).
Definition set_co_current v m := Mach (mm m) (sp m) (pc m) (rg m) (rax m) (host_context m) v (co_list m) (out m).
Definition set_co_list v m := Mach (mm m) (sp m) (pc m) (rg m) (rax m) (host_context m) (co_current m) v (out m).
Definition emit e m := Mach (mm m) (sp m) (pc m) (rg m) (rax m) (host_context m) (co_current m) (co_list m) (out m ++ [e]).

Definition store_word (a : Z) (v : word) (m : machine) : machine := set_mm (<[a := v]> (mm m)) m.
Definition push (v : word) (m : machine) : machine := set_sp (sp m - 8) (store_word (sp m - 8) v m).
Definition pop (m : machine) : word * machine := (mm m (sp m), set_sp (sp m + 8) m).

(** [ret]: a fault unless the top of the stack is an address of code. *)
Definition retq (m : machine) : option machine :=
  match pop m with
  | (P p, m) => Some (set_pc p m)
  | (I _, _) => None
  end.

(** ** swtch.S *)

(** The first argument of [swtch]: [&host_context], or [&c->context]. *)
Inductive ctxref : Type := HostCtx | CtxOf (c : Z).
Definition store_ctx (r : ctxref) (v : word) (m : machine) : machine :=
  match r with HostCtx => set_host_context v m | CtxOf c => store_word c v m end.

Definition swtch (old : ctxref) (new : Z) (m : machine) : option machine :=
  let m := push (rbp (rg m)) m in
  let m := push (rbx (rg m)) m in
  let m := push (r12 (rg m)) m in
  let m := push (r13 (rg m)) m in
  let m := push (r14 (rg m)) m in
  let m := push (r15 (rg m)) m in
  let m := store_ctx old (I (sp m)) m in
  let m := set_sp new m in
  let '(v15, m) := pop m in
  let '(v14, m) := pop m in
  let '(v13, m) := pop m in
  let '(v12, m) := pop m in
  let '(vbx, m) := pop m in
  let '(vbp, m) := pop m in
  retq (set_rg (Regs vbp vbx v12 v13 v14 v15) m).

(** A call of [swtch] that returns to [ra]; a context that is no address faults. *)
Definition call_swtch (old : ctxref) (new : word) (ra : point) (m : machine) : option machine :=
  match new with
  | I p => swtch old p (push (P ra) m)
  | P _ => None
  end.

(** ** coroutine.c *)

(** The first page of a process is not mapped ([exec] starts at [PGSIZE]). *)
Definition deref (a : Z) (m : machine) : option word := if a <? 4096 then None else Some (mm m a).

Definition context_at (c : Z) : Z := c.
Definition next_at (c : Z) : Z := c + 8.
Definition stack_at (c : Z) : Z := c + 16.

(** [c->next] as a pointer. *)
Definition next_of (c : Z) (m : machine) : option Z :=
  match deref (next_at c) m with
  | Some (I n) => Some n
  | _ => None
  end.

(** Return a value to the caller. *)
Definition return_val (v : Z) (m : machine) : option machine := retq (set_rax v m).

(** [co_new] up to the walk along the list; [c] and [stack] are what the two
    calls of [malloc] return. *)
Definition co_new (c stack : Z) (id yields : nat) (m : machine) : option machine :=
  if c =? 0 then return_val 0 m
  else
    let m := store_word (stack_at c) (I stack) m in
    if stack =? 0 then return_val 0 m
    else
      let ptr := stack + 1000 in
      let m := store_word (ptr + 8 * 6) (P (Seg id yields 0)) m in
      let m := store_word (ptr + 8 * 7) (P Exit) m in
      let m := store_word (context_at c) (I ptr) m in
      if co_list m =? 0 then return_val c (set_co_list c m)
      else Some (set_pc (NewLoop c (co_list m)) m).

(** A turn of the walk to the last element; [head = co1] then changes only the local. *)
Definition co_new_loop (c head : Z) (m : machine) : option machine :=
  match next_of head m with
  | Some n => if n =? 0 then return_val c m else Some (set_pc (NewLoop c n) m)
  | None => None
  end.

Definition co_run (m : machine) : option machine :=
  if co_list m =? 0 then return_val 0 m
  else
    let m := set_co_current (co_list m) m in
    match deref (context_at (co_current m)) m with
    | Some ctx => call_swtch HostCtx ctx RunRet m
    | None => None
    end.

Definition co_yield (m : machine) : option machine :=
  let tmp := co_current m in
  match next_of tmp m with
  | None => None
  | Some n =>
      if n =? 0 then
        call_swtch (CtxOf (context_at tmp)) (host_context m) YieldRet (set_co_current 0 m)
      else
        let m := set_co_current n m in
        match deref (context_at n) m with
        | Some ctx => call_swtch (CtxOf (context_at tmp)) ctx YieldRet m
        | None => None
        end
  end.

(** A turn of the loop of [co_exit]. *)
Definition co_exit_loop (tmp prev : Z) (m : machine) : option machine :=
  if tmp =? 0 then retq m
  else if tmp =? co_current m then
    match next_of tmp m with
    | None => None
    | Some n =>
        if n =? 0 then
          call_swtch (CtxOf (context_at (co_current m))) (host_context m) (ExitNext tmp prev) (set_co_list 0 m)
        else
          let m := if prev =? 0 then m else store_word (next_at prev) (I n) m in
          let m := set_co_list n m in
          match deref (context_at tmp) m with
          | Some ctx => call_swtch (CtxOf (context_at (co_current m))) ctx (ExitNext tmp prev) m
          | None => None
          end
    end
  else Some (set_pc (ExitNext tmp prev) m).

(** [prev0] is the value of the uninitialised [prev]; [user] is what the functions do
    to the registers. *)
Section Step.
Variable prev0 : Z.
Variable user : nat -> nat -> regs -> regs.

Definition call_point (c : call) : point :=
  match c with CRun => Run | CRunAll => All | CYield => Yield | CExit => Exit | CNew _ _ _ _ => Run end.

Definition step (m : machine) : option machine :=
  match pc m with
  | Host [] => Some m
  | Host (CNew c stack id yields :: l) => co_new c stack id yields (push (P (HostRet l)) m)
  | Host (c :: l) => Some (set_pc (call_point c) (push (P (HostRet l)) m))
  | HostRet l => Some (set_pc (Host l) (emit (Returned (rax m)) m))
  | Seg id yields j =>
      let m := set_rg (user id j (rg m)) (emit (Ran id j) m) in
      if (j <? yields)%nat then Some (set_pc Yield (push (P (Seg id yields (S j))) m))
      else retq m
  | Run => co_run m
  | RunRet => return_val 1 m
  | All => if co_list m =? 0 then return_val 0 m else Some (set_pc (AllLoop (co_list m)) m)
  | AllLoop tmp => if tmp =? 0 then return_val 1 m else Some (set_pc Run (push (P (AllNext tmp)) m))
  | AllNext tmp =>
      match next_of tmp m with Some n => Some (set_pc (AllLoop n) m) | None => None end
  | Yield => co_yield m
  | YieldRet => retq m
  | Exit => if co_current m =? 0 then retq m else Some (set_pc (ExitLoop (co_list m) prev0) m)
  | ExitLoop tmp prev => co_exit_loop tmp prev m
  | ExitNext tmp _ =>
      match next_of tmp m with Some n => Some (set_pc (ExitLoop n tmp) m) | None => None end
  | NewLoop c head => co_new_loop c head m
  end.

Fixpoint run (n : nat) (m : machine) : option machine :=
  match n with
  | O => Some m
  | S n => match step m with Some m => run n m | None => None end
  end.
End Step.

(** ** The memory of a coroutine *)

(** The two calls of [malloc] in [co_new]; (0, 0) when it returns 0. *)
Definition co_alloc (base : Z) (grow : Z -> Z -> bool) (fuel : nat) : M heap (Z * Z) :=
  let! c := malloc base grow fuel 24 in
  if c =? 0 then ret (0, 0)
  else
    let! stack := malloc base grow fuel 8192 in
    if stack =? 0 then do! free fuel c in ret (0, 0)
    else ret (c, stack).

(** [co_destroy], with [co->stack]. *)
Definition co_destroy (fuel : nat) (co stack : Z) : M heap unit :=
  if co =? 0 then ret tt
  else
    do! (if stack =? 0 then ret tt else free fuel stack) in
    free fuel co.

(** ** Words in memory *)

Lemma ins_eq (f : Z -> word) a b v : a = b -> (<[a := v]> f) b = v.
Proof. intros <-. apply fn_lookup_insert. Qed.
Lemma ins_ne (f : Z -> word) a b v : a <> b -> (<[a := v]> f) b = f b.
Proof. intros N. by apply fn_lookup_insert_ne. Qed.
Ltac mlook := repeat first [rewrite ins_eq by lia | rewrite ins_ne by lia].

(** The frame that a call of [swtch] leaves below [s]: the registers and the
    return address. *)
Definition save_frame (s : Z) (r : regs) (ra : point) (f : Z -> word) : Z -> word :=
  <[s - 56 := r15 r]> (<[s - 48 := r14 r]> (<[s - 40 := r13 r]> (<[s - 32 := r12 r]>
    (<[s - 24 := rbx r]> (<[s - 16 := rbp r]> (<[s - 8 := P ra]> f)))))).

(** The registers in the frame at [a]. *)
Definition frame_regs (f : Z -> word) (a : Z) : regs :=
  Regs (f (a + 40)) (f (a + 32)) (f (a + 24)) (f (a + 16)) (f (a + 8)) (f a).

Lemma save_frame_out s r ra f x : x < s - 56 \/ s <= x -> save_frame s r ra f x = f x.
Proof. intros Hx. unfold save_frame. by mlook. Qed.

Lemma save_frame_regs s r ra f : frame_regs (save_frame s r ra f) (s - 56) = r.
Proof. unfold frame_regs, save_frame. mlook. by destruct r. Qed.

Lemma save_frame_ret s r ra f : save_frame s r ra f (s - 56 + 48) = P ra.
Proof. unfold save_frame. by mlook. Qed.

Lemma push_eq v f s p r x h cc cl o : push v (Mach f s p r x h cc cl o) = Mach (<[s - 8 := v]> f) (s - 8) p r x h cc cl o.
Proof. done. Qed.
Lemma pop_eq f s p r x h cc cl o : pop (Mach f s p r x h cc cl o) = (f s, Mach f (s + 8) p r x h cc cl o).
Proof. done. Qed.

(** A switch: the frame is saved, its place stored, and the registers, the
    stack and the place in the code are those of the other frame. *)
Lemma call_swtch_eq old new ra m :
  let m1 := store_ctx old (I (sp m - 56)) (set_mm (save_frame (sp m) (rg m) ra (mm m)) m) in
  call_swtch old (I new) ra m =
  match mm m1 (new + 48) with
  | P q => Some (set_pc q (set_sp (new + 56) (set_rg (frame_regs (mm m1) new) m1)))
  | I _ => None
  end.
Proof.
  destruct m as [f s p r x h cc cl o]. unfold call_swtch, swtch. rewrite push_eq. cbn [rg]. rewrite !push_eq.
  assert (E : forall a, s - 8 - 8 = s - 16 /\ s - 16 - 8 = s - 24 /\ s - 24 - 8 = s - 32 /\ s - 32 - 8 = s - 40 /\
    s - 40 - 8 = s - 48 /\ s - 48 - 8 = s - 56 /\ a + 8 + 8 = a + 16 /\ a + 16 + 8 = a + 24 /\ a + 24 + 8 = a + 32 /\
    a + 32 + 8 = a + 40 /\ a + 40 + 8 = a + 48 /\ a + 48 + 8 = a + 56) by (intros; lia).
  destruct (E new) as (-> & -> & -> & -> & -> & -> & E1 & E2 & E3 & E4 & E5 & E6).
  change (set_mm _ _) with (Mach (save_frame s r ra f) s p r x h cc cl o).
  destruct old; unfold store_ctx, store_word, set_host_context, set_mm, set_sp;
    cbn [mm sp pc rg rax host_context co_current co_list out];
    repeat (rewrite pop_eq; cbv beta iota); rewrite E1, E2, E3, E4, E5; unfold set_rg, retq;
    cbn [mm sp pc rg rax host_context co_current co_list out]; rewrite pop_eq, E6; unfold save_frame; reflexivity.
Qed.

Lemma call_swtch_run old new ra m m1 q :
  m1 = store_ctx old (I (sp m - 56)) (set_mm (save_frame (sp m) (rg m) ra (mm m)) m) ->
  mm m1 (new + 48) = P q ->
  call_swtch old (I new) ra m = Some (set_pc q (set_sp (new + 56) (set_rg (frame_regs (mm m1) new) m1))).
Proof. intros -> Hq. by rewrite call_swtch_eq, Hq. Qed.

(** ** One coroutine *)

Section One.
Variable prev0 : Z.
Variable user : nat -> nat -> regs -> regs.
Notation step := (step prev0 user).
Notation run := (run prev0 user).

Definition reaches (m m' : machine) : Prop := exists n, run n m = Some m'.

Lemma reaches_refl m : reaches m m.
Proof. by exists O. Qed.
Lemma reaches_step m m1 m2 : step m = Some m1 -> reaches m1 m2 -> reaches m m2.
Proof. intros E [n H]. exists (S n). simpl. by rewrite E. Qed.
Lemma reaches_trans m m1 m2 : reaches m m1 -> reaches m1 m2 -> reaches m m2.
Proof.
  intros [n H]. revert m H. induction n as [|n IH]; intros m H H2; simpl in H; [congruence|].
  destruct (step m) as [m'|] eqn:E; [|done]. eapply reaches_step; [exact E|]. by apply IH.
Qed.

(** The coroutine at [c] with its stack at [stk], and the host's stack pointer [h]. *)
Context (id k : nat) (c stk h : Z).
Notation p := (stk + 1000).
Record placed : Prop := {
  pl_page : 4096 <= c;
  pl_c_stk : c + 24 <= stk \/ stk + 8192 <= c;
  pl_c_h : c + 24 <= h - 72 \/ h <= c;
  pl_stk_h : stk + 8192 <= h - 72 \/ h <= stk;
}.
Hypothesis L : placed.

(** The coroutine is the one on the list, and waits after [j] yields. *)
Record suspended (j : nat) (m : machine) : Prop := {
  su_list : co_list m = c;
  su_next : mm m (c + 8) = I 0;
  su_ctx : mm m c = I (if (j =? 0)%nat then p else p - 8);
  su_top : mm m (p + 56) = P Exit;
  su_seg : mm m (p + 48) = P (Seg id k j);
  su_ret : (j =? 0)%nat = false -> mm m (p + 40) = P YieldRet;
}.

(** It runs, and the host waits in [co_run], which it called with stack pointer [s]
    and registers [r]; [f] is the memory then. *)
Record running (j : nat) (s : Z) (r : regs) (f : Z -> word) (m : machine) : Prop := {
  ru_pc : pc m = Seg id k j;
  ru_sp : sp m = p + 56;
  ru_host : host_context m = I (s - 56);
  ru_regs : frame_regs (mm m) (s - 56) = r;
  ru_ret : mm m (s - 56 + 48) = P RunRet;
  ru_mem : forall x, x < s - 56 \/ s <= x -> mm m x = f x;
  ru_current : co_current m = c;
  ru_list : co_list m = c;
}.

Lemma enter j s m :
  suspended j m -> pc m = Run -> sp m = s -> h - 16 <= s <= h ->
  exists m1, reaches m m1 /\ running j s (rg m) (mm m) m1 /\ out m1 = out m.
Proof.
  intros [S1 S2 S3 S4 S5 S6] Hpc Hsp Hs. destruct L as [L1 L2 L3 L4]. destruct m as [f s0 q r x hc cc cl o]. cbn in *. subst.
  assert (Hx : forall a, p - 8 <= a <= p + 56 -> save_frame s r RunRet f a = f a)
    by (intros a Ha; apply save_frame_out; lia).
  set (ctx := if (j =? 0)%nat then p else p - 8) in *.
  set (q := if (j =? 0)%nat then Seg id k j else YieldRet).
  set (m1 := Mach (save_frame s r RunRet f) s Run r x (I (s - 56)) c c o).
  assert (Er : step (Mach f s Run r x hc cc c o) =
    Some (set_pc q (set_sp (ctx + 56) (set_rg (frame_regs (save_frame s r RunRet f) ctx) m1)))).
  { unfold Coroutine.step. cbn [pc]. unfold co_run. cbn [co_list]. rewrite (proj2 (Z.eqb_neq _ _)) by lia.
    unfold set_co_current. cbn [mm sp pc rg rax host_context co_current co_list out]. unfold deref, context_at.
    rewrite (proj2 (Z.ltb_ge _ _)) by lia. cbn [mm]. rewrite S3.
    rewrite (call_swtch_run HostCtx ctx RunRet _ m1 q); [done|done|]. cbn [mm m1]. rewrite Hx by (unfold ctx; case_match; lia).
    unfold ctx, q. destruct (Nat.eqb_spec j 0) as [->|Hj]; [exact S5|]. replace (p - 8 + 48) with (p + 40) by lia. by apply S6. }
  unfold ctx, q in Er. destruct (Nat.eqb_spec j 0) as [->|Hj].
  - eexists. split; [eapply reaches_step; [exact Er|apply reaches_refl]|]. split; [|done]. split; cbn; try done.
    + apply save_frame_regs.
    + apply save_frame_ret.
    + apply save_frame_out.
  - eexists. split.
    { eapply reaches_step; [exact Er|]. eapply reaches_step; [|apply reaches_refl].
      unfold Coroutine.step, retq, pop. cbn. replace (p - 8 + 56) with (p + 48) by lia. rewrite Hx, S5 by lia. reflexivity. }
    split; [|done]. split; cbn; try done.
    + lia.
    + apply save_frame_regs.
    + apply save_frame_ret.
    + apply save_frame_out.
Qed.

(** What leaving a coroutine keeps: the host's memory, apart from its free stack. *)
Definition kept (s : Z) (f f' : Z -> word) : Prop :=
  forall x, s <= x < h -> f' x = f x.

Lemma frame_regs_ext f g a : (forall x, a <= x < a + 48 -> f x = g x) -> frame_regs f a = frame_regs g a.
Proof. intros H. unfold frame_regs. by rewrite !H by lia. Qed.

Lemma leave_yield j s r f m :
  running j s r f m -> f (c + 8) = I 0 -> f (p + 56) = P Exit -> (j < k)%nat -> h - 16 <= s <= h ->
  exists m', reaches m m' /\ pc m' = RunRet /\ sp m' = s /\ rg m' = r /\ suspended (S j) m' /\
    kept s f (mm m') /\ out m' = out m ++ [Ran id j].
Proof.
  intros [R1 R2 R3 R4 R5 R6 R7 R8] Hn Ht Hj Hs. destruct L as [L1 L2 L3 L4].
  destruct m as [g s0 q r0 x hc cc cl o]. cbn in *. subst.
  set (r1 := user id j r0). set (g1 := <[p + 48 := P (Seg id k (S j))]> g).
  set (g2 := <[c := I (p - 8)]> (save_frame (p + 48) r1 YieldRet g1)).
  assert (E1 : step (Mach g (p + 56) (Seg id k j) r0 x (I (s - 56)) c c o) =
    Some (Mach g1 (p + 48) Yield r1 x (I (s - 56)) c c (o ++ [Ran id j]))).
  { unfold Coroutine.step. cbn [pc]. rewrite (proj2 (Nat.ltb_lt _ _)) by done.
    unfold set_rg, emit. cbn [mm sp pc rg rax host_context co_current co_list out]. rewrite push_eq.
    replace (p + 56 - 8) with (p + 48) by lia. done. }
  assert (Hout : forall a, s - 56 <= a < s -> g2 a = g a).
  { intros a Ha. unfold g2, g1. rewrite ins_ne, save_frame_out, ins_ne by lia. done. }
  assert (E2 : step (Mach g1 (p + 48) Yield r1 x (I (s - 56)) c c (o ++ [Ran id j])) =
    Some (Mach g2 (s - 56 + 56) RunRet (frame_regs g2 (s - 56)) x (I (s - 56)) 0 c (o ++ [Ran id j]))).
  { unfold Coroutine.step. cbn [pc]. unfold co_yield, next_of, deref, next_at, context_at. cbn [co_current mm].
    rewrite (proj2 (Z.ltb_ge _ _)) by lia. unfold g1 at 1. rewrite ins_ne, R6, Hn by lia. cbn [Z.eqb host_context].
    unfold set_co_current. cbn [mm sp pc rg rax host_context co_current co_list out].
    rewrite (call_swtch_run (CtxOf c) (s - 56) YieldRet _ (Mach g2 (p + 48) Yield r1 x (I (s - 56)) 0 c (o ++ [Ran id j])) RunRet);
      [done| |cbn; by rewrite Hout by lia].
    unfold store_ctx, store_word, set_mm. cbn [mm sp pc rg rax host_context co_current co_list out].
    replace (p + 48 - 56) with (p - 8) by lia. done. }
  eexists. split; [eapply reaches_step; [exact E1|]; eapply reaches_step; [exact E2|apply reaches_refl]|].
  cbn [mm sp pc rg rax host_context co_current co_list out]. split; [done|]. split; [lia|].
  split; [apply frame_regs_ext; intros; apply Hout; lia|]. split; [|split; [|done]].
  - split; cbn [mm sp pc rg rax host_context co_current co_list out]; unfold g2, g1.
    + done.
    + rewrite ins_ne, save_frame_out, ins_ne, R6 by lia. exact Hn.
    + by rewrite ins_eq.
    + rewrite ins_ne, save_frame_out, ins_ne, R6 by lia. exact Ht.
    + rewrite ins_ne, save_frame_out, ins_eq by lia. done.
    + intros _. rewrite ins_ne by lia. unfold save_frame. by mlook.
  - intros a Ha. unfold g2, g1. rewrite ins_ne, save_frame_out, ins_ne by lia. apply R6. lia.
Qed.

Lemma leave_exit j s r f m :
  running j s r f m -> f (c + 8) = I 0 -> f (p + 56) = P Exit -> (k <= j)%nat -> h - 16 <= s <= h ->
  exists m', reaches m m' /\ pc m' = RunRet /\ sp m' = s /\ rg m' = r /\ co_list m' = 0 /\
    kept s f (mm m') /\ mm m' (c + 8) = I 0 /\ out m' = out m ++ [Ran id j].
Proof.
  intros [R1 R2 R3 R4 R5 R6 R7 R8] Hn Ht Hj Hs. destruct L as [L1 L2 L3 L4].
  destruct m as [g s0 q r0 x hc cc cl o]. cbn in *. subst.
  set (r1 := user id j r0). set (g2 := <[c := I (p + 8)]> (save_frame (p + 64) r1 (ExitNext c prev0) g)).
  assert (E1 : step (Mach g (p + 56) (Seg id k j) r0 x (I (s - 56)) c c o) =
    Some (Mach g (p + 56 + 8) Exit r1 x (I (s - 56)) c c (o ++ [Ran id j]))).
  { unfold Coroutine.step. cbn [pc]. rewrite (proj2 (Nat.ltb_ge _ _)) by done.
    unfold set_rg, emit, retq. cbn [mm sp pc rg rax host_context co_current co_list out]. rewrite pop_eq.
    rewrite R6, Ht by lia. done. }
  assert (E2 : step (Mach g (p + 56 + 8) Exit r1 x (I (s - 56)) c c (o ++ [Ran id j])) =
    Some (Mach g (p + 56 + 8) (ExitLoop c prev0) r1 x (I (s - 56)) c c (o ++ [Ran id j]))).
  { unfold Coroutine.step. cbn [pc co_current]. rewrite (proj2 (Z.eqb_neq _ _)) by lia. done. }
  assert (Hout : forall a, s - 56 <= a < s -> g2 a = g a).
  { intros a Ha. unfold g2. rewrite ins_ne, save_frame_out by lia. done. }
  assert (E3 : step (Mach g (p + 56 + 8) (ExitLoop c prev0) r1 x (I (s - 56)) c c (o ++ [Ran id j])) =
    Some (Mach g2 (s - 56 + 56) RunRet (frame_regs g2 (s - 56)) x (I (s - 56)) c 0 (o ++ [Ran id j]))).
  { unfold Coroutine.step. cbn [pc]. unfold co_exit_loop. cbn [co_current]. rewrite Z.eqb_refl, (proj2 (Z.eqb_neq _ _)) by lia.
    unfold next_of, deref, next_at, context_at. cbn [mm]. rewrite (proj2 (Z.ltb_ge _ _)) by lia.
    rewrite R6, Hn by lia. cbn [Z.eqb host_context]. unfold set_co_list. cbn [mm sp pc rg rax host_context co_current co_list out].
    replace (p + 56 + 8) with (p + 64) by lia.
    rewrite (call_swtch_run (CtxOf c) (s - 56) (ExitNext c prev0) _
      (Mach g2 (p + 64) (ExitLoop c prev0) r1 x (I (s - 56)) c 0 (o ++ [Ran id j])) RunRet);
      [done| |cbn; by rewrite Hout by lia].
    unfold store_ctx, store_word, set_mm. cbn [mm sp pc rg rax host_context co_current co_list out].
    replace (p + 64 - 56) with (p + 8) by lia. done. }
  eexists. split; [do 3 (eapply reaches_step; [eassumption|]); apply reaches_refl|].
  cbn [mm sp pc rg rax host_context co_current co_list out]. split; [done|]. split; [lia|].
  split; [apply frame_regs_ext; intros; apply Hout; lia|]. split; [done|]. split; [|split; [|done]].
  - intros a Ha. unfold g2. rewrite ins_ne, save_frame_out by lia. apply R6. lia.
  - unfold g2. rewrite ins_ne, save_frame_out, R6 by lia. exact Hn.
Qed.
Lemma suspended_ext j m m' :
  suspended j m -> co_list m' = co_list m ->
  (forall x, c <= x < c + 24 \/ stk <= x < stk + 8192 -> mm m' x = mm m x) -> suspended j m'.
Proof.
  intros [S1 S2 S3 S4 S5 S6] El Ex. split; [congruence|rewrite Ex by lia; done..|].
  intros Hj. rewrite Ex by lia. by apply S6.
Qed.

(** [co_run] from a point with stack pointer [s] runs the coroutine up to its next
    yield or to its end, and comes back. *)
Lemma co_run_once j s m :
  suspended j m -> pc m = Run -> sp m = s -> h - 16 <= s <= h -> (j <= k)%nat ->
  exists m', reaches m m' /\ pc m' = RunRet /\ sp m' = s /\ rg m' = rg m /\
    kept s (mm m) (mm m') /\ mm m' (c + 8) = I 0 /\ out m' = out m ++ [Ran id j] /\
    if (j <? k)%nat then suspended (S j) m' else co_list m' = 0.
Proof.
  intros S Hpc Hsp Hs Hj. destruct (enter j s m S Hpc Hsp Hs) as (m1 & H1 & R & Eo).
  destruct (Nat.ltb_spec j k).
  - destruct (leave_yield j s _ _ m1 R) as (m' & H2 & E1 & E2 & E3 & S' & K & E4); try done; try apply S.
    exists m'. split; [by eapply reaches_trans|]. rewrite E4, Eo. do 4 (split; [done|]). split; [apply S'|done].
  - destruct (leave_exit j s _ _ m1 R) as (m' & H2 & E1 & E2 & E3 & E5 & K & E6 & E4); try done; try apply S.
    exists m'. split; [by eapply reaches_trans|]. by rewrite E4, Eo.
Qed.

(** A call of the host returns to it. *)
Lemma host_returns l v m :
  sp m = h - 8 -> mm m (h - 8) = P (HostRet l) ->
  exists m1 m', return_val v m = Some m1 /\ reaches m1 m' /\ pc m' = Host l /\ sp m' = h /\ rg m' = rg m /\
    out m' = out m ++ [Returned v] /\ mm m' = mm m /\ co_list m' = co_list m.
Proof.
  intros Es Em. destruct m as [f s q r x hc cc cl o].
  cbn [mm sp pc rg rax host_context co_current co_list out] in *. subst s.
  eexists (Mach f (h - 8 + 8) (HostRet l) r v hc cc cl o), (Mach f (h - 8 + 8) (Host l) r v hc cc cl (o ++ [Returned v])).
  split; [|split].
  - unfold return_val, retq, set_rax. cbn [mm sp pc rg rax host_context co_current co_list out]. rewrite pop_eq, Em. done.
  - by eapply reaches_step; [reflexivity|apply reaches_refl].
  - cbn. repeat split. lia.
Qed.

Lemma host_run j l m :
  suspended j m -> pc m = Host (CRun :: l) -> sp m = h -> (j <= k)%nat ->
  exists m', reaches m m' /\ pc m' = Host l /\ sp m' = h /\ rg m' = rg m /\
    out m' = out m ++ [Ran id j; Returned 1] /\ if (j <? k)%nat then suspended (S j) m' else co_list m' = 0.
Proof.
  intros S Hpc Hsp Hj. destruct L as [L1 L2 L3 L4].
  set (m0 := set_pc Run (push (P (HostRet l)) m)).
  assert (E0 : step m = Some m0) by (unfold Coroutine.step; rewrite Hpc; done).
  assert (S0 : suspended j m0).
  { apply (suspended_ext j m); [done|done|]. intros x Hx. cbn. rewrite Hsp. rewrite ins_ne by lia. done. }
  destruct (co_run_once j (h - 8) m0 S0) as (m1 & H1 & E1 & E2 & E3 & K & _ & E4 & S1); [done|cbn; lia|lia|done|].
  destruct (host_returns l 1 m1 E2) as (m2 & m' & E5 & H2 & P1 & P2 & P3 & P4 & P5 & P6).
  { rewrite K by lia. cbn. rewrite Hsp. by rewrite ins_eq. }
  exists m'. split; [|split; [done|split; [done|split]]].
  - eapply reaches_step; [exact E0|]. eapply reaches_trans; [exact H1|].
    eapply reaches_step; [|exact H2]. unfold Coroutine.step. by rewrite E1.
  - rewrite P3, E3. done.
  - split; [rewrite P4, E4; cbn; by rewrite <-app_assoc|]. destruct (j <? k)%nat; [|congruence].
    by apply (suspended_ext _ m1); [done|done|intros; by rewrite P5].
Qed.

(** Runs from the [j]th on, until the list is empty. *)
Lemma host_runs n : forall j l m,
  suspended j m -> pc m = Host (replicate (S n) CRun ++ l) -> sp m = h -> (j + n = k)%nat ->
  exists m', reaches m m' /\ pc m' = Host l /\ sp m' = h /\ rg m' = rg m /\ co_list m' = 0 /\
    out m' = out m ++ flat_map (fun i => [Ran id i; Returned 1]) (seq j (S n)).
Proof.
  induction n as [|n IH]; intros j l m S Hpc Hsp Hj;
    (destruct (host_run j _ m S Hpc Hsp) as (m1 & H1 & E1 & E2 & E3 & E4 & S1); [lia|]).
  - rewrite (proj2 (Nat.ltb_ge j k)) in S1 by lia. exists m1. rewrite E4. done.
  - rewrite (proj2 (Nat.ltb_lt j k)) in S1 by lia.
    destruct (IH (Datatypes.S j) l m1 S1 E1 E2) as (m2 & H2 & F1 & F2 & F3 & F4 & F5); [lia|].
    exists m2. split; [by eapply reaches_trans|]. do 2 (split; [done|]). split; [congruence|]. split; [done|].
    rewrite F5, E4. cbn [seq flat_map]. by rewrite <-app_assoc.
Qed.

(** With an empty list, [co_run] returns 0. *)
Lemma host_run_none l m :
  co_list m = 0 -> pc m = Host (CRun :: l) -> sp m = h ->
  exists m', reaches m m' /\ pc m' = Host l /\ sp m' = h /\ rg m' = rg m /\ co_list m' = 0 /\
    out m' = out m ++ [Returned 0].
Proof.
  intros El Hpc Hsp. set (m0 := set_pc Run (push (P (HostRet l)) m)).
  assert (E0 : step m = Some m0) by (unfold Coroutine.step; rewrite Hpc; done).
  destruct (host_returns l 0 m0) as (m2 & m' & E5 & H2 & P1 & P2 & P3 & P4 & P5 & P6).
  { cbn. lia. }
  { cbn. rewrite Hsp. by rewrite ins_eq. }
  exists m'. split; [|split; [done|split; [done|split; [done|split]]]].
  - eapply reaches_step; [exact E0|]. eapply reaches_step; [|exact H2].
    unfold Coroutine.step. cbn [pc m0 set_pc]. unfold co_run. cbn. by rewrite El.
  - rewrite P6. exact El.
  - by rewrite P4.
Qed.

(** [co_new] on an empty list. *)
Lemma host_new l m :
  co_list m = 0 -> pc m = Host (CNew c stk id k :: l) -> sp m = h -> 0 < stk -> mm m (c + 8) = I 0 ->
  exists m', reaches m m' /\ pc m' = Host l /\ sp m' = h /\ rg m' = rg m /\ suspended 0 m' /\
    out m' = out m ++ [Returned c].
Proof.
  intros El Hpc Hsp Hstk Hn. destruct L as [L1 L2 L3 L4]. destruct m as [f s q r x hc cc cl o].
  cbn [mm sp pc rg rax host_context co_current co_list out] in *. subst s q cl.
  set (f1 := <[c := I p]> (<[p + 8 * 7 := P Exit]> (<[p + 8 * 6 := P (Seg id k 0)]>
    (<[c + 16 := I stk]> (<[h - 8 := P (HostRet l)]> f))))).
  set (m1 := Mach f1 (h - 8) (Host (CNew c stk id k :: l)) r x hc cc c o).
  destruct (host_returns l c m1) as (m2 & m' & E5 & H2 & P1 & P2 & P3 & P4 & P5 & P6).
  { done. }
  { unfold m1, f1. cbn. by mlook. }
  exists m'. split; [|split; [done|split; [done|split; [by rewrite P3|split; [|by rewrite P4]]]]].
  - eapply reaches_step; [|exact H2]. rewrite <-E5. unfold Coroutine.step. cbn [pc]. unfold co_new. rewrite push_eq.
    rewrite (proj2 (Z.eqb_neq c 0)), (proj2 (Z.eqb_neq stk 0)) by lia. done.
  - apply (suspended_ext 0 m1); [|done|intros; by rewrite P5]. unfold m1, f1.
    split; cbn [mm sp pc rg rax host_context co_current co_list out Nat.eqb]; try done; by mlook.
Qed.
End One.

(** ** Lists of coroutines *)

(** The coroutines on the list from [a] on. *)
Fixpoint chain (f : Z -> word) (a : Z) (l : list Z) : Prop :=
  match l with
  | [] => a = 0
  | x :: l => a = x /\ 4096 <= x /\ exists n, f (x + 8) = I n /\ chain f n l
  end.

Lemma chain_ext f g l : forall a, (forall x, x ∈ l -> g (x + 8) = f (x + 8)) -> chain f a l -> chain g a l.
Proof.
  induction l as [|x l IH]; intros a Hx; [done|]. intros (-> & Hp & n & En & Hc). split; [done|]. split; [done|].
  exists n. rewrite Hx by left. split; [done|]. apply IH; [|done]. intros y Hy. apply Hx. by right.
Qed.

Section Lists.
Variable prev0 : Z.
Variable user : nat -> nat -> regs -> regs.

(** The walk of [co_new] ends at the last coroutine. *)
Lemma co_new_walks c l : forall a m,
  a <> 0 -> chain (mm m) a l -> pc m = NewLoop c a ->
  exists m', reaches prev0 user m m' /\ (exists x, pc m' = NewLoop c x /\ next_of x m' = Some 0) /\
    mm m' = mm m /\ sp m' = sp m /\ rg m' = rg m /\ co_list m' = co_list m /\ out m' = out m.
Proof.
  induction l as [|x l IH]; intros a m Ha; [done|]. intros (-> & Hp & n & En & Hc) Hpc.
  assert (Hnx : next_of x m = Some n).
  { unfold next_of, deref, next_at. rewrite (proj2 (Z.ltb_ge _ _)) by lia. by rewrite En. }
  destruct (decide (n = 0)) as [->|Hn].
  - exists m. split; [apply reaches_refl|]. split; [by exists x|done].
  - destruct (IH n (set_pc (NewLoop c n) m) Hn Hc eq_refl) as (m' & H & Hx & E).
    exists m'. split; [|done]. eapply reaches_step; [|exact H].
    unfold step. rewrite Hpc. unfold co_new_loop. by rewrite Hnx, (proj2 (Z.eqb_neq _ _) Hn).
Qed.
End Lists.

(** ** The memory of a coroutine *)

(** In any history of the heap, [co_new] gets no memory, with the program's blocks as
    they were, or a record and a stack that do not overlap; and then
    [co_destroy] gives both back. *)
Lemma co_memory base start grow h A fuel :
  0 < base < start -> (forall b n, grow b n = true -> b + n <= LIMIT) -> um_ok base start (h, A) ->
  (4 * length A + 20 <= fuel)%nat ->
  exists c stk h', co_alloc base grow fuel h = Ok ((c, stk), h') /\
    ((c = 0 /\ stk = 0 /\ um_ok base start (h', A)) \/
     (start < c /\ start < stk /\ (c + 24 <= stk \/ stk + 8192 <= c) /\
      exists h2, co_destroy fuel c stk h' = Ok (tt, h2) /\ um_ok base start (h2, A))).
Proof.
  intros Hb Hg (bl & Hr & Hp) Hf. cbn [fst snd] in *.
  destruct (malloc_spec base start grow Hb Hg h bl 24 fuel Hr) as (r & h1 & bl1 & E1 & I1 & _ & Hres); [lia|rewrite Hp; lia|].
  unfold co_alloc. rewrite (bind_Ok _ _ _ _ _ E1). destruct Hres as [[-> Ea]|(x & -> & Ex & Ea)].
  { exists 0, 0, h1. split; [done|]. left. do 2 (split; [done|]). exists bl1. split; [by left|]. cbn. by rewrite Ea. }
  assert (Hp1 : allocs bl1 ≡ₚ x :: A) by (by rewrite Ea, Hp).
  assert (Hx : start <= b_at x).
  { destruct (allocs_disjoint start bl1 (x :: A) _ (hi_tiled _ _ _ _ I1) Hp1) as (_ & Hin & _).
    apply (Hin x), list_elem_of_here. }
  rewrite (proj2 (Z.eqb_neq _ _)) by (unfold HDR; lia).
  destruct (malloc_spec base start grow Hb Hg h1 bl1 8192 fuel (or_introl I1)) as (r & h2 & bl2 & E2 & I2 & _ & Hres);
    [lia|rewrite Hp1; simpl; lia|].
  rewrite (bind_Ok _ _ _ _ _ E2). destruct Hres as [[-> Ea2]|(y & -> & Ey & Ea2)].
  { destruct (free_ok base start Hb h2 bl2 [] x A fuel (or_introl I2)) as (h3 & bl3 & E3 & I3 & Hp3 & _).
    - by rewrite Ea2, Hp1.
    - simpl. lia.
    - exists 0, 0, h3. cbn [Z.eqb]. rewrite (bind_Ok _ _ _ _ _ E3). split; [done|]. left. do 2 (split; [done|]).
      exists bl3. split; [by left|done]. }
  assert (Hp2 : allocs bl2 ≡ₚ y :: x :: A) by (by rewrite Ea2, Hp1).
  destruct (allocs_disjoint start bl2 (y :: x :: A) _ (hi_tiled _ _ _ _ I2) Hp2) as (Nd & Hin & Hdis).
  destruct (Hin y) as [Hy _]; [apply list_elem_of_here|].
  assert (Hne : y <> x) by (intros ->; apply NoDup_cons in Nd as [N _]; apply N, list_elem_of_here).
  destruct (free_ok base start Hb h2 bl2 [] y (x :: A) fuel (or_introl I2) Hp2) as (h3 & bl3 & E3 & I3 & Hp3 & _); [simpl; lia|].
  destruct (free_ok base start Hb h3 bl3 [] x A fuel (or_introl I3) Hp3) as (h4 & bl4 & E4 & I4 & Hp4 & _); [simpl; lia|].
  exists (b_at x + HDR), (b_at y + HDR), h2. rewrite (proj2 (Z.eqb_neq _ _)) by (unfold HDR; lia).
  split; [done|]. right. unfold HDR in *. split; [lia|]. split; [lia|]. split.
  - assert (Hd : b_end x <= b_at y \/ b_end y <= b_at x).
    { destruct (Hdis x y) as [->|[?|?]]; [by right; left|by left|done|by left|by right]. }
    unfold b_end, HDR in Hd. rewrite Ex, Ey in Hd. change (units 24) with 3 in Hd. change (units 8192) with 513 in Hd. lia.
  - exists h4. split; [|exists bl4; split; [by left|done]]. unfold co_destroy.
    rewrite !(proj2 (Z.eqb_neq _ _)) by lia. by rewrite (bind_Ok _ _ _ _ _ E3).
Qed.


(** [swtch] saves and restores.  After a switch away from [m], whatever runs
    next, as long as the frame that the switch left is not written, a switch to that
    frame continues where the first one was called, with the callee-saved registers
    and the stack pointer as they were. *)
Theorem swtch_roundtrip old new ra (m m1 : machine) old2 ra2 (m2 : machine) :
  let frame x := sp m - 56 <= x < sp m in
  call_swtch old (I new) ra m = Some m1 ->
  (forall c, old = CtxOf c -> ~ frame c) ->
  (forall x, frame x -> mm m2 x = mm m1 x) ->
  sp m2 <= sp m - 56 \/ sp m <= sp m2 - 56 ->
  (forall c, old2 = CtxOf c -> ~ frame c) ->
  exists m3, call_swtch old2 (I (sp m - 56)) ra2 m2 = Some m3 /\ pc m3 = ra /\ sp m3 = sp m /\ rg m3 = rg m.
Proof.
  intros frame E1 Ho Hf Hs Ho2.
  set (n1 := store_ctx old (I (sp m - 56)) (set_mm (save_frame (sp m) (rg m) ra (mm m)) m)).
  assert (Em : mm m1 = mm n1).
  { rewrite call_swtch_eq in E1. fold n1 in E1. destruct (mm n1 (new + 48)); [done|]. by injection E1 as <-. }
  assert (F1 : forall x, frame x -> mm m2 x = save_frame (sp m) (rg m) ra (mm m) x).
  { intros x Hx. rewrite Hf, Em by done. unfold n1. destruct old as [|c]; [done|]. cbn.
    rewrite ins_ne; [done|]. intros ->. by apply (Ho x). }
  set (n2 := store_ctx old2 (I (sp m2 - 56)) (set_mm (save_frame (sp m2) (rg m2) ra2 (mm m2)) m2)).
  assert (F2 : forall x, frame x -> mm n2 x = save_frame (sp m) (rg m) ra (mm m) x).
  { intros x Hx. rewrite <-F1 by done. unfold n2, frame in *. destruct old2 as [|c]; cbn.
    - apply save_frame_out. lia.
    - rewrite ins_ne by (intros ->; by apply (Ho2 x)). apply save_frame_out. lia. }
  eexists. split; [apply (call_swtch_run old2 (sp m - 56) ra2 m2 n2 ra eq_refl)|].
  { rewrite F2 by (unfold frame; lia). apply save_frame_ret. }
  cbn. split; [done|]. split; [lia|]. rewrite <-(save_frame_regs (sp m) (rg m) ra (mm m)).
  apply frame_regs_ext. intros x Hx. apply F2. unfold frame. lia.
Qed.

(** [co_new] does not append.  With a coroutine on the list, it returns the new one
    with the list as it was, and the new one is not on it: the assignment after the
    walk changes a local variable. *)
Theorem co_new_loses_coroutine prev0 user (id k : nat) (c stk a : Z) (l : list Z) (rest : list call) (m : machine) :
  0 < c -> 0 < stk -> chain (mm m) (co_list m) (a :: l) -> c ∉ a :: l ->
  (forall x, x ∈ a :: l -> x + 8 <> c /\ x + 8 <> c + 16 /\ x + 8 <> stk + 1048 /\ x + 8 <> stk + 1056 /\ x + 8 <> sp m - 8) ->
  sp m - 8 <> c -> sp m - 8 <> c + 16 -> sp m - 8 <> stk + 1048 -> sp m - 8 <> stk + 1056 ->
  pc m = Host (CNew c stk id k :: rest) ->
  exists m', reaches prev0 user m m' /\ pc m' = Host rest /\ out m' = out m ++ [Returned c] /\
    co_list m' = co_list m /\ chain (mm m') (co_list m') (a :: l) /\ c ∉ a :: l.
Proof.
  intros Hc0 Hstk Hch Hnin Hap N1 N2 N3 N4 Hpc. destruct m as [f s q r x hc cc cl o].
  cbn [mm sp pc rg rax host_context co_current co_list out] in *. subst q.
  assert (Hcl : cl <> 0) by (destruct Hch as (-> & ? & _); lia).
  set (f1 := <[c := I (stk + 1000)]> (<[stk + 1000 + 8 * 7 := P Exit]> (<[stk + 1000 + 8 * 6 := P (Seg id k 0)]>
    (<[c + 16 := I stk]> (<[s - 8 := P (HostRet rest)]> f))))).
  set (m1 := Mach f1 (s - 8) (NewLoop c cl) r x hc cc cl o).
  assert (Hch1 : chain f1 cl (a :: l)).
  { eapply chain_ext; [|exact Hch]. intros y Hy. destruct (Hap y Hy) as (? & ? & ? & ? & ?). unfold f1. by mlook. }
  destruct (co_new_walks prev0 user c (a :: l) cl m1 Hcl Hch1 eq_refl) as (m2 & H2 & (y & E1 & E2) & F1 & F2 & F3 & F4 & F5).
  destruct (host_returns prev0 user s rest c m2 F2) as (m3 & m' & E5 & H3 & P1 & P2 & P3 & P4 & P5 & P6).
  { rewrite F1. unfold m1, f1. cbn. by mlook. }
  exists m'. split; [|split; [done|split; [by rewrite P4, F5|split; [by rewrite P6, F4|split; [|done]]]]].
  - eapply reaches_step; [|eapply reaches_trans; [exact H2|eapply reaches_step; [|exact H3]]].
    + unfold step. cbn [pc]. unfold co_new. rewrite push_eq.
      rewrite (proj2 (Z.eqb_neq c 0)), (proj2 (Z.eqb_neq stk 0)) by lia. cbn [co_list store_word set_mm].
      by rewrite (proj2 (Z.eqb_neq _ _) Hcl).
    + unfold step. rewrite E1. unfold co_new_loop. rewrite E2. exact E5.
  - rewrite P5, P6, F1, F4. exact Hch1.
Qed.

(** [co_run_all] does not run until there are no live coroutines.  On a coroutine
    that yields, it returns 1 after the first part, and the coroutine is still on the
    list with the rest to do. *)
Theorem co_run_all_stops_early prev0 user (id k : nat) (c stk : Z) (m : machine) :
  placed c stk (sp m) -> 0 < stk -> co_list m = 0 -> mm m (c + 8) = I 0 -> (0 < k)%nat ->
  pc m = Host [CNew c stk id k; CRunAll] ->
  exists m', reaches prev0 user m m' /\ pc m' = Host [] /\
    out m' = out m ++ [Returned c; Ran id 0; Returned 1] /\ suspended id k c stk 1 m'.
Proof.
  intros L Hstk El Hn Hk Hpc. set (h := sp m) in *.
  destruct (host_new prev0 user id k c stk h L _ m El Hpc eq_refl Hstk Hn) as (m1 & H1 & A1 & A2 & A3 & S1 & A4).
  pose proof L as [L1 L2 L3 L4].
  set (m2 := set_pc Run (push (P (AllNext c)) (push (P (HostRet [])) m1))).
  assert (H12 : reaches prev0 user m1 m2).
  { eapply reaches_step; [unfold step; rewrite A1; reflexivity|].
    eapply reaches_step; [unfold step; cbn; rewrite (su_list _ _ _ _ _ _ S1), (proj2 (Z.eqb_neq c 0)) by lia; reflexivity|].
    eapply reaches_step; [unfold step; cbn; rewrite (proj2 (Z.eqb_neq c 0)) by lia; reflexivity|apply reaches_refl]. }
  assert (S2 : suspended id k c stk 0 m2).
  { apply (suspended_ext id k c stk 0 m1); [done|done|]. intros x Hx. cbn. rewrite A2. by mlook. }
  destruct (co_run_once prev0 user id k c stk h L 0 (h - 16) m2 S2) as (m3 & H3 & B1 & B2 & B3 & K & Bn & B4 & S3);
    [done|cbn; lia|lia|lia|]. rewrite (proj2 (Nat.ltb_lt 0 k) Hk) in S3.
  assert (K1 : mm m3 (h - 16) = P (AllNext c)) by (rewrite K by lia; cbn; rewrite A2; by mlook).
  assert (K2 : mm m3 (h - 8) = P (HostRet [])) by (rewrite K by lia; cbn; rewrite A2; by mlook).
  set (m4 := set_pc (AllLoop 0) (set_sp (h - 8) (set_rax 1 m3))).
  assert (H34 : reaches prev0 user m3 m4).
  { eapply reaches_step; [unfold step; rewrite B1; unfold return_val, retq, pop; cbn; rewrite B2, K1; reflexivity|].
    eapply reaches_step; [|apply reaches_refl]. unfold step. cbn [pc set_pc]. unfold next_of, deref, next_at. cbn.
    rewrite (proj2 (Z.ltb_ge _ _)) by lia. rewrite Bn. unfold m4, set_pc, set_sp. cbn. by replace (h - 16 + 8) with (h - 8) by lia. }
  destruct (host_returns prev0 user h [] 1 m4 eq_refl K2) as (m5 & m' & E5 & H5 & P1 & P2 & P3 & P4 & P5 & P6).
  exists m'. split; [|split; [done|split]].
  - do 3 (eapply reaches_trans; [eassumption|]). eapply reaches_trans; [exact H34|]. eapply reaches_step; [|exact H5].
    unfold step. cbn [pc m4 set_pc]. exact E5.
  - rewrite P4. cbn. rewrite B4. cbn. rewrite A4. by rewrite <-!app_assoc.
  - apply (suspended_ext id k c stk 1 m3); [done|by rewrite P6|]. intros x _. by rewrite P5.
Qed.

(** A call of [co_yield] outside a coroutine follows a null pointer. *)
Lemma co_yield_from_host_faults prev0 user l m :
  pc m = Host (CYield :: l) -> co_current m = 0 -> run prev0 user 2 m = None.
Proof.
  intros Hpc Hc. cbn [run]. unfold step at 1. rewrite Hpc. unfold step. cbn [pc set_pc call_point].
  unfold co_yield, next_of, deref, next_at. cbn. by rewrite Hc.
Qed.

(** ** Witnesses *)

Definition regs0 : regs := Regs (I 1) (I 2) (I 3) (I 4) (I 5) (I 6).
Definition clobber (id j : nat) (r : regs) : regs := Regs (I 0) (I 0) (I 0) (I 0) (I 0) (I (Z.of_nat j)).
Definition boot_co (l : list call) : machine := Mach (fun _ => I 0) 65536 (Host l) regs0 0 (I 0) 0 0 [].


Lemma co_run_all_stops_early_witness :
  exists m', reaches 0 clobber (boot_co [CNew 8192 16384 7 2; CRunAll]) m' /\ pc m' = Host [] /\
    out m' = [Returned 8192; Ran 7 0; Returned 1] /\ suspended 7 2 8192 16384 1 m'.
Proof.
  apply (co_run_all_stops_early 0 clobber 7 2 8192 16384 (boot_co [CNew 8192 16384 7 2; CRunAll])).
  - split; vm_compute; (left; congruence) || congruence.
  - reflexivity.
  - reflexivity.
  - reflexivity.
  - lia.
  - reflexivity.
Defined.

(** A machine with the coroutine 8192 on its list. *)
Definition one_co : machine :=
  Mach (fun _ => I 0) 65536 (Host [CNew 32768 40960 8 0; CRun; CRun]) regs0 0 (I 0) 0 8192 [].

Lemma co_new_loses_coroutine_witness :
  exists m', reaches 0 clobber one_co m' /\ pc m' = Host [CRun; CRun] /\ out m' = [Returned 32768] /\
    co_list m' = 8192 /\ chain (mm m') (co_list m') [8192] /\ 32768 ∉ [8192].
Proof.
  apply (co_new_loses_coroutine 0 clobber 8 0 32768 40960 8192 [] [CRun; CRun] one_co); cbn; try lia.
  - split; [reflexivity|]. split; [lia|]. exists 0. split; reflexivity.
  - set_solver.
  - intros x ->%list_elem_of_singleton. lia.
  - reflexivity.
Defined.

(** From the host's stack to a new coroutine and back. *)
Lemma swtch_roundtrip_witness :
  let m := boot_co [] in
  let f := <[17384 + 48 := P (Seg 7 2 0)]> (fun _ => I 0) in
  let m1 := set_mm f m in
  exists m2 m3, call_swtch HostCtx (I 17384) RunRet m1 = Some m2 /\
    call_swtch (CtxOf 8192) (I (65536 - 56)) YieldRet m2 = Some m3 /\ pc m3 = RunRet /\ sp m3 = 65536 /\ rg m3 = regs0.
Proof.
  intros m f m1.
  destruct (call_swtch HostCtx (I 17384) RunRet m1) as [m2|] eqn:E; [|vm_compute in E; discriminate E].
  exists m2. destruct (swtch_roundtrip HostCtx 17384 RunRet m1 m2 (CtxOf 8192) YieldRet m2 E) as (m3 & H).
  - intros c H. discriminate H.
  - intros x _. reflexivity.
  - left. vm_compute in E. injection E as <-. vm_compute. congruence.
  - intros c [= <-] [H _]. vm_compute in H. congruence.
  - exists m3. split; [reflexivity|exact H].
Defined.
