(* ===== verification/Progs.v ===== *)
(** * The small programs: cat.c, echo.c, wc.c, grep.c, ls.c, ln.c, mkdir.c, rm.c, kill.c, init.c, the loop of sh.c

    The programs run over the system calls, an interface whose state is that of the rest of the
    machine as the process sees it.  [exit] ends a program: its value is [None] there.  What a
    program prints is proved over any implementation of the calls that serves files in pieces of
    any sizes. *)
From Stdlib Require Import Ascii String.
From S2P Require Import Prelude Bytes Strings Fs Printf Grep.

(** ** System calls *)

(** [u_read] gives the result of the call and the bytes it put into the buffer, as many as the result if that is positive;
    [u_fstat] its result and the structure. *)
Class UserOS (W : Type) : Type := {
  u_read : Z -> Z -> M W (Z * list Z);
  u_write : Z -> list Z -> M W Z;
  u_open : list Z -> Z -> M W Z;
  u_close : Z -> M W Z;
  u_fstat : Z -> M W (Z * stat);
  u_link : list Z -> list Z -> M W Z;
  u_mkdir : list Z -> M W Z;
  u_unlink : list Z -> M W Z;
  u_mknod : list Z -> Z -> Z -> M W Z;
  u_chdir : list Z -> M W Z;
  u_kill : Z -> M W Z;
  u_dup : Z -> M W Z;
  u_fork : M W Z;
  u_exec : list Z -> list (list Z) -> M W Z;
  u_wait : M W Z;
}.

Fixpoint text (s : string) : list Z :=
  match s with
  | EmptyString => []
  | String c s => Z.of_N (N_of_ascii c) :: text s
  end.
Definition line (s : string) : list Z := text s ++ [10].
Definition O_RDWR : Z := 2.

Section Programs.
Context {W : Type} {os : UserOS W}.

(** ** Programs that can exit *)

Definition U (A : Type) : Type := M W (option A).
Definition ubind {A B} (c : U A) (k : A -> U B) : U B :=
  let! o := c in
  match o with Some a => k a | None => ret None end.
Definition uret {A} (a : A) : U A := ret (Some a).
Definition uexit {A} : U A := ret None.
Definition sys {A} (c : M W A) : U A := let! a := c in ret (Some a).
Notation "'let?' x := c 'in' k" := (ubind c (fun x => k)) (at level 10, x name, c at level 100, k at level 200).
Notation "'do?' c 'in' k" := (ubind c (fun _ => k)) (at level 10, c at level 100, k at level 200).

(** [printf]: every character is written by itself. *)
Definition putc (fd c : Z) : U unit := do? sys (u_write fd [c]) in uret tt.
Fixpoint puts (fd : Z) (l : list Z) : U unit :=
  match l with
  | [] => uret tt
  | c :: l => do? putc fd c in puts fd l
  end.
Definition uprintf (fd : Z) (fmt : list Z) (args : list arg) : U unit :=
  match printf fmt args with
  | Some t => puts fd t
  | None => fun _ => Panic "undefined behaviour"
  end.
Definition str (s : list Z) : arg := AStr (Some s).

(** [while((n = read(fd, buf, size)) > 0) body]: the last [n], and what the body has made of [st]. *)
Fixpoint while_read {St} (fuel : nat) (fd : Z) (size : St -> Z) (body : St -> list Z -> U St) (st : St) : U (Z * St) :=
  match fuel with
  | O => out_of_fuel
  | S fuel =>
      let? r := sys (u_read fd (size st)) in
      if 0 <? r.1 then
        let? st := body st (take (Z.to_nat r.1) r.2) in
        while_read fuel fd size body st
      else uret (r.1, st)
  end.

(** [for(i = ...; i < argc; i++) f(argv[i])] *)
Fixpoint for_args (f : list Z -> U unit) (l : list (list Z)) : U unit :=
  match l with
  | [] => uret tt
  | a :: l => do? f a in for_args f l
  end.

(** ** cat.c *)

Definition cat (fuel : nat) (fd : Z) : U unit :=
  let? r := while_read fuel fd (fun _ => 512)
    (fun _ buf =>
      let? w := sys (u_write 1 buf) in
      if negb (w =? Z.of_nat (length buf)) then do? uprintf 1 (line "cat: write error") [] in uexit else uret tt) tt in
  if r.1 <? 0 then do? uprintf 1 (line "cat: read error") [] in uexit else uret tt.

Definition cat_main (fuel : nat) (argv : list (list Z)) : U unit :=
  if (length argv <=? 1)%nat then do? cat fuel 0 in uexit
  else
    do? for_args (fun a =>
      let? fd := sys (u_open a 0) in
      if fd <? 0 then do? uprintf 1 (line "cat: cannot open %s") [str a] in uexit
      else do? cat fuel fd in do? sys (u_close fd) in uret tt) (drop 1 argv) in
    uexit.

(** ** echo.c *)

Fixpoint echo_loop (l : list (list Z)) : U unit :=
  match l with
  | [] => uret tt
  | a :: l => do? uprintf 1 (text "%s%s") [str a; str (match l with [] => [10] | _ => [32] end)] in echo_loop l
  end.
Definition echo_main (argv : list (list Z)) : U unit := do? echo_loop (drop 1 argv) in uexit.

(** ** wc.c *)

Definition wc_fd (fuel : nat) (fd : Z) (name : list Z) : U unit :=
  let? r := while_read fuel fd (fun _ => 512) (fun k buf => uret (foldl wc_char k buf)) (Counts 0 0 0 false) in
  if r.1 <? 0 then do? uprintf 1 (line "wc: read error") [] in uexit
  else uprintf 1 (line "%d %d %d %s") [AInt (wc_l r.2); AInt (wc_w r.2); AInt (wc_c r.2); str name].

Definition wc_main (fuel : nat) (argv : list (list Z)) : U unit :=
  if (length argv <=? 1)%nat then do? wc_fd fuel 0 [] in uexit
  else
    do? for_args (fun a =>
      let? fd := sys (u_open a 0) in
      if fd <? 0 then do? uprintf 1 (line "wc: cannot open %s") [str a] in uexit
      else do? wc_fd fuel fd a in do? sys (u_close fd) in uret tt) (drop 1 argv) in
    uexit.

(** ** grep.c *)

Fixpoint write_lines (l : list (list Z)) : U unit :=
  match l with
  | [] => uret tt
  | a :: l => do? sys (u_write 1 a) in write_lines l
  end.
(** Texts without a NUL, as in [Grep]; the state of the loop is [buf[0..m)]. *)
Definition grep_fd (fuel : nat) (pattern : list Z) (fd : Z) : U unit :=
  do? while_read fuel fd (fun kept => 1024 - Z.of_nat (length kept) - 1)
    (fun kept chunk => let (out, kept') := grep_chunk pattern kept chunk in do? write_lines out in uret kept') [] in
  uret tt.

Definition grep_main (fuel : nat) (argv : list (list Z)) : U unit :=
  match argv with
  | _ :: pattern :: files =>
      match files with
      | [] => do? grep_fd fuel pattern 0 in uexit
      | _ =>
          do? for_args (fun a =>
            let? fd := sys (u_open a 0) in
            if fd <? 0 then do? uprintf 1 (line "grep: cannot open %s") [str a] in uexit
            else do? grep_fd fuel pattern fd in do? sys (u_close fd) in uret tt) files in
          uexit
      end
  | _ => do? uprintf 2 (line "usage: grep pattern [file ...]") [] in uexit
  end.

(** ** ln.c, mkdir.c, rm.c, kill.c *)

Definition ln_main (argv : list (list Z)) : U unit :=
  match argv with
  | [_; old; new] =>
      let? r := sys (u_link old new) in
      do? (if r <? 0 then uprintf 2 (line "link %s %s: failed") [str old; str new] else uret tt) in
      uexit
  | _ => do? uprintf 2 (line "Usage: ln old new") [] in uexit
  end.

(** A loop that a failed call leaves by [break]. *)
Fixpoint until_failure (call : list Z -> M W Z) (msg : list Z) (l : list (list Z)) : U unit :=
  match l with
  | [] => uret tt
  | a :: l =>
      let? r := sys (call a) in
      if r <? 0 then uprintf 2 msg [str a] else until_failure call msg l
  end.
Definition mkdir_main (argv : list (list Z)) : U unit :=
  if (length argv <? 2)%nat then do? uprintf 2 (line "Usage: mkdir files...") [] in uexit
  else do? until_failure u_mkdir (line "mkdir: %s failed to create") (drop 1 argv) in uexit.
Definition rm_main (argv : list (list Z)) : U unit :=
  if (length argv <? 2)%nat then do? uprintf 2 (line "Usage: rm files...") [] in uexit
  else do? until_failure u_unlink (line "rm: %s failed to delete") (drop 1 argv) in uexit.

Definition kill_main (argv : list (list Z)) : U unit :=
  if (length argv <? 2)%nat then do? uprintf 2 (line "usage: kill pid...") [] in uexit
  else do? for_args (fun a => do? sys (u_kill (atoi a)) in uret tt) (drop 1 argv) in uexit.

(** ** ls.c *)

(** The characters after the last slash. *)
Fixpoint after_slash (path : list Z) : list Z :=
  match path with
  | [] => []
  | c :: path' => if bool_decide (47 ∈ path') then after_slash path' else if c =? 47 then path' else path
  end.
(** [buf] is static and its last byte is never written. *)
Definition fmtname (path : list Z) : list Z :=
  let p := after_slash path in
  if (DIRSIZ <=? length p)%nat then p else p ++ replicate (DIRSIZ - length p) 32.

(** [stat] of ulib.c. *)
Definition ustat (path : list Z) : U (Z * stat) :=
  let? fd := sys (u_open path 0) in
  if fd <? 0 then uret (-1, Stat 0 0 0 0 0)
  else
    let? r := sys (u_fstat fd) in
    do? sys (u_close fd) in
    uret r.

Definition print_stat (path : list Z) (st : stat) : U unit :=
  uprintf 1 (line "%s %d %d %d") [str (fmtname path); AInt (st_type st); AInt (st_ino st); AInt (st_size st)].

(** The string in an array of bytes. *)
Fixpoint c_string (l : list Z) : list Z :=
  match l with
  | [] => []
  | c :: l => if c =? 0 then [] else c :: c_string l
  end.

(** The loop over the entries; [path] is the string up to the slash that it adds. *)
Fixpoint ls_entries (fuel : nat) (fd : Z) (path : list Z) : U unit :=
  match fuel with
  | O => out_of_fuel
  | S fuel =>
      let? r := sys (u_read fd 16) in
      if negb (r.1 =? 16) then uret tt
      else if get16 r.2 0 =? 0 then ls_entries fuel fd path
      else
        let buf := path ++ [47] ++ c_string (take DIRSIZ (drop 2 r.2)) in
        let? q := ustat buf in
        do? (if q.1 <? 0 then uprintf 1 (line "ls: cannot stat %s") [str buf] else print_stat buf q.2) in
        ls_entries fuel fd path
  end.

Definition ls (fuel : nat) (path : list Z) : U unit :=
  let? fd := sys (u_open path 0) in
  if fd <? 0 then uprintf 2 (line "ls: cannot open %s") [str path]
  else
    let? r := sys (u_fstat fd) in
    if r.1 <? 0 then
      do? uprintf 2 (line "ls: cannot stat %s") [str path] in
      do? sys (u_close fd) in
      uret tt
    else
      do? (if st_type r.2 =? T_FILE then print_stat path r.2
           else if st_type r.2 =? T_DIR then
             if (512 <? length path + 1 + DIRSIZ + 1)%nat then uprintf 1 (line "ls: path too long") []
             else ls_entries fuel fd path
           else uret tt) in
      do? sys (u_close fd) in
      uret tt.

Definition ls_main (fuel : nat) (argv : list (list Z)) : U unit :=
  if (length argv <? 2)%nat then do? ls fuel (text ".") in uexit
  else do? for_args (ls fuel) (drop 1 argv) in uexit.

(** ** init.c *)

Definition console_name : list Z := text "console".
Definition init_start : U unit :=
  let? fd := sys (u_open console_name O_RDWR) in
  do? (if fd <? 0 then do? sys (u_mknod console_name 1 1) in do? sys (u_open console_name O_RDWR) in uret tt else uret tt) in
  do? sys (u_dup 0) in
  do? sys (u_dup 0) in
  uret tt.

Fixpoint init_wait (fuel : nat) (pid : Z) : U unit :=
  match fuel with
  | O => out_of_fuel
  | S fuel =>
      let? wpid := sys u_wait in
      if (0 <=? wpid) && negb (wpid =? pid) then do? uprintf 1 (line "zombie!") [] in init_wait fuel pid
      else uret tt
  end.
(** One turn of the loop that never ends. *)
Definition init_turn (fuel : nat) : U unit :=
  do? uprintf 1 (line "init: starting sh") [] in
  let? pid := sys u_fork in
  if pid <? 0 then do? uprintf 1 (line "init: fork failed") [] in uexit
  else if pid =? 0 then
    do? sys (u_exec (text "sh") [text "sh"]) in
    do? uprintf 1 (line "init: exec sh failed") [] in
    uexit
  else init_wait fuel pid.

(** ** The loop of sh.c *)

(** [runcmd(parsecmd(buf))], which does not return. *)
Variable run_line : list Z -> U unit.

(** The loop of [gets], with room for [room] characters; what it stores before the terminator. *)
Fixpoint ugets (room : nat) : U (list Z) :=
  match room with
  | O => uret []
  | S room =>
      let? r := sys (u_read 0 1) in
      if r.1 <? 1 then uret []
      else
        let c := default 0 (r.2 !! O) in
        if (c =? 10) || (c =? 13) then uret [c]
        else let? l := ugets room in uret (c :: l)
  end.

(** [getcmd(buf, 100)]: the string in [buf], or [None] at the end of the input. *)
Definition getcmd : U (option (list Z)) :=
  do? uprintf 2 (text "$ ") [] in
  let? l := ugets 99 in
  uret (match l with [] => None | c :: _ => if c =? 0 then None else Some (c_string l) end).

Definition ufork1 : U Z :=
  let? pid := sys u_fork in
  if pid =? -1 then do? uprintf 2 (line "%s") [str (text "fork")] in uexit else uret pid.

(** [cd] and a space. *)
Definition is_cd (buf : list Z) : bool := bool_decide (take 3 buf = [99; 100; 32]).
(** What the loop does with a line. *)
Definition sh_line (buf : list Z) : U unit :=
  if is_cd buf then
    let dir := drop 3 (take (length buf - 1) buf) in
    let? r := sys (u_chdir dir) in
    if r <? 0 then uprintf 2 (line "cannot cd %s") [str dir] else uret tt
  else
    let? pid := ufork1 in
    do? (if pid =? 0 then run_line buf else uret tt) in
    do? sys u_wait in
    uret tt.

Fixpoint sh_open (fuel : nat) : U unit :=
  match fuel with
  | O => out_of_fuel
  | S fuel =>
      let? fd := sys (u_open console_name O_RDWR) in
      if 0 <=? fd then
        if 3 <=? fd then do? sys (u_close fd) in uret tt else sh_open fuel
      else uret tt
  end.
Fixpoint sh_loop (fuel : nat) : U unit :=
  match fuel with
  | O => out_of_fuel
  | S fuel =>
      let? o := getcmd in
      match o with
      | None => uexit
      | Some buf => do? sh_line buf in sh_loop fuel
      end
  end.
Definition sh_main (fuel : nat) : U unit := do? sh_open fuel in sh_loop fuel.
End Programs.

(** ** A machine that serves files *)

Section Serving.
Context {W : Type} {os : UserOS W}.
Abbreviation U := (U (W := W)).
(** The files by their names, what [fstat] says of them; of a state, the path of each descriptor and what is left to read of
    it, and what has been written to each. *)
Variable contents : list Z -> option (list Z).
Variable stat_of : list Z -> stat.
Variable fds : W -> Z -> option (list Z * list Z).
Variable out : W -> Z -> list Z.

(** A read gives any positive number of the bytes that are left, and all that fit in the case of a directory. *)
Class Serves : Prop := {
  sv_read w fd n p r : 0 < n -> fds w fd = Some (p, r) ->
    exists k w', u_read fd n w = Ok ((Z.of_nat k, take k r), w') /\ Z.of_nat k <= n /\ (k <= List.length r)%nat /\ (r <> [] -> k <> O) /\
      (st_type (stat_of p) = T_DIR -> k = Nat.min (Z.to_nat n) (List.length r)) /\
      fds w' = <[fd := Some (p, drop k r)]> (fds w) /\ out w' = out w;
  sv_write w fd bs : fd = 1 \/ fd = 2 ->
    exists w', u_write fd bs w = Ok (Z.of_nat (List.length bs), w') /\ fds w' = fds w /\ out w' = <[fd := out w fd ++ bs]> (out w);
  sv_open w p : exists r w', u_open p 0 w = Ok (r, w') /\ out w' = out w /\
    match contents p with
    | Some c => 3 <= r /\ fds w r = None /\ fds w' = <[r := Some (p, c)]> (fds w)
    | None => r < 0 /\ fds w' = fds w
    end;
  sv_close w fd : exists r w', u_close fd w = Ok (r, w') /\ out w' = out w /\ fds w' = <[fd := None]> (fds w);
  sv_fstat w fd p r : fds w fd = Some (p, r) -> exists w', u_fstat fd w = Ok ((0, stat_of p), w') /\ out w' = out w /\ fds w' = fds w;
}.
Context `{sv : Serves}.

(** The program writes [t] to [fd] and leaves the descriptors as they were. *)
Definition says {A} (c : U A) (a : option A) (fd : Z) (t : list Z) : Prop := forall w,
  exists w', c w = Ok (a, w') /\ fds w' = fds w /\ out w' = <[fd := out w fd ++ t]> (out w).

Lemma ubind_some {A B} (c : U A) (k : A -> U B) w a w' : c w = Ok (Some a, w') -> ubind c k w = k a w'.
Proof. intros E. unfold ubind, bind. by rewrite E. Qed.
Lemma ubind_none {A B} (c : U A) (k : A -> U B) w w' : c w = Ok (None, w') -> ubind c k w = Ok (None, w').
Proof. intros E. unfold ubind, bind. by rewrite E. Qed.
Lemma sys_Ok {A} (c : M W A) w a w' : c w = Ok (a, w') -> sys c w = Ok (Some a, w').
Proof. intros E. unfold sys, bind. by rewrite E. Qed.

Lemma says_ret {A} (a : A) fd : says (uret a) (Some a) fd [].
Proof. intros w. exists w. split; [done|]. split; [done|]. rewrite app_nil_r. symmetry. by apply fn_insert_id. Qed.
Lemma says_exit {A} fd : says (uexit : U A) None fd [].
Proof. intros w. exists w. split; [done|]. split; [done|]. rewrite app_nil_r. symmetry. by apply fn_insert_id. Qed.
Lemma says_bind {A B} (c : U A) (k : A -> U B) a b fd t1 t2 : says c (Some a) fd t1 -> says (k a) b fd t2 -> says (ubind c k) b fd (t1 ++ t2).
Proof.
  intros H1 H2 w. destruct (H1 w) as (w1 & E1 & F1 & O1), (H2 w1) as (w2 & E2 & F2 & O2). exists w2.
  split; [by rewrite (ubind_some _ _ _ _ _ E1)|]. split; [congruence|]. rewrite O2, O1, fn_lookup_insert, fn_insert_insert, app_assoc. done.
Qed.
Lemma says_none {A B} (c : U A) (k : A -> U B) fd t : says c None fd t -> says (ubind c k) None fd t.
Proof. intros H w. destruct (H w) as (w1 & E1 & F1 & O1). exists w1. split; [by apply ubind_none|done]. Qed.
Lemma says_write {fd} bs : fd = 1 \/ fd = 2 -> says (sys (u_write fd bs)) (Some (Z.of_nat (List.length bs))) fd bs.
Proof. intros Hf w. destruct (sv_write w fd bs Hf) as (w' & E & F & O). exists w'. split; [by apply sys_Ok|done]. Qed.

Lemma says_puts {fd} t : fd = 1 \/ fd = 2 -> says (puts fd t) (Some tt) fd t.
Proof.
  intros Hf. induction t as [|c t IH]; [apply says_ret|]. apply (says_bind _ _ tt (Some tt) fd [c] t); [|exact IH].
  unfold putc. apply (says_bind _ _ 1 (Some tt) fd [c] []); [by apply (says_write [c])|apply says_ret].
Qed.
Lemma says_printf {fd} fmt args t : fd = 1 \/ fd = 2 -> printf fmt args = Some t -> says (uprintf fd fmt args) (Some tt) fd t.
Proof. intros Hf E. unfold uprintf. rewrite E. by apply says_puts. Qed.

(** ** Reading a file to its end *)

Fixpoint chunks_out {St} (f : St -> list Z -> St) (g : St -> list Z -> list Z) (st : St) (l : list (list Z)) : list Z :=
  match l with
  | [] => []
  | c :: l => g st c ++ chunks_out f g (f st c) l
  end.

Lemma while_read_spec {St} (f : St -> list Z -> St) g fd size body p fuel : (forall st : St, 0 < size st) ->
  (forall st c, says (body st c) (Some (f st c)) 1 (g st c)) ->
  forall st w r, fds w fd = Some (p, r) -> (List.length r < fuel)%nat ->
  exists chunks w', concat chunks = r /\ while_read fuel fd size body st w = Ok (Some (0, foldl f st chunks), w') /\
    fds w' = <[fd := Some (p, [])]> (fds w) /\ out w' = <[1 := out w 1 ++ chunks_out f g st chunks]> (out w).
Proof.
  intros Hs Hb. induction fuel as [|fuel IH]; intros st w r Hr Hf; [lia|]. cbn [while_read].
  destruct (sv_read w fd (size st) p r (Hs st) Hr) as (k & w1 & E1 & K1 & K2 & K3 & _ & F1 & O1).
  rewrite (ubind_some _ _ _ _ _ (sys_Ok _ _ _ _ E1)). cbn [fst snd]. destruct (Z.ltb_spec 0 (Z.of_nat k)) as [Hk|Hk].
  - rewrite Nat2Z.id, take_take, Nat.min_id. destruct (Hb st (take k r) w1) as (w2 & E2 & F2 & O2). rewrite (ubind_some _ _ _ _ _ E2).
    destruct (IH (f st (take k r)) w2 (drop k r)) as (chunks & w3 & C3 & E3 & F3 & O3).
    { by rewrite F2, F1, fn_lookup_insert. }
    { rewrite length_drop. lia. }
    exists (take k r :: chunks), w3. split; [cbn [concat]; by rewrite C3, take_drop|]. split; [exact E3|].
    split; [by rewrite F3, F2, F1, fn_insert_insert|]. cbn [chunks_out]. rewrite O3, O2, O1, fn_lookup_insert, fn_insert_insert, app_assoc. done.
  - assert (k = O) as -> by lia. assert (r = []) as -> by (destruct r; [done|]; by destruct K3).
    exists [], w1. split; [done|]. split; [reflexivity|]. split; [by rewrite F1|]. cbn [chunks_out]. rewrite O1, app_nil_r. symmetry. by apply fn_insert_id.
Qed.

(** ** What the programs print *)

Definition dec (v : Z) : list Z := default [] (print_d (s32 v)).
Lemma print_dec v : print_d (s32 v) = Some (dec v).
Proof.
  unfold dec. destruct (print_d_correct (s32 v)) as (ds & E & _); [apply s32_bound|by rewrite E].
Qed.

Ltac formats :=
  cbn [format Z.eqb Pos.eqb negb andb arg_int arg_str then_put fmap option_fmap option_map]; rewrite ?print_dec;
  cbn [fmap option_fmap option_map app]; rewrite <-?app_assoc; reflexivity.

(** The output for a list of files: [h] for each, up to one that cannot be opened. *)
Fixpoint until_missing (h : list Z -> list Z -> list Z) (msg : list Z -> list Z) (files : list (list Z)) : list Z :=
  match files with
  | [] => []
  | a :: files => match contents a with Some c => h a c ++ until_missing h msg files | None => msg a end
  end.
(** The text of one file, read to its end. *)
Definition reads_all (prog : Z -> U unit) (h : list Z -> list Z) (a : list Z) : Prop := forall w fd c,
  contents a = Some c -> fds w fd = Some (a, c) ->
  exists w', prog fd w = Ok (Some tt, w') /\ fds w' = <[fd := Some (a, [])]> (fds w) /\ out w' = <[1 := out w 1 ++ h c]> (out w).

Lemma for_files prog fmt h msg files : (forall a, printf fmt [str a] = Some (msg a)) -> (forall a, a ∈ files -> reads_all (prog a) (h a) a) ->
  exists o, says (for_args (fun a =>
      ubind (sys (u_open a 0)) (fun fd => if fd <? 0 then ubind (uprintf 1 fmt [str a]) (fun _ => uexit)
      else ubind (prog a fd) (fun _ => ubind (sys (u_close fd)) (fun _ => uret tt)))) files) o 1 (until_missing h msg files).
Proof.
  intros Hm Hp. induction files as [|a files IH]; [exists (Some tt); apply says_ret|]. cbn [for_args until_missing].
  destruct IH as [o IH]; [intros b Hb; apply Hp; by right|]. destruct (contents a) as [c|] eqn:Hc.
  - exists o. apply (says_bind _ _ tt); [|exact IH]. intros w. destruct (sv_open w a) as (fd & w1 & E1 & O1 & H1). rewrite Hc in H1. destruct H1 as (H3 & Hn & F1).
    rewrite (ubind_some _ _ _ _ _ (sys_Ok _ _ _ _ E1)). destruct (Z.ltb_spec fd 0); [lia|].
    destruct (Hp a (list_elem_of_here _ _) w1 fd c Hc) as (w2 & E2 & F2 & O2); [by rewrite F1, fn_lookup_insert|].
    rewrite (ubind_some _ _ _ _ _ E2). destruct (sv_close w2 fd) as (r3 & w3 & E3 & O3 & F3). rewrite (ubind_some _ _ _ _ _ (sys_Ok _ _ _ _ E3)).
    exists w3. split; [reflexivity|]. split; [rewrite F3, F2, F1, !fn_insert_insert; by apply fn_insert_id|by rewrite O3, O2, O1].
  - exists None. apply says_none. intros w. destruct (sv_open w a) as (fd & w1 & E1 & O1 & H1). rewrite Hc in H1. destruct H1 as [H3 F1].
    rewrite (ubind_some _ _ _ _ _ (sys_Ok _ _ _ _ E1)). destruct (Z.ltb_spec fd 0); [|lia].
    destruct (says_bind (uprintf 1 fmt [str a]) (fun _ => (uexit : U unit)) tt None 1 (msg a) [] (says_printf fmt [str a] (msg a) (or_introl eq_refl) (Hm a)) (says_exit 1) w1)
      as (w2 & E2 & F2 & O2). exists w2. split; [exact E2|]. split; [congruence|]. by rewrite O2, O1, app_nil_r.
Qed.
Lemma main_says {A} (c : U A) t : (exists o, says c o 1 t) -> says (ubind c (fun _ => (uexit : U unit))) None 1 t.
Proof.
  intros [[a|] H]; [|by apply says_none]. rewrite <-(app_nil_r t). apply (says_bind _ _ a); [done|apply says_exit].
Qed.

Lemma says_end {A} (c : U A) a fd t : says c a fd (t ++ []) -> says c a fd t.
Proof. by rewrite app_nil_r. Qed.
Lemma cat_reads fuel a c : contents a = Some c -> (List.length c < fuel)%nat -> reads_all (cat fuel) (fun c => c) a.
Proof.
  intros Hc Hf w fd c' Hc' Hw. rewrite Hc in Hc'. injection Hc' as <-. unfold cat.
  destruct (while_read_spec (fun _ _ => tt) (fun _ b => b) fd (fun _ => 512)
    (fun _ buf => ubind (sys (u_write 1 buf)) (fun r => if negb (r =? Z.of_nat (List.length buf)) then ubind (uprintf 1 (line "cat: write error") []) (fun _ => uexit) else uret tt))
    a fuel) with (st := tt) (w := w) (r := c) as (chunks & w' & C & E & F & O); [done| |done|done|].
  - intros [] b. apply says_end.
    apply (says_bind _ _ (Z.of_nat (List.length b))); [by apply says_write; left|]. rewrite Z.eqb_refl. apply says_ret.
  - rewrite (ubind_some _ _ _ _ _ E). exists w'. split; [reflexivity|]. split; [done|]. rewrite O. do 2 f_equal. rewrite <-C.
    clear. generalize tt. induction chunks as [|b l IH]; intros u; [done|]. cbn [chunks_out concat]. by rewrite IH.
Qed.

(** The line of [wc] for a file. *)
Definition wc_line (name c : list Z) : list Z :=
  dec (newlines c) ++ [32] ++ dec (Z.of_nat (List.length (words [] c))) ++ [32] ++ dec (Z.of_nat (List.length c)) ++ [32] ++ name ++ [10].
Lemma wc_reads fuel a c : contents a = Some c -> (List.length c < fuel)%nat -> Z.of_nat (List.length c) < 2147483648 ->
  reads_all (fun fd => wc_fd fuel fd a) (wc_line a) a.
Proof.
  intros Hc Hf Hb w fd c' Hc' Hw. rewrite Hc in Hc'. injection Hc' as <-. unfold wc_fd.
  destruct (while_read_spec (fun k b => foldl wc_char k b) (fun _ _ => []) fd (fun _ => 512) (fun k buf => uret (foldl wc_char k buf))
    a fuel) with (st := Counts 0 0 0 false) (w := w) (r := c) as (chunks & w1 & C & E & F & O); [done|intros; apply says_ret|done|done|].
  rewrite (ubind_some _ _ _ _ _ E). cbn [fst snd]. change (0 <? 0) with false. cbv iota. fold (wc chunks).
  destruct (wc_correct chunks) as (H1 & H2 & H3); [by rewrite C|]. rewrite H1, H2, H3, C.
  assert (O1 : out w1 = out w).
  { rewrite O. replace (chunks_out _ _ _ chunks) with (@nil Z); [rewrite app_nil_r; by apply fn_insert_id|].
    clear. generalize (Counts 0 0 0 false). induction chunks as [|b l IH]; intros k; [done|]. cbn [chunks_out app]. apply IH. }
  destruct (says_printf (fd := 1) (line "%d %d %d %s") [AInt (newlines c); AInt (Z.of_nat (List.length (words [] c))); AInt (Z.of_nat (List.length c)); str a] (wc_line a c)
    (or_introl eq_refl)) with (w := w1) as (w2 & E2 & F2 & O2); [|exists w2; split; [exact E2|]; split; [congruence|]; by rewrite O2, O1].
  change (line "%d %d %d %s") with [37; 100; 32; 37; 100; 32; 37; 100; 32; 37; 115; 10]. unfold printf, wc_line, str. formats.
Qed.

Fixpoint echo_text (l : list (list Z)) : list Z :=
  match l with
  | [] => []
  | a :: l => a ++ (match l with [] => [10] | _ => [32] end) ++ echo_text l
  end.
Lemma echo_says l : says (echo_loop l) (Some tt) 1 (echo_text l).
Proof.
  induction l as [|a l IH]; [apply says_ret|]. cbn [echo_loop echo_text]. rewrite app_assoc. apply (says_bind _ _ tt); [|exact IH].
  apply says_printf; [by left|]. change (text "%s%s") with [37; 115; 37; 115]. unfold printf, str.
  cbn [format Z.eqb Pos.eqb negb andb arg_str then_put]. by rewrite app_nil_r.
Qed.

(** ** ls *)

(** A name as [ls] shows it. *)
Definition pad (name : list Z) : list Z := if (DIRSIZ <=? List.length name)%nat then name else name ++ replicate (DIRSIZ - List.length name) 32.
Lemma after_slash_none l : 47 ∉ l -> after_slash l = l.
Proof.
  destruct l as [|c l]; [done|]. intros [Hc Hl]%not_elem_of_cons. cbn [after_slash]. rewrite bool_decide_eq_false_2 by done.
  by destruct (Z.eqb_spec c 47).
Qed.
Lemma after_slash_app path name : 47 ∉ name -> after_slash (path ++ 47 :: name) = name.
Proof.
  intros Hn. induction path as [|c path IH]; cbn [app after_slash].
  - by rewrite bool_decide_eq_false_2.
  - rewrite bool_decide_eq_true_2; [done|]. apply elem_of_app. right. by left.
Qed.

Definition stat_line (shown : list Z) (st : stat) : list Z :=
  shown ++ [32] ++ dec (st_type st) ++ [32] ++ dec (st_ino st) ++ [32] ++ dec (st_size st) ++ [10].
Lemma print_stat_says path st : says (print_stat path st) (Some tt) 1 (stat_line (fmtname path) st).
Proof.
  apply says_printf; [by left|]. change (line "%s %d %d %d") with [37; 115; 32; 37; 100; 32; 37; 100; 32; 37; 100; 10].
  unfold printf, stat_line, str. formats.
Qed.

(** What is printed for an entry, the 16 bytes [e], of the directory [path]. *)
Definition entry_line (path e : list Z) : list Z :=
  if get16 e 0 =? 0 then []
  else
    let name := c_string (take DIRSIZ (drop 2 e)) in
    match contents (path ++ 47 :: name) with
    | Some _ => stat_line (pad name) (stat_of (path ++ 47 :: name))
    | None => text "ls: cannot stat " ++ (path ++ 47 :: name) ++ [10]
    end.

(** [stat] of ulib.c. *)
Lemma ustat_says path fd : exists r, says (ustat path) (Some r) fd [] /\ match contents path with Some _ => r = (0, stat_of path) | None => r.1 < 0 end.
Proof.
  destruct (contents path) as [c|] eqn:Hc.
  - exists (0, stat_of path). split; [|done]. intros w. destruct (sv_open w path) as (d & w1 & E1 & O1 & H1). rewrite Hc in H1. destruct H1 as (H3 & Hn & F1).
    unfold ustat. rewrite (ubind_some _ _ _ _ _ (sys_Ok _ _ _ _ E1)). destruct (Z.ltb_spec d 0); [lia|].
    destruct (sv_fstat w1 d path c) as (w2 & E2 & O2 & F2); [by rewrite F1, fn_lookup_insert|]. rewrite (ubind_some _ _ _ _ _ (sys_Ok _ _ _ _ E2)).
    destruct (sv_close w2 d) as (r3 & w3 & E3 & O3 & F3). rewrite (ubind_some _ _ _ _ _ (sys_Ok _ _ _ _ E3)).
    exists w3. split; [reflexivity|]. split; [rewrite F3, F2, F1, fn_insert_insert; by apply fn_insert_id|].
    rewrite O3, O2, O1, app_nil_r. symmetry. by apply fn_insert_id.
  - exists (-1, Stat 0 0 0 0 0). split; [|cbn; lia]. intros w. destruct (sv_open w path) as (d & w1 & E1 & O1 & H1). rewrite Hc in H1. destruct H1 as (H3 & F1).
    unfold ustat. rewrite (ubind_some _ _ _ _ _ (sys_Ok _ _ _ _ E1)). destruct (Z.ltb_spec d 0); [|lia].
    exists w1. split; [reflexivity|]. split; [done|]. rewrite O1, app_nil_r. symmetry. by apply fn_insert_id.
Qed.

Lemma show_entry path e : 47 ∉ c_string (take DIRSIZ (drop 2 e)) -> (get16 e 0 =? 0) = false ->
  let buf := path ++ [47] ++ c_string (take DIRSIZ (drop 2 e)) in
  says (ubind (ustat buf) (fun q => if q.1 <? 0 then uprintf 1 (line "ls: cannot stat %s") [str buf] else print_stat buf q.2)) (Some tt) 1 (entry_line path e).
Proof.
  intros Hn He buf. unfold entry_line. rewrite He. cbv zeta. set (name := c_string _) in *. change (path ++ 47 :: name) with buf.
  destruct (ustat_says buf 1) as (r & Hr & Hc). 
  assert (Hend : says (if r.1 <? 0 then uprintf 1 (line "ls: cannot stat %s") [str buf] else print_stat buf r.2) (Some tt) 1
    match contents buf with Some _ => stat_line (pad name) (stat_of buf) | None => text "ls: cannot stat " ++ buf ++ [10] end).
  { destruct (contents buf).
    - subst r. cbn [fst snd]. change (0 <? 0) with false. cbv iota. assert (Hp : pad name = fmtname buf) by (unfold fmtname, pad, buf; cbn [app]; by rewrite after_slash_app).
      rewrite Hp. apply print_stat_says.
    - destruct (Z.ltb_spec r.1 0); [|lia]. apply says_printf; [by left|]. reflexivity. }
  apply (says_bind _ _ r (Some tt) 1 [] _ Hr Hend).
Qed.

Lemma ls_entries_spec path es : st_type (stat_of path) = T_DIR -> Forall (fun e => List.length e = 16%nat) es ->
  Forall (fun e => 47 ∉ c_string (take DIRSIZ (drop 2 e))) es ->
  forall fuel fd w, (List.length es < fuel)%nat -> fds w fd = Some (path, concat es) ->
  exists w', ls_entries fuel fd path w = Ok (Some tt, w') /\ fds w' = <[fd := Some (path, [])]> (fds w) /\
    out w' = <[1 := out w 1 ++ concat (map (entry_line path) es)]> (out w).
Proof.
  intros Hd. induction es as [|e es IH]; intros Hl Hs fuel fd w Hf Hw; (destruct fuel as [|fuel]; [cbn in Hf; lia|]); cbn [ls_entries].
  - destruct (sv_read w fd 16 path [] ltac:(lia) Hw) as (k & w1 & E1 & _ & K & _ & _ & F1 & O1). cbn in K. assert (k = O) as -> by lia.
    rewrite (ubind_some _ _ _ _ _ (sys_Ok _ _ _ _ E1)). exists w1. split; [reflexivity|]. split; [done|]. rewrite O1, app_nil_r. symmetry. by apply fn_insert_id.
  - apply Forall_cons_1 in Hl as [He Hl], Hs as [Hn Hs]. cbn [concat] in Hw.
    destruct (sv_read w fd 16 path (e ++ concat es) ltac:(lia) Hw) as (k & w1 & E1 & _ & _ & _ & K & F1 & O1).
    assert (k = 16%nat) as -> by (rewrite (K Hd), length_app, He; cbn; lia). rewrite (ubind_some _ _ _ _ _ (sys_Ok _ _ _ _ E1)).
    cbn [fst snd]. rewrite <-He, take_app_length. rewrite He. change (negb (Z.of_nat 16 =? 16)) with false. cbv iota.
    rewrite <-He, drop_app_length in F1.
    assert (Hf' : (List.length es < fuel)%nat) by (cbn in Hf; lia).
    destruct (get16 e 0 =? 0) eqn:Hz.
    + destruct (IH Hl Hs fuel fd w1 Hf') as (w2 & E2 & F2 & O2); [by rewrite F1, fn_lookup_insert|].
      exists w2. split; [exact E2|]. split; [by rewrite F2, F1, fn_insert_insert|]. rewrite O2, O1. cbn [map concat]. unfold entry_line at 2. by rewrite Hz.
    + destruct (show_entry path e Hn Hz w1) as (w2 & E2 & F2 & O2). cbv zeta in E2 |- *.
      destruct (IH Hl Hs fuel fd w2 Hf') as (w3 & E3 & F3 & O3); [by rewrite F2, F1, fn_lookup_insert|].
      exists w3. split; [|split; [by rewrite F3, F2, F1, fn_insert_insert|]].
      * rewrite <-E3. revert E2. unfold ubind, bind. destruct (ustat _ w1) as [[[q|] w5]| | |]; try done. intros E2. by rewrite E2.
      * rewrite O3, O2, O1. cbn [map concat]. by rewrite fn_lookup_insert, fn_insert_insert, app_assoc.
Qed.
End Serving.

(** ** Theorems *)

(** C38: the text programs.  Over any machine that serves files, in pieces of any sizes, [cat] writes the contents of the files one
    after the other, [wc] a line with the numbers of newlines, words and characters of each, both up to
    the first file that cannot be opened, which is reported, and [echo] its arguments; all three exit, and no descriptor is left open. *)
Theorem text_programs {W} {os : UserOS W} contents stat_of fds out fuel name f files :
  Serves contents stat_of fds out ->
  (forall a c, a ∈ f :: files -> contents a = Some c -> (length c < fuel)%nat /\ Z.of_nat (length c) < 2147483648) ->
  says fds out (cat_main fuel (name :: f :: files)) None 1
    (until_missing contents (fun _ c => c) (fun a => text "cat: cannot open " ++ a ++ [10]) (f :: files)) /\
  says fds out (wc_main fuel (name :: f :: files)) None 1
    (until_missing contents wc_line (fun a => text "wc: cannot open " ++ a ++ [10]) (f :: files)) /\
  says fds out (echo_main (name :: f :: files)) None 1 (echo_text (f :: files)).
Proof.
  intros Hs Hb.
  split; [|split].
  - apply (main_says _ _ (W := W)). apply (for_files contents stat_of fds out (fun _ => cat fuel)); [done|].
    intros a Ha w fd c Hc. destruct (Hb a c Ha Hc) as [H1 _]. by apply (cat_reads contents stat_of fds out fuel a c).
  - apply (main_says _ _ (W := W)). apply (for_files contents stat_of fds out (fun a fd => wc_fd fuel fd a)); [done|].
    intros a Ha w fd c Hc. destruct (Hb a c Ha Hc) as [H1 H2]. by apply (wc_reads contents stat_of fds out fuel a c).
  - apply (main_says _ _ (W := W)). exists (Some tt). by apply (echo_says contents stat_of fds out).
Qed.

(** [ls] of a directory prints a line for each entry in use, in order: the name filled up to 14 characters with type, number and size of
    the file of that name, or a message where that cannot be opened; the path that it puts together has room in its buffer of 512 bytes;
    and it closes what it opens. *)
Theorem ls_correct {W} {os : UserOS W} contents stat_of fds out fuel path es :
  Serves contents stat_of fds out -> contents path = Some (concat es) -> st_type (stat_of path) = T_DIR ->
  Forall (fun e => length e = 16%nat) es -> Forall (fun e => 47 ∉ c_string (take DIRSIZ (drop 2 e))) es ->
  (length path + 1 + DIRSIZ + 1 <= 512)%nat -> (length es < fuel)%nat ->
  says fds out (ls fuel path) (Some tt) 1 (concat (map (entry_line contents stat_of path) es)).
Proof.
  intros Hs Hc Hd Hl Hn Hp Hf w. unfold ls. destruct (sv_open contents stat_of fds out w path) as (fd & w1 & E1 & O1 & H1). rewrite Hc in H1. destruct H1 as (H3 & Hnone & F1).
  rewrite (ubind_some _ _ _ _ _ (sys_Ok _ _ _ _ E1)). destruct (Z.ltb_spec fd 0); [lia|].
  assert (Hfd : fds w1 fd = Some (path, concat es)) by (by rewrite F1, fn_lookup_insert).
  destruct (sv_fstat contents stat_of fds out w1 fd path _ Hfd) as (w2 & E2 & O2 & F2). rewrite (ubind_some _ _ _ _ _ (sys_Ok _ _ _ _ E2)). cbn [fst snd].
  change (0 <? 0) with false. cbv iota. rewrite Hd. change (T_DIR =? T_FILE) with false. rewrite Z.eqb_refl. cbv iota.
  destruct (Nat.ltb_spec 512 (length path + 1 + DIRSIZ + 1)); [lia|].
  destruct (ls_entries_spec contents stat_of fds out path es Hd Hl Hn fuel fd w2 Hf) as (w3 & E3 & F3 & O3); [by rewrite F2|].
  rewrite (ubind_some _ _ _ _ _ E3). destruct (sv_close contents stat_of fds out w3 fd) as (r4 & w4 & E4 & O4 & F4). rewrite (ubind_some _ _ _ _ _ (sys_Ok _ _ _ _ E4)).
  exists w4. split; [reflexivity|]. split; [rewrite F4, F3, F2, F1, !fn_insert_insert; by apply fn_insert_id|by rewrite O4, O3, O2, O1].
Qed.

(** ** Instances *)

(** Two files and a directory; descriptors are new numbers, reads of files give three bytes at most. *)
Definition demo_files (p : list Z) : option (list Z) :=
  if bool_decide (p = text "a") then Some (line "one two")
  else if bool_decide (p = text "d/a") then Some (line "one two")
  else if bool_decide (p = text "d") then Some ([1; 0; 97] ++ replicate 13 0 ++ replicate 16 0)
  else None.
Definition demo_stat (p : list Z) : stat := if bool_decide (p = text "d") then Stat 1 2 T_DIR 1 32 else Stat 1 1 T_FILE 1 8.
Definition demo_os : Type := gmap Z (list Z * list Z) * (Z -> list Z).
Definition new_fd (m : gmap Z (list Z * list Z)) : Z := 3 + foldr Z.max 0 (elements (dom m)).
#[local] Instance demo_calls : UserOS demo_os := {|
  u_read fd n := fun w => match w.1 !! fd with
    | Some (p, r) =>
        let n := if st_type (demo_stat p) =? T_DIR then n else Z.min n 3 in
        let k := Nat.min (Z.to_nat n) (length r) in Ok ((Z.of_nat k, take k r), (<[fd := (p, drop k r)]> w.1, w.2))
    | None => Ok ((-1, []), w)
    end;
  u_write fd bs := fun w => Ok (Z.of_nat (length bs), (w.1, <[fd := w.2 fd ++ bs]> w.2));
  u_open p _ := fun w => match demo_files p with
    | Some c => Ok (new_fd w.1, (<[new_fd w.1 := (p, c)]> w.1, w.2))
    | None => Ok (-1, w)
    end;
  u_close fd := fun w => Ok (0, (delete fd w.1, w.2));
  u_fstat fd := fun w => match w.1 !! fd with Some (p, _) => Ok ((0, demo_stat p), w) | None => Ok ((-1, Stat 0 0 0 0 0), w) end;
  u_link _ _ := ret (-1);
  u_mkdir _ := ret (-1);
  u_unlink _ := ret (-1);
  u_mknod _ _ _ := ret (-1);
  u_chdir _ := ret (-1);
  u_kill _ := ret (-1);
  u_dup _ := ret (-1);
  u_fork := ret (-1);
  u_exec _ _ := ret (-1);
  u_wait := ret (-1);
|}.
Definition demo_fds (w : demo_os) (fd : Z) : option (list Z * list Z) := w.1 !! fd.

Lemma new_fd_free m : 3 <= new_fd m /\ m !! new_fd m = None.
Proof.
  assert (H : forall l : list Z, 0 <= foldr Z.max 0 l /\ forall x, x ∈ l -> x <= foldr Z.max 0 l).
  { induction l as [|y l [IH1 IH2]]; [split; [done|]; intros x Hx; by apply elem_of_nil in Hx|]. cbn [foldr]. split; [lia|].
    intros x [->|Hx]%elem_of_cons; [lia|]. specialize (IH2 x Hx). lia. }
  unfold new_fd. destruct (H (elements (dom m))) as [H1 H2]. split; [lia|]. apply not_elem_of_dom. intros Hd.
  specialize (H2 _ (proj2 (elem_of_elements _ _) Hd)). lia.
Qed.
Lemma demo_fds_insert m o fd x : demo_fds (<[fd := x]> m, o) = <[fd := Some x]> (demo_fds (m, o)).
Proof.
  apply functional_extensionality. intros j. unfold demo_fds. cbn [fst]. destruct (decide (j = fd)) as [->|Hj].
  - by rewrite lookup_insert_eq, fn_lookup_insert.
  - by rewrite lookup_insert_ne, fn_lookup_insert_ne by congruence.
Qed.
#[local] Instance demo_serves : Serves demo_files demo_stat demo_fds (fun w => w.2).
Proof.
  split.
  - intros [m o] fd n p r Hn Hr. unfold demo_fds in Hr. cbn [fst] in Hr. cbn [u_read demo_calls fst snd]. rewrite Hr.
    set (n' := if st_type (demo_stat p) =? T_DIR then n else Z.min n 3). assert (Hn' : 0 < n' <= n) by (unfold n'; destruct (_ =? _); lia).
    eexists _, _. split; [reflexivity|]. split; [lia|]. split; [lia|]. split; [destruct r; [done|cbn [length]; lia]|]. split; [|split; [apply demo_fds_insert|done]].
    intros Hd. unfold n'. by rewrite Hd.
  - intros [m o] fd bs _. by eexists.
  - intros [m o] p. cbn [u_open demo_calls fst snd]. destruct (demo_files p) as [c|].
    + eexists _, _. split; [reflexivity|]. split; [done|]. destruct (new_fd_free m). split; [done|]. split; [done|]. apply demo_fds_insert.
    + eexists _, _. split; [reflexivity|]. split; [done|]. by split.
  - intros [m o] fd. eexists _, _. split; [reflexivity|]. split; [done|]. apply functional_extensionality. intros j. unfold demo_fds. cbn [fst].
    destruct (decide (j = fd)) as [->|Hj]; [by rewrite lookup_delete_eq, fn_lookup_insert|by rewrite lookup_delete_ne, fn_lookup_insert_ne by congruence].
  - intros [m o] fd p r Hr. unfold demo_fds in Hr. cbn [fst] in Hr. cbn [u_fstat demo_calls fst]. rewrite Hr. by eexists.
Qed.

Lemma text_programs_witness :
  exists w, cat_main 40 [text "cat"; text "a"; text "x"; text "a"] ((∅, fun _ => []) : demo_os) = Ok (None, w) /\
    w.2 1 = line "one two" ++ line "cat: cannot open x".
Proof.
  destruct (text_programs demo_files demo_stat demo_fds (fun w => w.2) 40 (text "cat") (text "a") [text "x"; text "a"] demo_serves) as [H _].
  - intros a c _ Hc. unfold demo_files in Hc. repeat case_bool_decide; try discriminate Hc; injection Hc as <-; (split; [vm_compute; lia|reflexivity]).
  - destruct (H ((∅, fun _ => []) : demo_os)) as (w & E & _ & O). exists w. split; [exact E|]. rewrite O. reflexivity.
Defined.

Lemma ls_correct_witness :
  exists w, ls 5 (text "d") ((∅, fun _ => []) : demo_os) = Ok (Some tt, w) /\ w.2 1 = line "a              2 1 8".
Proof.
  destruct (ls_correct demo_files demo_stat demo_fds (fun w => w.2) 5 (text "d") [[1; 0; 97] ++ replicate 13 0; replicate 16 0] demo_serves
    eq_refl eq_refl) with (w := (∅, fun _ => []) : demo_os) as (w & E & _ & O).
  - repeat constructor.
  - repeat constructor; vm_compute; intros H; repeat (apply elem_of_cons in H as [H|H]; [discriminate H|]); by apply elem_of_nil in H.
  - vm_compute. lia.
  - cbn. lia.
  - exists w. split; [exact E|]. rewrite O. vm_compute. reflexivity.
Defined.
